(* ===== verification/_CoqProject ===== *)
-Q . S2P
Prelude.v
GoLib.v
Table.v
Parser.v
ParserFacts.v
ParserSplit.v
ParserRun.v
ParserMessage.v
ParserProps.v
ParserResponse.v
WsMask.v
WsConn.v
WsFacts.v
WsRound.v
WsQueue.v
WsCompress.v
WsProps.v
Mempool.v
MempoolFacts.v
MempoolProps.v
NbConn.v
NbConnFacts.v
NbConnStream.v
NbConnKernel.v
NbConnProps.v
NbRead.v
NbReadProps.v
AsyncRead.v
JobList.v
TaskPool.v
Body.v
Response.v
ResponseProps.v
Processor.v
ProcessorProps.v
ServerRun.v
ClientRun.v
Client.v
GoCrypto.v
Handshake.v
HandshakeProps.v
Timer.v
EngineRun.v
Lmux.v
ConnKey.v
HttpEngine.v
HttpEngineProps.v
BlockRead.v
EngineConfig.v
EngineStart.v
HttpStart.v
WsUpgrade.v
Udp.v
ClientPool.v
Socks5.v
EndToEnd.v
ResponseFile.v
StdConn.v
Kqueue.v
TraceDebug.v
ProtocolStack.v
Dial.v
WsSession.v
EpollLoop.v
IoPool.v
WsDial.v
HttpProxy.v
SockConv.v
StdEngine.v
Shutdown.v
TlsExt.v
WsOptions.v
PollerStop.v
WritevBsd.v
Handlers.v
WsDeflate.v
