(* ===== verification/Prelude.v ===== *)
(** * nbio: a verification library for the networking framework

    nbio is an event-driven networking framework: pollers wait for events of
    non-blocking sockets, connections queue what the kernel does not take, an
    incremental HTTP/1.x parser turns the bytes read into calls of a processor,
    which builds requests, runs handlers on an executor and sends responses;
    a connection may switch to the WebSocket protocol; buffers come from memory
    pools.  This library translates that code into Rocq functions and step
    relations and proves what makes it correct.

    ** Parts, files and sources

    - Shared: [Prelude] (bytes, slices with Go's bounds checks, w-bit integers,
      tactics and hints), [GoLib] and [GoCrypto] (the functions of Go's standard
      library the sources call: strings, strconv, textproto, url, binary, SHA-1,
      base64, UTF-8).
    - HTTP parser (src/nbhttp/parser.go, state.go, table.go, error.go): [Table]
      (character tables, errors), [Parser] (record, one definition per group of
      states of the switch in [Parse], framing decisions, caching between
      calls), [ParserFacts] (invariant of the loop), [ParserSplit] (totality,
      independence of the cuts), [ParserRun] and [ParserMessage] (the machine
      that takes one byte at a time, and the wire form of messages),
      [ParserResponse] (the wire form of responses), [ParserProps] (the claims).  The interfaces [Processor] and [ParserCloser]
      of the source are type classes; the parser's theorems hold for every
      instance.
    - WebSocket (src/nbhttp/websocket): [WsMask] (maskXOR), [WsConn] (frames,
      messages, dispatch, writing, closing; conn.go), [WsFacts], [WsRound],
      [WsQueue] (the queue of the asynchronous mode, as interleaved steps),
      [WsCompress] and [WsDeflate] (compression.go: the tail of deflate, and the
      chain of writers over a class for package flate), [WsProps]; [WsSession] (conn.go: reader,
      executor, writers, keepalive timer and close of one connection, as
      interleaved steps); [WsOptions] (upgrader.go, compression.go: options, pools
      of flate readers and writers; sessions); [Handshake] (upgrader.go and
      dialer.go: scanning of header values, checks, negotiation, answer) and
      [HandshakeProps]; [WsUpgrade] (upgrader.go: the hand-over of a connection);
      [WsDial] (dialer.go: the handler of the answer against the waiting caller).
    - Memory (src/mempool): [Mempool] (the class [Allocator], its laws
      [AllocatorLaws], three implementations, the counters), [MempoolFacts] (each
      implementation keeps the laws), [MempoolProps], [TraceDebug] (the tracing
      allocator, over any other).  Buffers have an identity
      and an array with length and capacity, so that aliasing is visible.
    - Connection (src/conn_unix.go, sendfile_unix.go, writev_linux.go, conn.go,
      poller_epoll.go): [NbConn] (write queue, flush, sendfile, event
      registration, deadlines, close, against the classes [Kernel] and
      [Allocator]), [NbConnFacts] (laws of a kernel, invariant), [NbConnStream],
      [NbConnKernel] (a kernel that answers from a script), [NbConnProps];
      [NbRead] (reading and the handling of one event) and [NbReadProps];
      [AsyncRead] (reading outside the poller, as interleaved steps) and [IoPool]
      (the same with one-shot events, and the pool of buffers of
      src/taskpool/iotaskpool.go); [JobList] (Execute, as interleaved steps);
      [Udp] (sessions of a UDP server); [SockConv] (src/net_unix.go: taking over a
      connection of package net; socket options); [Dial] (src/engine_unix.go,
      net_unix.go: dialing).
    - Pollers: [EpollLoop] (src/poller_epoll.go, poller_kqueue.go: the accept loop,
      and batches of events against connections that are added step by step and
      descriptors that are used again), [Kqueue] (src/poller_kqueue.go: the queue of
      changes against a kernel that may refuse them, one event), [PollerStop]
      (creation, wake-up and closing of the descriptors of a poller), [WritevBsd]
      (src/writev_bsd.go), [StdConn] and [StdEngine] (src/conn_std.go,
      poller_std.go, engine_std.go, sendfile_std.go: the portable build).
    - Executors: [TaskPool] (src/taskpool/taskpool.go) and [Timer]
      (src/timer/timer.go), as interleaved steps.
    - Engines: [EngineRun] (src/engine.go, engine_unix.go, poller_epoll.go:
      connections that are added, dialed and closed while the engine stops),
      [Lmux] (src/lmux/lmux.go), [ConnKey] (src/nbhttp/convert.go), [HttpEngine]
      and [HttpEngineProps] (src/nbhttp/engine.go: admission of connections and
      their table), [BlockRead] (the same file: data handlers and read loops
      between the transport, plain or TLS, and the parser), [EngineConfig]
      (configurations and their defaults), [EngineStart] and [HttpStart] (starting,
      and what a failed start gives back; listeners), [Shutdown] (src/nbhttp/engine.go
      and engine.go: Shutdown against its context), [Handlers] (src/engine.go: the
      handlers, the count of connections behind them), [ProtocolStack]
      (src/protocol_stack.go), [TlsExt] (src/extension/tls/tls.go, over a class for
      the TLS connection).
    - HTTP messages (src/nbhttp/body.go, response.go, processor.go): [Body],
      [Response], [ResponseProps], [ResponseFile] (ReadFrom), [Processor] (ServerProcessor and
      ClientProcessor, instances of the parser's class), [ProcessorProps] (bytes
      to jobs), [ServerRun] (bytes to bytes).
    - HTTP client (src/nbhttp/client_conn.go, client.go): [Client]; [ClientRun]
      (bytes to calls of the handlers); [ClientPool] (the connections per host, as
      interleaved steps); [Socks5] and [HttpProxy] (the dialers for proxies).
    - [EndToEnd]: server and client put together.

    ** How code becomes definitions

    A method becomes a function from the state of its component to the next
    state; a panic of Go (index or slice out of range, nil dereference) is
    [None] or an explicit panic result, errors are values, and goroutines are
    labelled steps, one per critical section or atomic or channel operation,
    that interleave freely.  Integers are [Z]; where the source can overflow the
    wrap-around is written out.  Code that is not in the repository (the kernel,
    user handlers, deflate, url.Parse beyond paths, map iteration order, the
    clock) is an argument, with what is relied on stated as hypotheses; each
    theorem with hypotheses is followed by a witness that instantiates them.

    ** What the theorems show

    Each theorem's comment gives the conditions it needs; where the code falls
    short outside of them, a lemma of the same file or of the component shows it
    on a concrete input.

    - Parser: the effect of a byte stream does not depend on how it is cut;
      [Parse] always returns and never indexes out of range; the wire form of a
      list of requests (origin-form targets, non-empty field values, no trailers)
      is delivered part by part; framing is decided as RFC 7230 asks; the cache is
      bounded; plain and TLS transports, polled or blocking, feed it the same
      bytes as long as it accepts them.
    - Server: parser, processor, bodies, jobs and responses composed answer a list
      of such requests, cut anywhere, in order, and give every buffer back, for
      handlers that read, set status and header, write and flush, with less than
      64 KiB of chunks between two flushes; joined with the client, what a handler
      writes is what the client's handler reads.
    - Responses and bodies: the three framings on the wire; a body is a queue of
      bytes within its limit.
    - WebSocket: round trip of non-empty messages over any fragmentation, masking
      and cut; totality and limits; order of the asynchronous queue; the handshake
      between [Dialer] and [Upgrader]; an upgraded connection has one reader, and
      what a failed upgrade leaves; payloads are released once and handlers are not
      called for messages after the close, however reader, jobs, writers and close
      interleave.
    - Connection: bytes accepted reach the wire complete and in order whatever
      the kernel answers, as long as it can duplicate descriptors; bytes queued
      are watched for; a flush returns; closing happens once; an event delivers
      what the socket holds, a hang-up included, and reading outside the poller
      loses nothing; UDP sessions are one per peer.
    - Pollers: an event goes to its owner while descriptors are not used again
      within a batch, and the table has exactly the open connections while none is
      closed as it is being added; with kqueue no change or wake-up is lost by the
      queue, whatever the kernel refuses and whichever descriptors close; a stopped
      poller ends and closes its descriptors.  For the portable build, the life of
      connections, readers and sessions.
    - Engines: a configuration becomes the settings of both engines; a start makes
      everything or leaves exactly what is named; each address gets its listeners
      and goroutines; a stopping engine waits for exactly the connections it
      opened; the table of the HTTP engine holds exactly the live connections and
      those still closing, and keeps its limits; the listener multiplexer keeps its
      limit.
    - Jobs, tasks and clients: one job at a time in order; every task executed
      once; handlers of a client called in the order of the requests; limits on
      workers and connections.
    - Memory: three allocators refine plain byte strings, without aliasing.

    ** Fuel and bounds

    Loops that are not structural take fuel: the parser's loop one unit per byte
    and state change ([ParserFacts]), [flush_fuel] and [sendfile_fuel] from the
    queue and the file ([NbConnStream]), the inner TLS loops one unit per byte of
    plaintext ([BlockRead]), the read loop of a body one unit per buffer
    ([Body]), the scanners of the handshake one unit per byte
    ([ext_params_fuel], [ext_loop_fuel], [contains_loop_spec]).  In each case it
    is proved that the fuel given is not used up, or a result that ran out of
    fuel is distinct from every other and excluded by the theorem.

    ** Not modelled

    The output of logging, cookies of the client, the addresses a connection
    reports, thread affinity of pollers, the stack traces of the tracing allocator,
    plain accessors, and the programs beside the framework (the Autobahn test
    server and reporter, the tool that writes the norace comments).  The TLS
    library and package compress/flate, which are not in the repository, are
    parameters, as are the kernel and package net.  Data races of unsynchronised
    fields are not modelled beyond the steps chosen: a step is atomic. *)

From Stdlib Require Import ZArith Lia.
From Stdlib Require Import Strings.Byte Strings.String.
From stdpp Require Import base numbers list list_numbers gmap.

Open Scope Z_scope.

(** ** Bytes *)

Abbreviation byte := Byte.byte.
Abbreviation bytes := (list Byte.byte).

(** The value of a byte as a Go [uint8]. *)
Definition b2z (b : byte) : Z := Z.of_N (Byte.to_N b).

(** The Go conversion [byte(z)]: truncation to eight bits. *)
Definition z2b (z : Z) : byte :=
  match Byte.of_N (Z.to_N (z mod 256)) with
  | Some b => b
  | None => Byte.x00
  end.

#[export] Instance byte_eq_dec : EqDecision byte := Byte.byte_eq_dec.

Lemma b2z_range b : 0 <= b2z b < 256.
Proof.
  unfold b2z. pose proof (Byte.to_N_bounded b). lia.
Qed.

Lemma z2b_b2z b : z2b (b2z b) = b.
Proof.
  unfold z2b. rewrite Z.mod_small by apply b2z_range.
  unfold b2z. by rewrite N2Z.id, Byte.of_to_N.
Qed.

Lemma b2z_z2b z : b2z (z2b z) = z mod 256.
Proof.
  unfold z2b. pose proof (Z.mod_pos_bound z 256 ltac:(lia)) as Hb.
  destruct (Byte.of_N (Z.to_N (z mod 256))) as [b|] eqn:E.
  - apply Byte.to_of_N in E. unfold b2z. rewrite E. lia.
  - apply Byte.of_N_None_iff in E. lia.
Qed.

Lemma b2z_inj a b : b2z a = b2z b -> a = b.
Proof. intros H. rewrite <- (z2b_b2z a), <- (z2b_b2z b). congruence. Qed.

#[export] Instance byte_countable : Countable byte.
Proof.
  refine (inj_countable' Byte.to_N (fun n => default Byte.x00 (Byte.of_N n)) _).
  intros b. by rewrite Byte.of_to_N.
Defined.

(** A Go string literal. *)
Definition str (s : String.string) : bytes := String.list_byte_of_string s.

(** ** Slices

    A Go [int] that indexes a slice is a [Z]; an index or slice expression
    out of range is a run-time panic in Go and [None] here. *)

Definition len {A} (l : list A) : Z := Z.of_nat (length l).

(** [l\[i\]] *)
Definition at_index {A} (l : list A) (i : Z) : option A :=
  if (0 <=? i) then l !! Z.to_nat i else None.

(** [l\[lo:hi\]] with [hi] not above [len(l)]. *)
Definition slice {A} (l : list A) (lo hi : Z) : option (list A) :=
  if (0 <=? lo) && (lo <=? hi) && (hi <=? len l)
  then Some (take (Z.to_nat (hi - lo)) (drop (Z.to_nat lo) l))
  else None.

(** [l\[lo:\]] *)
Definition slice_from {A} (l : list A) (lo : Z) : option (list A) :=
  slice l lo (len l).

Create HintDb nb.
Create Rewrite HintDb nb_len.

Section slices.
Context {A : Type}.
Implicit Types l k : list A.

Lemma len_nonneg l : 0 <= len l.
Proof. unfold len. lia. Qed.

Lemma len_nil : len (@nil A) = 0.
Proof. done. Qed.

Lemma len_cons (x : A) l : len (x :: l) = 1 + len l.
Proof. unfold len. cbn [length]. lia. Qed.

Lemma len_app l k : len (l ++ k) = len l + len k.
Proof. unfold len. rewrite length_app. lia. Qed.

Lemma len_take n l : len (take n l) = Z.min (Z.of_nat n) (len l).
Proof. unfold len. rewrite length_take. lia. Qed.

Lemma len_drop n l : len (drop n l) = Z.max 0 (len l - Z.of_nat n).
Proof. unfold len. rewrite length_drop. lia. Qed.

Lemma len_zero_nil l : len l = 0 -> l = [].
Proof. destruct l; [done|]. rewrite len_cons. pose proof (len_nonneg l). lia. Qed.

Lemma len_pos l : l <> [] -> 0 < len l.
Proof. destruct l; [done|]. rewrite len_cons. pose proof (len_nonneg l). lia. Qed.

Lemma len_pos_cons l : 0 < len l -> exists x k, l = x :: k.
Proof. destruct l; [done|eauto]. Qed.

Lemma slice_eq l lo hi :
  0 <= lo -> lo <= hi -> hi <= len l ->
  slice l lo hi = Some (take (Z.to_nat (hi - lo)) (drop (Z.to_nat lo) l)).
Proof.
  intros. unfold slice.
  by rewrite !(proj2 (Z.leb_le _ _)) by done.
Qed.

Lemma slice_inv l lo hi s :
  slice l lo hi = Some s ->
  0 <= lo <= hi /\ hi <= len l /\ s = take (Z.to_nat (hi - lo)) (drop (Z.to_nat lo) l).
Proof.
  unfold slice. destruct (_ && _) eqn:E; [|done].
  rewrite !andb_true_iff, !Z.leb_le in E. destruct E as [[? ?] ?].
  intros [= <-]. done.
Qed.

Lemma slice_len l lo hi s : slice l lo hi = Some s -> len s = hi - lo.
Proof.
  intros (?&?&->)%slice_inv. rewrite len_take, len_drop. lia.
Qed.

Lemma slice_is_Some l lo hi :
  0 <= lo -> lo <= hi -> hi <= len l -> exists s, slice l lo hi = Some s.
Proof. intros. rewrite slice_eq by done. eauto. Qed.

(** A slice of the left part of an append. *)
Lemma slice_app_l l k lo hi :
  hi <= len l -> slice (l ++ k) lo hi = slice l lo hi.
Proof.
  intros Hhi. unfold slice. rewrite len_app.
  pose proof (len_nonneg k).
  destruct (0 <=? lo) eqn:E1; [|done]. destruct (lo <=? hi) eqn:E2; [|done].
  rewrite !(proj2 (Z.leb_le _ _)) by lia. simpl.
  apply Z.leb_le in E1, E2. f_equal. unfold len in Hhi.
  rewrite drop_app_le by lia. apply take_app_le. rewrite length_drop. lia.
Qed.

(** A slice of the right part of an append. *)
Lemma slice_app_r l k lo hi :
  0 <= lo -> slice (l ++ k) (len l + lo) (len l + hi) = slice k lo hi.
Proof.
  intros Hlo. unfold slice. rewrite len_app.
  pose proof (len_nonneg l).
  rewrite !(proj2 (Z.leb_le 0 _)) by lia.
  replace (len l + lo <=? len l + hi) with (lo <=? hi) by lia.
  replace (len l + hi <=? len l + len k) with (hi <=? len k) by lia.
  destruct (lo <=? hi) eqn:E2; [|done]. destruct (hi <=? len k) eqn:E3; [|done].
  simpl. f_equal. f_equal; [lia|]. unfold len.
  rewrite drop_app_ge by lia. f_equal. lia.
Qed.

Lemma slice_from_eq l lo :
  0 <= lo -> lo <= len l -> slice_from l lo = Some (drop (Z.to_nat lo) l).
Proof.
  intros. unfold slice_from. rewrite slice_eq by lia. f_equal.
  apply take_ge. rewrite length_drop. unfold len in *. lia.
Qed.

Lemma slice_full l : slice l 0 (len l) = Some l.
Proof.
  pose proof (len_nonneg l). rewrite slice_eq by lia.
  rewrite drop_0. f_equal. apply take_ge. unfold len. lia.
Qed.

Lemma slice_prefix l k : slice (l ++ k) 0 (len l) = Some l.
Proof. rewrite slice_app_l by lia. apply slice_full. Qed.

Lemma at_index_app_l l k i : i < len l -> at_index (l ++ k) i = at_index l i.
Proof.
  intros. unfold at_index. destruct (0 <=? i) eqn:E; [|done].
  apply Z.leb_le in E. apply lookup_app_l. unfold len in *. lia.
Qed.

Lemma at_index_app_r l k i : 0 <= i -> at_index (l ++ k) (len l + i) = at_index k i.
Proof.
  intros. unfold at_index. pose proof (len_nonneg l).
  rewrite !(proj2 (Z.leb_le 0 _)) by lia.
  rewrite lookup_app_r by (unfold len; lia). f_equal. unfold len. lia.
Qed.

Lemma at_index_is_Some l i : 0 <= i < len l -> exists x, at_index l i = Some x.
Proof.
  intros [? H]. unfold at_index. rewrite (proj2 (Z.leb_le 0 i)) by lia.
  apply lookup_lt_is_Some. unfold len in H. lia.
Qed.

Lemma at_index_mid l (x : A) k : at_index (l ++ x :: k) (len l) = Some x.
Proof.
  replace (len l) with (len l + 0) by lia. by rewrite at_index_app_r by lia.
Qed.
End slices.

#[export] Hint Resolve len_nonneg : nb.
#[export] Hint Rewrite @len_nil @len_cons @len_app @len_take @len_drop : nb_len.

(** Length facts for [lia]: rewrite [len] of appends and add that the
    remaining lengths are non-negative. *)
Ltac len_pose :=
  repeat match goal with
  | |- context [len ?l] =>
      lazymatch goal with
      | _ : 0 <= len l |- _ => fail
      | _ => pose proof (len_nonneg l)
      end
  | _ : context [len ?l] |- _ =>
      lazymatch goal with
      | _ : 0 <= len l |- _ => fail
      | _ => pose proof (len_nonneg l)
      end
  end.

Ltac len_lia := autorewrite with nb_len in *; len_pose; lia.

(** ** Machine integers *)

Definition wrap_u (w z : Z) : Z := z mod 2 ^ w.
Definition wrap_s (w z : Z) : Z := (z + 2 ^ (w - 1)) mod 2 ^ w - 2 ^ (w - 1).

(** Go's [int64(z)] and [int(z)] on a 64-bit platform. *)
Definition int64 (z : Z) : Z := wrap_s 64 z.

Lemma wrap_s_small w z : 0 < w -> - 2 ^ (w - 1) <= z < 2 ^ (w - 1) -> wrap_s w z = z.
Proof.
  intros Hw Hz. unfold wrap_s. rewrite Z.mod_small; [lia|].
  assert (2 ^ w = 2 * 2 ^ (w - 1)) by (rewrite <- Z.pow_succ_r by lia; f_equal; lia).
  lia.
Qed.

Lemma int64_small z : - 2 ^ 63 <= z < 2 ^ 63 -> int64 z = z.
Proof. intros. apply wrap_s_small; lia. Qed.

(** ** Booleans to propositions *)

Ltac bool_hyp :=
  repeat match goal with
  | H : _ && _ = true |- _ => apply andb_true_iff in H as [? ?]
  | H : _ || _ = false |- _ => apply orb_false_iff in H as [? ?]
  | H : negb _ = true |- _ => apply negb_true_iff in H
  | H : negb _ = false |- _ => apply negb_false_iff in H
  | H : (_ <=? _) = true |- _ => apply Z.leb_le in H
  | H : (_ <=? _) = false |- _ => apply Z.leb_gt in H
  | H : (_ <? _) = true |- _ => apply Z.ltb_lt in H
  | H : (_ <? _) = false |- _ => apply Z.ltb_ge in H
  | H : (_ =? _) = true |- _ => apply Z.eqb_eq in H
  | H : (_ =? _) = false |- _ => apply Z.eqb_neq in H
  | H : bool_decide _ = true |- _ => apply bool_decide_eq_true in H
  | H : bool_decide _ = false |- _ => apply bool_decide_eq_false in H
  end.
