(* ===== verification/GoLib.v ===== *)
(** * The parts of Go's standard library the sources call

    Executable models of the functions of [strings], [strconv],
    [net/textproto], [net/http] and [encoding/binary] that the modelled code
    uses.  Strings are byte lists. *)

From Stdlib Require Import ZArith Lia.
From Stdlib Require Import Strings.Byte Strings.String.
From stdpp Require Import base numbers list list_numbers gmap.
From S2P Require Import Prelude.

Open Scope Z_scope.

(** ** Characters *)

Definition CR : byte := x0d.
Definition LF : byte := x0a.
Definition SP : byte := x20.
Definition HT : byte := x09.

Declare Scope byte_cmp_scope.
Delimit Scope byte_cmp_scope with bc.
Infix "=b" := Byte.eqb (at level 70, no associativity) : byte_cmp_scope.
Open Scope byte_cmp_scope.

Lemma beqb_eq (a b : byte) : (a =b b) = true <-> a = b.
Proof.
  split; [apply Byte.byte_dec_bl|apply Byte.byte_dec_lb].
Qed.

Lemma beqb_refl a : (a =b a) = true.
Proof. by apply beqb_eq. Qed.

Lemma beqb_neq (a b : byte) : (a =b b) = false <-> a <> b.
Proof.
  rewrite <- not_true_iff_false. by rewrite beqb_eq.
Qed.

(** [lo <= c && c <= hi] on the byte values. *)
Definition in_range (lo hi c : byte) : bool := (b2z lo <=? b2z c) && (b2z c <=? b2z hi).

Definition to_upper_byte (c : byte) : byte :=
  if in_range "a" "z" c then z2b (b2z c - 32) else c.

Definition to_lower_byte (c : byte) : byte :=
  if in_range "A" "Z" c then z2b (b2z c + 32) else c.

(** [strings.ToUpper], used on strings of ASCII letters only. *)
Definition ToUpper (s : bytes) : bytes := map to_upper_byte s.

(** [strings.ToLower].  The two non-ASCII runes whose lower case is ASCII are
    U+212A (Kelvin sign, lower case [k]) and U+0130 (lower case [i]).  Every
    other non-ASCII rune stays non-ASCII and is kept as it is: the sources only
    compare the result with ASCII literals, which tell no difference. *)
Fixpoint ToLower (s : bytes) : bytes :=
  match s with
  | xe2 :: x84 :: xaa :: r => "k"%byte :: ToLower r
  | xc4 :: xb0 :: r => "i"%byte :: ToLower r
  | c :: r => to_lower_byte c :: ToLower r
  | [] => []
  end.

(** ** Trimming and splitting *)

Fixpoint drop_while (f : byte -> bool) (s : bytes) : bytes :=
  match s with
  | [] => []
  | c :: r => if f c then drop_while f r else s
  end.

Definition trim_right (f : byte -> bool) (s : bytes) : bytes :=
  rev (drop_while f (rev s)).

(** [net/textproto.TrimString] *)
Definition is_ascii_space (c : byte) : bool :=
  (c =b SP) || (c =b HT) || (c =b LF) || (c =b CR).

Definition TrimString (s : bytes) : bytes :=
  trim_right is_ascii_space (drop_while is_ascii_space s).

(** [strings.Split(s, sep)] for a separator of one byte. *)
Fixpoint split_byte (sep : byte) (s : bytes) : list bytes :=
  match s with
  | [] => [[]]
  | c :: r =>
      if c =b sep then [] :: split_byte sep r
      else match split_byte sep r with
           | [] => [[c]]
           | w :: ws => (c :: w) :: ws
           end
  end.

(** [strings.Trim(s, " ")] *)
Definition Trim_space (s : bytes) : bytes :=
  trim_right (fun c => c =b SP) (drop_while (fun c => c =b SP) s).

(** [strings.HasPrefix] *)
Fixpoint HasPrefix (s p : bytes) {struct p} : bool :=
  match p, s with
  | [], _ => true
  | d :: p, c :: s => (c =b d) && HasPrefix s p
  | _ :: _, [] => false
  end.

(** [strings.Cut(s, sep)] for a separator of one byte: before, after, found. *)
Fixpoint Cut (sep : byte) (s : bytes) : bytes * bytes * bool :=
  match s with
  | [] => ([], [], false)
  | c :: r => if c =b sep then ([], r, true)
              else let '(a, b, ok) := Cut sep r in (c :: a, b, ok)
  end.

(** [strings.Contains(s, sep)] for a separator of one byte. *)
Definition contains_byte (sep : byte) (s : bytes) : bool :=
  existsb (fun c => c =b sep) s.

(** ** [strconv] *)

Definition digit_val (c : byte) : option Z :=
  if in_range "0" "9" c then Some (b2z c - 48)
  else if in_range "a" "z" c then Some (b2z c - 97 + 10)
  else if in_range "A" "Z" c then Some (b2z c - 65 + 10)
  else None.

Fixpoint parse_digits (base acc : Z) (s : bytes) : option Z :=
  match s with
  | [] => Some acc
  | c :: r =>
      match digit_val c with
      | Some d => if d <? base then parse_digits base (acc * base + d) r else None
      | None => None
      end
  end.

(** [strconv.ParseUint(s, base, bits)], [None] for any error. *)
Definition ParseUint (s : bytes) (base bits : Z) : option Z :=
  match s with
  | [] => None
  | _ =>
      match parse_digits base 0 s with
      | Some n => if n <=? 2 ^ bits - 1 then Some n else None
      | None => None
      end
  end.

(** [strconv.ParseInt(s, base, bits)], [None] for any error. *)
Definition ParseInt (s : bytes) (base bits : Z) : option Z :=
  match s with
  | [] => None
  | c :: r =>
      let neg := c =b "-" in
      let s' := if (c =b "+") || (c =b "-") then r else s in
      match ParseUint s' base bits with
      | Some un =>
          let cutoff := 2 ^ (bits - 1) in
          if negb neg && (cutoff <=? un) then None
          else if neg && (cutoff <? un) then None
          else Some (if neg then - un else un)
      | None => None
      end
  end.

(** [strconv.Atoi] on a 64-bit platform. *)
Definition Atoi (s : bytes) : option Z := ParseInt s 10 64.

(** [strconv.FormatInt(n, base)] for [0 <= n] and a base up to 16: the digits,
    most significant first. *)
Definition digit_char (d : Z) : byte := if d <? 10 then z2b (48 + d) else z2b (97 + (d - 10)).

Fixpoint fmt_digits (fuel : nat) (base n : Z) (acc : bytes) : bytes :=
  match fuel with
  | O => acc
  | S fuel =>
      let acc := digit_char (n mod base) :: acc in
      if n / base =? 0 then acc else fmt_digits fuel base (n / base) acc
  end.

Definition FormatUint (n base : Z) : bytes := fmt_digits (S (Z.to_nat (Z.log2 n))) base n [].

(** ** [net/url] and [net/http] *)

(** [http.ParseHTTPVersion]: "HTTP/" and two digits around a dot. *)
Definition ParseHTTPVersion (v : bytes) : option (Z * Z) :=
  match v with
  | ["H"; "T"; "T"; "P"; "/"; a; "."; b]%byte =>
      x ← ParseUint [a] 10 64; y ← ParseUint [b] 10 64; Some (x, y)
  | _ => None
  end.

(** The parts of a [url.URL] that are read; [RawPath], a hint for printing, is
    left out. *)
Record url := MkURL {
  u_Scheme : bytes;
  u_Host : bytes;
  u_Path : bytes;
  u_RawQuery : bytes;
  u_ForceQuery : bool
}.

Definition is_ctl (c : byte) : bool := (b2z c <? 32) || (b2z c =? 127).

Definition hex_val (c : byte) : option Z :=
  match digit_val c with Some d => if d <? 16 then Some d else None | None => None end.

(** [url.unescape] of a path: an incomplete or bad escape is an error. *)
Fixpoint unescape_path (s : bytes) : option bytes :=
  match s with
  | [] => Some []
  | c :: r =>
      if c =b "%" then
        match r with
        | a :: b :: r' => x ← hex_val a; y ← hex_val b; rest ← unescape_path r'; Some (z2b (16 * x + y) :: rest)
        | _ => None
        end
      else rest ← unescape_path r; Some (c :: rest)
  end.

(** [url.ParseRequestURI].  A target that starts with a slash has neither
    scheme nor authority; the other forms are left to [other]. *)
Definition ParseRequestURI (other : bytes -> option url) (raw : bytes) : option url :=
  if existsb is_ctl raw then None
  else
    match raw with
    | [] => None
    | c :: r =>
        if bool_decide (raw = ["*"%byte]) then Some (MkURL [] [] raw [] false)
        else if c =b "/" then
          let '(path, query, found) := Cut "?" raw in
          p ← unescape_path path;
          Some (MkURL [] [] p query (found && bool_decide (query = [])))
        else other raw
    end.

(** ** Header names *)

(** The token characters of RFC 7230, [textproto.validHeaderFieldByte]. *)
Definition is_tchar (c : byte) : bool :=
  in_range "0" "9" c || in_range "a" "z" c || in_range "A" "Z" c ||
  existsb (fun d => c =b d) (str "!#$%&'*+-.^_`|~").

Fixpoint canonical_go (upper : bool) (s : bytes) : bytes :=
  match s with
  | [] => []
  | c :: r => (if upper then to_upper_byte c else to_lower_byte c) :: canonical_go (c =b "-") r
  end.

(** [http.CanonicalHeaderKey]: a name with a byte that is not a token
    character is returned unchanged. *)
Definition CanonicalHeaderKey (s : bytes) : bytes :=
  if forallb is_tchar s then canonical_go true s else s.

(** [http.Header]; a nil map behaves as the empty one for reads. *)
Abbreviation Header := (gmap (list Byte.byte) (list (list Byte.byte))).

Definition header_add (h : Header) (k v : bytes) : Header :=
  let k := CanonicalHeaderKey k in
  <[k := default [] (h !! k) ++ [v]]> h.

Definition header_get (h : Header) (k : bytes) : bytes :=
  match h !! CanonicalHeaderKey k with
  | Some (v :: _) => v
  | _ => []
  end.

Definition header_del (h : Header) (k : bytes) : Header := delete (CanonicalHeaderKey k) h.

(** ** [encoding/binary] *)

Fixpoint le_get (l : bytes) : Z :=
  match l with
  | [] => 0
  | b :: t => b2z b + 256 * le_get t
  end.

Fixpoint le_put (n : nat) (z : Z) : bytes :=
  match n with
  | O => []
  | S n => z2b z :: le_put n (z / 256)
  end.

Definition be_get (l : bytes) : Z := le_get (rev l).
Definition be_put (n : nat) (z : Z) : bytes := rev (le_put n z).

(** [a ^ b] on bytes. *)
Definition bxor (a b : byte) : byte := z2b (Z.lxor (b2z a) (b2z b)).

(** ** Facts *)

Lemma length_le_put n z : length (le_put n z) = n.
Proof. revert z. induction n; intros; simpl; auto. Qed.

Lemma length_be_put n z : length (be_put n z) = n.
Proof. unfold be_put. by rewrite length_rev, length_le_put. Qed.

Lemma pow256_succ n : 256 ^ Z.of_nat (S n) = 256 * 256 ^ Z.of_nat n.
Proof. rewrite Nat2Z.inj_succ, Z.pow_succ_r; lia. Qed.

Lemma pow256_pos n : 0 < 256 ^ Z.of_nat n.
Proof. apply Z.pow_pos_nonneg; lia. Qed.

Lemma le_get_range l : 0 <= le_get l < 256 ^ len l.
Proof.
  induction l as [|b l IH]; [by vm_compute|].
  unfold len in *. cbn [le_get length]. rewrite pow256_succ.
  pose proof (b2z_range b). nia.
Qed.

Lemma le_get_put n z : le_get (le_put n z) = z mod 256 ^ Z.of_nat n.
Proof.
  revert z. induction n as [|n IH]; intros z.
  - simpl. by rewrite Z.mod_1_r.
  - cbn [le_put le_get]. rewrite IH, b2z_z2b, pow256_succ.
    pose proof (pow256_pos n). rewrite Z.rem_mul_r by lia. lia.
Qed.

Lemma le_put_get l : le_put (length l) (le_get l) = l.
Proof.
  induction l as [|b l IH]; [done|]. cbn [length le_get le_put].
  pose proof (b2z_range b). f_equal.
  - apply b2z_inj. rewrite b2z_z2b, (Z.mul_comm 256), Z.mod_add by lia.
    by apply Z.mod_small.
  - rewrite Z.add_comm, Z.mul_comm, Z.div_add_l by lia.
    rewrite Z.div_small by done. by rewrite Z.add_0_r.
Qed.

Lemma be_get_put n z : be_get (be_put n z) = z mod 256 ^ Z.of_nat n.
Proof. unfold be_get, be_put. by rewrite rev_involutive, le_get_put. Qed.

Lemma be_get_range l : 0 <= be_get l < 256 ^ len l.
Proof.
  unfold be_get. pose proof (le_get_range (rev l)) as H.
  unfold len in *. by rewrite length_rev in H.
Qed.

Lemma bxor_assoc a b c : bxor (bxor a b) c = bxor a (bxor b c).
Proof.
  apply b2z_inj. unfold bxor. rewrite !b2z_z2b.
  assert (forall x y, Z.lxor (b2z x) (b2z y) mod 256 = Z.lxor (b2z x) (b2z y)) as E.
  { intros x y. change 256 with (2 ^ 8). rewrite <- Z.land_ones by lia.
    apply Z.bits_inj'. intros i Hi. rewrite Z.land_spec, Z.lxor_spec.
    pose proof (b2z_range x). pose proof (b2z_range y).
    destruct (Z.lt_ge_cases i 8) as [Hlt|Hge].
    - by rewrite Z.ones_spec_low, andb_true_r by lia.
    - rewrite Z.ones_spec_high, andb_false_r by lia.
      rewrite <- (Z.mod_small (b2z x) (2 ^ 8)), <- (Z.mod_small (b2z y) (2 ^ 8)) by lia.
      by rewrite !Z.mod_pow2_bits_high by lia. }
  rewrite !E. by rewrite Z.lxor_assoc.
Qed.

Lemma bxor_nilpotent a b : bxor (bxor a b) b = a.
Proof.
  rewrite bxor_assoc. apply b2z_inj. unfold bxor.
  rewrite Z.lxor_nilpotent. change (b2z (z2b 0)) with 0.
  rewrite Z.lxor_0_r. by rewrite z2b_b2z.
Qed.

Lemma lxor_mod256 x y : Z.lxor x y mod 256 = Z.lxor (x mod 256) (y mod 256).
Proof.
  change 256 with (2 ^ 8). rewrite <- !Z.land_ones by lia.
  apply Z.bits_inj'. intros i Hi.
  rewrite ?Z.land_spec, ?Z.lxor_spec, ?Z.land_spec.
  destruct (Z.testbit x i), (Z.testbit y i), (Z.testbit (Z.ones 8) i); done.
Qed.

(** Xor of the integers read from two byte strings is the bytewise xor. *)
Lemma le_put_lxor n x y :
  le_put n (Z.lxor x y) = zip_with bxor (le_put n x) (le_put n y).
Proof.
  revert x y. induction n as [|n IH]; intros x y; [done|].
  cbn [le_put zip_with]. f_equal.
  - apply b2z_inj. unfold bxor. rewrite !b2z_z2b, lxor_mod256.
    rewrite lxor_mod256, !Z.mod_mod by lia. done.
  - rewrite <- IH. f_equal. change 256 with (2 ^ 8).
    rewrite <- !Z.shiftr_div_pow2 by lia. apply Z.shiftr_lxor.
Qed.

Lemma digit_val_range c d : digit_val c = Some d -> 0 <= d < 36.
Proof.
  unfold digit_val, in_range. intros H.
  change (b2z "0") with 48 in H. change (b2z "9") with 57 in H.
  change (b2z "a") with 97 in H. change (b2z "z") with 122 in H.
  change (b2z "A") with 65 in H. change (b2z "Z") with 90 in H.
  repeat case_match; simplify_eq; bool_hyp; lia.
Qed.

Lemma parse_digits_nonneg base acc s n :
  0 <= acc -> 0 < base -> parse_digits base acc s = Some n -> 0 <= n.
Proof.
  revert acc. induction s as [|c s IH]; intros acc Ha Hb H; simpl in H; [congruence|].
  destruct (digit_val c) as [d|] eqn:E; [|done].
  apply digit_val_range in E. case_match; [|done].
  eapply IH in H; nia.
Qed.

Lemma ParseInt_range s base bits n :
  0 < base -> 0 < bits -> ParseInt s base bits = Some n -> - 2 ^ (bits - 1) <= n < 2 ^ (bits - 1).
Proof.
  intros Hb Hw. unfold ParseInt, ParseUint. destruct s as [|c r]; [done|].
  set (s' := if _ || _ then r else c :: r). destruct s' as [|d r']; [done|].
  destruct (parse_digits base 0 (d :: r')) as [un|] eqn:E; [|done].
  apply parse_digits_nonneg in E; [|lia..].
  intros H. pose proof (Z.pow_pos_nonneg 2 (bits - 1)).
  destruct (c =b "-"); simpl in H; repeat case_match; simplify_eq; bool_hyp; lia.
Qed.

(** ** Printing and reading numbers *)

(** The digits of base 16 are read back. *)
Lemma digit_val_char d : 0 <= d < 16 -> digit_val (digit_char d) = Some d.
Proof.
  intros Hd.
  assert (forallb (fun d => bool_decide (digit_val (digit_char d) = Some d)) (seqZ 0 16) = true) as H
    by (by vm_compute).
  rewrite forallb_forall in H. specialize (H d).
  apply bool_decide_eq_true in H; [done|].
  apply list_elem_of_In, elem_of_seqZ. lia.
Qed.

Lemma parse_fmt_digits fuel base n acc :
  2 <= base <= 16 -> 0 <= n < 2 ^ Z.of_nat fuel ->
  parse_digits base 0 (fmt_digits fuel base n acc) = parse_digits base n acc.
Proof.
  intros Hb. revert n acc. induction fuel as [|fuel IH]; intros n acc Hn.
  { replace n with 0 by (simpl in Hn; lia). done. }
  rewrite Nat2Z.inj_succ, Z.pow_succ_r in Hn by lia.
  pose proof (Z.mod_pos_bound n base ltac:(lia)) as Hm.
  pose proof (Z.div_mod n base ltac:(lia)) as Hdm.
  assert (forall a, a * base + n mod base = n ->
    parse_digits base a (digit_char (n mod base) :: acc) = parse_digits base n acc) as Hstep.
  { intros a Ha. cbn [parse_digits]. rewrite digit_val_char by lia.
    rewrite (proj2 (Z.ltb_lt _ _)) by lia. by rewrite Ha. }
  cbn [fmt_digits]. cbv zeta. destruct (Z.eqb_spec (n / base) 0) as [E|E].
  - apply Hstep. lia.
  - rewrite IH; [apply Hstep; lia|]. split; [apply Z.div_pos; lia|].
    apply Z.div_lt_upper_bound; nia.
Qed.

Lemma fmt_digits_Forall (Q : byte -> Prop) fuel base n acc :
  0 < base -> (forall d, 0 <= d < base -> Q (digit_char d)) -> Forall Q acc ->
  Forall Q (fmt_digits fuel base n acc).
Proof.
  intros Hb HQ. revert n acc. induction fuel as [|fuel IH]; intros n acc Ha; [done|].
  cbn [fmt_digits]. cbv zeta.
  assert (Forall Q (digit_char (n mod base) :: acc)).
  { constructor; [apply HQ, Z.mod_pos_bound; lia|done]. }
  case_match; auto.
Qed.

Lemma FormatUint_Forall (Q : byte -> Prop) n base :
  0 < base -> (forall d, 0 <= d < base -> Q (digit_char d)) -> Forall Q (FormatUint n base).
Proof. intros. by apply fmt_digits_Forall. Qed.

Lemma FormatUint_cons n base : exists c r, FormatUint n base = c :: r.
Proof.
  unfold FormatUint. generalize (Z.to_nat (Z.log2 n)) as f. intros f.
  assert (forall f m acc, acc <> [] -> fmt_digits f base m acc <> []) as H.
  { intros g. induction g as [|g IH]; intros m acc Ha; [done|]. simpl.
    case_match; [done|]. by apply IH. }
  destruct (fmt_digits (S f) base n []) as [|c r] eqn:E; [|eauto].
  simpl in E. case_match; [done|]. by apply H in E.
Qed.

(** [ParseInt] reads what [FormatUint] prints. *)
Lemma ParseInt_FormatUint n base bits :
  2 <= base <= 16 -> 0 < bits -> 0 <= n < 2 ^ (bits - 1) ->
  ParseInt (FormatUint n base) base bits = Some n.
Proof.
  intros Hb Hw Hn.
  assert (parse_digits base 0 (FormatUint n base) = Some n) as Hp.
  { unfold FormatUint. rewrite parse_fmt_digits; [done|done|].
    rewrite Nat2Z.inj_succ, Z2Nat.id by apply Z.log2_nonneg.
    split; [lia|]. destruct (Z.eq_dec n 0) as [->|]; [done|]. apply Z.log2_spec. lia. }
  assert (Forall (fun c => c <> "+"%byte /\ c <> "-"%byte) (FormatUint n base)) as Hd.
  { apply FormatUint_Forall; [lia|]. intros d Hd.
    pose proof (digit_val_char d ltac:(lia)).
    split; intros E; rewrite E in *; by vm_compute in H. }
  destruct (FormatUint_cons n base) as (c & r & E). rewrite E in *.
  apply Forall_cons in Hd as [[Hd1%beqb_neq Hd2%beqb_neq] _].
  unfold ParseInt. rewrite Hd1, Hd2. simpl orb. cbv iota.
  unfold ParseUint. rewrite Hp.
  assert (2 ^ bits = 2 * 2 ^ (bits - 1)) by (rewrite <- Z.pow_succ_r by lia; f_equal; lia).
  rewrite (proj2 (Z.leb_le _ _)) by lia.
  by rewrite (proj2 (Z.leb_gt _ _)) by lia.
Qed.
