(* ===== verification/Table.v ===== *)
(** * HTTP character tables and error values

    [src/nbhttp/table.go]: the 256-entry character tables, filled by a literal
    or by [init], and the predicates that read them.  [src/nbhttp/error.go]:
    the errors of the package. *)

From Stdlib Require Import ZArith Lia.
From Stdlib Require Import Strings.Byte Strings.String.
From stdpp Require Import base numbers list list_numbers gmap.
From S2P Require Import Prelude GoLib.

Open Scope Z_scope.

(** ** Errors of the parser

    The named errors of [error.go] that the HTTP layer returns, then one
    constructor per [fmt.Errorf] site of [parser.go], [net.ErrClosed], and the
    errors a processor or an upgraded connection reports. *)
Inductive http_err :=
| ErrInvalidHTTPStatusCode
| ErrInvalidHTTPStatus
| ErrInvalidMethod
| ErrInvalidRequestURI
| ErrCRExpected
| ErrLFExpected
| ErrInvalidCharInHeader
| ErrUnexpectedContentLength
| ErrInvalidContentLength
| ErrInvalidChunkSize
| ErrTrailerExpected
| ErrTooLong
| ErrChunkSizeParse (s : bytes)
| ErrChunkSizeZero
| ErrChunkSizeMax
| ErrStatusAtoi (s : bytes)
| ErrTooManyTransferEncodings
| ErrUnsupportedTransferEncoding (v : bytes)
| ErrBadContentLength (v : bytes)
| ErrBadTrailerKey (k : bytes)
| ErrInvalidTrailer (k : bytes)
| ErrMalformedVersion (v : bytes)
| ErrBadURL (v : bytes)
| ErrClosed
| ErrOther (code : Z).

#[export] Instance http_err_eq_dec : EqDecision http_err.
Proof. solve_decision. Defined.

(** ** Tables *)

(** A [[256]bool] array, indexed by a byte. *)
Definition table := list bool.

Definition empty_table : table := replicate 256 false.

Definition tset (t : table) (c : byte) : table := <[Z.to_nat (b2z c) := true]> t.

Definition tget (t : table) (c : byte) : bool := default false (t !! Z.to_nat (b2z c)).

Definition validMethods : list bytes :=
  map str ["OPTIONS"; "GET"; "HEAD"; "POST"; "PUT"; "DELETE"; "TRACE"; "CONNECT"; "PATCH"; "PRI"]%string.

(** The keys of the [tokenCharMap] literal. *)
Definition tokenChars : bytes :=
  str "!#$%&'*+-.0123456789ABCDEFGHIJKLMNOPQRSTUWVXYZ^_`abcdefghijklmnopqrstuvwxyz|~".

Definition tokenCharMap : table := foldl tset empty_table tokenChars.

Record tables := {
  numCharMap : table;
  hexCharMap : table;
  alphaCharMap : table;
  alphaNumCharMap : table;
  validMethodCharMap : table
}.

(** [c + d] on bytes. *)
Definition badd (c : byte) (d : Z) : byte := z2b (b2z c + d).

(** The loops of [init]. *)
Definition init : tables :=
  let dis := b2z "a" - b2z "A" in
  let methodChars :=
    foldl (fun t m => foldl (fun t c => tset (tset t c) (badd c dis)) t m)
          empty_table validMethods in
  let '(num, alphaNum, hex) :=
    foldl (fun '(num, alphaNum, hex) i =>
             (tset num (badd "0" i), tset alphaNum (badd "0" i), tset hex (badd "0" i)))
          (empty_table, empty_table, empty_table) (seqZ 0 10) in
  let hex :=
    foldl (fun hex i => tset (tset hex (badd "A" i)) (badd "a" i)) hex (seqZ 0 6) in
  let '(alpha, alphaNum) :=
    foldl (fun '(alpha, alphaNum) i =>
             (tset (tset alpha (badd "A" i)) (badd (badd "A" i) dis),
              tset (tset alphaNum (badd "A" i)) (badd (badd "A" i) dis)))
          (empty_table, alphaNum) (seqZ 0 26) in
  {| numCharMap := num; hexCharMap := hex; alphaCharMap := alpha;
     alphaNumCharMap := alphaNum; validMethodCharMap := methodChars |}.

Definition the_tables : tables := Eval vm_compute in init.
Definition the_tokenCharMap : table := Eval vm_compute in tokenCharMap.

Definition isAlpha (c : byte) : bool := tget (alphaCharMap the_tables) c.
Definition isNum (c : byte) : bool := tget (numCharMap the_tables) c.
Definition isHex (c : byte) : bool := tget (hexCharMap the_tables) c.
Definition isToken (c : byte) : bool := tget the_tokenCharMap c.
Definition isValidMethodChar (c : byte) : bool := tget (validMethodCharMap the_tables) c.

Definition isValidMethod (m : bytes) : bool :=
  existsb (fun v => bool_decide (v = ToUpper m)) validMethods.

#[global] Arguments isAlpha : simpl never.
#[global] Arguments isNum : simpl never.
#[global] Arguments isHex : simpl never.
#[global] Arguments isToken : simpl never.
#[global] Arguments isValidMethodChar : simpl never.
#[global] Arguments isValidMethod : simpl never.

(** ** The tables are what their names say *)

(** Every byte, for exhaustive checks. *)
Definition all_bytes : bytes := map (fun z => z2b z) (seqZ 0 256).

Lemma all_bytes_complete c : c ∈ all_bytes.
Proof.
  unfold all_bytes. apply list_elem_of_fmap. exists (b2z c). split.
  - by rewrite z2b_b2z.
  - apply elem_of_seqZ. pose proof (b2z_range c). lia.
Qed.

(** A boolean fact about all bytes holds when the table check says so. *)
Lemma forall_byte (f : byte -> bool) : forallb f all_bytes = true -> forall c, f c = true.
Proof.
  intros H c. rewrite forallb_forall in H. apply H.
  apply list_elem_of_In, all_bytes_complete.
Qed.

Lemma the_tables_init : the_tables = init /\ the_tokenCharMap = tokenCharMap.
Proof. by vm_compute. Qed.

Lemma eqb_true_iff (a b : bool) : Bool.eqb a b = true <-> a = b.
Proof. destruct a, b; simpl; naive_solver. Qed.

Lemma byte_table_eq (f g : byte -> bool) :
  forallb (fun c => Bool.eqb (f c) (g c)) all_bytes = true -> forall c, f c = g c.
Proof.
  intros H c. apply eqb_true_iff. by apply (forall_byte (fun c => Bool.eqb (f c) (g c))).
Qed.

Lemma isToken_tchar c : isToken c = is_tchar c.
Proof. revert c. apply byte_table_eq. by vm_compute. Qed.

Lemma isAlpha_range c : isAlpha c = in_range "a" "z" c || in_range "A" "Z" c.
Proof. revert c. apply byte_table_eq. by vm_compute. Qed.

Lemma isNum_range c : isNum c = in_range "0" "9" c.
Proof. revert c. apply byte_table_eq. by vm_compute. Qed.

Lemma isHex_range c :
  isHex c = in_range "0" "9" c || in_range "a" "f" c || in_range "A" "F" c.
Proof. revert c. apply byte_table_eq. by vm_compute. Qed.

(** A method character is a letter of one of the known methods. *)
Lemma isValidMethodChar_spec c :
  isValidMethodChar c =
  existsb (fun m => existsb (fun d => (c =b d) || (c =b to_lower_byte d)) m) validMethods.
Proof. revert c. apply byte_table_eq. by vm_compute. Qed.

Lemma isValidMethodChar_alpha c : isValidMethodChar c = true -> isAlpha c = true.
Proof.
  intros H.
  assert (forall c, implb (isValidMethodChar c) (isAlpha c) = true) as E
    by (apply forall_byte; by vm_compute).
  specialize (E c). by rewrite H in E.
Qed.
