(* ===== verification/Parser.v ===== *)
(** * The incremental HTTP/1.x parser

    [src/nbhttp/parser.go] with the states of [src/nbhttp/state.go]: the record
    of a connection's parser, the per-state handlers of the [switch] in
    [Parser.Parse], the framing decisions taken at the end of the header
    ([parseTransferEncoding], [parseContentLength], [parseTrailer]), the loop
    and the caching of an unfinished token between two calls.

    The [Processor] the parser drives and the [ParserCloser] that takes over
    after an upgrade are interfaces in the source and type classes here.
    Buffers of the memory pool are modelled by their contents: [mempool.Malloc]
    followed by [copy] of as many bytes, [mempool.Append] and [mempool.Free]
    are a copy, an append and a reset (their contract is proved in the memory
    pool's file). *)

From Stdlib Require Import ZArith Lia.
From Stdlib Require Import Strings.Byte Strings.String.
From stdpp Require Import base numbers list list_numbers gmap.
From S2P Require Import Prelude GoLib Table.

Open Scope Z_scope.
Open Scope byte_cmp_scope.

Inductive pstate :=
| stateClose
| stateMethodBefore
| stateMethod
| statePathBefore
| statePath
| stateProtoBefore
| stateProto
| stateProtoLF
| stateClientProtoBefore
| stateClientProto
| stateStatusCodeBefore
| stateStatusCode
| stateStatusBefore
| stateStatus
| stateStatusLF
| stateHeaderKeyBefore
| stateHeaderValueLF
| stateHeaderKey
| stateHeaderValueBefore
| stateHeaderValue
| stateBodyContentLength
| stateHeaderOverLF
| stateBodyChunkSizeBefore
| stateBodyChunkSize
| stateBodyChunkSizeLF
| stateBodyChunkData
| stateBodyChunkDataCR
| stateBodyChunkDataLF
| stateBodyTrailerHeaderValueLF
| stateBodyTrailerHeaderKeyBefore
| stateBodyTrailerHeaderKey
| stateBodyTrailerHeaderValueBefore
| stateBodyTrailerHeaderValue
| stateTailCR
| stateTailLF.

#[export] Instance pstate_eq_dec : EqDecision pstate.
Proof. solve_decision. Defined.

Definition transferEncodingHeader : bytes := str "Transfer-Encoding".
Definition trailerHeader : bytes := str "Trailer".
Definition contentLengthHeader : bytes := str "Content-Length".

(** The largest [int] of a 64-bit platform. *)
Definition MaxInt : Z := 2 ^ 63 - 1.

(** ** Interfaces *)

(** [Processor]: the callbacks the parser makes.  [OnComplete] returns the
    [ParserCloser] it installed in the parser, if any. *)
Class Processor (P C : Type) := {
  OnMethod : P -> bytes -> P;
  OnURL : P -> bytes -> P * option http_err;
  OnProto : P -> bytes -> P * option http_err;
  OnStatus : P -> Z -> bytes -> P;
  OnHeader : P -> bytes -> bytes -> P;
  OnContentLength : P -> Z -> P;
  OnBody : P -> bytes -> P * option http_err;
  OnTrailerHeader : P -> bytes -> bytes -> P;
  OnComplete : P -> P * option C;
  ProcClose : P -> option http_err -> P;
  ProcClean : P -> P
}.

(** [ParserCloser]: the reader of an upgraded connection. *)
Class ParserCloser (C : Type) := {
  CloserParse : C -> bytes -> C * option http_err
}.

(** ** The parser's record

    [readLimit] is [p.Engine.ReadLimit]; [onClose] says whether a callback was
    registered, [closeCalls] and [deadlineCalls] record the calls of
    [p.onClose] and of [p.Conn.SetReadDeadline]. *)
Record parser (P C : Type) := MkParser {
  bytesCached : option bytes;
  parserCloser : option C;
  processor : P;
  proto : bytes;
  statusCode : Z;
  status : bytes;
  headerKey : bytes;
  headerValue : bytes;
  header : option Header;
  trailer : option Header;
  contentLength : Z;
  chunkSize : Z;
  state : pstate;
  chunked : bool;
  isClient : bool;
  headerExists : bool;
  initialReadDeadlinePending : bool;
  readLimit : Z;
  onClose : bool;
  closeCalls : list (option http_err);
  deadlineCalls : nat
}.
#[global] Arguments MkParser {P C}.
#[global] Arguments bytesCached {P C}.
#[global] Arguments parserCloser {P C}.
#[global] Arguments processor {P C}.
#[global] Arguments proto {P C}.
#[global] Arguments statusCode {P C}.
#[global] Arguments status {P C}.
#[global] Arguments headerKey {P C}.
#[global] Arguments headerValue {P C}.
#[global] Arguments header {P C}.
#[global] Arguments trailer {P C}.
#[global] Arguments contentLength {P C}.
#[global] Arguments chunkSize {P C}.
#[global] Arguments state {P C}.
#[global] Arguments chunked {P C}.
#[global] Arguments isClient {P C}.
#[global] Arguments headerExists {P C}.
#[global] Arguments initialReadDeadlinePending {P C}.
#[global] Arguments readLimit {P C}.
#[global] Arguments onClose {P C}.
#[global] Arguments closeCalls {P C}.
#[global] Arguments deadlineCalls {P C}.

Definition set_bytesCached {P C : Type} (v : option bytes) (p : parser P C) : parser P C :=
  MkParser v (parserCloser p) (processor p) (proto p) (statusCode p) (status p)
    (headerKey p) (headerValue p) (header p) (trailer p) (contentLength p) (chunkSize p)
    (state p) (chunked p) (isClient p) (headerExists p) (initialReadDeadlinePending p)
    (readLimit p) (onClose p) (closeCalls p) (deadlineCalls p).
Definition set_parserCloser {P C : Type} (v : option C) (p : parser P C) : parser P C :=
  MkParser (bytesCached p) v (processor p) (proto p) (statusCode p) (status p)
    (headerKey p) (headerValue p) (header p) (trailer p) (contentLength p) (chunkSize p)
    (state p) (chunked p) (isClient p) (headerExists p) (initialReadDeadlinePending p)
    (readLimit p) (onClose p) (closeCalls p) (deadlineCalls p).
Definition set_processor {P C : Type} (v : P) (p : parser P C) : parser P C :=
  MkParser (bytesCached p) (parserCloser p) v (proto p) (statusCode p) (status p)
    (headerKey p) (headerValue p) (header p) (trailer p) (contentLength p) (chunkSize p)
    (state p) (chunked p) (isClient p) (headerExists p) (initialReadDeadlinePending p)
    (readLimit p) (onClose p) (closeCalls p) (deadlineCalls p).
Definition set_proto {P C : Type} (v : bytes) (p : parser P C) : parser P C :=
  MkParser (bytesCached p) (parserCloser p) (processor p) v (statusCode p) (status p)
    (headerKey p) (headerValue p) (header p) (trailer p) (contentLength p) (chunkSize p)
    (state p) (chunked p) (isClient p) (headerExists p) (initialReadDeadlinePending p)
    (readLimit p) (onClose p) (closeCalls p) (deadlineCalls p).
Definition set_statusCode {P C : Type} (v : Z) (p : parser P C) : parser P C :=
  MkParser (bytesCached p) (parserCloser p) (processor p) (proto p) v (status p)
    (headerKey p) (headerValue p) (header p) (trailer p) (contentLength p) (chunkSize p)
    (state p) (chunked p) (isClient p) (headerExists p) (initialReadDeadlinePending p)
    (readLimit p) (onClose p) (closeCalls p) (deadlineCalls p).
Definition set_status {P C : Type} (v : bytes) (p : parser P C) : parser P C :=
  MkParser (bytesCached p) (parserCloser p) (processor p) (proto p) (statusCode p) v
    (headerKey p) (headerValue p) (header p) (trailer p) (contentLength p) (chunkSize p)
    (state p) (chunked p) (isClient p) (headerExists p) (initialReadDeadlinePending p)
    (readLimit p) (onClose p) (closeCalls p) (deadlineCalls p).
Definition set_headerKey {P C : Type} (v : bytes) (p : parser P C) : parser P C :=
  MkParser (bytesCached p) (parserCloser p) (processor p) (proto p) (statusCode p)
    (status p) v (headerValue p) (header p) (trailer p) (contentLength p) (chunkSize p)
    (state p) (chunked p) (isClient p) (headerExists p) (initialReadDeadlinePending p)
    (readLimit p) (onClose p) (closeCalls p) (deadlineCalls p).
Definition set_headerValue {P C : Type} (v : bytes) (p : parser P C) : parser P C :=
  MkParser (bytesCached p) (parserCloser p) (processor p) (proto p) (statusCode p)
    (status p) (headerKey p) v (header p) (trailer p) (contentLength p) (chunkSize p)
    (state p) (chunked p) (isClient p) (headerExists p) (initialReadDeadlinePending p)
    (readLimit p) (onClose p) (closeCalls p) (deadlineCalls p).
Definition set_header {P C : Type} (v : option Header) (p : parser P C) : parser P C :=
  MkParser (bytesCached p) (parserCloser p) (processor p) (proto p) (statusCode p)
    (status p) (headerKey p) (headerValue p) v (trailer p) (contentLength p) (chunkSize
    p) (state p) (chunked p) (isClient p) (headerExists p) (initialReadDeadlinePending
    p) (readLimit p) (onClose p) (closeCalls p) (deadlineCalls p).
Definition set_trailer {P C : Type} (v : option Header) (p : parser P C) : parser P C :=
  MkParser (bytesCached p) (parserCloser p) (processor p) (proto p) (statusCode p)
    (status p) (headerKey p) (headerValue p) (header p) v (contentLength p) (chunkSize
    p) (state p) (chunked p) (isClient p) (headerExists p) (initialReadDeadlinePending
    p) (readLimit p) (onClose p) (closeCalls p) (deadlineCalls p).
Definition set_contentLength {P C : Type} (v : Z) (p : parser P C) : parser P C :=
  MkParser (bytesCached p) (parserCloser p) (processor p) (proto p) (statusCode p)
    (status p) (headerKey p) (headerValue p) (header p) (trailer p) v (chunkSize p)
    (state p) (chunked p) (isClient p) (headerExists p) (initialReadDeadlinePending p)
    (readLimit p) (onClose p) (closeCalls p) (deadlineCalls p).
Definition set_chunkSize {P C : Type} (v : Z) (p : parser P C) : parser P C :=
  MkParser (bytesCached p) (parserCloser p) (processor p) (proto p) (statusCode p)
    (status p) (headerKey p) (headerValue p) (header p) (trailer p) (contentLength p) v
    (state p) (chunked p) (isClient p) (headerExists p) (initialReadDeadlinePending p)
    (readLimit p) (onClose p) (closeCalls p) (deadlineCalls p).
Definition set_state {P C : Type} (v : pstate) (p : parser P C) : parser P C :=
  MkParser (bytesCached p) (parserCloser p) (processor p) (proto p) (statusCode p)
    (status p) (headerKey p) (headerValue p) (header p) (trailer p) (contentLength p)
    (chunkSize p) v (chunked p) (isClient p) (headerExists p)
    (initialReadDeadlinePending p) (readLimit p) (onClose p) (closeCalls p)
    (deadlineCalls p).
Definition set_chunked {P C : Type} (v : bool) (p : parser P C) : parser P C :=
  MkParser (bytesCached p) (parserCloser p) (processor p) (proto p) (statusCode p)
    (status p) (headerKey p) (headerValue p) (header p) (trailer p) (contentLength p)
    (chunkSize p) (state p) v (isClient p) (headerExists p) (initialReadDeadlinePending
    p) (readLimit p) (onClose p) (closeCalls p) (deadlineCalls p).
Definition set_isClient {P C : Type} (v : bool) (p : parser P C) : parser P C :=
  MkParser (bytesCached p) (parserCloser p) (processor p) (proto p) (statusCode p)
    (status p) (headerKey p) (headerValue p) (header p) (trailer p) (contentLength p)
    (chunkSize p) (state p) (chunked p) v (headerExists p) (initialReadDeadlinePending
    p) (readLimit p) (onClose p) (closeCalls p) (deadlineCalls p).
Definition set_headerExists {P C : Type} (v : bool) (p : parser P C) : parser P C :=
  MkParser (bytesCached p) (parserCloser p) (processor p) (proto p) (statusCode p)
    (status p) (headerKey p) (headerValue p) (header p) (trailer p) (contentLength p)
    (chunkSize p) (state p) (chunked p) (isClient p) v (initialReadDeadlinePending p)
    (readLimit p) (onClose p) (closeCalls p) (deadlineCalls p).
Definition set_initialReadDeadlinePending {P C : Type} (v : bool) (p : parser P C) : parser P C :=
  MkParser (bytesCached p) (parserCloser p) (processor p) (proto p) (statusCode p)
    (status p) (headerKey p) (headerValue p) (header p) (trailer p) (contentLength p)
    (chunkSize p) (state p) (chunked p) (isClient p) (headerExists p) v (readLimit p)
    (onClose p) (closeCalls p) (deadlineCalls p).
Definition set_readLimit {P C : Type} (v : Z) (p : parser P C) : parser P C :=
  MkParser (bytesCached p) (parserCloser p) (processor p) (proto p) (statusCode p)
    (status p) (headerKey p) (headerValue p) (header p) (trailer p) (contentLength p)
    (chunkSize p) (state p) (chunked p) (isClient p) (headerExists p)
    (initialReadDeadlinePending p) v (onClose p) (closeCalls p) (deadlineCalls p).
Definition set_onClose {P C : Type} (v : bool) (p : parser P C) : parser P C :=
  MkParser (bytesCached p) (parserCloser p) (processor p) (proto p) (statusCode p)
    (status p) (headerKey p) (headerValue p) (header p) (trailer p) (contentLength p)
    (chunkSize p) (state p) (chunked p) (isClient p) (headerExists p)
    (initialReadDeadlinePending p) (readLimit p) v (closeCalls p) (deadlineCalls p).
Definition set_closeCalls {P C : Type} (v : list (option http_err)) (p : parser P C) : parser P C :=
  MkParser (bytesCached p) (parserCloser p) (processor p) (proto p) (statusCode p)
    (status p) (headerKey p) (headerValue p) (header p) (trailer p) (contentLength p)
    (chunkSize p) (state p) (chunked p) (isClient p) (headerExists p)
    (initialReadDeadlinePending p) (readLimit p) (onClose p) v (deadlineCalls p).
Definition set_deadlineCalls {P C : Type} (v : nat) (p : parser P C) : parser P C :=
  MkParser (bytesCached p) (parserCloser p) (processor p) (proto p) (statusCode p)
    (status p) (headerKey p) (headerValue p) (header p) (trailer p) (contentLength p)
    (chunkSize p) (state p) (chunked p) (isClient p) (headerExists p)
    (initialReadDeadlinePending p) (readLimit p) (onClose p) (closeCalls p) v.

(** ** Small operations *)

Section parser.
  Context {P C : Type} `{!Processor P C} `{!ParserCloser C}.

  Abbreviation parser := (parser P C).
  Implicit Types p : parser.

(** [nextState]: a closed parser stays closed. *)
Definition nextState p (s : pstate) : parser :=
  match state p with
  | stateClose => p
  | _ => set_state s p
  end.

(** [initReadDeadline] *)
Definition initReadDeadline p : parser :=
  if negb (initialReadDeadlinePending p) then p
  else
    let p := set_initialReadDeadlinePending false p in
    match state p with
    | stateClose => p
    | _ => set_deadlineCalls (S (deadlineCalls p)) p
    end.

(** [OnClose] *)
Definition OnClose p : parser := set_onClose true p.

(** [CloseAndClean] *)
Definition CloseAndClean p (err : option http_err) : parser :=
  match state p with
  | stateClose => p
  | _ =>
      let p := set_state stateClose p in
      let p := set_processor (ProcClose (processor p) err) p in
      if onClose p then set_closeCalls (closeCalls p ++ [err]) p else p
  end.

(** [parseAndValidateChunkSize] *)
Definition parseAndValidateChunkSize (s : bytes) : Z + http_err :=
  match ParseInt s 16 63 with
  | None => inr (ErrChunkSizeParse s)
  | Some n =>
      if n <? 0 then inr ErrChunkSizeZero
      else if MaxInt <? n then inr ErrChunkSizeMax
      else inl n
  end.

(** Reading a possibly nil header map, and writing one. *)
Definition hdr (h : option Header) : Header := default ∅ h.

(** [delete(p.header, k)]: deleting from a nil map does nothing. *)
Definition delete_header (k : bytes) p : parser :=
  set_header (delete k <$> header p) p.

(** [parseTransferEncoding] *)
Definition parseTransferEncoding p : parser * option http_err :=
  match hdr (header p) !! transferEncodingHeader with
  | None => (p, None)
  | Some raw =>
      let p := delete_header transferEncodingHeader p in
      match raw with
      | [v] =>
          if bool_decide (ToLower (TrimString v) = str "chunked")
          then (set_chunked true (delete_header contentLengthHeader p), None)
          else (p, Some (ErrUnsupportedTransferEncoding v))
      | _ => (p, Some ErrTooManyTransferEncodings)
      end
  end.

(** The backward loop of [parseContentLength]: cut trailing spaces; a value
    of spaces only is left as it is. *)
Definition cut_trailing_spaces (cl : bytes) : bytes :=
  match trim_right (fun c => c =b SP) cl with
  | [] => cl
  | t => t
  end.

(** [parseContentLength] *)
Definition parseContentLength p : parser * option http_err :=
  match header_get (hdr (header p)) contentLengthHeader with
  | [] => (set_contentLength (-1) p, None)
  | cl =>
      if chunked p then (p, Some ErrUnexpectedContentLength)
      else
        let cl := cut_trailing_spaces cl in
        match ParseInt cl 10 63 with
        | None => (p, Some (ErrBadContentLength cl))
        | Some l =>
            if l <? 0 then (p, Some ErrInvalidContentLength)
            else if MaxInt <? l then (p, Some ErrInvalidContentLength)
            else (set_contentLength l p, None)
        end
  end.

(** One trimmed, non-empty key of a [Trailer] header. *)
Definition add_trailer_key (k : bytes) (t : Header) : Header + http_err :=
  let k := CanonicalHeaderKey k in
  if bool_decide (k = transferEncodingHeader) || bool_decide (k = trailerHeader)
     || bool_decide (k = contentLengthHeader)
  then inr (ErrBadTrailerKey k)
  else inl (<[k := []]> t).

(** The inner loop of [parseTrailer] over the comma-separated keys. *)
Fixpoint add_trailer_keys (ks : list bytes) (t : Header) : Header + http_err :=
  match ks with
  | [] => inl t
  | k :: r =>
      match TrimString k with
      | [] => add_trailer_keys r t
      | k' =>
          match add_trailer_key k' t with
          | inl t => add_trailer_keys r t
          | inr e => inr e
          end
      end
  end.

(** The outer loop of [parseTrailer] over the values of the header. *)
Fixpoint add_trailers (vs : list bytes) (t : Header) : Header + http_err :=
  match vs with
  | [] => inl t
  | v :: r =>
      match TrimString v with
      | [] => add_trailers r t
      | key =>
          match (if negb (contains_byte "," key) then add_trailer_key key t
                 else add_trailer_keys (split_byte "," key) t) with
          | inl t => add_trailers r t
          | inr e => inr e
          end
      end
  end.

(** [parseTrailer] *)
Definition parseTrailer p : parser * option http_err :=
  if negb (chunked p) then (p, None)
  else
    match hdr (header p) !! trailerHeader with
    | None => (p, None)
    | Some trailers =>
        let p := delete_header trailerHeader p in
        match add_trailers trailers ∅ with
        | inr e => (p, Some e)
        | inl t => if bool_decide (0 < size t)%nat then (set_trailer (Some t) p, None) else (p, None)
        end
    end.

(** [handleMessage] *)
Definition handleMessage p : parser :=
  let '(pr, upg) := OnComplete (processor p) in
  let p := set_processor pr p in
  let p := match upg with Some c => set_parserCloser (Some c) p | None => p end in
  let p := set_trailer None (set_header None (set_chunked false p)) in
  if negb (isClient p) then nextState p stateMethodBefore
  else nextState p stateClientProtoBefore.

(** ** One iteration of the loop *)

(** What an iteration does: go on (with the values of [start] and [i] before
    the loop's [i++]), return an error, [goto Exit], or panic. *)
Inductive outcome :=
| Next (start i : Z) (p : parser)
| Return (p : parser) (e : http_err)
| GotoExit (start : Z) (p : parser)
| Panic (p : parser).

(** [if cur == "" { cur = f(string(data[start:i])) }] *)
Definition token_or (f : bytes -> bytes) (cur data : bytes) (start i : Z) : option bytes :=
  match cur with
  | [] => f <$> slice data start i
  | _ => Some cur
  end.

(** States [stateMethodBefore] to [stateProto]. *)
Definition step_request_line (data : bytes) (start i : Z) (c : byte) p : outcome :=
  match state p with
  | stateMethodBefore =>
      if isValidMethodChar c then Next i i (nextState p stateMethod)
      else Return p ErrInvalidMethod
  | stateMethod =>
      if c =b SP then
        match slice data start i with
        | None => Panic p
        | Some s =>
            let method := ToUpper s in
            if negb (isValidMethod method) then Return p ErrInvalidMethod
            else
              let p := set_processor (OnMethod (processor p) method) p in
              Next (i + 1) i (nextState p statePathBefore)
        end
      else if negb (isAlpha c) then Return p ErrInvalidMethod
      else Next start i p
  | statePathBefore =>
      if (c =b "/") || (c =b "*") then Next i i (nextState p statePath)
      else if c =b SP then Next start i p
      else Return p ErrInvalidRequestURI
  | statePath =>
      if c =b SP then
        match slice data start i with
        | None => Panic p
        | Some uri =>
            let '(pr, err) := OnURL (processor p) uri in
            let p := set_processor pr p in
            match err with
            | Some e => Return p e
            | None => Next (i + 1) i (nextState p stateProtoBefore)
            end
        end
      else Next start i p
  | stateProtoBefore =>
      if negb (c =b SP) then Next i i (nextState p stateProto) else Next start i p
  | stateProto =>
      if c =b SP then
        match token_or id (proto p) data start i with
        | None => Panic p
        | Some v => Next start i (set_proto v p)
        end
      else if c =b CR then
        match token_or id (proto p) data start i with
        | None => Panic p
        | Some v =>
            let '(pr, err) := OnProto (processor p) v in
            let p := set_proto [] (set_processor pr p) in
            match err with
            | Some e => Return p e
            | None => Next start i (nextState p stateProtoLF)
            end
        end
      else Next start i p
  | _ => Next start i p
  end.

(** States [stateClientProtoBefore] to [stateStatus]. *)
Definition step_status_line (data : bytes) (start i : Z) (c : byte) p : outcome :=
  match state p with
  | stateClientProtoBefore =>
      if c =b "H" then Next i i (nextState p stateClientProto)
      else Return p ErrInvalidMethod
  | stateClientProto =>
      if c =b SP then
        match token_or id (proto p) data start i with
        | None => Panic p
        | Some v =>
            let '(pr, err) := OnProto (processor p) v in
            let p := set_proto [] (set_processor pr p) in
            match err with
            | Some e => Return p e
            | None => Next start i (nextState p stateStatusCodeBefore)
            end
        end
      else Next start i p
  | stateStatusCodeBefore =>
      if c =b SP then Return p ErrInvalidHTTPStatusCode
      else if isNum c then Next i i (nextState p stateStatusCode)
      else Next start i p
  | stateStatusCode =>
      if c =b SP then
        match slice data start i with
        | None => Panic p
        | Some cs =>
            match Atoi cs with
            | None => Return p (ErrStatusAtoi cs)
            | Some code => Next start i (nextState (set_statusCode code p) stateStatusBefore)
            end
        end
      else if negb (isNum c) then Return p ErrInvalidHTTPStatusCode
      else Next start i p
  | stateStatusBefore =>
      if c =b SP then Return p ErrInvalidHTTPStatus
      else if isAlpha c then Next i i (nextState p stateStatus)
      else Next start i p
  | stateStatus =>
      if c =b SP then
        match token_or id (status p) data start i with
        | None => Panic p
        | Some v => Next start i (set_status v p)
        end
      else if c =b CR then
        match token_or id (status p) data start i with
        | None => Panic p
        | Some v =>
            let p := set_processor (OnStatus (processor p) (statusCode p) v) p in
            let p := set_status [] (set_statusCode 0 p) in
            Next start i (nextState p stateStatusLF)
        end
      else Next start i p
  | _ => Next start i p
  end.

(** The end of a header line: record a framing header, report the pair. *)
Definition finish_header p : parser :=
  let k := headerKey p in
  let v := headerValue p in
  let p :=
    if bool_decide (k = transferEncodingHeader) || bool_decide (k = trailerHeader)
       || bool_decide (k = contentLengthHeader)
    then set_header (Some (header_add (hdr (header p)) k v)) p
    else p in
  let p := set_processor (OnHeader (processor p) k v) p in
  set_headerValue [] (set_headerKey [] p).

(** States of the header block, with the line feeds that lead to it. *)
Definition step_header (data : bytes) (start i : Z) (c : byte) p : outcome :=
  match state p with
  | stateStatusLF =>
      if c =b LF then Next start i (nextState p stateHeaderKeyBefore)
      else Return p ErrLFExpected
  | stateProtoLF =>
      if c =b LF then Next (i + 1) i (nextState p stateHeaderKeyBefore)
      else Return p ErrLFExpected
  | stateHeaderValueLF =>
      if c =b LF then Next (i + 1) i (nextState p stateHeaderKeyBefore)
      else Return p ErrLFExpected
  | stateHeaderKeyBefore =>
      if c =b SP then
        if negb (headerExists p) then Return p ErrInvalidCharInHeader else Next start i p
      else if c =b CR then
        match parseTransferEncoding p with
        | (p, Some e) => Return p e
        | (p, None) =>
            match parseContentLength p with
            | (p, Some e) => Return p e
            | (p, None) =>
                let p := set_processor (OnContentLength (processor p) (contentLength p)) p in
                match parseTrailer p with
                | (p, Some e) => Return p e
                | (p, None) => Next (i + 1) i (nextState p stateHeaderOverLF)
                end
            end
        end
      else if c =b LF then Return p ErrInvalidCharInHeader
      else if isToken c then Next i i (set_headerExists true (nextState p stateHeaderKey))
      else Return p ErrInvalidCharInHeader
  | stateHeaderKey =>
      if c =b SP then
        match token_or CanonicalHeaderKey (headerKey p) data start i with
        | None => Panic p
        | Some k => Next start i (set_headerKey k p)
        end
      else if c =b ":" then
        match token_or CanonicalHeaderKey (headerKey p) data start i with
        | None => Panic p
        | Some k => Next (i + 1) i (nextState (set_headerKey k p) stateHeaderValueBefore)
        end
      else if (c =b CR) || (c =b LF) then Return p ErrInvalidCharInHeader
      else if negb (isToken c) then Return p ErrInvalidCharInHeader
      else Next start i p
  | stateHeaderValueBefore =>
      if c =b SP then Next start i p
      else if c =b CR then
        match token_or id (headerValue p) data start i with
        | None => Panic p
        | Some v => Next (i + 1) i (nextState (finish_header (set_headerValue v p)) stateHeaderValueLF)
        end
      else if c =b LF then Return p ErrInvalidCharInHeader
      else Next i i (nextState p stateHeaderValue)
  | stateHeaderValue =>
      if c =b CR then
        match token_or id (headerValue p) data start i with
        | None => Panic p
        | Some v => Next (i + 1) i (nextState (finish_header (set_headerValue v p)) stateHeaderValueLF)
        end
      else if c =b LF then Return p ErrInvalidCharInHeader
      else Next start i p
  | _ => Next start i p
  end.

(** [if p.chunkSize < 0 { ... }]: parse the size once. *)
Definition chunk_size_now (data : bytes) (start i : Z) p : option (parser + http_err) :=
  if chunkSize p <? 0 then
    match slice data start i with
    | None => None
    | Some s =>
        match parseAndValidateChunkSize s with
        | inl n => Some (inl (set_chunkSize n p))
        | inr e => Some (inr e)
        end
    end
  else Some (inl p).

(** The end of the header block and the states of a body. *)
Definition step_body (data : bytes) (start i : Z) (c : byte) p : outcome :=
  match state p with
  | stateHeaderOverLF =>
      if c =b LF then
        let p := set_headerExists false p in
        if chunked p then Next (i + 1) i (nextState p stateBodyChunkSizeBefore)
        else if 0 <? contentLength p then Next (i + 1) i (nextState p stateBodyContentLength)
        else Next (i + 1) i (handleMessage p)
      else Return p ErrLFExpected
  | stateBodyContentLength =>
      let cl := contentLength p in
      let left := len data - start in
      if cl <=? left then
        match slice data start (start + cl) with
        | None => Panic p
        | Some body =>
            let '(pr, err) := OnBody (processor p) body in
            let p := set_processor pr p in
            match err with
            | Some e => Return p e
            | None => Next (start + cl) (start + cl - 1) (handleMessage p)
            end
        end
      else GotoExit start p
  | stateBodyChunkSizeBefore =>
      if isHex c then Next i i (nextState (set_chunkSize (-1) p) stateBodyChunkSize)
      else Return p ErrInvalidChunkSize
  | stateBodyChunkSize =>
      if c =b SP then
        match chunk_size_now data start i p with
        | None => Panic p
        | Some (inr e) => Return p e
        | Some (inl p) => Next start i p
        end
      else if c =b CR then
        match chunk_size_now data start i p with
        | None => Panic p
        | Some (inr e) => Return p e
        | Some (inl p) => Next (i + 1) i (nextState p stateBodyChunkSizeLF)
        end
      else if negb (isHex c) && (chunkSize p <? 0) then
        match chunk_size_now data start i p with
        | None => Panic p
        | Some (inr e) => Return p e
        | Some (inl p) => Next start i p
        end
      else Next start i p
  | stateBodyChunkSizeLF =>
      if c =b LF then
        if 0 <? chunkSize p then Next (i + 1) i (nextState p stateBodyChunkData)
        else if bool_decide (0 < size (hdr (trailer p)))%nat
             then Next (i + 1) i (nextState p stateBodyTrailerHeaderKeyBefore)
             else Next (i + 1) i (nextState p stateTailCR)
      else Return p ErrLFExpected
  | stateBodyChunkData =>
      let cl := chunkSize p in
      let left := len data - start in
      if cl <=? left then
        match slice data start (start + cl) with
        | None => Panic p
        | Some body =>
            let '(pr, err) := OnBody (processor p) body in
            let p := set_processor pr p in
            match err with
            | Some e => Return p e
            | None => Next (start + cl) (start + cl - 1) (nextState p stateBodyChunkDataCR)
            end
        end
      else GotoExit start p
  | stateBodyChunkDataCR =>
      if c =b CR then Next start i (nextState p stateBodyChunkDataLF)
      else Return p ErrCRExpected
  | stateBodyChunkDataLF =>
      if c =b LF then Next start i (nextState p stateBodyChunkSizeBefore)
      else Return p ErrLFExpected
  | _ => Next start i p
  end.

(** The trailer block and the final line end of a chunked body. *)
Definition step_trailer (data : bytes) (start i : Z) (c : byte) p : outcome :=
  match state p with
  | stateBodyTrailerHeaderValueLF =>
      if c =b LF then Next i i (nextState p stateBodyTrailerHeaderKeyBefore)
      else Return p ErrLFExpected
  | stateBodyTrailerHeaderKeyBefore =>
      if isToken c then Next i i (nextState p stateBodyTrailerHeaderKey)
      else if c =b CR then
        if bool_decide (0 < size (hdr (trailer p)))%nat then Return p ErrTrailerExpected
        else Next (i + 1) i (nextState p stateTailLF)
      else Next start i p
  | stateBodyTrailerHeaderKey =>
      if c =b SP then
        match token_or CanonicalHeaderKey (headerKey p) data start i with
        | None => Panic p
        | Some k => Next start i (set_headerKey k p)
        end
      else if c =b ":" then
        match token_or CanonicalHeaderKey (headerKey p) data start i with
        | None => Panic p
        | Some k => Next (i + 1) i (nextState (set_headerKey k p) stateBodyTrailerHeaderValueBefore)
        end
      else if negb (isToken c) then Return p ErrInvalidCharInHeader
      else Next start i p
  | stateBodyTrailerHeaderValueBefore =>
      if c =b SP then Next start i p
      else if c =b CR then
        match token_or id (headerValue p) data start i with
        | None => Panic p
        | Some v =>
            let p := set_processor (OnTrailerHeader (processor p) (headerKey p) v) p in
            let p := set_headerValue [] (set_headerKey [] p) in
            Next (i + 1) i (nextState p stateBodyTrailerHeaderValueLF)
        end
      else Next i i (nextState p stateBodyTrailerHeaderValue)
  | stateBodyTrailerHeaderValue =>
      if c =b SP then
        match token_or id (headerValue p) data start i with
        | None => Panic p
        | Some v => Next start i (set_headerValue v p)
        end
      else if c =b CR then
        match token_or id (headerValue p) data start i with
        | None => Panic p
        | Some v =>
            let p := set_headerValue v p in
            if bool_decide (size (hdr (trailer p)) = 0)%nat
            then Return p (ErrInvalidTrailer (headerKey p))
            else
              let p := set_trailer (delete (headerKey p) <$> trailer p) p in
              let p := set_processor (OnTrailerHeader (processor p) (headerKey p) v) p in
              let p := set_headerValue [] (set_headerKey [] p) in
              Next (i + 1) i (nextState p stateBodyTrailerHeaderValueLF)
        end
      else Next start i p
  | stateTailCR =>
      if c =b CR then Next start i (nextState p stateTailLF) else Return p ErrCRExpected
  | stateTailLF =>
      if c =b LF then Next (i + 1) i (handleMessage p) else Return p ErrLFExpected
  | _ => Next start i p
  end.

(** The [switch p.state] of [Parse]. *)
Definition step (data : bytes) (start i : Z) (c : byte) p : outcome :=
  match state p with
  | stateClose => Return p ErrClosed
  | stateMethodBefore | stateMethod | statePathBefore | statePath
  | stateProtoBefore | stateProto => step_request_line data start i c p
  | stateClientProtoBefore | stateClientProto | stateStatusCodeBefore | stateStatusCode
  | stateStatusBefore | stateStatus => step_status_line data start i c p
  | stateStatusLF | stateProtoLF | stateHeaderValueLF | stateHeaderKeyBefore
  | stateHeaderKey | stateHeaderValueBefore | stateHeaderValue => step_header data start i c p
  | stateHeaderOverLF | stateBodyContentLength | stateBodyChunkSizeBefore
  | stateBodyChunkSize | stateBodyChunkSizeLF | stateBodyChunkData
  | stateBodyChunkDataCR | stateBodyChunkDataLF => step_body data start i c p
  | stateBodyTrailerHeaderValueLF | stateBodyTrailerHeaderKeyBefore
  | stateBodyTrailerHeaderKey | stateBodyTrailerHeaderValueBefore
  | stateBodyTrailerHeaderValue | stateTailCR | stateTailLF => step_trailer data start i c p
  end.

(** ** [Parse] *)

(** [PRet p err]: returned; [PPanic p]: panicked (the deferred function
    recovers, logs and lets [Parse] return nil); [PFuel]: the model's fuel ran
    out, which [Parse_total] excludes. *)
Inductive parse_result :=
| PRet (p : parser) (e : option http_err)
| PPanic (p : parser)
| PFuel.

(** The block at label [UPGRADER] with a [ParserCloser] installed. *)
Definition upgrader (cl : C) (data : bytes) (start : Z) p : parse_result :=
  match (if 0 <? start then slice_from data start else Some data) with
  | None => PPanic p
  | Some udata =>
      let '(cl', err) := CloserParse cl udata in
      PRet (set_bytesCached None (set_parserCloser (Some cl') p)) err
  end.

(** The block at label [Exit]: cache the unfinished token. *)
Definition parse_exit (data : bytes) (start : Z) p : parse_result :=
  let left := len data - start in
  if 0 <? left then
    match slice_from data start with
    | None => PPanic p
    | Some rest =>
        match bytesCached p with
        | None => PRet (set_bytesCached (Some rest) p) None
        | Some _ => if 0 <? start then PRet (set_bytesCached (Some rest) p) None else PRet p None
        end
    end
  else
    match bytesCached p with
    | Some (_ :: _) => PRet (set_bytesCached None p) None
    | _ => PRet p None
    end.

(** The [for] loop of [Parse]. *)
Fixpoint parse_loop (fuel : nat) (data : bytes) (start i : Z) p : parse_result :=
  match fuel with
  | O => PFuel
  | S fuel =>
      if i <? len data then
        match parserCloser p with
        | Some cl => upgrader cl data start (set_processor (ProcClean (processor p)) p)
        | None =>
            match at_index data i with
            | None => PPanic p
            | Some c =>
                match step data start i c p with
                | Next start i p => parse_loop fuel data start (i + 1) p
                | Return p e => PRet p (Some e)
                | GotoExit start p => parse_exit data start p
                | Panic p => PPanic p
                end
            end
        end
      else parse_exit data start p
  end.

(** From the label [UPGRADER] on, entered with [start = 0]. *)
Definition parse_from (data : bytes) (offset : Z) p : parse_result :=
  match parserCloser p with
  | Some cl => upgrader cl data 0 p
  | None => parse_loop (S (length data)) data 0 offset p
  end.

(** [Parse] *)
Definition Parse p (data : bytes) : parse_result :=
  match state p with
  | stateClose => PRet p (Some ErrClosed)
  | _ =>
      let p := initReadDeadline p in
      if len data =? 0 then PRet p None
      else
        let cached := default [] (bytesCached p) in
        let offset := len cached in
        if 0 <? offset then
          if (0 <? readLimit p) && (readLimit p <? offset + len data)
          then PRet p (Some ErrTooLong)
          else parse_from (cached ++ data) offset (set_bytesCached (Some (cached ++ data)) p)
        else parse_from data offset p
  end.

(** [NewParser] *)
Definition NewParser (pr : P) (client : bool) (limit : Z) : parser :=
  MkParser None None pr [] 0 [] [] [] None None 0 0
    (if client then stateClientProtoBefore else stateMethodBefore)
    false client false false limit false [] 0.

End parser.
