(* ===== verification/ParserFacts.v ===== *)
(** * The parser is insensitive to how its input is cut

    Invariant of the loop of [Parser.Parse], absence of panics, termination,
    and the theorem that feeding a byte stream in pieces has the effect of
    feeding it at once. *)

From Stdlib Require Import ZArith Lia.
From Stdlib Require Import Strings.Byte Strings.String.
From stdpp Require Import base numbers list list_numbers gmap.
From S2P Require Import Prelude GoLib Table Parser.

Open Scope Z_scope.
Open Scope byte_cmp_scope.

Section facts.
Context {P C : Type} `{!Processor P C} `{!ParserCloser C}.

Abbreviation parser := (parser P C).
Abbreviation parse_result := (@parse_result P C).
Implicit Types p : parser.

(** The number of body bytes the state waits for, in the two states that
    consume a block at once. *)
Definition body_need p : option Z :=
  match state p with
  | stateBodyContentLength => Some (contentLength p)
  | stateBodyChunkData => Some (chunkSize p)
  | _ => None
  end.

(** [n] bytes are pending: fewer than the block the state waits for. *)
Definition body_ok p (n : Z) : Prop :=
  match body_need p with
  | Some cl => n < cl
  | None => True
  end.

(** Invariant at the head of the loop. *)
Record linv (data : bytes) (start i : Z) p : Prop := {
  linv_range : 0 <= start <= i /\ i <= len data;
  linv_body : body_ok p (i - start);
  linv_open : state p <> stateClose;
  linv_upg : parserCloser p <> None ->
    start = i /\ exists pr c, OnComplete pr = (processor p, Some c) /\ parserCloser p = Some c
}.

(** The same parser without its cached bytes. *)
Definition erase p : parser := set_bytesCached None p.

(** What a step keeps. *)
Definition same_frame p p' : Prop :=
  bytesCached p' = bytesCached p /\ readLimit p' = readLimit p /\
  initialReadDeadlinePending p' = initialReadDeadlinePending p /\
  deadlineCalls p' = deadlineCalls p /\ isClient p' = isClient p.

Definition step_post (data : bytes) (start i : Z) p (o : outcome) : Prop :=
  match o with
  | Next s' i' p' => linv data s' (i' + 1) p' /\ i <= i' /\ same_frame p p'
  | Return p' _ => same_frame p p'
  | GotoExit s' p' =>
      s' = start /\ p' = p /\ exists cl, body_need p = Some cl /\ len data - start < cl
  | Panic _ => False
  end.

Lemma at_index_range {A} (l : list A) i x : at_index l i = Some x -> 0 <= i < len l.
Proof.
  unfold at_index. destruct (0 <=? i) eqn:E; [|done]. bool_hyp.
  intros H%lookup_lt_Some. unfold len. lia.
Qed.

Lemma token_or_Some f cur data start i :
  0 <= start -> start <= i -> i <= len data ->
  exists v, token_or f cur data start i = Some v.
Proof.
  intros. unfold token_or. destruct cur; [|eauto].
  destruct (slice_is_Some data start i) as [s ->]; eauto.
Qed.

(** Close the goals left by symbolic execution of one handler. *)
Ltac step_close :=
  unfold step_post, same_frame; simpl; try done;
  split_and?; simpl; try done; try lia;
  constructor; unfold body_ok; simpl; try done; try lia;
  try (intros _; split_and!; [lia|by eauto]).

Lemma chunk_size_now_spec data start i p :
  0 <= start -> start <= i -> i <= len data ->
  exists r, chunk_size_now data start i p = Some r /\
    forall q, r = inl q -> q = set_chunkSize (chunkSize q) p.
Proof.
  intros. unfold chunk_size_now. destruct (slice_is_Some data start i) as [s ->]; [done..|].
  destruct (chunkSize p <? 0).
  - destruct (parseAndValidateChunkSize s); eexists; split; try done. by intros q [= <-].
  - eexists; split; [done|]. intros q [= <-]. by destruct p.
Qed.

Lemma parseTransferEncoding_spec p :
  let q := (parseTransferEncoding p).1 in
  q = set_chunked (chunked q) (set_header (header q) p).
Proof.
  unfold parseTransferEncoding, delete_header. destruct p; simpl.
  repeat case_match; reflexivity.
Qed.

Lemma parseContentLength_spec p :
  let q := (parseContentLength p).1 in q = set_contentLength (contentLength q) p.
Proof.
  unfold parseContentLength. destruct p; simpl. repeat case_match; reflexivity.
Qed.

Lemma parseTrailer_spec p :
  let q := (parseTrailer p).1 in q = set_trailer (trailer q) (set_header (header q) p).
Proof.
  unfold parseTrailer, delete_header. destruct p; simpl. repeat case_match; reflexivity.
Qed.

Lemma step_spec data start i c p :
  linv data start i p -> parserCloser p = None -> i < len data ->
  step_post data start i p (step data start i c p).
Proof.
  intros [[Hr Hl] Hb Ho Hu] Hn Hi.
  destruct (slice_is_Some data start i) as [s Hs]; [lia..|].
  destruct (token_or_Some id (proto p) data start i) as [v1 Hv1]; [lia..|].
  destruct (token_or_Some id (status p) data start i) as [v2 Hv2]; [lia..|].
  destruct (token_or_Some CanonicalHeaderKey (headerKey p) data start i) as [v3 Hv3]; [lia..|].
  destruct (token_or_Some id (headerValue p) data start i) as [v4 Hv4]; [lia..|].
  unfold step. unfold body_ok, body_need in Hb.
  destruct (state p) eqn:E; try done.
  all: unfold step_request_line, step_status_line, step_header, step_body, step_trailer.
  all: rewrite E, ?Hs, ?Hv1, ?Hv2, ?Hv3, ?Hv4.
  all: unfold handleMessage, finish_header.
  all: cbv zeta.
  all: try (
    match goal with
    | |- context [slice ?d ?s (?s + ?cl)] =>
        destruct (Z.leb_spec cl (len d - s));
        [destruct (slice_is_Some d s (s + cl)) as [bd ->]; [lia..|]
        |by (unfold step_post, body_need; rewrite E; eauto)]
    end).
  all: try (
    repeat match goal with
    | |- context [chunk_size_now ?d ?s ?j ?q0] =>
        destruct (chunk_size_now_spec d s j q0) as (r & -> & Hq); [lia..|];
        destruct r as [q|]; [rewrite (Hq q eq_refl); clear Hq|]
    | |- context [parseTransferEncoding ?q0] =>
        pose proof (parseTransferEncoding_spec q0) as Hte;
        destruct (parseTransferEncoding q0) as [q1 [e1|]]; simpl in Hte;
        rewrite Hte; clear Hte
    end).
  all: try (
    match goal with
    | |- context [parseContentLength ?q] =>
        pose proof (parseContentLength_spec q) as Hcl;
        destruct (parseContentLength q) as [q2 [e2|]]; simpl in Hcl;
        rewrite Hcl; clear Hcl
    end).
  all: try (
    match goal with
    | |- context [parseTrailer ?q] =>
        pose proof (parseTrailer_spec q) as Htr;
        destruct (parseTrailer q) as [q3 [e3|]]; simpl in Htr;
        rewrite Htr; clear Htr
    end).
  all: destruct p; simpl in *; subst; unfold nextState; simpl;
    repeat (case_match; simpl in *; simplify_eq); step_close.
Qed.

(** ** Moving the window *)

Definition shift_out (n : Z) (o : @outcome P C) : outcome :=
  match o with
  | Next s i p => Next (n + s) (n + i) p
  | GotoExit s p => GotoExit (n + s) p
  | Return p e => Return p e
  | Panic p => Panic p
  end.

Lemma token_or_shift f cur pre data start i :
  0 <= start ->
  token_or f cur (pre ++ data) (len pre + start) (len pre + i) = token_or f cur data start i.
Proof. intros. unfold token_or. by rewrite slice_app_r. Qed.

Lemma chunk_size_now_shift pre data start i p :
  0 <= start ->
  chunk_size_now (pre ++ data) (len pre + start) (len pre + i) p = chunk_size_now data start i p.
Proof. intros. unfold chunk_size_now. by rewrite slice_app_r. Qed.

Ltac handlers :=
  unfold step, step_request_line, step_status_line, step_header, step_body, step_trailer.

(** The handlers look at the data from [start] on only. *)
Lemma step_shift pre data start i c p :
  0 <= start ->
  step (pre ++ data) (len pre + start) (len pre + i) c p =
  shift_out (len pre) (step data start i c p).
Proof.
  intros Hs. handlers. cbv zeta.
  rewrite !token_or_shift, !chunk_size_now_shift, !slice_app_r by done.
  rewrite <- !Z.add_assoc, !slice_app_r, len_app by done.
  replace (len pre + len data - (len pre + start)) with (len data - start) by lia.
  destruct (state p); simpl;
    repeat (case_match; simpl); try done; f_equal; lia.
Qed.

Definition map_out (f : parser -> parser) (o : @outcome P C) : outcome :=
  match o with
  | Next s i p => Next s i (f p)
  | GotoExit s p => GotoExit s (f p)
  | Return p e => Return (f p) e
  | Panic p => Panic (f p)
  end.

Section recache.
Context (v : option bytes).
Abbreviation rc := (set_bytesCached v).

Lemma nextState_recache s p : nextState (rc p) s = rc (nextState p s).
Proof. unfold nextState. destruct p as [? ? ? ? ? ? ? ? ? ? ? ? st]; by destruct st. Qed.

Lemma handleMessage_recache p : handleMessage (rc p) = rc (handleMessage p).
Proof.
  unfold handleMessage. simpl. destruct (OnComplete (processor p)) as [pr [c|]];
    (destruct (isClient p) eqn:E; simpl; rewrite E; simpl; by rewrite <- nextState_recache).
Qed.

Lemma finish_header_recache p : finish_header (rc p) = rc (finish_header p).
Proof. unfold finish_header. simpl. by destruct (_ || _). Qed.

Lemma chunk_size_now_recache data start i p :
  chunk_size_now data start i (rc p) =
  (fun r => match r with inl q => inl (rc q) | inr e => inr e end) <$> chunk_size_now data start i p.
Proof.
  unfold chunk_size_now. simpl. destruct (chunkSize p <? 0); [|done].
  destruct (slice data start i); [|done]. simpl. by destruct (parseAndValidateChunkSize l).
Qed.

Lemma parseTransferEncoding_recache p :
  parseTransferEncoding (rc p) = prod_map rc id (parseTransferEncoding p).
Proof.
  unfold parseTransferEncoding. simpl.
  destruct (hdr (header p) !! transferEncodingHeader) as [[|x [|]]|]; simpl; try done.
  by destruct (bool_decide _).
Qed.

Lemma parseContentLength_recache p :
  parseContentLength (rc p) = prod_map rc id (parseContentLength p).
Proof.
  unfold parseContentLength. simpl.
  destruct (header_get _ _); simpl; [done|]. destruct (chunked p); [done|].
  destruct (ParseInt _ _ _); [|done]. by repeat case_match.
Qed.

Lemma parseTrailer_recache p : parseTrailer (rc p) = prod_map rc id (parseTrailer p).
Proof.
  unfold parseTrailer. simpl. destruct (chunked p); [|done]. simpl.
  destruct (hdr (header p) !! trailerHeader); [|done].
  destruct (add_trailers _ _); [|done]. by destruct (bool_decide _).
Qed.

(** The handlers do not look at the cached bytes. *)
Lemma step_recache data start i c p :
  step data start i c (rc p) = map_out rc (step data start i c p).
Proof.
  handlers. cbv zeta.
  rewrite !chunk_size_now_recache, !parseTransferEncoding_recache.
  change (state (rc p)) with (state p).
  destruct (state p); simpl; try reflexivity.
  all: try (destruct (parseTransferEncoding p) as [q [e|]]; simpl;
    [|rewrite parseContentLength_recache; destruct (parseContentLength q) as [q2 [e|]]; simpl;
      [|match goal with
        | |- context [parseTrailer (set_processor ?x (rc ?y))] =>
            change (set_processor x (rc y)) with (rc (set_processor x y));
            rewrite parseTrailer_recache;
            destruct (parseTrailer (set_processor x y)) as [q3 [e|]]; simpl
        end]]).
  all: repeat (case_match; simplify_eq/=); try reflexivity.
  all: f_equal; rewrite <- ?nextState_recache, <- ?handleMessage_recache; try reflexivity.
  all: by rewrite <- ?finish_header_recache, ?nextState_recache.
Qed.
End recache.

Lemma token_or_ext f cur a b start i :
  i <= len a -> token_or f cur (a ++ b) start i = token_or f cur a start i.
Proof. intros. unfold token_or. by rewrite slice_app_l. Qed.

Lemma chunk_size_now_ext a b start i p :
  i <= len a -> chunk_size_now (a ++ b) start i p = chunk_size_now a start i p.
Proof. intros. unfold chunk_size_now. by rewrite slice_app_l. Qed.

(** More data after the window changes a step only when the step waits for
    the rest of a body block. *)
Lemma step_ext a b start i c p :
  i <= len a -> (forall s q, step a start i c p <> GotoExit s q) ->
  step (a ++ b) start i c p = step a start i c p.
Proof.
  intros Hi. handlers. cbv zeta.
  rewrite !token_or_ext, !chunk_size_now_ext, !slice_app_l by done.
  destruct (state p); try done; intros Hg.
  all: rewrite len_app.
  all: match goal with
       | |- context [slice (?a0 ++ ?b0) ?s (?s + ?cl)] =>
           destruct (Z.leb_spec cl (len a0 - s));
           [rewrite (proj2 (Z.leb_le cl (len a0 + len b0 - s))) by (pose proof (len_nonneg b0); lia);
            by rewrite slice_app_l by lia
           |by edestruct Hg]
       end.
Qed.
End facts.
