(* ===== verification/ParserSplit.v ===== *)
(** * Feeding a stream in pieces

    [Parser.Parse] keeps an unfinished token in [bytesCached] and goes on with
    the next call.  This file proves that [Parse] always returns (no panic, no
    endless loop) and that the result of a sequence of calls depends only on
    the concatenation of the data. *)

From Stdlib Require Import ZArith Lia.
From Stdlib Require Import Strings.Byte Strings.String.
From stdpp Require Import base numbers list list_numbers gmap.
From S2P Require Import Prelude GoLib Table Parser ParserFacts.

Open Scope Z_scope.
Open Scope byte_cmp_scope.

(** What an upgraded reader promises: data may be cut anywhere, as long as the
    reader has room for them ([closer_ok c n]: for [n] more bytes).  After an
    error nothing is promised about the reader's state. *)
Class ParserCloserLaws (C : Type) `{!ParserCloser C} := {
  closer_ok : C -> Z -> Prop;
  closer_app (c : C) (x y : bytes) :
    x <> [] -> y <> [] -> closer_ok c (len x + len y) ->
    match CloserParse c x with
    | (c', None) => CloserParse c (x ++ y) = CloserParse c' y
    | (_, Some e) => (CloserParse c (x ++ y)).2 = Some e
    end;
  closer_keep (c c' : C) (x : bytes) (n : Z) :
    x <> [] -> 0 <= n -> closer_ok c (len x + n) -> CloserParse c x = (c', None) -> closer_ok c' n
}.

(** What a processor promises: once [OnComplete] has installed a reader the
    processor holds nothing that [Clean] would release, and the reader has room
    for streams up to [stream_bound]. *)
Class ProcessorLaws (P C : Type) `{!Processor P C} `{!ParserCloser C} `{!ParserCloserLaws C} := {
  stream_bound : Z;
  complete_clean (pr pr' : P) (c : C) :
    OnComplete pr = (pr', Some c) -> ProcClean pr' = pr';
  complete_ok (pr pr' : P) (c : C) (n : Z) :
    OnComplete pr = (pr', Some c) -> 0 <= n <= stream_bound -> closer_ok c n
}.

Section split.
Context {P C : Type} `{!Processor P C} `{!ParserCloser C}.

Abbreviation parser := (parser P C).
Abbreviation parse_result := (@parse_result P C).
Implicit Types p : parser.

(** The cached bytes of an unfinished token. *)
Definition cached p : bytes := default [] (bytesCached p).

(** Invariant of a parser between two successful calls. *)
Record wf p : Prop := {
  wf_cache : bytesCached p <> Some [];
  wf_body : body_ok p (len (cached p));
  wf_upg : parserCloser p <> None -> bytesCached p = None
}.

(** The data fit the read limit. *)
Definition within_limit p (data : bytes) : Prop :=
  readLimit p <= 0 \/ len (cached p) + len data <= readLimit p.

(** The guard on [ReadLimit] in [Parse]: only checked with cached bytes. *)
Definition limit_hit p (data : bytes) : bool :=
  (0 <? len (cached p)) && ((0 <? readLimit p) && (readLimit p <? len (cached p) + len data)).

Lemma within_limit_hit p data : within_limit p data -> limit_hit p data = false.
Proof.
  unfold within_limit, limit_hit. intros H.
  destruct (0 <? len (cached p)), (Z.ltb_spec 0 (readLimit p)),
    (Z.ltb_spec (readLimit p) (len (cached p) + len data)); simpl; done || lia.
Qed.

Lemma within_limit_app_l p a b : within_limit p (a ++ b) -> within_limit p a.
Proof. unfold within_limit. intros [?|?]; [by left|right]. len_lia. Qed.

(** ** The loop returns *)

Lemma parse_loop_fuel f1 f2 data start i p :
  linv data start i p -> len data - i < Z.of_nat f1 -> len data - i < Z.of_nat f2 ->
  parse_loop f1 data start i p = parse_loop f2 data start i p.
Proof.
  revert f2 start i p. induction f1 as [|f1 IH]; intros f2 start i p Hinv H1 H2.
  { destruct Hinv. lia. }
  destruct f2 as [|f2]; [destruct Hinv; lia|]. simpl.
  destruct (Z.ltb_spec i (len data)); [|done].
  destruct (parserCloser p) eqn:Eu; [done|].
  destruct (at_index data i) as [c|] eqn:Ec; [|done].
  pose proof (step_spec data start i c p Hinv Eu ltac:(done)) as Hs.
  destruct (step data start i c p) as [s' i' p'|p' e|s' p'|p']; try done.
  destruct Hs as (Hinv' & ? & _). apply IH; [done|lia..].
Qed.

(** What is left in the cache when the loop ends at [start]. *)
Definition rest_cache (data : bytes) (start : Z) : option bytes :=
  match drop (Z.to_nat start) data with
  | [] => None
  | r => Some r
  end.

Lemma rest_cache_cached data start p :
  cached (set_bytesCached (rest_cache data start) p) = drop (Z.to_nat start) data.
Proof. unfold cached, rest_cache. simpl. by destruct (drop _ _). Qed.

Lemma parse_exit_eq data start p :
  0 <= start <= len data ->
  bytesCached p = None \/ (bytesCached p = Some data /\ data <> []) ->
  parse_exit data start p = PRet (set_bytesCached (rest_cache data start) p) None.
Proof.
  intros [H0 H1] Hc. unfold parse_exit, rest_cache.
  rewrite slice_from_eq by done.
  assert (len (drop (Z.to_nat start) data) = len data - start) as Hl by len_lia.
  destruct (Z.ltb_spec 0 (len data - start)).
  - destruct (drop (Z.to_nat start) data) as [|x r] eqn:E; [rewrite len_nil in Hl; lia|].
    destruct Hc as [->|[Hc _]]; [done|]. rewrite Hc.
    destruct (Z.ltb_spec 0 start); [done|].
    replace start with 0 in E by lia. rewrite drop_0 in E. subst data.
    f_equal. destruct p; simpl in *; by subst.
  - destruct (drop (Z.to_nat start) data) as [|x r] eqn:E; [|len_lia].
    destruct Hc as [Hc|[Hc Hd]].
    + rewrite Hc. f_equal. destruct p; simpl in *; by subst.
    + rewrite Hc. by destruct data.
Qed.

(** The fields a call keeps. *)
Definition same_conf p p' : Prop :=
  readLimit p' = readLimit p /\ isClient p' = isClient p /\
  initialReadDeadlinePending p' = initialReadDeadlinePending p.

(** ** No panic, and the invariant *)

Definition result_ok p (r : parse_result) : Prop :=
  match r with
  | PRet p' None => wf p' /\ state p' <> stateClose /\ same_conf p p'
  | PRet p' (Some _) => True
  | PPanic _ | PFuel => False
  end.

Lemma wf_exit data start i p :
  linv data start i p -> i = len data ->
  wf (set_bytesCached (rest_cache data start) p).
Proof.
  intros [[? ?] Hb Ho Hu] ->. constructor.
  - unfold rest_cache. simpl. by destruct (drop _ _).
  - rewrite rest_cache_cached. unfold body_ok in *.
    replace (body_need (set_bytesCached (rest_cache data start) p)) with (body_need p) by done.
    destruct (body_need p); [|done]. len_lia.
  - simpl. intros [-> _]%Hu. unfold rest_cache, len.
    by rewrite Nat2Z.id, drop_all.
Qed.

Lemma parse_loop_ok f data start i p :
  linv data start i p -> len data - i < Z.of_nat f ->
  bytesCached p = None \/ (bytesCached p = Some data /\ data <> []) ->
  result_ok p (parse_loop f data start i p).
Proof.
  revert start i p. induction f as [|f IH]; intros start i p Hinv Hf Hc.
  { destruct Hinv. lia. }
  pose proof Hinv as [[Hr Hl] Hb Ho Hu]. simpl.
  destruct (Z.ltb_spec i (len data)) as [Hi|Hi].
  - destruct (parserCloser p) as [cl|] eqn:Eu.
    + unfold upgrader. rewrite slice_from_eq by lia.
      assert (body_ok p 0) as Hb0.
      { destruct Hu as [-> _]; [done|]. by rewrite Z.sub_diag in Hb. }
      destruct (0 <? start); destruct (CloserParse cl _) as [cl' [e|]]; simpl; try done;
        (split; [constructor; simpl; try done; apply Hb0|done]).
    + destruct (at_index_is_Some data i) as [c Ec]; [lia|]. rewrite Ec.
      pose proof (step_spec data start i c p Hinv Eu Hi) as Hs.
      destruct (step data start i c p) as [s' i' p'|p' e|s' p'|p'] eqn:Es; simpl; try done.
      * destruct Hs as (Hinv' & ? & Hsf). destruct Hsf as (Hc' & ? & ? & ? & ?).
        assert (result_ok p' (parse_loop f data s' (i' + 1) p')) as Hr'.
        { apply IH; [done|lia|]. by rewrite Hc'. }
        destruct (parse_loop f data s' (i' + 1) p') as [q [e|]| |]; try done.
        destruct Hr' as (? & ? & ? & ? & ?). split; [done|]. split; [done|].
        unfold same_conf. split_and!; congruence.
      * destruct Hs as (-> & -> & cl & Hn & Hlt).
        rewrite parse_exit_eq by (done || lia). simpl.
        split; [|done]. apply (wf_exit data start (len data)); [|done].
        constructor; [lia| |done|by rewrite Eu].
        unfold body_ok. by rewrite Hn.
  - rewrite parse_exit_eq by (done || lia). simpl. split; [|done].
    apply (wf_exit data start i); [done|lia].
Qed.

(** ** Entering the loop *)

Lemma linv_entry p data :
  wf p -> state p <> stateClose -> parserCloser p = None ->
  linv (cached p ++ data) 0 (len (cached p)) p.
Proof.
  intros Hwf Ho Hn. pose proof (wf_body p Hwf) as Hb.
  constructor; [len_lia|by rewrite Z.sub_0_r|done|by rewrite Hn].
Qed.

Lemma linv_frame data start i p p' :
  state p' = state p -> contentLength p' = contentLength p -> chunkSize p' = chunkSize p ->
  parserCloser p' = parserCloser p -> processor p' = processor p ->
  linv data start i p -> linv data start i p'.
Proof.
  intros E1 E2 E3 E4 E5 [? Hb ? ?]. constructor; rewrite ?E1, ?E4, ?E5; try done.
  unfold body_ok, body_need in *. by rewrite E1, E2, E3.
Qed.

(** [initReadDeadline] touches the deadline fields only. *)
Lemma initReadDeadline_eq p :
  initReadDeadline p =
  set_initialReadDeadlinePending false
    (set_deadlineCalls (deadlineCalls (initReadDeadline p)) p).
Proof.
  unfold initReadDeadline. destruct p as [? ? ? ? ? ? ? ? ? ? ? ? st ? ? ? pend]; simpl.
  destruct pend; [|done]. by destruct st.
Qed.

Lemma parserCloser_entry v p :
  parserCloser (set_bytesCached v (initReadDeadline p)) = parserCloser p.
Proof. by rewrite initReadDeadline_eq. Qed.

Lemma wf_init p : wf p -> wf (initReadDeadline p).
Proof. rewrite initReadDeadline_eq. intros [? ? ?]. by constructor. Qed.

Lemma initReadDeadline_idem p : initReadDeadline (initReadDeadline p) = initReadDeadline p.
Proof.
  unfold initReadDeadline at 1. rewrite (initReadDeadline_eq p) at 1. done.
Qed.

(** Past its guards [Parse] works on the cached bytes followed by the data. *)
Lemma Parse_guards p data :
  wf p -> state p <> stateClose -> data <> [] ->
  if limit_hit p data then Parse p data = PRet (initReadDeadline p) (Some ErrTooLong)
  else exists v, (v = None \/ v = Some (cached p ++ data)) /\
    Parse p data = parse_from (cached p ++ data) (len (cached p))
                     (set_bytesCached v (initReadDeadline p)).
Proof.
  intros Hwf Ho Hd. unfold Parse, limit_hit.
  rewrite (initReadDeadline_eq p).
  set (q := set_initialReadDeadlinePending false _).
  change (bytesCached q) with (bytesCached p). change (readLimit q) with (readLimit p).
  fold (cached p).
  assert (forall (A : Type) (x y : A), match state p with stateClose => x | _ => y end = y) as ->
    by (intros; by destruct (state p)).
  destruct (Z.eqb_spec (len data) 0) as [E0|_]; [by apply len_zero_nil in E0|].
  destruct (Z.ltb_spec 0 (len (cached p))) as [Hpos|Hz]; simpl.
  - case_match; [done|]. eexists; split; [by right|done].
  - exists None. split; [by left|].
    assert (cached p = []) as Ec by (apply len_zero_nil; len_lia).
    rewrite Ec. f_equal.
    assert (bytesCached p = None) as En.
    { pose proof (wf_cache p Hwf). unfold cached in Ec.
      destruct (bytesCached p) as [[]|]; simpl in *; congruence. }
    unfold q. destruct p; simpl in *; by subst.
Qed.

Lemma Parse_nil p :
  state p <> stateClose -> Parse p [] = PRet (initReadDeadline p) None.
Proof. intros H. unfold Parse. by destruct (state p). Qed.

Lemma Parse_closed p data : state p = stateClose -> Parse p data = PRet p (Some ErrClosed).
Proof. intros H. unfold Parse. by rewrite H. Qed.

Lemma result_ok_conf p q r : same_conf q p -> result_ok p r -> result_ok q r.
Proof.
  destruct r as [p' [e|]| |]; try done. unfold same_conf. simpl.
  intros (? & ? & ?) (? & ? & ? & ? & ?). split; [done|]. split; [done|].
  split_and!; congruence.
Qed.

Lemma Parse_result_ok p data : wf p -> result_ok (initReadDeadline p) (Parse p data).
Proof.
  intros Hwf.
  destruct (decide (state p = stateClose)) as [Hc|Ho]; [by rewrite Parse_closed|].
  destruct (decide (data = [])) as [->|Hd].
  { rewrite Parse_nil by done. simpl. split; [by apply wf_init|].
    rewrite initReadDeadline_eq. done. }
  pose proof (Parse_guards p data Hwf Ho Hd) as Hg.
  destruct (limit_hit p data); [by rewrite Hg|].
  destruct Hg as (v & Hv & ->). unfold parse_from.
  rewrite parserCloser_entry.
  destruct (parserCloser p) as [cl|] eqn:Eu.
  - unfold upgrader. rewrite Z.ltb_irrefl.
    destruct (CloserParse cl _) as [cl' [e|]]; simpl; [done|].
    rewrite (initReadDeadline_eq p). pose proof Hwf as [? Hb Hu].
    split; [|done]. constructor; simpl; try done.
    unfold cached in Hb. rewrite Hu in Hb by (by rewrite Eu). exact Hb.
  - apply (result_ok_conf (set_bytesCached v (initReadDeadline p))); [done|].
    apply parse_loop_ok.
    + eapply linv_frame, linv_entry; [..|done|done|done];
        by rewrite initReadDeadline_eq.
    + unfold len. rewrite length_app. lia.
    + simpl. destruct Hv as [-> | ->]; [by left|right; split; [done|]].
      intros Hnil%app_nil. by destruct Hnil.
Qed.

(** ** Comparing two results

    Two results are equivalent when both return without error and leave the
    same parser, or both return the same error and leave parsers that differ
    in the cached bytes and in the state of the upgraded reader only. *)
Definition norm (r : parse_result) : parse_result :=
  match r with
  | PRet p (Some e) => PRet (set_parserCloser None (erase p)) (Some e)
  | _ => r
  end.

Definition result_equiv (r1 r2 : parse_result) : Prop := norm r1 = norm r2.

#[export] Instance result_equiv_equivalence : Equivalence result_equiv.
Proof.
  unfold result_equiv. split.
  - done.
  - by intros r1 r2 ->.
  - by intros r1 r2 r3 -> ->.
Qed.

Lemma upgrader_eq cl data start p :
  0 <= start <= len data ->
  upgrader cl data start p =
  let '(cl', err) := CloserParse cl (drop (Z.to_nat start) data) in
  PRet (erase (set_parserCloser (Some cl') p)) err.
Proof.
  intros [? ?]. unfold upgrader. rewrite slice_from_eq by done.
  destruct (Z.ltb_spec 0 start); [done|].
  by replace start with 0 by lia.
Qed.

Lemma upgrader_drop cl data start p :
  0 <= start <= len data ->
  upgrader cl data start p = upgrader cl (drop (Z.to_nat start) data) 0 p.
Proof. intros. by rewrite !upgrader_eq, drop_0 by len_lia. Qed.

(** The cached bytes do not influence the loop. *)
Lemma parse_loop_recache f data start i v p :
  linv data start i p -> v = None \/ (v = Some data /\ data <> []) ->
  norm (parse_loop f data start i (set_bytesCached v p)) =
  norm (parse_loop f data start i (erase p)).
Proof.
  intros Hinv Hv. revert start i p Hinv. induction f as [|f IH]; intros start i p Hinv; [done|].
  pose proof Hinv as [[Hr Hl] _ _ _]. unfold erase. simpl.
  destruct (Z.ltb_spec i (len data)) as [Hi|Hi].
  - destruct (parserCloser p) as [cl|] eqn:Eu.
    + rewrite !upgrader_eq by lia. destruct (CloserParse cl _) as [cl' [e|]]; done.
    + destruct (at_index_is_Some data i) as [c ->]; [lia|].
      pose proof (step_spec data start i c p Hinv Eu Hi) as Hs.
      rewrite !step_recache.
      destruct (step data start i c p) as [s' i' p'|p' e|s' p'|p']; simpl; try done.
      * apply IH, Hs.
      * destruct Hs as (-> & -> & _). by rewrite !parse_exit_eq by (simpl; auto with lia).
  - by rewrite !parse_exit_eq by (simpl; auto with lia).
Qed.

(** The loop looks at the data from [start] on only. *)
Lemma parse_loop_shift f pre data start i p :
  linv data start i p -> bytesCached p = None ->
  parse_loop f (pre ++ data) (len pre + start) (len pre + i) p = parse_loop f data start i p.
Proof.
  revert start i p. induction f as [|f IH]; intros start i p Hinv Hc; [done|].
  pose proof Hinv as [[Hr Hl] _ _ _]. simpl.
  assert (drop (Z.to_nat (len pre + start)) (pre ++ data) = drop (Z.to_nat start) data) as Hd.
  { unfold len. rewrite drop_app_ge by lia. f_equal. lia. }
  assert (parse_exit (pre ++ data) (len pre + start) p = parse_exit data start p) as He.
  { rewrite !parse_exit_eq by (rewrite ?len_app; auto; len_lia).
    unfold rest_cache. by rewrite Hd. }
  rewrite len_app.
  replace (len pre + i <? len pre + len data) with (i <? len data) by lia.
  destruct (Z.ltb_spec i (len data)) as [Hi|Hi]; [|done].
  destruct (parserCloser p) as [cl|] eqn:Eu.
  - rewrite !upgrader_eq by len_lia. by rewrite Hd.
  - rewrite at_index_app_r by lia. destruct (at_index_is_Some data i) as [c ->]; [lia|].
    rewrite step_shift by lia.
    pose proof (step_spec data start i c p Hinv Eu Hi) as Hs.
    destruct (step data start i c p) as [s' i' p'|p' e|s' p'|p']; simpl; try done.
    + destruct Hs as (? & _ & Hc' & _). rewrite <- Z.add_assoc. apply IH; [done|]. congruence.
    + by destruct Hs as (-> & -> & _).
Qed.

(** In a state that waits for a block the position in it is irrelevant. *)
Lemma step_body_any data start i j c d p cl :
  body_need p = Some cl -> step data start i c p = step data start j d p.
Proof. unfold body_need, step, step_body. by destruct (state p). Qed.

Lemma parse_loop_body_any f data start i j p cl :
  body_need p = Some cl -> parserCloser p = None ->
  0 <= i < len data -> 0 <= j < len data ->
  parse_loop (S f) data start i p = parse_loop (S f) data start j p.
Proof.
  intros Hb Hu Hi Hj. simpl.
  rewrite !(proj2 (Z.ltb_lt _ _)), Hu by lia.
  destruct (at_index_is_Some data i) as [c ->]; [done|].
  destruct (at_index_is_Some data j) as [d ->]; [done|].
  by rewrite (step_body_any data start i j c d p cl).
Qed.

(** ** Two calls and one *)

(** The second call, on the state the first one left. *)
Definition after (r : parse_result) (b : bytes) : parse_result :=
  match r with
  | PRet p None => parse_from (cached p ++ b) (len (cached p)) (erase p)
  | _ => r
  end.

(** A call within the limit: the loop on the cached bytes and the data. *)
Lemma Parse_equiv p data :
  wf p -> state p <> stateClose -> data <> [] -> limit_hit p data = false ->
  result_equiv (Parse p data)
    (parse_from (cached p ++ data) (len (cached p)) (erase (initReadDeadline p))).
Proof.
  intros Hwf Ho Hd Hlim. pose proof (Parse_guards p data Hwf Ho Hd) as Hg.
  rewrite Hlim in Hg. destruct Hg as (v & Hv & ->).
  unfold result_equiv, parse_from.
  unfold erase. rewrite !parserCloser_entry.
  destruct (parserCloser p) as [cl|] eqn:Ec.
  - rewrite !upgrader_eq by len_lia. by destruct (CloserParse cl _) as [? [e|]].
  - apply parse_loop_recache.
    + eapply linv_frame, linv_entry; [..|done|done|done]; by rewrite initReadDeadline_eq.
    + destruct Hv as [-> | ->]; [by left|right; split; [done|]].
      intros Hnil%app_nil. by destruct Hnil.
Qed.

(** ** Bytes held between two calls *)

Lemma parse_loop_cached f data start i p q :
  linv data start i p -> bytesCached p = None ->
  parse_loop f data start i p = PRet q None -> len (cached q) <= len data.
Proof.
  revert start i p. induction f as [|f IH]; intros start i p Hinv Hc; [done|].
  pose proof Hinv as [[Hr Hl] _ _ _]. simpl.
  assert (len (cached (set_bytesCached (rest_cache data start) p)) <= len data)
    by (rewrite rest_cache_cached; len_lia).
  rewrite parse_exit_eq by auto with lia.
  destruct (Z.ltb_spec i (len data)) as [Hi|Hi]; [|by intros [= <-]].
  destruct (parserCloser p) as [cl|] eqn:Eu.
  - rewrite upgrader_eq by lia. destruct (CloserParse cl _) as [cl' [e|]]; [done|].
    intros [= <-]. apply len_nonneg.
  - destruct (at_index_is_Some data i) as [c ->]; [lia|].
    pose proof (step_spec data start i c p Hinv Eu Hi) as Hs.
    destruct (step data start i c p) as [s' i' p'|p' e|s' p'|p']; try done.
    + destruct Hs as (? & ? & Hc' & _). apply IH; [done|congruence].
    + destruct Hs as (-> & -> & _). rewrite parse_exit_eq by auto with lia.
      by intros [= <-].
Qed.

Lemma norm_None r q : norm r = PRet q None -> r = PRet q None.
Proof. by destruct r as [? [e|]| |]. Qed.

(** A successful call, as the loop sees it. *)
Lemma Parse_from p data q :
  wf p -> data <> [] -> Parse p data = PRet q None ->
  state p <> stateClose /\
  parse_from (cached p ++ data) (len (cached p)) (erase (initReadDeadline p)) = PRet q None.
Proof.
  intros Hwf Hd Hq.
  destruct (decide (state p = stateClose)) as [?|Ho]; [by rewrite Parse_closed in Hq|].
  split; [done|]. pose proof (Parse_guards p data Hwf Ho Hd) as Hg.
  destruct (limit_hit p data) eqn:El; [congruence|].
  pose proof (Parse_equiv p data Hwf Ho Hd El) as He.
  unfold result_equiv in He. rewrite Hq in He. by apply norm_None.
Qed.

Lemma Parse_cached_le p data q :
  wf p -> Parse p data = PRet q None -> len (cached q) <= len (cached p) + len data.
Proof.
  intros Hwf Hq. destruct (decide (data = [])) as [->|Hd].
  { destruct (decide (state p = stateClose)) as [?|Ho]; [by rewrite Parse_closed in Hq|].
    rewrite Parse_nil in Hq by done. injection Hq as <-.
    rewrite initReadDeadline_eq. unfold cached. simpl. len_lia. }
  destruct (Parse_from p data q Hwf Hd Hq) as [Ho He]. rewrite <- len_app. revert He.
  unfold parse_from, erase. rewrite !parserCloser_entry.
  destruct (parserCloser p) as [cl|] eqn:Ec.
  - rewrite !upgrader_eq by len_lia. destruct (CloserParse cl _) as [? [e|]]; [done|].
    intros [= <-]. apply len_nonneg.
  - apply parse_loop_cached; [|done].
    eapply linv_frame, linv_entry; [..|done|done|done]; by rewrite initReadDeadline_eq.
Qed.

Context `{!ParserCloserLaws C} `{!ProcessorLaws P C}.

(** An upgraded reader that takes over at the end of [x]. *)
Lemma upgrader_app cl x b p :
  x <> [] -> b <> [] -> closer_ok cl (len x + len b) ->
  norm (upgrader cl (x ++ b) 0 p) = norm (after (upgrader cl x 0 p) b).
Proof.
  intros Hx Hb Hok. rewrite !upgrader_eq by len_lia. simpl. rewrite !drop_0.
  pose proof (closer_app cl x b Hx Hb Hok) as H.
  destruct (CloserParse cl x) as [cl' [e|]]; simpl.
  - by destruct (CloserParse cl (x ++ b)) as [? ?]; simpl in H; subst.
  - rewrite H. unfold cached, parse_from. simpl. rewrite upgrader_eq by len_lia.
    rewrite drop_0. by destruct (CloserParse cl' b) as [? [e|]].
Qed.

(** Resuming at the end of the first piece. *)
Lemma resume f a b start p :
  linv a start (len a) p -> bytesCached p = None -> b <> [] ->
  len b < Z.of_nat f ->
  norm (parse_loop f (a ++ b) start (len a) p) =
  norm (after (PRet (set_bytesCached (rest_cache a start) p) None) b).
Proof.
  intros Hinv Hc Hb Hf. pose proof Hinv as [[Hr _] _ _ Hu].
  pose proof (len_pos b Hb) as Hpos.
  set (x := drop (Z.to_nat start) a).
  assert (a = take (Z.to_nat start) a ++ x) as Ha by (symmetry; apply take_drop).
  assert (len (take (Z.to_nat start) a) = start) as Ht by len_lia.
  assert (linv (x ++ b) 0 (len x) p) as Hinv'.
  { destruct Hinv as [? Hbd ? Hup]. unfold x. constructor; [len_lia| |done|].
    - unfold body_ok in *. destruct (body_need p); [|done]. len_lia.
    - intros [-> He]%Hup. split; [len_lia|done]. }
  simpl. rewrite rest_cache_cached. fold x.
  replace (erase (set_bytesCached (rest_cache a start) p)) with p
    by (destruct p; simpl in *; by subst).
  unfold parse_from. destruct (parserCloser p) as [cl|] eqn:Eu.
  - destruct Hu as [-> (pr & c & Hpr & _)]; [done|].
    destruct f as [|f]; [len_lia|]. simpl.
    rewrite Eu, (proj2 (Z.ltb_lt _ _)) by len_lia.
    rewrite (complete_clean _ _ _ Hpr). rewrite !upgrader_eq by len_lia.
    replace (set_processor (processor p) p) with p by (by destruct p).
    replace x with (@nil byte) by (unfold x, len; by rewrite Nat2Z.id, drop_all).
    simpl. rewrite drop_0. unfold len.
    by rewrite Nat2Z.id, drop_app_length.
  - f_equal. set (t := take (Z.to_nat start) a) in *.
    assert (len (x ++ b) - len x = len b) as Hlen by (rewrite len_app; lia).
    rewrite (parse_loop_fuel (S (length (x ++ b))) f);
      [|done|rewrite Hlen; unfold len; rewrite length_app; lia|lia].
    rewrite <- (parse_loop_shift f t (x ++ b)) by done.
    rewrite app_assoc, <- Ha, Ht, Z.add_0_r. f_equal. rewrite Ha at 1. len_lia.
Qed.

(** The loop on [a ++ b] does what the loop on [a] and a second call do. *)
Lemma parse_loop_app f a b start i p :
  linv a start i p -> bytesCached p = None -> b <> [] ->
  len a + len b <= stream_bound ->
  len a + len b - i < Z.of_nat f ->
  norm (parse_loop f (a ++ b) start i p) = norm (after (parse_loop f a start i p) b).
Proof.
  revert start i p. induction f as [|f IH]; intros start i p Hinv Hc Hb Hsb Hf.
  { destruct Hinv. len_lia. }
  pose proof Hinv as [[Hr Hl] Hbd Ho Hu].
  destruct (Z.ltb_spec i (len a)) as [Hi|Hi]; cycle 1.
  { replace i with (len a) in * by lia.
    rewrite (resume (S f)) by (done || lia).
    simpl. rewrite Z.ltb_irrefl, parse_exit_eq by auto with lia. done. }
  destruct (parserCloser p) as [cl|] eqn:Eu.
  { destruct Hu as [-> (pr & c & Hpr & Hcl)]; [done|]. simpl. rewrite Eu.
    rewrite !(proj2 (Z.ltb_lt _ _)) by len_lia.
    rewrite !(upgrader_drop cl _ i) by len_lia.
    rewrite drop_app_le by (unfold len in *; lia). apply upgrader_app; [|done|].
    - intros E%(f_equal length). rewrite length_drop in E. unfold len in *. simpl in E. lia.
    - simplify_eq. eapply complete_ok; [done|]. len_lia. }
  destruct (at_index_is_Some a i) as [c Ec]; [lia|].
  pose proof (step_spec a start i c p Hinv Eu Hi) as Hs.
  pose proof (step_ext a b start i c p Hl) as Hx.
  simpl. rewrite Eu, at_index_app_l, Ec by lia.
  rewrite !(proj2 (Z.ltb_lt i _)) by len_lia.
  destruct (step a start i c p) as [s' i' p'|p' e|s' p'|p'] eqn:Es; simpl in Hs.
  - rewrite Hx by done. destruct Hs as (? & ? & Hc' & _).
    apply IH; [done|congruence|done|done|lia].
  - by rewrite Hx by done.
  - destruct Hs as (-> & -> & n & Hn & Hlt).
    rewrite parse_exit_eq by auto with lia.
    rewrite <- (resume (S f)); [| |done..|lia].
    + pose proof (len_pos b Hb).
      rewrite <- (parse_loop_body_any f (a ++ b) start i (len a) p n) by (done || len_lia).
      simpl. by rewrite Eu, at_index_app_l, Ec, (proj2 (Z.ltb_lt i _)) by len_lia.
    + constructor; [lia| |done|by rewrite Eu]. unfold body_ok. by rewrite Hn.
  - done.
Qed.

#[local] Instance after_proper : Proper (result_equiv ==> eq ==> result_equiv) after.
Proof.
  unfold result_equiv. intros r1 r2 H b _ <-.
  destruct r1 as [p1 [e1|]| |], r2 as [p2 [e2|]| |]; simpl in *; try done; congruence.
Qed.

(** ** The reader keeps its room *)

Definition held_ok (q : parser) (n : Z) : Prop :=
  forall cl, parserCloser q = Some cl -> closer_ok cl n.

Lemma upgrader_held cl data start p q n :
  0 <= start < len data -> 0 <= n -> closer_ok cl (len data - start + n) ->
  upgrader cl data start p = PRet q None -> held_ok q n.
Proof.
  intros Hr Hn Hok. rewrite upgrader_eq by lia.
  destruct (CloserParse cl _) as [cl' [e|]] eqn:E; [done|]. intros [= <-] ? [= <-].
  apply (closer_keep cl cl' (drop (Z.to_nat start) data) n); [ |done| |exact E].
  - intros E0%(f_equal length). rewrite length_drop in E0. unfold len in *. simpl in E0. lia.
  - replace (len (drop (Z.to_nat start) data) + n) with (len data - start + n) by len_lia. done.
Qed.

Lemma linv_held data start i p n :
  linv data start i p -> 0 <= n <= stream_bound -> held_ok p n.
Proof.
  intros [_ _ _ Hu] Hn cl Hcl. destruct Hu as [_ (pr & c & Hpr & E)]; [by rewrite Hcl|].
  simplify_eq. by eapply complete_ok.
Qed.

Lemma parse_loop_held f data start i p q n :
  linv data start i p -> bytesCached p = None -> 0 <= n -> len data + n <= stream_bound ->
  parse_loop f data start i p = PRet q None -> held_ok q n.
Proof.
  intros Hinv Hc Hn Hsb. revert start i p Hinv Hc.
  induction f as [|f IH]; intros start i p Hinv Hc; [done|].
  pose proof Hinv as [[Hr Hl] _ _ Hu]. simpl.
  assert (held_ok p n) as Hexit by (eapply linv_held; [done|len_lia]).
  rewrite parse_exit_eq by auto with lia.
  destruct (Z.ltb_spec i (len data)) as [Hi|Hi]; [|by intros [= <-]].
  destruct (parserCloser p) as [cl|] eqn:Eu.
  - destruct Hu as [-> _]; [done|].
    apply upgrader_held; [lia|done|]. eapply linv_held; [done|len_lia|done].
  - destruct (at_index_is_Some data i) as [c ->]; [lia|].
    pose proof (step_spec data start i c p Hinv Eu Hi) as Hs.
    destruct (step data start i c p) as [s' i' p'|p' e|s' p'|p']; try done.
    + destruct Hs as (? & ? & Hc' & _). apply IH; [done|congruence].
    + destruct Hs as (-> & -> & _). rewrite parse_exit_eq by auto with lia.
      by intros [= <-].
Qed.

(** Room for a stream: within the limits of the parser and of its reader. *)
Definition room p (data : bytes) : Prop :=
  within_limit p data /\ len (cached p) + len data <= stream_bound /\ held_ok p (len data).

Lemma Parse_held p a b q :
  wf p -> room p (a ++ b) -> a <> [] -> Parse p a = PRet q None -> held_ok q (len b).
Proof.
  intros Hwf (Hlim & Hsb & Hcl) Ha Hq. rewrite len_app in *.
  destruct (Parse_from p a q Hwf Ha Hq) as [Ho He]. revert He.
  unfold parse_from, erase. rewrite !parserCloser_entry.
  destruct (parserCloser p) as [cl|] eqn:Ec.
  - assert (cached p = []) as -> by (unfold cached; by rewrite (wf_upg p Hwf) by (by rewrite Ec)).
    apply upgrader_held; [pose proof (len_pos a Ha); simpl; lia|apply len_nonneg|].
    rewrite Z.sub_0_r. by apply Hcl.
  - apply parse_loop_held; [|done|apply len_nonneg|rewrite len_app; lia].
    eapply linv_frame, linv_entry; [..|done|done|done]; by rewrite initReadDeadline_eq.
Qed.

(** ** One call and many *)

Definition then_Parse (r : parse_result) (b : bytes) : parse_result :=
  match r with
  | PRet p None => Parse p b
  | _ => r
  end.

(** What the connection's read handler does with the successive reads: stop
    at the first error. *)
Fixpoint feed p (ds : list bytes) : parse_result :=
  match ds with
  | [] => PRet p None
  | d :: ds =>
      match Parse p d with
      | PRet p' None => feed p' ds
      | r => r
      end
  end.

Lemma Parse_done p data q :
  wf p -> Parse p data = PRet q None ->
  wf q /\ state q <> stateClose /\ initReadDeadline q = q /\ readLimit q = readLimit p.
Proof.
  intros Hwf Hq. pose proof (Parse_result_ok p data Hwf) as Hr. rewrite Hq in Hr.
  destruct Hr as (? & ? & Hl & _ & Hp). split_and!; try done.
  - unfold initReadDeadline. rewrite Hp. by rewrite initReadDeadline_eq.
  - rewrite Hl. by rewrite initReadDeadline_eq.
Qed.

Lemma room_step p a b q :
  wf p -> Parse p a = PRet q None -> room p (a ++ b) -> room q b.
Proof.
  intros Hwf Hq Hroom. pose proof Hroom as (Hlim & Hsb & Hcl). rewrite len_app in *.
  destruct (Parse_done p a q Hwf Hq) as (_ & _ & _ & Hrl).
  pose proof (Parse_cached_le p a q Hwf Hq) as Hle.
  split_and!; [|lia|].
  - unfold within_limit in *. rewrite Hrl, ?len_app in *. destruct Hlim; [by left|right; lia].
  - destruct (decide (a = [])) as [->|Ha]; [|by apply (Parse_held p a)].
    destruct (decide (state p = stateClose)) as [?|Ho]; [by rewrite Parse_closed in Hq|].
    rewrite Parse_nil in Hq by done. injection Hq as <-. rewrite initReadDeadline_eq. exact Hcl.
Qed.

Lemma Parse_app p a b :
  wf p -> room p (a ++ b) ->
  result_equiv (Parse p (a ++ b)) (then_Parse (Parse p a) b).
Proof.
  intros Hwf Hroom. pose proof Hroom as (Hlim & Hsb & Hcl). rewrite len_app in Hsb, Hcl.
  destruct (decide (state p = stateClose)) as [?|Ho]; [by rewrite !Parse_closed|].
  destruct (decide (a = [])) as [->|Ha].
  { rewrite Parse_nil by done. simpl. unfold Parse.
    rewrite initReadDeadline_idem, (initReadDeadline_eq p).
    set (d := deadlineCalls _). simpl. by destruct (state p). }
  destruct (decide (b = [])) as [->|Hb].
  { rewrite app_nil_r. destruct (Parse p a) as [q [e|]| |] eqn:E; try done. simpl.
    destruct (Parse_done p a q Hwf E) as (? & ? & Hi & _). by rewrite Parse_nil, Hi. }
  assert (result_equiv (then_Parse (Parse p a) b) (after (Parse p a) b)) as ->.
  { destruct (Parse p a) as [q [e|]| |] eqn:E; try done. simpl.
    destruct (Parse_done p a q Hwf E) as (? & ? & Hi & _).
    pose proof (Parse_equiv q b) as Hq. rewrite Hi in Hq. apply Hq; try done.
    apply within_limit_hit, (room_step p a b q); done. }
  assert (a ++ b <> []) as Hab by (by destruct a).
  pose proof (within_limit_app_l p a b Hlim) as Hla.
  rewrite (Parse_equiv p a Hwf Ho Ha (within_limit_hit _ _ Hla)).
  rewrite (Parse_equiv p (a ++ b) Hwf Ho Hab (within_limit_hit _ _ Hlim)).
  unfold parse_from, result_equiv.
  unfold erase. rewrite !parserCloser_entry.
  destruct (parserCloser p) as [cl|] eqn:Ec.
  - assert (cached p = []) as -> by (unfold cached; by rewrite (wf_upg p Hwf) by (by rewrite Ec)).
    apply (upgrader_app cl a b); try done. by apply Hcl.
  - assert (linv (cached p ++ a) 0 (len (cached p)) (erase (initReadDeadline p))) as Hinv.
    { eapply linv_frame, linv_entry; [..|done|done|done]; by rewrite initReadDeadline_eq. }
    rewrite app_assoc, parse_loop_app; [|done..|len_lia|rewrite <- len_app; unfold len; lia].
    apply after_proper; [|done]. rewrite (parse_loop_fuel _ (S (length (cached p ++ a)))); [done|done|..];
      unfold len; rewrite ?length_app; lia.
Qed.

Lemma feed_concat p ds :
  wf p -> ds <> [] -> room p (concat ds) ->
  result_equiv (feed p ds) (Parse p (concat ds)).
Proof.
  revert p. induction ds as [|d ds IH]; [done|]. intros p Hwf _ Hlim. simpl in *.
  rewrite Parse_app by done.
  destruct (Parse p d) as [q [e|]| |] eqn:E; try done. simpl.
  destruct (Parse_done p d q Hwf E) as (? & ? & Hi & _).
  destruct ds as [|d' ds]; [by rewrite Parse_nil, Hi|].
  apply IH; [done..|]. by apply (room_step p d).
Qed.
End split.
