(* ===== verification/ParserRun.v ===== *)
(** * Reading whole messages

    The parser as a machine that takes one byte at a time ([push], [run]),
    equivalent to [Parse] by the results of the previous file, and what that
    machine does on the wire form of a request: the processor receives the
    request's parts, in order, and the parser is ready for the next one. *)

From Stdlib Require Import ZArith Lia.
From Stdlib Require Import Strings.Byte Strings.String.
From stdpp Require Import base numbers list list_numbers gmap.
From S2P Require Import Prelude GoLib Table Parser ParserFacts ParserSplit.

Open Scope Z_scope.
Open Scope byte_cmp_scope.

Section run.
Context {P C : Type} `{!Processor P C} `{!ParserCloser C}.

Abbreviation parser := (parser P C).
Abbreviation parse_result := (@parse_result P C).
Implicit Types p : parser.

(** ** One byte at a time *)

Definition push p (c : byte) : parse_result :=
  let data := cached p ++ [c] in
  match step data 0 (len (cached p)) c (erase p) with
  | Next s _ q => PRet (set_bytesCached (rest_cache data s) q) None
  | Return q e => PRet q (Some e)
  | GotoExit s q => PRet (set_bytesCached (Some data) q) None
  | Panic q => PPanic q
  end.

(** The machine covers the HTTP phase: it has no result ([PFuel]) when bytes
    are left for an upgraded reader. *)
Fixpoint run p (bs : bytes) : parse_result :=
  match bs with
  | [] => PRet p None
  | c :: bs =>
      match parserCloser p with
      | Some _ => PFuel
      | None =>
          match push p c with
          | PRet q None => run q bs
          | r => r
          end
      end
  end.

Lemma run_app p a b :
  run p (a ++ b) = match run p a with PRet q None => run q b | r => r end.
Proof.
  revert p. induction a as [|c a IH]; intros p; [done|]. simpl.
  destruct (parserCloser p); [done|]. by destruct (push p c) as [q [e|]| |].
Qed.

Lemma run_app_ok p a b q : run p a = PRet q None -> run p (a ++ b) = run q b.
Proof. intros H. by rewrite run_app, H. Qed.

Lemma push_parse_from p c :
  wf p -> state p <> stateClose -> parserCloser p = None ->
  parse_from (cached p ++ [c]) (len (cached p)) (erase p) = push p c.
Proof.
  intros Hwf Ho Hu. unfold parse_from, push.
  assert (linv (cached p ++ [c]) 0 (len (cached p)) (erase p)) as Hinv.
  { eapply linv_frame, linv_entry; [..|done|done|done]; done. }
  change (parserCloser (erase p)) with (parserCloser p). rewrite Hu.
  set (data := cached p ++ [c]) in *.
  assert (len data = len (cached p) + 1) as Hl by (unfold data; len_lia).
  pose proof (len_nonneg (cached p)).
  assert (at_index data (len (cached p)) = Some c) as Ec by apply at_index_mid.
  pose proof (step_spec data 0 (len (cached p)) c (erase p) Hinv Hu ltac:(lia)) as Hs.
  cbn [parse_loop]. rewrite (proj2 (Z.ltb_lt _ _)), Ec by lia.
  change (parserCloser (erase p)) with (parserCloser p). rewrite Hu.
  destruct (step data 0 (len (cached p)) c (erase p)) as [s' i' q|q e|s' q|q]; [|done| |done].
  - destruct Hs as ([[? ?] _ _ _] & ? & Hc & _).
    destruct (length data) eqn:El; [unfold len in *; lia|]. cbn [parse_loop].
    rewrite (proj2 (Z.ltb_ge _ _)) by lia. apply parse_exit_eq; [lia|by left].
  - destruct Hs as (-> & -> & n & _ & Hn).
    rewrite parse_exit_eq; [|lia|by left]. unfold rest_cache. simpl. rewrite drop_0.
    unfold data. by destruct (cached p).
Qed.

(** A parser past its first call. *)
Definition ready p : Prop :=
  wf p /\ state p <> stateClose /\ initialReadDeadlinePending p = false.

Context `{!ParserCloserLaws C} `{!ProcessorLaws P C}.

(** [Parse] on a stream is the byte machine on it. *)
Lemma Parse_run p bs q :
  ready p -> room p bs -> run p bs = PRet q None -> Parse p bs = PRet q None.
Proof.
  revert p. induction bs as [|c bs IH]; intros p (Hwf & Ho & Hd) Hlim Hrun.
  { rewrite Parse_nil by done. unfold initReadDeadline. by rewrite Hd. }
  assert (initReadDeadline p = p) as Hi by (unfold initReadDeadline; by rewrite Hd).
  simpl in Hrun. destruct (parserCloser p) eqn:Hu; [done|].
  destruct (push p c) as [r [e|]| |] eqn:Ep; try done.
  assert (Parse p [c] = PRet r None) as Hc.
  { assert (result_equiv (Parse p [c]) (push p c)) as He.
    { rewrite <- push_parse_from by done. pose proof (Parse_equiv p [c]) as H.
      rewrite Hi in H. apply H; try done.
      apply within_limit_hit, (within_limit_app_l p [c] bs), Hlim. }
    unfold result_equiv in He. rewrite Ep in He. by apply norm_None. }
  destruct (Parse_done p [c] r Hwf Hc) as (Hwr & Hor & _ & _).
  pose proof (Parse_result_ok p [c] Hwf) as Hok. rewrite Hc in Hok.
  destruct Hok as (_ & _ & _ & _ & Hpend). rewrite Hi, Hd in Hpend.
  pose proof (Parse_app p [c] bs Hwf Hlim) as Happ. rewrite Hc in Happ. simpl in Happ.
  apply norm_None. unfold result_equiv in Happ. rewrite Happ. f_equal.
  by rewrite (IH r); [| |apply (room_step p [c])|].
Qed.
End run.
