(* ===== verification/ParserMessage.v ===== *)
(** * The wire form of a request and what the parser makes of it

    [encode_request] writes a request as HTTP/1.1 prescribes (request line,
    header fields, a body of a declared length or in chunks).  The parser hands
    exactly the parts of the request to its processor and is left ready for
    the next request. *)

From Stdlib Require Import ZArith Lia.
From Stdlib Require Import Strings.Byte Strings.String.
From stdpp Require Import base numbers list list_numbers gmap.
From S2P Require Import Prelude GoLib Table Parser ParserFacts ParserSplit ParserRun.

Open Scope Z_scope.
Open Scope byte_cmp_scope.

(** ** Requests *)

Inductive framing :=
| NoBody
| Fixed (body : bytes)
| Chunks (chunks : list bytes).

Record request := MkRequest {
  r_method : bytes;
  r_uri : bytes;
  r_proto : bytes;
  r_fields : list (bytes * bytes);
  r_body : framing
}.

Definition crlf : bytes := [CR; LF].

Definition encode_field (kv : bytes * bytes) : bytes :=
  kv.1 ++ [":"%byte; SP] ++ kv.2 ++ crlf.

(** The header field that announces the body. *)
Definition framing_fields (f : framing) : list (bytes * bytes) :=
  match f with
  | NoBody => []
  | Fixed b => [(contentLengthHeader, FormatUint (len b) 10)]
  | Chunks _ => [(transferEncodingHeader, str "chunked")]
  end.

Definition encode_chunk (c : bytes) : bytes := FormatUint (len c) 16 ++ crlf ++ c ++ crlf.

Definition encode_body (f : framing) : bytes :=
  match f with
  | NoBody => []
  | Fixed b => b
  | Chunks cs => concat (map encode_chunk cs) ++ FormatUint 0 16 ++ crlf ++ crlf
  end.

Definition encode_request (r : request) : bytes :=
  r_method r ++ [SP] ++ r_uri r ++ [SP] ++ r_proto r ++ crlf ++
  concat (map encode_field (r_fields r ++ framing_fields (r_body r))) ++ crlf ++
  encode_body (r_body r).

(** A field the parser takes literally: a token as name that is none of the
    three framing names, a value without line ends that does not start with a
    space. *)
Definition field_ok (kv : bytes * bytes) : bool :=
  forallb isToken kv.1 && negb (bool_decide (kv.1 = [])) &&
  negb (bool_decide (CanonicalHeaderKey kv.1 ∈ [transferEncodingHeader; trailerHeader; contentLengthHeader])) &&
  forallb (fun c => negb (c =b CR) && negb (c =b LF)) kv.2 &&
  match kv.2 with c :: _ => negb (c =b SP) | [] => false end.

Definition framing_ok (f : framing) : bool :=
  match f with
  | NoBody => true
  | Fixed b => len b <? 2 ^ 62
  | Chunks cs => forallb (fun c => (0 <? len c) && (len c <? 2 ^ 62)) cs
  end.

Definition request_ok (r : request) : bool :=
  isValidMethod (r_method r) && bool_decide (ToUpper (r_method r) = r_method r) &&
  match r_uri r with c :: _ => c =b "/" | [] => false end &&
  forallb (fun c => negb (c =b SP)) (r_uri r) &&
  negb (bool_decide (r_proto r = [])) &&
  forallb (fun c => negb (c =b SP) && negb (c =b CR)) (r_proto r) &&
  forallb field_ok (r_fields r) && framing_ok (r_body r).

#[local] Arguments ToUpper : simpl never.
#[local] Arguments CanonicalHeaderKey : simpl never.

Section message.
Context {P C : Type} `{!Processor P C} `{!ParserCloser C}.

Abbreviation parser := (parser P C).
Abbreviation parse_result := (@parse_result P C).

(** ** What the processor should see *)

Definition ok_step (r : P * option http_err) : option P :=
  match r with (pr, None) => Some pr | _ => None end.

Definition deliver_fields (pr : P) (fs : list (bytes * bytes)) : P :=
  foldl (fun pr kv => OnHeader pr (CanonicalHeaderKey kv.1) kv.2) pr fs.

Fixpoint deliver_chunks (pr : P) (cs : list bytes) : option P :=
  match cs with
  | [] => Some pr
  | c :: cs => ok_step (OnBody pr c) ≫= fun pr => deliver_chunks pr cs
  end.

Definition deliver_body (pr : P) (f : framing) : option P :=
  match f with
  | NoBody => Some (OnContentLength pr (-1))
  | Fixed [] => Some (OnContentLength pr 0)
  | Fixed b => ok_step (OnBody (OnContentLength pr (len b)) b)
  | Chunks cs => deliver_chunks (OnContentLength pr (-1)) cs
  end.

(** The callbacks for one request; [None] when one of them refuses, or when
    the request upgrades the connection. *)
Definition deliver (pr : P) (r : request) : option P :=
  let pr := OnMethod pr (r_method r) in
  pr ← ok_step (OnURL pr (r_uri r));
  pr ← ok_step (OnProto pr (r_proto r));
  let pr := deliver_fields pr (r_fields r ++ framing_fields (r_body r)) in
  pr ← deliver_body pr (r_body r);
  match OnComplete pr with
  | (pr, None) => Some pr
  | _ => None
  end.

Fixpoint deliver_all (pr : P) (rs : list request) : option P :=
  match rs with
  | [] => Some pr
  | r :: rs => deliver pr r ≫= fun pr => deliver_all pr rs
  end.

(** ** Parsers *)

Context (limit : Z) (oc : bool) (cc : list (option http_err)) (dc : nat) (client : bool).

Definition cache (tok : bytes) : option bytes :=
  match tok with [] => None | _ => Some tok end.

(** A server's or a client's parser in state [st] with the unfinished token
    [tok]. *)
Definition cfg (st : pstate) (tok : bytes) (pr : P) (k : bytes) (hd : option Header)
    (cl cs : Z) (ch he : bool) : parser :=
  MkParser (cache tok) None pr [] 0 [] k [] hd None cl cs st ch client he false limit oc cc dc.

(** Between two messages; the two numbers are left over from the last one. *)
Definition idle (pr : P) (cl cs : Z) : parser :=
  cfg (if client then stateClientProtoBefore else stateMethodBefore) [] pr [] None cl cs false false.

Lemma cached_cfg st tok pr k hd cl cs ch he : cached (cfg st tok pr k hd cl cs ch he) = tok.
Proof. by destruct tok. Qed.

Lemma rest_cache_cfg data s : rest_cache data s = cache (drop (Z.to_nat s) data).
Proof. unfold rest_cache, cache. by destruct (drop _ _). Qed.

Lemma slice_tok (tok : bytes) c : slice (tok ++ [c]) 0 (len tok) = Some tok.
Proof. apply slice_prefix. Qed.

Lemma drop_tok (tok : bytes) c : drop (Z.to_nat (len tok)) (tok ++ [c]) = [c].
Proof. unfold len. by rewrite Nat2Z.id, drop_app_length. Qed.

Lemma drop_all_tok (tok : bytes) c : drop (Z.to_nat (len tok + 1)) (tok ++ [c]) = [].
Proof.
  apply drop_ge. rewrite length_app. unfold len. simpl. lia.
Qed.

(** Symbolic execution of one byte. *)
Ltac push_simpl :=
  unfold push; rewrite !cached_cfg; unfold step; simpl; unfold step_request_line,
    step_header, step_body, step_trailer; simpl; unfold token_or; simpl;
  rewrite ?slice_tok; simpl.
Ltac push_done :=
  rewrite rest_cache_cfg, ?drop_tok, ?drop_all_tok; simpl; try reflexivity;
  by destruct (_ ++ _).

(** A block of bytes that only extends the token. *)
Lemma run_scan st pr k hd cl cs ch he tok bs :
  (forall tok c, c ∈ bs -> push (cfg st tok pr k hd cl cs ch he) c =
     PRet (cfg st (tok ++ [c]) pr k hd cl cs ch he) None) ->
  run (cfg st tok pr k hd cl cs ch he) bs = PRet (cfg st (tok ++ bs) pr k hd cl cs ch he) None.
Proof.
  revert tok. induction bs as [|c bs IH]; intros tok H; simpl; [by rewrite app_nil_r|].
  rewrite H by set_solver. rewrite IH by set_solver. by rewrite <- app_assoc.
Qed.

Lemma run_push st tok pr k hd cl cs ch he c bs q :
  push (cfg st tok pr k hd cl cs ch he) c = PRet q None ->
  run (cfg st tok pr k hd cl cs ch he) (c :: bs) = run q bs.
Proof. intros H. simpl. by rewrite H. Qed.

Lemma run_one st tok pr k hd cl cs ch he c q :
  push (cfg st tok pr k hd cl cs ch he) c = PRet q None ->
  run (cfg st tok pr k hd cl cs ch he) [c] = PRet q None.
Proof. intros H. simpl. by rewrite H. Qed.

(** ** The request line *)

Lemma alpha_not_sp c : isAlpha c = true -> (c =b SP) = false.
Proof. destruct (c =b SP) eqn:E; [|done]. apply beqb_eq in E as ->. by vm_compute. Qed.

(** A known method in upper case: letters, the first one a method letter. *)
Lemma valid_method_letters m :
  isValidMethod m = true -> ToUpper m = m ->
  exists c r, m = c :: r /\ isValidMethodChar c = true /\ Forall (fun c => isAlpha c = true) r.
Proof.
  unfold isValidMethod. intros H Hm. rewrite Hm in H.
  apply existsb_exists in H as (v & Hv & ->%bool_decide_eq_true).
  assert (Forall (fun v => exists c r, v = c :: r /\ isValidMethodChar c = true /\
    Forall (fun c => isAlpha c = true) r) validMethods) as HF.
  { unfold validMethods. cbn [map str].
    repeat constructor; eexists _, _; (split; [reflexivity|]);
      (split; [by vm_compute|]); repeat constructor; by vm_compute. }
  rewrite Forall_forall in HF. apply HF. by apply list_elem_of_In.
Qed.

Lemma run_method pr cl cs m :
  isValidMethod m = true -> ToUpper m = m ->
  run (cfg stateMethodBefore [] pr [] None cl cs false false) (m ++ [SP]) =
  PRet (cfg statePathBefore [] (OnMethod pr m) [] None cl cs false false) None.
Proof.
  intros Hv Hu. destruct (valid_method_letters m Hv Hu) as (c & r & -> & Hc & Hr).
  rewrite <- app_comm_cons.
  rewrite (run_push _ _ _ _ _ _ _ _ _ _ _ (cfg stateMethod [c] pr [] None cl cs false false)).
  2:{ push_simpl. by rewrite Hc. }
  rewrite run_app, run_scan.
  2:{ intros tok d Hd. rewrite Forall_forall in Hr. apply Hr in Hd.
      push_simpl. rewrite Hd, alpha_not_sp by done. simpl. push_done. }
  change ([c] ++ r) with (c :: r). remember (c :: r) as m. apply run_one.
  push_simpl. rewrite Hu, Hv. simpl. push_done.
Qed.

Lemma run_uri pr pr' cl cs u :
  match u with c :: _ => c =b "/" | [] => false end = true ->
  Forall (fun c => (c =b SP) = false) u -> OnURL pr u = (pr', None) ->
  run (cfg statePathBefore [] pr [] None cl cs false false) (u ++ [SP]) =
  PRet (cfg stateProtoBefore [] pr' [] None cl cs false false) None.
Proof.
  intros Hc Hu Hp. destruct u as [|c u]; [done|]. apply beqb_eq in Hc as ->.
  rewrite <- app_comm_cons.
  rewrite (run_push _ _ _ _ _ _ _ _ _ _ _ (cfg statePath ["/"%byte] pr [] None cl cs false false)) by done.
  rewrite run_app, run_scan.
  2:{ intros tok d Hd. apply Forall_cons in Hu as [_ Hu]. rewrite Forall_forall in Hu.
      apply Hu in Hd. push_simpl. rewrite Hd. push_done. }
  change (["/"%byte] ++ u) with ("/"%byte :: u). remember ("/"%byte :: u) as w. apply run_one.
  push_simpl. rewrite Hp. simpl. push_done.
Qed.

Lemma run_proto pr pr' cl cs v :
  v <> [] -> Forall (fun c => (c =b SP) = false /\ (c =b CR) = false) v ->
  OnProto pr v = (pr', None) ->
  run (cfg stateProtoBefore [] pr [] None cl cs false false) (v ++ crlf) =
  PRet (cfg stateHeaderKeyBefore [] pr' [] None cl cs false false) None.
Proof.
  intros Hv HF Hp. destruct v as [|c v]; [done|].
  apply Forall_cons in HF as [[Hc Hc'] HF]. rewrite <- app_comm_cons.
  rewrite (run_push _ _ _ _ _ _ _ _ _ _ _ (cfg stateProto [c] pr [] None cl cs false false)).
  2:{ push_simpl. by rewrite Hc. }
  rewrite run_app, run_scan.
  2:{ intros tok d Hd. rewrite Forall_forall in HF. apply HF in Hd as [H1 H2].
      push_simpl. rewrite H1, H2. push_done. }
  change ([c] ++ v) with (c :: v). remember (c :: v) as w. unfold crlf.
  rewrite (run_push _ _ _ _ _ _ _ _ _ _ _ (cfg stateProtoLF (w ++ [CR]) pr' [] None cl cs false false)).
  2:{ push_simpl. rewrite Hp. simpl. push_done. }
  apply run_one. push_simpl. push_done.
Qed.

(** ** Header fields *)

Definition add_framing (hd : option Header) (kv : bytes * bytes) : option Header :=
  let k := CanonicalHeaderKey kv.1 in
  if bool_decide (k = transferEncodingHeader) || bool_decide (k = trailerHeader)
     || bool_decide (k = contentLengthHeader)
  then Some (header_add (hdr hd) k kv.2) else hd.

(** A field whose bytes go through the scanner unchanged. *)
Record scannable (kv : bytes * bytes) : Prop := {
  scan_key : Forall (fun c => isToken c = true) kv.1;
  scan_key_ne : kv.1 <> [];
  scan_value : Forall (fun c => (c =b CR) = false /\ (c =b LF) = false) kv.2;
  scan_value_hd : match kv.2 with c :: _ => (c =b SP) = false | [] => False end
}.

(** No separator is a token character. *)
Lemma token_not_sep c :
  isToken c = true ->
  (c =b SP) = false /\ (c =b CR) = false /\ (c =b LF) = false /\ (c =b ":") = false.
Proof.
  intros H.
  assert (forall c, implb (isToken c)
    (negb (c =b SP) && negb (c =b CR) && negb (c =b LF) && negb (c =b ":")) = true) as HF
    by (apply forall_byte; by vm_compute).
  specialize (HF c). rewrite H in HF. cbn [implb] in HF. bool_hyp. done.
Qed.

Lemma canonical_ne k : k <> [] -> CanonicalHeaderKey k <> [].
Proof. unfold CanonicalHeaderKey. destruct k; [done|]. by case_match. Qed.

Lemma run_field pr hd cl cs he kv :
  scannable kv ->
  run (cfg stateHeaderKeyBefore [] pr [] hd cl cs false he) (encode_field kv) =
  PRet (cfg stateHeaderKeyBefore [] (OnHeader pr (CanonicalHeaderKey kv.1) kv.2) []
          (add_framing hd kv) cl cs false true) None.
Proof.
  destruct kv as [k v]. intros [Hk Hne Hv Hvh]. unfold encode_field. cbn [fst snd] in *.
  pose proof (canonical_ne k Hne) as Hcn. destruct k as [|c k]; [done|].
  destruct v as [|d v]; [done|].
  apply Forall_cons in Hk as [Hc Hk]. apply Forall_cons in Hv as [[Hd1 Hd2] Hv].
  destruct (token_not_sep c Hc) as (Hc1 & Hc2 & Hc3 & Hc4). rewrite <- app_comm_cons.
  rewrite (run_push _ _ _ _ _ _ _ _ _ _ _ (cfg stateHeaderKey [c] pr [] hd cl cs false true)).
  2:{ push_simpl. by rewrite Hc1, Hc2, Hc3, Hc. }
  rewrite run_app, run_scan.
  2:{ intros tok e He. rewrite Forall_forall in Hk. apply Hk in He.
      destruct (token_not_sep e He) as (H1 & H2 & H3 & H4).
      push_simpl. rewrite H1, H2, H3, H4, He. simpl. push_done. }
  change ([c] ++ k) with (c :: k). remember (c :: k) as key. rewrite <- app_comm_cons.
  rewrite (run_push _ _ _ _ _ _ _ _ _ _ _
    (cfg stateHeaderValueBefore [] pr (CanonicalHeaderKey key) hd cl cs false true)).
  2:{ push_simpl. push_done. }
  rewrite <- app_comm_cons.
  rewrite (run_push _ _ _ _ _ _ _ _ _ _ _
    (cfg stateHeaderValueBefore [SP] pr (CanonicalHeaderKey key) hd cl cs false true)) by done.
  cbn [app].
  rewrite (run_push _ _ _ _ _ _ _ _ _ _ _
    (cfg stateHeaderValue [d] pr (CanonicalHeaderKey key) hd cl cs false true)).
  2:{ push_simpl. by rewrite Hvh, Hd1, Hd2. }
  rewrite run_app, run_scan.
  2:{ intros tok e He. rewrite Forall_forall in Hv. apply Hv in He as [H1 H2].
      push_simpl. rewrite H1, H2. push_done. }
  change ([d] ++ v) with (d :: v). remember (d :: v) as w. unfold crlf.
  rewrite (run_push _ _ _ _ _ _ _ _ _ _ _
    (cfg stateHeaderValueLF [] (OnHeader pr (CanonicalHeaderKey key) w) []
      (add_framing hd (key, w)) cl cs false true)).
  2:{ push_simpl. unfold finish_header, add_framing. simpl.
      by case_match; rewrite rest_cache_cfg, drop_all_tok. }
  apply run_one. push_simpl. push_done.
Qed.

Lemma run_fields pr hd cl cs he kvs :
  Forall scannable kvs ->
  exists he', run (cfg stateHeaderKeyBefore [] pr [] hd cl cs false he) (concat (map encode_field kvs)) =
  PRet (cfg stateHeaderKeyBefore [] (deliver_fields pr kvs) []
          (foldl add_framing hd kvs) cl cs false he') None.
Proof.
  intros H. revert pr hd he. induction H as [|kv kvs Hkv _ IH]; intros pr hd he; simpl; [eauto|].
  rewrite run_app, run_field by done. apply IH.
Qed.

(** ** The end of the header and the body *)

Lemma last_not_sp s :
  s <> [] -> Forall (fun c => (c =b SP) = false) s -> cut_trailing_spaces s = s.
Proof.
  intros Hne HF. unfold cut_trailing_spaces, trim_right.
  destruct (rev s) as [|c r] eqn:E.
  { apply (f_equal (@rev byte)) in E. rewrite rev_involutive in E. by destruct s. }
  assert (c ∈ s) as Hc.
  { apply list_elem_of_In. apply in_rev. rewrite E. by left. }
  rewrite Forall_forall in HF. simpl. rewrite (HF c Hc).
  rewrite <- E, rev_involutive. by destruct s.
Qed.

Lemma digits_Forall (f : byte -> bool) base n :
  0 < base -> forallb (fun d => f (digit_char d)) (seqZ 0 base) = true ->
  Forall (fun c => f c = true) (FormatUint n base).
Proof.
  intros Hb H. apply FormatUint_Forall; [done|]. intros d Hd.
  rewrite forallb_forall in H. apply H, list_elem_of_In, elem_of_seqZ. lia.
Qed.

Lemma push_header_none pr cl cs he :
  push (cfg stateHeaderKeyBefore [] pr [] None cl cs false he) CR =
  PRet (cfg stateHeaderOverLF [] (OnContentLength pr (-1)) [] None (-1) cs false he) None.
Proof. reflexivity. Qed.

Lemma push_header_fixed pr cl cs he n :
  0 <= n < 2 ^ 62 ->
  let hd := Some {[contentLengthHeader := [FormatUint n 10]]} in
  push (cfg stateHeaderKeyBefore [] pr [] hd cl cs false he) CR =
  PRet (cfg stateHeaderOverLF [] (OnContentLength pr n) [] hd n cs false he) None.
Proof.
  intros Hn hd. push_simpl. unfold parseTransferEncoding. simpl.
  rewrite lookup_singleton_ne by done.
  unfold parseContentLength. simpl. unfold header_get.
  change (CanonicalHeaderKey contentLengthHeader) with contentLengthHeader.
  rewrite lookup_singleton_eq.
  assert (cut_trailing_spaces (FormatUint n 10) = FormatUint n 10) as Hc.
  { apply last_not_sp.
    - by destruct (FormatUint_cons n 10) as (? & ? & ->).
    - eapply Forall_impl; [apply (digits_Forall (fun c => negb (c =b SP))); [lia|by vm_compute]|].
      intros c Hc. simpl in Hc. by apply negb_true_iff in Hc. }
  destruct (FormatUint_cons n 10) as (c & r & E). rewrite E in Hc |- *. rewrite Hc, <- E.
  rewrite ParseInt_FormatUint by lia.
  unfold MaxInt. rewrite !(proj2 (Z.ltb_ge _ _)) by lia.
  unfold parseTrailer. simpl. push_done.
Qed.

Lemma push_header_chunked pr cl cs he :
  push (cfg stateHeaderKeyBefore [] pr []
    (Some {[transferEncodingHeader := [str "chunked"]]}) cl cs false he) CR =
  PRet (cfg stateHeaderOverLF [] (OnContentLength pr (-1)) [] (Some ∅) (-1) cs true he) None.
Proof. by vm_compute. Qed.

Context (pr pr' : P) (upd : OnComplete pr = (pr', None)).

Lemma push_no_body hd cl cs he :
  cl <= 0 ->
  push (cfg stateHeaderOverLF [] pr [] hd cl cs false he) LF = PRet (idle pr' cl cs) None.
Proof.
  intros Hcl. push_simpl. rewrite (proj2 (Z.ltb_ge _ _)) by lia.
  unfold handleMessage, idle, cfg. simpl. rewrite upd. by destruct client.
Qed.

(** Bytes of a block that is not complete yet. *)
Lemma run_wait st p hd cl cs ch he n tok bs :
  (forall tok c, len tok + 1 < n -> push (cfg st tok p [] hd cl cs ch he) c =
     PRet (cfg st (tok ++ [c]) p [] hd cl cs ch he) None) ->
  len tok + len bs < n ->
  run (cfg st tok p [] hd cl cs ch he) bs = PRet (cfg st (tok ++ bs) p [] hd cl cs ch he) None.
Proof.
  intros H. revert tok. induction bs as [|c bs IH]; intros tok Hl; [by rewrite app_nil_r|].
  simpl. rewrite H by len_lia. rewrite IH by len_lia. by rewrite <- app_assoc.
Qed.

Lemma slice_all (tok : bytes) c : slice (tok ++ [c]) 0 (0 + len (tok ++ [c])) = Some (tok ++ [c]).
Proof. apply slice_full. Qed.

Lemma run_fixed p hd cs b :
  b <> [] -> OnBody p b = (pr, None) ->
  run (cfg stateBodyContentLength [] p [] hd (len b) cs false false) b =
  PRet (idle pr' (len b) cs) None.
Proof.
  intros Hne Hb. destruct (exists_last Hne) as (t & c & ->).
  rewrite run_app, (run_wait _ _ _ _ _ _ _ (len (t ++ [c]))).
  - simpl app at 1. apply run_one. unfold push. rewrite cached_cfg.
    unfold step. simpl. unfold step_body. simpl.
    rewrite Z.sub_0_r, Z.leb_refl, slice_all, Hb. unfold handleMessage, idle, cfg. simpl. rewrite upd.
    destruct client; rewrite rest_cache_cfg, drop_ge by (unfold len; lia); reflexivity.
  - intros tok d Hl. push_simpl. rewrite (proj2 (Z.leb_gt _ _)) by len_lia.
    simpl. by destruct tok.
  - len_lia.
Qed.

(** ** Chunks *)

Lemma hex_digits n : Forall (fun c => isHex c = true /\ (c =b SP) = false /\ (c =b CR) = false)
  (FormatUint n 16).
Proof.
  eapply Forall_impl.
  - apply (digits_Forall (fun c => isHex c && negb (c =b SP) && negb (c =b CR))); [lia|by vm_compute].
  - intros c Hc. simpl in Hc. bool_hyp. done.
Qed.

Lemma parse_hex n :
  0 <= n < 2 ^ 62 -> parseAndValidateChunkSize (FormatUint n 16) = inl n.
Proof.
  intros Hn. unfold parseAndValidateChunkSize. rewrite ParseInt_FormatUint by lia.
  unfold MaxInt. by rewrite !(proj2 (Z.ltb_ge _ _)) by lia.
Qed.

(** The size line of a chunk. *)
Lemma run_chunk_size tok p hd cl cs n :
  0 <= n < 2 ^ 62 ->
  run (cfg stateBodyChunkSizeBefore tok p [] hd cl cs true false) (FormatUint n 16 ++ crlf) =
  PRet (cfg (if 0 <? n then stateBodyChunkData else stateTailCR) [] p [] hd cl n true false) None.
Proof.
  intros Hn. pose proof (hex_digits n) as HF. pose proof (parse_hex n Hn) as Hp.
  destruct (FormatUint_cons n 16) as (c & r & E). rewrite E in *.
  apply Forall_cons in HF as [(Hc & _ & _) HF]. rewrite <- app_comm_cons.
  rewrite (run_push _ _ _ _ _ _ _ _ _ _ _ (cfg stateBodyChunkSize [c] p [] hd cl (-1) true false)).
  2:{ push_simpl. rewrite Hc. push_done. }
  rewrite run_app, run_scan.
  2:{ intros t d Hd. rewrite Forall_forall in HF. apply HF in Hd as (H1 & H2 & H3).
      push_simpl. rewrite H1, H2, H3. simpl. push_done. }
  change ([c] ++ r) with (c :: r). remember (c :: r) as w. unfold crlf.
  rewrite (run_push _ _ _ _ _ _ _ _ _ _ _ (cfg stateBodyChunkSizeLF [] p [] hd cl n true false)).
  2:{ push_simpl. unfold chunk_size_now. simpl. rewrite slice_tok, Hp. push_done. }
  apply run_one. push_simpl. by destruct (0 <? n).
Qed.

(** The data of a chunk and the line end after it. *)
Lemma run_chunk_data p p' hd cl b :
  b <> [] -> OnBody p b = (p', None) ->
  run (cfg stateBodyChunkData [] p [] hd cl (len b) true false) (b ++ crlf) =
  PRet (cfg stateBodyChunkSizeBefore crlf p' [] hd cl (len b) true false) None.
Proof.
  intros Hne Hb. rewrite run_app. destruct (exists_last Hne) as (t & c & ->).
  rewrite run_app, (run_wait _ _ _ _ _ _ _ (len (t ++ [c]))).
  - simpl app at 1.
    rewrite (run_one _ _ _ _ _ _ _ _ _ _ (cfg stateBodyChunkDataCR [] p' [] hd cl (len (t ++ [c])) true false));
      [done|].
    unfold push. rewrite cached_cfg. unfold step. simpl. unfold step_body. simpl.
    rewrite Z.sub_0_r, Z.leb_refl, slice_all, Hb. simpl.
    rewrite rest_cache_cfg, drop_ge by (unfold len; lia). reflexivity.
  - intros tok d Hl. push_simpl. rewrite (proj2 (Z.leb_gt _ _)) by len_lia.
    simpl. by destruct tok.
  - len_lia.
Qed.

Lemma run_chunks tok p hd cl cs css :
  forallb (fun c => (0 <? len c) && (len c <? 2 ^ 62)) css = true ->
  deliver_chunks p css = Some pr ->
  exists n, run (cfg stateBodyChunkSizeBefore tok p [] hd cl cs true false)
    (concat (map encode_chunk css) ++ FormatUint 0 16 ++ crlf ++ crlf) = PRet (idle pr' cl n) None.
Proof.
  revert tok p cs. induction css as [|b css IH]; intros tok p cs Hok Hd.
  - exists 0. injection Hd as ->. simpl concat. rewrite app_nil_l, app_assoc, run_app.
    rewrite run_chunk_size by lia. simpl. unfold push, step, step_trailer, handleMessage, idle, cfg.
    simpl. rewrite upd. by destruct client.
  - simpl in Hok, Hd. bool_hyp. destruct (OnBody p b) as [p1 [e|]] eqn:Eb; [done|].
    simpl in Hd. simpl concat. unfold encode_chunk at 1. rewrite <- !app_assoc.
    rewrite app_assoc, run_app, run_chunk_size by lia.
    rewrite (proj2 (Z.ltb_lt 0 _)) by done.
    rewrite app_assoc, run_app, (run_chunk_data p p1); [by apply IH| |done].
    by intros ->.
Qed.
End message.

Section messages.
Context {P C : Type} `{!Processor P C} `{!ParserCloser C}.
Context (limit : Z) (oc : bool) (cc : list (option http_err)) (dc : nat).

Context (client : bool).

Abbreviation cfg := (cfg (P := P) (C := C) limit oc cc dc client).
Abbreviation idle := (idle (P := P) (C := C) limit oc cc dc client).

Lemma field_ok_scannable kv :
  field_ok kv = true ->
  scannable kv /\ forall hd, add_framing hd kv = hd.
Proof.
  unfold field_ok. intros H. bool_hyp. split.
  - constructor.
    + apply Forall_forall. intros c Hc. rewrite forallb_forall in *.
      by apply H, list_elem_of_In.
    + done.
    + apply Forall_forall. intros c Hc. rewrite forallb_forall in *.
      apply list_elem_of_In in Hc. 
      match goal with H : forall x, In x kv.2 -> _ |- _ => specialize (H c Hc) end.
      by bool_hyp.
    + destruct (kv.2); [done|]. by bool_hyp.
  - intros hd. unfold add_framing.
    rewrite !bool_decide_eq_false_2 by set_solver. done.
Qed.

Lemma framing_scannable f : Forall scannable (framing_fields f).
Proof.
  destruct f as [|b|cs]; simpl; repeat constructor; simpl; try (by vm_compute).
  - eapply Forall_impl.
    + apply (digits_Forall (fun c => negb (c =b CR) && negb (c =b LF))); [lia|by vm_compute].
    + intros c Hc. simpl in Hc. by bool_hyp.
  - pose proof (digits_Forall (fun c => negb (c =b SP)) 10 (len b) ltac:(lia) eq_refl) as HF.
    destruct (FormatUint_cons (len b) 10) as (c & r & E). rewrite E in HF |- *.
    apply Forall_cons in HF as [HF _]. by bool_hyp.
Qed.

Lemma add_framing_first k v :
  CanonicalHeaderKey k = k -> k ∈ [transferEncodingHeader; trailerHeader; contentLengthHeader] ->
  add_framing None (k, v) = Some {[k := [v]]}.
Proof.
  intros Hk Hin. unfold add_framing, header_add. cbn [fst snd hdr default]. rewrite !Hk.
  rewrite lookup_empty. simpl default. rewrite app_nil_l, insert_empty.
  destruct (_ || _) eqn:E; [reflexivity|]. bool_hyp.
  set_solver.
Qed.

Lemma fields_framing fs f :
  forallb field_ok fs = true ->
  Forall scannable (fs ++ framing_fields f) /\
  foldl add_framing None (fs ++ framing_fields f) =
  match f with
  | NoBody => None
  | Fixed b => Some {[contentLengthHeader := [FormatUint (len b) 10]]}
  | Chunks _ => Some {[transferEncodingHeader := [str "chunked"]]}
  end.
Proof.
  intros Hfs. rewrite forallb_forall in Hfs.
  assert (forall kv, kv ∈ fs -> scannable kv /\ forall hd, add_framing hd kv = hd) as H.
  { intros kv Hkv. apply field_ok_scannable, Hfs. by apply list_elem_of_In. }
  split.
  - apply Forall_app. split; [|apply framing_scannable].
    apply Forall_forall. intros kv Hkv. by apply H.
  - rewrite foldl_app. assert (foldl add_framing None fs = None) as ->.
    { clear Hfs. induction fs as [|kv fs IH]; [done|]. simpl.
      rewrite (proj2 (H kv (list_elem_of_here _ _))). apply IH. intros x Hx.
      by apply H, list_elem_of_further. }
    destruct f; [reflexivity|apply add_framing_first..]; first [by vm_compute|set_solver].
Qed.

Lemma run_body pr p1 pr' cl cs he f :
  framing_ok f = true ->
  deliver_body pr f = Some p1 -> OnComplete p1 = (pr', None) ->
  exists cl' cs',
  run (cfg stateHeaderKeyBefore [] pr [] 
    match f with
    | NoBody => None
    | Fixed b => Some {[contentLengthHeader := [FormatUint (len b) 10]]}
    | Chunks _ => Some {[transferEncodingHeader := [str "chunked"]]}
    end cl cs false he) (crlf ++ encode_body f) = PRet (idle pr' cl' cs') None.
Proof.
  intros Hok Hd Hc. unfold crlf. cbn [app].
  destruct f as [|b|css]; cbn [encode_body].
  - injection Hd as Hd. erewrite run_push by apply push_header_none. subst p1.
    erewrite run_one; [by eauto|]. by apply push_no_body.
  - simpl in Hok. bool_hyp. erewrite run_push by (apply push_header_fixed; len_lia).
    destruct b as [|x b].
    + injection Hd as Hd. subst p1. erewrite run_one; [by eauto|]. by apply push_no_body.
    + simpl in Hd. destruct (OnBody _ _) as [p2 [e|]] eqn:Eb; [done|]. injection Hd as ->.
      remember (x :: b) as w.
      erewrite run_push; [eexists _, _; cbn [app]; eapply run_fixed; [done|by subst|done]|].
      unfold push, step, step_body. simpl.
      rewrite (proj2 (Z.ltb_lt 0 (len w))) by (subst; len_lia). reflexivity.
  - simpl in Hok, Hd. erewrite run_push by apply push_header_chunked.
    erewrite run_push; [|reflexivity].
    destruct (run_chunks limit oc cc dc client p1 pr' Hc [] _ (Some ∅) (-1) cs css Hok Hd) as [n Hn].
    eauto.
Qed.

End messages.

Section requests.
Context {P C : Type} `{!Processor P C} `{!ParserCloser C}.
Context (limit : Z) (oc : bool) (cc : list (option http_err)) (dc : nat).

Abbreviation cfg := (cfg (P := P) (C := C) limit oc cc dc false).
Abbreviation idle := (idle (P := P) (C := C) limit oc cc dc false).

Lemma run_request pr pr' cl cs r :
  request_ok r = true -> deliver pr r = Some pr' ->
  exists cl' cs', run (idle pr cl cs) (encode_request r) = PRet (idle pr' cl' cs') None.
Proof.
  intros Hok Hd. unfold request_ok in Hok. bool_hyp.
  unfold deliver in Hd.
  destruct (OnURL _ _) as [p1 [?|]] eqn:E1; [done|]. simpl in Hd.
  destruct (OnProto _ _) as [p2 [?|]] eqn:E2; [done|]. simpl in Hd.
  destruct (deliver_body _ _) as [p3|] eqn:E3; [|done]. simpl in Hd.
  destruct (OnComplete p3) as [p4 [?|]] eqn:E4; [done|]. injection Hd as ->.
  unfold encode_request. change (idle pr cl cs) with (cfg stateMethodBefore [] pr [] None cl cs false false).
  rewrite app_assoc, run_app, run_method by done.
  rewrite app_assoc, run_app, (run_uri _ _ _ _ _ _ p1); [|done| |done]; cycle 1.
  { apply Forall_forall. intros c Hc%list_elem_of_In. rewrite forallb_forall in *.
    apply negb_true_iff. auto. }
  rewrite app_assoc, run_app, (run_proto _ _ _ _ _ _ p2); [|done| |done];
    cycle 1.
  { apply Forall_forall. intros c Hc%list_elem_of_In. rewrite forallb_forall in *.
    match goal with H : forall x, In x (r_proto r) -> _ |- _ => specialize (H c Hc) end.
    by bool_hyp. }
  destruct (fields_framing (r_fields r) (r_body r)) as [Hs Hh]; [done|].
  destruct (run_fields limit oc cc dc false p2 None cl cs false _ Hs) as [he Hf].
  rewrite run_app, Hf, Hh. by eapply run_body.
Qed.

Lemma run_requests pr pr' cl cs rs :
  forallb request_ok rs = true -> deliver_all pr rs = Some pr' ->
  exists cl' cs', run (idle pr cl cs) (concat (map encode_request rs)) = PRet (idle pr' cl' cs') None.
Proof.
  revert pr cl cs. induction rs as [|r rs IH]; intros pr cl cs Hok Hd; simpl in *.
  { injection Hd as ->. eauto. }
  bool_hyp. destruct (deliver pr r) as [p1|] eqn:E; [|done]. simpl in Hd.
  destruct (run_request pr p1 cl cs r) as (cl1 & cs1 & Hr); [done..|].
  rewrite run_app, Hr. by apply IH.
Qed.

Lemma idle_ready pr cl cs : ready (idle pr cl cs).
Proof. done. Qed.
End requests.

(** A new parser fed in any pieces does what the byte machine does. *)
Lemma feed_run {P C : Type} `{!Processor P C} `{!ParserCloser C} `{!ParserCloserLaws C} `{!ProcessorLaws P C}
    (limit : Z) (client : bool) (pr : P) (q : parser P C) (ds : list bytes) :
  run (idle (C := C) limit false [] 0 client pr 0 0) (concat ds) = PRet q None -> ds <> [] ->
  limit <= 0 \/ len (concat ds) <= limit -> len (concat ds) <= stream_bound ->
  feed (NewParser pr client limit) ds = PRet q None.
Proof.
  intros Hr Hne Hlim Hsb.
  assert (NewParser pr client limit = idle (C := C) limit false [] 0 client pr 0 0) as -> by by destruct client.
  assert (room (idle (C := C) limit false [] 0 client pr 0 0) (concat ds)) as Hw by (by split_and!).
  apply norm_None.
  pose proof (feed_concat (idle (C := C) limit false [] 0 client pr 0 0) ds) as Hf.
  unfold result_equiv in Hf. rewrite Hf by (done || by destruct client).
  rewrite (Parse_run _ _ q); [done|by destruct client|done|done].
Qed.

(** A server's parser fed with the wire form of requests, in any pieces. *)
Lemma feed_requests {P C : Type} `{!Processor P C} `{!ParserCloser C} `{!ParserCloserLaws C} `{!ProcessorLaws P C}
    (limit : Z) (pr pr' : P) (rs : list request) (ds : list bytes) :
  forallb request_ok rs = true -> deliver_all (C := C) pr rs = Some pr' ->
  ds <> [] -> concat ds = concat (map encode_request rs) ->
  limit <= 0 \/ len (concat ds) <= limit -> len (concat ds) <= stream_bound ->
  exists cl cs, feed (NewParser pr false limit) ds = PRet (idle (C := C) limit false [] 0 false pr' cl cs) None.
Proof.
  intros Hok Hd Hne Hds Hlim Hsb. destruct (run_requests limit false [] 0 pr pr' 0 0 rs Hok Hd) as (cl & cs & Hr).
  exists cl, cs. apply feed_run; [by rewrite Hds|done..].
Qed.
