(* ===== verification/ParserProps.v ===== *)
(** * What the HTTP parser guarantees

    The claims on [src/nbhttp/parser.go], proved from the lemmas of the files
    [ParserFacts] to [ParserMessage], with a processor that records the calls
    it receives as the concrete instance the claims are evaluated on. *)

From Stdlib Require Import ZArith Lia.
From Stdlib Require Import Strings.Byte Strings.String.
From stdpp Require Import base numbers list list_numbers gmap.
From S2P Require Import Prelude GoLib Table Parser ParserFacts ParserSplit ParserRun ParserMessage.

Open Scope Z_scope.

(** ** A recording processor *)

Inductive event :=
| EvMethod (m : bytes)
| EvURL (u : bytes)
| EvProto (v : bytes)
| EvStatus (code : Z) (s : bytes)
| EvHeader (k v : bytes)
| EvContentLength (n : Z)
| EvBody (b : bytes)
| EvTrailer (k v : bytes)
| EvComplete
| EvClose.

#[export] Instance event_eq_dec : EqDecision event.
Proof. solve_decision. Defined.

(** Records every call; a request with an [Upgrade] header hands the
    connection to a reader that records the bytes it gets. *)
#[export] Instance log_processor : Processor (list event) bytes := {|
  OnMethod l m := l ++ [EvMethod m];
  OnURL l u := (l ++ [EvURL u], None);
  OnProto l v := (l ++ [EvProto v], None);
  OnStatus l c s := l ++ [EvStatus c s];
  OnHeader l k v := l ++ [EvHeader k v];
  OnContentLength l n := l ++ [EvContentLength n];
  OnBody l b := (l ++ [EvBody b], None);
  OnTrailerHeader l k v := l ++ [EvTrailer k v];
  OnComplete l :=
    (l ++ [EvComplete],
     if existsb (fun e => match e with EvHeader k _ => bool_decide (k = str "Upgrade") | _ => false end) l
     then Some [] else None);
  ProcClose l _ := l ++ [EvClose];
  ProcClean l := l
|}.

#[export] Instance log_reader : ParserCloser bytes := {|
  CloserParse c data := (c ++ data, None)
|}.

(** The recording reader has room for everything; streams up to [2^40] bytes
    are considered. *)
#[export] Instance log_reader_laws : ParserCloserLaws bytes.
Proof.
  refine {| closer_ok _ _ := True |}.
  - intros c x y _ _ _. simpl. by rewrite app_assoc.
  - done.
Defined.

#[export] Instance log_processor_laws : ProcessorLaws (list event) bytes.
Proof. by refine {| stream_bound := 2 ^ 40 |}. Defined.

Abbreviation log_parser := (parser (list event) bytes).

Definition new_server (limit : Z) : log_parser := NewParser [] false limit.
Definition new_client (limit : Z) : log_parser := NewParser [] true limit.

(** The calls a run recorded, with its error. *)
Definition log_of (r : @parse_result (list event) bytes) : option (list event * option http_err) :=
  match r with
  | PRet p e => Some (processor p, e)
  | _ => None
  end.

Definition line (s : String.string) : bytes := str s ++ crlf.

Definition sample_upgrade : bytes :=
  line "GET /ws HTTP/1.1" ++ line "Upgrade: websocket" ++ crlf ++ str "frame".

Section claims.
Context {P C : Type} `{!Processor P C} `{!ParserCloser C}.
Implicit Types p : parser P C.

Lemma NewParser_wf (pr : P) client limit :
  wf (NewParser pr client limit : parser P C) /\
  state (NewParser pr client limit : parser P C) <> stateClose.
Proof. by destruct client. Qed.

(** C4: the effect of a sequence of [Parse] calls depends only on the bytes
    received, not on how the network cut them: two ways of cutting the same
    stream end with the same parser (processor calls included), or with the
    same error after the same processor calls.  The stream has to fit the read
    limit; the upgraded reader and the processor keep their parts of the
    contract ([ParserCloserLaws], [ProcessorLaws]). *)
Theorem parse_split_independent `{!ParserCloserLaws C} `{!ProcessorLaws P C}
    p (ds1 ds2 : list bytes) :
  wf p -> ds1 <> [] -> ds2 <> [] -> concat ds1 = concat ds2 ->
  room p (concat ds1) ->
  result_equiv (feed p ds1) (feed p ds2).
Proof.
  intros Hwf H1 H2 Heq Hroom.
  rewrite (feed_concat p ds1) by done. rewrite Heq in Hroom |- *.
  symmetry. by apply feed_concat.
Qed.

(** C26: [Parse] on a parser between two calls always returns: the loop ends
    and no index or slice expression is out of range; when it returns without
    error the parser is again fit for the next call. *)
Theorem Parse_total p (data : bytes) :
  wf p -> exists q e, Parse p data = PRet q e /\ (e = None -> wf q /\ state q <> stateClose).
Proof.
  intros Hwf. pose proof (Parse_result_ok p data Hwf) as H.
  destruct (Parse p data) as [q [e|]| |]; try done.
  - by exists q, (Some e).
  - exists q, None. split; [done|]. intros _. by destruct H as (? & ? & _).
Qed.

(** C7: a server's parser that receives the wire form of a list of requests,
    cut anywhere, hands the processor the parts of each request in order (method,
    target, version, fields, declared length, body or chunks, completion) and ends
    between two requests with nothing left over.  The requests are those of
    [request_ok]: an upper-case method the parser knows, a target that starts with
    a slash and has no space, a version without spaces, fields with a token as
    name, other than the framing fields, and a value that is not empty, does not
    start with a space and has no line ends; a body that is absent, has a declared
    length below [2 ^ 62], or comes in non-empty chunks without trailers.  No call
    of the processor refuses ([deliver_all]), and the stream is within [ReadLimit]
    if there is one. *)
Theorem requests_delivered `{!ParserCloserLaws C} `{!ProcessorLaws P C}
    (pr pr' : P) (limit : Z) (rs : list request) (ds : list bytes) :
  forallb request_ok rs = true -> deliver_all (C := C) pr rs = Some pr' ->
  ds <> [] -> concat ds = concat (map encode_request rs) ->
  limit <= 0 \/ len (concat ds) <= limit -> len (concat ds) <= stream_bound ->
  exists q : parser P C, feed (NewParser pr false limit) ds = PRet q None /\
    processor q = pr' /\ state q = stateMethodBefore /\ bytesCached q = None.
Proof.
  intros Hok Hd Hne Hds Hlim Hsb.
  destruct (feed_requests limit pr pr' rs ds Hok Hd Hne Hds Hlim Hsb) as (cl & cs & E).
  by exists (idle (C := C) limit false [] 0 false pr' cl cs).
Qed.

(** With a positive [ReadLimit] a parser never holds more unfinished
    bytes than the limit or the last read, whichever is larger. *)
Theorem cached_bounded p (data : bytes) q :
  wf p -> 0 < readLimit p -> Parse p data = PRet q None -> data <> [] ->
  len (cached q) <= Z.max (readLimit p) (len data).
Proof.
  intros Hwf Hl Hq Hd. pose proof (Parse_cached_le p data q Hwf Hq) as Hle.
  destruct (decide (state p = stateClose)) as [?|Ho]; [by rewrite Parse_closed in Hq|].
  pose proof (Parse_guards p data Hwf Ho Hd) as Hg.
  destruct (limit_hit p data) eqn:E; [congruence|].
  unfold limit_hit in E. rewrite (proj2 (Z.ltb_lt 0 (readLimit p))) in E by done. simpl in E.
  pose proof (len_nonneg (cached p)).
  destruct (Z.ltb_spec 0 (len (cached p))); simpl in E; bool_hyp; lia.
Qed.

Lemma header_get_deleted (h : Header) k :
  CanonicalHeaderKey k = k -> header_get (delete k h) k = [].
Proof. intros Hk. unfold header_get. by rewrite Hk, lookup_delete_eq. Qed.

(** An accepted [Transfer-Encoding] removes the length header. *)
Lemma transfer_encoding_ok p q :
  chunked p = false -> parseTransferEncoding p = (q, None) ->
  (chunked q = true /\ is_Some (hdr (header p) !! transferEncodingHeader) /\
   header_get (hdr (header q)) contentLengthHeader = []) \/
  (chunked q = false /\ hdr (header p) !! transferEncodingHeader = None /\ q = p).
Proof.
  intros Hc. unfold parseTransferEncoding.
  destruct (hdr (header p) !! transferEncodingHeader) as [raw|] eqn:Et.
  - destruct raw as [|v [|]]; try done. case_match; [|done]. intros [= <-]. left.
    split; [done|]. split; [by eauto|]. simpl. destruct (header p) as [h|]; simpl; [|done].
    by apply header_get_deleted.
  - intros [= <-]. by right.
Qed.

Lemma content_length_ok p q e :
  parseContentLength p = (q, e) ->
  (chunked p = true -> header_get (hdr (header p)) contentLengthHeader = []) ->
  chunked q = chunked p /\ e <> Some ErrUnexpectedContentLength /\
  (e = None -> -1 <= contentLength q < 2 ^ 62 /\
    (header_get (hdr (header p)) contentLengthHeader = [] -> contentLength q = -1)).
Proof.
  unfold parseContentLength. intros H Hc.
  destruct (header_get (hdr (header p)) contentLengthHeader) as [|c cl].
  { simplify_eq. simpl. split_and!; done. }
  destruct (chunked p) eqn:Ec; [by specialize (Hc eq_refl)|].
  destruct (ParseInt _ _ _) as [l|] eqn:El; [|by simplify_eq].
  apply ParseInt_range in El; [|lia..].
  repeat case_match; simplify_eq; try done. bool_hyp. simpl.
  split_and!; try done. intros _. split; [lia|done].
Qed.

Lemma add_trailer_key_error k t e :
  add_trailer_key k t = inr e -> e <> ErrUnexpectedContentLength.
Proof. unfold add_trailer_key. case_match; congruence. Qed.

Lemma add_trailer_keys_error ks t e :
  add_trailer_keys ks t = inr e -> e <> ErrUnexpectedContentLength.
Proof.
  revert t. induction ks as [|k ks IH]; intros t; [done|]. simpl.
  destruct (TrimString k) as [|c r]; [apply IH|].
  destruct (add_trailer_key (c :: r) t) eqn:E; [apply IH|].
  intros [= ->]. by eapply add_trailer_key_error.
Qed.

Lemma add_trailers_error vs t e :
  add_trailers vs t = inr e -> e <> ErrUnexpectedContentLength.
Proof.
  revert t. induction vs as [|v vs IH]; intros t; [done|]. simpl.
  destruct (TrimString v) as [|c r]; [apply IH|].
  destruct (if negb _ then _ else _) eqn:E; [apply IH|].
  intros [= ->]. case_match; [by eapply add_trailer_key_error|by eapply add_trailer_keys_error].
Qed.

(** C36: the framing of a message is decided once and for one rule only: at
    the end of the header block the body is chunked exactly when a
    [Transfer-Encoding] header was received, in which case any
    [Content-Length] is dropped; otherwise the length is unset or a number
    that fits 62 bits.  (The error for both headers is unreachable.) *)
Theorem framing_decided (data : bytes) (start i : Z) p :
  chunked p = false -> state p = stateHeaderKeyBefore ->
  match step data start i CR p with
  | Next _ _ q =>
      (chunked q = true <-> is_Some (hdr (header p) !! transferEncodingHeader)) /\
      (chunked q = true -> contentLength q = -1) /\
      -1 <= contentLength q < 2 ^ 62
  | Return _ e => e <> ErrUnexpectedContentLength
  | _ => False
  end.
Proof.
  intros Hc Hs. unfold step. rewrite Hs. unfold step_header. rewrite Hs. simpl.
  destruct (parseTransferEncoding p) as [q1 [e|]] eqn:E1.
  { unfold parseTransferEncoding in E1. repeat case_match; by simplify_eq. }
  pose proof (transfer_encoding_ok p q1 Hc E1) as Hte.
  destruct (parseContentLength q1) as [q2 e] eqn:E2.
  destruct (content_length_ok q1 q2 e E2) as (Hch & Hne & Hok).
  { intros H1. destruct Hte as [(_ & _ & ?)|(? & _)]; congruence. }
  destruct e as [e|]; [congruence|]. destruct (Hok eq_refl) as [Hr Hm].
  set (q3 := set_processor _ q2). pose proof (parseTrailer_spec q3) as Htr.
  destruct (parseTrailer q3) as [q4 [e|]] eqn:E3.
  { unfold parseTrailer in E3. intros ->. repeat case_match; simplify_eq.
    eapply add_trailers_error; eauto. }
  simpl in Htr. unfold nextState.
  assert (chunked q4 = chunked q1 /\ contentLength q4 = contentLength q2) as [H1 H2]
    by (rewrite Htr; simpl; by rewrite Hch).
  assert (chunked q4 = true <-> is_Some (hdr (header p) !! transferEncodingHeader)) as Hiff.
  { rewrite H1. destruct Hte as [(-> & ? & _)|(-> & -> & _)]; [done|].
    split; [done|intros []; done]. }
  assert (chunked q4 = true -> contentLength q4 = -1) as Hm'.
  { rewrite H1, H2. intros Hq. apply Hm. destruct Hte as [(_ & _ & ?)|(? & _)]; congruence. }
  destruct (state q4); simpl; rewrite ?H2; by rewrite H2 in Hm'.
Qed.

(** Closing: the state is final, the processor and the registered
    callback are told once, every later [Parse] reports [net.ErrClosed] and
    changes nothing, and closing again changes nothing. *)
Theorem close_final p (err : option http_err) :
  state p <> stateClose ->
  let q := CloseAndClean p err in
  state q = stateClose /\ processor q = ProcClose (processor p) err /\
  closeCalls q = closeCalls p ++ (if onClose p then [err] else []) /\
  (forall data, Parse q data = PRet q (Some ErrClosed)) /\
  (forall err', CloseAndClean q err' = q).
Proof.
  intros Ho q. assert (state q = stateClose) as Hq.
  { unfold q, CloseAndClean. destruct (state p) eqn:E; try done; by destruct (onClose _). }
  split; [done|]. split_and!.
  - unfold q, CloseAndClean. destruct (state p); try done; simpl; by destruct (onClose p).
  - unfold q, CloseAndClean.
    destruct (state p); try done; simpl; destruct (onClose p); simpl; by rewrite ?app_nil_r.
  - intros data. by apply Parse_closed.
  - intros err'. unfold CloseAndClean at 1. by rewrite Hq.
Qed.
End claims.

Lemma parse_split_independent_witness :
  result_equiv (feed (new_server 0) [sample_upgrade])
    (feed (new_server 0) (map (fun c => [c]) sample_upgrade)).
Proof.
  apply (parse_split_independent (new_server 0) [sample_upgrade]
    (map (fun c => [c]) sample_upgrade)).
  - apply NewParser_wf.
  - discriminate.
  - discriminate.
  - reflexivity.
  - split_and!; [left; reflexivity|vm_compute; discriminate|intros cl; discriminate].
Defined.

Lemma Parse_total_witness :
  exists q e, Parse (new_server 0) sample_upgrade = PRet q e /\
    (e = None -> wf q /\ state q <> stateClose).
Proof. apply (Parse_total (new_server 0) sample_upgrade). apply NewParser_wf. Defined.

Definition sample_requests : list request :=
  [ MkRequest (str "POST") (str "/a") (str "HTTP/1.1") [(str "host", str "h b")] (Fixed (str "hello"));
    MkRequest (str "PUT") (str "/b?c=d") (str "HTTP/1.1") [] (Chunks [str "0123456789abcdefX"; str "y"]);
    MkRequest (str "GET") (str "/") (str "HTTP/1.0") [(str "x-y", str "z")] NoBody ].

Lemma requests_delivered_witness :
  exists q, feed (new_server 1000) (map (fun c => [c]) (concat (map encode_request sample_requests)))
      = PRet q None /\
    processor q = default [] (deliver_all (C := bytes) [] sample_requests) /\
    state q = stateMethodBefore /\ bytesCached q = None.
Proof.
  apply (requests_delivered [] _ 1000 sample_requests); try reflexivity.
  - discriminate.
  - right. vm_compute. discriminate.
  - vm_compute. discriminate.
Defined.

Lemma cached_bounded_witness :
  exists q, Parse (new_server 4) (str "GET /abc") = PRet q None /\ cached q = str "/abc" /\
    len (cached q) <= Z.max 4 (len (str "GET /abc")).
Proof.
  eexists. split; [reflexivity|]. split; [reflexivity|].
  apply (cached_bounded (new_server 4) (str "GET /abc")); try reflexivity.
  - apply NewParser_wf.
  - discriminate.
Defined.

(** Both framing headers in one request. *)
Definition both_headers : log_parser :=
  match Parse (new_server 0) (line "POST / HTTP/1.1" ++ line "Content-Length: 5" ++
                              line "Transfer-Encoding: chunked") with
  | PRet p _ => p
  | _ => new_server 0
  end.

Lemma framing_decided_witness :
  match step [CR] 0 0 CR both_headers with
  | Next _ _ q =>
      (chunked q = true <-> is_Some (hdr (header both_headers) !! transferEncodingHeader)) /\
      (chunked q = true -> contentLength q = -1) /\ -1 <= contentLength q < 2 ^ 62
  | Return _ e => e <> ErrUnexpectedContentLength
  | _ => False
  end.
Proof. apply (framing_decided [CR] 0 0 both_headers); reflexivity. Defined.

Lemma close_final_witness :
  let q := CloseAndClean (OnClose (new_server 0)) None in
  state q = stateClose /\ processor q = [EvClose] /\ closeCalls q = [None] /\
  (forall data, Parse q data = PRet q (Some ErrClosed)) /\
  (forall err', CloseAndClean q err' = q).
Proof. exact (close_final (OnClose (new_server 0)) None ltac:(discriminate)). Defined.

(** ** Behaviour that deviates from the protocol *)

(** A reason phrase of several words is reported up to its first space. *)
Lemma reason_phrase_truncated :
  log_of (Parse (new_client 0) (line "HTTP/1.1 404 Not Found" ++ line "Content-Length: 0" ++ crlf)) =
  Some ([EvProto (str "HTTP/1.1"); EvStatus 404 (str "Not"); EvHeader (str "Content-Length") (str "0");
         EvContentLength 0; EvComplete], None).
Proof. by vm_compute. Qed.

(** With an empty reason phrase the first header line is taken for it. *)
Lemma empty_reason_swallows_field :
  log_of (Parse (new_client 0) (line "HTTP/1.1 200 " ++ line "Content-Length: 2" ++ line "A: b" ++ crlf)) =
  Some ([EvProto (str "HTTP/1.1"); EvStatus 200 (str "Content-Length:"); EvHeader (str "A") (str "b");
         EvContentLength (-1); EvComplete], None).
Proof. by vm_compute. Qed.

Definition chunked_head (trailer : String.string) : bytes :=
  line "POST / HTTP/1.1" ++ line "Transfer-Encoding: chunked" ++ line trailer ++ crlf ++ line "0".

(** A trailer value is reported up to its first space. *)
Lemma trailer_value_truncated :
  last <$> (fst <$> log_of (Parse (new_server 0)
    (chunked_head "Trailer: X-A" ++ line "X-A: hello world"))) =
  Some (Some (EvTrailer (str "X-A") (str "hello"))).
Proof. by vm_compute. Qed.

(** An announced trailer with an empty value is never counted as received. *)
Lemma empty_trailer_rejected :
  snd <$> log_of (Parse (new_server 0) (chunked_head "Trailer: X-A" ++ line "X-A:" ++ crlf)) =
  Some (Some ErrTrailerExpected).
Proof. by vm_compute. Qed.

(** The target of a [CONNECT] request (an authority) is rejected, although
    [CONNECT] is one of the known methods. *)
Lemma connect_target_rejected :
  snd <$> log_of (Parse (new_server 0) (line "CONNECT example.com:443 HTTP/1.1" ++ crlf)) =
  Some (Some ErrInvalidRequestURI).
Proof. by vm_compute. Qed.

(** The space after the colon becomes the value of an empty field. *)
Lemma empty_field_value_is_space :
  log_of (Parse (new_server 0) (line "GET / HTTP/1.1" ++ line "A: ")) =
  Some ([EvMethod (str "GET"); EvURL (str "/"); EvProto (str "HTTP/1.1"); EvHeader (str "A") [SP]], None).
Proof. by vm_compute. Qed.
