(* ===== verification/ParserResponse.v ===== *)
(** * The wire form of a response and what a client's parser makes of it

    The counterpart of [ParserMessage] for a client: the status line, fields in
    any order around the one that announces the body, and the body. *)

From Stdlib Require Import ZArith Lia.
From Stdlib Require Import Strings.Byte Strings.String.
From stdpp Require Import base numbers list list_numbers gmap.
From S2P Require Import Prelude GoLib Table Parser ParserFacts ParserSplit ParserRun ParserMessage.

Open Scope Z_scope.
Open Scope byte_cmp_scope.

(** ** Responses *)

Record response := MkResponse {
  s_proto : bytes;
  s_code : Z;
  s_text : bytes;
  s_before : list (bytes * bytes);
  s_body : framing;
  s_after : list (bytes * bytes)
}.

Definition response_fields (r : response) : list (bytes * bytes) :=
  s_before r ++ framing_fields (s_body r) ++ s_after r.

Definition encode_response (r : response) : bytes :=
  s_proto r ++ [SP] ++ FormatUint (s_code r) 10 ++ [SP] ++ s_text r ++ crlf ++
  concat (map encode_field (response_fields r)) ++ crlf ++ encode_body (s_body r).

(** What the parser reports of a status text: its first word. *)
Fixpoint first_word (s : bytes) : bytes :=
  match s with
  | c :: s => if c =b SP then [] else c :: first_word s
  | [] => []
  end.

Definition response_ok (r : response) : bool :=
  match s_proto r with c :: _ => c =b "H" | [] => false end &&
  forallb (fun c => negb (c =b SP)) (s_proto r) &&
  (0 <=? s_code r) && (s_code r <? 2 ^ 62) &&
  match s_text r with c :: _ => isAlpha c | [] => false end &&
  forallb (fun c => negb (c =b CR)) (s_text r) &&
  forallb field_ok (s_before r) && forallb field_ok (s_after r) && framing_ok (s_body r).

#[local] Arguments ToUpper : simpl never.
#[local] Arguments CanonicalHeaderKey : simpl never.

Section responses.
Context {P C : Type} `{!Processor P C} `{!ParserCloser C}.

(** The callbacks for one response. *)
Definition deliver_response (pr : P) (r : response) : option P :=
  pr ← ok_step (OnProto pr (s_proto r));
  let pr := OnStatus pr (s_code r) (first_word (s_text r)) in
  let pr := deliver_fields pr (response_fields r) in
  pr ← deliver_body pr (s_body r);
  match OnComplete pr with
  | (pr, None) => Some pr
  | _ => None
  end.

Fixpoint deliver_responses (pr : P) (rs : list response) : option P :=
  match rs with
  | [] => Some pr
  | r :: rs => deliver_response pr r ≫= fun pr => deliver_responses pr rs
  end.

Context (limit : Z) (oc : bool) (cc : list (option http_err)) (dc : nat).

Abbreviation cfg := (cfg (P := P) (C := C) limit oc cc dc true).
Abbreviation idle := (idle (P := P) (C := C) limit oc cc dc true).

(** A client's parser in its status line. *)
Definition sl (st : pstate) (tok : bytes) (pr : P) (code : Z) (stt : bytes) (cl cs : Z) : parser P C :=
  MkParser (cache tok) None pr [] code stt [] [] None None cl cs st false true false false limit oc cc dc.

Lemma cached_sl st tok pr code stt cl cs : cached (sl st tok pr code stt cl cs) = tok.
Proof. by destruct tok. Qed.

Lemma run_sl st tok pr code stt cl cs c bs q :
  push (sl st tok pr code stt cl cs) c = PRet q None -> run (sl st tok pr code stt cl cs) (c :: bs) = run q bs.
Proof. intros H. simpl. by rewrite H. Qed.

Lemma rest_all (tok : bytes) c : rest_cache (tok ++ [c]) 0 = Some (tok ++ [c]).
Proof. unfold rest_cache. change (Z.to_nat 0) with 0%nat. rewrite drop_0. by destruct tok. Qed.

Lemma rest_last (tok : bytes) c : rest_cache (tok ++ [c]) (len tok) = Some [c].
Proof. unfold rest_cache. unfold len. by rewrite Nat2Z.id, drop_app_length. Qed.

Lemma cache_some (tok : bytes) c : cache (tok ++ [c]) = Some (tok ++ [c]).
Proof. by destruct tok. Qed.

Ltac sl_step :=
  unfold push; rewrite !cached_sl; unfold step; simpl; unfold step_status_line, step_header; simpl;
  unfold token_or; simpl.

(** Bytes that only extend the token. *)
Lemma sl_scan st pr code stt cl cs tok bs :
  (forall tok c, c ∈ bs -> push (sl st tok pr code stt cl cs) c = PRet (sl st (tok ++ [c]) pr code stt cl cs) None) ->
  run (sl st tok pr code stt cl cs) bs = PRet (sl st (tok ++ bs) pr code stt cl cs) None.
Proof.
  revert tok. induction bs as [|c bs IH]; intros tok H; simpl; [by rewrite app_nil_r|].
  rewrite H by set_solver. rewrite IH by set_solver. by rewrite <- app_assoc.
Qed.

(** The version. *)
Lemma run_client_proto pr pr' cl cs v :
  match v with c :: _ => c =b "H" | [] => false end = true -> Forall (fun c => (c =b SP) = false) v ->
  OnProto pr v = (pr', None) ->
  run (idle pr cl cs) (v ++ [SP]) = PRet (sl stateStatusCodeBefore (v ++ [SP]) pr' 0 [] cl cs) None.
Proof.
  intros Hc Hv Hp. destruct v as [|c v]; [done|]. apply beqb_eq in Hc as ->. apply Forall_cons in Hv as [_ Hv].
  change (idle pr cl cs) with (sl stateClientProtoBefore [] pr 0 [] cl cs). rewrite <- app_comm_cons.
  rewrite (run_sl _ _ _ _ _ _ _ _ _ (sl stateClientProto [x48] pr 0 [] cl cs)) by done.
  rewrite run_app, sl_scan.
  - change ([x48] ++ v) with (x48 :: v). remember (x48 :: v) as w. simpl.
    sl_step. rewrite slice_tok. simpl. rewrite Hp. simpl. unfold sl. rewrite rest_all. by subst w.
  - intros tok d Hd. rewrite Forall_forall in Hv. sl_step. rewrite (Hv d Hd). unfold sl. rewrite rest_all. by destruct tok.
Qed.

Lemma num_digits n : Forall (fun c => isNum c = true /\ (c =b SP) = false) (FormatUint n 10).
Proof.
  eapply Forall_impl.
  - apply (digits_Forall (fun c => isNum c && negb (c =b SP))); [lia|by vm_compute].
  - intros c Hc. simpl in Hc. bool_hyp. done.
Qed.

(** The code. *)
Lemma run_code tok pr cl cs n :
  0 <= n < 2 ^ 62 ->
  run (sl stateStatusCodeBefore tok pr 0 [] cl cs) (FormatUint n 10 ++ [SP]) =
  PRet (sl stateStatusBefore (FormatUint n 10 ++ [SP]) pr n [] cl cs) None.
Proof.
  intros Hn. pose proof (num_digits n) as HF. assert (Atoi (FormatUint n 10) = Some n) as Ha.
  { unfold Atoi. apply ParseInt_FormatUint; lia. }
  destruct (FormatUint_cons n 10) as (c & r & E). rewrite E in *. apply Forall_cons in HF as [[Hc1 Hc2] HF].
  rewrite <- app_comm_cons. rewrite (run_sl _ _ _ _ _ _ _ _ _ (sl stateStatusCode [c] pr 0 [] cl cs)).
  2:{ sl_step. rewrite Hc1, Hc2. by rewrite rest_last. }
  rewrite run_app, sl_scan.
  - change ([c] ++ r) with (c :: r). remember (c :: r) as w. simpl.
    sl_step. rewrite slice_tok, Ha. simpl. unfold sl. rewrite rest_all. by subst w.
  - intros t d Hd. rewrite Forall_forall in HF. destruct (HF d Hd) as [H1 H2]. sl_step. rewrite H1, H2. simpl.
    unfold sl. rewrite rest_all. by destruct t.
Qed.

(** The text: its first word is kept once a space has been seen. *)
Definition word (s : bytes) : bytes := if existsb (fun c => c =b SP) s then first_word s else [].

Lemma first_word_app s t : existsb (fun c => c =b SP) s = true -> first_word (s ++ t) = first_word s.
Proof. induction s as [|c s IH]; cbn; [done|]. destruct (c =b SP); cbn; [done|]. intros H. by rewrite IH. Qed.

Lemma first_word_all s t : existsb (fun c => c =b SP) s = false -> first_word (s ++ t) = s ++ first_word t.
Proof. induction s as [|c s IH]; cbn; [done|]. destruct (c =b SP); cbn; [done|]. intros H. by rewrite IH. Qed.

Lemma first_word_id s : existsb (fun c => c =b SP) s = false -> first_word s = s.
Proof. intros H. pose proof (first_word_all s [] H) as E. cbn in E. by rewrite !app_nil_r in E. Qed.

Lemma word_space s : word (s ++ [SP]) = first_word s.
Proof.
  unfold word. rewrite existsb_app. change (existsb (fun c => c =b SP) [SP]) with true. rewrite orb_true_r.
  destruct (existsb (fun c => c =b SP) s) eqn:E; [by apply first_word_app|].
  rewrite first_word_all, (first_word_id s) by done. apply app_nil_r.
Qed.

Lemma word_char s d : (d =b SP) = false -> word (s ++ [d]) = word s.
Proof.
  intros Hd. unfold word. rewrite existsb_app. cbn [existsb]. rewrite Hd, !orb_false_r.
  destruct (existsb (fun c => c =b SP) s) eqn:E; [by apply first_word_app|done].
Qed.

Lemma first_word_alpha c s : isAlpha c = true -> exists w, first_word (c :: s) = c :: w.
Proof. intros Hc. cbn. rewrite (alpha_not_sp c Hc). by eexists. Qed.

(** Completing the word at a space or at the end. *)
Lemma word_token c tok d :
  isAlpha c = true ->
  token_or id (word (c :: tok)) ((c :: tok) ++ [d]) 0 (len (c :: tok)) = Some (first_word (c :: tok)).
Proof.
  intros Hc. unfold word. destruct (existsb _ (c :: tok)) eqn:E.
  - destruct (first_word_alpha c tok Hc) as [w ->]. done.
  - unfold token_or. rewrite slice_tok. cbn [fmap option_fmap option_map id].
    by rewrite first_word_id.
Qed.

Lemma run_words pr n cl cs c : isAlpha c = true -> forall bs tok,
  Forall (fun d => (d =b CR) = false) bs ->
  run (sl stateStatus (c :: tok) pr n (word (c :: tok)) cl cs) bs =
  PRet (sl stateStatus (c :: tok ++ bs) pr n (word (c :: tok ++ bs)) cl cs) None.
Proof.
  intros Hc bs. induction bs as [|d bs IH]; intros tok HF; [by rewrite app_nil_r|]. apply Forall_cons in HF as [Hd HF].
  rewrite (run_sl _ _ _ _ _ _ _ _ _ (sl stateStatus (c :: tok ++ [d]) pr n (word (c :: tok ++ [d])) cl cs)).
  - rewrite IH by done. by rewrite <- app_assoc.
  - unfold push. rewrite !cached_sl. unfold step. cbn [state erase set_bytesCached sl]. unfold step_status_line.
    cbn [state erase set_bytesCached sl status]. destruct (d =b SP) eqn:Es.
    + rewrite word_token by done. apply beqb_eq in Es as ->. rewrite rest_all.
      change (c :: tok ++ [SP]) with ((c :: tok) ++ [SP]). by rewrite word_space.
    + rewrite Hd, rest_all. change (c :: tok ++ [d]) with ((c :: tok) ++ [d]). by rewrite word_char.
Qed.

Lemma run_text tok pr cl cs n t :
  match t with c :: _ => isAlpha c | [] => false end = true -> Forall (fun d => (d =b CR) = false) t ->
  run (sl stateStatusBefore tok pr n [] cl cs) (t ++ crlf) =
  PRet (cfg stateHeaderKeyBefore (t ++ crlf) (OnStatus pr n (first_word t)) [] None cl cs false false) None.
Proof.
  intros Hc HF. destruct t as [|c t]; [done|]. apply Forall_cons in HF as [_ HF]. rewrite <- app_comm_cons.
  rewrite (run_sl _ _ _ _ _ _ _ _ _ (sl stateStatus [c] pr n (word [c]) cl cs)).
  2:{ sl_step. rewrite (alpha_not_sp c Hc), Hc, rest_last. unfold word. cbn [existsb]. by rewrite (alpha_not_sp c Hc). }
  rewrite run_app, run_words by done. unfold crlf.
  rewrite (run_sl _ _ _ _ _ _ _ _ _ (sl stateStatusLF (c :: t ++ [CR]) (OnStatus pr n (first_word (c :: t))) 0 [] cl cs)).
  - cbn [run]. unfold push. rewrite !cached_sl. unfold step. cbn [state erase set_bytesCached sl parserCloser]. unfold step_header.
    cbn [state erase set_bytesCached sl]. change (LF =b LF) with true. cbv iota. rewrite rest_all. cbn [app]. by rewrite <- app_assoc.
  - unfold push. rewrite !cached_sl. unfold step. cbn [state erase set_bytesCached sl]. unfold step_status_line.
    cbn [state erase set_bytesCached sl status statusCode processor]. change (CR =b SP) with false. change (CR =b CR) with true. cbv iota.
    change (c :: [] ++ t) with (c :: t). rewrite word_token by done. rewrite rest_all. done.
Qed.

(** The rest of the status line does not matter for the header. *)
Lemma rest_none (tok : bytes) c : rest_cache (tok ++ [c]) (len tok + 1) = None.
Proof. rewrite rest_cache_cfg, drop_all_tok. done. Qed.

Lemma header_forgets tok pr cl cs he c bs :
  isToken c = true \/ c = CR ->
  run (cfg stateHeaderKeyBefore tok pr [] None cl cs false he) (c :: bs) =
  run (cfg stateHeaderKeyBefore [] pr [] None cl cs false he) (c :: bs).
Proof.
  intros Hc. cbn [run]. change (parserCloser (cfg stateHeaderKeyBefore tok pr [] None cl cs false he)) with (@None C).
  change (parserCloser (cfg stateHeaderKeyBefore [] pr [] None cl cs false he)) with (@None C). cbv iota.
  assert (push (cfg stateHeaderKeyBefore tok pr [] None cl cs false he) c =
    push (cfg stateHeaderKeyBefore [] pr [] None cl cs false he) c) as ->; [|done].
  unfold push. rewrite !cached_cfg.
  change (erase (cfg stateHeaderKeyBefore tok pr [] None cl cs false he))
    with (erase (cfg stateHeaderKeyBefore [] pr [] None cl cs false he)).
  unfold step. cbn [state erase set_bytesCached ParserMessage.cfg]. unfold step_header.
  cbn [state erase set_bytesCached ParserMessage.cfg]. destruct Hc as [Hc| ->].
  - destruct (token_not_sep c Hc) as (H1 & H2 & H3 & _). rewrite H1, H2, H3, Hc, rest_last. done.
  - change (CR =b SP) with false. change (CR =b CR) with true. cbv iota.
    destruct (parseTransferEncoding _) as [p1 [e|]]; [done|]. destruct (parseContentLength p1) as [p2 [e|]]; [done|].
    cbv zeta. destruct (parseTrailer _) as [p3 [e|]]; [done|]. by rewrite rest_none.
Qed.

Lemma fields_forget tok pr cl cs he fs rest :
  Forall scannable fs ->
  run (cfg stateHeaderKeyBefore tok pr [] None cl cs false he) (concat (map encode_field fs) ++ crlf ++ rest) =
  run (cfg stateHeaderKeyBefore [] pr [] None cl cs false he) (concat (map encode_field fs) ++ crlf ++ rest).
Proof.
  destruct 1 as [|kv fs [Hk Hne _ _] _]; cbn [map concat app].
  - apply header_forgets. by right.
  - unfold encode_field at 1 3. destruct (kv.1) as [|c k]; [done|]. cbn [app]. apply header_forgets. left.
    by apply Forall_cons in Hk as [? _].
Qed.

(** The announcing field among others. *)
Lemma fields_around fs gs f :
  forallb field_ok fs = true -> forallb field_ok gs = true ->
  Forall scannable (fs ++ framing_fields f ++ gs) /\
  foldl add_framing None (fs ++ framing_fields f ++ gs) = foldl add_framing None (fs ++ framing_fields f).
Proof.
  intros Hf Hg. destruct (fields_framing fs f Hf) as [Hs _].
  assert (Forall scannable gs /\ forall hd, foldl add_framing hd gs = hd) as [Hsg Hkeep].
  { induction gs as [|kv gs IH]; [done|]. cbn [forallb] in Hg. bool_hyp. destruct (field_ok_scannable kv) as [H1 H2]; [done|].
    destruct IH as [H3 H4]; [done|]. split; [by constructor|]. intros hd. cbn [foldl]. by rewrite H2. }
  rewrite app_assoc. split; [by apply Forall_app|]. by rewrite foldl_app, Hkeep.
Qed.

Lemma run_response pr pr' cl cs r :
  response_ok r = true -> deliver_response pr r = Some pr' ->
  exists cl' cs', run (idle pr cl cs) (encode_response r) = PRet (idle pr' cl' cs') None.
Proof.
  intros Hok Hd. unfold response_ok in Hok. bool_hyp. unfold deliver_response in Hd.
  destruct (OnProto _ _) as [p1 [?|]] eqn:E1; [done|]. cbn [ok_step mbind option_bind] in Hd.
  destruct (deliver_body _ _) as [p3|] eqn:E3; [|done]. cbn [mbind option_bind] in Hd.
  destruct (OnComplete p3) as [p4 [?|]] eqn:E4; [done|]. injection Hd as ->.
  assert (forall (f : byte -> bool) l, forallb (fun c => negb (f c)) l = true -> Forall (fun c => f c = false) l) as Hall.
  { intros f l Hl. apply Forall_forall. intros c Hc%list_elem_of_In. rewrite forallb_forall in Hl.
    by apply negb_true_iff, Hl. }
  unfold encode_response. rewrite app_assoc, run_app, (run_client_proto pr p1) by (done || by apply Hall).
  rewrite app_assoc, run_app, run_code by lia.
  rewrite app_assoc, run_app, run_text by (done || by apply Hall).
  destruct (fields_around (s_before r) (s_after r) (s_body r)) as [Hs Hh]; [done..|].
  rewrite fields_forget by done.
  destruct (fields_framing (s_before r) (s_body r)) as [_ Hh']; [done|].
  destruct (run_fields limit oc cc dc true (OnStatus p1 (s_code r) (first_word (s_text r))) None cl cs false _ Hs) as [he Hf].
  rewrite run_app. unfold response_fields in *. rewrite Hf, Hh, Hh'. by eapply run_body.
Qed.

Lemma run_responses pr pr' cl cs rs :
  forallb response_ok rs = true -> deliver_responses pr rs = Some pr' ->
  exists cl' cs', run (idle pr cl cs) (concat (map encode_response rs)) = PRet (idle pr' cl' cs') None.
Proof.
  revert pr cl cs. induction rs as [|r rs IH]; intros pr cl cs Hok Hd; cbn [map concat forallb deliver_responses] in *.
  { injection Hd as ->. eauto. }
  bool_hyp. destruct (deliver_response pr r) as [p1|] eqn:E; [|done]. cbn [mbind option_bind] in Hd.
  destruct (run_response pr p1 cl cs r) as (cl1 & cs1 & Hr); [done..|].
  rewrite run_app, Hr. by apply IH.
Qed.
End responses.

(** A client's parser fed with the wire form of responses, in any pieces. *)
Lemma feed_responses {P C : Type} `{!Processor P C} `{!ParserCloser C} `{!ParserCloserLaws C} `{!ProcessorLaws P C}
    (limit : Z) (pr pr' : P) (rs : list response) (ds : list bytes) :
  forallb response_ok rs = true -> deliver_responses (C := C) pr rs = Some pr' ->
  ds <> [] -> concat ds = concat (map encode_response rs) ->
  limit <= 0 \/ len (concat ds) <= limit -> len (concat ds) <= stream_bound ->
  exists cl cs, feed (NewParser pr true limit) ds = PRet (idle (C := C) limit false [] 0 true pr' cl cs) None.
Proof.
  intros Hok Hd Hne Hds Hlim Hsb. destruct (run_responses limit false [] 0 pr pr' 0 0 rs Hok Hd) as (cl & cs & Hr).
  exists cl, cs. apply feed_run; [by rewrite Hds|done..].
Qed.
