(* ===== verification/WsMask.v ===== *)
(** * Masking of WebSocket payloads

    [maskXOR] of [src/nbhttp/websocket/conn.go]: the payload is combined with
    the four-byte key in blocks of 64 bytes, then of 8, then byte by byte.  It
    computes the bytewise definition of RFC 6455 and undoes itself. *)

From Stdlib Require Import ZArith Lia.
From Stdlib Require Import Strings.Byte.
From stdpp Require Import base numbers list list_numbers.
From S2P Require Import Prelude GoLib.

Open Scope Z_scope.

(** ** The code *)

(** [binary.LittleEndian.PutUint64(w, binary.LittleEndian.Uint64(w) ^ key64)]:
    the first eight bytes of [w], changed. *)
Definition xor64 (key64 : Z) (w : bytes) : bytes :=
  le_put 8 (Z.lxor (le_get (take 8 w)) key64).

(** The unrolled body of the loop on 64-byte blocks. *)
Definition xor_block (key64 : Z) (b : bytes) : bytes :=
  xor64 key64 b ++ xor64 key64 (drop 8 b) ++ xor64 key64 (drop 16 b) ++ xor64 key64 (drop 24 b) ++
  xor64 key64 (drop 32 b) ++ xor64 key64 (drop 40 b) ++ xor64 key64 (drop 48 b) ++
  xor64 key64 (drop 56 b).

(** [for len(b) >= 64 { ... b = b\[64:\] }]: the changed bytes and what is left. *)
Fixpoint loop64 (fuel : nat) (key64 : Z) (b : bytes) : bytes * bytes :=
  match fuel with
  | O => ([], b)
  | S fuel =>
      if 64 <=? len b then
        let '(o, r) := loop64 fuel key64 (drop 64 b) in (xor_block key64 b ++ o, r)
      else ([], b)
  end.

(** [for len(b) >= 8 { ... b = b\[8:\] }] *)
Fixpoint loop8 (fuel : nat) (key64 : Z) (b : bytes) : bytes * bytes :=
  match fuel with
  | O => ([], b)
  | S fuel =>
      if 8 <=? len b then
        let '(o, r) := loop8 fuel key64 (drop 8 b) in (xor64 key64 b ++ o, r)
      else ([], b)
  end.

(** [key\[idx\]]; the callers pass four bytes. *)
Definition key_byte (key : bytes) (idx : Z) : byte := default x00 (key !! Z.to_nat idx).

(** The last loop, from index [i]. *)
Fixpoint loop1 (key : bytes) (i : Z) (b : bytes) : bytes :=
  match b with
  | [] => []
  | c :: r => bxor c (key_byte key (Z.land i 3)) :: loop1 key (i + 1) r
  end.

Definition maskXOR (b key : bytes) : bytes :=
  let key64 := le_get key in
  let key64 := Z.lor key64 (wrap_u 64 (Z.shiftl key64 32)) in
  let '(o1, b) := loop64 (length b) key64 b in
  let '(o2, b) := loop8 (length b) key64 b in
  o1 ++ o2 ++ loop1 key 0 b.

(** ** The definition of the RFC

    Byte [i] of the payload is combined with byte [i mod 4] of the key. *)

Definition mask_ref (key : bytes) (b : bytes) : bytes :=
  imap (fun i c => bxor c (key_byte key (Z.of_nat i mod 4))) b.

(** ** Proofs *)

(** A payload split at a multiple of four is masked part by part. *)
Lemma mask_ref_app key a b :
  (length a mod 4 = 0)%nat -> mask_ref key (a ++ b) = mask_ref key a ++ mask_ref key b.
Proof.
  intros Ha. unfold mask_ref. rewrite imap_app. f_equal. apply imap_ext.
  intros i c _. simpl. do 2 f_equal. rewrite Nat2Z.inj_add.
  assert (Z.of_nat (length a) mod 4 = 0) as Hz
    by (change 4 with (Z.of_nat 4); rewrite <- Nat2Z.inj_mod; lia).
  rewrite <- Z.add_mod_idemp_l, Hz by lia. done.
Qed.

Lemma mask_ref_eight key w :
  length key = 4%nat -> length w = 8%nat -> zip_with bxor w (key ++ key) = mask_ref key w.
Proof.
  intros Hk Hw.
  destruct key as [|k0 [|k1 [|k2 [|k3 []]]]]; try done.
  destruct w as [|w0 [|w1 [|w2 [|w3 [|w4 [|w5 [|w6 [|w7 []]]]]]]]]; try done.
Qed.

Section masking.
Context (key : bytes) (Hkey : length key = 4%nat).

(** The doubled key as the code computes it. *)
Definition key64 : Z := Z.lor (le_get key) (wrap_u 64 (Z.shiftl (le_get key) 32)).

Lemma key64_get : key64 = le_get (key ++ key).
Proof.
  pose proof (le_get_range key) as Hr. unfold len in Hr. rewrite Hkey in Hr.
  change (256 ^ Z.of_nat 4) with (2 ^ 32) in Hr.
  unfold key64, wrap_u. rewrite Z.shiftl_mul_pow2 by lia. rewrite Z.mod_small by nia.
  rewrite <- Z.shiftl_mul_pow2 by lia.
  assert (Z.land (le_get key) (Z.shiftl (le_get key) 32) = 0) as Hz.
  { apply Z.bits_inj'. intros n Hn. rewrite Z.land_spec, Z.bits_0.
    destruct (Z.lt_ge_cases n 32).
    - rewrite Z.shiftl_spec_low by lia. by rewrite andb_false_r.
    - rewrite <- (Z.mod_small (le_get key) (2 ^ 32)) at 1 by lia.
      by rewrite Z.mod_pow2_bits_high by lia. }
  rewrite <- Z.lxor_lor, <- Z.add_nocarry_lxor by done.
  rewrite Z.shiftl_mul_pow2 by lia. clear Hr Hz.
  destruct key as [|k0 [|k1 [|k2 [|k3 []]]]]; try done.
  cbn [app le_get]. lia.
Qed.

Lemma xor64_ref w : (8 <= length w)%nat -> xor64 key64 w = mask_ref key (take 8 w).
Proof.
  intros Hw. unfold xor64. rewrite key64_get, le_put_lxor.
  assert (length (take 8 w) = 8%nat) as Hl by (rewrite length_take; lia).
  rewrite <- Hl at 1. rewrite le_put_get.
  replace 8%nat with (length (key ++ key)) at 2 by (rewrite length_app; lia).
  rewrite le_put_get. by apply mask_ref_eight.
Qed.

Lemma xor_block_ref b : (64 <= length b)%nat -> xor_block key64 b = mask_ref key (take 64 b).
Proof.
  intros Hb. unfold xor_block. rewrite !xor64_ref by (rewrite ?length_drop; lia).
  rewrite <- !mask_ref_app by (rewrite length_take, ?length_drop; by rewrite Nat.min_l by lia).
  f_equal.
  assert (forall n m, take n b ++ take m (drop n b) = take (n + m) b) as H
    by (intros; by rewrite take_take_drop).
  by rewrite !app_assoc, !H.
Qed.

(** A loop that consumes blocks of [n] bytes leaves the masked prefix. *)
Definition loop_ok (o r b : bytes) : Prop :=
  exists n, (n mod 4 = 0)%nat /\ (n <= length b)%nat /\ o = mask_ref key (take n b) /\ r = drop n b.

Lemma loop_ok_step w n o r b :
  (n mod 4 = 0)%nat -> (n <= length b)%nat ->
  w = mask_ref key (take n b) -> loop_ok o r (drop n b) -> loop_ok (w ++ o) r b.
Proof.
  intros Hn Hb -> (m & Hm & Hl & -> & ->). exists (n + m)%nat. rewrite length_drop in Hl.
  split; [rewrite <- Nat.Div0.add_mod_idemp_l, Hn; done|]. split; [lia|].
  rewrite drop_drop. split; [|done].
  rewrite <- mask_ref_app by (by rewrite length_take, Nat.min_l by lia).
  by rewrite take_take_drop.
Qed.

Lemma loop64_ok fuel b : let '(o, r) := loop64 fuel key64 b in loop_ok o r b.
Proof.
  revert b. induction fuel as [|fuel IH]; intros b; cbn [loop64 loop8].
  { exists 0%nat. split_and!; [done|lia|by rewrite take_0|by rewrite drop_0]. }
  destruct (Z.leb_spec 64 (len b)) as [H|H].
  - unfold len in H. specialize (IH (drop 64 b)). destruct (loop64 fuel key64 (drop 64 b)) as [o r].
    apply (loop_ok_step _ 64); [done|lia| |done]. apply xor_block_ref. lia.
  - exists 0%nat. split_and!; [done|lia|by rewrite take_0|by rewrite drop_0].
Qed.

Lemma loop8_ok fuel b : let '(o, r) := loop8 fuel key64 b in loop_ok o r b.
Proof.
  revert b. induction fuel as [|fuel IH]; intros b; cbn [loop64 loop8].
  { exists 0%nat. split_and!; [done|lia|by rewrite take_0|by rewrite drop_0]. }
  destruct (Z.leb_spec 8 (len b)) as [H|H].
  - unfold len in H. specialize (IH (drop 8 b)). destruct (loop8 fuel key64 (drop 8 b)) as [o r].
    apply (loop_ok_step _ 8); [done|lia| |done]. apply xor64_ref. lia.
  - exists 0%nat. split_and!; [done|lia|by rewrite take_0|by rewrite drop_0].
Qed.

Lemma loop1_ref i b :
  0 <= i -> loop1 key i b = imap (fun j c => bxor c (key_byte key ((i + Z.of_nat j) mod 4))) b.
Proof.
  revert i. induction b as [|c b IH]; intros i Hi; [done|]. simpl.
  rewrite Z.add_0_r, IH by lia. f_equal.
  - do 2 f_equal. change 3 with (Z.ones 2). by rewrite Z.land_ones by lia.
  - apply imap_ext. intros j d _. simpl. do 3 f_equal. lia.
Qed.

Lemma maskXOR_ref b : maskXOR b key = mask_ref key b.
Proof.
  unfold maskXOR. cbv zeta. change (Z.lor _ _) with key64.
  pose proof (loop64_ok (length b) b) as H1. destruct (loop64 _ _ b) as [o1 b1].
  destruct H1 as (n & Hn & Hl & -> & ->).
  pose proof (loop8_ok (length (drop n b)) (drop n b)) as H2. destruct (loop8 _ _ _) as [o2 b2].
  destruct H2 as (m & Hm & Hl2 & -> & ->).
  rewrite (loop1_ref 0 (drop m (drop n b)) ltac:(lia) : _ = mask_ref key _).
  rewrite length_drop in Hl2.
  rewrite <- mask_ref_app by (rewrite length_take, length_drop; by rewrite Nat.min_l by lia).
  rewrite take_drop, <- mask_ref_app by (rewrite length_take; by rewrite Nat.min_l by lia).
  by rewrite take_drop.
Qed.

Lemma length_maskXOR b : length (maskXOR b key) = length b.
Proof. rewrite maskXOR_ref. apply length_imap. Qed.

Lemma maskXOR_involutive b : maskXOR (maskXOR b key) key = b.
Proof.
  rewrite !maskXOR_ref. unfold mask_ref. apply list_eq. intros i.
  rewrite !list_lookup_imap. destruct (b !! i) as [c|]; [|done]. simpl.
  by rewrite bxor_nilpotent.
Qed.
End masking.
