(* ===== verification/WsConn.v ===== *)
(** * WebSocket connections

    [src/nbhttp/websocket/conn.go] with the errors of
    [src/nbhttp/websocket/error.go]: reading frames from the cached bytes
    ([nextFrame]), assembling messages ([Parse]), dispatching them
    ([handleWsMessage]), writing messages in frames ([WriteMessage],
    [writeFrame]), the queue of the asynchronous mode and closing.

    Handlers are opaque to the connection: [Parse] returns the calls it submits
    to the connection's executor, in order.  The inflating reader and the
    deflating writer (package [compress/flate] or user code), the UTF-8 check of
    the engine and the random mask keys are parameters. *)

From Stdlib Require Import ZArith Lia.
From Stdlib Require Import Strings.Byte Strings.String.
From stdpp Require Import base numbers list list_numbers.
From S2P Require Import Prelude GoLib WsMask.

Open Scope Z_scope.

(** ** Message types and errors *)

Definition FragmentMessage : Z := 0.
Definition TextMessage : Z := 1.
Definition BinaryMessage : Z := 2.
Definition CloseMessage : Z := 8.
Definition PingMessage : Z := 9.
Definition PongMessage : Z := 10.

Definition maxControlFramePayloadSize : Z := 125.
Definition maskBit : Z := Z.shiftl 1 7.

Inductive ws_err :=
| ErrWsClosed
| ErrWsTooLong
| ErrInvalidWriteCalling
| ErrReserveBitSet
| ErrReservedMessageType (opcode : Z)
| ErrControlMessageFragmented (opcode : Z)
| ErrControlMessageTooBig
| ErrFragmentsShouldNotHaveBinaryOrTextMessage
| ErrInvalidCloseCode
| ErrInvalidUtf8
| ErrInvalidFragmentMessage
| ErrMessageTooLarge
| ErrMessageSendQuqueIsFull
| ErrInvalidMessageType (opcode : Z)
| ErrFrameConsumed (total cached : Z)
| ErrParsePanic
| ErrDecompress
| ErrConnWrite
| CloseErrorPtr (code : Z) (reason : bytes)
| CloseErrorVal (code : Z) (reason : bytes).

#[export] Instance ws_err_eq_dec : EqDecision ws_err.
Proof. solve_decision. Defined.

(** [CloseCode] and [CloseReason]: [errors.As] with a target of type
    [CloseError] matches values of that type, not pointers to it. *)
Definition CloseCode (err : ws_err) : Z :=
  match err with
  | CloseErrorVal code _ => code
  | _ => -1
  end.

Definition CloseReason (err : ws_err) : bytes :=
  match err with
  | CloseErrorVal _ reason => reason
  | _ => []
  end.

Definition validCloseCode (code : Z) : bool :=
  if bool_decide (code ∈ [1000; 1001; 1002; 1003]) then true
  else if bool_decide (code ∈ [1004; 1005; 1006]) then false
  else if bool_decide (code ∈ [1007; 1008; 1009; 1010; 1011; 1015]) then true
  else if (3000 <=? code) && (code <? 5000) then true
  else false.

(** ** The connection *)

(** Settings of the engine, the upgrader and the handlers that are set. *)
Record ws_config := MkWsConfig {
  readLimit : Z;
  MessageLengthLimit : Z;
  MaxWebsocketFramePayloadSize : Z;
  hasMessageHandler : bool;
  hasDataFrameHandler : bool;
  keepalive : bool
}.

Record conn := MkConn {
  closed : bool;
  isClient : bool;
  enableCompression : bool;
  remoteCompressionEnabled : bool;
  enableWriteCompression : bool;
  expectingFragments : bool;
  compress : bool;
  msgType : Z;
  message : option bytes;
  bytesCached : option bytes;
  sendQueue : option (list (option bytes));
  sendQueueSize : Z;
  closeErr : option ws_err
}.

Definition set_closed (v : bool) (c : conn) : conn :=
  MkConn v (isClient c) (enableCompression c) (remoteCompressionEnabled c)
    (enableWriteCompression c) (expectingFragments c) (compress c) (msgType c) (message c)
    (bytesCached c) (sendQueue c) (sendQueueSize c) (closeErr c).
Definition set_enableWriteCompression (v : bool) (c : conn) : conn :=
  MkConn (closed c) (isClient c) (enableCompression c) (remoteCompressionEnabled c)
    v (expectingFragments c) (compress c) (msgType c) (message c)
    (bytesCached c) (sendQueue c) (sendQueueSize c) (closeErr c).
Definition set_expectingFragments (v : bool) (c : conn) : conn :=
  MkConn (closed c) (isClient c) (enableCompression c) (remoteCompressionEnabled c)
    (enableWriteCompression c) v (compress c) (msgType c) (message c)
    (bytesCached c) (sendQueue c) (sendQueueSize c) (closeErr c).
Definition set_compress (v : bool) (c : conn) : conn :=
  MkConn (closed c) (isClient c) (enableCompression c) (remoteCompressionEnabled c)
    (enableWriteCompression c) (expectingFragments c) v (msgType c) (message c)
    (bytesCached c) (sendQueue c) (sendQueueSize c) (closeErr c).
Definition set_msgType (v : Z) (c : conn) : conn :=
  MkConn (closed c) (isClient c) (enableCompression c) (remoteCompressionEnabled c)
    (enableWriteCompression c) (expectingFragments c) (compress c) v (message c)
    (bytesCached c) (sendQueue c) (sendQueueSize c) (closeErr c).
Definition set_message (v : option bytes) (c : conn) : conn :=
  MkConn (closed c) (isClient c) (enableCompression c) (remoteCompressionEnabled c)
    (enableWriteCompression c) (expectingFragments c) (compress c) (msgType c) v
    (bytesCached c) (sendQueue c) (sendQueueSize c) (closeErr c).
Definition set_bytesCached (v : option bytes) (c : conn) : conn :=
  MkConn (closed c) (isClient c) (enableCompression c) (remoteCompressionEnabled c)
    (enableWriteCompression c) (expectingFragments c) (compress c) (msgType c) (message c)
    v (sendQueue c) (sendQueueSize c) (closeErr c).
Definition set_sendQueue (v : option (list (option bytes))) (c : conn) : conn :=
  MkConn (closed c) (isClient c) (enableCompression c) (remoteCompressionEnabled c)
    (enableWriteCompression c) (expectingFragments c) (compress c) (msgType c) (message c)
    (bytesCached c) v (sendQueueSize c) (closeErr c).
Definition set_closeErr (v : option ws_err) (c : conn) : conn :=
  MkConn (closed c) (isClient c) (enableCompression c) (remoteCompressionEnabled c)
    (enableWriteCompression c) (expectingFragments c) (compress c) (msgType c) (message c)
    (bytesCached c) (sendQueue c) (sendQueueSize c) v.

(** [EnableWriteCompression] *)
Definition EnableWriteCompression (enable : bool) (c : conn) : conn :=
  if enable then
    if remoteCompressionEnabled c then set_enableWriteCompression enable c else c
  else set_enableWriteCompression enable c.

(** [newConn]; [asyncWrite] makes the empty send queue. *)
Definition newConn (enableComp remoteComp asyncWrite client : bool) (maxSize : Z) : conn :=
  EnableWriteCompression remoteComp
    (MkConn false client enableComp remoteComp false false false 0 None None
       (if asyncWrite then Some [] else None) (if asyncWrite then maxSize else 0) None).

(** [SetCloseError]: the first error is kept. *)
Definition SetCloseError (err : ws_err) (c : conn) : conn :=
  match closeErr c with
  | None => set_closeErr (Some err) c
  | Some _ => c
  end.

Section ws.
Context (cfg : ws_config).

(** ** Reading one frame *)

Definition isMessageTooLarge (n : Z) : bool :=
  if MessageLengthLimit cfg <=? 0 then false else MessageLengthLimit cfg <? n.

Definition validFrame (c : conn) (opcode : Z) (fin res1 res2 res3 expectFragments : bool) : option ws_err :=
  if res1 && negb (enableCompression c) then Some ErrReserveBitSet
  else if res2 || res3 then Some ErrReserveBitSet
  else if (BinaryMessage <? opcode) && (opcode <? CloseMessage) then Some (ErrReservedMessageType opcode)
  else if negb fin && (negb (opcode =? FragmentMessage) && negb (opcode =? TextMessage)
                       && negb (opcode =? BinaryMessage))
       then Some (ErrControlMessageFragmented opcode)
  else if expectFragments && ((opcode =? TextMessage) || (opcode =? BinaryMessage))
       then Some ErrFragmentsShouldNotHaveBinaryOrTextMessage
  else None.

(** What [nextFrame] returns: an error (with the cached bytes, which unmasking
    changes in place), no complete frame, a frame (consumed size, opcode, body,
    fin, first reserved bit), or a panic. *)
Inductive frame_result :=
| FErr (e : ws_err) (cache : option bytes)
| FWait
| FFrame (total opcode : Z) (body : bytes) (fin res1 : bool) (cache : bytes)
| FPanic.

(** The declared payload length and the length of the head before the mask;
    the length is -1 while its bytes have not arrived. *)
Definition frame_length (pdata : bytes) (payloadLen : Z) : option (Z * Z) :=
  let l := len pdata in
  if payloadLen =? 126 then
    if 4 <=? l then Some (be_get (take 2 (drop 2 pdata)), 4) else Some (-1, 2)
  else if payloadLen =? 127 then
    if 10 <=? l then
      let n := int64 (be_get (take 8 (drop 2 pdata))) in
      if n <? 0 then None else Some (n, 10)
    else Some (-1, 2)
  else Some (payloadLen, 2).

(** The part of [nextFrame] from [bodyLen >= 0] on. *)
Definition frame_body (c : conn) (pdata : bytes) (b0 b1 bodyLen headLen : Z) : frame_result :=
  let opcode := Z.land b0 15 in
  let masked := Z.testbit b1 7 in
  let headLen := if masked then headLen + 4 else headLen in
  let total := int64 (headLen + bodyLen) in
  if total <=? len pdata then
    match slice pdata headLen total with
    | None => FPanic
    | Some body =>
        let body := if masked
                    then maskXOR body (take 4 (drop (Z.to_nat (headLen - 4)) pdata)) else body in
        let cache := take (Z.to_nat headLen) pdata ++ body ++ drop (Z.to_nat total) pdata in
        match validFrame c opcode (Z.testbit b0 7) (Z.testbit b0 6) (Z.testbit b0 5)
                (Z.testbit b0 4) (expectingFragments c) with
        | Some e => FErr e (Some cache)
        | None => FFrame total opcode body (Z.testbit b0 7) (Z.testbit b0 6) cache
        end
    end
  else FWait.

Definition is_control (opcode : Z) : bool :=
  (opcode =? PingMessage) || (opcode =? PongMessage) || (opcode =? CloseMessage).

Definition nextFrame (c : conn) : frame_result :=
  match bytesCached c with
  | Some ((x0 :: x1 :: _) as pdata) =>
      let b0 := b2z x0 in
      let b1 := b2z x1 in
      let opcode := Z.land b0 15 in
      match frame_length pdata (Z.land b1 127) with
      | None => FErr ErrInvalidFragmentMessage (bytesCached c)
      | Some (bodyLen, headLen) =>
          let ml := len (default [] (message c)) in
          if isMessageTooLarge (int64 (ml + bodyLen)) then FErr ErrMessageTooLarge (bytesCached c)
          else if (maxControlFramePayloadSize <? bodyLen) && is_control opcode
               then FErr ErrControlMessageTooBig (bytesCached c)
          else if 0 <=? bodyLen then frame_body c pdata b0 b1 bodyLen headLen
          else FWait
      end
  | _ => FWait
  end.

(** ** Assembling messages *)

(** The calls [Parse] submits, in order. *)
Inductive call :=
| CMessage (opcode : Z) (body : bytes)
| CDataFrame (opcode : Z) (fin : bool) (body : bytes)
| CProtocol (opcode : Z) (body : option bytes)
| CWriteClose (code : Z) (reason : bytes).

(** An [io.Reader]: the portions its successive reads can yield, whether the
    end is an error other than [io.EOF], and whether the end is reported
    together with the last bytes or by a read of its own. *)
Record reader := MkReader {
  rd_chunks : list bytes;
  rd_failed : bool;
  rd_eager : bool
}.

(** The memory pool as far as capacities matter: the capacity of a buffer of a
    given size, and of a buffer grown to a given length. *)
Context (cap_malloc : Z -> Z) (cap_append : Z -> Z -> Z).

Definition maxAppendSize : Z := 1024 * 1024 * 4.

(** One [Read] into [space] bytes: the bytes read, the portions left, and
    whether the end was reported. *)
Definition read_step (space : Z) (r : reader) : bytes * list bytes * bool :=
  match rd_chunks r with
  | [] => ([], [], true)
  | b :: bs =>
      match drop (Z.to_nat space) b with
      | [] => (b, bs, rd_eager r && match bs with [] => true | _ => false end)
      | d => (take (Z.to_nat space) b, d :: bs, false)
      end
  end.

(** The loop of [readAll] with [buf] read into a buffer of capacity [cap];
    [None] when the fuel ran out. *)
Fixpoint readAll_loop (fuel : nat) (buf : bytes) (cap : Z) (r : reader) : option (bytes + ws_err) :=
  match fuel with
  | O => None
  | S fuel =>
      let '(got, more, eof) := read_step (cap - len buf) r in
      let buf := buf ++ got in
      let r := MkReader more (rd_failed r) (rd_eager r) in
      if eof then Some (if rd_failed r then inr ErrDecompress else inl buf)
      else if len buf =? cap then
        let l := len buf in
        if isMessageTooLarge (l + 1) then Some (inr ErrMessageTooLarge)
        else
          let al := if maxAppendSize <? l then maxAppendSize else l in
          let al := if (0 <? MessageLengthLimit cfg) && (MessageLengthLimit cfg <? l + al)
                    then MessageLengthLimit cfg - l else al in
          readAll_loop fuel buf (cap_append cap (l + al)) r
      else readAll_loop fuel buf cap r
  end.

(** Enough iterations for a reader: each one takes a byte or a portion. *)
Definition readAll_fuel (r : reader) : nat :=
  S (S (length (concat (rd_chunks r)) + length (rd_chunks r))).

Definition readAll (r : reader) (size : Z) : option (bytes + ws_err) :=
  let size := if (0 <? MessageLengthLimit cfg) && (MessageLengthLimit cfg <? size)
              then MessageLengthLimit cfg else size in
  readAll_loop (readAll_fuel r) [] (cap_malloc size) r.

(** The inflating reader over a message (followed by [flateReaderTail]). *)
Context (decompressReader : bytes -> reader).

Inductive data_result :=
| DOk (c : conn) (m : option bytes)
| DErr (c : conn) (e : ws_err)
| DPanic (c : conn)
| DStuck.

(** A data frame: update the message under assembly; [DOk] carries the message
    that is complete, if any.  A compressed message without any payload panics
    (a nil pointer is followed). *)
Definition data_frame (c : conn) (opcode : Z) (body : bytes) (fin res1 : bool) : data_result :=
  let c := if msgType c =? 0 then set_compress res1 (set_msgType opcode c) else c in
  if hasMessageHandler cfg then
    let c := match body with
             | [] => c
             | _ => set_message (Some (default [] (message c) ++ body)) c
             end in
    if fin then
      let m := message c in
      let c := set_message None c in
      let done c := set_expectingFragments false (set_compress false (set_msgType 0 c)) in
      if compress c then
        match m with
        | None => DPanic c
        | Some m =>
            match readAll (decompressReader m) (len m * 2) with
            | Some (inl m) => DOk (done c) (Some m)
            | Some (inr e) => DErr c e
            | None => DStuck
            end
        end
      else DOk (done c) m
    else DOk (set_expectingFragments true c) None
  else DOk c None.

(** Removing a frame from the cached bytes. *)
Definition consume (total : Z) (cache : bytes) : option bytes :=
  if len cache =? total then None else Some (drop (Z.to_nat total) cache).

Inductive step_result :=
| SWait
| SErr (c : conn) (e : ws_err)
| SNext (c : conn) (calls : list call)
| SPanic (c : conn)
| SStuck.

(** One iteration of the loop of [Parse]. *)
Definition parse_step (c : conn) : step_result :=
  if closed c then SErr c ErrWsClosed
  else
    match nextFrame c with
    | FPanic => SPanic c
    | FErr e cache => SErr (set_bytesCached cache c) e
    | FWait => SWait
    | FFrame total opcode body fin res1 cache =>
        let l := len cache in
        let rest c' calls :=
          if (total <=? 0) || (l <? total)
          then SErr (set_bytesCached None c') (ErrFrameConsumed total l)
          else SNext (set_bytesCached (consume total cache) c') calls in
        if (opcode =? FragmentMessage) || (opcode =? TextMessage) || (opcode =? BinaryMessage) then
          let mt := if msgType c =? 0 then opcode else msgType c in
          let frames := match body with
                        | [] => []
                        | _ => if hasDataFrameHandler cfg then [CDataFrame mt fin body] else []
                        end in
          match data_frame c opcode body fin res1 with
          | DStuck => SStuck
          | DPanic c' => SPanic (set_bytesCached (Some cache) c')
          | DErr c' e => SErr (set_bytesCached (Some cache) c') e
          | DOk c' m =>
              rest c' (match m with Some m => [CMessage mt m] | None => [] end ++ frames)
          end
        else if is_control opcode then
          rest c [CProtocol opcode (match body with [] => None | _ => Some body end)]
        else SErr (set_bytesCached (Some cache) c) ErrInvalidFragmentMessage
    end.

(** [err.Error()] of the errors the peer is told about. *)
Definition error_text (e : ws_err) : option bytes :=
  match e with
  | ErrMessageTooLarge => Some (str "message exceeds the configured limit")
  | ErrControlMessageTooBig => Some (str "websocket: control frame length > 125")
  | _ => None
  end.

Definition error_calls (e : ws_err) : list call :=
  match error_text e with
  | Some t => [CWriteClose 1009 t]
  | None => []
  end.

(** The result of [Parse]: the connection, the calls submitted, the error.
    [WFuel] is excluded by [ws_Parse_total]. *)
Inductive ws_result :=
| WRet (c : conn) (calls : list call) (e : option ws_err)
| WFuel.

Definition add_calls (cs : list call) (r : ws_result) : ws_result :=
  match r with
  | WRet c cs' e => WRet c (cs ++ cs') e
  | WFuel => WFuel
  end.

Fixpoint ws_loop (fuel : nat) (c : conn) : ws_result :=
  match fuel with
  | O => WFuel
  | S fuel =>
      match parse_step c with
      | SWait => WRet c [] None
      | SErr c' e => WRet c' (error_calls e) (Some e)
      | SPanic c' => WRet (set_bytesCached None c') [] (Some ErrParsePanic)
      | SNext c' calls => add_calls calls (ws_loop fuel c')
      | SStuck => WFuel
      end
  end.

(** [Parse] *)
Definition ws_Parse (c : conn) (data : bytes) : ws_result :=
  match data with
  | [] => WRet c [] None
  | _ =>
      if closed c then WRet c [] (Some ErrWsClosed)
      else if (0 <? readLimit cfg) && match bytesCached c with
                                      | None => false
                                      | Some b => readLimit cfg <? len b + len data
                                      end
      then WRet c [] (Some ErrWsTooLong)
      else
        let cache := default [] (bytesCached c) ++ data in
        ws_loop (S (length cache)) (set_bytesCached (Some cache) c)
  end.

(** ** Dispatching a message *)

(** What a handler call does to the outside world. *)
Inductive effect :=
| EMessage (opcode : Z) (body : bytes)
| EPing (s : bytes)
| EPong (s : bytes)
| EClosed (code : Z) (reason : bytes)
| EWriteMessage (opcode : Z) (body : bytes)
| ECloseConn
| ESetReadDeadline.

Context (CheckUtf8 : bytes -> bool).

Definition errInvalidUtf8Text : bytes := str "invalid UTF-8 bytes".

(** [handleWsMessage]; [pData] is never nil: [handleMessage] passes a pointer
    to an empty slice instead. *)
Definition handleWsMessage (c : conn) (opcode : Z) (data : bytes) : conn * list effect :=
  let deadline := if keepalive cfg then [ESetReadDeadline] else [] in
  let fail c (e : ws_err) payload :=
    (SetCloseError e c, [EWriteMessage CloseMessage payload; ECloseConn] ++ deadline) in
  let bad_utf8 c := fail c ErrInvalidUtf8 (be_put 2 1002 ++ errInvalidUtf8Text) in
  let close c code reason :=
    ((if code =? 1000 then c else SetCloseError (CloseErrorPtr code reason) c),
     [EClosed code reason; ECloseConn] ++ deadline) in
  if opcode =? BinaryMessage then (c, EMessage opcode data :: deadline)
  else if opcode =? TextMessage then
    if negb (CheckUtf8 data) then bad_utf8 c else (c, EMessage opcode data :: deadline)
  else if opcode =? PingMessage then (c, EPing data :: deadline)
  else if opcode =? PongMessage then (c, EPong data :: deadline)
  else if opcode =? CloseMessage then
    match data with
    | [] => close c 1005 []
    | x :: y :: reason =>
        let code := be_get [x; y] in
        if negb (validCloseCode code) then fail c ErrInvalidCloseCode (be_put 2 1002)
        else if negb (CheckUtf8 reason) then bad_utf8 c
        else close c code reason
    | _ => close c 1002 []
    end
  else if opcode =? FragmentMessage then (SetCloseError ErrInvalidFragmentMessage c, ECloseConn :: deadline)
  else (SetCloseError (ErrInvalidMessageType opcode) c, ECloseConn :: deadline).

(** ** Writing *)

(** The bytes of a frame, [writeFrame] up to the queueing; [u32] is the value
    of [rand.Uint32()]. *)
Definition frame_bytes (client : bool) (u32 : Z) (messageType : Z) (sendOpcode fin : bool)
    (data : bytes) (compressed : bool) : bytes :=
  let byte1 := if client then maskBit else 0 in
  let bodyLen := len data in
  let lenBytes :=
    if bodyLen <? 126 then [z2b (Z.lor byte1 bodyLen)]
    else if bodyLen <=? 65535 then z2b (Z.lor byte1 126) :: be_put 2 bodyLen
    else z2b (Z.lor byte1 127) :: be_put 8 bodyLen in
  let payload := if client then le_put 4 u32 ++ maskXOR data (le_put 4 u32) else data in
  let b0 := if sendOpcode then b2z (z2b messageType) else 0 in
  let b0 := if compressed then Z.lor b0 64 else b0 in
  let b0 := if fin then Z.lor b0 128 else b0 in
  z2b b0 :: lenBytes ++ payload.

(** The transport's [Write]: the error it reports, if any. *)
Context (conn_write : bytes -> option ws_err).

(** [writeFrame] from the queueing on: the connection, the bytes handed to the
    transport at once (the sender of the queue is started for the head), the
    error. *)
Definition send_frame (c : conn) (buf : bytes) : conn * list bytes * option ws_err :=
  match sendQueue c with
  | Some q =>
      if (0 <? sendQueueSize c) && (sendQueueSize c <=? len q)
      then (c, [], Some ErrMessageSendQuqueIsFull)
      else
        match q with
        | [] => (set_sendQueue (Some [None]) c, [buf], None)
        | _ => (set_sendQueue (Some (q ++ [Some buf])) c, [], None)
        end
  | None => (c, [buf], conn_write buf)
  end.

(** The loop of [WriteMessage] over the payload. *)
Fixpoint write_frames (fuel : nat) (c : conn) (keys : list Z) (messageType : Z)
    (sendOpcode sendCompress : bool) (data : bytes) : option (conn * list bytes * option ws_err) :=
  match fuel with
  | O => None
  | S fuel =>
      match data with
      | [] => Some (c, [], None)
      | _ =>
          let n := if MaxWebsocketFramePayloadSize cfg <? len data
                   then MaxWebsocketFramePayloadSize cfg else len data in
          match slice data 0 n, slice_from data n with
          | Some chunk, Some rest =>
              let '(c, out, err) :=
                send_frame c (frame_bytes (isClient c) (hd 0 keys) messageType sendOpcode
                                (n =? len data) chunk sendCompress) in
              match err with
              | Some e => Some (c, out, Some e)
              | None =>
                  match write_frames fuel c (tail keys) messageType false false rest with
                  | Some (c, out', err) => Some (c, out ++ out', err)
                  | None => None
                  end
              end
          | _, _ => None
          end
      end
  end.

(** The deflating writer: [None] when it reports an error. *)
Context (deflate : bytes -> option bytes).

(** [WriteMessage]; [keys] are the successive values of [rand.Uint32()]. *)
Definition WriteMessage (c : conn) (keys : list Z) (messageType : Z) (data : bytes) :
    option (conn * list bytes * option ws_err) :=
  if closed c then Some (c, [], Some ErrWsClosed)
  else if is_control messageType && (maxControlFramePayloadSize <? len data)
  then Some (c, [], Some ErrControlMessageTooBig)
  else
    let comp := enableWriteCompression c && ((messageType =? TextMessage) || (messageType =? BinaryMessage)) in
    let '(comp, data) :=
      if comp then match deflate data with Some z => (true, z) | None => (false, data) end
      else (false, data) in
    match data with
    | [] =>
        let '(c, out, err) :=
          send_frame c (frame_bytes (isClient c) (hd 0 keys) messageType true true [] comp) in
        Some (c, out, err)
    | _ => write_frames (S (length data)) c keys messageType true comp data
    end.

(** [WriteClose] *)
Definition WriteClose (c : conn) (keys : list Z) (code : Z) (reason : bytes) :=
  WriteMessage c keys CloseMessage (be_put 2 code ++ reason).

(** [WriteFrame] *)
Definition WriteFrame (c : conn) (u32 : Z) (messageType : Z) (sendOpcode fin : bool) (data : bytes) :=
  if closed c then (c, [], Some ErrWsClosed)
  else send_frame c (frame_bytes (isClient c) u32 messageType sendOpcode fin data false).

(** ** The sender of the asynchronous mode

    After its buffer is written, the goroutine that [writeFrame] starts looks
    for the next one under the lock: [SendNext] with the new index and buffer,
    or [SendStop].  Index [i] counts the buffers it has written. *)
Inductive send_next :=
| SendStop (c : conn)
| SendNext (c : conn) (i : nat) (buf : bytes).

Definition sender_next (c : conn) (i : nat) : send_next :=
  let i := S i in
  if closed c then SendStop c
  else
    match sendQueue c with
    | None => SendStop c
    | Some q =>
        if (length q <=? i)%nat then SendStop (set_sendQueue (Some []) c)
        else
          match q !! i with
          | Some (Some buf) => SendNext (set_sendQueue (Some (<[i := None]> q)) c) i buf
          | _ => SendStop (set_sendQueue (Some (<[i := None]> q)) c)
          end
    end.

(** ** Closing *)

(** [CloseAndClean]; the second component says whether the callback is called,
    and with which error. *)
Definition ws_CloseAndClean (c : conn) (err : option ws_err) : conn * option (option ws_err) :=
  if closed c then (c, None)
  else
    let c := set_closed true c in
    let c := match sendQueue c with
             | Some q => set_sendQueue (Some (map (fun _ => None) q)) c
             | None => c
             end in
    let c := match closeErr c with None => set_closeErr err c | Some _ => c end in
    let c := set_message None (set_bytesCached None c) in
    (c, Some (closeErr c)).

End ws.
