(* ===== verification/WsFacts.v ===== *)
(** * WebSocket reading: totality and independence of the cuts *)

From Stdlib Require Import ZArith Lia.
From Stdlib Require Import Strings.Byte Strings.String.
From stdpp Require Import base numbers list list_numbers.
From S2P Require Import Prelude GoLib WsMask WsConn.

Open Scope Z_scope.

(** The capacities a memory pool gives are at least what was asked for. *)
Class PoolCaps (cap_malloc : Z -> Z) (cap_append : Z -> Z -> Z) : Prop := {
  caps_malloc n : 0 <= n -> n <= cap_malloc n;
  caps_append c n : n <= cap_append c n
}.

Section ws_facts.
Context (cfg : ws_config) (cap_malloc : Z -> Z) (cap_append : Z -> Z -> Z).
Context (decompressReader : bytes -> reader).

Abbreviation nextFrame := (nextFrame cfg).
Abbreviation data_frame := (data_frame cfg cap_malloc cap_append decompressReader).
Abbreviation parse_step := (parse_step cfg cap_malloc cap_append decompressReader).
Abbreviation ws_loop := (ws_loop cfg cap_malloc cap_append decompressReader).
Abbreviation ws_Parse := (ws_Parse cfg cap_malloc cap_append decompressReader).

Definition cached (c : conn) : bytes := default [] (bytesCached c).
Definition held (c : conn) : bytes := default [] (message c).

(** ** One frame *)

(** The declared length, once known, does not change with more data. *)
Lemma frame_length_ext a b pl :
  match frame_length a pl with
  | None => frame_length (a ++ b) pl = None
  | Some (n, h) => n = -1 \/ frame_length (a ++ b) pl = Some (n, h)
  end.
Proof.
  unfold frame_length. cbv zeta. rewrite len_app. pose proof (len_nonneg b).
  assert (forall k, 2 + Z.of_nat k <= len a ->
    take k (drop 2 (a ++ b)) = take k (drop 2 a)) as Ht.
  { intros k Hk. unfold len in Hk. rewrite drop_app_le by lia.
    apply take_app_le. rewrite length_drop. lia. }
  destruct (pl =? 126).
  { destruct (Z.leb_spec 4 (len a)); [|by left]. right.
    by rewrite (proj2 (Z.leb_le 4 (len a + len b))), Ht by lia. }
  destruct (pl =? 127); [|by right].
  destruct (Z.leb_spec 10 (len a)); [|by left].
  rewrite (proj2 (Z.leb_le 10 (len a + len b))), Ht by lia.
  destruct (_ <? 0); [done|by right].
Qed.

Lemma frame_length_range a pl n h :
  0 <= pl -> frame_length a pl = Some (n, h) -> -1 <= n < 2 ^ 63 \/ n = pl.
Proof.
  intros Hpl. unfold frame_length. repeat case_match; intros [= <- <-]; try (by right); left; try lia.
  - pose proof (be_get_range (take 2 (drop 2 a))) as Hr. rewrite len_take in Hr.
    assert (256 ^ Z.min (Z.of_nat 2) (len (drop 2 a)) <= 256 ^ 2)
      by (apply Z.pow_le_mono_r; lia).
    lia.
  - bool_hyp. split; [lia|]. unfold int64, wrap_s.
    pose proof (Z.mod_pos_bound (be_get (take 8 (drop 2 a)) + 2 ^ (64 - 1)) (2 ^ 64) ltac:(lia)). lia.
Qed.

Definition ext_frame (b : bytes) (r : frame_result) : frame_result :=
  match r with
  | FErr e (Some cache) => FErr e (Some (cache ++ b))
  | FFrame t o body fin r1 cache => FFrame t o body fin r1 (cache ++ b)
  | _ => r
  end.

Definition recache (v : option bytes) (c : conn) : conn := set_bytesCached v c.

Lemma frame_body_ext c a b b0 b1 n h :
  0 <= h -> frame_body c a b0 b1 n h <> FWait ->
  frame_body (recache (Some (a ++ b)) c) (a ++ b) b0 b1 n h = ext_frame b (frame_body c a b0 b1 n h).
Proof.
  intros Hh. unfold frame_body. cbv zeta.
  set (h' := if Z.testbit b1 7 then h + 4 else h).
  assert (0 <= h') by (unfold h'; case_match; lia).
  rewrite len_app. pose proof (len_nonneg b).
  destruct (Z.leb_spec (int64 (h' + n)) (len a)) as [Hle|]; [|done]. intros _.
  rewrite (proj2 (Z.leb_le _ (len a + len b))) by lia.
  rewrite slice_app_l by done.
  destruct (slice a h' (int64 (h' + n))) as [body|] eqn:Es; [|done].
  apply slice_inv in Es as ([? ?] & ? & _). unfold len in *.
  rewrite !take_app_le, (drop_app_le a b (Z.to_nat (int64 _))) by lia.
  replace (take 4 (drop (Z.to_nat (h' - 4)) (a ++ b))) with
    (if Z.testbit b1 7 then take 4 (drop (Z.to_nat (h' - 4)) a)
     else take 4 (drop (Z.to_nat (h' - 4)) (a ++ b))).
  - destruct (Z.testbit b1 7); unfold validFrame; simpl;
      repeat (case_match; simpl); try done; by rewrite <- !app_assoc.
  - unfold h' in *. destruct (Z.testbit b1 7); [|done].
    rewrite drop_app_le by lia. rewrite take_app_le; [done|]. rewrite length_drop. lia.
Qed.

(** Room for more bytes: within the limits, lengths fit an [int]. *)
Record ws_ok (c : conn) (n : Z) : Prop := {
  ws_ok_nonneg : 0 <= n;
  ws_ok_read : readLimit cfg <= 0 \/ len (cached c) + n <= readLimit cfg;
  ws_ok_limit : 0 < MessageLengthLimit cfg -> len (held c) <= MessageLengthLimit cfg;
  ws_ok_int : len (cached c) + len (held c) + n < 2 ^ 62;
  ws_ok_msg : message c <> Some []
}.

Lemma too_large_wait c n :
  ws_ok c n -> isMessageTooLarge cfg (int64 (len (held c) + -1)) = false.
Proof.
  intros [? _ Hl Hi _]. unfold isMessageTooLarge.
  destruct (Z.leb_spec (MessageLengthLimit cfg) 0); [done|].
  pose proof (len_nonneg (held c)). pose proof (len_nonneg (cached c)).
  rewrite int64_small by lia. apply Z.ltb_ge. lia.
Qed.

(** More data do not change a frame, an error or a panic that is already
    decided. *)
Lemma nextFrame_ext c b n :
  ws_ok c n -> nextFrame c <> FWait ->
  nextFrame (recache (Some (cached c ++ b)) c) = ext_frame b (nextFrame c).
Proof.
  intros Hok. unfold WsConn.nextFrame. fold (held c). simpl. fold (held c).
  pose proof (too_large_wait c n Hok) as Htl. unfold cached.
  destruct (bytesCached c) as [[|x0 [|x1 a]]|] eqn:Ec; try done.
  pose proof (frame_length_ext (x0 :: x1 :: a) b (Z.land (b2z x1) 127)) as Hl.
  pose proof (fun m h => frame_body_ext c (x0 :: x1 :: a) b (b2z x0) (b2z x1) m h) as Hb.
  cbn [app from_option id] in *.
  destruct (frame_length (x0 :: x1 :: a) (Z.land (b2z x1) 127)) as [[m h]|] eqn:El;
    [|by rewrite Hl].
  assert (0 <= h) as Hh by (unfold frame_length in El; repeat case_match; simplify_eq; lia).
  destruct Hl as [-> | Hl]; [by rewrite Htl|]. rewrite Hl.
  destruct (isMessageTooLarge cfg (int64 (len (held c) + m))); [done|].
  destruct ((maxControlFramePayloadSize <? m) && is_control _); [done|].
  destruct (Z.leb_spec 0 m); [|done]. by apply Hb.
Qed.

(** What a complete frame is: a proper part of the cached bytes. *)
Lemma nextFrame_frame c t o body fin r1 cache n :
  ws_ok c n -> nextFrame c = FFrame t o body fin r1 cache ->
  2 <= t <= len cache /\ len cache = len (cached c) /\ 2 + len body <= t /\
  isMessageTooLarge cfg (len (held c) + len body) = false.
Proof.
  intros Hok. unfold WsConn.nextFrame. fold (held c).
  destruct Hok as [Hn _ _ Hi _]. unfold cached in Hi. unfold cached.
  destruct (bytesCached c) as [[|x0 [|x1 a]]|]; try done. simpl default in *.
  set (p := x0 :: x1 :: a) in *.
  destruct (frame_length p (Z.land (b2z x1) 127)) as [[m h]|] eqn:El; [|done].
  assert (2 <= h) as Hh by (unfold frame_length in El; repeat case_match; simplify_eq; lia).
  assert (h <= 10) as Hh' by (unfold frame_length in El; repeat case_match; simplify_eq; lia).
  apply frame_length_range in El; [|by apply Z.land_nonneg; lia].
  assert (Z.land (b2z x1) 127 < 128) as Hb.
  { change 127 with (Z.ones 7). rewrite Z.land_ones by lia. by apply Z.mod_pos_bound. }
  destruct (isMessageTooLarge cfg (int64 (len (held c) + m))) eqn:Et; [done|].
  destruct ((maxControlFramePayloadSize <? m) && _); [done|].
  destruct (Z.leb_spec 0 m) as [Hm|]; [|done]. unfold frame_body. cbv zeta.
  set (h' := if Z.testbit (b2z x1) 7 then h + 4 else h).
  assert (2 <= h' <= 14) by (unfold h'; case_match; lia).
  destruct (Z.leb_spec (int64 (h' + m)) (len p)) as [Hle|]; [|done].
  destruct (slice p h' (int64 (h' + m))) as [bd|] eqn:Es; [|done].
  pose proof (slice_len _ _ _ _ Es) as Hbl. apply slice_inv in Es as ([? ?] & ? & _).
  assert (int64 (h' + m) = h' + m) as Ew.
  { destruct (Z.lt_ge_cases (h' + m) (2 ^ 63)); [apply int64_small; lia|].
    exfalso. unfold int64, wrap_s in *.
    replace (h' + m + 2 ^ (64 - 1)) with (h' + m - 2 ^ 63 + 1 * 2 ^ 64) in * by lia.
    rewrite Z.mod_add, Z.mod_small in * by lia. lia. }
  rewrite Ew in *.
  set (bd' := if Z.testbit (b2z x1) 7 then _ else bd).
  assert (len bd' = m) as Hbd.
  { unfold bd', len in *. case_match; [|lia]. rewrite length_maskXOR; [lia|].
    rewrite length_take, length_drop. lia. }
  destruct (validFrame _ _ _ _ _ _ _); [done|]. intros [= <- _ <- _ _ <-].
  pose proof (len_nonneg (held c)). rewrite int64_small in Et by len_lia.
  rewrite Hbd. split_and!; [lia| | |lia|done]; rewrite ?len_app, ?len_take, ?len_drop; lia.
Qed.

(** ** One iteration *)

Definition recache_data (v : option bytes) (r : data_result) : data_result :=
  match r with
  | DOk c m => DOk (recache v c) m
  | DErr c e => DErr (recache v c) e
  | DPanic c => DPanic (recache v c)
  | DStuck => DStuck
  end.

(** The cached bytes play no part in assembling a message. *)
Lemma data_frame_recache v c o body fin r1 :
  data_frame (recache v c) o body fin r1 = recache_data v (data_frame c o body fin r1).
Proof.
  unfold WsConn.data_frame. cbv zeta. unfold recache. simpl.
  destruct (msgType c =? 0), (hasMessageHandler cfg), body as [|x body], fin; simpl; try done;
    destruct (compress c), r1, (message c); simpl; try done;
    by destruct (readAll _ _ _ _ _) as [[?|?]|].
Qed.

(** The message under assembly grows by the payload at most. *)
Lemma data_frame_held c o body fin r1 c' m :
  data_frame c o body fin r1 = DOk c' m ->
  bytesCached c' = bytesCached c /\ closed c' = closed c /\ len (held c') <= len (held c) + len body /\
  (0 < MessageLengthLimit cfg -> len (held c) <= MessageLengthLimit cfg ->
   isMessageTooLarge cfg (len (held c) + len body) = false -> len (held c') <= MessageLengthLimit cfg) /\
  (message c <> Some [] -> message c' <> Some []).
Proof.
  unfold WsConn.data_frame, held, isMessageTooLarge. cbv zeta.
  destruct (msgType c =? 0), (hasMessageHandler cfg), body as [|x body], fin; simpl;
    repeat (case_match; simpl; try done); intros [= <- <-]; simpl; simplify_eq/=;
    (split_and!; [done|done|len_lia| |by (try destruct (message c) as [[|]|])]);
    intros; bool_hyp; len_lia.
Qed.

(** The state after more data arrived. *)
Definition grow (b : bytes) (c : conn) : conn := recache (Some (cached c ++ b)) c.

Lemma consume_app t cache b :
  2 <= t <= len cache -> b <> [] ->
  consume t (cache ++ b) = Some (default [] (consume t cache) ++ b).
Proof.
  intros Ht Hb. pose proof (len_pos b Hb). unfold consume. rewrite len_app.
  rewrite (proj2 (Z.eqb_neq _ _)) by lia. f_equal.
  rewrite drop_app_le by (unfold len in *; lia).
  destruct (Z.eqb_spec (len cache) t) as [<-|]; [|done].
  unfold len. by rewrite Nat2Z.id, drop_all.
Qed.

Lemma len_consume t cache : 0 <= t <= len cache -> len (default [] (consume t cache)) = len cache - t.
Proof.
  intros Ht. unfold consume. destruct (Z.eqb_spec (len cache) t); simpl; [|len_lia].
  unfold len in *. simpl. lia.
Qed.

Definition ext_step (b : bytes) (r r' : step_result) : Prop :=
  match r with
  | SWait => True
  | SErr _ e => exists c', r' = SErr c' e
  | SPanic _ => exists c', r' = SPanic c'
  | SStuck => r' = SStuck
  | SNext c' calls => r' = SNext (grow b c') calls
  end.

Lemma parse_step_ext c b n :
  ws_ok c n -> b <> [] -> ext_step b (parse_step c) (parse_step (grow b c)).
Proof.
  intros Hok Hb. unfold WsConn.parse_step, grow. simpl.
  destruct (closed c); [by eexists|].
  pose proof (nextFrame_ext c b n Hok) as Hx.
  pose proof (nextFrame_frame c) as Hf.
  destruct (nextFrame c) as [e cache| |t o body fin r1 cache|] eqn:Ef; [| done | | ].
  - rewrite Hx by done. destruct cache; by eexists.
  - rewrite Hx by done. specialize (Hf _ _ _ _ _ _ n Hok eq_refl) as (Ht & Hl & _).
    simpl ext_frame. cbv zeta iota.
    rewrite (proj2 (Z.leb_gt t 0)), (proj2 (Z.ltb_ge (len cache) t)) by lia.
    rewrite (proj2 (Z.ltb_ge (len (cache ++ b)) t)) by (rewrite len_app; len_lia). simpl orb.
    destruct ((o =? FragmentMessage) || _ || _).
    + rewrite data_frame_recache.
      change (msgType (recache _ c)) with (msgType c).
      destruct (data_frame c o body fin r1) as [c' m|c' e|c'|]; simpl; [|by eexists..|done].
      f_equal. unfold recache, cached. simpl. by rewrite consume_app.
    + destruct (is_control o); [|by eexists]. simpl. unfold cached. simpl.
      by rewrite consume_app.
  - rewrite Hx by done. by eexists.
Qed.

(** An iteration that goes on consumes bytes and keeps the room. *)
Lemma parse_step_next c c' calls n :
  ws_ok c n -> parse_step c = SNext c' calls ->
  len (cached c') + 2 <= len (cached c) /\ ws_ok c' n /\ closed c' = closed c.
Proof.
  intros Hok. unfold WsConn.parse_step.
  destruct (closed c) eqn:Ecl; [done|].
  pose proof (nextFrame_frame c) as Hf.
  destruct (nextFrame c) as [e cache| |t o body fin r1 cache|] eqn:Ef; try done.
  specialize (Hf _ _ _ _ _ _ n Hok eq_refl) as (Ht & Hl & Hb & Hlim). cbv zeta.
  rewrite (proj2 (Z.leb_gt t 0)), (proj2 (Z.ltb_ge (len cache) t)) by lia. simpl orb.
  pose proof (len_consume t cache ltac:(lia)) as Hc. pose proof (len_nonneg body).
  destruct Hok as [? Hr Hm Hi Hmsg].
  destruct ((o =? FragmentMessage) || _ || _).
  - destruct (data_frame c o body fin r1) as [d m|d e|d|] eqn:Ed; try done. intros [= <- _].
    apply data_frame_held in Ed as (Ed & Ecd & Hh & Hh' & Hne).
    split; [unfold cached at 1; simpl; lia|].
    split; [|simpl; congruence]. constructor; unfold cached, held in *; simpl; try lia; auto.
  - destruct (is_control o); [|done]. intros [= <- _].
    split; [unfold cached at 1; simpl; lia|]. split; [|done].
    constructor; unfold cached, held in *; simpl; try lia; auto.
Qed.

(** ** The loop *)

Lemma ws_loop_fuel f1 f2 c n :
  ws_ok c n -> len (cached c) < Z.of_nat f1 -> len (cached c) < Z.of_nat f2 ->
  ws_loop f1 c = ws_loop f2 c.
Proof.
  revert f2 c. induction f1 as [|f1 IH]; intros f2 c Hok H1 H2.
  { pose proof (len_nonneg (cached c)). lia. }
  destruct f2 as [|f2]; [pose proof (len_nonneg (cached c)); lia|]. simpl.
  destruct (parse_step c) as [|c' e|c' calls|c'|] eqn:Es; try done.
  apply (parse_step_next c c' calls n Hok) in Es as (? & ? & _).
  f_equal. apply IH; [done|lia..].
Qed.

Lemma add_calls_app a b r : add_calls a (add_calls b r) = add_calls (a ++ b) r.
Proof. destruct r; simpl; by rewrite ?app_assoc. Qed.

(** [r'], the result on the whole stream, is [r], the result on its first part,
    followed by a second call on [y]. *)
Definition ws_ext (r : ws_result) (y : bytes) (r' : ws_result) : Prop :=
  match r with
  | WRet c calls None => r' = add_calls calls (ws_Parse c y)
  | WRet _ calls (Some e) => exists c', r' = WRet c' calls (Some e)
  | WFuel => r' = WFuel
  end.

Lemma ws_ext_add calls r y r' : ws_ext r y r' -> ws_ext (add_calls calls r) y (add_calls calls r').
Proof.
  destruct r as [c cs [e|]|]; simpl.
  - intros [c' ->]. by exists c'.
  - intros ->. apply add_calls_app.
  - by intros ->.
Qed.

(** [Parse] within the limits is the loop on the cached bytes and the data. *)
Lemma ws_Parse_eq c y :
  y <> [] -> closed c = false -> ws_ok c (len y) ->
  ws_Parse c y = ws_loop (S (length (cached c ++ y))) (grow y c).
Proof.
  intros Hy Hcl [_ Hr _ _ _]. unfold WsConn.ws_Parse. destruct y as [|x y]; [done|]. rewrite Hcl.
  unfold grow, recache, cached in *. destruct (bytesCached c) as [b|]; simpl default in *.
  - destruct (Z.ltb_spec 0 (readLimit cfg)); simpl andb; cbv iota; [|done].
    destruct (Z.ltb_spec (readLimit cfg) (len b + len (x :: y))); [lia|done].
  - by rewrite andb_false_r.
Qed.

Lemma add_calls_nil r : add_calls [] r = r.
Proof. by destruct r. Qed.

Lemma ws_ok_grow c y n : 0 <= n -> ws_ok c (len y + n) -> ws_ok (grow y c) n.
Proof.
  intros Hn [? Hr Hm Hi Hmsg]. 
  pose proof (len_app (cached c) y). pose proof (len_nonneg y).
  constructor; change (held (grow y c)) with (held c);
    change (cached (grow y c)) with (cached c ++ y); auto; lia.
Qed.

Lemma ws_loop_app f c y :
  ws_ok c (len y) -> y <> [] -> closed c = false -> len (cached c) + len y < Z.of_nat f ->
  ws_ext (ws_loop f c) y (ws_loop f (grow y c)).
Proof.
  revert c. induction f as [|f IH]; intros c Hok Hy Hcl Hf; [len_lia|].
  pose proof (parse_step_ext c y (len y) Hok Hy) as Hx.
  destruct (parse_step c) as [|c' e|c' calls|c'|] eqn:Es; simpl in Hx.
  - assert (ws_loop (S f) c = WRet c [] None) as -> by (simpl; by rewrite Es). cbn [ws_ext]. rewrite add_calls_nil, ws_Parse_eq by done.
    apply (ws_loop_fuel _ _ (grow y c) 0).
    + apply ws_ok_grow; [done|]. by rewrite Z.add_0_r.
    + unfold grow, cached in *. simpl. rewrite len_app. lia.
    + unfold grow, cached. simpl. unfold len. lia.
  - destruct Hx as [c2 Hx]. simpl. rewrite Es, Hx. by eexists.
  - simpl. rewrite Es, Hx.
    destruct (parse_step_next c c' calls _ Hok Es) as (? & ? & Ecl).
    apply ws_ext_add, IH; [done|done|congruence|lia].
  - destruct Hx as [c2 Hx]. simpl. rewrite Es, Hx. by eexists.
  - simpl. by rewrite Es, Hx.
Qed.

Lemma grow_app c x y : grow y (grow x c) = grow (x ++ y) c.
Proof. unfold grow, recache, cached. simpl. by rewrite app_assoc. Qed.

Lemma ws_Parse_app c x y :
  x <> [] -> y <> [] -> ws_ok c (len x + len y) ->
  ws_ext (ws_Parse c x) y (ws_Parse c (x ++ y)).
Proof.
  intros Hx Hy Hok. destruct (closed c) eqn:Hcl.
  { unfold WsConn.ws_Parse. rewrite Hcl. destruct x; [done|]. by eexists. }
  assert (ws_ok c (len x)) as Hokx.
  { destruct Hok as [? Hr Hm Hi Hmsg]. pose proof (len_nonneg y). pose proof (len_nonneg x).
    constructor; auto; lia. }
  rewrite (ws_Parse_eq c x) by done.
  rewrite (ws_Parse_eq c (x ++ y)); [|by destruct x|done|by rewrite len_app].
  rewrite <- grow_app.
  assert (ws_ok (grow x c) (len y)) as Hg by (apply ws_ok_grow; [apply len_nonneg|done]).
  set (f := S (length (cached c ++ x ++ y))).
  rewrite (ws_loop_fuel _ f (grow x c) (len y) Hg);
    [|unfold f, grow, cached; simpl; unfold len; rewrite ?length_app; lia..].
  apply ws_loop_app; [done|done|done|].
  unfold f, grow, cached. simpl. unfold len. rewrite ?length_app. lia.
Qed.

(** The room that is left after a call. *)
Lemma ws_loop_room f c c' calls n :
  ws_ok c n -> ws_loop f c = WRet c' calls None -> ws_ok c' n /\ closed c' = closed c.
Proof.
  revert c calls. induction f as [|f IH]; intros c calls Hok; [done|]. simpl.
  destruct (parse_step c) as [|d e|d calls1|d|] eqn:Es; try done.
  - by intros [= <- _].
  - destruct (parse_step_next c d calls1 n Hok Es) as (_ & Hd & Hcl).
    destruct (ws_loop f d) as [c2 cs2 [e|]|] eqn:El; simpl; try done.
    intros [= <- _]. apply IH in El as [? ?]; [|done]. split; [done|congruence].
Qed.

Lemma ws_Parse_room c x c' calls n :
  x <> [] -> 0 <= n -> ws_ok c (len x + n) -> ws_Parse c x = WRet c' calls None -> ws_ok c' n.
Proof.
  intros Hx Hn Hok. destruct (closed c) eqn:Hcl.
  { unfold WsConn.ws_Parse. rewrite Hcl. by destruct x. }
  assert (ws_ok c (len x)) as Hokx.
  { destruct Hok as [? Hr Hm Hi Hmsg]. pose proof (len_nonneg x). constructor; auto; lia. }
  rewrite ws_Parse_eq by done. intros H.
  eapply ws_loop_room in H as [? _]; [done|]. by apply ws_ok_grow.
Qed.

(** ** Inflating *)

Abbreviation readAll_loop := (readAll_loop cfg cap_append).
Abbreviation readAll := (readAll cfg cap_malloc cap_append).

(** What one read yields: a prefix of the stream. *)
Lemma read_step_spec space r got more eof :
  read_step space r = (got, more, eof) -> 0 < space ->
  got ++ concat more = concat (rd_chunks r) /\ len got <= space /\
  (eof = true -> more = []) /\
  (rd_chunks r <> [] ->
   (length (concat more) + length more < length (concat (rd_chunks r)) + length (rd_chunks r))%nat) /\
  (rd_chunks r = [] -> eof = true).
Proof.
  intros H Hs. unfold read_step in H. destruct (rd_chunks r) as [|b bs] eqn:E.
  { injection H as <- <- <-. split_and!; try done. simpl. unfold len. simpl. lia. }
  destruct (drop (Z.to_nat space) b) as [|x d] eqn:Ed; injection H as <- <- <-.
  - apply (f_equal length) in Ed. rewrite length_drop in Ed. simpl in Ed.
    split_and!; try done.
    + unfold len. lia.
    + destruct (rd_eager r), bs; simpl; done.
    + intros _. simpl. rewrite length_app. lia.
  - split_and!; try done.
    + simpl. change (x :: d ++ concat bs) with ((x :: d) ++ concat bs).
      rewrite <- Ed, app_assoc, take_drop. done.
    + unfold len. rewrite length_take. lia.
    + intros _. pose proof (length_drop b (Z.to_nat space)) as Hl. rewrite Ed in Hl.
      simpl in Hl |- *. rewrite !length_app. simpl. lia.
Qed.

(** What is read is the stream. *)
Lemma readAll_loop_sound f buf cap r out :
  len buf < cap -> (forall c n, n <= cap_append c n) ->
  readAll_loop f buf cap r = Some (inl out) ->
  out = buf ++ concat (rd_chunks r) /\ rd_failed r = false.
Proof.
  intros Hc Hap. revert buf cap r Hc. induction f as [|f IH]; intros buf cap r Hc; [done|].
  cbn [WsConn.readAll_loop].
  destruct (read_step (cap - len buf) r) as [[got more] eof] eqn:Er.
  apply read_step_spec in Er as (Hcat & Hl & Heof & _ & _); [|lia]. rewrite <- Hcat, app_assoc.
  destruct eof.
  { simpl. destruct (rd_failed r); [done|]. intros [= <-]. rewrite Heof by done.
    by rewrite app_nil_r. }
  destruct (Z.eqb_spec (len (buf ++ got)) cap) as [Ec|Ec].
  - destruct (isMessageTooLarge _ _) eqn:Et; [done|]. unfold isMessageTooLarge in Et.
    set (al := if _ && _ then _ else _). intros H.
    assert (0 < al) as Hal.
    { pose proof (len_nonneg buf). unfold al, maxAppendSize.
      destruct (Z.leb_spec (MessageLengthLimit cfg) 0).
      - rewrite (proj2 (Z.ltb_ge _ _)) by done. simpl. case_match; bool_hyp; lia.
      - bool_hyp. case_match; [lia|]. case_match; bool_hyp; lia. }
    apply IH in H; [exact H|]. pose proof (Hap cap (len (buf ++ got) + al)). lia.
  - intros H. apply IH in H; [exact H|]. rewrite len_app in *. lia.
Qed.

(** Reading ends, with the stream when it is shorter than the limit. *)
Lemma readAll_loop_total f buf cap r :
  len buf < cap -> (forall c n, n <= cap_append c n) ->
  (length (concat (rd_chunks r)) + length (rd_chunks r) < f)%nat ->
  exists res, readAll_loop f buf cap r = Some res /\
    (rd_failed r = false ->
     MessageLengthLimit cfg <= 0 \/ len buf + len (concat (rd_chunks r)) < MessageLengthLimit cfg ->
     res = inl (buf ++ concat (rd_chunks r))).
Proof.
  intros Hc Hap. revert buf cap r Hc. induction f as [|f IH]; intros buf cap r Hc Hf; [lia|].
  cbn [WsConn.readAll_loop].
  destruct (read_step (cap - len buf) r) as [[got more] eof] eqn:Er.
  apply read_step_spec in Er as (Hcat & Hl & Heof & Hm & Hn); [|lia]. rewrite <- Hcat, app_assoc.
  destruct eof.
  { eexists. split; [done|]. simpl. intros -> _. rewrite Heof by done. by rewrite app_nil_r. }
  assert (rd_chunks r <> []) as Hne by (intros E; by apply Hn in E).
  specialize (Hm Hne).
  destruct (Z.eqb_spec (len (buf ++ got)) cap) as [Ec|Ec].
  - destruct (isMessageTooLarge _ _) eqn:Et; unfold isMessageTooLarge in Et.
    { eexists. split; [done|]. intros _ Hlim. exfalso.
      destruct (Z.leb_spec (MessageLengthLimit cfg) 0); [done|]. bool_hyp.
      rewrite len_app in *. pose proof (len_nonneg (concat more)). lia. }
    set (al := if _ && _ then _ else _).
    assert (0 < al) as Hal.
    { pose proof (len_nonneg buf). unfold al, maxAppendSize.
      destruct (Z.leb_spec (MessageLengthLimit cfg) 0).
      - rewrite (proj2 (Z.ltb_ge _ _)) by done. simpl. case_match; bool_hyp; lia.
      - bool_hyp. case_match; [lia|]. case_match; bool_hyp; lia. }
    pose proof (Hap cap (len (buf ++ got) + al)).
    destruct (IH (buf ++ got) (cap_append cap (len (buf ++ got) + al))
      (MkReader more (rd_failed r) (rd_eager r))) as (res & Hres & Hok); [lia|simpl; lia|].
    exists res. split; [done|]. simpl in Hok. rewrite !len_app in *. intros. apply Hok; [done|lia].
  - destruct (IH (buf ++ got) cap (MkReader more (rd_failed r) (rd_eager r))) as (res & Hres & Hok);
      [rewrite len_app in *; lia|simpl; lia|].
    exists res. split; [done|]. simpl in Hok. rewrite !len_app in *. intros. apply Hok; [done|lia].
Qed.

Context `{!PoolCaps cap_malloc cap_append}.

Lemma readAll_spec r size :
  0 < size ->
  exists res, readAll r size = Some res /\
    (forall out, res = inl out -> out = concat (rd_chunks r) /\ rd_failed r = false) /\
    (rd_failed r = false ->
     MessageLengthLimit cfg <= 0 \/ len (concat (rd_chunks r)) < MessageLengthLimit cfg ->
     res = inl (concat (rd_chunks r))).
Proof.
  intros Hs. unfold WsConn.readAll.
  set (sz := if _ && _ then MessageLengthLimit cfg else size).
  assert (0 < sz) as Hsz by (unfold sz; case_match; bool_hyp; lia).
  pose proof (caps_malloc sz ltac:(lia)) as Hcap.
  destruct (readAll_loop_total (readAll_fuel r) [] (cap_malloc sz) r) as (res & Hres & Hok).
  - unfold len. simpl. lia.
  - apply caps_append.
  - unfold readAll_fuel. lia.
  - exists res. split; [done|]. split.
    + intros out ->. apply readAll_loop_sound in Hres; [done| |apply caps_append].
      unfold len. simpl. lia.
    + intros Hf Hl. apply Hok; [done|]. unfold len at 1. simpl. lia.
Qed.

(** ** [Parse] returns *)

Lemma data_frame_not_stuck c o body fin r1 :
  message c <> Some [] -> data_frame c o body fin r1 <> DStuck.
Proof.
  intros Hm. unfold WsConn.data_frame. cbv zeta.
  destruct (hasMessageHandler cfg); [|done]. destruct fin; [|by destruct body].
  set (c1 := match body with [] => _ | _ => _ end).
  assert (message c1 <> Some []) as Hm1.
  { unfold c1. destruct (msgType c =? 0), body; simpl; try done; by destruct (default _ _). }
  destruct (compress _); [|done]. destruct (message c1) as [m|]; [|done].
  destruct (readAll_spec (decompressReader m) (len m * 2)) as (res & -> & _).
  { destruct m; [done|]. len_lia. }
  by destruct res.
Qed.

Lemma parse_step_not_stuck c n : ws_ok c n -> parse_step c <> SStuck.
Proof.
  intros [_ _ _ _ Hm]. unfold WsConn.parse_step. destruct (closed c); [done|].
  destruct (nextFrame c) as [| |t o body fin r1 cache|]; try done. cbv zeta.
  pose proof (data_frame_not_stuck c o body fin r1 Hm).
  repeat (case_match; try done).
Qed.

Lemma ws_loop_total f c n :
  ws_ok c n -> len (cached c) < Z.of_nat f -> exists c' calls e, ws_loop f c = WRet c' calls e.
Proof.
  revert c. induction f as [|f IH]; intros c Hok Hf; [len_lia|]. simpl.
  pose proof (parse_step_not_stuck c n Hok).
  destruct (parse_step c) as [|d e|d calls1|d|] eqn:Es; try by eauto.
  destruct (parse_step_next c d calls1 n Hok Es) as (? & Hd & _).
  destruct (IH d Hd ltac:(lia)) as (c2 & cs2 & e2 & ->). simpl. eauto.
Qed.

Lemma ws_Parse_total c x :
  ws_ok c (len x) -> exists c' calls e, ws_Parse c x = WRet c' calls e.
Proof.
  intros Hok. destruct (decide (x = [])) as [->|Hx]; [by eexists _, _, _|].
  destruct (closed c) eqn:Hcl.
  { unfold WsConn.ws_Parse. rewrite Hcl. destruct x; by eexists _, _, _. }
  rewrite ws_Parse_eq by done. apply (ws_loop_total _ _ 0).
  - apply ws_ok_grow; [done|]. by rewrite Z.add_0_r.
  - unfold grow, cached. simpl. unfold len. lia.
Qed.
End ws_facts.
