(* ===== verification/WsRound.v ===== *)
(** * What one peer writes the other one reads

    The frames [writeFrame] produces are the frames [nextFrame] recognises, and
    the frames of a message written by [WriteMessage] are assembled by [Parse]
    into that message. *)

From Stdlib Require Import ZArith Lia.
From Stdlib Require Import Strings.Byte Strings.String.
From stdpp Require Import base numbers list list_numbers.
From S2P Require Import Prelude GoLib WsMask WsConn WsFacts.

Open Scope Z_scope.

(** ** The two header bytes *)

Definition byte0 (op : Z) (comp fin : bool) : Z :=
  let b0 := if comp then Z.lor op 64 else op in if fin then Z.lor b0 128 else b0.

(** A boolean fact about the integers below [n]. *)
Lemma forall_below (f : Z -> bool) n :
  forallb f (seqZ 0 n) = true -> forall z, 0 <= z < n -> f z = true.
Proof.
  intros H z Hz. rewrite forallb_forall in H. apply H, list_elem_of_In, elem_of_seqZ. lia.
Qed.

Lemma byte0_bits op comp fin :
  0 <= op < 16 ->
  let b := b2z (z2b (byte0 op comp fin)) in
  Z.land b 15 = op /\ Z.testbit b 7 = fin /\ Z.testbit b 6 = comp /\
  Z.testbit b 5 = false /\ Z.testbit b 4 = false.
Proof.
  intros Hop b.
  assert (forall z, 0 <= z < 16 ->
    (let b := b2z (z2b (byte0 z comp fin)) in
     (Z.land b 15 =? z) && Bool.eqb (Z.testbit b 7) fin && Bool.eqb (Z.testbit b 6) comp &&
     negb (Z.testbit b 5) && negb (Z.testbit b 4)) = true) as H
    by (apply forall_below; destruct comp, fin; by vm_compute).
  specialize (H op Hop). cbv zeta in H. fold b in H.
  rewrite !andb_true_iff in H. destruct H as [[[[H1 H2] H3] H4] H5].
  apply eqb_prop in H2, H3. bool_hyp. done.
Qed.

Definition byte1 (client : bool) (n : Z) : Z := Z.lor (if client then maskBit else 0) n.

Lemma byte1_bits client n :
  0 <= n < 128 ->
  let b := b2z (z2b (byte1 client n)) in Z.land b 127 = n /\ Z.testbit b 7 = client.
Proof.
  intros Hn b.
  assert (forall z, 0 <= z < 128 ->
    (let b := b2z (z2b (byte1 client z)) in
     (Z.land b 127 =? z) && Bool.eqb (Z.testbit b 7) client) = true) as H
    by (apply forall_below; destruct client; by vm_compute).
  specialize (H n Hn). cbv zeta in H. fold b in H.
  apply andb_true_iff in H as [H1 H2]. apply eqb_prop in H2. bool_hyp. done.
Qed.

(** ** The parts of a frame *)

Definition length_code (n : Z) : Z := if n <? 126 then n else if n <=? 65535 then 126 else 127.
Definition length_bytes (n : Z) : bytes :=
  if n <? 126 then [] else if n <=? 65535 then be_put 2 n else be_put 8 n.
Definition mask_bytes (client : bool) (u32 : Z) : bytes := if client then le_put 4 u32 else [].
Definition payload (client : bool) (u32 : Z) (data : bytes) : bytes :=
  if client then maskXOR data (le_put 4 u32) else data.
Definition head (client : bool) (op : Z) (comp fin : bool) (n : Z) : bytes :=
  z2b (byte0 op comp fin) :: z2b (byte1 client (length_code n)) :: length_bytes n.

Lemma frame_bytes_parts client u32 mt so fin data comp :
  0 <= mt < 16 ->
  frame_bytes client u32 mt so fin data comp =
  head client (if so then mt else 0) comp fin (len data) ++ mask_bytes client u32 ++
  payload client u32 data.
Proof.
  intros Hmt. unfold frame_bytes, head, byte0, byte1, length_code, length_bytes, mask_bytes, payload.
  assert (b2z (z2b mt) = mt) as -> by (rewrite b2z_z2b; apply Z.mod_small; lia).
  cbv zeta. destruct (len data <? 126), (len data <=? 65535), client, so, comp, fin; reflexivity.
Qed.

Lemma len_head client op comp fin n :
  len (head client op comp fin n) = (if n <? 126 then 2 else if n <=? 65535 then 4 else 10).
Proof.
  unfold head, length_bytes. destruct (n <? 126), (n <=? 65535);
    rewrite !len_cons; unfold len; by rewrite ?length_be_put.
Qed.

Lemma len_mask client u32 : len (mask_bytes client u32) = if client then 4 else 0.
Proof. unfold mask_bytes, len. destruct client; [by rewrite length_le_put|done]. Qed.

Lemma len_payload client u32 data : len (payload client u32 data) = len data.
Proof.
  unfold payload, len. destruct client; [|done]. rewrite length_maskXOR; [done|apply length_le_put].
Qed.

Lemma frame_length_head client op comp fin n tl :
  0 <= n < 2 ^ 62 ->
  frame_length (head client op comp fin n ++ tl) (length_code n) =
  Some (n, len (head client op comp fin n)).
Proof.
  intros Hn. rewrite len_head. unfold frame_length. rewrite len_app, len_head.
  pose proof (len_nonneg tl). unfold head, length_code, length_bytes.
  destruct (Z.ltb_spec n 126) as [H1|H1].
  { rewrite !(proj2 (Z.eqb_neq n _)) by lia. done. }
  assert (forall (x y : byte) l k, drop 2 ((x :: y :: l) ++ k) = l ++ k) as Hdrop by done.
  assert (forall k, take k (be_put k n ++ tl) = be_put k n) as Htake.
  { intros k. rewrite <- (length_be_put k n) at 1. apply take_app_length. }
  destruct (Z.leb_spec n 65535) as [H2|H2]; rewrite Hdrop.
  - rewrite (proj2 (Z.leb_le 4 _)) by lia. simpl (126 =? 126). cbv iota.
    rewrite Htake, be_get_put.
    rewrite Z.mod_small by (change (256 ^ Z.of_nat 2) with 65536; lia). done.
  - rewrite (proj2 (Z.leb_le 10 _)) by lia. simpl (127 =? _). cbv iota zeta.
    rewrite !Htake, !be_get_put.
    rewrite Z.mod_small by (change (256 ^ Z.of_nat 8) with (2 ^ 64); lia).
    rewrite int64_small by lia. by rewrite (proj2 (Z.ltb_ge n 0)) by lia.
Qed.

Section round.
Context (cfg : ws_config).
Abbreviation nextFrame := (nextFrame cfg).

(** [nextFrame] recognises the frame at the front of the cached bytes. *)
Lemma nextFrame_encoded c client u32 op fin data comp rest :
  0 <= op < 16 -> len (held c) + len data < 2 ^ 62 ->
  bytesCached c = Some (head client op comp fin (len data) ++ mask_bytes client u32 ++
                        payload client u32 data ++ rest) ->
  isMessageTooLarge cfg (len (held c) + len data) = false ->
  is_control op = false \/ len data <= 125 ->
  validFrame c op fin comp false false (expectingFragments c) = None ->
  let fl := len (head client op comp fin (len data)) + len (mask_bytes client u32) + len data in
  nextFrame c = FFrame fl op data fin comp
    (head client op comp fin (len data) ++ mask_bytes client u32 ++ data ++ rest).
Proof.
  intros Hop Hd Hc Hlim Hctl Hval fl. unfold WsConn.nextFrame. rewrite Hc.
  pose proof (len_nonneg data) as Hd0. pose proof (len_nonneg (held c)).
  assert (0 <= length_code (len data) < 128) as Hcode
    by (unfold length_code; repeat case_match; bool_hyp; lia).
  pose proof (frame_length_head client op comp fin (len data)
    (mask_bytes client u32 ++ payload client u32 data ++ rest) ltac:(lia)) as Hfl.
  set (hd := head client op comp fin (len data)) in *.
  assert (hd = z2b (byte0 op comp fin) :: z2b (byte1 client (length_code (len data)))
    :: length_bytes (len data)) as Ehd by done.
  destruct (byte0_bits op comp fin Hop) as (B1 & B2 & B3 & B4 & B5).
  destruct (byte1_bits client _ Hcode) as (B6 & B7).
  set (all := hd ++ mask_bytes client u32 ++ payload client u32 data ++ rest) in *.
  assert (exists tl, all = z2b (byte0 op comp fin) :: z2b (byte1 client (length_code (len data))) :: tl)
    as [tl Eall] by (unfold all; rewrite Ehd; eauto).
  rewrite Eall. fold (held c). rewrite B1, B6. rewrite Eall in Hfl. rewrite Hfl.
  rewrite int64_small by lia. rewrite Hlim.
  replace ((maxControlFramePayloadSize <? len data) && is_control op) with false.
  2:{ destruct Hctl as [-> | Hctl]; [by rewrite andb_false_r|].
      unfold maxControlFramePayloadSize. by rewrite (proj2 (Z.ltb_ge _ _)) by lia. }
  rewrite (proj2 (Z.leb_le 0 _)) by lia.
  unfold frame_body. rewrite B1, B2, B3, B4, B5, B7, <- Eall. cbv zeta.
  pose proof (len_mask client u32) as Hm. pose proof (len_payload client u32 data) as Hp.
  assert (0 <= len hd <= 10) as Hhl by (unfold hd; rewrite len_head; repeat case_match; lia).
  replace (if client then len hd + 4 else len hd) with (len (hd ++ mask_bytes client u32))
    by (rewrite len_app, Hm; destruct client; lia).
  set (hm := hd ++ mask_bytes client u32) in *.
  assert (len hm = len hd + len (mask_bytes client u32)) as Hhm by (unfold hm; apply len_app).
  rewrite int64_small by (destruct client; lia).
  assert (all = hm ++ payload client u32 data ++ rest) as Eall' by (unfold all, hm; by rewrite app_assoc).
  rewrite Eall', !len_app, Hp.
  rewrite (proj2 (Z.leb_le _ _)) by (pose proof (len_nonneg rest); lia).
  replace (len hm) with (len hm + 0) at 1 by lia. rewrite slice_app_r by lia.
  rewrite <- Hp, slice_prefix, Hval, Hp.
  replace (if client then _ else payload client u32 data) with data.
  - f_equal; [unfold fl; lia|].
    assert (forall (l k : bytes), take (Z.to_nat (len l)) (l ++ k) = l) as Ht
      by (intros; unfold len; by rewrite Nat2Z.id, take_app_length).
    rewrite Ht. unfold hm. rewrite <- app_assoc. do 3 f_equal.
    replace (Z.to_nat (len (hd ++ mask_bytes client u32) + len data)) with
      (length ((hd ++ mask_bytes client u32) ++ payload client u32 data)).
    + by rewrite app_assoc, drop_app_length.
    + rewrite length_app. unfold len in *. lia.
  - destruct client; [|done]. unfold mask_bytes in *.
    assert (take 4 (drop (Z.to_nat (len hm - 4)) (hm ++ payload true u32 data ++ rest)) = le_put 4 u32) as ->.
    { unfold hm. rewrite <- app_assoc. replace (Z.to_nat (len (hd ++ le_put 4 u32) - 4)) with (length hd).
      - rewrite drop_app_length. rewrite <- (length_le_put 4 u32) at 1. apply take_app_length.
      - unfold len. rewrite length_app, length_le_put. lia. }
    unfold payload. symmetry. apply maskXOR_involutive, length_le_put.
Qed.

Context (cap_malloc : Z -> Z) (cap_append : Z -> Z -> Z) (decompressReader : bytes -> reader).
Abbreviation data_frame := (data_frame cfg cap_malloc cap_append decompressReader).
Abbreviation ws_Parse := (ws_Parse cfg cap_malloc cap_append decompressReader).
Abbreviation ws_loop := (ws_loop cfg cap_malloc cap_append decompressReader).
Abbreviation parse_step := (parse_step cfg cap_malloc cap_append decompressReader).
Abbreviation ws_ok := (ws_ok cfg).

(** ** One frame through [Parse] *)

Definition is_data (op : Z) : bool :=
  (op =? FragmentMessage) || (op =? TextMessage) || (op =? BinaryMessage).

Lemma is_data_range op : is_data op = true -> 0 <= op < 16 /\ is_control op = false.
Proof.
  unfold is_data, is_control, FragmentMessage, TextMessage, BinaryMessage, PingMessage, PongMessage,
    CloseMessage. intros H. rewrite !orb_true_iff in H.
  destruct H as [[H|H]|H]; bool_hyp; subst; done.
Qed.

(** Cutting the frame off leaves the rest. *)
Lemma consume_frame client op comp fin u32 data rest :
  let fl := len (head client op comp fin (len data)) + len (mask_bytes client u32) + len data in
  consume fl (head client op comp fin (len data) ++ mask_bytes client u32 ++ data ++ rest) =
  match rest with [] => None | _ => Some rest end.
Proof.
  intros fl. unfold consume. rewrite !app_assoc, len_app.
  set (fr := (_ ++ _) ++ data).
  assert (len fr = fl) as Hl by (unfold fr, fl; rewrite !len_app; lia). rewrite Hl.
  destruct rest as [|x rest].
  - by rewrite len_nil, Z.add_0_r, Z.eqb_refl.
  - rewrite (proj2 (Z.eqb_neq _ _)) by (rewrite len_cons; pose proof (len_nonneg rest); lia).
    f_equal. rewrite <- Hl. unfold len. by rewrite Nat2Z.id, drop_app_length.
Qed.

Lemma parse_step_frame c client u32 op fin data comp rest c' m :
  closed c = false -> is_data op = true -> len (held c) + len data < 2 ^ 62 ->
  hasDataFrameHandler cfg = false ->
  bytesCached c = Some (head client op comp fin (len data) ++ mask_bytes client u32 ++
                        payload client u32 data ++ rest) ->
  isMessageTooLarge cfg (len (held c) + len data) = false ->
  validFrame c op fin comp false false (expectingFragments c) = None ->
  data_frame c op data fin comp = DOk c' m ->
  parse_step c = SNext (recache (match rest with [] => None | _ => Some rest end) c')
    (match m with Some m => [CMessage (if msgType c =? 0 then op else msgType c) m] | None => [] end).
Proof.
  intros Hcl Hop Hd Hdf Hc Hlim Hval Hdata. unfold WsConn.parse_step. rewrite Hcl.
  destruct (is_data_range op Hop) as [Hr Hctl].
  rewrite (nextFrame_encoded c client u32 op fin data comp rest) by auto.
  cbv zeta. unfold is_data in Hop. rewrite Hop, Hdata, Hdf.
  pose proof (len_mask client u32) as Hm.
  assert (2 <= len (head client op comp fin (len data))) as Hhl by (rewrite len_head; repeat case_match; lia).
  rewrite (proj2 (Z.leb_gt _ 0)) by (rewrite Hm; pose proof (len_nonneg data); case_match; lia).
  rewrite (proj2 (Z.ltb_ge _ _)) by (rewrite !len_app; pose proof (len_nonneg rest); lia).
  simpl orb. cbv iota. rewrite consume_frame. f_equal.
  destruct data; by rewrite app_nil_r.
Qed.

(** A connection that has no cached bytes takes a whole frame. *)
Lemma ws_Parse_frame c client u32 op fin data comp c' m :
  let frame := head client op comp fin (len data) ++ mask_bytes client u32 ++ payload client u32 data in
  closed c = false -> is_data op = true ->
  hasDataFrameHandler cfg = false -> bytesCached c = None -> ws_ok c (len frame) ->
  isMessageTooLarge cfg (len (held c) + len data) = false ->
  validFrame c op fin comp false false (expectingFragments c) = None ->
  data_frame c op data fin comp = DOk c' m ->
  ws_Parse c frame = WRet c'
    (match m with Some m => [CMessage (if msgType c =? 0 then op else msgType c) m] | None => [] end) None.
Proof.
  intros frame Hcl Hop Hdf Hc Hok Hlim Hval Hdata.
  assert (frame <> []) as Hne by done. rewrite ws_Parse_eq by done.
  unfold cached at 1. rewrite Hc. simpl default. rewrite app_nil_l.
  assert (grow frame c = recache (Some frame) c) as -> by (unfold grow, cached; by rewrite Hc).
  pose proof (len_payload client u32 data) as Hp. pose proof (len_nonneg data).
  assert (len data <= len frame) as Hle by (unfold frame; rewrite !len_app, Hp; len_lia).
  destruct Hok as [_ _ _ Hi _]. pose proof (len_nonneg (held c)). pose proof (len_nonneg (cached c)).
  cbn [WsConn.ws_loop].
  rewrite (parse_step_frame (recache (Some frame) c) client u32 op fin data comp []
    (recache (Some frame) c') m); try done.
  - simpl recache.
    apply data_frame_held in Hdata as (Hc' & Hcl' & _). rewrite Hc in Hc'.
    assert (recache None (recache (Some frame) c') = c') as ->.
    { unfold recache. destruct c'; simpl in *. by subst. }
    destruct (length frame) eqn:El; [by destruct frame|]. cbn [WsConn.ws_loop].
    unfold WsConn.parse_step, WsConn.nextFrame. rewrite Hcl', Hcl, Hc'. simpl.
    by rewrite app_nil_r.
  - change (held (recache _ c)) with (held c). lia.
  - by rewrite app_nil_r.
  - by rewrite data_frame_recache, Hdata.
Qed.

(** A control frame is passed on and leaves the connection as it was, also
    between the frames of a message. *)
Lemma ws_Parse_control c client u32 op data :
  let frame := frame_bytes client u32 op true true data false in
  closed c = false -> is_control op = true -> len data <= 125 -> bytesCached c = None ->
  ws_ok c (len frame) -> isMessageTooLarge cfg (len (held c) + len data) = false ->
  ws_Parse c frame = WRet c [CProtocol op (match data with [] => None | _ => Some data end)] None.
Proof.
  intros frame Hcl Hop Hd Hc Hok Hlim.
  assert (op = PingMessage \/ op = PongMessage \/ op = CloseMessage) as Hcases.
  { unfold is_control in Hop. rewrite !orb_true_iff in Hop. destruct Hop as [[H|H]|H]; bool_hyp; auto. }
  assert (0 <= op < 16) as Hr by (by destruct Hcases as [-> | [-> | ->]]).
  assert (frame <> []) as Hne by done. rewrite ws_Parse_eq by done.
  unfold cached at 1. rewrite Hc. simpl default. rewrite app_nil_l.
  assert (grow frame c = recache (Some frame) c) as -> by (unfold grow, cached; by rewrite Hc).
  destruct Hok as [_ _ _ Hi _]. pose proof (len_nonneg (cached c)).
  assert (len data <= len frame) as Hle.
  { unfold frame. rewrite frame_bytes_parts, !len_app, len_payload by done. len_lia. }
  cbn [WsConn.ws_loop]. unfold WsConn.parse_step at 1. simpl closed. rewrite Hcl.
  rewrite (nextFrame_encoded (recache (Some frame) c) client u32 op true data false []); try done.
  - cbv zeta. replace ((op =? FragmentMessage) || (op =? TextMessage) || (op =? BinaryMessage)) with false
      by (by destruct Hcases as [-> | [-> | ->]]).
    rewrite Hop. pose proof (len_mask client u32) as Hm.
    assert (2 <= len (head client op false true (len data))) as Hhl by (rewrite len_head; repeat case_match; lia).
    rewrite (proj2 (Z.leb_gt _ 0)) by (rewrite Hm; pose proof (len_nonneg data); case_match; lia).
    rewrite (proj2 (Z.ltb_ge _ _)) by (rewrite !len_app, len_nil; lia).
    simpl orb. cbv iota. rewrite consume_frame.
    assert (set_bytesCached None (recache (Some frame) c) = c) as ->.
    { unfold recache. destruct c; simpl in *. by subst. }
    destruct (length frame) eqn:El; [by destruct frame|]. cbn [WsConn.ws_loop].
    unfold WsConn.parse_step, WsConn.nextFrame. rewrite Hcl, Hc. done.
  - change (held (recache _ c)) with (held c). lia.
  - unfold frame. rewrite frame_bytes_parts by done. simpl. by rewrite app_nil_r.
  - by right.
  - simpl. by destruct (expectingFragments c), Hcases as [-> | [-> | ->]].
Qed.

(** ** Whole messages *)

(** A reader between two messages, and one that holds the first part [acc] of
    a message of type [mt]. *)
Definition at_rest (c : conn) : conn :=
  set_message None (set_expectingFragments false (set_compress false (set_msgType 0 c))).
Definition amid (mt : Z) (acc : bytes) (c : conn) : conn :=
  set_message (Some acc) (set_expectingFragments true (set_compress false (set_msgType mt c))).

(** The state of the reader before the next frame: [so] for the first one. *)
Definition expecting (so : bool) (mt : Z) (acc : bytes) (c : conn) : conn :=
  if so then at_rest c else amid mt acc c.

Context (Hmh : hasMessageHandler cfg = true) (Hdfh : hasDataFrameHandler cfg = false).

Lemma data_frame_expecting so mt acc c data fin :
  mt = TextMessage \/ mt = BinaryMessage -> data <> [] -> (so = true -> acc = []) ->
  data_frame (expecting so mt acc c) (if so then mt else 0) data fin false =
  if fin then DOk (at_rest c) (Some (acc ++ data)) else DOk (amid mt (acc ++ data) c) None.
Proof.
  intros Hmt Hd Hacc. destruct data as [|x data]; [done|].
  unfold WsConn.data_frame. rewrite Hmh.
  destruct so; [rewrite Hacc by done|].
  - destruct Hmt as [-> | ->], fin; reflexivity.
  - unfold expecting, amid. simpl.
    destruct Hmt as [-> | ->], fin; reflexivity.
Qed.

Lemma valid_expecting so mt acc c fin :
  mt = TextMessage \/ mt = BinaryMessage ->
  validFrame (expecting so mt acc c) (if so then mt else 0) fin false false false
    (expectingFragments (expecting so mt acc c)) = None.
Proof. intros [-> | ->]; destruct so, fin; reflexivity. Qed.

Lemma ws_Parse_fragment so client u32 mt acc c data fin :
  let frame := frame_bytes client u32 mt so fin data false in
  mt = TextMessage \/ mt = BinaryMessage -> data <> [] -> (so = true -> acc = []) ->
  (so = false -> acc <> []) ->
  closed c = false -> bytesCached c = None -> ws_ok (expecting so mt acc c) (len frame) ->
  MessageLengthLimit cfg <= 0 \/ len acc + len data <= MessageLengthLimit cfg ->
  ws_Parse (expecting so mt acc c) frame =
  if fin then WRet (at_rest c) [CMessage mt (acc ++ data)] None
  else WRet (amid mt (acc ++ data) c) [] None.
Proof.
  intros frame Hmt Hd Hacc Hacc' Hcl Hc Hok Hlim.
  assert (0 <= mt < 16) as Hr by (destruct Hmt as [-> | ->]; done).
  unfold frame in *. rewrite frame_bytes_parts in * by done.
  assert (len (held (expecting so mt acc c)) = len acc) as Hheld.
  { destruct so; [by rewrite Hacc|done]. }
  pose proof (data_frame_expecting so mt acc c data fin Hmt Hd Hacc) as Hdata.
  destruct fin;
    (erewrite ws_Parse_frame;
      [ | by destruct so | destruct so; [destruct Hmt as [-> | ->]|]; done | done | by destruct so
        | done | | by apply valid_expecting | exact Hdata ];
      [try (by destruct so, Hmt as [-> | ->])
      |unfold isMessageTooLarge; rewrite Hheld;
       destruct (Z.leb_spec (MessageLengthLimit cfg) 0); [done|]; apply Z.ltb_ge; lia]).
Qed.

(** A writer without queue whose transport accepts everything. *)
Context (wcfg : ws_config).
Abbreviation write_frames := (write_frames wcfg (fun _ => None)).

Lemma send_frame_direct w buf :
  sendQueue w = None -> send_frame (fun _ => None) w buf = (w, [buf], None).
Proof. intros H. unfold send_frame. by rewrite H. Qed.

Lemma ws_ok_mono c n m : ws_ok c n -> 0 <= m <= n -> ws_ok c m.
Proof. intros [? Hr ? ? ?] Hm. constructor; auto; lia. Qed.

Lemma len_frame_bytes_pos client u32 mt so fin data comp :
  0 < len (frame_bytes client u32 mt so fin data comp).
Proof. unfold frame_bytes. cbv zeta. rewrite len_cons. len_lia. Qed.

(** The frames of a message, read one after the other. *)
Lemma read_frames f w keys mt so data w' out acc c :
  mt = TextMessage \/ mt = BinaryMessage -> data <> [] -> (so = true -> acc = []) ->
  (so = false -> acc <> []) -> sendQueue w = None -> 0 < MaxWebsocketFramePayloadSize wcfg ->
  write_frames f w keys mt so false data = Some (w', out, None) ->
  closed c = false -> bytesCached c = None -> ws_ok (expecting so mt acc c) (len (concat out)) ->
  MessageLengthLimit cfg <= 0 \/ len acc + len data <= MessageLengthLimit cfg ->
  ws_Parse (expecting so mt acc c) (concat out) = WRet (at_rest c) [CMessage mt (acc ++ data)] None.
Proof.
  intros Hmt. revert keys so data out acc.
  induction f as [|f IH]; intros keys so data out acc Hd Hacc Hacc' Hq HM Hw Hcl Hc Hok Hlim; [done|].
  cbn [WsConn.write_frames] in Hw. destruct data as [|x dt]; [done|].
  set (data := x :: dt) in *. pose proof (len_pos data Hd) as Hpos.
  set (n := if MaxWebsocketFramePayloadSize wcfg <? len data
            then MaxWebsocketFramePayloadSize wcfg else len data) in *.
  assert (0 < n <= len data) as Hn by (unfold n; destruct (Z.ltb_spec (MaxWebsocketFramePayloadSize wcfg) (len data)); lia).
  rewrite slice_eq, slice_from_eq, drop_0, Z.sub_0_r, send_frame_direct in Hw by (done || lia).
  destruct (WsConn.write_frames _ _ f w _ _ _ _ _) as [[[w2 out2] e2]|] eqn:Ew; [|done].
  injection Hw as <- <- ->. cbn [concat app] in *. rewrite len_app in Hok.
  set (fr := frame_bytes _ _ _ _ _ _ _) in *.
  assert (take (Z.to_nat n) data <> []) as Htk.
  { intros E%(f_equal len). rewrite len_take, len_nil in E. lia. }
  pose proof (len_nonneg (concat out2)) as Ho2.
  assert (0 < len fr) as Hfr by apply len_frame_bytes_pos.
  assert (len (take (Z.to_nat n) data) = n) as Hln by (rewrite len_take; lia).
  pose proof (ws_Parse_fragment so (isClient w) (hd 0 keys) mt acc c (take (Z.to_nat n) data)
    (n =? len data) Hmt Htk Hacc Hacc' Hcl Hc) as Hp. fold fr in Hp. rewrite Hln in Hp.
  assert (ws_ok (expecting so mt acc c) (len fr)) as Hokf by (eapply ws_ok_mono; [done|lia]).
  specialize (Hp Hokf ltac:(lia)). assert (fr <> []) as Hfn by done. clearbody fr.
  destruct (Z.eqb_spec n (len data)) as [En|En].
  - assert (drop (Z.to_nat n) data = []) as Edrop
      by (apply drop_ge; unfold len in En; lia).
    rewrite Edrop in Ew. destruct f; [done|]. injection Ew as _ <-. simpl concat.
    rewrite app_nil_r, Hp. by rewrite take_ge by (unfold len in En; lia).
  - assert (drop (Z.to_nat n) data <> []) as Hdr.
    { intros E. pose proof (len_drop (Z.to_nat n) data) as Hl. rewrite E, len_nil in Hl. lia. }
    assert (concat out2 <> []) as Hne.
    { intros E. pose proof (IH (tail keys) false (drop (Z.to_nat n) data) out2 (acc ++ take (Z.to_nat n) data)
        Hdr ltac:(done) ltac:(intros _; by destruct acc) Hq HM Ew Hcl Hc) as Hbad.
      rewrite E in Hbad. simpl in Hbad. discriminate Hbad.
      - apply (ws_Parse_room cfg cap_malloc cap_append decompressReader _ fr _ [] 0) in Hp;
          [exact Hp|done|done|]. rewrite E in Hok. by rewrite len_nil in Hok.
      - rewrite len_app, len_drop, Hln. lia. }
    pose proof (ws_Parse_app cfg cap_malloc cap_append decompressReader (expecting so mt acc c) fr
      (concat out2) Hfn Hne Hok) as Hsame.
    rewrite Hp in Hsame. cbn [ws_ext] in Hsame. rewrite add_calls_nil in Hsame.
    change (amid mt (acc ++ take (Z.to_nat n) data) c) with
      (expecting false mt (acc ++ take (Z.to_nat n) data) c) in *.
    rewrite (IH (tail keys) false (drop (Z.to_nat n) data)) in Hsame; try done.
    + rewrite Hsame. by rewrite <- app_assoc, take_drop.
    + intros _. by destruct acc.
    + eapply ws_Parse_room; [..|exact Hok|exact Hp]; done.
    + rewrite len_app, len_drop, Hln. lia.
Qed.

Lemma write_frames_total f w keys mt so comp data :
  sendQueue w = None -> 0 < MaxWebsocketFramePayloadSize wcfg -> (length data < f)%nat ->
  exists out, write_frames f w keys mt so comp data = Some (w, out, None).
Proof.
  intros Hq HM. revert keys so comp data.
  induction f as [|f IH]; intros keys so comp data Hf; [lia|].
  cbn [WsConn.write_frames]. destruct data as [|x dt]; [by eexists|].
  set (data := x :: dt) in *.
  assert (0 < len data) as Hpos by (by apply len_pos).
  set (n := if MaxWebsocketFramePayloadSize wcfg <? len data
            then MaxWebsocketFramePayloadSize wcfg else len data).
  assert (0 < n <= len data) as Hn
    by (unfold n; destruct (Z.ltb_spec (MaxWebsocketFramePayloadSize wcfg) (len data)); lia).
  rewrite slice_eq, slice_from_eq, send_frame_direct by (done || lia).
  destruct (IH (tail keys) false false (drop (Z.to_nat n) data)) as [out ->].
  - rewrite length_drop. unfold len in Hn. lia.
  - by eexists.
Qed.

Abbreviation WriteMessage := (WriteMessage wcfg (fun _ => None)).
Context (deflate : bytes -> option bytes).

(** A peer that may write plain messages. *)
Definition plain_writer (w : conn) : Prop :=
  closed w = false /\ sendQueue w = None /\ enableWriteCompression w = false.

Lemma WriteMessage_frames w keys mt data :
  plain_writer w -> mt = TextMessage \/ mt = BinaryMessage -> data <> [] ->
  WriteMessage deflate w keys mt data = write_frames (S (length data)) w keys mt true false data.
Proof.
  intros (Hcl & Hq & Hz) Hmt Hd. unfold WsConn.WriteMessage. rewrite Hcl, Hz.
  destruct Hmt as [-> | ->]; simpl; by destruct data.
Qed.

(** A message written by one peer is read by the other one. *)
Lemma message_read w keys mt data c :
  plain_writer w -> mt = TextMessage \/ mt = BinaryMessage -> data <> [] ->
  0 < MaxWebsocketFramePayloadSize wcfg -> closed c = false -> bytesCached c = None ->
  MessageLengthLimit cfg <= 0 \/ len data <= MessageLengthLimit cfg ->
  exists out, WriteMessage deflate w keys mt data = Some (w, out, None) /\
    (ws_ok (at_rest c) (len (concat out)) ->
     ws_Parse (at_rest c) (concat out) = WRet (at_rest c) [CMessage mt data] None).
Proof.
  intros Hw Hmt Hd HM Hcl Hc Hlim. rewrite WriteMessage_frames by done.
  destruct Hw as (_ & Hq & _).
  destruct (write_frames_total (S (length data)) w keys mt true false data) as [out Hout]; [done|done|lia|].
  exists out. split; [done|]. intros Hok.
  change (at_rest c) with (expecting true mt [] c).
  by apply (read_frames (S (length data)) w keys mt true data w out [] c).
Qed.

(** ** Sequences of messages *)

(** Messages with the mask keys used for each. *)
Definition outgoing := list (list Z * Z * bytes).

Definition message_ok (m : list Z * Z * bytes) : bool :=
  let '(_, mt, data) := m in
  ((mt =? TextMessage) || (mt =? BinaryMessage)) && negb (bool_decide (data = [])) &&
  ((MessageLengthLimit cfg <=? 0) || (len data <=? MessageLengthLimit cfg)).

Fixpoint write_all (w : conn) (ms : outgoing) : option bytes :=
  match ms with
  | [] => Some []
  | (keys, mt, data) :: ms =>
      match WriteMessage deflate w keys mt data with
      | Some (w', out, None) =>
          match write_all w' ms with
          | Some rest => Some (concat out ++ rest)
          | None => None
          end
      | _ => None
      end
  end.

Lemma ws_Parse_seq c x y c1 calls1 c2 calls2 :
  ws_ok c (len x + len y) -> ws_Parse c x = WRet c1 calls1 None ->
  ws_Parse c1 y = WRet c2 calls2 None ->
  ws_Parse c (x ++ y) = WRet c2 (calls1 ++ calls2) None.
Proof.
  intros Hok Hx Hy. destruct (decide (x = [])) as [->|Hnx].
  { simpl in Hx. injection Hx as <- <-. exact Hy. }
  destruct (decide (y = [])) as [->|Hny].
  { simpl in Hy. injection Hy as <- <-. by rewrite !app_nil_r. }
  pose proof (ws_Parse_app cfg cap_malloc cap_append decompressReader c x y Hnx Hny Hok) as H.
  rewrite Hx in H. cbn [ws_ext] in H. by rewrite Hy in H.
Qed.

Lemma messages_read w ms c :
  plain_writer w -> 0 < MaxWebsocketFramePayloadSize wcfg -> closed c = false -> bytesCached c = None ->
  forallb message_ok ms = true ->
  exists stream, write_all w ms = Some stream /\
    (ws_ok (at_rest c) (len stream) ->
     ws_Parse (at_rest c) stream =
     WRet (at_rest c) (map (fun '(_, mt, data) => CMessage mt data) ms) None).
Proof.
  intros Hw HM Hcl Hc. induction ms as [|[[keys mt] data] ms IH]; intros Hok; [by exists []|].
  simpl in Hok. apply andb_true_iff in Hok as [Hm Hms]. bool_hyp.
  destruct (message_read w keys mt data c) as (out & Ho & Hread); try done.
  - match goal with H : (mt =? _) || _ = true |- _ => apply orb_true_iff in H as [H|H]; bool_hyp; auto end.
  - match goal with H : (MessageLengthLimit cfg <=? 0) || _ = true |- _ =>
      apply orb_true_iff in H as [H|H]; bool_hyp; auto end.
  - destruct (IH Hms) as (rest & Hrest & Hr).
    exists (concat out ++ rest). cbn [write_all]. rewrite Ho, Hrest. split; [done|].
    rewrite len_app. intros Hroom. cbn [map].
    pose proof (len_nonneg rest). pose proof (len_nonneg (concat out)).
    change (?a :: ?l) with ([a] ++ l).
    eapply ws_Parse_seq; [exact Hroom|apply Hread|apply Hr]; eapply ws_ok_mono; try done; lia.
Qed.
End round.
