(* ===== verification/WsQueue.v ===== *)
(** * The send queue of the asynchronous mode

    [writeFrame] appends frames to [sendQueue] and starts a goroutine for the
    first one; the goroutine writes buffer after buffer and takes the next one
    from the queue.  Writers, the sender, a failing transport and closing are
    interleaved as steps of a transition system. *)

From Stdlib Require Import ZArith Lia.
From Stdlib Require Import Strings.Byte Strings.String.
From stdpp Require Import base numbers list list_numbers relations.
From S2P Require Import Prelude GoLib WsConn.

Open Scope Z_scope.

(** The connection, the sender (buffers it has written and the one in its
    hands), the frames the transport received, the frames accepted, and whether
    the transport failed. *)
Record qstate := MkQ {
  q_conn : conn;
  q_sender : option (nat * bytes);
  q_written : list bytes;
  q_accepted : list bytes;
  q_failed : bool
}.

Definition sent_next (c : conn) (i : nat) : conn * option (nat * bytes) :=
  match sender_next c i with
  | SendStop c => (c, None)
  | SendNext c i buf => (c, Some (i, buf))
  end.

Inductive qstep : qstate -> qstate -> Prop :=
| q_enqueue s buf c out :
    closed (q_conn s) = false -> sendQueue (q_conn s) <> None ->
    send_frame (fun _ => None) (q_conn s) buf = (c, out, None) ->
    qstep s (MkQ c (match out with [] => q_sender s | _ => Some (0%nat, buf) end)
               (q_written s) (q_accepted s ++ [buf]) (q_failed s))
| q_rejected s buf c out e :
    send_frame (fun _ => None) (q_conn s) buf = (c, out, Some e) ->
    qstep s (MkQ c (q_sender s) (q_written s) (q_accepted s) (q_failed s))
| q_write s i buf c snd :
    q_sender s = Some (i, buf) -> sent_next (q_conn s) i = (c, snd) ->
    qstep s (MkQ c snd (q_written s ++ [buf]) (q_accepted s) (q_failed s))
| q_fail s i buf :
    q_sender s = Some (i, buf) ->
    qstep s (MkQ (q_conn s) None (q_written s) (q_accepted s) true)
| q_close s err c cb :
    ws_CloseAndClean (q_conn s) err = (c, cb) ->
    qstep s (MkQ c (q_sender s) (q_written s) (q_accepted s) (q_failed s)).

Definition qinit (c : conn) : qstate := MkQ c None [] [] false.

Definition working (s : qstate) : Prop := closed (q_conn s) = false /\ q_failed s = false.

(** Frames accepted and not yet handed to the sender. *)
Definition qinv (s : qstate) : Prop :=
  sendQueue (q_conn s) <> None /\
  exists pending,
    q_accepted s = q_written s ++ match q_sender s with Some (_, b) => [b] | None => [] end ++ pending /\
    (working s ->
     match q_sender s with
     | None => pending = [] /\ sendQueue (q_conn s) = Some []
     | Some (i, _) => sendQueue (q_conn s) = Some (replicate (S i) None ++ map Some pending)
     end) /\
    (closed (q_conn s) = false -> q_failed s = true ->
     q_sender s = None /\ sendQueue (q_conn s) <> Some []).

Lemma qinv_init c : closed c = false -> sendQueue c = Some [] -> qinv (qinit c).
Proof.
  intros Hc Hq. split; [simpl; by rewrite Hq|]. exists []. simpl. rewrite Hq. done.
Qed.

Lemma send_frame_ok c buf c' out q :
  sendQueue c = Some q -> send_frame (fun _ => None) c buf = (c', out, None) ->
  closed c' = closed c /\
  match q with
  | [] => out = [buf] /\ sendQueue c' = Some [None]
  | _ => out = [] /\ sendQueue c' = Some (q ++ [Some buf])
  end.
Proof.
  unfold send_frame. intros ->. destruct (_ && _); [done|].
  destruct q; intros [= <- <-]; done.
Qed.

Lemma send_frame_rejected c buf c' out e q :
  sendQueue c = Some q -> send_frame (fun _ => None) c buf = (c', out, Some e) -> c' = c.
Proof.
  unfold send_frame. intros ->. destruct (_ && _); [by intros [= <- <-]|]. by destruct q.
Qed.

(** The sender takes the oldest frame. *)
Lemma sent_next_queue c i pending c' snd :
  closed c = false -> sendQueue c = Some (replicate (S i) None ++ map Some pending) ->
  sent_next c i = (c', snd) ->
  closed c' = false /\
  match pending with
  | [] => snd = None /\ sendQueue c' = Some []
  | b :: rest => snd = Some (S i, b) /\ sendQueue c' = Some (replicate (S (S i)) None ++ map Some rest)
  end.
Proof.
  intros Hc Hq. unfold sent_next, sender_next. rewrite Hc, Hq.
  rewrite length_app, length_replicate, length_map.
  destruct pending as [|b rest].
  { rewrite Nat.add_0_r, Nat.leb_refl. by intros [= <- <-]. }
  rewrite (proj2 (Nat.leb_gt _ _)) by (simpl; lia).
  rewrite lookup_app_r by (rewrite length_replicate; lia).
  rewrite length_replicate, Nat.sub_diag. simpl map. simpl lookup.
  intros [= <- <-]. split; [done|]. split; [done|]. cbn [sendQueue set_sendQueue]. f_equal.
  rewrite insert_app_r_alt by (rewrite length_replicate; lia).
  rewrite length_replicate, Nat.sub_diag. simpl insert.
  rewrite (replicate_S_end (S i)), <- app_assoc. done.
Qed.

Lemma sent_next_closed c i c' snd :
  closed c = true -> sent_next c i = (c', snd) -> c' = c /\ snd = None.
Proof. intros Hc. unfold sent_next, sender_next. rewrite Hc. by intros [= <- <-]. Qed.

Lemma sent_next_some c i c' snd :
  sendQueue c <> None -> sent_next c i = (c', snd) -> sendQueue c' <> None /\ closed c' = closed c.
Proof.
  intros Hq. unfold sent_next, sender_next. destruct (closed c) eqn:Hc; [by intros [= <- <-]|].
  destruct (sendQueue c) as [q|]; [|done]. destruct (length q <=? S i)%nat; [by intros [= <- <-]|].
  destruct (q !! S i) as [[b|]|]; by intros [= <- <-].
Qed.

Lemma qinv_enqueue s buf c out :
  qinv s -> closed (q_conn s) = false -> send_frame (fun _ => None) (q_conn s) buf = (c, out, None) ->
  qinv (MkQ c (match out with [] => q_sender s | _ => Some (0%nat, buf) end)
          (q_written s) (q_accepted s ++ [buf]) (q_failed s)).
Proof.
  intros [Hsq (pending & Hacc & Hwork & Hfail)] Hcl Hsend.
  destruct (sendQueue (q_conn s)) as [q|] eqn:Eq; [|done].
  destruct (send_frame_ok _ _ _ _ _ Eq Hsend) as [Hcc Hq]. rewrite Hcl in Hcc.
  split; simpl; [by destruct q; destruct Hq as [_ ->]|].
  destruct (q_failed s) eqn:Ef.
  - destruct (Hfail Hcl eq_refl) as [Hsnd Hne]. rewrite Hsnd in *.
    destruct q as [|x q]; [done|]. destruct Hq as [-> Hq]. exists (pending ++ [buf]).
    split; [rewrite Hacc; simpl; by rewrite <- app_assoc|]. rewrite Hq.
    split; [intros [_ Hf]; discriminate Hf|]. intros _ _. split; [reflexivity|by destruct q].
  - specialize (Hwork (conj Hcl Ef)). destruct (q_sender s) as [[i b]|].
    + injection Hwork as ->. simpl in Hq. destruct Hq as [-> Hq]. exists (pending ++ [buf]).
      split; [rewrite Hacc; by rewrite <- !app_assoc|]. split; [|by intros _ ?].
      intros _. rewrite Hq, map_app. simpl. by rewrite <- app_assoc.
    + destruct Hwork as [-> [= ->]]. destruct Hq as [-> Hq]. exists [].
      split; [by rewrite Hacc, !app_nil_r|]. split; [|by intros _ ?]. intros _. by rewrite Hq.
Qed.

Lemma qinv_write s i buf c snd :
  qinv s -> q_sender s = Some (i, buf) -> sent_next (q_conn s) i = (c, snd) ->
  qinv (MkQ c snd (q_written s ++ [buf]) (q_accepted s) (q_failed s)).
Proof.
  intros [Hsq (pending & Hacc & Hwork & Hfail)] Hsnd Hnext. rewrite Hsnd in *.
  destruct (sent_next_some _ _ _ _ Hsq Hnext) as [Hsq' Hcc].
  split; [done|]. simpl.
  destruct (closed (q_conn s)) eqn:Hcl.
  { destruct (sent_next_closed _ _ _ _ Hcl Hnext) as [-> ->]. exists pending.
    split; [rewrite Hacc; by rewrite <- app_assoc|].
    split; [|congruence]. intros [? _]. simpl in *. congruence. }
  destruct (q_failed s) eqn:Ef; [by destruct (Hfail eq_refl eq_refl)|].
  specialize (Hwork (conj Hcl Ef)).
  destruct (sent_next_queue _ _ _ _ _ Hcl Hwork Hnext) as [_ Hq].
  destruct pending as [|b rest]; destruct Hq as [-> Hq].
  - exists []. split; [rewrite Hacc; by rewrite !app_nil_r|]. done.
  - exists rest. split; [rewrite Hacc; by rewrite <- !app_assoc|]. done.
Qed.

(** Every step keeps the invariant. *)
Lemma qinv_step s s' : qinv s -> qstep s s' -> qinv s'.
Proof.
  intros Hinv Hs. destruct Hs as [s buf c out Hcl _ Hsend|s buf c out e Hsend
    |s i buf c snd Hsnd Hnext|s i buf Hsnd|s err c cb Hclose].
  - by apply qinv_enqueue.
  - destruct (sendQueue (q_conn s)) as [q|] eqn:Eq; [|by destruct Hinv].
    apply (send_frame_rejected _ _ _ _ _ q) in Hsend as ->; [|done]. by destruct s.
  - by eapply qinv_write.
  - destruct Hinv as [Hsq (pending & Hacc & Hwork & Hfail)]. rewrite Hsnd in *. split; [done|].
    exists (buf :: pending). split; [done|]. split; [intros [_ Hf]; discriminate Hf|]. simpl. intros Hcl _.
    split; [done|]. destruct (q_failed s) eqn:Ef; [by destruct (Hfail Hcl eq_refl)|].
    by rewrite Hwork.
  - destruct Hinv as [Hsq (pending & Hacc & Hwork & Hfail)]. unfold ws_CloseAndClean in Hclose.
    destruct (closed (q_conn s)) eqn:Hcl.
    { injection Hclose as <- _. split; [done|]. exists pending. split; [done|].
      split; [intros [? _]; simpl in *; congruence|]. simpl. congruence. }
    destruct (sendQueue (q_conn s)) as [q|] eqn:Eq; [|done].
    simpl in Hclose. rewrite Eq in Hclose. simpl in Hclose.
    destruct (closeErr (q_conn s)); injection Hclose as <- _;
      (split; [done|]; exists pending; split; [done|]; split; [by intros [? _]|done]).
Qed.

Lemma qinv_reachable c s :
  closed c = false -> sendQueue c = Some [] -> rtc qstep (qinit c) s -> qinv s.
Proof.
  intros Hc Hq Hr. remember (qinit c) as s0 eqn:E0.
  assert (qinv s0) as H0 by (subst; by apply qinv_init). clear E0.
  induction Hr; eauto using qinv_step.
Qed.
