(* ===== verification/WsCompress.v ===== *)
(** * The deflate tail

    [truncWriter] of [src/nbhttp/websocket/compression.go] sits between the
    deflating writer and the frame buffer and holds back the last four bytes,
    which the extension does not transmit. *)

From Stdlib Require Import ZArith Lia.
From Stdlib Require Import Strings.Byte Strings.String.
From stdpp Require Import base numbers list list_numbers.
From S2P Require Import Prelude GoLib.

Open Scope Z_scope.

(** [n] bytes of the array [p] of four bytes are in use; [out] is what the
    writer below received. *)
Record truncWriter := MkTrunc {
  tw_n : nat;
  tw_p : bytes;
  tw_out : bytes
}.

Definition new_truncWriter : truncWriter := MkTrunc 0 (replicate 4 x00) [].

(** [copy(dst\[at:\], src)]: the array and the number of bytes copied. *)
Definition copy_at (dst : bytes) (at_ : nat) (src : bytes) : bytes * nat :=
  let k := Nat.min (length dst - at_) (length src) in
  (take at_ dst ++ take k src ++ drop (at_ + k) dst, k).

(** The first [if] of [Write]: fill the array; the array, the number of bytes
    taken and the rest of the data. *)
Definition tw_fill (w : truncWriter) (p : bytes) : bytes * nat * bytes :=
  if (tw_n w <? 4)%nat then
    let '(arr, k) := copy_at (tw_p w) (tw_n w) p in (arr, k, drop k p)
  else (tw_p w, 0%nat, p).

(** The rest of [Write]: pass on the oldest bytes and keep the newest ones. *)
Definition tw_shift (arr out p : bytes) : bytes * bytes * bytes :=
  let m := Nat.min (length p) 4 in
  let out := out ++ take m arr in
  let arr := (copy_at arr 0 (drop m arr)).1 in
  let arr := (copy_at arr (4 - m) (drop (length p - m) p)).1 in
  let written := take (length p - m) p in
  (arr, out ++ written, written).

(** [Write]; the writer below accepts everything.  The count is what the code
    returns. *)
Definition tw_Write (w : truncWriter) (p : bytes) : truncWriter * Z :=
  let '(arr, n, p) := tw_fill w p in
  let used := (tw_n w + n)%nat in
  if (tw_n w <? 4)%nat && (length p =? 0)%nat then (MkTrunc used arr (tw_out w), Z.of_nat n)
  else
    let '(arr, out, written) := tw_shift arr (tw_out w) p in
    (MkTrunc used arr out, Z.of_nat n + len written).

Definition write_each (w : truncWriter) (ps : list bytes) : truncWriter :=
  foldl (fun w p => (tw_Write w p).1) w ps.

(** The bytes held back. *)
Definition tw_held (w : truncWriter) : bytes := take (tw_n w) (tw_p w).

(** The array is full or in its initial phase, in which nothing went through. *)
Record tw_inv (w : truncWriter) : Prop := {
  tw_len : length (tw_p w) = 4%nat;
  tw_bound : (tw_n w <= 4)%nat;
  tw_phase : (tw_n w < 4)%nat -> tw_out w = []
}.

Lemma copy_at_length dst i src : (i <= length dst)%nat -> length (copy_at dst i src).1 = length dst.
Proof.
  intros Hi. unfold copy_at. simpl. rewrite !length_app, !length_take, length_drop. lia.
Qed.

(** The two copies drop the oldest bytes and append the newest ones. *)
Lemma shift_core arr t :
  length arr = 4%nat -> (1 <= length t <= 4)%nat ->
  (copy_at (copy_at arr 0 (drop (length t) arr)).1 (4 - length t) t).1 = drop (length t) arr ++ t.
Proof.
  intros Ha Ht. destruct arr as [|a0 [|a1 [|a2 [|a3 []]]]]; try done.
  destruct t as [|t0 [|t1 [|t2 [|t3 []]]]]; simpl in Ht; try lia; reflexivity.
Qed.

(** The last phase of a write: [q] is not empty and the array is full. *)
Lemma shift_last arr q :
  length arr = 4%nat -> q <> [] ->
  let m := Nat.min (length q) 4 in
  (copy_at (copy_at arr 0 (drop m arr)).1 (4 - m) (drop (length q - m) q)).1 =
  drop m arr ++ drop (length q - m) q /\ length (drop (length q - m) q) = m /\ (1 <= m <= 4)%nat.
Proof.
  intros Ha Hq m.
  assert (1 <= m <= 4)%nat as Hm by (unfold m; destruct q; [done|]; simpl; lia).
  assert (length (drop (length q - m) q) = m) as Hl by (rewrite length_drop; unfold m; lia).
  split_and!; try lia. pose proof (shift_core arr (drop (length q - m) q) Ha ltac:(lia)) as H.
  rewrite Hl in H. exact H.
Qed.

(** Once the array is full. *)
Lemma write_full arr out n q :
  length arr = 4%nat -> q <> [] ->
  let m := Nat.min (length q) 4 in
  let a := (copy_at (copy_at arr 0 (drop m arr)).1 (4 - m) (drop (length q - m) q)).1 in
  let w' := MkTrunc 4 a ((out ++ take m arr) ++ take (length q - m) q) in
  n = 4%nat -> tw_inv w' /\ tw_out w' ++ tw_held w' = out ++ arr ++ q.
Proof.
  intros Ha Hq m a w' _. destruct (shift_last arr q Ha Hq) as (E & Hlast & Hm).
  change (Nat.min (length q) 4) with m in E, Hlast, Hm.
  assert (a = drop m arr ++ drop (length q - m) q) as Ea by exact E.
  assert (m = Nat.min (length q) 4) as Edef by done. clearbody m.
  assert (length a = 4%nat) as Hla by (rewrite Ea, length_app, Hlast, length_drop; lia).
  split; [constructor; simpl; [done|lia|lia]|].
  assert (tw_held w' = a) as -> by (apply (take_ge a 4); lia). rewrite Ea.
  change (tw_out w') with ((out ++ take m arr) ++ take (length q - m) q).
  rewrite <- !app_assoc. f_equal.
  destruct (Nat.eq_dec (length q) m) as [Eq|Nq].
  - rewrite Eq, Nat.sub_diag, take_0, drop_0. simpl. by rewrite app_assoc, take_drop.
  - assert (m = 4%nat) as Em by lia.
    rewrite Em in *. rewrite take_ge, (drop_ge arr) by lia. simpl. by rewrite take_drop.
Qed.

Lemma tw_Write_spec w p :
  tw_inv w ->
  let w' := (tw_Write w p).1 in
  tw_inv w' /\ tw_out w' ++ tw_held w' = tw_out w ++ tw_held w ++ p.
Proof.
  intros [Hl Hb Hph] w'. unfold w', tw_Write. clear w'.
  destruct (Nat.ltb_spec (tw_n w) 4) as [Hn|Hn].
  - specialize (Hph Hn). rewrite Hph.
    assert (exists k, k = Nat.min (4 - tw_n w) (length p)) as [k Ek] by eauto.
    set (arr := tw_held w ++ take k p ++ drop (tw_n w + k) (tw_p w)).
    assert (tw_fill w p = (arr, k, drop k p)) as ->.
    { unfold tw_fill, copy_at. rewrite (proj2 (Nat.ltb_lt _ _)), Hl, <- Ek by lia. done. }
    assert (length (tw_held w) = tw_n w) as Hlt by (unfold tw_held; rewrite length_take; lia).
    assert (length (take k p) = k) as Hlk by (rewrite length_take; lia).
    assert (length arr = 4%nat) as Hla
      by (unfold arr; rewrite !length_app, Hlt, Hlk, length_drop; lia).
    cbn [andb]. destruct (Nat.eqb_spec (length (drop k p)) 0) as [Hk|Hk]; rewrite length_drop in Hk.
    + split; [constructor; simpl; [done|lia|done]|]. simpl.
      unfold tw_held at 1. simpl. unfold arr. rewrite app_assoc.
      rewrite take_app_le by (rewrite length_app; lia).
      rewrite take_ge by (rewrite length_app; lia). by rewrite (take_ge p) by lia.
    + assert (tw_n w + k = 4)%nat as E4 by lia. rewrite E4.
      assert (drop k p <> []) as Hq.
      { intros E%(f_equal length). rewrite length_drop in E. simpl in E. lia. }
      assert (arr = tw_held w ++ take k p) as Earr
        by (unfold arr; rewrite (drop_ge (tw_p w)) by lia; by rewrite app_nil_r).
      destruct (write_full arr [] 4 (drop k p) Hla Hq eq_refl) as [Hi He].
      split; [exact Hi|]. etransitivity; [exact He|].
      rewrite Earr, <- app_assoc. by rewrite take_drop.
  - unfold tw_fill. rewrite (proj2 (Nat.ltb_ge _ _)) by lia. cbn [andb].
    assert (tw_n w = 4)%nat as E4 by lia. rewrite E4, Nat.add_0_r.
    assert (tw_held w = tw_p w) as -> by (apply take_ge; lia).
    destruct p as [|x p].
    + destruct (tw_p w) as [|a0 [|a1 [|a2 [|a3 []]]]]; try done.
      split; [constructor; simpl; done || lia|]. unfold tw_held. simpl. by rewrite !app_nil_r.
    + by apply (write_full (tw_p w) (tw_out w) 4 (x :: p)).
Qed.

Lemma write_each_spec w ps :
  tw_inv w ->
  tw_inv (write_each w ps) /\
  tw_out (write_each w ps) ++ tw_held (write_each w ps) = tw_out w ++ tw_held w ++ concat ps.
Proof.
  revert w. induction ps as [|p ps IH]; intros w Hw; simpl; [split; [done|by rewrite app_nil_r]|].
  destruct (tw_Write_spec w p Hw) as [Hi He].
  destruct (IH _ Hi) as [Hi' He']. split; [done|]. rewrite He', app_assoc, He, <- !app_assoc. done.
Qed.

(** Whatever the portions in which the compressed data arrive, the bytes
    passed on followed by the bytes held back are the data; as soon as bytes
    are passed on exactly four are held back. *)
Theorem trunc_writer_holds_four (ps : list bytes) :
  let w := write_each new_truncWriter ps in
  tw_out w ++ tw_held w = concat ps /\ length (tw_held w) = Nat.min 4 (length (concat ps)).
Proof.
  intros w. destruct (write_each_spec new_truncWriter ps) as [Hi He]; [constructor; simpl; done || lia|].
  fold w in Hi, He. cbn [tw_out new_truncWriter app] in He.
  change (tw_held new_truncWriter) with (@nil byte) in He. split; [done|].
  rewrite <- (He : _ = concat ps), length_app. destruct Hi as [Hl Hb Hph].
  assert (length (tw_held w) = tw_n w) as -> by (unfold tw_held; rewrite length_take; lia).
  destruct (Nat.lt_ge_cases (tw_n w) 4) as [Hn|Hn]; [rewrite (Hph Hn); cbn [length]|]; lia.
Qed.
