(* ===== verification/WsProps.v ===== *)
(** * What the WebSocket layer guarantees

    The claims on [src/nbhttp/websocket/conn.go], proved from [WsMask],
    [WsFacts], [WsRound] and [WsQueue]; the connection as the reader an HTTP
    parser hands an upgraded stream to. *)

From Stdlib Require Import ZArith Lia.
From Stdlib Require Import Strings.Byte Strings.String.
From stdpp Require Import base numbers list list_numbers relations.
From S2P Require Import Prelude GoLib Table Parser ParserFacts ParserSplit.
From S2P Require Import WsMask WsConn WsFacts WsRound WsQueue.

Open Scope Z_scope.

(** ** The connection as an upgraded reader *)

(** The errors of the layer below, as the parser reports them. *)
Definition ws_to_http (e : ws_err) : http_err :=
  match e with
  | ErrWsClosed => ErrClosed
  | ErrWsTooLong => ErrTooLong
  | ErrReserveBitSet => ErrOther 1
  | ErrReservedMessageType o => ErrOther (100 + o)
  | ErrControlMessageFragmented o => ErrOther (200 + o)
  | ErrControlMessageTooBig => ErrOther 2
  | ErrFragmentsShouldNotHaveBinaryOrTextMessage => ErrOther 3
  | ErrInvalidFragmentMessage => ErrOther 4
  | ErrMessageTooLarge => ErrOther 5
  | ErrDecompress => ErrOther 6
  | ErrParsePanic => ErrOther 7
  | _ => ErrOther 8
  end.

Section reader.
Context (cfg : ws_config) (cap_malloc : Z -> Z) (cap_append : Z -> Z -> Z).
Context (decompressReader : bytes -> reader).

(** The connection with the calls it has submitted. *)
Definition ws_reader : ParserCloser (conn * list call) := {|
  CloserParse '(c, log) data :=
    match ws_Parse cfg cap_malloc cap_append decompressReader c data with
    | WRet c' calls e => ((c', log ++ calls), ws_to_http <$> e)
    | WFuel => ((c, log), Some (ErrOther 0))
    end
|}.
#[local] Existing Instance ws_reader.

Context `{!PoolCaps cap_malloc cap_append}.

(** It keeps the contract of the parser. *)
Definition ws_reader_laws : ParserCloserLaws (conn * list call).
Proof.
  refine {| closer_ok '(c, _) n := ws_ok cfg c n |}.
  - intros [c log] x y Hx Hy Hok. simpl.
    pose proof (ws_Parse_app cfg cap_malloc cap_append decompressReader c x y Hx Hy Hok) as H.
    destruct (ws_Parse _ _ _ _ c x) as [c1 calls1 [e|]|] eqn:Ex; simpl in H.
    + destruct H as [c' ->]. done.
    + apply (ws_Parse_room _ _ _ _ c x c1 calls1 (len y)) in Ex; [|done|apply len_nonneg|done].
      destruct (ws_Parse_total cfg cap_malloc cap_append decompressReader c1 y Ex) as (c2 & cs2 & e2 & E).
      rewrite H, E. simpl. by rewrite app_assoc.
    + by rewrite H.
  - intros [c log] [c' log'] x n Hx Hn Hok. simpl.
    destruct (ws_Parse _ _ _ _ c x) as [c1 calls1 [e|]|] eqn:E; try done.
    intros [= <- _]. by eapply ws_Parse_room.
Defined.

(** A processor whose [OnComplete] installs new connections only. *)
Context {P : Type} `{!Processor P (conn * list call)}.

Definition installs_fresh : Prop :=
  forall (pr pr' : P) (r : conn * list call),
    OnComplete pr = (pr', Some r) ->
    ProcClean pr' = pr' /\ exists ec rc aw cl n, r = (newConn ec rc aw cl n, []).

(** Streams considered: within the read limit, lengths within [int]. *)
Definition ws_stream_bound : Z :=
  if 0 <? readLimit cfg then Z.min (readLimit cfg) (2 ^ 62 - 1) else 2 ^ 62 - 1.

Lemma newConn_ok ec rc aw cl sz n : 0 <= n <= ws_stream_bound -> ws_ok cfg (newConn ec rc aw cl sz) n.
Proof.
  unfold ws_stream_bound. destruct (Z.ltb_spec 0 (readLimit cfg)); intros Hn;
  assert (cached (newConn ec rc aw cl sz) = [] /\ message (newConn ec rc aw cl sz) = None) as [H1 H2]
    by (by destruct rc);
  assert (held (newConn ec rc aw cl sz) = []) as H3 by (unfold held; by rewrite H2);
  constructor; rewrite ?H1, ?H2, ?H3; change (len (@nil byte)) with 0; done || lia.
Qed.

Definition ws_processor_laws (H : installs_fresh) :
  @ProcessorLaws P (conn * list call) _ _ ws_reader_laws.
Proof.
  unshelve refine (@Build_ProcessorLaws _ _ _ _ ws_reader_laws ws_stream_bound _ _).
  - intros pr pr' c Hc. by destruct (H _ _ _ Hc).
  - intros pr pr' [c log] n Hc Hn. destruct (H _ _ _ Hc) as [_ (ec & rc & aw & cl & sz & [= -> ->])].
    by apply newConn_ok.
Defined.

End reader.

(** ** Reading *)

Section claims.
Context (cfg : ws_config) (cap_malloc : Z -> Z) (cap_append : Z -> Z -> Z).
Context (decompressReader : bytes -> reader).
Abbreviation ws_Parse := (ws_Parse cfg cap_malloc cap_append decompressReader).

(** Successive reads, up to the first error. *)
Fixpoint ws_feed (c : conn) (ds : list bytes) : ws_result :=
  match ds with
  | [] => WRet c [] None
  | d :: ds =>
      match ws_Parse c d with
      | WRet c' calls None => add_calls calls (ws_feed c' ds)
      | r => r
      end
  end.

Lemma ws_feed_concat c ds c' calls :
  ws_ok cfg c (len (concat ds)) -> ws_Parse c (concat ds) = WRet c' calls None ->
  ws_feed c ds = WRet c' calls None.
Proof.
  revert c calls. induction ds as [|d ds IH]; intros c calls Hok Hp; [done|]. simpl in *.
  destruct (decide (d = [])) as [->|Hd].
  { simpl. rewrite (IH c calls) by done. done. }
  destruct (decide (concat ds = [])) as [He|He].
  { rewrite He, app_nil_r in *. rewrite Hp.
    rewrite (IH c' []); [by simpl; rewrite app_nil_r| |done].
    eapply ws_Parse_room; [..|exact Hp]; [done|done|]. by rewrite Z.add_0_r. }
  rewrite len_app in Hok.
  pose proof (ws_Parse_app cfg cap_malloc cap_append decompressReader c d (concat ds) Hd He Hok) as H.
  destruct (ws_Parse c d) as [c1 calls1 [e|]|] eqn:Ed; simpl in H.
  - destruct H as [c2 H]. congruence.
  - rewrite Hp in H. destruct (ws_Parse c1 (concat ds)) as [c2 calls2 [e|]|] eqn:E2; try done.
    injection H as -> ->. rewrite (IH c1 calls2); [done| |done].
    by apply (ws_Parse_room cfg cap_malloc cap_append decompressReader c d c1 calls1); [|apply len_nonneg|..].
  - congruence.
Qed.

(** C5: messages survive the trip from a writer that is open, writes at once
    (no send queue) and does not compress to a reader with a message handler and
    no data-frame handler: for any list of text and binary messages, none empty
    and each within the reader's length limit, the frames written (by client or
    server, any mask keys, any positive frame size), of a total length within
    the reader's limit, are read by the other peer, cut anywhere, as exactly
    these messages in this order, and leave its connection as it was.  Empty
    messages are left out because they are lost ([empty_message_lost]). *)
Theorem messages_roundtrip (wcfg : ws_config) (deflate : bytes -> option bytes)
    (w : conn) (ms : outgoing) ec rc aw cl sz :
  hasMessageHandler cfg = true -> hasDataFrameHandler cfg = false ->
  plain_writer w -> 0 < MaxWebsocketFramePayloadSize wcfg ->
  forallb (message_ok cfg) ms = true ->
  exists stream, write_all wcfg deflate w ms = Some stream /\
    forall ds, concat ds = stream -> len stream <= ws_stream_bound cfg ->
      let c := newConn ec rc aw cl sz in
      ws_feed c ds = WRet c (map (fun '(_, mt, data) => CMessage mt data) ms) None.
Proof.
  intros Hmh Hdf Hw HM Hms.
  destruct (messages_read cfg cap_malloc cap_append decompressReader Hmh Hdf wcfg deflate w ms
    (newConn ec rc aw cl sz) Hw HM) as (stream & Hs & Hr); [by destruct rc|by destruct rc|done|].
  exists stream. split; [done|]. intros ds Hds Hle c.
  assert (at_rest c = c) as Hc by (unfold c; by destruct rc).
  assert (ws_ok cfg c (len stream)) as Hok by (apply newConn_ok; split; [apply len_nonneg|done]).
  fold c in Hr. rewrite Hc in Hr. apply ws_feed_concat; [by rewrite Hds|]. rewrite Hds. by apply Hr.
Qed.

(** [Parse] of a connection always returns, and without error it keeps
    the message under assembly within the length limit and no room is lost. *)
Theorem ws_parse_total `{!PoolCaps cap_malloc cap_append} (c : conn) (data : bytes) :
  ws_ok cfg c (len data) ->
  exists c' calls e, ws_Parse c data = WRet c' calls e /\ (e = None -> ws_ok cfg c' 0).
Proof.
  intros Hok. destruct (ws_Parse_total cfg cap_malloc cap_append decompressReader c data Hok)
    as (c' & calls & e & H).
  exists c', calls, e. split; [done|]. intros ->.
  destruct (decide (data = [])) as [->|Hd].
  { simpl in H. injection H as <- <-. by rewrite len_nil in Hok. }
  eapply ws_Parse_room; [done|done| |exact H]. by rewrite Z.add_0_r.
Qed.

(** A control frame that arrives between the frames of a message is
    passed on at once and does not disturb the message. *)
Theorem control_frame_transparent (c : conn) (client : bool) (u32 op : Z) (data : bytes) :
  let frame := frame_bytes client u32 op true true data false in
  closed c = false -> is_control op = true -> len data <= 125 -> bytesCached c = None ->
  ws_ok cfg c (len frame) -> isMessageTooLarge cfg (len (held c) + len data) = false ->
  ws_Parse c frame = WRet c [CProtocol op (match data with [] => None | _ => Some data end)] None.
Proof. apply ws_Parse_control. Qed.

(** Reading a decompressed message ends; what it returns is the whole
    stream of the reader; it succeeds when the stream is shorter than the
    limit. *)
Theorem readAll_total `{!PoolCaps cap_malloc cap_append} (r : reader) (size : Z) :
  0 < size ->
  exists res, readAll cfg cap_malloc cap_append r size = Some res /\
    (forall out, res = inl out -> out = concat (rd_chunks r) /\ rd_failed r = false) /\
    (rd_failed r = false ->
     MessageLengthLimit cfg <= 0 \/ len (concat (rd_chunks r)) < MessageLengthLimit cfg ->
     res = inl (concat (rd_chunks r))).
Proof. apply readAll_spec. done. Qed.

(** ** Behaviour that deviates from the intention *)

(** The length limit is bypassed by a fragment whose declared length,
    added to what has been received, exceeds the largest [int]: the sum wraps
    to a negative number, no error is raised, and the connection waits for the
    rest of that frame whatever arrives. *)
Theorem length_limit_bypassed (c : conn) (n : Z) (extra : bytes) :
  bytesCached c = Some (x80 :: x7f :: be_put 8 n ++ extra) ->
  2 ^ 63 <= len (held c) + n -> n < 2 ^ 63 - 10 -> len (held c) < 2 ^ 62 -> len extra < 2 ^ 61 ->
  nextFrame cfg c = FWait.
Proof.
  intros Hc Hlo Hhi Hm He. unfold nextFrame. rewrite Hc. fold (held c).
  assert (frame_length (x80 :: x7f :: be_put 8 n ++ extra) (Z.land (b2z x7f) 127) = Some (n, 10)) as ->.
  { unfold frame_length. change (Z.land (b2z x7f) 127) with 127. simpl (127 =? _). cbv iota.
    rewrite !len_cons, len_app. replace (len (be_put 8 n)) with 8 by (unfold len; by rewrite length_be_put).
    rewrite (proj2 (Z.leb_le 10 _)) by (pose proof (len_nonneg extra); lia).
    change (drop 2 (x80 :: x7f :: be_put 8 n ++ extra)) with (be_put 8 n ++ extra).
    assert (take 8 (be_put 8 n ++ extra) = be_put 8 n) as ->
      by (rewrite <- (length_be_put 8 n) at 1; apply take_app_length).
    rewrite be_get_put, Z.mod_small by (change (256 ^ Z.of_nat 8) with (2 ^ 64); lia).
    cbv zeta. rewrite int64_small by lia. by rewrite (proj2 (Z.ltb_ge n 0)) by lia. }
  assert (int64 (len (held c) + n) = len (held c) + n - 2 ^ 64) as ->.
  { unfold int64, wrap_s.
    replace (len (held c) + n + 2 ^ (64 - 1)) with (len (held c) + n - 2 ^ 63 + 1 * 2 ^ 64) by lia.
    rewrite Z.mod_add, Z.mod_small by lia. lia. }
  assert (isMessageTooLarge cfg (len (held c) + n - 2 ^ 64) = false) as ->.
  { unfold isMessageTooLarge. destruct (Z.leb_spec (MessageLengthLimit cfg) 0); [done|].
    apply Z.ltb_ge. lia. }
  change (is_control (Z.land (b2z x80) 15)) with false. rewrite andb_false_r.
  rewrite (proj2 (Z.leb_le 0 n)) by lia. unfold frame_body. change (Z.testbit (b2z x7f) 7) with false.
  cbv zeta iota. rewrite int64_small by lia.
  rewrite !len_cons, len_app. replace (len (be_put 8 n)) with 8 by (unfold len; by rewrite length_be_put).
  by rewrite (proj2 (Z.leb_gt _ _)) by lia.
Qed.

(** An empty message is never delivered: the frame is consumed without a
    call of the message handler. *)
Theorem empty_message_lost (client : bool) (u32 mt : Z) ec rc aw cl sz :
  hasMessageHandler cfg = true -> hasDataFrameHandler cfg = false ->
  mt = TextMessage \/ mt = BinaryMessage -> 6 <= ws_stream_bound cfg ->
  let c := newConn ec rc aw cl sz in
  ws_Parse c (frame_bytes client u32 mt true true [] false) = WRet c [] None.
Proof.
  intros Hmh Hdf Hmt Hsb c.
  assert (0 <= mt < 16) as Hr by (destruct Hmt as [-> | ->]; done).
  rewrite frame_bytes_parts by done.
  assert (len (head client mt false true 0 ++ mask_bytes client u32 ++ payload client u32 []) <= 6) as Hl.
  { rewrite !len_app, len_head, len_mask, len_payload. by destruct client. }
  rewrite (ws_Parse_frame cfg cap_malloc cap_append decompressReader c client u32 mt true [] false c None);
    try done.
  - unfold c. by destruct rc.
  - by destruct Hmt as [-> | ->].
  - unfold c. by destruct rc.
  - apply newConn_ok. split; [apply len_nonneg|]. etransitivity; [exact Hl|done].
  - unfold isMessageTooLarge. replace (len (held c) + len (@nil byte)) with 0 by (unfold c; by destruct rc).
    destruct (Z.leb_spec (MessageLengthLimit cfg) 0); [done|]. apply Z.ltb_ge. lia.
  - unfold c. by destruct rc, Hmt as [-> | ->].
  - unfold data_frame. rewrite Hmh. unfold c. by destruct rc, Hmt as [-> | ->].
Qed.
End claims.

(** ** Masking *)

(** C40: the unrolled masking loop computes the bytewise definition of the
    protocol, and applying it twice gives the payload back. *)
Theorem mask_correct (b key : bytes) :
  length key = 4%nat -> maskXOR b key = mask_ref key b /\ maskXOR (maskXOR b key) key = b.
Proof. intros Hk. split; [by apply maskXOR_ref|by apply maskXOR_involutive]. Qed.

(** ** Dispatching *)

Section dispatch.
Context (cfg : ws_config) (CheckUtf8 : bytes -> bool).
Abbreviation handle := (handleWsMessage cfg CheckUtf8).

Lemma effects_deadline (e : effect) :
  e ∈ (if keepalive cfg then [ESetReadDeadline] else []) -> e = ESetReadDeadline.
Proof. destruct (keepalive cfg); set_solver. Qed.

(** The message handler is called with the message received, for text
    only when it is valid UTF-8, and then the connection stays open; the close
    handler gets 1005 for an empty body, 1002 for a body of one byte, and
    otherwise a valid close code with a valid UTF-8 reason. *)
Theorem dispatch_sound (c : conn) (opcode : Z) (data : bytes) (e : effect) :
  e ∈ (handle c opcode data).2 ->
  match e with
  | EMessage o d =>
      o = opcode /\ d = data /\
      ((opcode = TextMessage /\ CheckUtf8 data = true) \/ opcode = BinaryMessage) /\
      ECloseConn ∉ (handle c opcode data).2
  | EClosed code reason =>
      opcode = CloseMessage /\ ECloseConn ∈ (handle c opcode data).2 /\
      ((data = [] /\ code = 1005 /\ reason = []) \/
       (len data = 1 /\ code = 1002 /\ reason = []) \/
       (data = take 2 data ++ reason /\ code = be_get (take 2 data) /\ validCloseCode code = true /\
        CheckUtf8 reason = true))
  | EWriteMessage o d => o = CloseMessage /\ take 2 d = be_put 2 1002
  | _ => True
  end.
Proof.
  unfold handleWsMessage. cbv zeta.
  assert (forall x, x <> ESetReadDeadline -> x ∉ (if keepalive cfg then [ESetReadDeadline] else [])) as Hnd
    by (intros x Hx Hin; by apply effects_deadline in Hin).
  destruct (Z.eqb_spec opcode BinaryMessage) as [->|Hb].
  { simpl. intros [-> | ->%effects_deadline]%elem_of_cons; [|done].
    split_and!; auto. intros [?|?%effects_deadline]%elem_of_cons; done. }
  destruct (Z.eqb_spec opcode TextMessage) as [->|Ht].
  { destruct (CheckUtf8 data) eqn:Eu; simpl.
    - intros [-> | ->%effects_deadline]%elem_of_cons; [|done].
      split_and!; auto. intros [?|?%effects_deadline]%elem_of_cons; done.
    - intros [-> | [-> | ->%effects_deadline]%elem_of_cons]%elem_of_cons; done. }
  destruct (Z.eqb_spec opcode PingMessage) as [->|Hp].
  { simpl. by intros [-> | ->%effects_deadline]%elem_of_cons. }
  destruct (Z.eqb_spec opcode PongMessage) as [->|Hq].
  { simpl. by intros [-> | ->%effects_deadline]%elem_of_cons. }
  destruct (Z.eqb_spec opcode CloseMessage) as [->|Hc].
  2:{ destruct (opcode =? FragmentMessage); simpl;
      by intros [-> | ->%effects_deadline]%elem_of_cons. }
  destruct data as [|x [|y reason]].
  - simpl. intros [-> | [-> | ->%effects_deadline]%elem_of_cons]%elem_of_cons; [|done..].
    split_and!; [done|set_solver|]. by left.
  - simpl. intros [-> | [-> | ->%effects_deadline]%elem_of_cons]%elem_of_cons; [|done..].
    split_and!; [done|set_solver|]. right. by left.
  - destruct (validCloseCode (be_get [x; y])) eqn:Ev; simpl.
    + destruct (CheckUtf8 reason) eqn:Eu; simpl.
      * intros [-> | [-> | ->%effects_deadline]%elem_of_cons]%elem_of_cons; [|done..].
        split_and!; [done|set_solver|]. right. right. done.
      * by intros [-> | [-> | ->%effects_deadline]%elem_of_cons]%elem_of_cons.
    + by intros [-> | [-> | ->%effects_deadline]%elem_of_cons]%elem_of_cons.
Qed.

(** The close code a peer sent is not available through [CloseCode]: the
    error that is kept is a pointer, the function looks for a value, and
    answers -1. *)
Theorem close_code_unavailable (c : conn) (x y : byte) (reason : bytes) :
  closeErr c = None -> validCloseCode (be_get [x; y]) = true -> be_get [x; y] <> 1000 ->
  CheckUtf8 reason = true ->
  exists err, closeErr (handle c CloseMessage (x :: y :: reason)).1 = Some err /\
    err = CloseErrorPtr (be_get [x; y]) reason /\ CloseCode err = -1 /\ CloseReason err = [].
Proof.
  intros Hc Hv Hn Hu. unfold handleWsMessage. cbv zeta. simpl (CloseMessage =? _). cbv iota.
  rewrite Hv, Hu. simpl. rewrite (proj2 (Z.eqb_neq _ _)) by done.
  unfold SetCloseError. rewrite Hc. eexists. done.
Qed.
End dispatch.

(** ** The send queue *)

(** C32: in the asynchronous mode the transport receives the accepted frames
    in the order in which they were accepted, each at most once, whatever the
    interleaving of writers, sender, transport failure and close; while the
    connection works, an idle sender has written all of them. *)
Theorem send_queue_fifo (c : conn) (s : qstate) :
  closed c = false -> sendQueue c = Some [] -> rtc qstep (qinit c) s ->
  q_written s `prefix_of` q_accepted s /\
  (working s -> q_sender s = None -> q_written s = q_accepted s).
Proof.
  intros Hc Hq Hr. destruct (qinv_reachable c s Hc Hq Hr) as [_ (pending & Hacc & Hwork & _)].
  split; [by eexists|]. intros Hw Hs. rewrite Hs in *.
  destruct (Hwork Hw) as [-> _]. by rewrite Hacc, !app_nil_r.
Qed.

(** ** Concrete instances *)

Definition sample_cfg : ws_config := MkWsConfig 65536 1000 3 true false true.
Definition exact_malloc (n : Z) : Z := n.
Definition exact_append (_ n : Z) : Z := n.
Definition stored_reader (m : bytes) : reader := MkReader [m] false false.

#[export] Instance exact_caps : PoolCaps exact_malloc exact_append.
Proof. constructor; unfold exact_malloc, exact_append; lia. Qed.

Definition sample_client : conn := newConn false false false true 0.
Definition sample_server : conn := newConn false false false false 0.

(** A processor that upgrades after every request. *)
Definition upgrade_processor : Processor (list bytes) (conn * list call) := {|
  OnMethod l m := l ++ [m];
  OnURL l u := (l ++ [u], None);
  OnProto l v := (l ++ [v], None);
  OnStatus l _ s := l ++ [s];
  OnHeader l k v := l ++ [k; v];
  OnContentLength l _ := l;
  OnBody l b := (l ++ [b], None);
  OnTrailerHeader l k v := l ++ [k; v];
  OnComplete l := (l, Some (sample_server, []));
  ProcClose l _ := l;
  ProcClean l := l
|}.

Definition sample_stream : bytes :=
  str "GET /ws HTTP/1.1" ++ [CR; LF] ++ str "Upgrade: websocket" ++ [CR; LF; CR; LF] ++
  frame_bytes true 305419896 TextMessage true false (str "hel") false ++
  frame_bytes true 7 TextMessage false true (str "lo") false.

Definition upgrade_parser : parser (list bytes) (conn * list call) := NewParser [] false 65536.


Definition sample_messages : outgoing :=
  [([1; 2; 3], TextMessage, str "hello ws"); ([], BinaryMessage, [x00; xff])].

Lemma messages_roundtrip_witness :
  exists stream, write_all sample_cfg Some sample_client sample_messages = Some stream /\
    forall ds, concat ds = stream -> len stream <= ws_stream_bound sample_cfg ->
      ws_feed sample_cfg exact_malloc exact_append stored_reader sample_server ds =
      WRet sample_server [CMessage TextMessage (str "hello ws"); CMessage BinaryMessage [x00; xff]] None.
Proof.
  apply (messages_roundtrip sample_cfg exact_malloc exact_append stored_reader sample_cfg Some
    sample_client sample_messages false false false false 0); try reflexivity.
  split_and!; reflexivity.
Defined.

Lemma ws_parse_total_witness :
  exists c' calls e,
    ws_Parse sample_cfg exact_malloc exact_append stored_reader sample_server (str "whatever") =
      WRet c' calls e /\ (e = None -> ws_ok sample_cfg c' 0).
Proof.
  apply (ws_parse_total sample_cfg exact_malloc exact_append stored_reader sample_server (str "whatever")).
  constructor; vm_compute; try discriminate; auto. right. discriminate.
Defined.

(** A server in the middle of a fragmented message. *)
Definition sample_amid : conn := amid TextMessage (str "hel") sample_server.

Lemma control_frame_transparent_witness :
  ws_Parse sample_cfg exact_malloc exact_append stored_reader sample_amid
    (frame_bytes true 9 PingMessage true true (str "p") false) =
  WRet sample_amid [CProtocol PingMessage (Some (str "p"))] None.
Proof.
  apply (control_frame_transparent sample_cfg exact_malloc exact_append stored_reader sample_amid
    true 9 PingMessage (str "p")); try reflexivity.
  - vm_compute. discriminate.
  - constructor; vm_compute; try discriminate; auto. right. discriminate.
Defined.

Lemma readAll_total_witness :
  exists res, readAll sample_cfg exact_malloc exact_append (MkReader [str "ab"; str "c"] false true) 1
      = Some res /\
    (forall out, res = inl out -> out = str "abc" /\ false = false) /\
    (false = false -> 1000 <= 0 \/ len (str "abc") < 1000 -> res = inl (str "abc")).
Proof.
  apply (readAll_total sample_cfg exact_malloc exact_append (MkReader [str "ab"; str "c"] false true) 1).
  lia.
Defined.

Lemma length_limit_bypassed_witness :
  nextFrame sample_cfg (set_bytesCached (Some (x80 :: x7f :: be_put 8 (2 ^ 63 - 20) ++ str "data"))
    (amid TextMessage (replicate 100 x61) sample_server)) = FWait.
Proof.
  apply (length_limit_bypassed sample_cfg _ (2 ^ 63 - 20) (str "data")); vm_compute; congruence.
Defined.

Lemma empty_message_lost_witness :
  ws_Parse sample_cfg exact_malloc exact_append stored_reader sample_server
    (frame_bytes true 5 TextMessage true true [] false) = WRet sample_server [] None.
Proof.
  apply (empty_message_lost sample_cfg exact_malloc exact_append stored_reader true 5 TextMessage
    false false false false 0); try reflexivity.
  - left. reflexivity.
  - vm_compute. discriminate.
Defined.

Lemma mask_correct_witness :
  maskXOR (str "payload") [x01; x02; x03; x04] = mask_ref [x01; x02; x03; x04] (str "payload") /\
  maskXOR (maskXOR (str "payload") [x01; x02; x03; x04]) [x01; x02; x03; x04] = str "payload".
Proof. apply (mask_correct (str "payload") [x01; x02; x03; x04]). reflexivity. Defined.

Lemma dispatch_sound_witness :
  CloseMessage = CloseMessage /\
  ECloseConn ∈ (handleWsMessage sample_cfg (fun _ => true) sample_server CloseMessage (be_put 2 1001)).2 /\
  ((be_put 2 1001 = [] /\ 1001 = 1005 /\ @nil byte = []) \/
   (len (be_put 2 1001) = 1 /\ 1001 = 1002 /\ @nil byte = []) \/
   (be_put 2 1001 = take 2 (be_put 2 1001) ++ [] /\ 1001 = be_get (take 2 (be_put 2 1001)) /\
    validCloseCode 1001 = true /\ true = true)).
Proof.
  apply (dispatch_sound sample_cfg (fun _ => true) sample_server CloseMessage (be_put 2 1001)
    (EClosed 1001 [])).
  left.
Defined.

Lemma close_code_unavailable_witness :
  exists err,
    closeErr (handleWsMessage sample_cfg (fun _ => true) sample_server CloseMessage
      (be_put 2 1001 ++ str "bye")).1 = Some err /\
    err = CloseErrorPtr 1001 (str "bye") /\ CloseCode err = -1 /\ CloseReason err = [].
Proof.
  apply (close_code_unavailable sample_cfg (fun _ => true) sample_server x03 xe9 (str "bye"));
    try reflexivity.
  discriminate.
Defined.

Definition async_server : conn := newConn false false true false 4.

(** Two frames accepted, then both written by the sender. *)
Definition after_two : qstate :=
  MkQ (set_sendQueue (Some []) async_server) None [[x01]; [x02]] [[x01]; [x02]] false.

Lemma after_two_reachable : rtc qstep (qinit async_server) after_two.
Proof.
  eapply rtc_l; [eapply (q_enqueue _ [x01]); [done|done|reflexivity]|].
  eapply rtc_l; [eapply (q_enqueue _ [x02]); [done|done|reflexivity]|].
  eapply rtc_l; [eapply q_write; reflexivity|].
  eapply rtc_l; [eapply q_write; reflexivity|].
  apply rtc_refl.
Qed.

Lemma send_queue_fifo_witness :
  q_written after_two `prefix_of` q_accepted after_two /\
  (working after_two -> q_sender after_two = None -> q_written after_two = q_accepted after_two).
Proof.
  apply (send_queue_fifo async_server after_two); [reflexivity|reflexivity|].
  exact after_two_reachable.
Defined.

(** The limit on decompressed messages is rounded up to a buffer capacity: with
    a pool that rounds 100 up to 128 a message of 120 bytes is accepted under a
    limit of 100. *)
Lemma inflated_limit_exceeded :
  let cfg := MkWsConfig 0 100 0 true false false in
  readAll cfg (fun _ => 128) (fun _ n => n) (MkReader [replicate 120 x61] false false) 1000 =
  Some (inl (replicate 120 x61)).
Proof. reflexivity. Qed.

(** The queue counts frames that were already sent: with room for two frames, a
    third one is refused while only one is waiting. *)
Lemma sent_frames_fill_queue :
  (send_frame (fun _ => None) (set_sendQueue (Some [None; None]) (newConn false false true false 2)) [x03]).2
  = Some ErrMessageSendQuqueIsFull.
Proof. reflexivity. Qed.
