(* ===== verification/Mempool.v ===== *)
(** * Memory pools (src/mempool)

    Byte buffers, the interface [Allocator] the other packages program
    against, its laws, and the three implementations: [AlignedAllocator]
    (aligned_allocator.go), [MemPool] (mempool.go) and [stdAllocator]
    (std_allocator.go), with the counters of debugger.go.

    A Go [*\[\]byte] is a record of the identity of its backing array, the
    bytes of the array up to the slice's capacity, and the length.  A buffer
    from a pool holds whatever its last user left in it.  An operation that
    panics returns [None].  [sync.Pool] may return any element that was put, or
    a new one: the choice is a parameter. *)

From Stdlib Require Import ZArith Lia.
From Stdlib Require Import Strings.Byte.
From stdpp Require Import base numbers list list_numbers gmap.
From S2P Require Import Prelude.

Open Scope Z_scope.

(** ** Buffers *)

Record pbuf := MkBuf {
  b_id : nat;
  b_mem : bytes;
  b_len : Z
}.

Definition cap (p : pbuf) : Z := len (b_mem p).
Definition data (p : pbuf) : bytes := take (Z.to_nat (b_len p)) (b_mem p).

(** The length of a slice is within its capacity. *)
Definition buf_ok (p : pbuf) : Prop := 0 <= b_len p <= cap p.

(** [make(\[\]byte, n)] with a new backing array. *)
Definition make (id : nat) (n : Z) : pbuf := MkBuf id (replicate (Z.to_nat n) x00) n.

(** [p\[:n\]], which may extend the slice up to its capacity. *)
Definition reslice (p : pbuf) (n : Z) : option pbuf :=
  if (0 <=? n) && (n <=? cap p) then Some (MkBuf (b_id p) (b_mem p) n) else None.

(** The backing array with [src] written from index [at_]; what does not fit is
    dropped. *)
Definition overwrite (mem : bytes) (at_ : nat) (src : bytes) : bytes :=
  take (length mem) (take at_ mem ++ src ++ drop (at_ + length src) mem).

(** [copy(p\[at_:\], src)], which stops at the length of [p]. *)
Definition copy_at (p : pbuf) (at_ : Z) (src : bytes) : pbuf :=
  let n := Z.to_nat (b_len p - at_) in
  MkBuf (b_id p) (overwrite (b_mem p) (Z.to_nat at_) (take n src)) (b_len p).

(** [append(p, more...)]: in place while the capacity allows, else into a new
    array whose capacity the runtime chooses. *)
Definition go_append (grow : Z -> Z -> Z) (fresh : nat) (p : pbuf) (more : bytes) : pbuf * bool :=
  let n := b_len p + len more in
  if n <=? cap p then
    (MkBuf (b_id p) (overwrite (b_mem p) (Z.to_nat (b_len p)) more) n, false)
  else
    let d := data p ++ more in
    (MkBuf fresh (d ++ replicate (Z.to_nat (grow (cap p) n - n)) x00) n, true).

(** ** The interface *)

Class Allocator (A : Type) := {
  Malloc : Z -> A -> option (pbuf * A);
  Realloc : pbuf -> Z -> A -> option (pbuf * A);
  Append : pbuf -> bytes -> A -> option (pbuf * A);
  Free : pbuf -> A -> option A
}.

(** What the clients of an allocator rely on.  [alloc_inv a live] holds of an
    allocator whose clients own the backing arrays [live]; [genuine p] holds of
    a buffer whose capacity is one the allocator gave.  A buffer handed out is
    never one another client holds. *)
Class AllocatorLaws (A : Type) `{!Allocator A} := {
  alloc_inv : A -> gset nat -> Prop;
  genuine : pbuf -> Prop;
  genuine_ok p : genuine p -> buf_ok p;
  genuine_view p mem n :
    genuine p -> length mem = length (b_mem p) -> 0 <= n <= cap p ->
    genuine (MkBuf (b_id p) mem n);
  malloc_law a live n :
    alloc_inv a live -> 0 <= n ->
    exists p a', Malloc n a = Some (p, a') /\ b_len p = n /\ genuine p /\
      (b_id p ∉ live) /\ alloc_inv a' ({[b_id p]} ∪ live);
  realloc_law a live p n :
    alloc_inv a live -> genuine p -> b_id p ∈ live -> 0 <= n ->
    exists p' a', Realloc p n a = Some (p', a') /\ b_len p' = n /\ genuine p' /\
      (forall k, 0 <= k <= n -> k <= b_len p ->
        take (Z.to_nat k) (data p') = take (Z.to_nat k) (data p)) /\
      (b_id p' ∉ live ∖ {[b_id p]}) /\ alloc_inv a' ({[b_id p']} ∪ live ∖ {[b_id p]});
  append_law a live p more :
    alloc_inv a live -> genuine p -> b_id p ∈ live ->
    exists p' a', Append p more a = Some (p', a') /\
      data p' = data p ++ more /\ genuine p' /\
      (b_id p' ∉ live ∖ {[b_id p]}) /\ alloc_inv a' ({[b_id p']} ∪ live ∖ {[b_id p]});
  free_law a live p :
    alloc_inv a live -> genuine p -> b_id p ∈ live ->
    exists a', Free p a = Some a' /\ alloc_inv a' (live ∖ {[b_id p]})
}.

(** ** Counters (debugger.go) *)

Record sizeMap := MkSizeMap { sm_MallocCount : Z; sm_FreeCount : Z; sm_NeedFree : Z }.

Record debugger := MkDebugger {
  dbg_on : bool;
  MallocCount : Z;
  FreeCount : Z;
  NeedFree : Z;
  SizeMap : option (gmap Z sizeMap)
}.

Definition newDebugger : debugger := MkDebugger false 0 0 0 None.

Definition SetDebug (dbg : bool) (d : debugger) : debugger :=
  MkDebugger dbg (MallocCount d) (FreeCount d) (NeedFree d) (SizeMap d).

Definition incrMallocSlow (size : Z) (d : debugger) : debugger :=
  let m := default ∅ (SizeMap d) in
  let m' := match m !! size with
            | Some v => <[size := MkSizeMap (sm_MallocCount v + 1) (sm_FreeCount v) (sm_NeedFree v + 1)]> m
            | None => <[size := MkSizeMap 1 0 1]> m
            end in
  MkDebugger (dbg_on d) (MallocCount d + 1) (FreeCount d) (NeedFree d + 1) (Some m').

Definition incrMalloc (size : Z) (d : debugger) : debugger :=
  if dbg_on d then incrMallocSlow size d else d.

(** A store into a nil map panics; a lookup does not. *)
Definition incrFreeSlow (size : Z) (d : debugger) : option debugger :=
  m' ← match SizeMap d with
       | None => None
       | Some m =>
           match m !! size with
           | Some v => Some (<[size := MkSizeMap (sm_MallocCount v) (sm_FreeCount v + 1) (sm_NeedFree v - 1)]> m)
           | None => Some (<[size := MkSizeMap 1 0 (-1)]> m)
           end
       end;
  Some (MkDebugger (dbg_on d) (MallocCount d) (FreeCount d + 1) (NeedFree d - 1) (Some m')).

Definition incrFree (size : Z) (d : debugger) : option debugger :=
  if dbg_on d then incrFreeSlow size d else Some d.

(** ** sync.Pool *)

Section pools.
Context (pick : list pbuf -> option nat).

(** [Get]: an element of the pool, or [None] where the pool's [New] runs. *)
Definition pool_take (pool : list pbuf) : option (pbuf * list pbuf) :=
  i ← pick pool; p ← pool !! i; Some (p, delete i pool).

(** ** AlignedAllocator *)

Definition minAlignedBufferSizeBits : Z := 5.
Definition maxAlignedBufferSizeBits : Z := 15.
Definition minAlignedBufferSize : Z := Z.shiftl 1 minAlignedBufferSizeBits.
Definition minAlignedBufferSizeMask : Z := minAlignedBufferSize - 1.
Definition maxAlignedBufferSize : Z := Z.shiftl 1 maxAlignedBufferSizeBits.
Definition alignedPoolBucketNum : Z := maxAlignedBufferSizeBits - minAlignedBufferSizeBits + 1.

(** [poolSizes\[i\]] *)
Definition pool_size (i : nat) : Z := Z.shiftl 1 (Z.of_nat i + minAlignedBufferSizeBits).

Definition poolSizes : list Z := map pool_size (seq 0 (Z.to_nat alignedPoolBucketNum)).

Fixpoint getPoolBySize_from (i : nat) (sizes : list Z) (size : Z) : nat :=
  match sizes with
  | [] => 255%nat
  | n :: r => if size <=? n then i else getPoolBySize_from (S i) r size
  end.

Definition getPoolBySize (size : Z) : nat := getPoolBySize_from 0 poolSizes size.

(** [alignedIndexes\[size\]], which [init] fills with [getPoolBySize]. *)
Definition alignedIndexes (size : Z) : option nat :=
  if (0 <=? size) && (size <=? maxAlignedBufferSize) then Some (getPoolBySize size) else None.

Record aligned := MkAligned {
  al_next : nat;
  al_pools : list (list pbuf);
  al_dbg : debugger
}.

Definition newAligned : aligned := MkAligned 0 (replicate 11 []) newDebugger.

Definition aligned_get (idx : nat) (a : aligned) : option (pbuf * aligned) :=
  pool ← al_pools a !! idx;
  match pool_take pool with
  | Some (p, rest) => Some (p, MkAligned (al_next a) (<[idx := rest]> (al_pools a)) (al_dbg a))
  | None => Some (make (al_next a) (pool_size idx), MkAligned (S (al_next a)) (al_pools a) (al_dbg a))
  end.

Definition al_count (p : pbuf) (a : aligned) : aligned :=
  MkAligned (al_next a) (al_pools a) (incrMalloc (cap p) (al_dbg a)).

(** A negative size gives a nil pointer, which is [None] here too. *)
Definition aligned_Malloc (size : Z) (a : aligned) : option (pbuf * aligned) :=
  if size <? 0 then None
  else
    '(ret, a) ←
      (if size <=? maxAlignedBufferSize then
         idx ← alignedIndexes size;
         '(p, a) ← aligned_get idx a;
         ret ← reslice p size;
         Some (ret, a)
       else Some (make (al_next a) size, MkAligned (S (al_next a)) (al_pools a) (al_dbg a)));
    Some (ret, al_count ret a).

Definition aligned_Free (p : pbuf) (a : aligned) : option aligned :=
  let size := cap p in
  if negb (Z.land size minAlignedBufferSizeMask =? 0) || (maxAlignedBufferSize <? size) then Some a
  else
    d ← incrFree size (al_dbg a);
    idx ← alignedIndexes size;
    pool ← al_pools a !! idx;
    Some (MkAligned (al_next a) (<[idx := p :: pool]> (al_pools a)) d).

Definition aligned_Realloc (p : pbuf) (size : Z) (a : aligned) : option (pbuf * aligned) :=
  if size <=? cap p then ret ← reslice p size; Some (ret, a)
  else
    '(q, a) ← aligned_Malloc size a;
    let q := copy_at q 0 (data p) in
    a ← aligned_Free p a;
    Some (q, a).

Definition aligned_Append (p : pbuf) (more : bytes) (a : aligned) : option (pbuf * aligned) :=
  if len more <=? cap p - b_len p then
    Some (MkBuf (b_id p) (overwrite (b_mem p) (Z.to_nat (b_len p)) more) (b_len p + len more), a)
  else
    '(q, a) ← aligned_Malloc (b_len p + len more) a;
    let q := copy_at q 0 (data p) in
    let q := copy_at q (b_len p) more in
    a ← aligned_Free p a;
    Some (q, a).

(** A string is its bytes: the source only changes the header. *)
Definition aligned_AppendString (p : pbuf) (s : bytes) (a : aligned) : option (pbuf * aligned) :=
  aligned_Append p s a.

(** ** MemPool *)

Context (grow : Z -> Z -> Z).

Record mempool := MkMemPool {
  mp_bufSize : Z;
  mp_freeSize : Z;
  mp_next : nat;
  mp_pool : list pbuf;
  mp_dbg : debugger
}.

Definition New (bufSize freeSize : Z) : mempool :=
  let bufSize := if bufSize <=? 0 then 64 else bufSize in
  let freeSize := if freeSize <=? 0 then 64 * 1024 else freeSize in
  let freeSize := if freeSize <? bufSize then bufSize else freeSize in
  MkMemPool bufSize freeSize 0 [] newDebugger.

Definition mp_get (m : mempool) : pbuf * mempool :=
  match pool_take (mp_pool m) with
  | Some (p, rest) => (p, MkMemPool (mp_bufSize m) (mp_freeSize m) (mp_next m) rest (mp_dbg m))
  | None => (make (mp_next m) (mp_bufSize m),
             MkMemPool (mp_bufSize m) (mp_freeSize m) (S (mp_next m)) (mp_pool m) (mp_dbg m))
  end.

(** A new backing array was used: the next identity is fresh again. *)
Definition mp_fresh (used : bool) (m : mempool) : mempool :=
  if used then MkMemPool (mp_bufSize m) (mp_freeSize m) (S (mp_next m)) (mp_pool m) (mp_dbg m) else m.

Definition mp_count (p : pbuf) (m : mempool) : mempool :=
  MkMemPool (mp_bufSize m) (mp_freeSize m) (mp_next m) (mp_pool m) (incrMalloc (cap p) (mp_dbg m)).

(** [append(( *p )\[:n\], make(\[\]byte, size-n)...)\[:size\]] with [n] the
    capacity of [p], when [n < size], and [( *p )\[:size\]] otherwise. *)
Definition mp_fit (p : pbuf) (size : Z) (m : mempool) : option (pbuf * mempool) :=
  '(p, m) ←
    (if cap p <? size then
       q ← reslice p (cap p);
       let '(q', used) := go_append grow (mp_next m) q (replicate (Z.to_nat (size - cap p)) x00) in
       Some (q', mp_fresh used m)
     else Some (p, m));
  p ← reslice p size;
  Some (p, m).

Definition mp_Malloc (size : Z) (m : mempool) : option (pbuf * mempool) :=
  if mp_freeSize m <? size then
    let ret := make (mp_next m) size in
    Some (ret, mp_count ret (mp_fresh true m))
  else
    let '(p, m) := mp_get m in
    '(p, m) ← mp_fit p size m;
    Some (p, mp_count p m).

Definition mp_Free (p : pbuf) (m : mempool) : option mempool :=
  if 0 <? cap p then
    d ← incrFree (cap p) (mp_dbg m);
    let m := MkMemPool (mp_bufSize m) (mp_freeSize m) (mp_next m) (mp_pool m) d in
    if mp_freeSize m <? cap p then Some m
    else Some (MkMemPool (mp_bufSize m) (mp_freeSize m) (mp_next m) (p :: mp_pool m) d)
  else Some m.

Definition mp_Realloc (p : pbuf) (size : Z) (m : mempool) : option (pbuf * mempool) :=
  if size <=? cap p then ret ← reslice p size; Some (ret, m)
  else if cap p <? mp_freeSize m then
    let '(q, m) := mp_get m in
    '(q, m) ← mp_fit q size m;
    let q := copy_at q 0 (data p) in
    m ← mp_Free p m;
    Some (q, m)
  else mp_fit p size m.

Definition mp_Append (p : pbuf) (more : bytes) (m : mempool) : option (pbuf * mempool) :=
  let '(q, used) := go_append grow (mp_next m) p more in
  Some (q, mp_fresh used m).

Definition mp_AppendString (p : pbuf) (more : bytes) (m : mempool) : option (pbuf * mempool) :=
  let '(q, used) := go_append grow (mp_next m) p more in
  Some (q, mp_fresh used m).

(** The pool behind the package's functions. *)
Definition DefaultMemPool : mempool := New 1024 (1024 * 1024 * 1024).

(** ** stdAllocator *)

Record stdAllocator := MkStd { std_next : nat; std_dbg : debugger }.

Definition NewSTD : stdAllocator := MkStd 0 newDebugger.

Definition std_Malloc (size : Z) (s : stdAllocator) : option (pbuf * stdAllocator) :=
  if size <? 0 then None
  else let ret := make (std_next s) size in
       Some (ret, MkStd (S (std_next s)) (incrMalloc (cap ret) (std_dbg s))).

Definition std_Realloc (p : pbuf) (size : Z) (s : stdAllocator) : option (pbuf * stdAllocator) :=
  if size <=? cap p then ret ← reslice p size; Some (ret, s)
  else Some (copy_at (make (std_next s) size) 0 (data p), MkStd (S (std_next s)) (std_dbg s)).

Definition std_Free (p : pbuf) (s : stdAllocator) : option stdAllocator :=
  d ← incrFree (cap p) (std_dbg s);
  Some (MkStd (std_next s) d).

Definition std_Append (p : pbuf) (more : bytes) (s : stdAllocator) : option (pbuf * stdAllocator) :=
  let '(q, used) := go_append grow (std_next s) p more in
  Some (q, MkStd (if used then S (std_next s) else std_next s) (std_dbg s)).

Definition std_AppendString (p : pbuf) (more : bytes) (s : stdAllocator) : option (pbuf * stdAllocator) :=
  let '(q, used) := go_append grow (std_next s) p more in
  Some (q, MkStd (if used then S (std_next s) else std_next s) (std_dbg s)).

End pools.
