(* ===== verification/MempoolFacts.v ===== *)
(** * Memory pools: the three allocators keep the allocator's laws *)

From Stdlib Require Import ZArith Lia.
From Stdlib Require Import Strings.Byte.
From stdpp Require Import base numbers list list_numbers gmap.
From S2P Require Import Prelude Mempool.

Open Scope Z_scope.

(** ** Buffers *)

Lemma overwrite_length mem k src : length (overwrite mem k src) = length mem.
Proof.
  unfold overwrite. rewrite length_take, !length_app, length_take, length_drop. lia.
Qed.

(** Writing within the array: the part before, the bytes, the part behind. *)
Lemma overwrite_eq mem k src :
  (k + length src <= length mem)%nat ->
  overwrite mem k src = take k mem ++ src ++ drop (k + length src) mem.
Proof.
  intros H. unfold overwrite. apply take_ge.
  rewrite !length_app, length_take, length_drop. lia.
Qed.

Lemma cap_view p mem n : length mem = length (b_mem p) -> cap (MkBuf (b_id p) mem n) = cap p.
Proof. intros H. unfold cap, len. cbn. by rewrite H. Qed.

Lemma data_len p : buf_ok p -> len (data p) = b_len p.
Proof. unfold buf_ok, cap, data. intros H. rewrite len_take. lia. Qed.

Lemma make_ok id n : 0 <= n -> buf_ok (make id n) /\ cap (make id n) = n /\ b_len (make id n) = n.
Proof.
  intros. unfold buf_ok, cap, make, len. cbn. rewrite length_replicate. lia.
Qed.

Lemma reslice_eq p n : 0 <= n <= cap p -> reslice p n = Some (MkBuf (b_id p) (b_mem p) n).
Proof. intros. unfold reslice. by rewrite !(proj2 (Z.leb_le _ _)) by lia. Qed.

Lemma copy_at_mem p k src : length (b_mem (copy_at p k src)) = length (b_mem p).
Proof. apply overwrite_length. Qed.

(** Appending in place. *)
Lemma append_in_place p more :
  buf_ok p -> b_len p + len more <= cap p ->
  data (MkBuf (b_id p) (overwrite (b_mem p) (Z.to_nat (b_len p)) more) (b_len p + len more))
  = data p ++ more.
Proof.
  unfold buf_ok, cap, data, len. cbn. intros H1 H2.
  rewrite overwrite_eq by lia. rewrite app_assoc.
  apply take_app_length'. rewrite length_app, length_take. lia.
Qed.

(** Copying a buffer's contents to the front of a longer one. *)
Lemma copy_prefix q d n :
  buf_ok q -> (n <= length d)%nat -> (n <= Z.to_nat (b_len q))%nat ->
  take n (data (copy_at q 0 d)) = take n d.
Proof.
  unfold buf_ok, cap, len, data, copy_at. intros Hq H1 H2. cbn [b_len b_mem].
  rewrite Z.sub_0_r, overwrite_eq by (rewrite length_take; lia).
  change (Z.to_nat 0) with 0%nat. rewrite take_0. cbn [app].
  rewrite take_take, Nat.min_l by lia.
  rewrite take_app_le by (rewrite length_take; lia).
  rewrite take_take. f_equal. lia.
Qed.

(** Copying two pieces one behind the other fills the buffer. *)
Lemma copy_two q d more :
  buf_ok q -> b_len q = len d + len more ->
  data (copy_at (copy_at q 0 d) (len d) more) = d ++ more.
Proof.
  intros Hq Hl. unfold buf_ok, cap, len in *.
  remember (copy_at q 0 d) as c eqn:Hc.
  assert (b_len c = b_len q) as Hcl by by rewrite Hc.
  assert (length (b_mem c) = length (b_mem q)) as Hcm by by rewrite Hc, copy_at_mem.
  unfold data, copy_at. cbn [b_mem b_len]. rewrite Hcl.
  rewrite (take_ge more) by lia.
  rewrite overwrite_eq by lia.
  rewrite Nat2Z.id.
  assert (take (length d) (b_mem c) = d) as ->.
  { pose proof (copy_prefix q d (length d) Hq ltac:(lia) ltac:(lia)) as H.
    unfold data in H. rewrite <- Hc, Hcl in H.
    rewrite take_take, Nat.min_l in H by lia. rewrite H. by apply take_ge. }
  rewrite app_assoc. apply take_app_length'. rewrite length_app. lia.
Qed.

(** ** Counters *)

(** Freeing does not panic when the size map exists or counting is off. *)
Definition dbg_ok (d : debugger) : Prop := dbg_on d = true -> is_Some (SizeMap d).

Lemma incrMalloc_ok n d : dbg_ok d -> dbg_ok (incrMalloc n d).
Proof.
  unfold dbg_ok, incrMalloc. intros H. destruct (dbg_on d) eqn:E; [|by rewrite E].
  cbn. eauto.
Qed.

Lemma incrFree_ok n d : dbg_ok d -> exists d', incrFree n d = Some d' /\ dbg_ok d'.
Proof.
  unfold dbg_ok, incrFree, incrFreeSlow. intros H. destruct (dbg_on d) eqn:E; [|eauto].
  destruct (H eq_refl) as [m ->].
  destruct (m !! n); cbn [mbind option_bind]; eexists; split; try done; cbn; eauto.
Qed.

(** ** Identities held by a pool *)

Definition ids (pool : list pbuf) : list nat := b_id <$> pool.

(** [pool_take] removes one element. *)
Lemma pool_take_perm pick pool p rest :
  pool_take pick pool = Some (p, rest) -> pool ≡ₚ p :: rest.
Proof.
  unfold pool_take. destruct (pick pool) as [i|]; [|done]. cbn.
  destruct (pool !! i) as [q|] eqn:E; [|done]. cbn. intros [= <- <-].
  by apply delete_Permutation.
Qed.

(** Replacing one list of a list of lists. *)
Lemma concat_insert_perm {B} (ls : list (list B)) i old new :
  ls !! i = Some old -> exists r, concat ls ≡ₚ old ++ r /\ concat (<[i := new]> ls) ≡ₚ new ++ r.
Proof.
  intros H. exists (concat (take i ls) ++ concat (drop (S i) ls)). split.
  - rewrite <- (take_drop_middle ls i old H) at 1. rewrite concat_app, concat_cons.
    solve_Permutation.
  - rewrite insert_take_drop by (by eapply lookup_lt_Some).
    rewrite concat_app, concat_cons. solve_Permutation.
Qed.

(** The pool [pool] and the outstanding set [live] share no array, no array is
    pooled twice, and identities from [next] on are unused. *)
Definition owned (pool : list pbuf) (live : gset nat) (next : nat) : Prop :=
  NoDup (ids pool) /\ (forall x, x ∈ ids pool -> x ∉ live) /\
  (forall x, x ∈ live \/ x ∈ ids pool -> (x < next)%nat).

Lemma owned_perm pool pool' live next : pool ≡ₚ pool' -> owned pool live next -> owned pool' live next.
Proof. unfold owned, ids. intros H. setoid_rewrite H. done. Qed.

(** Taking a pooled array, using a fresh one, and giving one back. *)
Lemma owned_take p pool live next :
  owned (p :: pool) live next ->
  (b_id p ∉ live) /\ owned pool ({[b_id p]} ∪ live) next.
Proof.
  unfold owned. cbn [ids fmap list_fmap]. intros (Hn & Hd & Hf).
  apply NoDup_cons in Hn as [Hp Hn]. split; [apply Hd; set_solver|].
  split; [done|]. split; [set_solver|]. intros x Hx. apply Hf. set_solver.
Qed.

Lemma owned_fresh pool live next :
  owned pool live next -> (next ∉ live) /\ owned pool ({[next]} ∪ live) (S next).
Proof.
  unfold owned. intros (Hn & Hd & Hf). split.
  { intros H. specialize (Hf next (or_introl H)). lia. }
  split; [done|]. split.
  - intros x Hx [->%elem_of_singleton | Hl]%elem_of_union; [|by eapply Hd].
    specialize (Hf next (or_intror Hx)). lia.
  - intros x [[->%elem_of_singleton | Hl]%elem_of_union | Hx]; [lia| |];
      [specialize (Hf x (or_introl Hl))|specialize (Hf x (or_intror Hx))]; lia.
Qed.

Lemma owned_give p pool live next :
  owned pool live next -> b_id p ∈ live -> owned (p :: pool) (live ∖ {[b_id p]}) next.
Proof.
  unfold owned. cbn [ids fmap list_fmap]. intros (Hn & Hd & Hf) Hl. split.
  { apply NoDup_cons. split; [|done]. intros H. by eapply Hd. }
  split; [set_solver|]. intros x Hx. apply Hf. set_solver.
Qed.

Lemma owned_drop pool live next x : owned pool live next -> owned pool (live ∖ {[x]}) next.
Proof.
  unfold owned. intros (Hn & Hd & Hf). split; [done|]. split; [set_solver|].
  intros y Hy. apply Hf. set_solver.
Qed.

(** Sets of identities. *)
Lemma live_swap (q p : nat) (live : gset nat) :
  q ∉ live -> p ∈ live -> ({[q]} ∪ live) ∖ {[p]} = {[q]} ∪ live ∖ {[p]}.
Proof. intros Hq Hp. assert (q <> p) by (intros ->; done). set_solver. Qed.

Lemma live_back (q : nat) (live : gset nat) : q ∉ live -> ({[q]} ∪ live) ∖ {[q]} = live.
Proof. set_solver. Qed.

(** ** AlignedAllocator *)

Section aligned.
Context (pick : list pbuf -> option nat).

Definition bucket_ok (i : nat) (p : pbuf) : Prop := buf_ok p /\ cap p = pool_size i.

Definition aligned_genuine (p : pbuf) : Prop :=
  buf_ok p /\ (maxAlignedBufferSize < cap p \/ exists i, (i < 11)%nat /\ cap p = pool_size i).

Record aligned_inv (a : aligned) (live : gset nat) : Prop := {
  ai_num : length (al_pools a) = 11%nat;
  ai_caps : forall i pool, al_pools a !! i = Some pool -> Forall (bucket_ok i) pool;
  ai_own : owned (concat (al_pools a)) live (al_next a);
  ai_dbg : dbg_ok (al_dbg a)
}.

(** The index table sends a size to the smallest bucket that holds it. *)
Lemma getPoolBySize_from_spec k i size :
  size <= pool_size (i + k) ->
  let j := getPoolBySize_from i (map pool_size (seq i (S k))) size in
  (i <= j <= i + k)%nat /\ size <= pool_size j /\ ((i < j)%nat -> pool_size (j - 1) < size).
Proof.
  revert i. induction k as [|k IH]; intros i H.
  - rewrite Nat.add_0_r in H. cbn [seq map getPoolBySize_from].
    rewrite (proj2 (Z.leb_le _ _)) by done. split; [lia|]. split; [done|lia].
  - destruct (IH (S i)) as (? & ? & Hlt); [by replace (S i + k)%nat with (i + S k)%nat by lia|].
    change (seq i (S (S k))) with (i :: seq (S i) (S k)).
    generalize dependent (seq (S i) (S k)). intros l ? ? Hlt. cbn [map getPoolBySize_from].
    destruct (size <=? pool_size i) eqn:E; bool_hyp; [split; [lia|]; split; [done|lia]|].
    split; [lia|]. split; [done|]. intros _.
    destruct (decide (S i < getPoolBySize_from (S i) (map pool_size l) size)%nat)
      as [Hl|Hl]; [by apply Hlt|].
    replace (getPoolBySize_from _ _ _ - 1)%nat with i by lia. done.
Qed.

Lemma alignedIndexes_spec size :
  0 <= size <= maxAlignedBufferSize ->
  exists i, alignedIndexes size = Some i /\ (i < 11)%nat /\ size <= pool_size i /\
    ((0 < i)%nat -> pool_size (i - 1) < size).
Proof.
  intros H. unfold alignedIndexes. rewrite !(proj2 (Z.leb_le _ _)) by lia.
  eexists; split; [done|]. unfold getPoolBySize.
  change poolSizes with (map pool_size (seq 0 (S 10))).
  destruct (getPoolBySize_from_spec 10 0 size) as (? & ? & ?).
  { change (pool_size (0 + 10)) with maxAlignedBufferSize. lia. }
  split; [lia|]. done.
Qed.

(** A buffer of a bucket's size goes back to that bucket. *)
Lemma bucket_index i :
  (i < 11)%nat -> alignedIndexes (pool_size i) = Some i /\
    Z.land (pool_size i) minAlignedBufferSizeMask = 0 /\ 32 <= pool_size i <= maxAlignedBufferSize.
Proof.
  intros H. do 11 (destruct i as [|i]; [split; [by vm_compute|]; split; [by vm_compute|]; by vm_compute|]).
  lia.
Qed.

Lemma aligned_get_ok idx a live :
  aligned_inv a live -> (idx < 11)%nat ->
  exists p a', aligned_get pick idx a = Some (p, a') /\ bucket_ok idx p /\
    (b_id p ∉ live) /\ aligned_inv a' ({[b_id p]} ∪ live).
Proof.
  intros [Hnum Hcaps Hown Hdbg] Hi. unfold aligned_get.
  destruct (lookup_lt_is_Some_2 (al_pools a) idx) as [pool Hp]; [lia|].
  rewrite Hp. cbn [mbind option_bind].
  destruct (pool_take pick pool) as [[p rest]|] eqn:E.
  - apply pool_take_perm in E.
    destruct (concat_insert_perm (al_pools a) idx pool rest Hp) as (r & Hc1 & Hc2).
    assert (owned (p :: concat (<[idx:=rest]> (al_pools a))) live (al_next a)) as Ho.
    { eapply owned_perm; [|exact Hown]. rewrite Hc1, Hc2, E. done. }
    apply owned_take in Ho as [Hid Ho]. pose proof (Hcaps _ _ Hp) as Hb. rewrite E in Hb.
    apply Forall_cons in Hb as [Hbp Hbr].
    eexists _, _. split; [done|]. split; [done|]. split; [done|]. split; [|..|done|done]; cbn.
    + by rewrite length_insert.
    + intros i pool' Hl. destruct (decide (i = idx)) as [-> |Hne].
      * rewrite list_lookup_insert_eq in Hl by lia. by injection Hl as <-.
      * rewrite list_lookup_insert_ne in Hl by done. eauto.
  - destruct (owned_fresh _ _ _ Hown) as [Hid Ho].
    assert (0 <= pool_size idx) as Hs by (destruct (bucket_index idx Hi) as (_ & _ & ?); lia).
    destruct (make_ok (al_next a) _ Hs) as (? & ? & ?).
    eexists _, _. split; [done|]. split; [by split|]. split; [done|]. by split.
Qed.

Lemma aligned_malloc_ok a live n :
  aligned_inv a live -> 0 <= n ->
  exists p a', aligned_Malloc pick n a = Some (p, a') /\ b_len p = n /\ aligned_genuine p /\
    (b_id p ∉ live) /\ aligned_inv a' ({[b_id p]} ∪ live).
Proof.
  intros Hinv Hn. unfold aligned_Malloc. rewrite (proj2 (Z.ltb_ge _ _)) by lia.
  assert (forall p a', aligned_inv a' live -> aligned_inv (al_count p a') live) as Hcount.
  { intros p a' [???Hd]. split; [done..|]. by apply incrMalloc_ok. }
  destruct (n <=? maxAlignedBufferSize) eqn:E; bool_hyp.
  - destruct (alignedIndexes_spec n) as (i & -> & Hi & Hle & _); [lia|]. cbn [mbind option_bind].
    destruct (aligned_get_ok i a live Hinv Hi) as (p & a' & -> & [Hok Hcap] & Hid & Hinv').
    cbn [mbind option_bind]. rewrite reslice_eq by lia. cbn [mbind option_bind].
    eexists _, _. split; [done|]. split; [done|]. split.
    { split; [unfold buf_ok; rewrite cap_view by done; cbn; lia|right]. exists i. by rewrite cap_view. }
    split; [done|]. destruct Hinv' as [???Hd]. split; [done..|]. by apply incrMalloc_ok.
  - cbn [mbind option_bind]. destruct Hinv as [Hnum Hcaps Hown Hdbg].
    destruct (owned_fresh _ _ _ Hown) as [Hid Ho]. destruct (make_ok (al_next a) n Hn) as (? & Hc & ?).
    eexists _, _. split; [done|]. split; [done|]. split; [split; [done|left; lia]|].
    split; [done|]. split; [done..|]. by apply incrMalloc_ok.
Qed.

Lemma aligned_free_ok a live p :
  aligned_inv a live -> aligned_genuine p -> b_id p ∈ live ->
  exists a', aligned_Free p a = Some a' /\ aligned_inv a' (live ∖ {[b_id p]}).
Proof.
  intros [Hnum Hcaps Hown Hdbg] [Hok [Hbig|(i & Hi & Hc)]] Hl; unfold aligned_Free.
  - rewrite (proj2 (Z.ltb_lt _ _)) by lia. rewrite orb_true_r.
    eexists; split; [done|]. split; [done..| |done]. by apply owned_drop.
  - destruct (bucket_index i Hi) as (Hidx & Hland & Hr). rewrite Hc.
    rewrite Hland, (proj2 (Z.ltb_ge _ _)) by lia. cbn [negb orb Z.eqb].
    destruct (incrFree_ok (pool_size i) _ Hdbg) as (d & -> & Hd). cbn [mbind option_bind].
    rewrite Hidx. cbn [mbind option_bind].
    destruct (lookup_lt_is_Some_2 (al_pools a) i) as [pool Hp]; [lia|].
    rewrite Hp. cbn [mbind option_bind]. eexists; split; [done|].
    destruct (concat_insert_perm (al_pools a) i pool (p :: pool) Hp) as (r & Hc1 & Hc2).
    split; cbn; [by rewrite length_insert| |..|done].
    + intros j pool' Hj. destruct (decide (j = i)) as [-> |Hne].
      * rewrite list_lookup_insert_eq in Hj by lia. injection Hj as <-.
        apply Forall_cons. split; [by split|eauto].
      * rewrite list_lookup_insert_ne in Hj by done. eauto.
    + eapply owned_perm; [|exact (owned_give p _ _ _ Hown Hl)]. rewrite Hc2, Hc1. done.
Qed.

Lemma aligned_view p mem n :
  aligned_genuine p -> length mem = length (b_mem p) -> 0 <= n <= cap p ->
  aligned_genuine (MkBuf (b_id p) mem n).
Proof.
  intros [_ Hc] Hm Hn. unfold aligned_genuine, buf_ok. rewrite cap_view by done. by split.
Qed.

(** Copying into a buffer keeps it genuine. *)
Lemma aligned_copy q k d : aligned_genuine q -> aligned_genuine (copy_at q k d).
Proof.
  intros H. pose proof H as [Hok _]. apply aligned_view; [done|apply overwrite_length|done].
Qed.

(** Moving to a new buffer: the old one is given back. *)
Lemma aligned_move a live p q :
  aligned_inv a ({[b_id q]} ∪ live) -> (b_id q ∉ live) -> aligned_genuine p -> b_id p ∈ live ->
  exists a', aligned_Free p a = Some a' /\ (b_id q ∉ live ∖ {[b_id p]}) /\
    aligned_inv a' ({[b_id q]} ∪ live ∖ {[b_id p]}).
Proof.
  intros Hinv Hq Hg Hp.
  destruct (aligned_free_ok a _ p Hinv Hg) as (a' & He & Hinv'); [set_solver|].
  exists a'. split; [done|]. split; [set_solver|].
  by rewrite <- live_swap.
Qed.

Lemma aligned_realloc_ok a live p n :
  aligned_inv a live -> aligned_genuine p -> b_id p ∈ live -> 0 <= n ->
  exists p' a', aligned_Realloc pick p n a = Some (p', a') /\ b_len p' = n /\ aligned_genuine p' /\
    (forall k, 0 <= k <= n -> k <= b_len p ->
      take (Z.to_nat k) (data p') = take (Z.to_nat k) (data p)) /\
    (b_id p' ∉ live ∖ {[b_id p]}) /\ aligned_inv a' ({[b_id p']} ∪ live ∖ {[b_id p]}).
Proof.
  intros Hinv Hg Hl Hn. unfold aligned_Realloc. destruct (n <=? cap p) eqn:E; bool_hyp.
  - rewrite reslice_eq by lia. cbn [mbind option_bind].
    eexists _, _. split; [done|]. split; [done|]. split; [by apply aligned_view|].
    split; [|split; [set_solver|]].
    + intros k Hk1 Hk2. unfold data. cbn. rewrite !take_take. f_equal. lia.
    + cbn [b_id]. by rewrite <- union_difference_singleton_L by done.
  - destruct (aligned_malloc_ok a live n Hinv Hn) as (q & a' & -> & Hq & Hgq & Hid & Hinv').
    cbn [mbind option_bind].
    destruct (aligned_move a' live p q Hinv' Hid Hg Hl) as (a'' & -> & ? & ?). cbn [mbind option_bind].
    eexists _, _. split; [done|]. split; [done|]. split; [by apply aligned_copy|]. split; [|by split].
    intros k Hk1 Hk2. pose proof (data_len p (proj1 Hg)) as Hd. unfold len in Hd.
    apply copy_prefix; [apply Hgq|lia|lia].
Qed.

Lemma aligned_append_ok a live p more :
  aligned_inv a live -> aligned_genuine p -> b_id p ∈ live ->
  exists p' a', aligned_Append pick p more a = Some (p', a') /\
    data p' = data p ++ more /\ aligned_genuine p' /\
    (b_id p' ∉ live ∖ {[b_id p]}) /\ aligned_inv a' ({[b_id p']} ∪ live ∖ {[b_id p]}).
Proof.
  intros Hinv Hg Hl. pose proof Hg as [Hok _]. pose proof (len_nonneg more).
  unfold aligned_Append. destruct (len more <=? cap p - b_len p) eqn:E; bool_hyp.
  - eexists _, _. split; [done|]. split; [apply append_in_place; [done|lia]|].
    split; [apply aligned_view; [done|apply overwrite_length|unfold buf_ok in Hok; lia]|].
    split; [set_solver|]. cbn [b_id]. by rewrite <- union_difference_singleton_L by done.
  - destruct (aligned_malloc_ok a live (b_len p + len more) Hinv) as (q & a' & -> & Hq & Hgq & Hid & Hinv');
      [unfold buf_ok in Hok; lia|]. cbn [mbind option_bind].
    destruct (aligned_move a' live p q Hinv' Hid Hg Hl) as (a'' & -> & ? & ?). cbn [mbind option_bind].
    eexists _, _. split; [done|]. rewrite <- (data_len p Hok) in *.
    split; [apply copy_two; [apply Hgq|done]|]. split; [by apply aligned_copy, aligned_copy|]. by split.
Qed.

End aligned.

#[export] Instance aligned_allocator (pick : list pbuf -> option nat) : Allocator aligned := {
  Malloc := aligned_Malloc pick;
  Realloc := aligned_Realloc pick;
  Append := aligned_Append pick;
  Free := aligned_Free
}.

#[export, refine] Instance aligned_laws (pick : list pbuf -> option nat) :
  @AllocatorLaws aligned (aligned_allocator pick) := {
  alloc_inv := aligned_inv;
  genuine := aligned_genuine
}.
Proof.
  - by intros p [? _].
  - apply aligned_view.
  - apply aligned_malloc_ok.
  - apply aligned_realloc_ok.
  - apply aligned_append_ok.
  - apply aligned_free_ok.
Defined.

(** ** MemPool *)

(** The runtime grows a slice to a capacity that holds what is appended. *)
Class GrowLaw (grow : Z -> Z -> Z) : Prop := grow_enough c n : n <= grow c n.

Section mempool.
Context (pick : list pbuf -> option nat) (grow : Z -> Z -> Z) `{!GrowLaw grow}.

Record mp_inv (m : mempool) (live : gset nat) : Prop := {
  mi_bufSize : 0 <= mp_bufSize m;
  mi_bufs : Forall buf_ok (mp_pool m);
  mi_own : owned (mp_pool m) live (mp_next m);
  mi_dbg : dbg_ok (mp_dbg m)
}.

Lemma New_inv bufSize freeSize : mp_inv (New bufSize freeSize) ∅.
Proof.
  split; cbn; [|done|..|done].
  - destruct (bufSize <=? 0) eqn:E; bool_hyp; lia.
  - repeat split; [constructor|set_solver|set_solver].
Qed.

(** Appending to a slice: the result, and the fresh identity when it moves. *)
Lemma go_append_ok fresh p more :
  buf_ok p ->
  let '(q, used) := go_append grow fresh p more in
  buf_ok q /\ data q = data p ++ more /\ b_len q = b_len p + len more /\
  b_id q = (if used then fresh else b_id p).
Proof.
  intros Hok. pose proof (data_len p Hok) as Hd. pose proof (len_nonneg more).
  unfold go_append. destruct (b_len p + len more <=? cap p) eqn:E; bool_hyp.
  - split; [|split; [by apply append_in_place|done]].
    unfold buf_ok in *. rewrite cap_view by apply overwrite_length. cbn. lia.
  - pose proof (grow_enough (cap p) (b_len p + len more)). split; [|split; [|done]].
    + unfold buf_ok, cap in *. cbn [b_len b_mem]. rewrite !len_app, Hd.
      pose proof (len_nonneg (replicate (Z.to_nat (grow (len (b_mem p)) (b_len p + len more) - (b_len p + len more))) x00)).
      lia.
    + unfold data at 1. cbn [b_len b_mem]. apply take_app_length'.
      pose proof (len_app (data p) more) as Hl. unfold len at 1 in Hl. lia.
Qed.

(** The allocator after an append: the array moved to is owned instead. *)
Lemma mp_fresh_inv m live p q (used : bool) :
  mp_inv m live -> b_id p ∈ live -> b_id q = (if used then mp_next m else b_id p) ->
  (b_id q ∉ live ∖ {[b_id p]}) /\ mp_inv (mp_fresh used m) ({[b_id q]} ∪ live ∖ {[b_id p]}).
Proof.
  intros [? ? Hown ?] Hl ->. destruct used; cbn [mp_fresh].
  - destruct (owned_fresh _ _ _ (owned_drop _ _ _ (b_id p) Hown)) as [? ?]. by split.
  - split; [set_solver|]. rewrite <- union_difference_singleton_L by done. by split.
Qed.

Lemma mp_get_ok m live :
  mp_inv m live ->
  let '(p, m') := mp_get pick m in
  buf_ok p /\ (b_id p ∉ live) /\ mp_inv m' ({[b_id p]} ∪ live).
Proof.
  intros [Hb Hp Hown Hd]. unfold mp_get.
  destruct (pool_take pick (mp_pool m)) as [[p rest]|] eqn:E.
  - apply pool_take_perm in E. apply (owned_perm _ _ _ _ E), owned_take in Hown as [? ?].
    rewrite E in Hp. apply Forall_cons in Hp as [? ?]. split; [done|]. split; [done|]. by split.
  - destruct (owned_fresh _ _ _ Hown) as [? ?]. destruct (make_ok (mp_next m) _ Hb) as [? _].
    split; [done|]. split; [done|]. by split.
Qed.

(** Fitting a buffer keeps its contents up to the smaller length. *)
Lemma mp_fit_ok p size m live :
  mp_inv m live -> buf_ok p -> b_id p ∈ live -> 0 <= size ->
  exists q m', mp_fit grow p size m = Some (q, m') /\ buf_ok q /\ b_len q = size /\
    (forall k, 0 <= k <= size -> k <= b_len p ->
      take (Z.to_nat k) (data q) = take (Z.to_nat k) (data p)) /\
    (b_id q ∉ live ∖ {[b_id p]}) /\ mp_inv m' ({[b_id q]} ∪ live ∖ {[b_id p]}).
Proof.
  intros Hinv Hok Hl Hs. unfold mp_fit, buf_ok in *. destruct (cap p <? size) eqn:E; bool_hyp.
  - rewrite reslice_eq by lia. cbn [mbind option_bind].
    set (more := replicate (Z.to_nat (size - cap p)) x00).
    assert (len more = size - cap p) as Hm by (unfold len, more; rewrite length_replicate; lia).
    pose proof (go_append_ok (mp_next m) (MkBuf (b_id p) (b_mem p) (cap p)) more) as Ha.
    destruct (go_append _ _ _ _) as [q used]. destruct Ha as (Hq & Hdq & Hlq & Hidq).
    { unfold buf_ok. rewrite cap_view by done. cbn. lia. }
    cbn [b_len b_id mbind option_bind] in *. unfold buf_ok in Hq.
    rewrite reslice_eq by lia. cbn [mbind option_bind].
    destruct (mp_fresh_inv m live p q used Hinv Hl Hidq) as [? ?].
    eexists _, _. split; [done|]. cbn [b_len b_id]. split; [by rewrite cap_view by done; lia|].
    split; [done|]. split; [|by split]. intros k Hk1 Hk2.
    assert (data (MkBuf (b_id q) (b_mem q) size) = data q) as ->
      by (unfold data; cbn; by replace size with (b_len q) by lia).
    rewrite Hdq. unfold data at 1. cbn [b_len b_mem].
    rewrite take_app_le by (rewrite length_take; unfold cap, len in *; lia).
    unfold data. rewrite !take_take. f_equal. lia.
  - cbn [mbind option_bind]. rewrite reslice_eq by lia. cbn [mbind option_bind].
    destruct (mp_fresh_inv m live p p false Hinv Hl eq_refl) as [? ?].
    eexists _, _. split; [done|]. cbn [b_len b_id]. split; [by rewrite cap_view by done; lia|].
    split; [done|]. split; [|by split]. intros k Hk1 Hk2.
    unfold data. cbn. rewrite !take_take. f_equal. lia.
Qed.

Lemma mp_free_ok m live p :
  mp_inv m live -> buf_ok p -> b_id p ∈ live ->
  exists m', mp_Free p m = Some m' /\ mp_inv m' (live ∖ {[b_id p]}).
Proof.
  intros [Hb Hp Hown Hd] Hok Hl. unfold mp_Free. destruct (0 <? cap p).
  - destruct (incrFree_ok (cap p) _ Hd) as (d & -> & Hd'). cbn [mbind option_bind mp_freeSize].
    destruct (_ <? _); eexists; (split; [done|]); split; cbn; try done.
    + by apply owned_drop.
    + by apply Forall_cons.
    + by apply owned_give.
  - eexists; split; [done|]. split; try done. by apply owned_drop.
Qed.

Lemma mp_count_inv p m live : mp_inv m live -> mp_inv (mp_count p m) live.
Proof. intros [? ? ? ?]. split; [done..|]. by apply incrMalloc_ok. Qed.

Lemma mp_malloc_ok m live n :
  mp_inv m live -> 0 <= n ->
  exists p m', mp_Malloc pick grow n m = Some (p, m') /\ b_len p = n /\ buf_ok p /\
    (b_id p ∉ live) /\ mp_inv m' ({[b_id p]} ∪ live).
Proof.
  intros Hinv Hn. unfold mp_Malloc. destruct (mp_freeSize m <? n) eqn:E.
  - destruct (make_ok (mp_next m) n Hn) as (? & ? & ?). destruct Hinv as [? ? Hown ?].
    destruct (owned_fresh _ _ _ Hown) as [? ?].
    eexists _, _. split; [done|]. split; [done|]. split; [done|]. split; [done|].
    apply mp_count_inv. by split.
  - pose proof (mp_get_ok m live Hinv) as Hg. destruct (mp_get pick m) as [q m1].
    destruct Hg as (Hok & Hid & Hinv1).
    destruct (mp_fit_ok q n m1 _ Hinv1 Hok) as (p & m2 & -> & Hp & Hl & _ & Hid' & Hinv2); [set_solver|done|].
    cbn [mbind option_bind].
    rewrite live_back in * by done.
    eexists _, _. split; [done|]. split; [done|]. split; [done|]. split; [done|].
    by apply mp_count_inv.
Qed.

Lemma copy_at_ok q k d : buf_ok q -> buf_ok (copy_at q k d).
Proof. unfold buf_ok, copy_at. rewrite cap_view by apply overwrite_length. done. Qed.

Lemma mp_realloc_ok m live p n :
  mp_inv m live -> buf_ok p -> b_id p ∈ live -> 0 <= n ->
  exists p' m', mp_Realloc pick grow p n m = Some (p', m') /\ b_len p' = n /\ buf_ok p' /\
    (forall k, 0 <= k <= n -> k <= b_len p ->
      take (Z.to_nat k) (data p') = take (Z.to_nat k) (data p)) /\
    (b_id p' ∉ live ∖ {[b_id p]}) /\ mp_inv m' ({[b_id p']} ∪ live ∖ {[b_id p]}).
Proof.
  intros Hinv Hok Hl Hn. unfold mp_Realloc. destruct (n <=? cap p) eqn:E; bool_hyp.
  - pose proof (mp_fit_ok p n m live Hinv Hok Hl Hn) as (q & m' & Hf & H).
    unfold mp_fit in Hf. rewrite (proj2 (Z.ltb_ge _ _)) in Hf by lia. cbn [mbind option_bind] in Hf.
    destruct (reslice p n) as [r|]; [|done]. cbn [mbind option_bind] in *.
    injection Hf as -> ->. exists q, m'. naive_solver.
  - destruct (cap p <? mp_freeSize m).
    + pose proof (mp_get_ok m live Hinv) as Hg. destruct (mp_get pick m) as [q m1].
      destruct Hg as (Hokq & Hid & Hinv1).
      destruct (mp_fit_ok q n m1 _ Hinv1 Hokq) as (r & m2 & -> & Hr & Hlr & _ & Hidr & Hinv2); [set_solver|done|].
      cbn [mbind option_bind].
      rewrite live_back in * by done.
      destruct (mp_free_ok m2 _ p Hinv2 Hok) as (m3 & -> & Hinv3); [set_solver|]. cbn [mbind option_bind].
      eexists _, _. split; [done|]. split; [done|]. split; [by apply copy_at_ok|]. split; [|split].
      * intros k Hk1 Hk2. pose proof (data_len p Hok) as Hd. unfold len in Hd.
        apply copy_prefix; [done|lia|lia].
      * set_solver.
      * cbn [copy_at b_id]. by rewrite <- live_swap.
    + destruct (mp_fit_ok p n m live Hinv Hok Hl Hn) as (q & m' & -> & ? & ? & ? & ?). naive_solver.
Qed.

Lemma mp_append_ok m live p more :
  mp_inv m live -> buf_ok p -> b_id p ∈ live ->
  exists p' m', mp_Append grow p more m = Some (p', m') /\
    data p' = data p ++ more /\ buf_ok p' /\
    (b_id p' ∉ live ∖ {[b_id p]}) /\ mp_inv m' ({[b_id p']} ∪ live ∖ {[b_id p]}).
Proof.
  intros Hinv Hok Hl. unfold mp_Append. pose proof (go_append_ok (mp_next m) p more Hok) as Ha.
  destruct (go_append _ _ _ _) as [q used]. destruct Ha as (? & ? & ? & Hid).
  destruct (mp_fresh_inv m live p q used Hinv Hl Hid). eauto 10.
Qed.

End mempool.

#[export] Instance mempool_allocator (pick : list pbuf -> option nat) (grow : Z -> Z -> Z) :
  Allocator mempool := {
  Malloc := mp_Malloc pick grow;
  Realloc := mp_Realloc pick grow;
  Append := mp_Append grow;
  Free := mp_Free
}.

#[export, refine] Instance mempool_laws (pick : list pbuf -> option nat) (grow : Z -> Z -> Z)
  `{!GrowLaw grow} : @AllocatorLaws mempool (mempool_allocator pick grow) := {
  alloc_inv := mp_inv;
  genuine := buf_ok
}.
Proof.
  - done.
  - intros p mem n _ Hm Hn. unfold buf_ok. by rewrite cap_view.
  - by apply mp_malloc_ok.
  - by apply mp_realloc_ok.
  - by apply mp_append_ok.
  - apply mp_free_ok.
Defined.

(** ** stdAllocator *)

Section std.
Context (grow : Z -> Z -> Z) `{!GrowLaw grow}.

Definition std_inv (s : stdAllocator) (live : gset nat) : Prop :=
  (forall x, x ∈ live -> (x < std_next s)%nat) /\ dbg_ok (std_dbg s).

Lemma std_malloc_ok s live n :
  std_inv s live -> 0 <= n ->
  exists p s', std_Malloc n s = Some (p, s') /\ b_len p = n /\ buf_ok p /\
    (b_id p ∉ live) /\ std_inv s' ({[b_id p]} ∪ live).
Proof.
  intros [Hf Hd] Hn. unfold std_Malloc. rewrite (proj2 (Z.ltb_ge _ _)) by lia.
  destruct (make_ok (std_next s) n Hn) as (? & ? & ?).
  eexists _, _. split; [done|]. split; [done|]. split; [done|]. split.
  - intros Hx%Hf. cbn in *. lia.
  - split; [|by apply incrMalloc_ok]. cbn. intros x [->%elem_of_singleton | Hx%Hf]%elem_of_union; lia.
Qed.

(** The array moved to is owned instead of the old one. *)
Lemma std_move s live p q (used : bool) d :
  std_inv s live -> dbg_ok d -> b_id p ∈ live -> b_id q = (if used then std_next s else b_id p) ->
  (b_id q ∉ live ∖ {[b_id p]}) /\
  std_inv (MkStd (if used then S (std_next s) else std_next s) d) ({[b_id q]} ∪ live ∖ {[b_id p]}).
Proof.
  intros [Hf _] Hd Hl ->. destruct used.
  - split; [intros [Hx%Hf _]%elem_of_difference; lia|]. split; [|done]. cbn.
    intros x [->%elem_of_singleton | [Hx%Hf _]%elem_of_difference]%elem_of_union; lia.
  - split; [set_solver|]. rewrite <- union_difference_singleton_L by done. by split.
Qed.

Lemma std_realloc_ok s live p n :
  std_inv s live -> buf_ok p -> b_id p ∈ live -> 0 <= n ->
  exists p' s', std_Realloc p n s = Some (p', s') /\ b_len p' = n /\ buf_ok p' /\
    (forall k, 0 <= k <= n -> k <= b_len p ->
      take (Z.to_nat k) (data p') = take (Z.to_nat k) (data p)) /\
    (b_id p' ∉ live ∖ {[b_id p]}) /\ std_inv s' ({[b_id p']} ∪ live ∖ {[b_id p]}).
Proof.
  intros Hinv Hok Hl Hn. unfold std_Realloc. destruct (n <=? cap p) eqn:E; bool_hyp.
  - rewrite reslice_eq by lia. cbn [mbind option_bind].
    destruct (std_move s live p p false (std_dbg s) Hinv (proj2 Hinv) Hl eq_refl) as [? ?].
    eexists _, _. split; [done|]. split; [done|]. split; [unfold buf_ok; by rewrite cap_view|].
    split; [|split; [done|by destruct s]]. intros k Hk1 Hk2. unfold data. cbn. rewrite !take_take. f_equal. lia.
  - destruct (make_ok (std_next s) n Hn) as (Hm & _ & Hml).
    pose proof (copy_at_ok _ 0 (data p) Hm) as Hc.
    destruct (std_move s live p (copy_at (make (std_next s) n) 0 (data p)) true (std_dbg s) Hinv (proj2 Hinv) Hl eq_refl).
    eexists _, _. split; [done|]. split; [done|]. split; [done|]. split; [|by split].
    intros k Hk1 Hk2. pose proof (data_len p Hok) as Hd. unfold len in Hd.
    apply copy_prefix; [done|lia|lia].
Qed.

Lemma std_append_ok s live p more :
  std_inv s live -> buf_ok p -> b_id p ∈ live ->
  exists p' s', std_Append grow p more s = Some (p', s') /\
    data p' = data p ++ more /\ buf_ok p' /\
    (b_id p' ∉ live ∖ {[b_id p]}) /\ std_inv s' ({[b_id p']} ∪ live ∖ {[b_id p]}).
Proof.
  intros Hinv Hok Hl. unfold std_Append.
  pose proof (go_append_ok grow (std_next s) p more Hok) as Ha.
  destruct (go_append _ _ _ _) as [q used]. destruct Ha as (? & ? & ? & Hid).
  destruct (std_move s live p q used (std_dbg s) Hinv (proj2 Hinv) Hl Hid). eauto 10.
Qed.

Lemma std_free_ok s live p :
  std_inv s live -> exists s', std_Free p s = Some s' /\ std_inv s' (live ∖ {[b_id p]}).
Proof.
  intros [Hf Hd]. unfold std_Free. destruct (incrFree_ok (cap p) _ Hd) as (d & -> & ?).
  cbn [mbind option_bind]. eexists; split; [done|]. split; [set_solver|done].
Qed.

End std.

#[export] Instance std_allocator (grow : Z -> Z -> Z) : Allocator stdAllocator := {
  Malloc := std_Malloc;
  Realloc := std_Realloc;
  Append := std_Append grow;
  Free := std_Free
}.

#[export, refine] Instance std_laws (grow : Z -> Z -> Z) `{!GrowLaw grow} :
  @AllocatorLaws stdAllocator (std_allocator grow) := {
  alloc_inv := std_inv;
  genuine := buf_ok
}.
Proof.
  - done.
  - intros p mem n _ Hm Hn. unfold buf_ok. by rewrite cap_view.
  - by apply std_malloc_ok.
  - by apply (std_realloc_ok grow).
  - by apply std_append_ok.
  - intros; by apply (std_free_ok grow).
Defined.
