(* ===== verification/MempoolProps.v ===== *)
(** * Memory pools: clients of an allocator, and the properties

    A client that uses buffers through the interface sees plain byte strings,
    whichever of the three allocators is behind it. *)

From Stdlib Require Import ZArith Lia.
From Stdlib Require Import Strings.Byte Strings.String.
From stdpp Require Import base numbers list list_numbers gmap.
From S2P Require Import Prelude Mempool MempoolFacts.

Open Scope Z_scope.

(** ** Clients

    A client holds buffers and uses them through the interface: it takes one
    for some bytes, appends to one, grows one with [Realloc] and fills the new
    part, cuts one down, or gives one back. *)

Inductive cmd :=
| CNew (d : bytes)
| CAppend (i : nat) (more : bytes)
| CGrow (i : nat) (more : bytes)
| CTrunc (i : nat) (n : nat)
| CFree (i : nat).

(** What the client means: byte strings, with no memory behind them. *)
Definition spec_exec (c : cmd) (ds : list bytes) : list bytes :=
  match c with
  | CNew d => d :: ds
  | CAppend i more | CGrow i more => alter (.++ more) i ds
  | CTrunc i n => alter (take n) i ds
  | CFree i => delete i ds
  end.

Section client.
Context {A : Type} `{!Allocator A}.

Definition exec (c : cmd) (s : list pbuf * A) : option (list pbuf * A) :=
  let '(held, a) := s in
  match c with
  | CNew d =>
      '(p, a) ← Malloc (len d) a;
      Some (copy_at p 0 d :: held, a)
  | CAppend i more =>
      match held !! i with
      | None => Some s
      | Some p => '(q, a) ← Append p more a; Some (<[i := q]> held, a)
      end
  | CGrow i more =>
      match held !! i with
      | None => Some s
      | Some p =>
          '(q, a) ← Realloc p (b_len p + len more) a;
          Some (<[i := copy_at q (b_len p) more]> held, a)
      end
  | CTrunc i n =>
      match held !! i with
      | None => Some s
      | Some p =>
          '(q, a) ← Realloc p (Z.min (b_len p) (Z.of_nat n)) a;
          Some (<[i := q]> held, a)
      end
  | CFree i =>
      match held !! i with
      | None => Some s
      | Some p => a ← Free p a; Some (delete i held, a)
      end
  end.

Definition run (cs : list cmd) (s : list pbuf * A) : option (list pbuf * A) :=
  foldl (fun o c => s ← o; exec c s) (Some s) cs.

Context `{!AllocatorLaws A}.

Definition held_inv (s : list pbuf * A) (ds : list bytes) : Prop :=
  data <$> s.1 = ds /\ Forall genuine s.1 /\ NoDup (ids s.1) /\ alloc_inv s.2 (list_to_set (ids s.1)).

(** The identities left when one buffer is taken out. *)
Lemma ids_delete held i p :
  held !! i = Some p -> NoDup (ids held) ->
  NoDup (delete i (ids held)) /\
  (list_to_set (ids held) : gset nat) ∖ {[b_id p]} = list_to_set (delete i (ids held)).
Proof.
  intros Hp Hnd.
  assert (ids held ≡ₚ b_id p :: delete i (ids held)) as Hperm
    by (apply delete_Permutation; unfold ids; by rewrite list_lookup_fmap, Hp).
  rewrite Hperm in Hnd. apply NoDup_cons in Hnd as [Hnp Hnd]. split; [done|].
  rewrite Hperm at 1. cbn. set_solver.
Qed.

(** Replacing the buffer at one place by one with another array. *)
Lemma held_replace held a ds i p q d :
  held !! i = Some p -> data <$> held = ds -> Forall genuine held -> NoDup (ids held) ->
  genuine q -> data q = d ->
  (b_id q ∉ (list_to_set (ids held) : gset nat) ∖ {[b_id p]}) ->
  alloc_inv a ({[b_id q]} ∪ list_to_set (ids held) ∖ {[b_id p]}) ->
  held_inv (<[i := q]> held, a) (<[i := d]> ds).
Proof.
  intros Hp Hds Hg Hnd Hq Hd Hid Hinv. unfold held_inv, ids in *. cbn [fst snd].
  rewrite list_fmap_insert, Hds, Hd. split; [done|]. split; [by apply Forall_insert|].
  rewrite list_fmap_insert.
  assert ((b_id <$> held) !! i = Some (b_id p)) as Hl by by rewrite list_lookup_fmap, Hp.
  assert (<[i := b_id q]> (b_id <$> held) ≡ₚ b_id q :: delete i (b_id <$> held)) as Hperm.
  { rewrite insert_take_drop by (by eapply lookup_lt_Some). rewrite delete_take_drop.
    solve_Permutation. }
  destruct (ids_delete held i p Hp Hnd) as [Hnd' Hset]. unfold ids in *.
  rewrite Hset in *. rewrite Hperm. split; [apply NoDup_cons; set_solver|]. by cbn.
Qed.

Lemma alter_insert {B} (f : B -> B) (l : list B) i x : l !! i = Some x -> alter f i l = <[i := f x]> l.
Proof.
  intros H. apply list_eq. intros j. destruct (decide (i = j)) as [<- |Hne].
  - rewrite list_lookup_alter_eq, H, list_lookup_insert_eq by (by eapply lookup_lt_Some). done.
  - by rewrite list_lookup_alter_ne, list_lookup_insert_ne.
Qed.

Lemma alter_none {B} (f : B -> B) (l : list B) i : l !! i = None -> alter f i l = l.
Proof.
  intros H. apply list_eq. intros j. destruct (decide (i = j)) as [<- |Hne].
  - by rewrite list_lookup_alter_eq, H.
  - by rewrite list_lookup_alter_ne.
Qed.

Lemma list_delete_none {B} (l : list B) i : l !! i = None -> delete i l = l.
Proof. intros H. apply lookup_ge_None in H. rewrite delete_take_drop, take_ge, drop_ge by lia. by rewrite app_nil_r. Qed.

(** Copying to the back of a buffer whose front is [d]. *)
Lemma copy_tail q d more :
  buf_ok q -> b_len q = len d + len more -> take (length d) (data q) = d ->
  data (copy_at q (len d) more) = d ++ more.
Proof.
  intros Hq Hl Hd. unfold data, copy_at in *. cbn [b_mem b_len]. unfold buf_ok, cap, len in *.
  rewrite (take_ge more) by lia. rewrite overwrite_eq by lia.
  rewrite take_take, Nat.min_l in Hd by lia. rewrite Nat2Z.id, Hd, app_assoc.
  apply take_app_length'. rewrite length_app. lia.
Qed.

Lemma genuine_copy q k d : genuine q -> genuine (copy_at q k d).
Proof.
  intros H. apply genuine_view; [done|apply overwrite_length|by apply genuine_ok].
Qed.

(** Each command keeps the correspondence, when its buffer is held. *)
Section step.
Context (held : list pbuf) (a : A) (ds : list bytes).
Context (Hds : data <$> held = ds) (Hg : Forall genuine held) (Hnd : NoDup (ids held)).
Context (Hinv : alloc_inv a (list_to_set (ids held))).

Lemma held_at i p :
  held !! i = Some p ->
  genuine p /\ buf_ok p /\ ds !! i = Some (data p) /\ b_id p ∈ (list_to_set (ids held) : gset nat).
Proof.
  intros Hp. assert (genuine p) as Hgp by (by eapply Forall_lookup_1). split; [done|].
  split; [by apply genuine_ok|]. split; [by rewrite <- Hds, list_lookup_fmap, Hp|].
  apply elem_of_list_to_set, list_elem_of_fmap. eauto using list_elem_of_lookup_2.
Qed.

Lemma step_new d :
  exists s', exec (CNew d) (held, a) = Some s' /\ held_inv s' (d :: ds).
Proof.
  destruct (malloc_law a _ (len d) Hinv (len_nonneg d)) as (p & a' & He & Hl & Hp & Hid & Hinv').
  cbn [exec]. rewrite He. cbn [mbind option_bind]. eexists; split; [done|].
  assert (buf_ok (copy_at p 0 d)) as Hok by by apply genuine_ok, genuine_copy.
  unfold held_inv. cbn [fst snd fmap list_fmap]. split; [|split; [|split]].
  - rewrite Hds. f_equal. unfold len in Hl.
    pose proof (copy_prefix p d (length d) (genuine_ok _ Hp) ltac:(lia) ltac:(lia)) as Hcp.
    pose proof (data_len _ Hok) as Hdl. unfold len in Hdl. cbn [copy_at b_len] in Hdl.
    rewrite !take_ge in Hcp by lia. done.
  - apply Forall_cons. split; [by apply genuine_copy|done].
  - apply NoDup_cons. split; [|done]. cbn [copy_at b_id].
    intros H%(elem_of_list_to_set (C:=gset nat)). done.
  - done.
Qed.

Lemma step_append i p more :
  held !! i = Some p ->
  exists s', exec (CAppend i more) (held, a) = Some s' /\ held_inv s' (<[i := data p ++ more]> ds).
Proof.
  intros Hp. destruct (held_at i p Hp) as (Hgp & Hok & Hdp & Hlive).
  destruct (append_law a _ p more Hinv Hgp Hlive) as (q & a' & He & Hq & Hgq & Hid & Hinv').
  cbn [exec]. rewrite Hp, He. cbn [mbind option_bind]. eexists; split; [done|]. by eapply held_replace.
Qed.

Lemma step_grow i p more :
  held !! i = Some p ->
  exists s', exec (CGrow i more) (held, a) = Some s' /\ held_inv s' (<[i := data p ++ more]> ds).
Proof.
  intros Hp. destruct (held_at i p Hp) as (Hgp & Hok & Hdp & Hlive). pose proof (len_nonneg more).
  destruct (realloc_law a _ p (b_len p + len more) Hinv Hgp Hlive)
    as (q & a' & He & Hl & Hgq & Hpre & Hid & Hinv'); [unfold buf_ok in Hok; lia|].
  cbn [exec]. rewrite Hp, He. cbn [mbind option_bind]. eexists; split; [done|].
  eapply held_replace; try done; [by apply genuine_copy|].
  pose proof (data_len p Hok) as Hdl. rewrite <- Hdl in *.
  apply copy_tail; [by apply genuine_ok|done|].
  specialize (Hpre (len (data p)) ltac:(len_pose; lia) ltac:(lia)). unfold len in Hpre.
  rewrite Nat2Z.id in Hpre. rewrite Hpre. by apply take_ge.
Qed.

Lemma step_trunc i p n :
  held !! i = Some p ->
  exists s', exec (CTrunc i n) (held, a) = Some s' /\ held_inv s' (<[i := take n (data p)]> ds).
Proof.
  intros Hp. destruct (held_at i p Hp) as (Hgp & Hok & Hdp & Hlive).
  destruct (realloc_law a _ p (Z.min (b_len p) (Z.of_nat n)) Hinv Hgp Hlive)
    as (q & a' & He & Hl & Hgq & Hpre & Hid & Hinv'); [unfold buf_ok in Hok; lia|].
  cbn [exec]. rewrite Hp, He. cbn [mbind option_bind]. eexists; split; [done|].
  eapply held_replace; try done.
  pose proof (data_len p Hok) as Hdl. pose proof (data_len q (genuine_ok _ Hgq)) as Hdq.
  specialize (Hpre (b_len q)). unfold len, buf_ok in *. rewrite (take_ge (data q)) in Hpre by lia.
  rewrite Hpre by lia. rewrite Hl, Z2Nat.inj_min, Nat2Z.id.
  destruct (decide (Z.to_nat (b_len p) <= n)%nat) as [Hle|Hle].
  - rewrite Nat.min_l by lia. rewrite !take_ge by lia. done.
  - by rewrite Nat.min_r by lia.
Qed.

Lemma step_free i p :
  held !! i = Some p ->
  exists s', exec (CFree i) (held, a) = Some s' /\ held_inv s' (delete i ds).
Proof.
  intros Hp. destruct (held_at i p Hp) as (Hgp & Hok & Hdp & Hlive).
  destruct (free_law a _ p Hinv Hgp Hlive) as (a' & He & Hinv').
  cbn [exec]. rewrite Hp, He. cbn [mbind option_bind]. eexists; split; [done|].
  destruct (ids_delete held i p Hp Hnd) as [Hnd' Hset].
  unfold held_inv, ids in *. cbn [fst snd]. rewrite !list_fmap_delete, Hds, <- Hset.
  split; [done|]. split; [by apply Forall_delete|]. by split.
Qed.

End step.

Lemma exec_step c s ds : held_inv s ds -> exists s', exec c s = Some s' /\ held_inv s' (spec_exec c ds).
Proof.
  intros (Hds & Hg & Hnd & Hinv). destruct s as [held a]. cbn [fst snd] in *.
  assert (forall i, ds !! i = data <$> held !! i) as Hi by (intros i; by rewrite <- Hds, list_lookup_fmap).
  destruct c as [d|i more|i more|i n|i]; [by apply step_new|..];
    (destruct (held !! i) as [p|] eqn:Hp;
     [|exists (held, a); cbn [exec spec_exec]; rewrite Hp; split; [done|];
       rewrite ?alter_none by (by rewrite Hi, Hp);
       rewrite ?(list_delete_none ds) by (by rewrite Hi, Hp); done]);
    cbn [spec_exec]; rewrite ?(alter_insert _ _ _ (data p)) by (by rewrite Hi, Hp);
    by eauto using step_append, step_grow, step_trunc, step_free.
Qed.

Lemma run_refines cs s ds :
  held_inv s ds -> exists s', run cs s = Some s' /\ held_inv s' (foldl (flip spec_exec) ds cs).
Proof.
  unfold run. revert s ds. induction cs as [|c cs IH]; intros s ds Hinv; cbn [foldl]; [eauto|].
  destruct (exec_step c s ds Hinv) as (s' & He & Hinv'). cbn [mbind option_bind]. rewrite He.
  by apply IH.
Qed.

End client.

(** ** Properties *)

Lemma aligned_inv_new : aligned_inv newAligned ∅.
Proof.
  split; [done|..|done].
  - intros i pool H. unfold newAligned in H. cbn [al_pools] in H.
    apply lookup_replicate in H as [-> _]. done.
  - repeat split; [constructor|set_solver|set_solver].
Qed.

Lemma std_inv_new : std_inv NewSTD ∅.
Proof. split; [set_solver|done]. Qed.

(** The smallest bucket that holds a request. *)
Lemma bucket_size i n :
  (i < 11)%nat -> n <= pool_size i -> ((0 < i)%nat -> pool_size (i - 1) < n) -> n <= maxAlignedBufferSize ->
  pool_size i = if n <=? 32 then 32 else if n <=? maxAlignedBufferSize then 2 ^ Z.log2_up n else n.
Proof.
  intros Hi Hle Hgt Hmax. rewrite (proj2 (Z.leb_le n maxAlignedBufferSize)) by done.
  assert (forall j, pool_size j = 2 ^ (Z.of_nat j + 5)) as Hp.
  { intros j. unfold pool_size. rewrite Z.shiftl_1_l. done. }
  destruct (n <=? 32) eqn:E; bool_hyp.
  - destruct i as [|i]; [done|]. specialize (Hgt ltac:(lia)). rewrite Hp in Hgt.
    assert (2 ^ 5 <= 2 ^ (Z.of_nat (S i - 1) + 5)) by (apply Z.pow_le_mono_r; lia). lia.
  - destruct i as [|i]; [change (pool_size 0) with 32 in Hle; lia|].
    rewrite Hp in *. specialize (Hgt ltac:(lia)). f_equal. symmetry.
    apply Z.log2_up_unique; [lia|]. split; [|done].
    replace (Z.pred (Z.of_nat (S i) + 5)) with (Z.of_nat (S i - 1) + 5) by lia. done.
Qed.

(** *** The counters *)

Definition size_total (f : sizeMap -> Z) (m : gmap Z sizeMap) : Z :=
  map_fold (fun _ v acc => f v + acc) 0 m.

Lemma size_total_insert f m k v :
  size_total f (<[k := v]> m) = size_total f m - from_option f 0 (m !! k) + f v.
Proof.
  unfold size_total.
  assert (forall m' : gmap Z sizeMap, m' !! k = None -> forall w,
    map_fold (fun _ v acc => f v + acc) 0 (<[k := w]> m')
    = f w + map_fold (fun _ v acc => f v + acc) 0 m') as Hnew.
  { intros m' Hm w. rewrite map_fold_insert_L; [done|intros; lia|done]. }
  destruct (m !! k) as [w|] eqn:E; cbn [from_option].
  - rewrite <- (insert_id m k w E) at 2. rewrite <- !(insert_delete_eq m).
    rewrite !Hnew by apply lookup_delete_eq. lia.
  - rewrite Hnew by done. lia.
Qed.

Definition dbg_balanced (d : debugger) : Prop :=
  NeedFree d = MallocCount d - FreeCount d /\
  size_total sm_NeedFree (default ∅ (SizeMap d)) = NeedFree d.

(** A sequence of countings: [(true, size)] for an allocation, [(false, size)]
    for a free. *)
Definition count_op (o : bool * Z) (d : debugger) : option debugger :=
  if o.1 then Some (incrMalloc o.2 d) else incrFree o.2 d.

Definition count_ops (ops : list (bool * Z)) (d : debugger) : option debugger :=
  foldl (fun od o => d ← od; count_op o d) (Some d) ops.

Lemma count_op_ok o d :
  dbg_on d = true -> is_Some (SizeMap d) -> dbg_balanced d ->
  exists d', count_op o d = Some d' /\ dbg_on d' = true /\ is_Some (SizeMap d') /\ dbg_balanced d' /\
    MallocCount d' = MallocCount d + (if o.1 then 1 else 0) /\
    FreeCount d' = FreeCount d + (if o.1 then 0 else 1).
Proof.
  intros Hon [m Hm] [Hb1 Hb2]. destruct o as [[] size]; unfold count_op; cbn [fst snd].
  - unfold incrMalloc, incrMallocSlow. rewrite Hon, Hm in *. cbn in Hb2. cbn [from_option id].
    eexists; split; [done|]. split; [done|]. split; [by destruct (m !! size)|].
    split; [|cbn; lia]. split; cbn; [lia|].
    destruct (m !! size) eqn:E; cbn; rewrite size_total_insert, E; cbn; lia.
  - unfold incrFree, incrFreeSlow. rewrite Hon, Hm in *. cbn in Hb2. cbn [from_option id].
    destruct (m !! size) eqn:E; cbn [mbind option_bind]; (eexists; split; [done|]);
      (split; [done|]; split; [done|]; split; [|cbn; lia]); (split; cbn; [lia|]);
      rewrite size_total_insert, E; cbn; lia.
Qed.

(** C10: whatever elements the pools return and however slices grow, a client
    that takes, appends to, grows, cuts and gives back buffers never makes an
    allocator panic, its buffers never share an array, and they hold the byte
    strings it means; this holds of the aligned, the general and the standard
    allocator. *)
Theorem allocators_refine_bytes (pick : list pbuf -> option nat) (grow : Z -> Z -> Z)
    (Hgrow : forall c n, n <= grow c n) (bufSize freeSize : Z) (cs : list cmd) :
  let ds := foldl (flip spec_exec) [] cs in
  (exists held a, @run _ (aligned_allocator pick) cs ([], newAligned) = Some (held, a) /\
     data <$> held = ds /\ NoDup (ids held)) /\
  (exists held m, @run _ (mempool_allocator pick grow) cs ([], New bufSize freeSize) = Some (held, m) /\
     data <$> held = ds /\ NoDup (ids held)) /\
  (exists held s, @run _ (std_allocator grow) cs ([], NewSTD) = Some (held, s) /\
     data <$> held = ds /\ NoDup (ids held)).
Proof.
  intros ds. pose proof (Hgrow : GrowLaw grow) as HG. split; [|split].
  - destruct (@run_refines _ (aligned_allocator pick) _ cs ([], newAligned) [])
      as ([held a] & He & Hd & _ & Hnd & _); [|by eauto].
    split; [done|]. split; [done|]. split; [constructor|]. exact aligned_inv_new.
  - destruct (@run_refines _ (mempool_allocator pick grow) _ cs ([], New bufSize freeSize) [])
      as ([held m] & He & Hd & _ & Hnd & _); [|by eauto].
    split; [done|]. split; [done|]. split; [constructor|]. exact (New_inv grow bufSize freeSize).
  - destruct (@run_refines _ (std_allocator grow) _ cs ([], NewSTD) [])
      as ([held s] & He & Hd & _ & Hnd & _); [|by eauto].
    split; [done|]. split; [done|]. split; [constructor|]. exact std_inv_new.
Qed.

Definition pick_first (pool : list pbuf) : option nat := Some 0%nat.
Definition grow_double (c n : Z) : Z := Z.max n (2 * c).

Lemma allocators_refine_bytes_witness :
  exists held a, @run _ (aligned_allocator pick_first)
    [CNew (str "ab"); CAppend 0 (str "cd"); CNew (str "x"); CFree 1; CNew (str "yz"); CTrunc 0 1]
    ([], newAligned) = Some (held, a) /\
  data <$> held = [str "y"; str "x"] /\ NoDup (ids held).
Proof.
  refine (proj1 (allocators_refine_bytes pick_first grow_double _ 0 0 _)).
  intros c n. unfold grow_double. lia.
Defined.

(** A buffer of the aligned allocator has the length asked for and the
    smallest bucket size that holds it: at most 32 bytes for a small request,
    less than twice the request up to 32K, and exactly the request above. *)
Theorem aligned_sizes (pick : list pbuf -> option nat) (a : aligned) (live : gset nat) (n : Z) :
  aligned_inv a live -> 0 <= n ->
  exists p a', aligned_Malloc pick n a = Some (p, a') /\ aligned_inv a' ({[b_id p]} ∪ live) /\
    b_len p = n /\
    cap p = (if n <=? 32 then 32 else if n <=? maxAlignedBufferSize then 2 ^ Z.log2_up n else n).
Proof.
  intros Hinv Hn.
  destruct (aligned_malloc_ok pick a live n Hinv Hn) as (p & a' & He & Hl & _ & _ & Hinv').
  exists p, a'. split; [done|]. split; [done|]. split; [done|].
  unfold aligned_Malloc in He. rewrite (proj2 (Z.ltb_ge _ _)) in He by lia.
  destruct (n <=? maxAlignedBufferSize) eqn:E; bool_hyp.
  - destruct (alignedIndexes_spec n) as (i & Hi & Hlt & Hle & Hgt); [lia|].
    rewrite Hi in He. cbn [mbind option_bind] in He.
    destruct (aligned_get_ok pick i a live Hinv Hlt) as (q & a1 & Hq & [_ Hc] & _).
    rewrite Hq in He. cbn [mbind option_bind] in He. rewrite reslice_eq in He by lia.
    cbn [mbind option_bind] in He. injection He as <- _. rewrite cap_view by done.
    rewrite Hc, (bucket_size i n) by done. by rewrite (proj2 (Z.leb_le n maxAlignedBufferSize)).
  - cbn [mbind option_bind] in He. injection He as <- _. unfold maxAlignedBufferSize in E.
    change (Z.shiftl 1 maxAlignedBufferSizeBits) with 32768 in E.
    rewrite (proj2 (Z.leb_gt _ _)) by lia. apply make_ok. lia.
Qed.

Lemma aligned_sizes_witness :
  exists p a', aligned_Malloc pick_first 100 newAligned = Some (p, a') /\ aligned_inv a' ({[b_id p]} ∪ ∅) /\
    b_len p = 100 /\ cap p = 128.
Proof. exact (aligned_sizes pick_first newAligned ∅ 100 aligned_inv_new ltac:(lia)). Defined.

(** With counting on, the number of buffers to free is the number of
    allocations less the number of frees, in total and summed over the sizes. *)
Theorem debug_counts (d : debugger) (ops : list (bool * Z)) :
  dbg_on d = true -> is_Some (SizeMap d) -> dbg_balanced d ->
  exists d', count_ops ops d = Some d' /\ dbg_balanced d' /\
    MallocCount d' = MallocCount d + len (filter (fun o => o.1 = true) ops) /\
    FreeCount d' = FreeCount d + len (filter (fun o => o.1 = false) ops).
Proof.
  unfold count_ops. revert d. induction ops as [|o ops IH]; intros d Hon Hm Hb; cbn [foldl].
  { exists d. cbn. split; [done|]. split; [done|]. change (len []) with 0. lia. }
  destruct (count_op_ok o d Hon Hm Hb) as (d1 & He & Hon1 & Hm1 & Hb1 & Hc1 & Hf1).
  cbn [mbind option_bind]. rewrite He. destruct (IH d1 Hon1 Hm1 Hb1) as (d' & He' & Hb' & Hc' & Hf').
  exists d'. split; [done|]. split; [done|]. destruct o as [[] size]; cbn [fst] in *.
  - rewrite filter_cons_True, filter_cons_False, len_cons by done. lia.
  - rewrite filter_cons_False, filter_cons_True, len_cons by done. lia.
Qed.

Lemma debug_counts_witness :
  exists d', count_ops [(true, 64); (true, 32); (false, 64); (false, 128)] (incrMalloc 64 (SetDebug true newDebugger))
    = Some d' /\ NeedFree d' = 1 /\ dbg_balanced d'.
Proof.
  destruct (debug_counts (incrMalloc 64 (SetDebug true newDebugger))
    [(true, 64); (true, 32); (false, 64); (false, 128)]) as (d' & He & Hb & Hc & Hf);
    [done|by eexists|done|].
  exists d'. split; [done|]. split; [|done]. destruct Hb as [-> _]. rewrite Hc, Hf. reflexivity.
Defined.

(** *** Deviations *)

(** Counting switched on after the first allocation: the first free panics,
    because the map of sizes does not exist yet. *)
Lemma free_after_debug_panics :
  exists p a, aligned_Malloc pick_first 10 newAligned = Some (p, a) /\
    aligned_Free p (MkAligned (al_next a) (al_pools a) (SetDebug true (al_dbg a))) = None.
Proof. eexists _, _. split; vm_compute; reflexivity. Qed.

(** A free of a size that was never allocated is counted as an allocation of
    that size. *)
Lemma free_counted_as_malloc :
  incrFree 64 (MkDebugger true 0 0 0 (Some ∅)) =
  Some (MkDebugger true 0 1 (-1) (Some {[64 := MkSizeMap 1 0 (-1)]})).
Proof. reflexivity. Qed.

(** The guard of [Free] admits every capacity that is a multiple of 32: a
    buffer of 96 bytes goes to the bucket of 128, and the next allocation of
    100 bytes slices it out of range. *)
Lemma foreign_buffer_poisons :
  exists a, aligned_Free (make 7 96) newAligned = Some a /\ aligned_Malloc pick_first 100 a = None.
Proof. eexists. split; vm_compute; reflexivity. Qed.
