(* ===== verification/NbConn.v ===== *)
(** * The non-blocking connection: writing, flushing, closing

    src/conn_unix.go, src/sendfile_unix.go, src/writev_linux.go and the event
    registration of src/poller_epoll.go.

    The kernel and the allocator are interfaces: a system call takes the state
    of the kernel and returns its result and the next state.  A run of the code
    returns a value, panics, or uses up the fuel of its loops. *)

From Stdlib Require Import ZArith Lia.
From Stdlib Require Import Strings.Byte.
From stdpp Require Import base numbers list list_numbers gmap.
From S2P Require Import Prelude Mempool.

Open Scope Z_scope.

(** ** Results *)

Inductive res (X : Type) :=
| Ret (x : X)
| Panics
| OutOfFuel.
Arguments Ret {_} _.
Arguments Panics {_}.
Arguments OutOfFuel {_}.

#[export] Instance res_bind : MBind res := fun _ _ f m =>
  match m with
  | Ret x => f x
  | Panics => Panics
  | OutOfFuel => OutOfFuel
  end.

(** An operation that panics where it has no result. *)
Definition must {X} (o : option X) : res X :=
  match o with Some x => Ret x | None => Panics end.

(** ** Errors *)

Inductive errno := ENone | EINTR | EAGAIN | EOther (e : Z).

#[export] Instance errno_eq_dec : EqDecision errno.
Proof. solve_decision. Defined.

Inductive conn_err :=
| ErrClosed
| ErrReadTimeout
| ErrWriteTimeout
| ErrOverflow
| ErrDialTimeout
| ErrEOF
| ErrTooManyFiles
| ErrUser (n : Z)
| ErrSys (e : errno).

#[export] Instance conn_err_eq_dec : EqDecision conn_err.
Proof. solve_decision. Defined.

(** [err != nil && !errors.Is(err, EINTR) && !errors.Is(err, EAGAIN)] *)
Definition fatal (e : errno) : bool :=
  match e with EOther _ => true | _ => false end.

Definition fatal_err (e : option conn_err) : bool :=
  match e with
  | None => false
  | Some (ErrSys e) => fatal e
  | Some _ => true
  end.

(** ** The kernel *)

Class Kernel (K : Type) := {
  (** descriptor, size of the buffer; the count, the bytes *)
  sys_read : Z -> Z -> K -> Z * bytes * errno * K;
  sys_write : Z -> bytes -> K -> Z * errno * K;
  sys_writev : Z -> list bytes -> K -> Z * errno * K;
  (** out, in, offset, count *)
  sys_sendfile : Z -> Z -> Z -> Z -> K -> Z * errno * K;
  sys_sendto : Z -> bytes -> K -> errno * K;
  sys_dup : Z -> K -> Z * errno * K;
  sys_close : Z -> K -> errno * K;
  sys_setnonblock : Z -> K -> errno * K;
  (** operation, descriptor, events *)
  sys_epoll_ctl : Z -> Z -> Z -> K -> errno * K
}.

(** ** Engine settings *)

Record engine := MkEngine {
  MaxWriteBufferSize : Z;
  EpollMod : Z;
  g_EPOLLONESHOT : Z;
  (** whether [onWrittenSize] is set *)
  hasOnWrittenSize : bool
}.

Definition EPOLLLT : Z := 0.
Definition EPOLLET : Z := 0x80000000.
Definition EPOLLONESHOT : Z := 0x40000000.
Definition EPOLLIN : Z := 0x1.
Definition EPOLLPRI : Z := 0x2.
Definition EPOLLOUT : Z := 0x4.
Definition EPOLLERR : Z := 0x8.
Definition EPOLLHUP : Z := 0x10.
Definition EPOLLRDHUP : Z := 0x2000.
Definition EPOLL_CTL_ADD : Z := 1.
Definition EPOLL_CTL_MOD : Z := 3.

Definition isOneshot (g : engine) : bool :=
  (EpollMod g =? EPOLLET) && (g_EPOLLONESHOT g =? EPOLLONESHOT).

(** ** Data *)

Inductive conn_type :=
| ConnTypeTCP
| ConnTypeUDPServer
| ConnTypeUDPClientFromRead
| ConnTypeUDPClientFromDial
| ConnTypeUnix.

#[export] Instance conn_type_eq_dec : EqDecision conn_type.
Proof. solve_decision. Defined.

Definition is_stream (t : conn_type) : bool :=
  bool_decide (t = ConnTypeTCP) || bool_decide (t = ConnTypeUnix).

Definition maxWriteCacheOrFlushSize : Z := 1024 * 64.
Definition maxSendfileSize : Z := Z.shiftl 4 20.

Record toWrite := MkToWrite {
  tw_fd : Z;
  tw_buf : option pbuf;
  tw_offset : Z;
  tw_remain : Z
}.

(** Calls to the engine's handlers, and to the UDP socket's [Close]. *)
Inductive call :=
| OnOpen
| OnUDPListen
| OnData (b : bytes)
| OnWrittenSize (b : option bytes) (n : Z)
| OnClose (err : option conn_err)
| UDPClose.

(** An open file passed to [Sendfile]: its descriptor and the results of
    [Seek] and [Stat]. *)
Record os_file := MkFile {
  f_fd : Z;
  f_seek : Z + conn_err;
  f_size : Z + conn_err
}.

Section conn.
Context {K A : Type} `{!Kernel K} `{!Allocator A}.
Context (g : engine).

(** The connection with the state it acts on: the kernel, the allocator,
    whether it has a poller and whether the engine's table of connections has
    it.  A running timer is the error it will close the connection with. *)
Record nbconn := MkConn {
  kern : K;
  alloc : A;
  c_fd : Z;
  c_typ : conn_type;
  c_left : Z;
  writeList : list toWrite;
  c_closed : bool;
  isWAdded : bool;
  closeErr : option conn_err;
  wTimer : option conn_err;
  rTimer : option conn_err;
  hasPoller : bool;
  inTable : bool;
  calls : list call
}.

Definition set_kern (k : K) (s : nbconn) : nbconn :=
  MkConn k (alloc s) (c_fd s) (c_typ s) (c_left s) (writeList s) (c_closed s) (isWAdded s)
    (closeErr s) (wTimer s) (rTimer s) (hasPoller s) (inTable s) (calls s).
Definition set_alloc (a : A) (s : nbconn) : nbconn :=
  MkConn (kern s) a (c_fd s) (c_typ s) (c_left s) (writeList s) (c_closed s) (isWAdded s)
    (closeErr s) (wTimer s) (rTimer s) (hasPoller s) (inTable s) (calls s).
Definition set_left (n : Z) (s : nbconn) : nbconn :=
  MkConn (kern s) (alloc s) (c_fd s) (c_typ s) n (writeList s) (c_closed s) (isWAdded s)
    (closeErr s) (wTimer s) (rTimer s) (hasPoller s) (inTable s) (calls s).
Definition set_list (l : list toWrite) (s : nbconn) : nbconn :=
  MkConn (kern s) (alloc s) (c_fd s) (c_typ s) (c_left s) l (c_closed s) (isWAdded s)
    (closeErr s) (wTimer s) (rTimer s) (hasPoller s) (inTable s) (calls s).
Definition set_closed (s : nbconn) : nbconn :=
  MkConn (kern s) (alloc s) (c_fd s) (c_typ s) (c_left s) (writeList s) true (isWAdded s)
    (closeErr s) (wTimer s) (rTimer s) (hasPoller s) (inTable s) (calls s).
Definition set_wadded (b : bool) (s : nbconn) : nbconn :=
  MkConn (kern s) (alloc s) (c_fd s) (c_typ s) (c_left s) (writeList s) (c_closed s) b
    (closeErr s) (wTimer s) (rTimer s) (hasPoller s) (inTable s) (calls s).
Definition set_closeErr (e : option conn_err) (s : nbconn) : nbconn :=
  MkConn (kern s) (alloc s) (c_fd s) (c_typ s) (c_left s) (writeList s) (c_closed s) (isWAdded s)
    e (wTimer s) (rTimer s) (hasPoller s) (inTable s) (calls s).
Definition set_timers (w r : option conn_err) (s : nbconn) : nbconn :=
  MkConn (kern s) (alloc s) (c_fd s) (c_typ s) (c_left s) (writeList s) (c_closed s) (isWAdded s)
    (closeErr s) w r (hasPoller s) (inTable s) (calls s).
Definition set_table (b : bool) (s : nbconn) : nbconn :=
  MkConn (kern s) (alloc s) (c_fd s) (c_typ s) (c_left s) (writeList s) (c_closed s) (isWAdded s)
    (closeErr s) (wTimer s) (rTimer s) (hasPoller s) b (calls s).
Definition set_poller (s : nbconn) : nbconn :=
  MkConn (kern s) (alloc s) (c_fd s) (c_typ s) (c_left s) (writeList s) (c_closed s) (isWAdded s)
    (closeErr s) (wTimer s) (rTimer s) true (inTable s) (calls s).
Definition add_call (c : call) (s : nbconn) : nbconn :=
  MkConn (kern s) (alloc s) (c_fd s) (c_typ s) (c_left s) (writeList s) (c_closed s) (isWAdded s)
    (closeErr s) (wTimer s) (rTimer s) (hasPoller s) (inTable s) (calls s ++ [c]).

(** ** Events of the poller *)

Definition EpollCtl (op ev : Z) (s : nbconn) : errno * nbconn :=
  let '(e, k) := sys_epoll_ctl op (c_fd s) ev (kern s) in (e, set_kern k s).

Definition setRead (op : Z) (s : nbconn) : errno * nbconn :=
  if EpollMod g =? EPOLLET then
    let events := Z.lor (Z.lor (Z.lor (Z.lor (Z.lor (Z.lor EPOLLERR EPOLLHUP) EPOLLRDHUP) EPOLLPRI) EPOLLIN)
                    EPOLLET) (g_EPOLLONESHOT g) in
    if negb (g_EPOLLONESHOT g =? EPOLLONESHOT) then
      if op =? EPOLL_CTL_ADD then EpollCtl op (Z.lor events EPOLLOUT) s else (ENone, s)
    else EpollCtl op events s
  else EpollCtl op (Z.lor (Z.lor (Z.lor (Z.lor EPOLLERR EPOLLHUP) EPOLLRDHUP) EPOLLPRI) EPOLLIN) s.

Definition setReadWrite (op : Z) (s : nbconn) : errno * nbconn :=
  if EpollMod g =? EPOLLET then
    let events := Z.lor (Z.lor (Z.lor (Z.lor (Z.lor (Z.lor (Z.lor EPOLLERR EPOLLHUP) EPOLLRDHUP) EPOLLPRI) EPOLLIN)
                    EPOLLOUT) EPOLLET) (g_EPOLLONESHOT g) in
    if negb (g_EPOLLONESHOT g =? EPOLLONESHOT) then
      if op =? EPOLL_CTL_ADD then EpollCtl op events s else (ENone, s)
    else EpollCtl op events s
  else EpollCtl op (Z.lor (Z.lor (Z.lor (Z.lor (Z.lor EPOLLERR EPOLLHUP) EPOLLRDHUP) EPOLLPRI) EPOLLIN) EPOLLOUT) s.

Definition addRead (s : nbconn) : errno * nbconn := setRead EPOLL_CTL_ADD s.
Definition poller_resetRead (s : nbconn) : errno * nbconn := setRead EPOLL_CTL_MOD s.
Definition addReadWrite (s : nbconn) : errno * nbconn := setReadWrite EPOLL_CTL_ADD s.
Definition poller_modWrite (s : nbconn) : errno * nbconn := setReadWrite EPOLL_CTL_MOD s.

Definition modWrite (s : nbconn) : nbconn :=
  if negb (c_closed s) && negb (isWAdded s) then snd (poller_modWrite (set_wadded true s)) else s.

Definition resetRead (s : nbconn) : nbconn :=
  if negb (c_closed s) && isWAdded s then snd (poller_resetRead (set_wadded false s)) else s.

(** ** The queue *)

Definition appendBuffer (buf : bytes) (s : nbconn) : res nbconn :=
  '(p, a) ← must (Malloc (len buf) (alloc s));
  let t := MkToWrite 0 (Some (copy_at p 0 buf)) 0 0 in
  Ret (set_list (writeList s ++ [t]) (set_alloc a s)).

(** [tail.buf] when it has room, else a copy of it in a larger buffer. *)
Definition ensure_tail (tb : pbuf) (l : Z) (s : nbconn) : res (pbuf * nbconn) :=
  let tailLen := b_len tb in
  if cap tb <? tailLen + l then
    '(p, a) ← must (Malloc (tailLen + l) (alloc s));
    p ← must (reslice p tailLen);
    let p := copy_at p 0 (data tb) in
    a ← must (Free tb a);
    Ret (p, set_alloc a s)
  else Ret (tb, s).

Definition newToWriteBuf (buf : bytes) (s : nbconn) : res nbconn :=
  let s := set_left (c_left s + len buf) s in
  match last (writeList s) with
  | None => appendBuffer buf s
  | Some tail =>
      match tw_buf tail with
      | None => appendBuffer buf s
      | Some tb =>
          if maxWriteCacheOrFlushSize <? b_len tb + len buf then appendBuffer buf s
          else
            '(tb, s) ← ensure_tail tb (len buf) s;
            '(tb, a) ← must (Append tb buf (alloc s));
            let t := MkToWrite (tw_fd tail) (Some tb) (tw_offset tail) (tw_remain tail) in
            Ret (set_list (removelast (writeList s) ++ [t]) (set_alloc a s))
      end
  end.

Definition newToWriteFile (fd offset remain : Z) (s : nbconn) : nbconn :=
  set_list (writeList s ++ [MkToWrite fd None offset remain]) s.

Definition releaseToWrite (t : toWrite) (s : nbconn) : res nbconn :=
  s ← match tw_buf t with
      | Some b => a ← must (Free b (alloc s)); Ret (set_alloc a s)
      | None => Ret s
      end;
  Ret (if 0 <? tw_fd t then set_kern (snd (sys_close (tw_fd t) (kern s))) s else s).

Definition overflow (n : Z) (s : nbconn) : bool :=
  (0 <? MaxWriteBufferSize g) && (MaxWriteBufferSize g <? c_left s + n).

(** ** Closing *)

Definition deleteConn (s : nbconn) : nbconn :=
  let s := if bool_decide (c_typ s = ConnTypeUDPClientFromRead) then s else set_table false s in
  if bool_decide (c_typ s = ConnTypeUDPServer) then s else add_call (OnClose (closeErr s)) s.

Fixpoint release_all (ts : list toWrite) (s : nbconn) : res nbconn :=
  match ts with
  | [] => Ret s
  | t :: ts => s ← releaseToWrite t s; release_all ts s
  end.

Definition closeWithErrorWithoutLock (err : option conn_err) (s : nbconn) : res (option conn_err * nbconn) :=
  let s := set_closeErr err s in
  s ← release_all (writeList s) s;
  let s := set_list [] s in
  let s := if hasPoller s then deleteConn s else s in
  match c_typ s with
  | ConnTypeTCP | ConnTypeUnix =>
      let '(e, k) := sys_close (c_fd s) (kern s) in
      Ret (if decide (e = ENone) then None else Some (ErrSys e), set_kern k s)
  | _ => Ret (None, add_call UDPClose s)
  end.

Definition closeWithError (err : option conn_err) (s : nbconn) : res (option conn_err * nbconn) :=
  if c_closed s then Ret (None, s)
  else closeWithErrorWithoutLock err (set_timers None None (set_closed s)).

Definition Close (s : nbconn) : res (option conn_err * nbconn) := closeWithError None s.

(** ** Writing *)

(** A written part is reported to the engine's handler. *)
Definition report (b : bytes) (n : Z) (s : nbconn) : res nbconn :=
  if hasOnWrittenSize g && (0 <? n) then
    d ← must (slice b 0 n);
    Ret (add_call (OnWrittenSize (Some d) n) s)
  else Ret s.

Definition doWrite (b : bytes) (s : nbconn) : res (Z * errno * nbconn) :=
  let '(n, e, s) :=
    match c_typ s with
    | ConnTypeTCP | ConnTypeUnix | ConnTypeUDPClientFromDial =>
        let '(n, e, k) := sys_write (c_fd s) b (kern s) in (n, e, set_kern k s)
    | ConnTypeUDPServer => (0, ENone, s)
    | ConnTypeUDPClientFromRead =>
        let '(e, k) := sys_sendto (c_fd s) b (kern s) in
        (if decide (e = ENone) then len b else 0, e, set_kern k s)
    end in
  s ← report b n s;
  Ret (n, e, s).

Definition write (b : bytes) (s : nbconn) : res (Z * option conn_err * nbconn) :=
  if len b =? 0 then Ret (0, None, s)
  else if overflow (len b) s then Ret (-1, Some ErrOverflow, s)
  else
    match writeList s with
    | [] =>
        '(n, e, s) ← doWrite b s;
        if fatal e then Ret (n, Some (ErrSys e), s)
        else
          let n := if n <? 0 then 0 else n in
          let left := len b - n in
          s ← (if (0 <? left) && is_stream (c_typ s) then
                 r ← must (slice_from b n); newToWriteBuf r s
               else Ret s);
          Ret (len b, None, s)
    | _ :: _ =>
        s ← newToWriteBuf b s;
        Ret (len b, None, s)
    end.

(** The common end of [Write] and [Writev]. *)
Definition after_write (r : Z * option conn_err * nbconn) : res (Z * option conn_err * nbconn) :=
  let '(n, err, s) := r in
  if fatal_err err then
    '(_, s) ← closeWithErrorWithoutLock err (set_closed s);
    Ret (n, err, s)
  else
    match writeList s with
    | [] => Ret (n, err, set_timers None (rTimer s) s)
    | _ :: _ => Ret (n, err, modWrite s)
    end.

Definition Write (b : bytes) (s : nbconn) : res (Z * option conn_err * nbconn) :=
  if c_closed s then Ret (-1, Some ErrClosed, s)
  else r ← write b s; after_write r.

(** The system call of writev_linux.go, on the non-empty slices. *)
Definition writev_syscall (bs : list bytes) (s : nbconn) : Z * errno * nbconn :=
  let iovs := filter (fun b => 0 < len b) bs in
  match iovs with
  | [] => (0, ENone, s)
  | _ => let '(n, e, k) := sys_writev (c_fd s) iovs (kern s) in (n, e, set_kern k s)
  end.

Fixpoint queue_all (bs : list bytes) (s : nbconn) : res nbconn :=
  match bs with
  | [] => Ret s
  | b :: bs => s ← newToWriteBuf b s; queue_all bs s
  end.

(** The loop over the buffers after a partial write of [n] bytes; it ends as
    soon as [n] is zero. *)
Fixpoint writev_rest (bs : list bytes) (n : Z) (s : nbconn) : res nbconn :=
  match bs with
  | [] => Ret s
  | b :: bs =>
      if n <=? 0 then Ret s
      else if n <? len b then
        s ← report b n s;
        r ← must (slice_from b n);
        s ← newToWriteBuf r s;
        writev_rest bs 0 s
      else
        let s := if hasOnWrittenSize g then add_call (OnWrittenSize (Some b) (len b)) s else s in
        writev_rest bs (n - len b) s
  end.

Definition sum_len (bs : list bytes) : Z := foldr (fun b n => len b + n) 0 bs.

Definition writev (bs : list bytes) (s : nbconn) : res (Z * option conn_err * nbconn) :=
  let size := sum_len bs in
  if overflow size s then Ret (-1, Some ErrOverflow, s)
  else
    match writeList s with
    | _ :: _ => s ← queue_all bs s; Ret (size, None, s)
    | [] =>
        let '(nwrite, e, s) := writev_syscall bs s in
        let err := if decide (e = ENone) then None else Some (ErrSys e) in
        if 0 <? nwrite then
          s ← (if nwrite <? size then writev_rest bs nwrite s else Ret s);
          Ret (nwrite, err, s)
        else Ret (0, err, s)
    end.

Definition Writev (bs : list bytes) (s : nbconn) : res (Z * option conn_err * nbconn) :=
  if c_closed s then Ret (0, Some ErrClosed, s)
  else
    r ← match bs with
        | [b] => write b s
        | _ => writev bs s
        end;
    after_write r.

(** ** Flushing *)

Definition writeBuffer (s : nbconn) : res (errno * nbconn) :=
  head ← must (writeList s !! 0%nat);
  tb ← must (tw_buf head);
  buf ← must (slice_from (data tb) (tw_offset head));
  let '(n, e, k) := sys_write (c_fd s) buf (kern s) in
  let s := set_kern k s in
  if 0 <? n then
    s ← report buf n s;
    let s := set_left (c_left s - n) s in
    let head := MkToWrite (tw_fd head) (tw_buf head) (tw_offset head + n) (tw_remain head) in
    if len buf =? n then
      s ← releaseToWrite head s;
      Ret (e, set_list (tail (writeList s)) s)
    else Ret (e, set_list (<[0%nat := head]> (writeList s)) s)
  else Ret (e, s).

(** The loop of [writeFile]; the entry is the head of the queue until it is
    sent. *)
Fixpoint writeFile (fuel : nat) (s : nbconn) : res (errno * nbconn) :=
  v ← must (writeList s !! 0%nat);
  if 0 <? tw_remain v then
    match fuel with
    | O => OutOfFuel
    | S fuel =>
        let '(n, e, k) := sys_sendfile (c_fd s) (tw_fd v) (tw_offset v) (tw_remain v) (kern s) in
        let s := set_kern k s in
        if 0 <? n then
          let s := if hasOnWrittenSize g then add_call (OnWrittenSize None n) s else s in
          let v := MkToWrite (tw_fd v) (tw_buf v) (tw_offset v + n) (tw_remain v - n) in
          if tw_remain v <=? 0 then
            s ← releaseToWrite v s;
            Ret (e, set_list (tail (writeList s)) s)
          else
            let s := set_list (<[0%nat := v]> (writeList s)) s in
            if decide (e = ENone) then writeFile fuel s else Ret (e, s)
        else if decide (e = ENone) then writeFile fuel s else Ret (e, s)
    end
  else Ret (ENone, s).

Fixpoint flush_loop (fuel : nat) (s : nbconn) : res (option conn_err * nbconn) :=
  match writeList s with
  | [] => Ret (None, resetRead s)
  | head :: _ =>
      match fuel with
      | O => OutOfFuel
      | S fuel =>
          '(e, s) ← (if tw_fd head =? 0 then writeBuffer s else writeFile fuel s);
          match e with
          | ENone | EINTR => flush_loop fuel s
          | EAGAIN => Ret (None, if isOneshot g then snd (poller_modWrite s) else s)
          | EOther _ =>
              '(_, s) ← closeWithErrorWithoutLock (Some (ErrSys e)) (set_closed s);
              Ret (Some (ErrSys e), s)
          end
      end
  end.

Definition flush (fuel : nat) (s : nbconn) : res (option conn_err * nbconn) :=
  if c_closed s then Ret (Some ErrClosed, s)
  else
    match writeList s with
    | [] => Ret (None, s)
    | _ :: _ => flush_loop fuel s
    end.

(** ** Sendfile *)

Fixpoint sendfile_loop (fuel : nat) (src offset remain total : Z) (s : nbconn)
    : res (Z * option conn_err * nbconn) :=
  if 0 <? remain then
    match fuel with
    | O => OutOfFuel
    | S fuel =>
        let n := if remain <? maxSendfileSize then remain else maxSendfileSize in
        let '(n, e, k) := sys_sendfile (c_fd s) src offset n (kern s) in
        let s := set_kern k s in
        let remain' := if 0 <? n then remain - n else remain in
        let offset' := if 0 <? n then offset + n else offset in
        if (n =? 0) && bool_decide (e = ENone) then Ret (total, None, s)
        else
          match e with
          | EAGAIN =>
              let '(fd, e, k) := sys_dup src (kern s) in
              let s := set_kern k s in
              if decide (e = ENone) then
                Ret (total, None, modWrite (newToWriteFile fd offset' remain' s))
              else Ret (total, None, s)
          | EOther _ =>
              '(_, s) ← closeWithErrorWithoutLock (Some (ErrSys e)) (set_closed s);
              Ret (0, Some (ErrSys e), s)
          | ENone | EINTR => sendfile_loop fuel src offset' remain' total s
          end
    end
  else Ret (total, None, s).

Definition Sendfile (fuel : nat) (f : option os_file) (remain : Z) (s : nbconn)
    : res (Z * option conn_err * nbconn) :=
  match f with
  | None => Ret (0, None, s)
  | Some f =>
      if c_closed s then Ret (0, Some ErrClosed, s)
      else
        match f_seek f, f_size f with
        | inr e, _ => Ret (0, Some e, s)
        | _, inr e => Ret (0, Some e, s)
        | inl offset, inl size =>
            let remain := if (remain <=? 0) || (size - offset <? remain) then size - offset else remain in
            let src := f_fd f in
            let '(e, k) := sys_setnonblock src (kern s) in
            let s := set_kern k s in
            if negb (bool_decide (e = ENone)) then Ret (0, Some (ErrSys e), s)
            else
              match writeList s with
              | _ :: _ =>
                  let '(fd, e, k) := sys_dup src (kern s) in
                  let s := set_kern k s in
                  if negb (bool_decide (e = ENone)) then Ret (0, Some (ErrSys e), s)
                  else Ret (remain, None, newToWriteFile fd offset remain s)
              | [] => sendfile_loop fuel src offset remain remain s
              end
        end
  end.

(** ** Deadlines

    [None] is the zero time, which clears a deadline.  Resetting a running
    timer keeps the function it was made with. *)

Definition set_timer (timer : option conn_err) (errClose : conn_err) (t : option Z) : option conn_err :=
  match t with
  | Some _ => Some (default errClose timer)
  | None => None
  end.

Definition SetDeadline (t : option Z) (s : nbconn) : nbconn :=
  if c_closed s then s
  else set_timers (set_timer (wTimer s) ErrWriteTimeout t) (set_timer (rTimer s) ErrReadTimeout t) s.

Definition SetReadDeadline (t : option Z) (s : nbconn) : nbconn :=
  if c_closed s then s else set_timers (wTimer s) (set_timer (rTimer s) ErrReadTimeout t) s.

Definition SetWriteDeadline (t : option Z) (s : nbconn) : nbconn :=
  if c_closed s then s else set_timers (set_timer (wTimer s) ErrWriteTimeout t) (rTimer s) s.

(** A timer that fires runs its function. *)
Definition fire (timer : option conn_err) (s : nbconn) : res (option conn_err * nbconn) :=
  match timer with
  | Some err => closeWithError (Some err) s
  | None => Ret (None, s)
  end.

(** ** Registration with a poller *)

(** The engine's table of connections has [maxFd] places. *)
Definition addConn (maxFd : Z) (s : nbconn) : res (option conn_err * nbconn) :=
  if maxFd <=? c_fd s then
    let err := Some ErrTooManyFiles in
    '(_, s) ← closeWithError err s; Ret (err, s)
  else
    let s := set_poller s in
    let s := add_call (if bool_decide (c_typ s = ConnTypeUDPServer) then OnUDPListen else OnOpen) s in
    let s := set_table true s in
    let '(e, s) := addRead s in
    if decide (e = ENone) then Ret (None, s)
    else
      let s := set_table false s in
      '(_, s) ← closeWithError (Some (ErrSys e)) s;
      Ret (Some (ErrSys e), s).

Definition addDialer (maxFd : Z) (s : nbconn) : res (option conn_err * nbconn) :=
  if maxFd <=? c_fd s then
    let err := Some ErrTooManyFiles in
    '(_, s) ← closeWithError err s; Ret (err, s)
  else
    let s := set_poller s in
    let s := set_table true s in
    let s := set_wadded true s in
    let '(e, s) := addReadWrite s in
    if decide (e = ENone) then Ret (None, s)
    else
      let s := set_table false s in
      '(_, s) ← closeWithError (Some (ErrSys e)) s;
      Ret (Some (ErrSys e), s).

(** The writing event of a dialled connection: its handler runs, then the
    writing event is taken off. *)
Definition handle_connected (onConnected : nbconn -> res nbconn) (s : nbconn) : res nbconn :=
  s ← onConnected s;
  Ret (resetRead s).

Definition ResetPollerEvent (s : nbconn) : nbconn :=
  if isOneshot g && negb (c_closed s) then
    match writeList s with
    | [] => snd (poller_resetRead s)
    | _ :: _ => snd (poller_modWrite s)
    end
  else s.

End conn.

Arguments nbconn _ _ : clear implicits.
