(* ===== verification/NbConnFacts.v ===== *)
(** * The non-blocking connection: laws of the kernel, invariant of the queue *)

From Stdlib Require Import ZArith Lia.
From Stdlib Require Import Strings.Byte.
From stdpp Require Import base numbers list list_numbers gmap.
From S2P Require Import Prelude Mempool MempoolFacts NbConn.

Open Scope Z_scope.

(** What can be observed of the kernel: [sent k fd] is what the socket has
    taken, [file k fd] the contents behind a descriptor, [interest k fd] the
    events asked for, [socket k fd] whether the descriptor is an open socket,
    and [patience k] bounds the calls that will still be interrupted by a
    signal. *)
Class KernelView (K : Type) := {
  sent : K -> Z -> bytes;
  file : K -> Z -> option bytes;
  interest : K -> Z -> Z;
  socket : K -> Z -> bool;
  patience : K -> nat
}.

(** No descriptor changes. *)
Record same_fds `{!KernelView K} (k k' : K) : Prop := {
  sf_file x : file k' x = file k x;
  sf_interest x : interest k' x = interest k x;
  sf_socket x : socket k' x = socket k x
}.

(** Nothing changes but the descriptor [fd]. *)
Record same_but `{!KernelView K} (fd : Z) (k k' : K) : Prop := {
  sb_sent x : sent k' x = sent k x;
  sb_file x : x <> fd -> file k' x = file k x;
  sb_interest x : x <> fd -> interest k' x = interest k x;
  sb_socket x : x <> fd -> socket k' x = socket k x;
  sb_patience : (patience k' <= patience k)%nat
}.

(** What the code relies on of the system calls. *)
Class KernelLaws (K : Type) `{!Kernel K} `{!KernelView K} := {
  write_law fd b k n e k' :
    sys_write fd b k = (n, e, k') ->
    n <= len b /\ sent k' fd = sent k fd ++ take (Z.to_nat n) b /\ same_fds k k' /\
    (0 < n -> e = ENone) /\ (b <> [] -> e = ENone -> 0 < n) /\
    (patience k' <= patience k)%nat /\ (e = EINTR -> (patience k' < patience k)%nat);
  writev_law fd bs k n e k' :
    sys_writev fd bs k = (n, e, k') ->
    n <= len (concat bs) /\ sent k' fd = sent k fd ++ take (Z.to_nat n) (concat bs) /\ same_fds k k' /\
    (0 < n -> e = ENone) /\ (concat bs <> [] -> e = ENone -> 0 < n) /\ (patience k' <= patience k)%nat;
  sendfile_law out inp off count k n e k' content :
    sys_sendfile out inp off count k = (n, e, k') -> file k inp = Some content -> 0 <= off ->
    n <= Z.max 0 count /\ (0 < n -> n <= len content - off) /\
    sent k' out = sent k out ++ take (Z.to_nat n) (drop (Z.to_nat off) content) /\ same_fds k k' /\
    (0 < n -> e = ENone) /\ (0 < count -> off < len content -> e = ENone -> 0 < n) /\
    (patience k' <= patience k)%nat /\ (e = EINTR -> (patience k' < patience k)%nat);
  close_law fd k e k' : sys_close fd k = (e, k') -> same_but fd k k';
  dup_law src k fd e k' :
    sys_dup src k = (fd, e, k') ->
    if decide (e = ENone) then
      same_but fd k k' /\ 0 < fd /\ file k fd = None /\ socket k fd = false /\ file k' fd = file k src
    else same_but (-1) k k' /\ same_fds k k';
  nonblock_law fd k e k' :
    sys_setnonblock fd k = (e, k') ->
    same_fds k k' /\ (forall x, sent k' x = sent k x) /\ (patience k' <= patience k)%nat;
  epoll_law op fd ev k e k' :
    sys_epoll_ctl op fd ev k = (e, k') ->
    (forall x, sent k' x = sent k x) /\ (forall x, file k' x = file k x) /\
    (forall x, socket k' x = socket k x) /\ (patience k' <= patience k)%nat /\
    (e = ENone -> interest k' fd = ev) /\ (e <> ENone -> interest k' fd = interest k fd)
}.

Section queue.
Context {K A : Type} `{!Kernel K} `{!KernelView K} `{!KernelLaws K} `{!Allocator A} `{!AllocatorLaws A}.
Context (g : engine).
Abbreviation nbconn := (nbconn K A).
Implicit Types (s : nbconn) (k : K) (a : A) (wl : list toWrite).

(** ** The queue *)

Definition entry_ok k (t : toWrite) : Prop :=
  match tw_buf t with
  | Some tb => tw_fd t = 0 /\ genuine tb /\ 0 <= tw_offset t < b_len tb
  | None => 0 < tw_fd t /\ 0 <= tw_offset t /\ 0 < tw_remain t /\
            exists content, file k (tw_fd t) = Some content /\ tw_offset t + tw_remain t <= len content
  end.

(** The bytes an entry still has to send. *)
Definition entry_bytes k (t : toWrite) : bytes :=
  match tw_buf t with
  | Some tb => drop (Z.to_nat (tw_offset t)) (data tb)
  | None => take (Z.to_nat (tw_remain t)) (drop (Z.to_nat (tw_offset t)) (default [] (file k (tw_fd t))))
  end.

Definition pending k wl : bytes := concat (entry_bytes k <$> wl).

Definition entry_left (t : toWrite) : Z :=
  match tw_buf t with Some tb => b_len tb - tw_offset t | None => 0 end.

Definition queue_left wl : Z := foldr (fun t n => entry_left t + n) 0 wl.

Definition buf_ids wl : list nat := omap (fun t => b_id <$> tw_buf t) wl.
Definition file_fds wl : list Z := omap (fun t => match tw_buf t with Some _ => None | None => Some (tw_fd t) end) wl.

(** [others] are the arrays other clients of the allocator hold. *)
Record queue_ok (others : gset nat) k a wl : Prop := {
  q_entries : Forall (entry_ok k) wl;
  q_bufs : NoDup (buf_ids wl);
  q_others : forall x, x ∈ buf_ids wl -> x ∉ others;
  q_files : NoDup (file_fds wl);
  q_alloc : alloc_inv a (list_to_set (buf_ids wl) ∪ others)
}.

(** What the data path changes of a connection. *)
Definition upd k a (n : Z) wl (cs : list call) s : nbconn :=
  MkConn k a (c_fd s) (c_typ s) n wl (c_closed s) (isWAdded s) (closeErr s) (wTimer s) (rTimer s)
    (hasPoller s) (inTable s) cs.

Lemma upd_id s : s = upd (kern s) (alloc s) (c_left s) (writeList s) (calls s) s.
Proof. by destruct s. Qed.

Lemma pending_app k wl wl' : pending k (wl ++ wl') = pending k wl ++ pending k wl'.
Proof. unfold pending. by rewrite fmap_app, concat_app. Qed.

Lemma pending_cons k t wl : pending k (t :: wl) = entry_bytes k t ++ pending k wl.
Proof. done. Qed.

Lemma queue_left_app wl wl' : queue_left (wl ++ wl') = queue_left wl + queue_left wl'.
Proof. unfold queue_left. induction wl as [|t wl IH]; cbn; [done|]. rewrite IH. lia. Qed.

(** Entries depend on the kernel only through the files. *)
Lemma entry_files k k' t :
  (tw_buf t = None -> file k' (tw_fd t) = file k (tw_fd t)) ->
  (entry_ok k t -> entry_ok k' t) /\ entry_bytes k' t = entry_bytes k t.
Proof.
  intros H. unfold entry_ok, entry_bytes. destruct (tw_buf t) as [tb|]; [done|].
  rewrite (H eq_refl). done.
Qed.

Lemma queue_files others k k' a wl :
  (forall x, x ∈ file_fds wl -> file k' x = file k x) ->
  queue_ok others k a wl -> queue_ok others k' a wl /\ pending k' wl = pending k wl.
Proof.
  intros H [He Hb Ho Hf Ha].
  assert (forall t, t ∈ wl -> tw_buf t = None -> file k' (tw_fd t) = file k (tw_fd t)) as Ht.
  { intros t Hin Hn. apply H. apply list_elem_of_omap. exists t. by rewrite Hn. }
  split.
  - split; [|done..]. rewrite Forall_forall in *. intros t Hin.
    apply (entry_files k); [by apply Ht|by apply He].
  - unfold pending. f_equal. apply list_fmap_ext. intros i t Hi.
    apply entry_files, Ht. by eapply list_elem_of_lookup_2.
Qed.

Lemma queue_same_files others k k' a wl :
  (forall x, file k' x = file k x) ->
  queue_ok others k a wl -> queue_ok others k' a wl /\ pending k' wl = pending k wl.
Proof. intros H. apply queue_files. by intros x _. Qed.

(** Entries have something to send. *)
Lemma entry_bytes_pos k t : entry_ok k t -> 0 < len (entry_bytes k t).
Proof.
  unfold entry_ok, entry_bytes. destruct (tw_buf t) as [tb|].
  - intros (_ & Hg & Ho). pose proof (data_len tb (genuine_ok _ Hg)). rewrite len_drop. lia.
  - intros (_ & ? & ? & c & -> & ?). cbn. rewrite len_take, len_drop. lia.
Qed.

Lemma entry_left_len k t tb : tw_buf t = Some tb -> entry_ok k t -> entry_left t = len (entry_bytes k t).
Proof.
  unfold entry_ok, entry_bytes, entry_left. intros ->. intros (_ & Hg & Ho).
  rewrite len_drop, (data_len tb (genuine_ok _ Hg)). lia.
Qed.

Lemma queue_left_nonneg k wl : Forall (entry_ok k) wl -> 0 <= queue_left wl.
Proof.
  unfold queue_left. induction 1 as [|t wl Ht _ IH]; cbn [foldr]; [done|].
  unfold entry_left at 1. unfold entry_ok in Ht. destruct (tw_buf t); lia.
Qed.

(** ** Putting data behind the queue *)

Lemma buf_ids_app wl wl' : buf_ids (wl ++ wl') = buf_ids wl ++ buf_ids wl'.
Proof. unfold buf_ids. by rewrite omap_app. Qed.
Lemma file_fds_app wl wl' : file_fds (wl ++ wl') = file_fds wl ++ file_fds wl'.
Proof. unfold file_fds. by rewrite omap_app. Qed.

Lemma queue_push_buf others k a a' wl tb :
  queue_ok others k a wl -> genuine tb -> 0 < b_len tb ->
  (b_id tb ∉ (list_to_set (buf_ids wl) ∪ others : gset nat)) ->
  alloc_inv a' ({[b_id tb]} ∪ (list_to_set (buf_ids wl) ∪ others)) ->
  queue_ok others k a' (wl ++ [MkToWrite 0 (Some tb) 0 0]).
Proof.
  intros [He Hb Ho Hf Ha] Hg Hl Hid Hinv.
  assert (buf_ids [MkToWrite 0 (Some tb) 0 0] = [b_id tb]) as Hone by done.
  assert (file_fds [MkToWrite 0 (Some tb) 0 0] = []) as Hnone by done.
  split.
  - apply Forall_app. split; [done|]. apply Forall_singleton. cbn. split; [done|]. split; [done|lia].
  - rewrite buf_ids_app, Hone. apply NoDup_app. split; [done|]. split; [set_solver|apply NoDup_singleton].
  - rewrite buf_ids_app, Hone. set_solver.
  - by rewrite file_fds_app, Hnone, app_nil_r.
  - rewrite buf_ids_app, Hone. rewrite list_to_set_app_L. cbn.
    by replace (list_to_set (buf_ids wl) ∪ ({[b_id tb]} ∪ ∅) ∪ others : gset nat)
      with ({[b_id tb]} ∪ (list_to_set (buf_ids wl) ∪ others)) by set_solver.
Qed.

Lemma copy_fill p d : genuine p -> b_len p = len d -> data (copy_at p 0 d) = d.
Proof.
  intros Hg Hl. unfold len in Hl.
  pose proof (copy_prefix p d (length d) (genuine_ok _ Hg) ltac:(lia) ltac:(lia)) as Hc.
  pose proof (data_len (copy_at p 0 d) (copy_at_ok _ _ _ (genuine_ok _ Hg))) as Hd.
  unfold len in Hd. cbn [copy_at b_len] in Hd. rewrite !take_ge in Hc by lia. done.
Qed.

Lemma genuine_copy_at p i d : genuine p -> genuine (copy_at p i d).
Proof. intros H. apply genuine_view; [done|apply overwrite_length|by apply genuine_ok]. Qed.

Lemma appendBuffer_ok others buf s :
  queue_ok others (kern s) (alloc s) (writeList s) -> 0 < len buf ->
  exists a' wl', appendBuffer buf s = Ret (upd (kern s) a' (c_left s) wl' (calls s) s) /\
    queue_ok others (kern s) a' wl' /\ wl' <> [] /\
    pending (kern s) wl' = pending (kern s) (writeList s) ++ buf /\
    queue_left wl' = queue_left (writeList s) + len buf /\ file_fds wl' = file_fds (writeList s).
Proof.
  intros Hq Hl. unfold appendBuffer.
  destruct (malloc_law (alloc s) _ (len buf) (q_alloc _ _ _ _ Hq)) as (p & a' & -> & Hp & Hg & Hid & Hinv); [lia|].
  cbn [must mbind res_bind]. eexists _, _. split; [done|].
  split; [apply (queue_push_buf others (kern s) (alloc s)); try done; [by apply genuine_copy_at|cbn; lia]|].
  split; [by destruct (writeList s)|].
  rewrite pending_app, queue_left_app, pending_cons. unfold entry_bytes, entry_left, pending, queue_left.
  cbn [tw_buf tw_offset b_len copy_at foldr fmap list_fmap concat]. rewrite app_nil_r.
  split; [|split; [cbn; lia|by rewrite file_fds_app, app_nil_r]].
  f_equal. change (Z.to_nat 0) with 0%nat. by rewrite drop_0, copy_fill.
Qed.

(** The last buffer moves to an array that holds at least as much. *)
Lemma ensure_tail_ok live tb l s :
  alloc_inv (alloc s) live -> genuine tb -> b_id tb ∈ live -> 0 <= l ->
  exists tb' a', ensure_tail tb l s = Ret (tb', set_alloc a' s) /\ data tb' = data tb /\ genuine tb' /\
    (b_id tb' ∉ live ∖ {[b_id tb]}) /\ alloc_inv a' ({[b_id tb']} ∪ live ∖ {[b_id tb]}).
Proof.
  intros Hinv Hg Hin Hl. pose proof (genuine_ok _ Hg) as Hok. unfold ensure_tail.
  destruct (cap tb <? b_len tb + l) eqn:E; bool_hyp.
  - unfold buf_ok in Hok.
    destruct (malloc_law (alloc s) live (b_len tb + l) Hinv ltac:(lia)) as (p & a1 & -> & Hp & Hgp & Hid & Hinv1).
    cbn [must mbind res_bind]. pose proof (genuine_ok _ Hgp) as Hokp. unfold buf_ok in Hokp.
    rewrite reslice_eq by lia. cbn [must mbind res_bind].
    assert (genuine (MkBuf (b_id p) (b_mem p) (b_len tb))) as Hgr by (apply genuine_view; [done..|lia]).
    destruct (free_law a1 _ tb Hinv1 Hg ltac:(set_solver)) as (a2 & -> & Hinv2).
    cbn [must mbind res_bind]. eexists _, _. split; [done|]. cbn [copy_at b_id].
    split; [|split; [by apply genuine_copy_at|split; [set_solver|]]].
    + apply copy_fill; [done|]. cbn. symmetry. apply data_len. done.
    + by rewrite <- live_swap.
  - exists tb, (alloc s). split; [by destruct s|]. split; [done|]. split; [done|]. split; [set_solver|].
    by rewrite <- union_difference_singleton_L by done.
Qed.

(** The last buffer is replaced by one that has more behind. *)
Lemma queue_grow_tail others k a a' wl t tb tb' buf :
  queue_ok others k a (wl ++ [t]) -> tw_buf t = Some tb -> genuine tb' -> data tb' = data tb ++ buf ->
  (b_id tb' ∉ (list_to_set (buf_ids wl) ∪ others : gset nat)) ->
  alloc_inv a' ({[b_id tb']} ∪ (list_to_set (buf_ids wl) ∪ others)) ->
  let t' := MkToWrite (tw_fd t) (Some tb') (tw_offset t) (tw_remain t) in
  queue_ok others k a' (wl ++ [t']) /\
  pending k (wl ++ [t']) = pending k (wl ++ [t]) ++ buf /\
  queue_left (wl ++ [t']) = queue_left (wl ++ [t]) + len buf /\ file_fds (wl ++ [t']) = file_fds (wl ++ [t]).
Proof.
  intros [He Hb Ho Hf Ha] Ht Hg Hd Hid Hinv t'.
  assert (buf_ids [t] = [b_id tb]) as Hone by (unfold buf_ids; cbn; by rewrite Ht).
  assert (buf_ids [t'] = [b_id tb']) as Hone' by done.
  assert (file_fds [t] = []) as Hnone by (unfold file_fds; cbn; by rewrite Ht).
  assert (file_fds [t'] = []) as Hnone' by done.
  apply Forall_app in He as [He Het]. apply Forall_cons in Het as [Het _].
  unfold entry_ok in Het. rewrite Ht in Het. destruct Het as (Hfd & Hgb & Hoff).
  pose proof (data_len tb (genuine_ok _ Hgb)) as Hlb.
  pose proof (data_len tb' (genuine_ok _ Hg)) as Hlb'. rewrite Hd, len_app in Hlb'. pose proof (len_nonneg buf).
  rewrite buf_ids_app, Hone, file_fds_app, Hnone, app_nil_r in *. apply NoDup_app in Hb as (Hb & _ & _).
  split; [split|split; [|split]].
  - apply Forall_app. split; [done|]. apply Forall_singleton. unfold entry_ok, t'. cbn. split; [done|].
    split; [done|lia].
  - rewrite buf_ids_app, Hone'. apply NoDup_app. split; [done|]. split; [set_solver|apply NoDup_singleton].
  - rewrite buf_ids_app, Hone'. set_solver.
  - by rewrite file_fds_app, Hnone', app_nil_r.
  - rewrite buf_ids_app, Hone', list_to_set_app_L. cbn.
    by replace (list_to_set (buf_ids wl) ∪ ({[b_id tb']} ∪ ∅) ∪ others : gset nat)
      with ({[b_id tb']} ∪ (list_to_set (buf_ids wl) ∪ others)) by set_solver.
  - rewrite !pending_app, <- app_assoc. f_equal. unfold pending, entry_bytes, t'. cbn. rewrite Ht, Hd, !app_nil_r.
    apply drop_app_le. unfold len in *. lia.
  - rewrite !queue_left_app. unfold queue_left, entry_left, t'. cbn. rewrite Ht. lia.
  - by rewrite file_fds_app, Hnone, app_nil_r.
Qed.

Lemma newToWriteBuf_ok others buf s :
  queue_ok others (kern s) (alloc s) (writeList s) -> 0 < len buf ->
  exists a' wl', newToWriteBuf buf s = Ret (upd (kern s) a' (c_left s + len buf) wl' (calls s) s) /\
    queue_ok others (kern s) a' wl' /\ wl' <> [] /\
    pending (kern s) wl' = pending (kern s) (writeList s) ++ buf /\
    queue_left wl' = queue_left (writeList s) + len buf /\ file_fds wl' = file_fds (writeList s).
Proof.
  intros Hq Hl. unfold newToWriteBuf.
  pose proof (appendBuffer_ok others buf (set_left (c_left s + len buf) s) Hq Hl) as Happ.
  change (writeList (set_left _ s)) with (writeList s) in *.
  destruct (last (writeList s)) as [t|] eqn:Elast; [|exact Happ].
  destruct (tw_buf t) as [tb|] eqn:Etb; [|exact Happ].
  destruct (maxWriteCacheOrFlushSize <? b_len tb + len buf); [exact Happ|]. clear Happ.
  apply last_Some in Elast as (wl & Ewl). rewrite Ewl in Hq.
  assert (list_to_set (buf_ids (wl ++ [t])) ∪ others = {[b_id tb]} ∪ (list_to_set (buf_ids wl) ∪ others)) as Hlive.
  { rewrite buf_ids_app, list_to_set_app_L. unfold buf_ids at 2. cbn. rewrite Etb. cbn. set_solver. }
  assert (b_id tb ∉ (list_to_set (buf_ids wl) ∪ others : gset nat)) as Hnot.
  { pose proof (q_bufs _ _ _ _ Hq) as Hn. pose proof (q_others _ _ _ _ Hq) as Ho.
    rewrite buf_ids_app in *. unfold buf_ids at 2 in Hn. unfold buf_ids at 2 in Ho.
    cbn in Hn, Ho. rewrite Etb in Hn, Ho. cbn in Hn, Ho. apply NoDup_app in Hn as (_ & Hn & _). set_solver. }
  pose proof (q_alloc _ _ _ _ Hq) as Hinv. rewrite Hlive in Hinv.
  assert (genuine tb) as Hg.
  { pose proof (q_entries _ _ _ _ Hq) as He. apply Forall_app in He as [_ He].
    apply Forall_cons in He as [He _]. unfold entry_ok in He. rewrite Etb in He. apply He. }
  destruct (ensure_tail_ok _ tb (len buf) (set_left (c_left s + len buf) s) Hinv Hg ltac:(set_solver) ltac:(lia))
    as (tb1 & a1 & -> & Hd1 & Hg1 & Hid1 & Hinv1).
  rewrite live_back in * by done. cbn [mbind res_bind].
  destruct (append_law a1 _ tb1 buf Hinv1 Hg1 ltac:(set_solver)) as (tb2 & a2 & He2 & Hd2 & Hg2 & Hid2 & Hinv2).
  rewrite live_back in * by done. change (alloc (set_alloc a1 _)) with a1. rewrite He2. cbn [must mbind res_bind].
  rewrite Hd1 in Hd2.
  destruct (queue_grow_tail others (kern s) (alloc s) a2 wl t tb tb2 buf Hq Etb Hg2 Hd2 Hid2 Hinv2) as (? & ? & ? & ?).
  change (writeList (set_alloc a1 _)) with (writeList s). rewrite Ewl, removelast_last.
  eexists _, _. split; [done|]. split; [done|]. split; [by destruct wl|]. by split.
Qed.

(** ** Releasing *)

(** The head leaves the queue; its file is closed or its buffer given back. *)
Lemma releaseToWrite_ok others t t' wl s :
  queue_ok others (kern s) (alloc s) (t :: wl) -> tw_buf t' = tw_buf t -> tw_fd t' = tw_fd t ->
  exists k' a', releaseToWrite t' s = Ret (set_kern k' (set_alloc a' s)) /\
    queue_ok others k' a' wl /\ pending k' wl = pending (kern s) wl /\
    (forall x, sent k' x = sent (kern s) x) /\ (patience k' <= patience (kern s))%nat /\
    (forall x, x ∉ file_fds [t] -> interest k' x = interest (kern s) x /\ socket k' x = socket (kern s) x).
Proof.
  intros [He Hb Ho Hf Ha] Hbuf Hfd. apply Forall_cons in He as [Het He].
  unfold releaseToWrite, entry_ok in *. rewrite Hbuf, Hfd. unfold buf_ids, file_fds in *. cbn [omap list_omap] in *.
  destruct (tw_buf t) as [tb|] eqn:Etb; cbn [fmap option_fmap option_map] in *.
  - destruct Het as (-> & Hg & _). apply NoDup_cons in Hb as [Hid Hb].
    destruct (free_law (alloc s) _ tb Ha Hg) as (a' & -> & Hinv); [cbn; set_solver|].
    cbn [must mbind res_bind]. change (0 <? 0) with false. cbn iota.
    exists (kern s), a'. split; [by destruct s|]. split; [|done]. split; [done..|set_solver|done|].
    assert (b_id tb ∉ others) as Hot by (apply Ho; set_solver).
    assert ((list_to_set (b_id tb :: omap (fun t => b_id <$> tw_buf t) wl) ∪ others) ∖ {[b_id tb]}
      = list_to_set (buf_ids wl) ∪ others) as <- by (unfold buf_ids; set_solver).
    done.
  - destruct Het as (Hpos & _). cbn [mbind res_bind]. rewrite (proj2 (Z.ltb_lt _ _)) by done.
    apply NoDup_cons in Hf as [Hfn Hf].
    destruct (sys_close (tw_fd t) (kern s)) as [e k'] eqn:Ec. apply close_law in Ec as [].
    cbn [snd]. exists k', (alloc s). split; [by destruct s|].
    destruct (queue_files others (kern s) k' (alloc s) wl) as [? ?];
      [intros x Hx; apply sb_file0; by intros -> |by split|].
    split; [done|]. split; [done|]. split; [done|]. split; [done|].
    intros x Hx. split; [apply sb_interest0|apply sb_socket0]; set_solver.
Qed.

Lemma upd_upd k a n wl cs k' a' n' wl' cs' s :
  upd k' a' n' wl' cs' (upd k a n wl cs s) = upd k' a' n' wl' cs' s.
Proof. done. Qed.

(** Closing gives back everything that is queued. *)
Lemma release_all_ok others wl s :
  queue_ok others (kern s) (alloc s) wl ->
  exists k' a', release_all wl s = Ret (set_kern k' (set_alloc a' s)) /\ alloc_inv a' others /\
    (forall x, sent k' x = sent (kern s) x).
Proof.
  revert s. induction wl as [|t wl IH]; intros s Hq; cbn [release_all].
  - exists (kern s), (alloc s). split; [by destruct s|]. split; [|done].
    pose proof (q_alloc _ _ _ _ Hq) as Ha. cbn in Ha. by rewrite union_empty_l_L in Ha.
  - destruct (releaseToWrite_ok others t t wl s Hq eq_refl eq_refl) as (k1 & a1 & -> & Hq1 & _ & Hs1 & _).
    cbn [mbind res_bind]. destruct (IH (set_kern k1 (set_alloc a1 s)) Hq1) as (k2 & a2 & -> & Ha2 & Hs2).
    exists k2, a2. split; [done|]. split; [done|]. intros x. by rewrite Hs2, <- Hs1.
Qed.

(** A connection after [closeWithErrorWithoutLock]. *)
Record closed_with (others : gset nat) (err : option conn_err) s s' : Prop := {
  cw_closed : c_closed s' = c_closed s;
  cw_fd : c_fd s' = c_fd s;
  cw_list : writeList s' = [];
  cw_err : closeErr s' = err;
  cw_alloc : alloc_inv (alloc s') others;
  cw_sent : sent (kern s') (c_fd s) = sent (kern s) (c_fd s);
  cw_calls : is_stream (c_typ s) = true -> hasPoller s = true -> calls s' = calls s ++ [OnClose err];
  cw_table : is_stream (c_typ s) = true -> hasPoller s = true -> inTable s' = false;
  cw_timers : wTimer s' = wTimer s /\ rTimer s' = rTimer s
}.

Lemma close_ok others err s :
  queue_ok others (kern s) (alloc s) (writeList s) ->
  exists e s', closeWithErrorWithoutLock err s = Ret (e, s') /\ closed_with others err s s'.
Proof.
  intros Hq. unfold closeWithErrorWithoutLock.
  destruct (release_all_ok others (writeList s) (set_closeErr err s) Hq) as (k1 & a1 & He & Ha & Hs).
  change (writeList (set_closeErr err s)) with (writeList s). rewrite He. cbn [mbind res_bind].
  destruct s as [k a fd typ left wl cl wa ce wt rt hp it cs]. cbn in He, Hs.
  destruct (sys_close fd k1) as [e k2] eqn:Ec. pose proof Ec as Ec'. apply close_law in Ec' as [].
  destruct hp, typ; cbn; unfold deleteConn; cbn; repeat (case_bool_decide; try done); cbn;
    rewrite ?Ec; eexists _, _; (split; [done|]); split; cbn; try done;
    rewrite ?sb_sent0; apply Hs.
Qed.

End queue.
