(* ===== verification/NbConnStream.v ===== *)
(** * The non-blocking connection: writing, flushing and sending files

    Each operation, from a connection in order, on every answer of the kernel:
    what is on the wire and in the queue afterwards is what was there before
    with the accepted bytes behind. *)

From Stdlib Require Import ZArith Lia.
From Stdlib Require Import Strings.Byte.
From stdpp Require Import base numbers list list_numbers gmap.
From S2P Require Import Prelude Mempool MempoolFacts NbConn NbConnFacts.

Open Scope Z_scope.

Section stream.
Context {K A : Type} `{!Kernel K} `{!KernelView K} `{!KernelLaws K} `{!Allocator A} `{!AllocatorLaws A}.
Context (g : engine) (others : gset nat).
Abbreviation nbconn := (nbconn K A).
Implicit Types (s : nbconn) (k : K) (a : A) (wl : list toWrite).

(** A stream connection in order. *)
Record conn_ok s : Prop := {
  ok_queue : queue_ok others (kern s) (alloc s) (writeList s);
  ok_left : c_left s = queue_left (writeList s);
  ok_sock : socket (kern s) (c_fd s) = true;
  ok_fds : c_fd s ∉ file_fds (writeList s);
  ok_stream : is_stream (c_typ s) = true;
  ok_open : c_closed s = false
}.

(** The bytes on the wire followed by the bytes queued. *)
Definition total s : bytes := sent (kern s) (c_fd s) ++ pending (kern s) (writeList s).

(** [s'] differs from [s] by work of the data path only. *)
Record dstep s s' : Prop := {
  ds_upd : s' = upd (kern s') (alloc s') (c_left s') (writeList s') (calls s') s;
  ds_interest : interest (kern s') (c_fd s) = interest (kern s) (c_fd s);
  ds_socket : socket (kern s') (c_fd s) = socket (kern s) (c_fd s);
  ds_patience : (patience (kern s') <= patience (kern s))%nat
}.

Lemma dstep_refl s : dstep s s.
Proof. split; [apply upd_id|done..]. Qed.

Lemma dstep_fd s s' : dstep s s' -> c_fd s' = c_fd s.
Proof. intros [-> _ _ _]. done. Qed.

Lemma dstep_trans s s' s'' : dstep s s' -> dstep s' s'' -> dstep s s''.
Proof.
  intros H1 H2. pose proof (dstep_fd _ _ H1) as Hfd. destruct H1 as [U1 I1 S1 P1], H2 as [U2 I2 S2 P2].
  rewrite Hfd in *. split; [|congruence|congruence|lia]. rewrite U2 at 1. by rewrite U1, upd_upd.
Qed.

(** The connection is in order again when the queue is. *)
Lemma conn_ok_step s s' :
  dstep s s' -> conn_ok s -> queue_ok others (kern s') (alloc s') (writeList s') ->
  c_left s' = queue_left (writeList s') -> (c_fd s ∉ file_fds (writeList s')) -> conn_ok s'.
Proof.
  intros [U I S P] Hok Hq Hl Hf. destruct Hok. split; try done; rewrite U; cbn [upd c_fd c_typ c_closed kern]; try done.
  congruence.
Qed.

Lemma report_ok b n s :
  n <= len b -> exists cs, report g b n s = Ret (upd (kern s) (alloc s) (c_left s) (writeList s) cs s).
Proof.
  intros Hn. unfold report. destruct (hasOnWrittenSize g && (0 <? n)) eqn:E.
  - bool_hyp. rewrite slice_eq by lia. cbn [must mbind res_bind]. by eexists.
  - exists (calls s). f_equal. apply upd_id.
Qed.

(** ** Write *)

Lemma doWrite_ok b s :
  is_stream (c_typ s) = true -> 0 < len b ->
  exists n e k' cs, doWrite g b s = Ret (n, e, upd k' (alloc s) (c_left s) (writeList s) cs s) /\
    n <= len b /\ sent k' (c_fd s) = sent (kern s) (c_fd s) ++ take (Z.to_nat n) b /\
    same_fds (kern s) k' /\ (fatal e = true -> n <= 0) /\ (patience k' <= patience (kern s))%nat.
Proof.
  intros Hs Hb. unfold doWrite.
  destruct (sys_write (c_fd s) b (kern s)) as [[n e] k'] eqn:E.
  assert (match c_typ s with
    | ConnTypeTCP | ConnTypeUnix | ConnTypeUDPClientFromDial => (n, e, set_kern k' s)
    | ConnTypeUDPServer => (0, ENone, s)
    | ConnTypeUDPClientFromRead =>
        let '(e, k) := sys_sendto (c_fd s) b (kern s) in
        (if decide (e = ENone) then len b else 0, e, set_kern k s)
    end = (n, e, set_kern k' s)) as ->.
  { unfold is_stream in Hs. by destruct (c_typ s). }
  apply write_law in E as (Hn & Hsent & Hf & Hpos & _ & Hp & _).
  destruct (report_ok b n (set_kern k' s) Hn) as (cs & ->). cbn [mbind res_bind].
  exists n, e, k', cs. split; [done|]. split; [done|]. split; [done|]. split; [done|].
  split; [|done]. intros Hfa. destruct (decide (0 < n)) as [H|]; [|lia]. by rewrite (Hpos H) in Hfa.
Qed.

(** Queueing puts the bytes behind what is there. *)
Lemma queue_behind b s :
  conn_ok s -> 0 < len b ->
  exists s', newToWriteBuf b s = Ret s' /\ dstep s s' /\ conn_ok s' /\ total s' = total s ++ b /\
    writeList s' <> [] /\ c_left s' = c_left s + len b.
Proof.
  intros Hok Hb.
  destruct (newToWriteBuf_ok others b s (ok_queue _ Hok)) as (a2 & wl2 & -> & Hq2 & Hne & Hpend & Hleft & Hfds); [done|].
  eexists. split; [done|].
  assert (dstep s (upd (kern s) a2 (c_left s + len b) wl2 (calls s) s)) as Hd by (split; done).
  split; [done|]. split; [apply (conn_ok_step s); try done|split; [|by split]].
  - cbn [upd c_left writeList]. by rewrite Hleft, (ok_left _ Hok).
  - cbn [upd writeList]. rewrite Hfds. apply Hok.
  - unfold total. cbn [upd kern c_fd writeList]. by rewrite Hpend, app_assoc.
Qed.

(** The first write of an idle connection. *)
Lemma doWrite_step b s :
  conn_ok s -> writeList s = [] -> 0 < len b ->
  exists n e s', doWrite g b s = Ret (n, e, s') /\ dstep s s' /\ conn_ok s' /\ writeList s' = [] /\
    c_left s' = c_left s /\ n <= len b /\ total s' = total s ++ take (Z.to_nat n) b /\ (fatal e = true -> n <= 0).
Proof.
  intros Hok Ewl Hb.
  destruct (doWrite_ok b s (ok_stream _ Hok) Hb) as (n & e & k1 & cs & -> & Hn & Hsent & [Hff Hfi Hfs] & Hfatal & Hp).
  pose proof (ok_queue _ Hok) as Hq.
  destruct (queue_same_files others (kern s) k1 (alloc s) _ Hff Hq) as [Hq1 _].
  assert (dstep s (upd k1 (alloc s) (c_left s) (writeList s) cs s)) as Hd1
    by (split; [done|apply Hfi|apply Hfs|done]).
  eexists _, _, _. split; [done|]. split; [done|].
  split; [apply (conn_ok_step s); [done|done|done|apply Hok|apply Hok]|].
  split; [done|]. split; [done|]. split; [done|]. split; [|done].
  unfold total. cbn [upd kern c_fd writeList]. rewrite Hsent, Ewl. cbn. by rewrite !app_nil_r.
Qed.

(** [write] accepts all, or refuses and leaves the connection as it is. *)
Lemma write_ok b s :
  conn_ok s ->
  exists n err s', write g b s = Ret (n, err, s') /\ dstep s s' /\ conn_ok s' /\
    (c_left s <= c_left s' <= c_left s + len b) /\
    (len b <> 0 -> overflow g (len b) s = true -> n = -1 /\ err = Some ErrOverflow) /\
    (len b <> 0 -> overflow g (len b) s = false -> err <> Some ErrOverflow) /\
    match err with
    | None => n = len b /\ total s' = total s ++ b
    | Some e => fatal_err err = true /\ total s' = total s
    end.
Proof.
  intros Hok. pose proof (len_nonneg b). unfold write. destruct (len b =? 0) eqn:Eb; bool_hyp.
  { exists 0, None, s. split; [done|]. split; [apply dstep_refl|]. split; [done|]. split; [lia|].
    split; [done|]. split; [done|]. split; [done|]. apply len_zero_nil in Eb as ->. by rewrite app_nil_r. }
  destruct (overflow g (len b) s).
  { exists (-1), (Some ErrOverflow), s. split; [done|]. split; [apply dstep_refl|].
    split; [done|]. split; [lia|]. done. }
  destruct (writeList s) as [|t wl] eqn:Ewl; cycle 1.
  { destruct (queue_behind b s Hok) as (s' & -> & ? & ? & ? & _ & Hl); [lia|]. cbn [mbind res_bind].
    eexists _, _, _. split; [done|]. split; [done|]. split; [done|]. split; [lia|]. done. }
  destruct (doWrite_step b s Hok Ewl) as (n & e & s1 & -> & Hd1 & Hok1 & Ewl1 & Hl1 & Hn & Ht & Hfatal); [lia|].
  cbn [mbind res_bind]. destruct (fatal e) eqn:Ef.
  { exists n, (Some (ErrSys e)), s1. split; [done|]. split; [done|]. split; [done|]. split; [lia|].
    split; [done|]. split; [done|]. split; [done|]. specialize (Hfatal eq_refl). rewrite Ht.
    replace (Z.to_nat n) with 0%nat by lia. by rewrite take_0, app_nil_r. }
  set (n' := if n <? 0 then 0 else n).
  assert (0 <= n' <= len b /\ Z.to_nat n' = Z.to_nat n) as [Hn' Hnn].
  { unfold n'. destruct (n <? 0) eqn:En; bool_hyp; lia. }
  rewrite (ok_stream _ Hok1), andb_true_r. destruct (0 <? len b - n') eqn:El; bool_hyp.
  - rewrite slice_from_eq by lia. cbn [must mbind res_bind].
    destruct (queue_behind (drop (Z.to_nat n') b) s1 Hok1) as (s2 & -> & Hd2 & Hok2 & Ht2 & _ & Hl2);
      [rewrite len_drop; lia|]. rewrite len_drop in Hl2. cbn [mbind res_bind]. eexists _, _, _. split; [done|].
    split; [by eapply dstep_trans|]. split; [done|]. split; [lia|]. split; [done|]. split; [done|]. split; [done|].
    by rewrite Ht2, Ht, <- app_assoc, Hnn, take_drop.
  - cbn [mbind res_bind]. exists (len b), None, s1. split; [done|]. split; [done|]. split; [done|]. split; [lia|].
    split; [done|]. split; [done|]. split; [done|]. rewrite Ht. f_equal. apply take_ge. unfold len in *. lia.
Qed.

(** ** Events *)

Definition epoll_reliable : Prop := forall op fd ev k, fst (sys_epoll_ctl op fd ev k) = ENone.

(** The events asked for, when nothing is disarmed behind the code's back: in
    edge-triggered mode the writing event is always on, in level-triggered mode
    it is on exactly when the connection says so. *)
Definition watch s : Prop :=
  epoll_reliable -> isOneshot g = false ->
  Z.testbit (interest (kern s) (c_fd s)) 2 = (if EpollMod g =? EPOLLET then true else isWAdded s).

(** Something queued has the writing event asked for. *)
Definition armed s : Prop := writeList s <> [] -> isWAdded s = true.

Definition settled s : Prop := conn_ok s /\ armed s /\ watch s.

(** Changing the events leaves everything else. *)
Record estep s s' : Prop := {
  es_kern : exists k, s' = set_kern k (set_wadded (isWAdded s') s);
  es_sent x : sent (kern s') x = sent (kern s) x;
  es_file x : file (kern s') x = file (kern s) x;
  es_socket x : socket (kern s') x = socket (kern s) x;
  es_patience : (patience (kern s') <= patience (kern s))%nat
}.

Lemma estep_fd s s' : estep s s' -> c_fd s' = c_fd s.
Proof. by intros [[k ->] _ _ _ _]. Qed.

Lemma estep_ok s s' : estep s s' -> conn_ok s -> conn_ok s' /\ total s' = total s /\ writeList s' = writeList s.
Proof.
  intros [[k Hk] Hs Hf Hso Hp] [Hq Hl Hsk Hfd Hst Hop].
  assert (kern s' = k) as Hkk by (by rewrite Hk). rewrite Hkk in *.
  destruct (queue_same_files others (kern s) k (alloc s) (writeList s) Hf Hq) as [Hq' Hpend].
  rewrite Hk. split; [split; cbn; try done; by rewrite Hso|].
  split; [|done]. unfold total. cbn [set_kern set_wadded kern c_fd writeList]. by rewrite Hs, Hpend.
Qed.

Lemma EpollCtl_step op ev s e s' :
  EpollCtl op ev s = (e, s') ->
  estep s s' /\ isWAdded s' = isWAdded s /\ c_fd s' = c_fd s /\
  (epoll_reliable -> interest (kern s') (c_fd s) = ev).
Proof.
  unfold EpollCtl. destruct (sys_epoll_ctl op (c_fd s) ev (kern s)) as [e' k'] eqn:E. intros [= -> <-].
  pose proof E as E'. apply epoll_law in E' as (Hs & Hf & Hso & Hp & Hi & _).
  split; [split; [by exists k'; destruct s|done..]|]. split; [done|]. split; [done|].
  intros Hr. apply Hi. specialize (Hr op (c_fd s) ev (kern s)). by rewrite E in Hr.
Qed.

(** Level-triggered registration of reading and of reading and writing. *)
Lemma setRead_step s e s' :
  setRead g EPOLL_CTL_MOD s = (e, s') ->
  estep s s' /\ isWAdded s' = isWAdded s /\
  (epoll_reliable -> isOneshot g = false ->
     if EpollMod g =? EPOLLET then interest (kern s') (c_fd s) = interest (kern s) (c_fd s)
     else Z.testbit (interest (kern s') (c_fd s)) 2 = false).
Proof.
  unfold setRead, isOneshot. destruct (EpollMod g =? EPOLLET); cbn [andb].
  - destruct (g_EPOLLONESHOT g =? EPOLLONESHOT); cbn [negb].
    + intros (? & ? & ? & ?)%EpollCtl_step. by split.
    + change (EPOLL_CTL_MOD =? EPOLL_CTL_ADD) with false. intros [= <- <-].
      split; [split; [by exists (kern s); destruct s|done..]|]. done.
  - intros (? & ? & ? & Hi)%EpollCtl_step. split; [done|]. split; [done|]. intros Hr _. by rewrite Hi.
Qed.

Lemma setReadWrite_step s e s' :
  setReadWrite g EPOLL_CTL_MOD s = (e, s') ->
  estep s s' /\ isWAdded s' = isWAdded s /\
  (epoll_reliable ->
     if (EpollMod g =? EPOLLET) && negb (isOneshot g) then interest (kern s') (c_fd s) = interest (kern s) (c_fd s)
     else Z.testbit (interest (kern s') (c_fd s)) 2 = true).
Proof.
  unfold setReadWrite, isOneshot. destruct (EpollMod g =? EPOLLET); cbn [andb].
  - destruct (g_EPOLLONESHOT g =? EPOLLONESHOT) eqn:E; cbn [negb].
    + bool_hyp. intros (? & ? & ? & Hi)%EpollCtl_step. split; [done|]. split; [done|].
      intros Hr. by rewrite Hi, E by done.
    + change (EPOLL_CTL_MOD =? EPOLL_CTL_ADD) with false. intros [= <- <-].
      split; [split; [by exists (kern s); destruct s|done..]|]. done.
  - intros (? & ? & ? & Hi)%EpollCtl_step. split; [done|]. split; [done|]. intros Hr. by rewrite Hi.
Qed.

Lemma modWrite_ok s :
  conn_ok s -> watch s -> settled (modWrite g s) /\ total (modWrite g s) = total s /\
  c_fd (modWrite g s) = c_fd s.
Proof.
  intros Hok Hw. unfold modWrite. rewrite (ok_open _ Hok). cbn [negb andb].
  destruct (isWAdded s) eqn:Ew; cbn [negb]; [split; [|done]; split; [done|]; by split; [intros _|]|].
  destruct (poller_modWrite g (set_wadded true s)) as [e s'] eqn:E. apply setReadWrite_step in E as (Hs & Hwa & Hi).
  cbn [snd]. destruct (estep_ok _ _ Hs) as (Hok' & Ht & Hl).
  { destruct Hok. by split. }
  pose proof (estep_fd _ _ Hs) as Hfd. cbn in Hfd.
  split; [|by rewrite Ht]. split; [done|]. split; [by intros _|].
  intros Hr Ho. specialize (Hi Hr). rewrite Ho, Hwa, Hfd in *. cbn [negb set_wadded isWAdded kern c_fd] in *.
  rewrite andb_true_r in Hi. specialize (Hw Hr Ho). destruct (EpollMod g =? EPOLLET); [by rewrite Hi|done].
Qed.

Lemma modWrite_left s : c_left (modWrite g s) = c_left s.
Proof.
  unfold modWrite. destruct (_ && _); [|done]. destruct (poller_modWrite g _) as [e s'] eqn:E.
  apply setReadWrite_step in E as ([[k ->] _ _ _ _] & _). done.
Qed.

Lemma resetRead_ok s :
  conn_ok s -> watch s -> writeList s = [] ->
  settled (resetRead g s) /\ total (resetRead g s) = total s /\ c_fd (resetRead g s) = c_fd s /\
  writeList (resetRead g s) = [].
Proof.
  intros Hok Hw Hl. unfold resetRead. rewrite (ok_open _ Hok). cbn [negb andb].
  destruct (isWAdded s) eqn:Ew; [|split; [|done]; split; [done|]; split; [|done]; intros Hne; by rewrite Hl in Hne].
  destruct (poller_resetRead g (set_wadded false s)) as [e s'] eqn:E. apply setRead_step in E as (Hs & Hwa & Hi).
  cbn [snd]. destruct (estep_ok _ _ Hs) as (Hok' & Ht & Hl').
  { destruct Hok. by split. }
  pose proof (estep_fd _ _ Hs) as Hfd. cbn in Hfd.
  cbn in Hl'. rewrite Hl in Hl'.
  split; [|by rewrite Ht, Hl']. split; [done|]. split; [intros Hne; by rewrite Hl' in Hne|].
  intros Hr Ho. specialize (Hi Hr Ho). rewrite Hwa, Hfd in *. cbn [set_wadded isWAdded kern c_fd] in *.
  specialize (Hw Hr Ho). destruct (EpollMod g =? EPOLLET); [by rewrite Hi|done].
Qed.

(** The data path leaves the events as they are. *)
Lemma dstep_watch s s' : dstep s s' -> watch s -> watch s'.
Proof.
  intros [U I S P] Hw Hr Ho. specialize (Hw Hr Ho).
  assert (c_fd s' = c_fd s /\ isWAdded s' = isWAdded s) as [-> ->] by (by rewrite U). by rewrite I.
Qed.

(** ** The state an operation leaves *)

(** Closed with nothing queued or held; what is on the wire is a front part of
    the bytes [acc] accepted. *)
Definition shut_at (err : option conn_err) (fd : Z) (acc : bytes) s' : Prop :=
  c_closed s' = true /\ writeList s' = [] /\ closeErr s' = err /\ alloc_inv (alloc s') others /\
  c_fd s' = fd /\ sent (kern s') fd `prefix_of` acc.

Abbreviation shut err s s' := (shut_at err (c_fd s) (total s) s').

Lemma close_shut err acc s1 :
  conn_ok s1 -> total s1 `prefix_of` acc ->
  exists e s', closeWithErrorWithoutLock err (set_closed s1) = Ret (e, s') /\ shut_at err (c_fd s1) acc s'.
Proof.
  intros Hok Ht. destruct (close_ok others err (set_closed s1)) as (e & s' & He & Hc); [apply Hok|].
  exists e, s'. split; [done|]. destruct Hc. unfold shut_at. rewrite cw_fd, cw_closed. cbn in *.
  split; [done|]. split; [done|]. split; [done|]. split; [done|]. split; [done|].
  rewrite cw_sent. etrans; [|exact Ht]. unfold total. by apply prefix_app_r.
Qed.

(** The result of [Write]. *)
Lemma Write_ok b s :
  settled s ->
  exists n err s', Write g b s = Ret (n, err, s') /\
    match err with
    | None => n = len b /\ settled s' /\ c_fd s' = c_fd s /\ total s' = total s ++ b
    | Some e => shut (Some e) s s'
    end /\
    (c_closed s' = false -> c_left s' <= c_left s + len b) /\
    (len b <> 0 -> overflow g (len b) s = true -> n = -1 /\ err = Some ErrOverflow) /\
    (len b <> 0 -> overflow g (len b) s = false -> err <> Some ErrOverflow).
Proof.
  intros (Hok & Harm & Hw). unfold Write. rewrite (ok_open _ Hok).
  destruct (write_ok b s Hok) as (n & err & s1 & -> & Hd & Hok1 & Hleft & Hov & Hnov & Hres). cbn [mbind res_bind].
  unfold after_write. destruct err as [e|].
  - destruct Hres as [-> Ht].
    destruct (close_shut (Some e) (total s) s1 Hok1) as (e' & s' & -> & Hs); [by rewrite Ht|].
    cbn [mbind res_bind]. rewrite (dstep_fd _ _ Hd) in Hs. eexists _, _, _. split; [done|].
    split; [done|]. split; [|by split]. intros Hc. destruct Hs as (Hc' & _). congruence.
  - destruct Hres as [-> Ht]. cbn [fatal_err]. pose proof (dstep_watch _ _ Hd Hw) as Hw1.
    destruct (writeList s1) as [|t wl] eqn:El.
    + eexists _, _, _. split; [done|]. split; [|split; [intros _; cbn; lia|by split]]. split; [done|].
      split; [|split; [exact (dstep_fd _ _ Hd)|by rewrite <- Ht]]. split; [by destruct Hok1|]. split; [|done]. intros Hne. cbn in Hne. by rewrite El in Hne.
    + destruct (modWrite_ok s1 Hok1 Hw1) as (Hset & Ht' & Hfd'). eexists _, _, _. split; [done|].
      split; [|split; [intros _; rewrite modWrite_left; lia|by split]].
      split; [done|]. split; [done|]. rewrite Ht', Hfd'. by rewrite (dstep_fd _ _ Hd).
Qed.

(** ** Flushing *)

(** One system call's worth of work on the head of the queue. *)
Definition progress (e : errno) s s' : Prop :=
  dstep s s' /\ conn_ok s' /\ total s' = total s /\
  len (pending (kern s') (writeList s')) <= len (pending (kern s) (writeList s)) /\
  (e = ENone -> len (pending (kern s') (writeList s')) < len (pending (kern s) (writeList s))) /\
  (e = EINTR -> (patience (kern s') < patience (kern s))%nat).

(** The head keeps its buffer or file and moves on. *)
Lemma queue_head others' k a t t' wl :
  queue_ok others' k a (t :: wl) -> tw_buf t' = tw_buf t -> tw_fd t' = tw_fd t -> entry_ok k t' ->
  queue_ok others' k a (t' :: wl) /\ file_fds (t' :: wl) = file_fds (t :: wl).
Proof.
  intros [He Hb Ho Hf Ha] Hbuf Hfd Ht. apply Forall_cons in He as [_ He].
  assert (buf_ids (t' :: wl) = buf_ids (t :: wl)) as Hbi by (unfold buf_ids; cbn; by rewrite Hbuf).
  assert (file_fds (t' :: wl) = file_fds (t :: wl)) as Hfi by (unfold file_fds; cbn; by rewrite Hbuf, Hfd).
  split; [|done]. split; rewrite ?Hbi, ?Hfi; try done. by apply Forall_cons.
Qed.

(** The head is done: it is released and leaves the queue. *)
Lemma head_done k1 n cs t t' wl s :
  conn_ok s -> writeList s = t :: wl -> tw_buf t' = tw_buf t -> tw_fd t' = tw_fd t ->
  same_fds (kern s) k1 -> (patience k1 <= patience (kern s))%nat ->
  sent k1 (c_fd s) = sent (kern s) (c_fd s) ++ entry_bytes (kern s) t -> n = c_left s - entry_left t ->
  let s1 := upd k1 (alloc s) n (writeList s) cs s in
  exists s2, releaseToWrite t' s1 = Ret s2 /\ writeList s2 = writeList s /\
    progress ENone s (set_list wl s2) /\ (patience (kern s2) <= patience k1)%nat.
Proof.
  intros Hok Ewl Hbuf Hfd [Hff Hfi Hfs] Hp Hsent Hn s1. pose proof (ok_queue _ Hok) as Hq. rewrite Ewl in Hq.
  destruct (queue_same_files others (kern s) k1 (alloc s) (t :: wl) Hff Hq) as [Hq1 Hpend1].
  destruct (releaseToWrite_ok others t t' wl s1 Hq1 Hbuf Hfd) as (k2 & a2 & He & Hq2 & Hpend2 & Hs2 & Hp2 & Hi2).
  exists (set_kern k2 (set_alloc a2 s1)). split; [done|]. split; [done|]. split; [|done].
  assert (c_fd s ∉ file_fds (t :: wl)) as Hnf by (rewrite <- Ewl; apply Hok).
  change (t :: wl) with ([t] ++ wl) in Hnf. rewrite file_fds_app in Hnf.
  destruct (Hi2 (c_fd s)) as [Hint Hsock]; [set_solver|]. cbn [kern s1 upd] in Hint, Hsock, Hs2, Hpend2, Hp2.
  assert (pending (kern s) (writeList s) = entry_bytes (kern s) t ++ pending k2 wl) as Hpd.
  { rewrite Ewl, pending_cons. f_equal. rewrite Hpend2.
    rewrite !pending_cons, (proj2 (entry_files (kern s) k1 t ltac:(intros; apply Hff))) in Hpend1.
    by apply app_inv_head in Hpend1. }
  assert (dstep s (set_list wl (set_kern k2 (set_alloc a2 s1)))) as Hd.
  { split; [done|..]; cbn [set_list set_kern kern]; [by rewrite Hint|by rewrite Hsock|lia]. }
  pose proof (entry_bytes_pos (kern s) t) as Hpos.
  specialize (Hpos ltac:(pose proof (q_entries _ _ _ _ Hq) as H; by apply Forall_cons in H as [? _])).
  split; [done|]. split; [apply (conn_ok_step s); try done; cbn [set_list set_kern set_alloc c_left writeList s1 upd]|].
  - rewrite Hn, (ok_left _ Hok), Ewl. unfold queue_left. cbn [foldr]. lia.
  - set_solver.
  - unfold total. cbn [set_list set_kern set_alloc kern c_fd writeList s1 upd].
    rewrite Hpd, Hs2, Hsent, app_assoc. split; [done|]. rewrite len_app. split; [lia|]. split; [lia|done].
Qed.

(** The head sends a part. *)
Lemma head_part k1 m n cs t t' wl s e :
  conn_ok s -> writeList s = t :: wl -> tw_buf t' = tw_buf t -> tw_fd t' = tw_fd t -> entry_ok (kern s) t' ->
  same_fds (kern s) k1 -> (patience k1 <= patience (kern s))%nat -> (e = EINTR -> (patience k1 < patience (kern s))%nat) ->
  entry_bytes (kern s) t = take (Z.to_nat m) (entry_bytes (kern s) t) ++ entry_bytes (kern s) t' ->
  sent k1 (c_fd s) = sent (kern s) (c_fd s) ++ take (Z.to_nat m) (entry_bytes (kern s) t) ->
  n = c_left s - entry_left t + entry_left t' -> (e = ENone -> 0 < m) ->
  progress e s (upd k1 (alloc s) n (t' :: wl) cs s).
Proof.
  intros Hok Ewl Hbuf Hfd Ht' [Hff Hfi Hfs] Hp Hpi Hcut Hsent Hn Hm.
  pose proof (ok_queue _ Hok) as Hq. rewrite Ewl in Hq.
  destruct (queue_head others (kern s) (alloc s) t t' wl Hq Hbuf Hfd Ht') as [Hq' Hfi'].
  destruct (queue_same_files others (kern s) k1 (alloc s) (t' :: wl) Hff Hq') as [Hq1 Hpend1].
  assert (pending (kern s) (writeList s) = take (Z.to_nat m) (entry_bytes (kern s) t) ++ pending k1 (t' :: wl)) as Hpd.
  { rewrite Hpend1, Ewl, !pending_cons, app_assoc. f_equal. done. }
  assert (dstep s (upd k1 (alloc s) n (t' :: wl) cs s)) as Hd by (split; [done|apply Hfi|apply Hfs|done]).
  pose proof (entry_bytes_pos (kern s) t) as Hpos.
  specialize (Hpos ltac:(pose proof (q_entries _ _ _ _ Hq) as H; by apply Forall_cons in H as [? _])).
  split; [done|]. split; [apply (conn_ok_step s); try done; cbn [c_left writeList upd]|].
  - rewrite Hn, (ok_left _ Hok), Ewl. unfold queue_left. cbn [foldr]. lia.
  - rewrite Hfi', <- Ewl. apply Hok.
  - unfold total. cbn [kern c_fd writeList upd].
    rewrite Hpd, Hsent, <- app_assoc. split; [done|]. rewrite len_app. len_pose. split; [lia|].
    split; [|done]. intros He. specialize (Hm He). rewrite len_take in *. lia.
Qed.

Lemma writeBuffer_ok s t wl :
  conn_ok s -> writeList s = t :: wl -> tw_fd t = 0 ->
  exists e s', writeBuffer g s = Ret (e, s') /\ progress e s s'.
Proof.
  intros Hok Ewl Hfd. pose proof (ok_queue _ Hok) as Hq. pose proof (q_entries _ _ _ _ Hq) as He.
  rewrite Ewl in He. apply Forall_cons in He as [Ht _]. pose proof (entry_bytes_pos _ _ Ht) as Hpos.
  unfold writeBuffer. rewrite Ewl. cbn [lookup list_lookup must mbind res_bind].
  pose proof Ht as Ht0. unfold entry_ok in Ht0. destruct (tw_buf t) as [tb|] eqn:Etb; [|lia].
  destruct Ht0 as (_ & Hg & Hoff). cbn [must mbind res_bind].
  pose proof (data_len tb (genuine_ok _ Hg)) as Hdl. rewrite slice_from_eq by lia. cbn [must mbind res_bind].
  assert (entry_bytes (kern s) t = drop (Z.to_nat (tw_offset t)) (data tb)) as Hb by (unfold entry_bytes; by rewrite Etb).
  assert (entry_left t = len (entry_bytes (kern s) t)) as Hel by (by eapply entry_left_len).
  rewrite <- Hb. destruct (sys_write (c_fd s) (entry_bytes (kern s) t) (kern s)) as [[n e] k1] eqn:Ew.
  apply write_law in Ew as (Hn & Hsent & Hf & Hne & Hnz & Hp & Hpi).
  assert (entry_bytes (kern s) t <> []) as Hnil by (intros H; rewrite H in Hpos; done).
  destruct (0 <? n) eqn:En; bool_hyp.
  - specialize (Hne En) as ->.
    destruct (report_ok (entry_bytes (kern s) t) n (set_kern k1 s) Hn) as (cs & ->). cbn [mbind res_bind].
    destruct (len (entry_bytes (kern s) t) =? n) eqn:El; bool_hyp.
    + destruct (head_done k1 (c_left s - n) cs t (MkToWrite (tw_fd t) (Some tb) (tw_offset t + n) (tw_remain t)) wl s)
        as (s2 & Hr & Hl2 & Hpr & _); try done; [|lia|].
      { rewrite Hsent. f_equal. apply take_ge. unfold len in *. lia. }
      match goal with |- context [releaseToWrite ?x ?y] =>
        replace (releaseToWrite x y) with (Ret s2) by (symmetry; exact Hr) end.
      cbn [mbind res_bind].
      eexists _, _. split; [done|]. by rewrite Hl2, Ewl.
    + eexists _, _. split; [done|].
      set (t' := MkToWrite (tw_fd t) (Some tb) (tw_offset t + n) (tw_remain t)).
      assert (<[0%nat := t']> (writeList s) = t' :: wl) as Hins by (by rewrite Ewl).
      match goal with |- progress _ _ ?x =>
        replace x with (upd k1 (alloc s) (c_left s - n) (t' :: wl) cs s) by (rewrite <- Hins; reflexivity) end.
      apply (head_part k1 n (c_left s - n) cs t); try done.
      * unfold entry_ok. cbn. split; [done|]. split; [done|]. rewrite Hb, len_drop in *. lia.
      * unfold entry_bytes at 3. cbn. rewrite Hb. rewrite Z2Nat.inj_add, <- drop_drop, take_drop by lia. done.
      * unfold entry_left at 2. cbn. rewrite Hel, Hb, len_drop. lia.
  - eexists _, _. split; [done|].
    replace (set_kern k1 s) with (upd k1 (alloc s) (c_left s) (t :: wl) (calls s) s) by (rewrite <- Ewl; by destruct s).
    apply (head_part k1 0 (c_left s) (calls s) t t); try done; [|lia|].
    + by rewrite Hsent, (Z2Nat.nonpos n) by lia.
    + intros He. specialize (Hnz Hnil He). lia.
Qed.

(** The effects of consecutive steps. *)
Lemma progress_trans e1 e2 s s1 s2 :
  progress e1 s s1 -> e1 = ENone -> progress e2 s1 s2 ->
  progress e2 s s2 /\ len (pending (kern s2) (writeList s2)) < len (pending (kern s) (writeList s)).
Proof.
  intros (Hd1 & Hok1 & Ht1 & Hl1 & Hn1 & Hi1) He (Hd2 & Hok2 & Ht2 & Hl2 & Hn2 & Hi2). specialize (Hn1 He).
  split; [|lia]. split; [by eapply dstep_trans|]. split; [done|]. split; [congruence|]. split; [lia|].
  split; [lia|]. intros H. specialize (Hi2 H). pose proof (ds_patience _ _ Hd1). lia.
Qed.

(** One round of [writeFile]. *)
Lemma file_round s t wl :
  conn_ok s -> writeList s = t :: wl -> tw_fd t <> 0 ->
  0 < tw_remain t /\
  forall n e k1, sys_sendfile (c_fd s) (tw_fd t) (tw_offset t) (tw_remain t) (kern s) = (n, e, k1) ->
    same_fds (kern s) k1 /\ (patience k1 <= patience (kern s))%nat /\
    (e = EINTR -> (patience k1 < patience (kern s))%nat) /\ (e = ENone -> 0 < n) /\ (0 < n -> e = ENone) /\
    n <= tw_remain t /\ sent k1 (c_fd s) = sent (kern s) (c_fd s) ++ take (Z.to_nat n) (entry_bytes (kern s) t) /\
    (0 <= n ->
     let t' := MkToWrite (tw_fd t) (tw_buf t) (tw_offset t + n) (tw_remain t - n) in
     entry_left t' = 0 /\ entry_left t = 0 /\
     (n < tw_remain t -> entry_ok (kern s) t') /\
     (n = tw_remain t -> take (Z.to_nat n) (entry_bytes (kern s) t) = entry_bytes (kern s) t) /\
     entry_bytes (kern s) t = take (Z.to_nat n) (entry_bytes (kern s) t) ++ entry_bytes (kern s) t').
Proof.
  intros Hok Ewl Hfd. pose proof (q_entries _ _ _ _ (ok_queue _ Hok)) as He.
  rewrite Ewl in He. apply Forall_cons in He as [Ht _]. unfold entry_ok in Ht.
  destruct (tw_buf t) as [tb|] eqn:Etb; [by destruct Ht|]. destruct Ht as (Hf & Hoff & Hrem & c & Hc & Hlen).
  split; [done|]. intros n e k1 Es.
  apply (sendfile_law _ _ _ _ _ _ _ _ c) in Es as (Hn & Hnc & Hsent & Hsf & Hne & Hnz & Hp & Hpi); [|done|done].
  assert (entry_bytes (kern s) t = take (Z.to_nat (tw_remain t)) (drop (Z.to_nat (tw_offset t)) c)) as Hb
    by (unfold entry_bytes; by rewrite Etb, Hc).
  split; [done|]. split; [done|]. split; [done|]. split; [intros; apply Hnz; [lia..|done]|]. split; [done|].
  split; [lia|]. rewrite Hb. split; [rewrite take_take, Nat.min_l by lia; done|]. intros H0 t'.
  split; [done|]. split; [unfold entry_left; by rewrite Etb|]. split; [|split].
  - intros Hlt. unfold entry_ok, t'. cbn. split; [done|]. split; [lia|]. split; [lia|]. exists c. split; [done|lia].
  - intros ->. rewrite take_take. f_equal. lia.
  - unfold entry_bytes, t'. cbn. rewrite Hc. cbn. rewrite take_take, Nat.min_l by lia.
    rewrite Z2Nat.inj_add, <- drop_drop by lia.
    replace (Z.to_nat (tw_remain t - n)) with (Z.to_nat (tw_remain t) - Z.to_nat n)%nat by lia.
    rewrite <- (take_drop (Z.to_nat n) (drop (Z.to_nat (tw_offset t)) c)) at 1.
    rewrite take_app_ge by (rewrite length_take; lia). f_equal.
    rewrite length_take, length_drop. unfold len in *. f_equal. lia.
Qed.

Lemma writeFile_ok fuel s t wl :
  conn_ok s -> writeList s = t :: wl -> tw_fd t <> 0 -> tw_remain t < Z.of_nat fuel ->
  exists e s', writeFile g fuel s = Ret (e, s') /\ progress e s s'.
Proof.
  revert s t. induction fuel as [|fuel IH]; intros s t Hok Ewl Hfd Hfuel.
  { destruct (file_round s t wl Hok Ewl Hfd) as [? _]. lia. }
  destruct (file_round s t wl Hok Ewl Hfd) as [Hrem Hround].
  cbn [writeFile]. rewrite Ewl. cbn [lookup list_lookup must mbind res_bind].
  rewrite (proj2 (Z.ltb_lt _ _)) by done.
  destruct (sys_sendfile _ _ _ _ _) as [[n e] k1] eqn:Es.
  destruct (Hround n e k1 eq_refl) as (Hsf & Hp & Hpi & Hnz & Hne & Hn & Hsent & Hcut). clear Hround.
  destruct (0 <? n) eqn:En; bool_hyp.
  - specialize (Hne En) as ->. destruct Hcut as (Hl' & Hl & Hmore & Hall & Hcut); [lia|].
    set (t' := MkToWrite (tw_fd t) (tw_buf t) (tw_offset t + n) (tw_remain t - n)) in *.
    set (s1 := if hasOnWrittenSize g then add_call (OnWrittenSize None n) (set_kern k1 s) else set_kern k1 s).
    assert (s1 = upd k1 (alloc s) (c_left s) (writeList s) (calls s1) s) as Hs1
      by (unfold s1; by destruct (hasOnWrittenSize g), s).
    destruct (tw_remain t' <=? 0) eqn:Er; bool_hyp; cbn [t' tw_remain] in Er.
    + destruct (head_done k1 (c_left s) (calls s1) t t' wl s) as (s2 & Hr & Hl2 & Hpr & _); try done; [|lia|].
      { rewrite Hsent, Hall by lia. done. }
      rewrite <- Hs1 in Hr. rewrite Hr. cbn [mbind res_bind]. eexists _, _. split; [done|]. by rewrite Hl2, Ewl.
    + assert (set_list (<[0%nat := t']> (writeList s1)) s1 = upd k1 (alloc s) (c_left s) (t' :: wl) (calls s1) s) as ->.
      { rewrite Hs1. cbn [upd writeList set_list]. by rewrite Ewl. }
      assert (progress ENone s (upd k1 (alloc s) (c_left s) (t' :: wl) (calls s1) s)) as Hpr.
      { apply (head_part k1 n (c_left s) (calls s1) t); try done; [|lia]. apply Hmore. lia. }
      rewrite decide_True by done.
      destruct (IH (upd k1 (alloc s) (c_left s) (t' :: wl) (calls s1) s) t') as (e2 & s2 & -> & Hpr2);
        [apply Hpr|done|done|cbn; lia|].
      eexists _, _. split; [done|]. by apply (progress_trans ENone e2 s _ s2 Hpr).
  - destruct (decide (e = ENone)) as [He|He]; [specialize (Hnz He); lia|].
    eexists _, _. split; [done|].
    replace (set_kern k1 s) with (upd k1 (alloc s) (c_left s) (t :: wl) (calls s) s) by (rewrite <- Ewl; by destruct s).
    pose proof (q_entries _ _ _ _ (ok_queue _ Hok)) as Hent. rewrite Ewl in Hent. apply Forall_cons in Hent as [Ht _].
    apply (head_part k1 0 (c_left s) (calls s) t t); try done; [|lia].
    by rewrite Hsent, (Z2Nat.nonpos n) by lia.
Qed.

(** The bytes the head has to send bound the rounds of [writeFile]. *)
Lemma head_remain s t wl :
  conn_ok s -> writeList s = t :: wl -> tw_fd t <> 0 ->
  tw_remain t <= len (pending (kern s) (writeList s)).
Proof.
  intros Hok Ewl Hfd. pose proof (q_entries _ _ _ _ (ok_queue _ Hok)) as He.
  rewrite Ewl in *. apply Forall_cons in He as [Ht _]. unfold entry_ok in Ht.
  rewrite pending_cons, len_app. unfold entry_bytes.
  destruct (tw_buf t) as [tb|] eqn:Etb; [by destruct Ht|]. destruct Ht as (Hf & Hoff & Hrem & c & -> & Hlen).
  cbn. rewrite len_take, len_drop. len_pose. lia.
Qed.

(** Enough rounds for [flush]: one for each byte queued and for each signal. *)
Definition flush_fuel s : nat :=
  (patience (kern s) + length (pending (kern s) (writeList s)) + 2)%nat.

Lemma flush_loop_ok fuel s :
  conn_ok s -> armed s -> watch s -> (flush_fuel s <= fuel)%nat ->
  exists err s', flush_loop g fuel s = Ret (err, s') /\
    match err with
    | None => settled s' /\ c_fd s' = c_fd s /\ total s' = total s
    | Some e => shut (Some e) s s'
    end.
Proof.
  revert s. induction fuel as [|fuel IH]; intros s Hok Harm Hw Hfuel.
  { unfold flush_fuel in Hfuel. lia. }
  cbn [flush_loop]. destruct (writeList s) as [|t wl] eqn:Ewl.
  { destruct (resetRead_ok s Hok Hw Ewl) as (Hs & Ht & Hfd & _).
    exists None, (resetRead g s). split; [done|]. by split. }
  unfold flush_fuel in Hfuel.
  assert (exists e s', (if tw_fd t =? 0 then writeBuffer g s else writeFile g fuel s) = Ret (e, s') /\ progress e s s')
    as (e & s1 & -> & Hd & Hok1 & Ht1 & Hle & Hlt & Hpi).
  { destruct (tw_fd t =? 0) eqn:Efd; bool_hyp; [by apply (writeBuffer_ok s t wl)|].
    apply (writeFile_ok fuel s t wl); try done.
    pose proof (head_remain s t wl Hok Ewl Efd). unfold len in *. lia. }
  cbn [mbind res_bind]. pose proof (dstep_watch _ _ Hd Hw) as Hw1. pose proof (ds_patience _ _ Hd) as Hpd.
  assert (isWAdded s1 = true) as Hwa.
  { destruct Hd as [-> _ _ _]. cbn. apply Harm. by rewrite Ewl. }
  assert (e = ENone \/ e = EINTR -> exists err s', flush_loop g fuel s1 = Ret (err, s') /\
    match err with None => settled s' /\ c_fd s' = c_fd s /\ total s' = total s | Some e => shut (Some e) s s' end) as Hrec.
  { intros He. destruct (IH s1 Hok1) as (err & s' & Hf & Hres); [by intros _|done| |].
    { unfold flush_fuel, len in *. destruct He as [He|He]; [specialize (Hlt He)|specialize (Hpi He)]; lia. }
    exists err, s'. split; [done|]. by rewrite (dstep_fd _ _ Hd), Ht1 in Hres. }
  destruct e as [| | |x]; [by apply Hrec; left|by apply Hrec; right| |].
  - clear Hrec. eexists _, _. split; [done|]. destruct (isOneshot g) eqn:Eo.
    + destruct (poller_modWrite g s1) as [e2 s2] eqn:E. apply setReadWrite_step in E as (Hs & Hwa2 & Hi). cbn [snd].
      destruct (estep_ok _ _ Hs Hok1) as (Hok2 & Ht2 & Hl2). pose proof (estep_fd _ _ Hs).
      pose proof (dstep_fd _ _ Hd). split; [|split; congruence].
      split; [done|]. split; [by intros _; rewrite Hwa2|]. intros _ Ho. congruence.
    + split; [|by split; [exact (dstep_fd _ _ Hd)|]]. split; [done|]. by split; [intros _|].
  - destruct (close_shut (Some (ErrSys (EOther x))) (total s) s1 Hok1) as (e2 & s2 & -> & Hs2); [by rewrite Ht1|].
    rewrite (dstep_fd _ _ Hd) in Hs2. cbn [mbind res_bind]. eexists _, _. by split.
Qed.

Lemma flush_ok fuel s :
  settled s -> (flush_fuel s <= fuel)%nat ->
  exists err s', flush g fuel s = Ret (err, s') /\
    match err with
    | None => settled s' /\ c_fd s' = c_fd s /\ total s' = total s
    | Some e => shut (Some e) s s'
    end.
Proof.
  intros (Hok & Harm & Hw) Hf. unfold flush. rewrite (ok_open _ Hok).
  destruct (writeList s) as [|t wl] eqn:Ewl; [|by apply flush_loop_ok].
  eexists _, _. split; [done|]. split; [|done]. split; [done|]. split; [|done]. intros H. by rewrite Ewl in H.
Qed.

(** ** Sendfile *)

(** A duplicated descriptor joins the queue. *)
Lemma push_file src off rem c s fd k' :
  conn_ok s -> sys_dup src (kern s) = (fd, ENone, k') ->
  file (kern s) src = Some c -> 0 <= off -> 0 < rem -> off + rem <= len c ->
  let s' := newToWriteFile fd off rem (set_kern k' s) in
  dstep s s' /\ conn_ok s' /\ total s' = total s ++ take (Z.to_nat rem) (drop (Z.to_nat off) c).
Proof.
  intros Hok Ed Hsrc Hoff Hrem Hlen s'. pose proof (ok_queue _ Hok) as Hq.
  pose proof (dup_law _ _ _ _ _ Ed) as Hl. rewrite decide_True in Hl by done.
  destruct Hl as ([Hs Hf Hi Hso Hp] & Hpos & Hnone & Hnsock & Hfd).
  assert (c_fd s <> fd) as Hne by (intros <-; by rewrite (ok_sock _ Hok) in Hnsock).
  assert (fd ∉ file_fds (writeList s)) as Hnin.
  { intros (t & Ht & He)%list_elem_of_omap. pose proof (q_entries _ _ _ _ Hq) as Hent.
    rewrite Forall_forall in Hent. specialize (Hent t Ht). unfold entry_ok in Hent.
    destruct (tw_buf t); [done|]. injection He as He. destruct Hent as (_ & _ & _ & x & Hx & _). congruence. }
  destruct (queue_files others (kern s) k' (alloc s) (writeList s)) as [Hq1 Hpend];
    [intros x Hx; apply Hf; by intros -> |done|].
  assert (dstep s s') as Hd.
  { split; [by destruct s|..|done]; cbn [s' newToWriteFile set_list set_kern kern]; [by apply Hi|by apply Hso]. }
  split; [done|]. split; [apply (conn_ok_step s); try done; cbn [s' newToWriteFile set_list set_kern kern alloc c_left writeList]|].
  - destruct Hq1 as [He Hb Ho Hff Ha].
    split; rewrite ?buf_ids_app, ?app_nil_r; try done.
    + apply Forall_app. split; [done|]. apply Forall_singleton. cbn. split; [done|]. split; [done|]. split; [done|].
      exists c. by rewrite Hfd, Hsrc.
    + rewrite file_fds_app. apply NoDup_app. split; [done|]. split; [|apply NoDup_singleton].
      intros x Hx. unfold file_fds. cbn. set_solver.
  - rewrite queue_left_app, (ok_left _ Hok). cbn. lia.
  - rewrite file_fds_app. unfold file_fds at 2. cbn. pose proof (ok_fds _ Hok). set_solver.
  - unfold total. cbn [s' newToWriteFile set_list set_kern kern c_fd writeList].
    rewrite Hs, pending_app, Hpend, <- app_assoc. do 2 f_equal.
    rewrite pending_cons. unfold entry_bytes. cbn. by rewrite Hfd, Hsrc, app_nil_r.
Qed.

Definition dup_reliable : Prop := forall src k, snd (fst (sys_dup src k)) = ENone.

(** The result of sending [chunk]. *)
Definition sent_file (chunk : bytes) s (r : res (Z * option conn_err * nbconn)) : Prop :=
  exists n err s', r = Ret (n, err, s') /\
    match err with
    | None => settled s' /\ c_fd s' = c_fd s /\ total s' = total s ++ chunk
    | Some e => shut_at (Some e) (c_fd s) (total s ++ chunk) s'
    end.

(** The bytes of a file from [off] on, cut after the first [n]. *)
Lemma chunk_cut (c : bytes) off rem n :
  0 <= off -> 0 <= n <= rem -> off + rem <= len c ->
  take (Z.to_nat rem) (drop (Z.to_nat off) c)
  = take (Z.to_nat n) (drop (Z.to_nat off) c) ++ take (Z.to_nat (rem - n)) (drop (Z.to_nat (off + n)) c).
Proof.
  intros. rewrite Z2Nat.inj_add, <- drop_drop by lia.
  rewrite <- (take_drop (Z.to_nat n) (drop (Z.to_nat off) c)) at 1.
  unfold len in *. rewrite take_app_ge by (rewrite length_take; lia). f_equal. f_equal.
  rewrite length_take, length_drop. lia.
Qed.

(** One system call of the loop. *)
Lemma sendfile_round src off rem cnt c s n e k1 :
  conn_ok s -> watch s -> writeList s = [] -> file (kern s) src = Some c ->
  0 <= off -> 0 < cnt <= rem -> off + rem <= len c ->
  sys_sendfile (c_fd s) src off cnt (kern s) = (n, e, k1) ->
  conn_ok (set_kern k1 s) /\ watch (set_kern k1 s) /\ file k1 src = Some c /\
  total (set_kern k1 s) = total s ++ take (Z.to_nat (Z.max 0 n)) (drop (Z.to_nat off) c) /\
  n <= rem /\ (e = ENone -> 0 < n) /\ (0 < n -> e = ENone) /\
  (patience k1 <= patience (kern s))%nat /\ (e = EINTR -> (patience k1 < patience (kern s))%nat).
Proof.
  intros Hok Hw Ewl Hsrc Hoff Hcnt Hlen Es.
  apply (sendfile_law _ _ _ _ _ _ _ _ c) in Es as (Hn & Hnc & Hsent & [Hff Hfi Hfs] & Hne & Hnz & Hp & Hpi); [|done|done].
  assert (dstep s (set_kern k1 s)) as Hd by (split; [by destruct s|apply Hfi|apply Hfs|done]).
  split; [|split; [by eapply dstep_watch|split; [by rewrite Hff|]]].
  { apply (conn_ok_step s); [done|done| |apply Hok|apply Hok].
    by apply (queue_same_files others (kern s) k1 (alloc s) (writeList s) Hff), Hok. }
  split; [|split; [lia|split; [intros; apply Hnz; [lia..|done]|done]]].
  unfold total. cbn [set_kern kern c_fd writeList]. rewrite Ewl. cbn. rewrite !app_nil_r, Hsent. do 2 f_equal. lia.
Qed.

Lemma sendfile_loop_ok fuel src off rem tot c s :
  dup_reliable -> conn_ok s -> watch s -> writeList s = [] ->
  file (kern s) src = Some c -> 0 <= off -> 0 <= rem -> off + rem <= len c ->
  (patience (kern s) + Z.to_nat rem < fuel)%nat ->
  sent_file (take (Z.to_nat rem) (drop (Z.to_nat off) c)) s (sendfile_loop g fuel src off rem tot s).
Proof.
  intros Hdup. revert s off rem. induction fuel as [|fuel IH]; intros s off rem Hok Hw Ewl Hsrc Hoff Hrem Hlen Hfuel; [lia|].
  cbn [sendfile_loop]. destruct (0 <? rem) eqn:Er; bool_hyp; cycle 1.
  { replace rem with 0 by lia. eexists _, _, _. split; [done|]. change (Z.to_nat 0) with 0%nat.
    rewrite take_0, app_nil_r. split; [|done]. split; [done|]. split; [|done]. intros H. by rewrite Ewl in H. }
  set (cnt := if rem <? maxSendfileSize then rem else maxSendfileSize).
  assert (0 < cnt <= rem) as Hcnt.
  { unfold cnt. destruct (rem <? maxSendfileSize) eqn:Em; bool_hyp; [lia|]. split; [done|lia]. }
  destruct (sys_sendfile (c_fd s) src off cnt (kern s)) as [[n e] k1] eqn:Es.
  destruct (sendfile_round src off rem cnt c s n e k1 Hok Hw Ewl Hsrc Hoff Hcnt Hlen Es)
    as (Hok1 & Hw1 & Hsrc1 & Ht1 & Hn & Hnz & Hne & Hp & Hpi).
  set (s1 := set_kern k1 s) in *. assert (exists m, m = Z.max 0 n) as [m Hm] by eauto. rewrite <- Hm in Ht1.
  rewrite (chunk_cut c off rem m) by lia.
  assert ((if 0 <? n then rem - n else rem) = rem - m /\ (if 0 <? n then off + n else off) = off + m) as [-> ->].
  { destruct (0 <? n) eqn:E; bool_hyp; lia. }
  change (c_fd s) with (c_fd s1) in *. destruct ((n =? 0) && bool_decide (e = ENone)) eqn:Ez.
  { bool_hyp. specialize (Hnz ltac:(done)). lia. }
  assert (e = ENone \/ e = EINTR -> sent_file (take (Z.to_nat m) (drop (Z.to_nat off) c) ++
      take (Z.to_nat (rem - m)) (drop (Z.to_nat (off + m)) c)) s
      (sendfile_loop g fuel src (off + m) (rem - m) tot s1)) as Hrec.
  { intros He. destruct (IH s1 (off + m) (rem - m) Hok1 Hw1 Ewl) as (r & err & s' & -> & Hres); try lia.
    { done. }
    { cbn. destruct He as [He|He]; [specialize (Hnz He)|specialize (Hpi He)]; lia. }
    eexists _, _, _. split; [done|]. destruct err; by rewrite Ht1, <- app_assoc in Hres. }
  destruct e as [| | |x]; [apply Hrec; by left|apply Hrec; by right| |]; clear Hrec.
  - assert (n <= 0) as Hn0 by (destruct (decide (0 < n)) as [Hx|]; [by specialize (Hne Hx)|lia]).
    destruct (sys_dup src (kern s1)) as [[fd e2] k2] eqn:Ed.
    pose proof (Hdup src (kern s1)) as He2. rewrite Ed in He2. cbn in He2. subst e2. rewrite decide_True by done.
    destruct (push_file src (off + m) (rem - m) c s1 fd k2 Hok1 Ed Hsrc1) as (Hd2 & Hok2 & Ht2); try lia.
    destruct (modWrite_ok _ Hok2 (dstep_watch _ _ Hd2 Hw1)) as (Hset & Ht3 & Hfd3).
    eexists _, _, _. split; [done|]. split; [done|]. split; [done|]. by rewrite Ht3, Ht2, Ht1, <- app_assoc.
  - destruct (close_shut (Some (ErrSys (EOther x))) (total s ++ take (Z.to_nat m) (drop (Z.to_nat off) c) ++
      take (Z.to_nat (rem - m)) (drop (Z.to_nat (off + m)) c)) s1 Hok1) as (e2 & s2 & -> & Hs2).
    { rewrite Ht1, app_assoc. by apply prefix_app_r. }
    cbn [mbind res_bind]. eexists _, _, _. by split.
Qed.

(** The number of bytes [Sendfile] takes for a file of [size] bytes. *)
Definition file_amount (size off rem : Z) : Z :=
  if (rem <=? 0) || (size - off <? rem) then size - off else rem.

Lemma file_amount_range size off rem : off < size -> 0 < file_amount size off rem <= size - off.
Proof.
  intros H. unfold file_amount. destruct ((rem <=? 0) || (size - off <? rem)) eqn:E; [lia|]. bool_hyp. lia.
Qed.

(** A file opened for reading, with at least one byte left. *)
Definition file_ok s (f : os_file) (c : bytes) (off : Z) : Prop :=
  file (kern s) (f_fd f) = Some c /\ f_seek f = inl off /\ f_size f = inl (len c) /\ 0 <= off < len c.

Definition sendfile_fuel s (amount : Z) : nat := (patience (kern s) + Z.to_nat amount + 1)%nat.

(** [Sendfile] queues or sends the chunk, fails before it starts, or closes. *)
Lemma Sendfile_ok fuel f rem c off s :
  dup_reliable -> settled s -> file_ok s f c off ->
  let amount := file_amount (len c) off rem in
  (sendfile_fuel s amount <= fuel)%nat ->
  let chunk := take (Z.to_nat amount) (drop (Z.to_nat off) c) in
  exists n err s', Sendfile g fuel (Some f) rem s = Ret (n, err, s') /\
    match err with
    | None => settled s' /\ c_fd s' = c_fd s /\ total s' = total s ++ chunk
    | Some e => shut_at (Some e) (c_fd s) (total s ++ chunk) s' \/ settled s' /\ c_fd s' = c_fd s /\ total s' = total s
    end.
Proof.
  intros Hdup (Hok & Harm & Hw) (Hf & Hseek & Hsize & Hoff) amount Hfuel chunk.
  unfold Sendfile. rewrite (ok_open _ Hok), Hseek, Hsize.
  change (if (rem <=? 0) || (len c - off <? rem) then len c - off else rem) with amount.
  pose proof (file_amount_range (len c) off rem ltac:(lia)) as Ham. fold amount in Ham.
  destruct (sys_setnonblock (f_fd f) (kern s)) as [e k1] eqn:En.
  apply nonblock_law in En as ([Hff Hfi Hfs] & Hs1 & Hp1).
  set (s1 := set_kern k1 s).
  assert (dstep s s1) as Hd by (split; [by destruct s|apply Hfi|apply Hfs|done]).
  destruct (queue_same_files others (kern s) k1 (alloc s) (writeList s) Hff (ok_queue _ Hok)) as [Hq1 Hpend].
  assert (conn_ok s1) as Hok1 by (apply (conn_ok_step s); [done|done|done|apply Hok|apply Hok]).
  assert (total s1 = total s) as Ht1.
  { unfold total. cbn [s1 set_kern kern c_fd writeList]. by rewrite Hs1, Hpend. }
  pose proof (dstep_watch _ _ Hd Hw) as Hw1. unfold sendfile_fuel in Hfuel.
  destruct (negb (bool_decide (e = ENone))).
  { eexists _, _, _. split; [done|]. right. split; [|done]. split; [done|]. by split. }
  change (writeList s1) with (writeList s). destruct (writeList s) as [|t wl] eqn:Ewl.
  - destruct (sendfile_loop_ok fuel (f_fd f) off amount amount c s1) as (n & err & s' & -> & Hres);
      try done; [cbn; by rewrite Hff|lia|lia|lia|cbn; lia|].
    rewrite Ht1 in Hres. change (c_fd s1) with (c_fd s) in Hres.
    eexists _, _, _. split; [done|]. destruct err; [by left|done].
  - destruct (sys_dup (f_fd f) (kern s1)) as [[fd e2] k2] eqn:Ed.
    pose proof (Hdup (f_fd f) (kern s1)) as He2. rewrite Ed in He2. cbn in He2. subst e2.
    rewrite bool_decide_true by done. cbn [negb].
    destruct (push_file (f_fd f) off amount c s1 fd k2 Hok1 Ed) as (Hd2 & Hok2 & Ht2); try lia.
    { cbn. by rewrite Hff. }
    eexists _, _, _. split; [done|]. split; [|by split; [|rewrite Ht2, Ht1]].
    split; [done|]. split; [|by eapply dstep_watch]. intros _. cbn. apply Harm. by rewrite Ewl.
Qed.

(** Closing from outside. *)
Lemma closeWithError_ok err s :
  settled s -> exists e s', closeWithError err s = Ret (e, s') /\ shut err s s' /\
    wTimer s' = None /\ rTimer s' = None.
Proof.
  intros (Hok & _ & _). unfold closeWithError. rewrite (ok_open _ Hok).
  destruct (close_ok others err (set_timers None None (set_closed s))) as (e & s' & He & Hc); [apply Hok|].
  exists e, s'. split; [done|]. destruct Hc. unfold shut_at. rewrite cw_fd, cw_closed.
  split; [|by destruct cw_timers]. do 5 (split; [done|]). cbn in cw_sent. rewrite cw_sent. unfold total. by apply prefix_app_r.
Qed.

End stream.
