(* ===== verification/NbConnKernel.v ===== *)
(** * A concrete kernel

    A kernel that answers from a script, to run the connection on and to show
    that the laws of [KernelLaws] can hold. *)

From Stdlib Require Import ZArith Lia.
From Stdlib Require Import Strings.Byte.
From stdpp Require Import base numbers list list_numbers gmap.
From S2P Require Import Prelude Mempool NbConn NbConnFacts.

Open Scope Z_scope.

(** The next answers: take up to [n + 1] bytes, or fail. *)
Inductive answer := Take (n : nat) | Intr | Again | FailWith (e : Z).

Record script := MkScript {
  k_answers : list answer;
  k_sent : list (Z * bytes);
  k_files : list (Z * bytes);
  k_socks : list Z;
  k_interest : list (Z * Z)
}.

Section assoc.
Context {X : Type}.
Implicit Types l : list (Z * X).

Fixpoint aget (fd : Z) l : option X :=
  match l with
  | [] => None
  | (x, v) :: l => if x =? fd then Some v else aget fd l
  end.

Definition adel (fd : Z) l : list (Z * X) := filter (fun p => p.1 <> fd) l.

Lemma aget_adel fd x l : x <> fd -> aget x (adel fd l) = aget x l.
Proof.
  intros Hne. unfold adel. induction l as [|[y v] l IH]; [done|].
  destruct (decide (y = fd)) as [-> |Hy].
  - rewrite filter_cons_False by (cbn; tauto). rewrite IH. cbn. by rewrite (proj2 (Z.eqb_neq fd x)) by congruence.
  - rewrite filter_cons_True by done. cbn. by rewrite IH.
Qed.

Definition amax l : Z := foldr (fun p m => Z.max p.1 m) 0 l.

Lemma aget_above fd l : amax l < fd -> aget fd l = None.
Proof.
  induction l as [|[y v] l IH]; cbn; [done|]. intros H. rewrite (proj2 (Z.eqb_neq y fd)) by lia. apply IH.
  unfold amax. lia.
Qed.
End assoc.

Definition smax (l : list Z) : Z := foldr Z.max 0 l.

Lemma smax_above fd l : smax l < fd -> fd ∉ l.
Proof.
  induction l as [|y l IH]; cbn; intros H; [apply not_elem_of_nil|].
  apply not_elem_of_cons. split; [lia|apply IH]. unfold smax. lia.
Qed.

Definition with_answers (l : list answer) (k : script) : script :=
  MkScript l (k_sent k) (k_files k) (k_socks k) (k_interest k).

Definition put (fd : Z) (b : bytes) (k : script) : script :=
  MkScript (k_answers k) ((fd, default [] (aget fd (k_sent k)) ++ b) :: k_sent k)
    (k_files k) (k_socks k) (k_interest k).

(** Offering [b] to the socket [fd]. *)
Definition offer (fd : Z) (b : bytes) (k : script) : Z * errno * script :=
  if len b =? 0 then (0, ENone, put fd [] k)
  else
    match k_answers k with
    | [] => (-1, EAGAIN, put fd [] k)
    | Take n :: l => (Z.min (Z.of_nat n + 1) (len b), ENone,
                      put fd (take (Z.to_nat (Z.min (Z.of_nat n + 1) (len b))) b) (with_answers l k))
    | Intr :: l => (-1, EINTR, put fd [] (with_answers l k))
    | Again :: l => (-1, EAGAIN, put fd [] (with_answers l k))
    | FailWith e :: l => (-1, EOther e, put fd [] (with_answers l k))
    end.

Definition fresh_fd (k : script) : Z := 1 + Z.max (amax (k_files k)) (smax (k_socks k)).

#[export] Instance script_kernel : Kernel script := {
  sys_read fd n k := (-1, [], EAGAIN, k);
  sys_write := offer;
  sys_writev fd bs k := offer fd (concat bs) k;
  sys_sendfile out inp off count k :=
    offer out (take (Z.to_nat count) (drop (Z.to_nat off) (default [] (aget inp (k_files k))))) k;
  sys_sendto fd b k := (ENone, k);
  sys_dup src k :=
    let fd := fresh_fd k in
    (fd, ENone, MkScript (k_answers k) (k_sent k)
       (match aget src (k_files k) with Some c => (fd, c) :: k_files k | None => k_files k end)
       (k_socks k) (k_interest k));
  sys_close fd k :=
    (ENone, MkScript (k_answers k) (k_sent k) (adel fd (k_files k)) (filter (.≠ fd) (k_socks k))
       (adel fd (k_interest k)));
  sys_setnonblock fd k := (ENone, k);
  sys_epoll_ctl op fd ev k :=
    (ENone, MkScript (k_answers k) (k_sent k) (k_files k) (k_socks k) ((fd, ev) :: k_interest k))
}.

Fixpoint count_intr (l : list answer) : nat :=
  match l with
  | [] => 0
  | Intr :: l => S (count_intr l)
  | _ :: l => count_intr l
  end%nat.

#[export] Instance script_view : KernelView script := {
  sent k fd := default [] (aget fd (k_sent k));
  file k fd := aget fd (k_files k);
  interest k fd := default 0 (aget fd (k_interest k));
  socket k fd := bool_decide (fd ∈ k_socks k);
  patience k := count_intr (k_answers k)
}.

Lemma offer_spec fd b k n e k' :
  offer fd b k = (n, e, k') ->
  n <= len b /\ sent k' fd = sent k fd ++ take (Z.to_nat n) b /\ same_fds k k' /\
  (0 < n -> e = ENone) /\ (b <> [] -> e = ENone -> 0 < n) /\
  (patience k' <= patience k)%nat /\ (e = EINTR -> (patience k' < patience k)%nat).
Proof.
  unfold offer. pose proof (len_nonneg b). destruct (len b =? 0) eqn:Eb; bool_hyp.
  - intros [= <- <- <-]. apply len_zero_nil in Eb as ->. cbn. rewrite Z.eqb_refl.
    repeat split; try done; try lia.
  - destruct (k_answers k) as [|[m| | |x] l] eqn:El; intros [= <- <- <-]; cbn; rewrite ?Z.eqb_refl, ?El;
      (split; [lia|]); (split; [rewrite ?app_nil_r; done|]); (split; [done|]);
      (split; [try done; lia|]); (split; [try done; lia|]); cbn; (split; [lia|]); try done; lia.
Qed.

#[export] Instance script_laws : KernelLaws script.
Proof.
  split.
  - intros. by eapply offer_spec.
  - intros fd bs k n e k' H. apply offer_spec in H. tauto.
  - intros out inp off count k n e k' c H Hc Hoff. change (aget inp (k_files k) = Some c) in Hc.
    cbn in H. rewrite Hc in H. cbn [default from_option id] in H.
    apply offer_spec in H as (Hn & Hs & Hf & Hp & Hz & Hpa & Hpi).
    rewrite len_take, len_drop in Hn. split; [lia|]. split; [lia|]. split.
    { rewrite Hs, take_take. do 2 f_equal. lia. }
    split; [done|]. split; [done|]. split; [|done]. intros Hc0 Hl He. apply Hz; [|done].
    intros Hnil. apply (f_equal len) in Hnil. rewrite len_take, len_drop in Hnil. cbn in Hnil.
    change (len (@nil byte)) with 0 in Hnil. lia.
  - intros fd k e k' [= <- <-]. split; cbn; try done; intros x Hx.
    + by apply aget_adel.
    + by rewrite aget_adel.
    + apply bool_decide_ext. rewrite list_elem_of_filter. tauto.
  - intros src k fd e k' [= <- <- <-]. rewrite decide_True by done.
    assert (aget (fresh_fd k) (k_files k) = None) as Hn by (apply aget_above; unfold fresh_fd; lia).
    split; [split; cbn; try done; intros x Hx|].
    + destruct (aget src (k_files k)) eqn:E; [|done]. cbn. by rewrite (proj2 (Z.eqb_neq _ _)) by congruence.
    + cbn. split; [|split; [done|split]].
      * unfold fresh_fd. assert (0 <= smax (k_socks k)) by (unfold smax; induction (k_socks k); cbn; lia). lia.
      * apply bool_decide_eq_false. apply smax_above. unfold fresh_fd. lia.
      * destruct (aget src (k_files k)) eqn:E; [cbn; by rewrite Z.eqb_refl|done].
  - intros fd k e k' [= <- <-]. done.
  - intros op fd ev k e k' [= <- <-]. cbn. rewrite Z.eqb_refl. done.
Qed.

Lemma script_dup_reliable src k : snd (fst (sys_dup src k)) = ENone.
Proof. done. Qed.

(** A kernel that never makes its caller wait: it takes one byte at a time. *)
Record steady := MkSteady { st : script }.

Definition steadily {X Y} (f : script -> X * Y * script) (k : steady) : X * Y * steady :=
  let '(x, y, k') := f (with_answers [Take 0] (st k)) in (x, y, MkSteady (with_answers [] k')).

Definition plainly {X} (f : script -> X * script) (k : steady) : X * steady :=
  let '(x, k') := f (st k) in (x, MkSteady k').

#[export] Instance steady_kernel : Kernel steady := {
  sys_read fd n k := (-1, [], EAGAIN, k);
  sys_write fd b := steadily (sys_write fd b);
  sys_writev fd bs := steadily (sys_writev fd bs);
  sys_sendfile out inp off count := steadily (sys_sendfile out inp off count);
  sys_sendto fd b := plainly (sys_sendto fd b);
  sys_dup src k := let '(fd, e, k') := sys_dup src (st k) in (fd, e, MkSteady k');
  sys_close fd := plainly (sys_close fd);
  sys_setnonblock fd := plainly (sys_setnonblock fd);
  sys_epoll_ctl op fd ev := plainly (sys_epoll_ctl op fd ev)
}.

#[export] Instance steady_view : KernelView steady := {
  sent k := sent (st k);
  file k := file (st k);
  interest k := interest (st k);
  socket k := socket (st k);
  patience _ := 0%nat
}.

(** The calls that transfer bytes. *)
Lemma steadily_offer fd b (k : steady) n e k' :
  steadily (offer fd b) k = (n, e, k') ->
  e = ENone /\ n <= len b /\ sent k' fd = sent k fd ++ take (Z.to_nat n) b /\ same_fds k k' /\ (b <> [] -> 0 < n).
Proof.
  unfold steadily. destruct (offer fd b (with_answers [Take 0] (st k))) as [[n1 e1] k1] eqn:E. intros [= <- <- <-].
  assert (e1 = ENone) as ->.
  { unfold offer in E. destruct (len b =? 0); by injection E. }
  apply offer_spec in E as (Hn & Hs & [Hf Hi Hso] & _ & Hz & _).
  split; [done|]. split; [done|]. split; [exact Hs|]. split; [by split|]. intros Hb. by apply Hz.
Qed.

#[export] Instance steady_laws : KernelLaws steady.
Proof.
  split.
  - intros fd b k n e k' H. apply steadily_offer in H as (-> & ? & ? & ? & ?).
    split; [done|]. split; [done|]. split; [done|]. split; [done|]. split; [by auto|]. done.
  - intros fd bs k n e k' H. apply steadily_offer in H as (-> & ? & ? & ? & ?).
    split; [done|]. split; [done|]. split; [done|]. split; [done|]. split; [by auto|]. done.
  - intros out inp off count k n e k' c H Hc Hoff. change (aget inp (k_files (st k)) = Some c) in Hc.
    change (steadily (fun k => offer out (take (Z.to_nat count) (drop (Z.to_nat off) (default [] (aget inp (k_files k))))) k) k
      = (n, e, k')) in H.
    assert (steadily (offer out (take (Z.to_nat count) (drop (Z.to_nat off) c))) k = (n, e, k')) as H'.
    { unfold steadily in *. change (k_files (with_answers [Take 0] (st k))) with (k_files (st k)) in H.
      by rewrite Hc in H. }
    apply steadily_offer in H' as (-> & Hn & Hs & Hf & Hz). rewrite len_take, len_drop in Hn.
    split; [lia|]. split; [lia|]. split; [rewrite Hs, take_take; do 2 f_equal; lia|].
    split; [done|]. split; [done|]. split; [|cbn; done]. intros Hc0 Hl _. apply Hz.
    intros Hnil. apply (f_equal len) in Hnil. rewrite len_take, len_drop in Hnil.
    change (len (@nil byte)) with 0 in Hnil. lia.
  - intros fd k e k' H. cbn [sys_close steady_kernel] in H. unfold plainly in H.
    destruct (sys_close fd (st k)) as [e1 k1] eqn:E. injection H as <- <-.
    apply close_law in E as [Hs Hf Hi Hso _]. by split.
  - intros src k fd e k' H. cbn [sys_dup steady_kernel] in H.
    destruct (sys_dup src (st k)) as [[fd1 e1] k1] eqn:E. injection H as <- <- <-.
    assert (e1 = ENone) as -> by (cbn in E; congruence).
    apply dup_law in E. rewrite decide_True in E |- * by done. destruct E as ([Hs Hf Hi Hso _] & ?).
    split; [|done]. by split.
  - intros fd k e k' [= <- <-]. done.
  - intros op fd ev k e k' [= <- <-]. cbn. by rewrite Z.eqb_refl.
Qed.

Lemma steady_eager :
  (forall fd b k n e (k' : steady), sys_write fd b k = (n, e, k') -> e = ENone \/ e = EINTR) /\
  (forall out inp off count k n e (k' : steady),
     sys_sendfile out inp off count k = (n, e, k') -> e = ENone \/ e = EINTR).
Proof.
  split.
  - intros fd b k n e k' H. apply steadily_offer in H as [-> _]. by left.
  - intros out inp off count k n e k' H. cbn in H. unfold steadily in H. cbn in H.
    destruct (offer _ _ _) as [[n1 e1] k1] eqn:E. injection H as <- <- <-. left.
    unfold offer in E. destruct (_ =? 0); by injection E.
Qed.
