(* ===== verification/NbConnProps.v ===== *)
(** * The non-blocking connection: properties *)

From Stdlib Require Import ZArith Lia.
From Stdlib Require Import Strings.Byte Strings.String.
From stdpp Require Import base numbers list list_numbers gmap.
From S2P Require Import Prelude Mempool MempoolFacts NbConn NbConnFacts NbConnStream NbConnKernel.

Open Scope Z_scope.

(** ** Sequences of operations *)

Inductive op :=
| OpWrite (b : bytes)
| OpFlush
| OpSendfile (f : os_file) (remain : Z)
| OpClose (err : option conn_err).

Section ops.
Context {K A : Type} `{!Kernel K} `{!KernelView K} `{!KernelLaws K} `{!Allocator A} `{!AllocatorLaws A}.
Context (g : engine) (others : gset nat).
Abbreviation nbconn := (nbconn K A).
Implicit Types s : nbconn.

(** The bytes of the file [f] that [Sendfile] is asked for. *)
Definition file_chunk s (f : os_file) (remain : Z) : bytes :=
  match file (kern s) (f_fd f), f_seek f with
  | Some c, inl off => take (Z.to_nat (file_amount (len c) off remain)) (drop (Z.to_nat off) c)
  | _, _ => []
  end.

(** The bytes an operation has taken over: none when it reports an error and
    leaves the connection open. *)
Definition taken (err : option conn_err) (d : bytes) s' : bytes :=
  match err with
  | None => d
  | Some _ => if c_closed s' then d else []
  end.

(** An operation with the rounds its loops may need; the result is the bytes it
    has taken over.  A closed connection takes nothing. *)
Definition do_op (o : op) s : res (bytes * nbconn) :=
  if c_closed s then
    match o with
    | OpWrite b => '(_, _, s') ← Write g b s; Ret ([], s')
    | OpFlush => '(_, s') ← flush g 0 s; Ret ([], s')
    | OpSendfile f r => '(_, _, s') ← Sendfile g 0 (Some f) r s; Ret ([], s')
    | OpClose err => '(_, s') ← closeWithError err s; Ret ([], s')
    end
  else
    match o with
    | OpWrite b => '(_, err, s') ← Write g b s; Ret (taken err b s', s')
    | OpFlush => '(_, s') ← flush g (flush_fuel s) s; Ret ([], s')
    | OpSendfile f r =>
        let d := file_chunk s f r in
        '(_, err, s') ← Sendfile g (sendfile_fuel s (len d)) (Some f) r s; Ret (taken err d s', s')
    | OpClose err => '(_, s') ← closeWithError err s; Ret ([], s')
    end.

Fixpoint run_ops (os : list op) s : res (bytes * nbconn) :=
  match os with
  | [] => Ret ([], s)
  | o :: os =>
      '(d, s) ← do_op o s;
      '(ds, s) ← run_ops os s;
      Ret (d ++ ds, s)
  end.

(** Every file of the sequence is open with bytes left when it is sent. *)
Fixpoint files_ok (os : list op) s : Prop :=
  match os with
  | [] => True
  | o :: os =>
      match o with
      | OpSendfile f _ => c_closed s = false -> exists c off, file_ok s f c off
      | _ => True
      end /\ (forall d s', do_op o s = Ret (d, s') -> files_ok os s')
  end.

(** Open and in order with [acc] on the wire and in the queue, or closed with a
    front part of [acc] on the wire and nothing held. *)
Definition accounts (fd : Z) (acc : bytes) s : Prop :=
  c_fd s = fd /\
  (settled g others s /\ total s = acc \/
   c_closed s = true /\ writeList s = [] /\ alloc_inv (alloc s) others /\
     sent (kern s) fd `prefix_of` acc).

Lemma shut_accounts err fd acc s : shut_at others err fd acc s -> accounts fd acc s.
Proof. intros (? & ? & ? & ? & ? & ?). split; [done|]. by right. Qed.

Lemma settled_accounts acc s : settled g others s -> total s = acc -> accounts (c_fd s) acc s.
Proof. intros. split; [done|]. by left. Qed.

(** A closed connection refuses everything and does not change. *)
Lemma closed_refuses o s : c_closed s = true -> do_op o s = Ret ([], s).
Proof.
  intros Hc. unfold do_op. rewrite Hc.
  destruct o; unfold Write, flush, Sendfile, closeWithError; by rewrite Hc.
Qed.

Lemma shut_closed err fd acc s : shut_at others err fd acc s -> c_closed s = true.
Proof. by intros (? & _). Qed.

Lemma shut_more err fd acc d s : shut_at others err fd acc s -> shut_at others err fd (acc ++ d) s.
Proof. intros (? & ? & ? & ? & ? & ?). repeat split; try done. by apply prefix_app_r. Qed.

Lemma settled_open s : settled g others s -> c_closed s = false.
Proof. intros (Hok & _). apply Hok. Qed.

Lemma do_op_ok o fd acc s :
  dup_reliable (K:=K) -> accounts fd acc s ->
  match o with OpSendfile f _ => c_closed s = false -> exists c off, file_ok s f c off | _ => True end ->
  exists d s', do_op o s = Ret (d, s') /\ accounts fd (acc ++ d) s'.
Proof.
  intros Hdup [Hfd [[Hs Ht]|(Hc & Hrest)]] Hf; cycle 1.
  { exists [], s. rewrite closed_refuses by done. split; [done|]. rewrite app_nil_r. split; [done|]. by right. }
  subst acc fd. pose proof (settled_open s Hs) as Hop. unfold do_op. rewrite Hop.
  destruct o as [b| |f r|err].
  - destruct (Write_ok g others b s Hs) as (n & err & s' & -> & Hres & _). cbn [mbind res_bind].
    eexists _, _. split; [done|]. destruct err as [e|]; cbn [taken].
    + rewrite (shut_closed _ _ _ _ Hres). apply (shut_accounts (Some e)).
      by eapply shut_more.
    + destruct Hres as (-> & Hs' & Hfd & Ht). rewrite <- Ht, <- Hfd. by apply settled_accounts.
  - destruct (flush_ok g others (flush_fuel s) s Hs ltac:(lia)) as (err & s' & -> & Hres). cbn [mbind res_bind].
    eexists _, _. split; [done|]. rewrite app_nil_r. destruct err as [e|]; [by eapply shut_accounts|].
    destruct Hres as (Hs' & <- & <-). by apply settled_accounts.
  - destruct (Hf Hop) as (c & off & Hfile). unfold file_chunk.
    pose proof Hfile as (-> & -> & _ & Hoff).
    pose proof (file_amount_range (len c) off r ltac:(lia)) as Ham.
    set (d := take (Z.to_nat (file_amount (len c) off r)) (drop (Z.to_nat off) c)).
    assert (len d = file_amount (len c) off r) as Hd by (unfold d; rewrite len_take, len_drop; lia).
    destruct (Sendfile_ok g others (sendfile_fuel s (len d)) f r c off s Hdup Hs Hfile) as (n & err & s' & -> & Hres);
      [by rewrite Hd|]. cbn [mbind res_bind]. eexists _, _. split; [done|]. destruct err as [e|]; cbn [taken].
    + destruct Hres as [Hsh|(Hs' & <- & Ht)].
      * rewrite (shut_closed _ _ _ _ Hsh). by eapply shut_accounts.
      * rewrite (settled_open _ Hs'), app_nil_r, <- Ht. by apply settled_accounts.
    + destruct Hres as (Hs' & <- & Ht). fold d in Ht. rewrite <- Ht. by apply settled_accounts.
  - destruct (closeWithError_ok g others err s Hs) as (e & s' & -> & Hres & _). cbn [mbind res_bind].
    eexists _, _. split; [done|]. rewrite app_nil_r. by eapply shut_accounts.
Qed.

Lemma run_ops_ok os fd acc s :
  dup_reliable (K:=K) -> accounts fd acc s -> files_ok os s ->
  exists d s', run_ops os s = Ret (d, s') /\ accounts fd (acc ++ d) s'.
Proof.
  intros Hdup. revert acc s. induction os as [|o os IH]; intros acc s Hacc Hf; cbn [run_ops].
  { exists [], s. by rewrite app_nil_r. }
  destruct Hf as [Hfo Hfs]. destruct (do_op_ok o fd acc s Hdup Hacc Hfo) as (d & s1 & He & Hacc1).
  rewrite He. cbn [mbind res_bind]. destruct (IH (acc ++ d) s1 Hacc1 (Hfs d s1 He)) as (ds & s2 & -> & Hacc2).
  cbn [mbind res_bind]. eexists _, _. split; [done|]. by rewrite app_assoc.
Qed.

(** ** A kernel that always takes something *)

Definition eager : Prop :=
  (forall fd b k n e k', sys_write fd b k = (n, e, k') -> e = ENone \/ e = EINTR) /\
  (forall out inp off count k n e k',
     sys_sendfile out inp off count k = (n, e, k') -> e = ENone \/ e = EINTR).

Lemma writeBuffer_eager s e s' : eager -> writeBuffer g s = Ret (e, s') -> e = ENone \/ e = EINTR.
Proof.
  intros [Hw _]. unfold writeBuffer.
  destruct (writeList s !! 0%nat) as [t|]; [cbn [must mbind res_bind]|done].
  destruct (tw_buf t) as [tb|]; [cbn [must mbind res_bind]|done].
  destruct (slice_from _ _) as [buf|]; [cbn [must mbind res_bind]|done].
  destruct (sys_write _ _ _) as [[n e1] k1] eqn:Es. apply Hw in Es.
  destruct (0 <? n); [|by intros [= <- <-]].
  destruct (report _ _ _ _) as [s1| |]; cbn [mbind res_bind]; [|done..].
  destruct (_ =? n); [|by intros [= <- <-]].
  destruct (releaseToWrite _ _) as [s2| |]; cbn [mbind res_bind]; [|done..]. by intros [= <- <-].
Qed.

Lemma writeFile_eager fuel s e s' : eager -> writeFile g fuel s = Ret (e, s') -> e = ENone \/ e = EINTR.
Proof.
  intros [_ Hs]. revert s. induction fuel as [|fuel IH]; intros s; cbn [writeFile];
    (destruct (writeList s !! 0%nat) as [v|]; [cbn [must mbind res_bind]|done]);
    (destruct (0 <? tw_remain v); [|intros [= <- <-]; by left]); [done|].
  destruct (sys_sendfile _ _ _ _ _) as [[n e1] k1] eqn:Es. apply Hs in Es.
  destruct (0 <? n); [destruct (_ <=? 0)|].
  - destruct (releaseToWrite _ _) as [s2| |]; cbn [mbind res_bind]; [|done..]. by intros [= <- <-].
  - destruct (decide (e1 = ENone)); [apply IH|by intros [= <- <-]].
  - destruct (decide (e1 = ENone)); [apply IH|by intros [= <- <-]].
Qed.

(** With such a kernel the loop ends with an empty queue. *)
Lemma flush_loop_drains fuel s :
  eager -> conn_ok others s -> (flush_fuel s <= fuel)%nat ->
  exists s1, flush_loop g fuel s = Ret (None, resetRead g s1) /\ conn_ok others s1 /\
    total s1 = total s /\ writeList s1 = [] /\ dstep s s1.
Proof.
  intros Hea. revert s. induction fuel as [|fuel IH]; intros s Hok Hfuel; unfold flush_fuel in Hfuel; [lia|].
  cbn [flush_loop]. destruct (writeList s) as [|t wl] eqn:Ewl.
  { exists s. split; [done|]. split; [done|]. split; [done|]. split; [done|]. apply dstep_refl. }
  assert (exists e s', (if tw_fd t =? 0 then writeBuffer g s else writeFile g fuel s) = Ret (e, s') /\
    progress others e s s' /\ (e = ENone \/ e = EINTR)) as (e & s1 & -> & (Hd & Hok1 & Ht1 & Hle & Hlt & Hpi) & He).
  { destruct (tw_fd t =? 0) eqn:Efd; bool_hyp.
    - destruct (writeBuffer_ok g others s t wl Hok Ewl Efd) as (e & s' & H & ?). eauto 10 using writeBuffer_eager.
    - pose proof (head_remain others s t wl Hok Ewl Efd). unfold len in *.
      destruct (writeFile_ok g others fuel s t wl Hok Ewl Efd ltac:(rewrite Ewl in *; lia)) as (e & s' & H' & ?).
      eauto 10 using writeFile_eager. }
  cbn [mbind res_bind]. pose proof (ds_patience _ _ Hd). rewrite Ewl in *.
  destruct (IH s1 Hok1) as (s2 & Hf & Hok2 & Ht2 & Hl2 & Hd2).
  { unfold flush_fuel, len in *. destruct He as [He|He]; [specialize (Hlt He)|specialize (Hpi He)]; lia. }
  exists s2. split; [destruct He as [-> | ->]; done|]. split; [done|]. split; [congruence|].
  split; [done|]. by eapply dstep_trans.
Qed.

End ops.

(** ** Properties *)

Section properties.
Context {K A : Type} `{!Kernel K} `{!KernelView K} `{!KernelLaws K} `{!Allocator A} `{!AllocatorLaws A}.
Context (g : engine) (others : gset nat).
Implicit Types s : nbconn K A.

(** C3: after any sequence of [Write], [flush], [Sendfile] and close (not
    [Writev]), whatever a kernel of [KernelLaws] answers to each call (short
    counts, EAGAIN, errors, finitely many EINTR), provided [dup] does not fail
    ([dup_reliable]) and every file has bytes left when it is sent ([files_ok]),
    the connection is either open, with exactly the bytes taken over on the wire
    and in the queue, in order, or closed, with a front part of them on the wire,
    nothing queued and every buffer given back.  [sendfile_drops_rest] shows what
    happens when [dup] fails, [sendfile_at_end_spins] what an exhausted file does. *)
Theorem stream_integrity (os : list op) s :
  dup_reliable (K:=K) -> settled g others s -> files_ok g os s ->
  exists d s', run_ops g os s = Ret (d, s') /\
    if c_closed s'
    then writeList s' = [] /\ alloc_inv (alloc s') others /\
         sent (kern s') (c_fd s) `prefix_of` sent (kern s) (c_fd s) ++ pending (kern s) (writeList s) ++ d
    else sent (kern s') (c_fd s) ++ pending (kern s') (writeList s')
           = sent (kern s) (c_fd s) ++ pending (kern s) (writeList s) ++ d /\
         c_left s' = queue_left (writeList s').
Proof.
  intros Hdup Hs Hf.
  destruct (run_ops_ok g others os (c_fd s) (total s) s Hdup (settled_accounts g others _ _ Hs eq_refl) Hf)
    as (d & s' & He & Hfd & [[Hs' Ht]|(Hc & Hl & Ha & Hp)]).
  - exists d, s'. split; [done|]. rewrite (settled_open _ _ _ Hs'). unfold total in Ht. rewrite Hfd, <- app_assoc in Ht.
    split; [done|]. apply Hs'.
  - exists d, s'. split; [done|]. rewrite Hc. unfold total in Hp. by rewrite <- app_assoc in Hp.
Qed.

(** C34: after any sequence of [Write], [flush], [Sendfile] and close on a
    connection in order, with a system whose [dup] and [epoll_ctl] do not fail and
    files that have bytes left when they are sent, in level-triggered and in
    edge-triggered mode without one-shot events: as long as the connection is open,
    bytes in the queue have the writing event asked for.  Writes in the handler of a
    dialed connection are not among these operations, see [connect_write_stalls]. *)
Theorem queued_is_watched (os : list op) s d s' :
  dup_reliable (K:=K) -> epoll_reliable (K:=K) -> isOneshot g = false ->
  settled g others s -> files_ok g os s -> run_ops g os s = Ret (d, s') ->
  c_closed s' = false -> writeList s' <> [] ->
  Z.testbit (interest (kern s') (c_fd s)) 2 = true.
Proof.
  intros Hdup Hr Ho Hs Hf He Hop Hne.
  destruct (run_ops_ok g others os (c_fd s) (total s) s Hdup (settled_accounts g others _ _ Hs eq_refl) Hf)
    as (d' & s2 & He' & Hfd & Hres). rewrite He in He'. injection He' as <- <-.
  destruct Hres as [[(Hok & Harm & Hw) _]|(Hc & _)]; [|congruence].
  rewrite <- Hfd, (Hw Hr Ho), (Harm Hne). by destruct (EpollMod g =? EPOLLET).
Qed.

(** With a kernel that keeps taking bytes a flush empties the queue. *)
Lemma flush_empties s fuel :
  eager (K:=K) -> settled g others s -> writeList s <> [] -> (flush_fuel s <= fuel)%nat ->
  exists s', flush g fuel s = Ret (None, s') /\ settled g others s' /\ writeList s' = [] /\
    c_left s' = 0 /\ isWAdded s' = false /\ sent (kern s') (c_fd s) = total s.
Proof.
  intros Hea (Hok & Harm & Hw) Hne Hfuel.
  destruct (flush_loop_drains g others fuel s Hea Hok Hfuel) as (s1 & He & Hok1 & Ht1 & Hl1 & Hd).
  destruct (resetRead_ok g others s1 Hok1 (dstep_watch g _ _ Hd Hw) Hl1) as (Hs & Ht & Hfd & Hl).
  exists (resetRead g s1). unfold flush. rewrite (ok_open _ _ Hok).
  destruct (writeList s) eqn:Ewl; [done|]. split; [done|]. split; [done|]. split; [done|].
  split; [destruct Hs as [Hs _]; by rewrite (ok_left _ _ Hs), Hl|]. split.
  - assert (isWAdded s1 = true) as Hwa by (destruct Hd as [-> _ _ _]; cbn; apply Harm; by rewrite Ewl).
    unfold resetRead. rewrite (ok_open _ _ Hok1), Hwa. cbn [negb andb].
    destruct (poller_resetRead g (set_wadded false s1)) as [e s2] eqn:Ep.
    apply setRead_step in Ep as (_ & Hwa' & _). cbn [snd]. by rewrite Hwa'.
  - unfold total in Ht at 1. rewrite Hl, Hfd, (dstep_fd _ _ Hd) in Ht. cbn in Ht.
    rewrite app_nil_r in Ht. congruence.
Qed.

(** C35: on a connection in order ([settled], in which every queued file has bytes
    left to send) a flush returns, whatever a kernel of [KernelLaws] answers,
    within one round for each byte queued and each interrupted call; it returns
    with the same bytes on the wire and in the queue, or with an error and the
    connection closed; and when the kernel neither blocks nor fails ([eager]), with
    everything on the wire, in order, the queue empty and the writing event off.
    [sendfile_at_end_spins] shows a queue that is not in order. *)
Theorem flush_drains s fuel :
  settled g others s -> (flush_fuel s <= fuel)%nat ->
  (exists err s', flush g fuel s = Ret (err, s') /\
     match err with
     | None => settled g others s' /\ c_fd s' = c_fd s /\ total s' = total s
     | Some e => shut_at others (Some e) (c_fd s) (total s) s'
     end) /\
  (eager (K:=K) -> writeList s <> [] ->
   exists s', flush g fuel s = Ret (None, s') /\ writeList s' = [] /\
     c_left s' = 0 /\ isWAdded s' = false /\ sent (kern s') (c_fd s) = total s).
Proof.
  intros Hs Hfuel. split; [by apply flush_ok|]. intros Hea Hne.
  destruct (flush_empties s fuel Hea Hs Hne Hfuel) as (s' & ? & _ & ?). by exists s'.
Qed.


(** Closing takes the connection out of the table, stops the timers, calls
    the close handler once, with the error, and gives back every buffer; a
    closed connection refuses every later operation, and neither its state nor
    its calls change. *)
Theorem close_once (err : option conn_err) s :
  settled g others s -> hasPoller s = true ->
  exists e s', closeWithError err s = Ret (e, s') /\
    c_closed s' = true /\ closeErr s' = err /\ writeList s' = [] /\ alloc_inv (alloc s') others /\
    inTable s' = false /\ wTimer s' = None /\ rTimer s' = None /\ calls s' = calls s ++ [OnClose err] /\
    (forall err', closeWithError err' s' = Ret (None, s')) /\
    (forall b, Write g b s' = Ret (-1, Some ErrClosed, s')) /\
    (forall bs, Writev g bs s' = Ret (0, Some ErrClosed, s')) /\
    (forall fuel, flush g fuel s' = Ret (Some ErrClosed, s')) /\
    (forall fuel f r, Sendfile g fuel (Some f) r s' = Ret (0, Some ErrClosed, s')) /\
    (forall t, SetDeadline t s' = s') /\ modWrite g s' = s' /\ resetRead g s' = s'.
Proof.
  intros (Hok & _ & _) Hp. unfold closeWithError at 1. rewrite (ok_open _ _ Hok).
  destruct (close_ok others err (set_timers None None (set_closed s))) as (e & s' & He & Hc); [apply Hok|].
  exists e, s'. split; [done|]. destruct Hc. cbn in cw_closed, cw_calls, cw_table, cw_timers.
  specialize (cw_calls (ok_stream _ _ Hok) Hp). specialize (cw_table (ok_stream _ _ Hok) Hp). destruct cw_timers.
  unfold closeWithError, Write, Writev, flush, Sendfile, SetDeadline, modWrite, resetRead.
  rewrite cw_closed. cbn [negb andb]. done.
Qed.

(** ** Deviations *)

(** An entry with nothing left to send keeps the loop of [flush] running. *)
Lemma empty_file_spins s t wl :
  c_closed s = false -> writeList s = t :: wl -> tw_fd t <> 0 -> tw_remain t <= 0 ->
  forall fuel, flush g fuel s = OutOfFuel.
Proof.
  intros Hc Hl Hfd Hr fuel. unfold flush. rewrite Hc, Hl.
  induction fuel as [|fuel IH]; cbn [flush_loop]; rewrite Hl; [done|].
  rewrite (proj2 (Z.eqb_neq _ _)) by done.
  assert (writeFile g fuel s = Ret (ENone, s)) as ->; [|exact IH].
  destruct fuel; cbn [writeFile]; rewrite Hl; cbn [lookup list_lookup must mbind res_bind];
    by rewrite (proj2 (Z.ltb_ge _ _)) by lia.
Qed.

End properties.

(** ** A connection to run

    Descriptor 3 is the socket, 7 a file; the allocator is the aligned one. *)

Definition pick_head (pool : list pbuf) : option nat := Some 0%nat.
#[local] Existing Instance aligned_allocator.
#[local] Instance demo_allocator : Allocator aligned := aligned_allocator pick_head.
#[local] Instance demo_laws : AllocatorLaws aligned := aligned_laws pick_head.

Definition demo_engine : engine := MkEngine 100 EPOLLLT 0 true.
Definition demo_file : os_file := MkFile 7 (inl 1) (inl 4).

Definition demo_conn (answers : list answer) : nbconn script aligned :=
  MkConn (MkScript answers [] [(7, str "file")] [3] []) newAligned 3 ConnTypeTCP 0 [] false false
    None None None true true [].

Lemma demo_settled answers : settled demo_engine ∅ (demo_conn answers).
Proof.
  split; [|split; [intros H; by destruct H|intros _ _; reflexivity]].
  split; [|done|done|apply not_elem_of_nil|done|done].
  split; [constructor|constructor| |constructor|].
  - intros x Hx. set_solver.
  - cbn. rewrite union_empty_l_L. split; [done|..|done].
    + intros i pool H. apply lookup_replicate in H as [-> _]. done.
    + repeat split; [constructor|set_solver|set_solver].
Qed.

Definition demo_ops : list op :=
  [OpWrite (str "hello"); OpSendfile demo_file 0; OpWrite (str "!"); OpFlush; OpFlush].

Definition demo_answers : list answer :=
  [Take 1; Intr; Take 0; Again; Take 9; Take 1; Intr; Take 0; Take 9].

(** Runs one operation of a concrete connection. *)
Ltac run_step := split; [try done|intros ? ? Hrun; vm_compute in Hrun; injection Hrun as <- <-].

Lemma demo_files : files_ok demo_engine demo_ops (demo_conn demo_answers).
Proof.
  run_step. run_step.
  { intros _. exists (str "file"), 1. repeat split; vm_compute; congruence. }
  run_step. run_step. run_step. exact I.
Qed.

Lemma stream_integrity_witness :
  exists d s', run_ops demo_engine demo_ops (demo_conn demo_answers) = Ret (d, s') /\
    if c_closed s'
    then writeList s' = [] /\ alloc_inv (alloc s') ∅ /\ sent (kern s') 3 `prefix_of` [] ++ [] ++ d
    else sent (kern s') 3 ++ pending (kern s') (writeList s') = [] ++ [] ++ d /\
         c_left s' = queue_left (writeList s').
Proof.
  exact (stream_integrity demo_engine ∅ demo_ops (demo_conn demo_answers)
    script_dup_reliable (demo_settled demo_answers) demo_files).
Defined.

(** What this run puts on the wire. *)
Example demo_run :
  exists s', run_ops demo_engine demo_ops (demo_conn demo_answers) = Ret (str "helloile!", s') /\
    sent (kern s') 3 = str "helloile!" /\ writeList s' = [].
Proof. eexists. split; [vm_compute; reflexivity|]. split; vm_compute; reflexivity. Qed.

Lemma queued_is_watched_witness :
  exists d s', run_ops demo_engine [OpWrite (str "hello")] (demo_conn [Take 1]) = Ret (d, s') /\
    Z.testbit (interest (kern s') 3) 2 = true.
Proof.
  destruct (run_ops demo_engine [OpWrite (str "hello")] (demo_conn [Take 1])) as [[d s']| |] eqn:E;
    [|vm_compute in E; discriminate E..].
  exists d, s'. split; [done|].
  apply (queued_is_watched demo_engine ∅ [OpWrite (str "hello")] (demo_conn [Take 1]) d s' script_dup_reliable);
    [by intros ????|done|apply demo_settled|run_step; exact I|exact E|..];
    vm_compute in E; injection E as <- <-; done.
Defined.

Definition steady_conn (b : bytes) : nbconn steady aligned :=
  MkConn (MkSteady (MkScript [] [] [] [3] [(3, 4)])) (MkAligned 1 (al_pools newAligned) newDebugger)
    3 ConnTypeTCP (len b) [MkToWrite 0 (Some (MkBuf 0 (b ++ replicate (32 - length b) x00) (len b))) 0 0]
    false true None None None true true [].

Lemma steady_settled : settled demo_engine ∅ (steady_conn (str "hello")).
Proof.
  split; [|split; [done|intros _ _; reflexivity]].
  split; [|done|done|apply not_elem_of_nil|done|done].
  assert (buf_ids (writeList (steady_conn (str "hello"))) = [0%nat]) as Hids by done.
  split; rewrite ?Hids; [|apply NoDup_singleton|set_solver|constructor|].
  - apply Forall_singleton. split; [done|]. split; [|done]. split; [done|]. right. exists 0%nat. by split; [lia|].
  - split; [done|..|done].
    + intros i pool H. apply lookup_replicate in H as [-> _]. done.
    + repeat split; [constructor|set_solver|]. intros x [Hx|Hx]; [|set_solver].
      assert (x = 0%nat) as -> by set_solver. cbn. lia.
Qed.

Lemma flush_drains_witness :
  exists s', flush demo_engine 9 (steady_conn (str "hello")) = Ret (None, s') /\
    writeList s' = [] /\ c_left s' = 0 /\ isWAdded s' = false /\
    sent (kern s') 3 = str "hello".
Proof.
  exact (proj2 (flush_drains demo_engine ∅ (steady_conn (str "hello")) 9 steady_settled ltac:(vm_compute; lia))
    steady_eager ltac:(discriminate)).
Defined.


Lemma close_once_witness :
  exists e s', closeWithError (Some ErrEOF) (demo_conn []) = Ret (e, s') /\
    c_closed s' = true /\ calls s' = [OnClose (Some ErrEOF)] /\
    Write demo_engine (str "x") s' = Ret (-1, Some ErrClosed, s').
Proof.
  destruct (close_once demo_engine ∅ (Some ErrEOF) (demo_conn []) (demo_settled []) eq_refl)
    as (e & s' & He & Hc & _ & _ & _ & _ & _ & _ & Hcalls & _ & Hw & _).
  exists e, s'. by split.
Defined.

(** ** Deviations, on concrete runs *)

(** After a partial [Writev] only the buffer that was cut is queued: of three
    buffers of four bytes with two bytes taken, [efgh] and [ijkl] are lost, and
    the result says that two bytes were written although four will be. *)
Lemma writev_drops_buffers :
  exists s', Writev demo_engine [str "abcd"; str "efgh"; str "ijkl"] (demo_conn [Take 1]) = Ret (2, None, s') /\
    sent (kern s') 3 = str "ab" /\ pending (kern s') (writeList s') = str "cd".
Proof. eexists. split; [vm_compute; reflexivity|]. split; vm_compute; reflexivity. Qed.

(** When [Writev] hands over everything at once, the handler that counts the
    written bytes is not called; [Write] calls it. *)
Lemma writev_unreported :
  (exists s', Writev demo_engine [str "ab"; str "cd"] (demo_conn [Take 9]) = Ret (4, None, s') /\ calls s' = []) /\
  (exists s', Write demo_engine (str "abcd") (demo_conn [Take 9]) = Ret (4, None, s') /\
     calls s' = [OnWrittenSize (Some (str "abcd")) 4]).
Proof. split; eexists; (split; [vm_compute; reflexivity|]); vm_compute; reflexivity. Qed.

(** A file at its end, sent while something is queued, is queued with nothing
    to send; every later flush runs without end. *)
Lemma sendfile_at_end_spins :
  exists s1 s2, Write demo_engine (str "abcd") (demo_conn [Take 1; Take 9]) = Ret (4, None, s1) /\
    Sendfile demo_engine 5 (Some (MkFile 7 (inl 4) (inl 4))) 0 s1 = Ret (0, None, s2) /\
    (exists s3, flush_loop demo_engine 1 s2 = OutOfFuel /\ writeBuffer demo_engine s2 = Ret (ENone, s3) /\
       forall fuel, flush demo_engine fuel s3 = OutOfFuel).
Proof.
  eexists _, _. split; [vm_compute; reflexivity|]. split; [vm_compute; reflexivity|].
  eexists. split; [vm_compute; reflexivity|]. split; [vm_compute; reflexivity|].
  by eapply empty_file_spins.
Qed.

(** A system out of descriptors: [dup] fails, everything else is as before. *)
Definition no_dup : Kernel script := {|
  sys_read := sys_read; sys_write := sys_write; sys_writev := sys_writev; sys_sendfile := sys_sendfile;
  sys_sendto := sys_sendto; sys_dup src k := (-1, EOther 24, k); sys_close := sys_close;
  sys_setnonblock := sys_setnonblock; sys_epoll_ctl := sys_epoll_ctl |}.

(** When the socket takes two bytes of a file and then no more, and [dup] fails,
    the rest of the file is neither sent nor queued; the caller is told that all
    of it was. *)
Lemma sendfile_drops_rest :
  exists s', @Sendfile script aligned no_dup _ demo_engine 5 (Some demo_file) 0 (demo_conn [Take 1; Again]) = Ret (3, None, s') /\
    sent (kern s') 3 = str "il" /\ writeList s' = [] /\ c_closed s' = false.
Proof. eexists. split; [vm_compute; reflexivity|]. split; [|split]; vm_compute; reflexivity. Qed.

(** Level-triggered: bytes queued by the handler of a dialled connection lose
    the writing event when the handler returns. *)
Lemma connect_write_stalls :
  exists s0 s1, addDialer demo_engine 100 (demo_conn [Take 1]) = Ret (None, s0) /\
    handle_connected demo_engine
      (fun s => '(_, _, s) ← Write demo_engine (str "hello") s; Ret s) s0 = Ret s1 /\
    pending (kern s1) (writeList s1) = str "llo" /\ c_closed s1 = false /\
    Z.testbit (interest (kern s1) 3) 2 = false.
Proof. eexists _, _. split; [vm_compute; reflexivity|]. split; [vm_compute; reflexivity|]. by vm_compute. Qed.
