(* ===== verification/NbRead.v ===== *)
(** * The non-blocking connection: reading and events

    The reading of a stream connection (src/conn_unix.go) and what the event
    loop of src/poller_epoll.go does with one event of a connection: flushing,
    the handler of a dialled connection, the read loop with its bound, the
    draining of what the peer sent before it closed, and the close. *)

From Stdlib Require Import ZArith Lia.
From Stdlib Require Import Strings.Byte.
From stdpp Require Import base numbers list list_numbers gmap.
From S2P Require Import Prelude Mempool NbConn NbConnFacts NbConnStream.

Open Scope Z_scope.

Definition epollEventsRead : Z := Z.lor EPOLLPRI EPOLLIN.
Definition epollEventsWrite : Z := EPOLLOUT.
Definition epollEventsError : Z := Z.lor (Z.lor EPOLLERR EPOLLHUP) EPOLLRDHUP.

(** [ev.Events&mask != 0] *)
Definition has (ev mask : Z) : bool := negb (Z.land ev mask =? 0).

Definition isDatagram (t : conn_type) : bool :=
  match t with
  | ConnTypeUDPServer | ConnTypeUDPClientFromRead | ConnTypeUDPClientFromDial => true
  | _ => false
  end.

(** Settings of the engine that reading depends on.  [ReadBufferSize] is the
    length of the buffer [borrow] gives, to which [payback] restores it. *)
Record rconf := MkRconf {
  ReadBufferSize : Z;
  MaxConnReadTimesPerEventLoop : Z;
  AsyncReadInPoller : bool;
  hasOnRead : bool
}.

Section events.
Context {K A : Type} `{!Kernel K} `{!Allocator A}.
Context (g : engine) (rc : rconf).
Abbreviation nbconn := (nbconn K A).

(** The handlers: [onDataPtr], [onRead], and the call of [AsyncRead], which
    hands a read loop to another goroutine. *)
Context (onData : bytes -> nbconn -> res nbconn) (onRead asyncRead : nbconn -> res nbconn).

Definition readStream (n : Z) (s : nbconn) : Z * bytes * option conn_err * nbconn :=
  let '(c, b, e, k) := sys_read (c_fd s) n (kern s) in
  (c, b, if decide (e = ENone) then None else Some (ErrSys e), set_kern k s).

(** [ReadAndGetConn] of a stream connection. *)
Definition ReadAndGetConn (n : Z) (s : nbconn) : Z * bytes * option conn_err * nbconn :=
  if c_closed s then (0, [], Some ErrClosed, s) else readStream n s.

(** [g.onDataPtr(rc, pbuf)] *)
Definition deliver (b : bytes) (s : nbconn) : res nbconn := onData b (add_call (OnData b) s).

Fixpoint read_loop (fuel : nat) (drainPeer : bool) (readLimit i : Z) (s : nbconn) : res nbconn :=
  if (readLimit <? 0) || (i <? readLimit) then
    match fuel with
    | O => OutOfFuel
    | S fuel =>
        let bufLen := ReadBufferSize rc in
        let '(n, b, err, s) := ReadAndGetConn bufLen s in
        s ← (if 0 <? n then deliver (take (Z.to_nat n) b) s else Ret s);
        match err with
        | Some (ErrSys EINTR) => read_loop fuel drainPeer readLimit (i + 1) s
        | Some (ErrSys EAGAIN) => Ret s
        | Some e => '(_, s) ← closeWithError (Some e) s; Ret s
        | None =>
            if drainPeer then if n =? 0 then Ret s else read_loop fuel drainPeer readLimit (i + 1) s
            else if (n <? bufLen) && negb (isDatagram (c_typ s)) then Ret s
            else read_loop fuel drainPeer readLimit (i + 1) s
        end
    end
  else Ret s.

(** The bound of the read loop, which edge-triggered mode lifts. *)
Definition max_reads : Z :=
  if negb (hasOnRead rc) && (EpollMod g =? EPOLLET) then Z.shiftl 1 31 - 1 else MaxConnReadTimesPerEventLoop rc.

Definition asyncReadEnabled : bool := AsyncReadInPoller rc && (EpollMod g =? EPOLLET).

(** One event of a connection that is in the engine's table.  [onConnected] is
    the handler of a dialled connection, called at its first writing event. *)
Definition handle_event (fuel : nat) (onConnected : option (nbconn -> res nbconn)) (ev : Z) (s : nbconn)
    : res nbconn :=
  if inTable s then
    s ← (if has ev epollEventsWrite then
           match onConnected with
           | None => '(_, s) ← flush g fuel s; Ret s
           | Some h => handle_connected g h s
           end
         else Ret s);
    let peerHangup := has ev (Z.lor EPOLLHUP EPOLLRDHUP) in
    let drainPeer := peerHangup && negb (hasOnRead rc) && negb asyncReadEnabled && negb (isDatagram (c_typ s)) in
    s ← (if has ev epollEventsRead || drainPeer then
           if hasOnRead rc then onRead s
           else if asyncReadEnabled then asyncRead s
           else
             s ← read_loop fuel drainPeer (if drainPeer then -1 else max_reads) 0 s;
             Ret (if isOneshot g then ResetPollerEvent g s else s)
         else Ret s);
    if has ev epollEventsError then '(_, s) ← closeWithError (Some ErrEOF) s; Ret s else Ret s
  else Ret s.

End events.
