(* ===== verification/NbReadProps.v ===== *)
(** * The non-blocking connection: nothing the peer sent is lost

    What the event loop delivers to the data handler, for kernels that behave
    as documented on reading. *)

From Stdlib Require Import ZArith Lia.
From Stdlib Require Import Strings.Byte Strings.String.
From stdpp Require Import base numbers list list_numbers gmap.
From S2P Require Import Prelude Mempool MempoolFacts MempoolProps NbConn NbConnFacts NbConnStream NbConnKernel NbRead.

Open Scope Z_scope.

(** [waiting k fd] is what the socket has received and nobody has read. *)
Class ReceiveView (K : Type) := waiting : K -> Z -> bytes.

(** Reading takes from the front; a stream gives less than asked for only when
    it has no more; the other calls leave what is waiting. *)
Class ReceiveLaws (K : Type) `{!Kernel K} `{!KernelView K} `{!ReceiveView K} := {
  read_law fd n k c b e k' :
    sys_read fd n k = (c, b, e, k') -> 0 < n ->
    waiting k fd = b ++ waiting k' fd /\ len b <= n /\ same_fds k k' /\ (forall x, sent k' x = sent k x) /\
    (e = ENone -> c = len b /\ (c < n -> waiting k' fd = [])) /\ (e <> ENone -> c <= 0 /\ b = []) /\
    (e = EAGAIN -> waiting k' fd = []) /\
    (patience k' <= patience k)%nat /\ (e = EINTR -> (patience k' < patience k)%nat);
  write_waits fd b k n e k' x : sys_write fd b k = (n, e, k') -> waiting k' x = waiting k x;
  sendfile_waits out inp off c k n e k' x : sys_sendfile out inp off c k = (n, e, k') -> waiting k' x = waiting k x;
  close_waits fd k e k' x : sys_close fd k = (e, k') -> x <> fd -> waiting k' x = waiting k x;
  epoll_waits op fd ev k e k' x : sys_epoll_ctl op fd ev k = (e, k') -> waiting k' x = waiting k x;
  sendfile_patience out inp off c k n e k' :
    sys_sendfile out inp off c k = (n, e, k') -> (patience k' <= patience k)%nat
}.

(** What the data handler was given. *)
Definition data_of (cs : list call) : bytes :=
  concat (map (fun c => match c with OnData b => b | _ => [] end) cs).

#[local] Arguments data_of : simpl never.

Lemma data_of_app cs cs' : data_of (cs ++ cs') = data_of cs ++ data_of cs'.
Proof. unfold data_of. by rewrite map_app, concat_app. Qed.

Section reading.
Context {K A : Type} `{!Kernel K} `{!KernelView K} `{!KernelLaws K} `{!ReceiveView K} `{!ReceiveLaws K}.
Context `{!Allocator A} `{!AllocatorLaws A}.
Context (g : engine) (rc : rconf) (others : gset nat).
Abbreviation nbconn := (nbconn K A).
Implicit Types s : nbconn.

Abbreviation inbox s := (waiting (kern s) (c_fd s)).

(** The files queued are not the socket. *)
Definition apart s : Prop := Forall (fun t => 0 < tw_fd t -> tw_fd t <> c_fd s) (writeList s).

(** [s'] has the connection's input as [s] has it. *)
Record keeps s s' : Prop := {
  kp_fd : c_fd s' = c_fd s;
  kp_data : data_of (calls s') = data_of (calls s);
  kp_wait : inbox s' = inbox s;
  kp_patience : (patience (kern s') <= patience (kern s))%nat;
  kp_poller : hasPoller s' = hasPoller s;
  kp_closed : c_closed s' = c_closed s;
  kp_typ : c_typ s' = c_typ s;
  kp_apart : apart s -> apart s'
}.

Lemma keeps_refl s : keeps s s.
Proof. by split. Qed.

Lemma keeps_trans s1 s2 s3 : keeps s1 s2 -> keeps s2 s3 -> keeps s1 s3.
Proof.
  intros [F1 D1 W1 P1 H1 C1 T1 A1] [F2 D2 W2 P2 H2 C2 T2 A2].
  split; try congruence; [lia|auto].
Qed.

Lemma keeps_kern s k :
  waiting k (c_fd s) = inbox s -> (patience k <= patience (kern s))%nat -> keeps s (set_kern k s).
Proof. intros Hw Hp. by split. Qed.

Lemma keeps_call s c : (forall b, c <> OnData b) -> keeps s (add_call c s).
Proof.
  intros Hc. split; cbn; try done. rewrite data_of_app. destruct c; cbn; try by rewrite app_nil_r.
  by destruct (Hc b).
Qed.

Lemma report_keeps b n s s' : report g b n s = Ret s' -> keeps s s'.
Proof.
  unfold report. destruct (_ && _); [|intros [= <-]; apply keeps_refl].
  destruct (slice b 0 n); cbn; [|done]. intros [= <-]. by apply keeps_call.
Qed.

Lemma release_keeps t s s' :
  releaseToWrite t s = Ret s' -> (0 < tw_fd t -> tw_fd t <> c_fd s) -> keeps s s' /\ writeList s' = writeList s.
Proof.
  unfold releaseToWrite. intros E Hfd.
  assert (exists a, s' = (if 0 <? tw_fd t then set_kern (snd (sys_close (tw_fd t) (kern s))) (set_alloc a s) else set_alloc a s))
    as [a ->].
  { destruct (tw_buf t) as [b|]; [destruct (Free b (alloc s)) as [a|]; cbn in E; [|done]|cbn in E];
      injection E as <-; [by exists a|exists (alloc s); by destruct s]. }
  destruct (Z.ltb_spec 0 (tw_fd t)) as [Hp|_]; [|by split; [split|]].
  destruct (sys_close (tw_fd t) (kern s)) as [e k] eqn:Ek. split; [|done]. split; cbn; try done.
  - eapply close_waits; [exact Ek|]. intros Heq. by apply (Hfd Hp).
  - by apply close_law in Ek as [].
Qed.

Lemma writeBuffer_keeps s e s' : writeBuffer g s = Ret (e, s') -> apart s -> keeps s s'.
Proof.
  unfold writeBuffer. destruct (writeList s) as [|t wl] eqn:El; [done|]. cbn [lookup list_lookup must mbind res_bind].
  destruct (tw_buf t) as [tb|]; [|done]. cbn [must mbind res_bind].
  destruct (slice_from _ _) as [buf|]; [|done]. cbn [must mbind res_bind].
  destruct (sys_write _ _ _) as [[n e1] k] eqn:Ew. intros E Hap.
  assert (keeps s (set_kern k s)) as H1.
  { apply keeps_kern; [by eapply write_waits|]. by apply write_law in Ew as (_ & _ & _ & _ & _ & ? & _). }
  destruct (0 <? n); [|by injection E as <- <-].
  destruct (report _ _ _ _) as [s1| |] eqn:Er; [|done..]. cbn [mbind res_bind] in E.
  pose proof (keeps_trans _ _ _ H1 (report_keeps _ _ _ _ Er)) as H2.
  assert (writeList s1 = t :: wl) as El1.
  { rewrite <- El. unfold report in Er. destruct (_ && _); [|by injection Er as <-].
    destruct (slice _ _ _); cbn in Er; [|done]. by injection Er as <-. }
  assert (apart s1) as Ha1 by by apply (kp_apart _ _ H2).
  assert (forall wl', Forall (fun t => 0 < tw_fd t -> tw_fd t <> c_fd s1) wl' ->
    forall s2, keeps (set_left (c_left s1 - n) s1) s2 -> keeps s (set_list wl' s2)) as Hset.
  { intros wl' Hwl s2 H3. eapply keeps_trans; [exact H2|]. destruct H3. split; cbn in *; try done.
    intros _. unfold apart. cbn. by rewrite kp_fd0. }
  unfold apart in Ha1. rewrite El1 in Ha1. apply Forall_cons in Ha1 as [Ht Hwl].
  destruct (_ =? n).
  - destruct (releaseToWrite _ _) as [s2| |] eqn:E2; [|done..]. cbn [mbind res_bind] in E. injection E as <- <-.
    apply release_keeps in E2 as [H3 El2]; [|exact Ht]. apply Hset; [|done]. rewrite El2. cbn. by rewrite El1.
  - injection E as <- <-. apply Hset; [|apply keeps_refl]. cbn. rewrite El1. by apply Forall_cons.
Qed.

Lemma writeFile_keeps fuel : forall s e s', writeFile g fuel s = Ret (e, s') -> apart s -> keeps s s'.
Proof.
  induction fuel as [|fuel IH]; intros s e s' E Hap; cbn [writeFile] in E;
    (destruct (writeList s) as [|t wl] eqn:El; [done|]); cbn [lookup list_lookup must mbind res_bind] in E.
  { destruct (_ <? _); [done|]. injection E as <- <-. apply keeps_refl. }
  destruct (_ <? _); [|injection E as <- <-; apply keeps_refl].
  destruct (sys_sendfile _ _ _ _ _) as [[n e1] k] eqn:Ew.
  assert (keeps s (set_kern k s)) as H1.
  { apply keeps_kern; [by eapply sendfile_waits|by eapply sendfile_patience]. }
  destruct (0 <? n).
  - set (s1 := if hasOnWrittenSize g then _ else _) in E.
    assert (keeps s s1 /\ writeList s1 = t :: wl) as [H2 El1].
    { unfold s1. destruct (hasOnWrittenSize g); split; try done. eapply keeps_trans; [exact H1|]. by apply keeps_call. }
    clearbody s1. assert (apart s1) as Ha1 by by apply (kp_apart _ _ H2).
    unfold apart in Ha1. rewrite El1 in Ha1. apply Forall_cons in Ha1 as [Ht Hwl].
    assert (forall wl', Forall (fun t => 0 < tw_fd t -> tw_fd t <> c_fd s1) wl' ->
      forall s2, keeps s1 s2 -> keeps s (set_list wl' s2)) as Hset.
    { intros wl' Hwl' s2 H3. eapply keeps_trans; [exact H2|]. destruct H3. split; cbn in *; try done.
      intros _. unfold apart. cbn. by rewrite kp_fd0. }
    destruct (_ <=? 0).
    + destruct (releaseToWrite _ _) as [s2| |] eqn:E2; [|done..]. cbn [mbind res_bind] in E. injection E as <- <-.
      apply release_keeps in E2 as [H3 El2]; [|exact Ht]. apply Hset; [|done]. rewrite El2. by rewrite El1.
    + assert (keeps s (set_list (<[0%nat := MkToWrite (tw_fd t) (tw_buf t) (tw_offset t + n) (tw_remain t - n)]> (writeList s1)) s1))
        as H3 by (apply Hset; [rewrite El1; by apply Forall_cons|apply keeps_refl]).
      destruct (decide (e1 = ENone)); [|by injection E as <- <-].
      eapply keeps_trans; [exact H3|]. eapply IH; [exact E|]. by apply (kp_apart _ _ H3).
  - destruct (decide (e1 = ENone)); [|by injection E as <- <-].
    eapply keeps_trans; [exact H1|]. eapply IH; [exact E|]. by apply (kp_apart _ _ H1).
Qed.

(** *** Events *)

Lemma EpollCtl_keeps op ev s : keeps s (snd (EpollCtl op ev s)).
Proof.
  unfold EpollCtl. destruct (sys_epoll_ctl _ _ _ _) as [e k] eqn:E. cbn [snd]. apply keeps_kern.
  - by eapply epoll_waits.
  - by apply epoll_law in E as (_ & _ & _ & ? & _).
Qed.

Lemma setRead_keeps op s : keeps s (snd (setRead g op s)).
Proof. unfold setRead. repeat case_match; try apply EpollCtl_keeps; apply keeps_refl. Qed.

Lemma setReadWrite_keeps op s : keeps s (snd (setReadWrite g op s)).
Proof. unfold setReadWrite. repeat case_match; try apply EpollCtl_keeps; apply keeps_refl. Qed.

Lemma resetRead_keeps s : keeps s (resetRead g s).
Proof.
  unfold resetRead. destruct (_ && _); [|apply keeps_refl].
  eapply keeps_trans; [|apply setRead_keeps]. by split.
Qed.

Lemma ResetPollerEvent_keeps s : keeps s (ResetPollerEvent g s).
Proof.
  unfold ResetPollerEvent. destruct (_ && _); [|apply keeps_refl].
  destruct (writeList s); [apply setRead_keeps|apply setReadWrite_keeps].
Qed.

(** *** Closing *)

Lemma release_all_calls ts : forall s s', release_all ts s = Ret s' ->
  calls s' = calls s /\ hasPoller s' = hasPoller s /\ c_typ s' = c_typ s /\ c_closed s' = c_closed s /\
  closeErr s' = closeErr s /\ c_fd s' = c_fd s.
Proof.
  induction ts as [|t ts IH]; intros s s' E; cbn [release_all] in E; [by injection E as <-|].
  destruct (releaseToWrite t s) as [s1| |] eqn:E1; [|done..]. cbn [mbind res_bind] in E. apply IH in E as E2.
  destruct E2 as (-> & -> & -> & -> & -> & ->). unfold releaseToWrite in E1.
  destruct (tw_buf t) as [b|]; [destruct (Free b (alloc s)); cbn in E1; [|done]|]; cbn in E1; injection E1 as <-;
    by destruct (0 <? tw_fd t).
Qed.

(** The close handler comes last, and gets the error. *)
Lemma close_calls err s e s' :
  closeWithErrorWithoutLock err s = Ret (e, s') -> hasPoller s = true -> is_stream (c_typ s) = true ->
  calls s' = calls s ++ [OnClose err] /\ closeErr s' = err /\ c_closed s' = c_closed s /\ c_fd s' = c_fd s.
Proof.
  unfold closeWithErrorWithoutLock. intros E Hp Ht.
  destruct (release_all _ _) as [s1| |] eqn:E1; [|done..]. cbn [mbind res_bind] in E.
  apply release_all_calls in E1 as (C1 & C2 & C3 & C4 & C5 & C6). cbn in C1, C2, C3, C4, C5, C6.
  set (s2 := set_list [] s1) in E. assert (hasPoller s2 = true) as Hp2 by by rewrite <- Hp. rewrite Hp2 in E.
  assert (deleteConn s2 = add_call (OnClose err) (set_table false s2)) as Hd.
  { unfold deleteConn. change (c_typ s2) with (c_typ s1). rewrite C3.
    rewrite (bool_decide_eq_false_2 (c_typ s = ConnTypeUDPClientFromRead)) by (by destruct (c_typ s)).
    change (c_typ (set_table false s2)) with (c_typ s1). rewrite C3, bool_decide_eq_false_2 by (by destruct (c_typ s)).
    change (closeErr (set_table false s2)) with (closeErr s1). by rewrite C5. }
  rewrite Hd in E. cbn [c_typ add_call set_table set_list s2] in E. rewrite C3 in E.
  destruct (c_typ s); try done; destruct (sys_close _ _) as [e1 k1]; injection E as <- <-; cbn; by rewrite C1, C4, C5, C6.
Qed.

Lemma data_of_data cs b : data_of (cs ++ [OnData b]) = data_of cs ++ b.
Proof. rewrite data_of_app. unfold data_of at 2. cbn. by rewrite app_nil_r. Qed.

Lemma data_of_close cs err : data_of (cs ++ [OnClose err]) = data_of cs.
Proof. by rewrite data_of_app, app_nil_r. Qed.

(** *** Flushing *)

Lemma flush_keeps fuel s err s' :
  flush g fuel s = Ret (err, s') -> apart s -> hasPoller s = true -> is_stream (c_typ s) = true ->
  match err with
  | None => keeps s s'
  | Some _ => data_of (calls s') = data_of (calls s)
  end.
Proof.
  unfold flush. destruct (c_closed s) eqn:Ec; [by intros [= <- <-]|].
  destruct (writeList s) as [|t0 wl0] eqn:El0; [intros [= <- <-]; intros; apply keeps_refl|].
  clear t0 wl0 El0. revert s Ec. induction fuel as [|fuel IH]; intros s Ec E Hap Hp Ht; cbn [flush_loop] in E;
    (destruct (writeList s) as [|t wl] eqn:El; [injection E as <- <-; apply resetRead_keeps|]); [done|].
  destruct (if tw_fd t =? 0 then writeBuffer g s else writeFile g fuel s) as [[e s1]| |] eqn:E1; [|done..].
  cbn [mbind res_bind] in E.
  assert (keeps s s1) as H1.
  { destruct (tw_fd t =? 0); [by eapply writeBuffer_keeps|by eapply writeFile_keeps]. }
  pose proof (kp_apart _ _ H1 Hap) as Ha1.
  assert (hasPoller s1 = true) as Hp1 by by rewrite (kp_poller _ _ H1).
  assert (is_stream (c_typ s1) = true) as Ht1 by by rewrite (kp_typ _ _ H1).
  assert (c_closed s1 = false) as Hc1 by by rewrite (kp_closed _ _ H1).
  destruct e as [| | |x].
  - specialize (IH s1 Hc1 E Ha1 Hp1 Ht1). destruct err; [by rewrite IH, (kp_data _ _ H1)|by eapply keeps_trans].
  - specialize (IH s1 Hc1 E Ha1 Hp1 Ht1). destruct err; [by rewrite IH, (kp_data _ _ H1)|by eapply keeps_trans].
  - injection E as <- <-. destruct (isOneshot g); [|done]. eapply keeps_trans; [exact H1|]. apply setReadWrite_keeps.
  - destruct (closeWithErrorWithoutLock _ _) as [[e2 s2]| |] eqn:E2; [|done..]. cbn [mbind res_bind] in E.
    injection E as <- <-. apply close_calls in E2 as (-> & _); [|done..]. cbn. by rewrite data_of_close, (kp_data _ _ H1).
Qed.

(** *** The read loop *)

Lemma conn_apart s : conn_ok others s -> apart s.
Proof.
  intros [[He _ _ _ _] _ _ Hfds _ _]. unfold apart. rewrite Forall_forall in *. intros t Ht Hp Heq.
  specialize (He t Ht). unfold entry_ok in He. destruct (tw_buf t) as [tb|] eqn:Eb; [lia|].
  apply Hfds. rewrite <- Heq. apply list_elem_of_omap. exists t. by rewrite Eb.
Qed.

Lemma settled_read k s :
  settled g others s -> same_fds (kern s) k -> (forall x, sent k x = sent (kern s) x) -> settled g others (set_kern k s).
Proof.
  intros ([Hq Hl Hs Hf Ht Ho] & Har & Hw) [Sf Si Ss] Hsent. split; [|split; [done|]].
  - split; cbn; try done; [|by rewrite Ss]. by apply (queue_same_files others (kern s)).
  - intros Hr Hone. cbn. rewrite Si. by apply Hw.
Qed.

Lemma settled_call c s : settled g others s -> settled g others (add_call c s).
Proof. intros ([Hq Hl Hs Hf Ht Ho] & Har & Hw). by split. Qed.

(** A handler that leaves the connection open, and its input alone. *)
Definition handler_ok (h : bytes -> nbconn -> res nbconn) : Prop :=
  forall b s, settled g others s -> exists s', h b s = Ret s' /\ settled g others s' /\ keeps s s'.

(** Closed by an error of a system call. *)
Definition failed s : Prop := c_closed s = true /\ exists e, closeErr s = Some (ErrSys e).

Context (onData : bytes -> nbconn -> res nbconn).

(** What a read loop that goes on after [b] comes to. *)
Definition read_result (limit : Z) s s' : Prop :=
  exists d, data_of (calls s') = data_of (calls s) ++ d /\
    (settled g others s' /\ hasPoller s' = true /\ inbox s = d ++ inbox s' /\
       (len (inbox s) + Z.of_nat (patience (kern s)) < limit -> inbox s' = []) \/
     failed s' /\ d `prefix_of` inbox s).

Lemma read_result_more limit limit' s s1 s' b :
  data_of (calls s1) = data_of (calls s) ++ b -> inbox s = b ++ inbox s1 ->
  (len (inbox s) + Z.of_nat (patience (kern s)) < limit ->
   len (inbox s1) + Z.of_nat (patience (kern s1)) < limit') ->
  read_result limit' s1 s' -> read_result limit s s'.
Proof.
  intros Hd Hi Hlim (d & Hd' & Hcase). exists (b ++ d). split; [by rewrite Hd', Hd, app_assoc|].
  destruct Hcase as [(Hs' & Hp & Hi' & Hdr)|(Hf & Hpre)].
  - left. split; [done|]. split; [done|]. split; [by rewrite Hi, Hi', app_assoc|auto].
  - right. split; [done|]. rewrite Hi. by apply prefix_app.
Qed.

Lemma fatal_closes e s :
  settled g others s -> hasPoller s = true ->
  exists x s', closeWithError (Some (ErrSys e)) s = Ret (x, s') /\ data_of (calls s') = data_of (calls s) /\ failed s'.
Proof.
  intros Hs Hp. destruct (closeWithError_ok g others (Some (ErrSys e)) s Hs) as (x & s' & E & (Hc & _ & He & _) & _).
  exists x, s'. split; [done|]. split; [|by split; [|exists e]].
  unfold closeWithError in E. rewrite (ok_open _ _ (proj1 Hs)) in E.
  apply close_calls in E as (-> & _); [by rewrite data_of_close|done|apply Hs].
Qed.

(** One round up to the data handler. *)
Lemma read_once s :
  handler_ok onData -> 0 < ReadBufferSize rc -> settled g others s -> hasPoller s = true ->
  exists n b e s1 s2, ReadAndGetConn (ReadBufferSize rc) s = (n, b, e, s1) /\
    (if 0 <? n then deliver onData (take (Z.to_nat n) b) s1 else Ret s1) = Ret s2 /\
    settled g others s2 /\ hasPoller s2 = true /\ c_typ s2 = c_typ s /\
    data_of (calls s2) = data_of (calls s) ++ b /\ inbox s = b ++ inbox s2 /\
    (patience (kern s2) <= patience (kern s))%nat /\
    match e with
    | None => n = len b /\ (n < ReadBufferSize rc -> inbox s2 = [])
    | Some (ErrSys EINTR) => b = [] /\ (patience (kern s2) < patience (kern s))%nat
    | Some (ErrSys EAGAIN) => inbox s2 = []
    | Some (ErrSys (EOther _)) => True
    | Some _ => False
    end.
Proof.
  intros Hh Hb Hs Hp. unfold ReadAndGetConn. rewrite (ok_open _ _ (proj1 Hs)). unfold readStream.
  destruct (sys_read (c_fd s) (ReadBufferSize rc) (kern s)) as [[[n b] e] k] eqn:Er.
  apply read_law in Er as (Hw & Hlb & Hsf & Hsent & Hok & Herr & Hag & Hpa & Hin); [|done].
  pose proof (settled_read k s Hs Hsf Hsent) as Hs1. set (s1 := set_kern k s) in *.
  assert (take (Z.to_nat n) b = b /\ (n <= 0 -> b = [])) as [Htk Hnil].
  { destruct (decide (e = ENone)) as [He|He].
    - destruct (Hok He) as [-> _]. split; [apply take_ge; unfold len; lia|]. intros Hz. apply len_zero_nil.
      pose proof (len_nonneg b). lia.
    - destruct (Herr He) as [_ ->]. by destruct (Z.to_nat n). }
  eexists n, b, _, s1. 
  assert (exists s2, (if 0 <? n then deliver onData (take (Z.to_nat n) b) s1 else Ret s1) = Ret s2 /\
    settled g others s2 /\ hasPoller s2 = true /\ c_typ s2 = c_typ s /\ data_of (calls s2) = data_of (calls s) ++ b /\
    inbox s2 = waiting k (c_fd s) /\ (patience (kern s2) <= patience k)%nat) as (s2 & E2 & Hs2 & Hp2 & Ht2 & Hd2 & Hw2 & Hpa2).
  { destruct (Z.ltb_spec 0 n) as [Hn|Hn].
    - rewrite Htk. unfold deliver. destruct (Hh b (add_call (OnData b) s1)) as (s2 & E2 & Hs2 & [F D W P H C T _]);
        [by apply settled_call|]. exists s2. cbn in F, D, W, P, H, C, T. rewrite data_of_data in D. by rewrite H.
    - exists s1. rewrite (Hnil Hn), app_nil_r. done. }
  exists s2. split; [done|]. split; [done|]. split; [done|]. split; [done|]. split; [done|]. split; [done|].
  split; [by rewrite Hw2|]. split; [lia|]. rewrite Hw2. destruct e; cbn; [by apply Hok| |by apply Hag|done].
  destruct (Herr ltac:(done)) as [_ ->]. split; [done|]. specialize (Hin eq_refl). lia.
Qed.

Lemma event_loop_ok fuel : forall drain readLimit i s,
  handler_ok onData -> 0 < ReadBufferSize rc -> settled g others s -> hasPoller s = true ->
  len (inbox s) + Z.of_nat (patience (kern s)) < Z.of_nat fuel ->
  exists s', read_loop rc onData fuel drain readLimit i s = Ret s' /\
    read_result (if readLimit <? 0 then len (inbox s) + Z.of_nat (patience (kern s)) + 1 else readLimit - i) s s'.
Proof.
  induction fuel as [|fuel IH]; intros drain readLimit i s Hh Hb Hs Hp Hfuel; [pose proof (len_nonneg (inbox s)); lia|].
  cbn [read_loop]. pose proof (len_nonneg (inbox s)) as Hlen. destruct (_ || _) eqn:Eg; cycle 1.
  { exists s. split; [done|]. exists []. rewrite app_nil_r. split; [done|]. left. split; [done|]. split; [done|].
    split; [done|]. apply orb_false_iff in Eg as [-> E2]. apply Z.ltb_ge in E2. lia. }
  destruct (read_once s Hh Hb Hs Hp) as (n & b & e & s1 & s2 & -> & -> & Hs2 & Hp2 & Ht2 & Hd2 & Hi2 & Hpa & He).
  cbn [mbind res_bind].
  assert (inbox s2 = [] -> read_result (if readLimit <? 0 then len (inbox s) + Z.of_nat (patience (kern s)) + 1 else readLimit - i) s s2)
    as Hstop.
  { intros Hz. exists b. split; [done|]. by left. }
  assert (len (inbox s) = len b + len (inbox s2)) as Hl by (rewrite Hi2 at 1; apply len_app).
  assert (0 < len b \/ (patience (kern s2) < patience (kern s))%nat ->
    exists s', read_loop rc onData fuel drain readLimit (i + 1) s2 = Ret s' /\
    read_result (if readLimit <? 0 then len (inbox s) + Z.of_nat (patience (kern s)) + 1 else readLimit - i) s s') as Hgo.
  { intros Hprog. pose proof (len_nonneg b).
    destruct (IH drain readLimit (i + 1) s2 Hh Hb Hs2 Hp2 ltac:(lia)) as (s' & -> & Hr). exists s'. split; [done|].
    eapply read_result_more; [exact Hd2|exact Hi2| |exact Hr]. destruct (readLimit <? 0); lia. }
  destruct e as [[]|]; try done.
  - destruct e as [| | |x]; try done.
    + apply Hgo. right. apply He.
    + exists s2. split; [done|]. by apply Hstop.
    + destruct (fatal_closes (EOther x) s2 Hs2 Hp2) as (y & s' & -> & Hd' & Hf). cbn [mbind res_bind]. exists s'. split; [done|].
      exists b. split; [by rewrite Hd', Hd2|]. right. split; [done|]. rewrite Hi2. by apply prefix_app_r.
  - destruct He as [-> Hz]. pose proof (len_nonneg b). destruct drain.
    + destruct (Z.eqb_spec (len b) 0); [exists s2; split; [done|]; apply Hstop, Hz; lia|apply Hgo; left; lia].
    + rewrite Ht2. assert (isDatagram (c_typ s) = false) as ->.
      { destruct Hs as [[_ _ _ _ Hst _] _]. by destruct (c_typ s). }
      rewrite andb_true_r. destruct (Z.ltb_spec (len b) (ReadBufferSize rc)); [exists s2; split; [done|]; by apply Hstop, Hz|].
      apply Hgo. left. lia.
Qed.

(** *** Events *)

Lemma ResetPollerEvent_settled s : settled g others s -> isOneshot g = true -> settled g others (ResetPollerEvent g s).
Proof.
  intros (Hok & Har & _) Hone. unfold ResetPollerEvent. rewrite Hone, (ok_open _ _ Hok). cbn [negb andb].
  assert (forall s', estep s s' -> isWAdded s' = isWAdded s -> settled g others s') as H.
  { intros s' He Hw. destruct (estep_ok others _ _ He Hok) as (Hok' & _ & Hl). split; [done|].
    split; [unfold armed; by rewrite Hl, Hw|]. intros _ Hn. congruence. }
  destruct (writeList s).
  - destruct (poller_resetRead g s) as [e s'] eqn:E. apply setRead_step in E as (He & Hw & _). by apply H.
  - destruct (poller_modWrite g s) as [e s'] eqn:E. apply setReadWrite_step in E as (He & Hw & _). by apply H.
Qed.

Lemma flush_error fuel s e s' : flush g fuel s = Ret (Some e, s') -> c_closed s = false -> exists x, e = ErrSys x.
Proof.
  unfold flush. intros E Hc. rewrite Hc in E. destruct (writeList s) as [|t0 wl0]; [done|]. clear Hc t0 wl0. revert s E.
  induction fuel as [|fuel IH]; intros s E; cbn [flush_loop] in E; (destruct (writeList s) as [|t wl]; [done|]); [done|].
  destruct (if tw_fd t =? 0 then writeBuffer g s else writeFile g fuel s) as [[[| | |x] s1]| |]; try done; cbn [mbind res_bind] in E.
  - by apply (IH s1).
  - by apply (IH s1).
  - destruct (closeWithErrorWithoutLock _ _) as [[y s2]| |]; [|done..]. cbn in E. injection E as <- _. by exists (EOther x).
Qed.

(** The writing event: the connection goes on with its input untouched, or is
    closed by the error. *)
Lemma write_phase fuel ev s :
  settled g others s -> hasPoller s = true -> (flush_fuel s <= fuel)%nat ->
  exists s1, (if has ev epollEventsWrite then '(_, s) ← flush g fuel s; Ret s else Ret s) = Ret s1 /\
    (settled g others s1 /\ keeps s s1 \/ failed s1 /\ data_of (calls s1) = data_of (calls s)).
Proof.
  intros Hs Hp Hf. destruct (has ev epollEventsWrite); [|exists s; split; [done|]; left; split; [done|apply keeps_refl]].
  destruct (flush_ok g others fuel s Hs Hf) as (err & s1 & E & Hres).
  pose proof (flush_keeps fuel s err s1 E (conn_apart s (proj1 Hs)) Hp (ok_stream _ _ (proj1 Hs))) as Hk.
  rewrite E. cbn [mbind res_bind]. exists s1. split; [done|]. destruct err as [e|].
  - right. split; [|done]. destruct (flush_error _ _ _ _ E (ok_open _ _ (proj1 Hs))) as [x ->].
    destruct Hres as (Hc & _ & He & _). split; [done|]. by exists x.
  - left. by split; [apply Hres|].
Qed.

(** A closed connection is left as it is. *)
Lemma closed_phase fuel drain limit i s :
  c_closed s = true -> (0 < fuel)%nat ->
  read_loop rc onData fuel drain limit i s = Ret s /\ ResetPollerEvent g s = s /\
  (forall e, closeWithError e s = Ret (None, s)).
Proof.
  intros Hc Hf. destruct fuel as [|fuel]; [lia|]. split; [|split].
  - cbn [read_loop]. unfold ReadAndGetConn. rewrite Hc. destruct ((limit <? 0) || (i <? limit)); [|done]. cbn. unfold closeWithError. by rewrite Hc.
  - unfold ResetPollerEvent. rewrite Hc. by rewrite andb_false_r.
  - intros e. unfold closeWithError. by rewrite Hc.
Qed.

Context (onRead asyncRead : nbconn -> res nbconn).
Context (handler : handler_ok onData) (bufsize : 0 < ReadBufferSize rc).
Context (no_onRead : hasOnRead rc = false) (sync : asyncReadEnabled g rc = false).

(** The events of a connection whose reading is synchronous, up to the close. *)
Lemma read_phase fuel drain limit s :
  settled g others s -> hasPoller s = true ->
  len (inbox s) + Z.of_nat (patience (kern s)) < Z.of_nat fuel ->
  exists s', (s ← read_loop rc onData fuel drain limit 0 s; Ret (if isOneshot g then ResetPollerEvent g s else s)) = Ret s' /\
    read_result (if limit <? 0 then len (inbox s) + Z.of_nat (patience (kern s)) + 1 else limit) s s'.
Proof.
  intros Hs Hp Hf. pose proof (len_nonneg (inbox s)).
  destruct (event_loop_ok fuel drain limit 0 s handler bufsize Hs Hp Hf) as (s1 & -> & Hr). cbn [mbind res_bind].
  rewrite Z.sub_0_r in Hr. eexists. split; [done|]. destruct (isOneshot g) eqn:Eo; [|done].
  destruct Hr as (d & Hd & Hcase). pose proof (ResetPollerEvent_keeps s1) as Hk. exists d.
  split; [by rewrite (kp_data _ _ Hk)|]. destruct Hcase as [(Hs1 & Hp1 & Hi & Hz)|[Hf1 Hpre]].
  - left. rewrite (kp_wait _ _ Hk), (kp_poller _ _ Hk). split; [by apply ResetPollerEvent_settled|done].
  - right. destruct (closed_phase fuel drain limit 0 s1 (proj1 Hf1) ltac:(lia)) as (_ & -> & _). done.
Qed.

Lemma has_hup_error ev : has ev (Z.lor EPOLLHUP EPOLLRDHUP) = true -> has ev epollEventsError = true.
Proof.
  unfold has, epollEventsError. rewrite !negb_true_iff, !Z.eqb_neq. intros H Hz. apply H.
  rewrite <- Z.lor_assoc, Z.land_lor_distr_r in Hz. by apply Z.lor_eq_0_iff in Hz as [_ ?].
Qed.

(** C19: when the peer hangs up, everything it sent is delivered before the
    connection is closed.  For a stream connection that is in order, in the table
    and with a poller, and has no dial handler pending; read synchronously, that
    is without an [OnRead] handler and without asynchronous reading, with buffers
    of positive size; and for a data handler that returns, does not close the
    connection and does not read from it ([handler_ok]): an event with a hangup
    returns with the connection closed, and either the close handler comes last,
    with EOF, and the data handler was given exactly what the kernel had, in
    order, or a system call failed, the connection is closed with its error and
    the handler was given a front part. *)
Theorem hangup_drained fuel ev s :
  settled g others s -> inTable s = true -> hasPoller s = true ->
  has ev (Z.lor EPOLLHUP EPOLLRDHUP) = true ->
  (flush_fuel s <= fuel)%nat -> len (inbox s) + Z.of_nat (patience (kern s)) < Z.of_nat fuel ->
  exists s', handle_event g rc onData onRead asyncRead fuel None ev s = Ret s' /\ c_closed s' = true /\
    ((exists cs, calls s' = cs ++ [OnClose (Some ErrEOF)] /\ data_of cs = data_of (calls s) ++ inbox s) \/
     (exists e d, closeErr s' = Some (ErrSys e) /\ data_of (calls s') = data_of (calls s) ++ d /\
        d `prefix_of` inbox s)).
Proof.
  intros Hs Hin Hp Hhup Hf Hfuel. unfold handle_event. rewrite Hin. pose proof (len_nonneg (inbox s)).
  destruct (write_phase fuel ev s Hs Hp Hf) as (s1 & -> & Hw). cbn [mbind res_bind].
  rewrite Hhup, no_onRead, sync, (has_hup_error ev Hhup). cbn [negb andb].
  destruct Hw as [[Hs1 Hk]|[Hfa Hd1]].
  - assert (isDatagram (c_typ s1) = false) as ->.
    { destruct Hs1 as [[_ _ _ _ Hst _] _]. by destruct (c_typ s1). }
    cbn [negb]. rewrite orb_true_r. pose proof (kp_patience _ _ Hk). pose proof (kp_poller _ _ Hk) as Hp1. rewrite Hp in Hp1.
    destruct (read_phase fuel true (-1) s1 Hs1 Hp1) as (s2 & -> & d & Hd & Hcase); [rewrite (kp_wait _ _ Hk); lia|].
    cbn [mbind res_bind]. rewrite (kp_wait _ _ Hk), (kp_data _ _ Hk) in *.
    destruct Hcase as [(Hs2 & Hp2 & Hi & Hz)|[Hfa Hpre]].
    + destruct (closeWithError_ok g others (Some ErrEOF) s2 Hs2) as (x & s3 & E3 & (Hc3 & _) & _). rewrite E3. cbn [mbind res_bind].
      exists s3. split; [done|]. split; [done|]. left. unfold closeWithError in E3. rewrite (ok_open _ _ (proj1 Hs2)) in E3.
      apply close_calls in E3 as (Hcalls & _); [|done|apply Hs2]. exists (calls s2). split; [done|].
      rewrite Hd, Hi, Hz, app_nil_r; [done|]. cbn [Z.ltb Z.compare]. lia.
    + destruct (closed_phase fuel true 0 0 s2 (proj1 Hfa) ltac:(lia)) as (_ & _ & ->). cbn [mbind res_bind].
      exists s2. split; [done|]. destruct Hfa as [Hc [e He]]. split; [done|]. right. by exists e, d.
  - destruct Hfa as [Hc [e He]]. pose proof (closed_phase fuel) as Hcl.
    assert (forall b dr, (if b || dr then s ← read_loop rc onData fuel dr (if dr then -1 else max_reads g rc) 0 s1;
        Ret (if isOneshot g then ResetPollerEvent g s else s) else Ret s1) = Ret s1) as Hskip.
    { intros b dr. destruct (b || dr); [|done]. destruct (Hcl dr (if dr then -1 else max_reads g rc) 0 s1 Hc ltac:(lia)) as (-> & Hr & _).
      cbn [mbind res_bind]. by rewrite Hr; destruct (isOneshot g). }
    rewrite Hskip. cbn [mbind res_bind]. destruct (Hcl true 0 0 s1 Hc ltac:(lia)) as (_ & _ & ->). cbn [mbind res_bind].
    exists s1. split; [done|]. split; [done|]. right. exists e, []. rewrite app_nil_r. split; [done|]. split; [done|]. apply prefix_nil.
Qed.

Lemma no_hup ev : has ev epollEventsError = false -> has ev (Z.lor EPOLLHUP EPOLLRDHUP) = false.
Proof. intros H. destruct (has ev (Z.lor EPOLLHUP EPOLLRDHUP)) eqn:E; [|done]. apply has_hup_error in E. congruence. Qed.

(** A reading event in synchronous mode delivers a front part of what the
    kernel had, in order, and leaves the rest with the kernel; in
    edge-triggered mode, where no event announces the rest, nothing is left.
    The connection stays in order, or a system call failed and it is closed. *)
Theorem event_reads fuel ev s :
  settled g others s -> inTable s = true -> hasPoller s = true ->
  has ev epollEventsRead = true -> has ev epollEventsError = false ->
  (flush_fuel s <= fuel)%nat -> len (inbox s) + Z.of_nat (patience (kern s)) < Z.of_nat fuel ->
  exists s' d, handle_event g rc onData onRead asyncRead fuel None ev s = Ret s' /\
    data_of (calls s') = data_of (calls s) ++ d /\
    (settled g others s' /\ inbox s = d ++ inbox s' /\
       (EpollMod g = EPOLLET -> len (inbox s) + Z.of_nat (patience (kern s)) < 2 ^ 31 - 1 -> inbox s' = []) \/
     c_closed s' = true /\ (exists e, closeErr s' = Some (ErrSys e)) /\ d `prefix_of` inbox s).
Proof.
  intros Hs Hin Hp Hrd Herr Hf Hfuel. unfold handle_event. rewrite Hin. pose proof (len_nonneg (inbox s)).
  destruct (write_phase fuel ev s Hs Hp Hf) as (s1 & -> & Hw). cbn [mbind res_bind].
  rewrite Hrd, no_onRead, sync, Herr, (no_hup ev Herr). cbn [negb andb orb].
  destruct Hw as [[Hs1 Hk]|[Hfa Hd1]].
  - pose proof (kp_patience _ _ Hk). pose proof (kp_poller _ _ Hk) as Hp1. rewrite Hp in Hp1.
    destruct (read_phase fuel false (max_reads g rc) s1 Hs1 Hp1) as (s2 & -> & d & Hd & Hcase); [rewrite (kp_wait _ _ Hk); lia|].
    cbn [mbind res_bind]. rewrite (kp_wait _ _ Hk), (kp_data _ _ Hk) in *. exists s2, d. split; [done|]. split; [done|].
    destruct Hcase as [(Hs2 & Hp2 & Hi & Hz)|[[Hc He] Hpre]]; [left|by right].
    split; [done|]. split; [done|]. intros Het Hlim. apply Hz. unfold max_reads. rewrite no_onRead, Het.
    change (negb false && (EPOLLET =? EPOLLET)) with true. cbv iota. change (Z.shiftl 1 31 - 1 <? 0) with false. cbv iota.
    change (Z.shiftl 1 31) with (2 ^ 31). lia.
  - destruct (closed_phase fuel false (max_reads g rc) 0 s1 (proj1 Hfa) ltac:(lia)) as (-> & Hr & _). cbn [mbind res_bind].
    exists s1, []. rewrite app_nil_r. split; [by destruct (isOneshot g); rewrite ?Hr|]. split; [done|]. right.
    split; [apply Hfa|]. split; [apply Hfa|apply prefix_nil].
Qed.
End reading.

(** ** A kernel with input

    The scripted kernel, with what a peer sent to each descriptor and a number
    of reads that will be interrupted. *)
Record inkernel := MkIn { in_k : script; in_data : list (Z * bytes); in_intr : nat }.

Definition inwards {X Y} (f : script -> X * Y * script) (k : inkernel) : X * Y * inkernel :=
  let '(x, y, k') := f (in_k k) in (x, y, MkIn k' (in_data k) (in_intr k)).
Definition inward {X} (f : script -> X * script) (k : inkernel) : X * inkernel :=
  let '(x, k') := f (in_k k) in (x, MkIn k' (in_data k) (in_intr k)).

Definition in_read (fd n : Z) (k : inkernel) : Z * bytes * errno * inkernel :=
  match in_intr k with
  | S i => (-1, [], EINTR, MkIn (in_k k) (in_data k) i)
  | O =>
      match aget fd (in_data k) with
      | Some (x :: w) =>
          let b := take (Z.to_nat n) (x :: w) in
          (len b, b, ENone, MkIn (in_k k) ((fd, drop (Z.to_nat n) (x :: w)) :: in_data k) 0)
      | _ => (-1, [], EAGAIN, k)
      end
  end.

#[export] Instance in_kernel : Kernel inkernel := {
  sys_read := in_read;
  sys_write fd b := inwards (sys_write fd b);
  sys_writev fd bs := inwards (sys_writev fd bs);
  sys_sendfile out inp off count := inwards (sys_sendfile out inp off count);
  sys_sendto fd b := inward (sys_sendto fd b);
  sys_dup src := inwards (sys_dup src);
  sys_close fd := inward (sys_close fd);
  sys_setnonblock fd := inward (sys_setnonblock fd);
  sys_epoll_ctl op fd ev := inward (sys_epoll_ctl op fd ev)
}.

#[export] Instance in_view : KernelView inkernel := {
  sent k := sent (in_k k);
  file k := file (in_k k);
  interest k := interest (in_k k);
  socket k := socket (in_k k);
  patience k := (patience (in_k k) + in_intr k)%nat
}.

#[export] Instance in_receive : ReceiveView inkernel := fun k fd => default [] (aget fd (in_data k)).

Lemma inwards_law {X Y} (f : script -> X * Y * script) k x y k' :
  inwards f k = (x, y, k') -> exists k1, f (in_k k) = (x, y, k1) /\ k' = MkIn k1 (in_data k) (in_intr k).
Proof. unfold inwards. destruct (f (in_k k)) as [[x1 y1] k1]. intros [= <- <- <-]. by exists k1. Qed.

Lemma inward_law {X} (f : script -> X * script) k x k' :
  inward f k = (x, k') -> exists k1, f (in_k k) = (x, k1) /\ k' = MkIn k1 (in_data k) (in_intr k).
Proof. unfold inward. destruct (f (in_k k)) as [x1 k1]. intros [= <- <-]. by exists k1. Qed.

Lemma in_same_fds k k1 d i : same_fds (in_k k) k1 -> same_fds k (MkIn k1 d i).
Proof. intros [F I S]. by split. Qed.

Lemma in_same_but fd k k1 : same_but fd (in_k k) k1 -> same_but fd k (MkIn k1 (in_data k) (in_intr k)).
Proof. intros [S F I So P]. split; cbn in *; try done. lia. Qed.

#[export] Instance in_laws : KernelLaws inkernel.
Proof.
  split.
  - intros fd b k n e k' (k1 & E & ->)%inwards_law. apply write_law in E as (?&?&?&?&?&?&Hi).
    do 2 (split; [done|]). split; [by apply in_same_fds|]. do 2 (split; [done|]). cbn in *. split; [lia|]. intros He.
    specialize (Hi He). lia.
  - intros fd bs k n e k' (k1 & E & ->)%inwards_law. apply writev_law in E as (?&?&?&?&?&?).
    do 2 (split; [done|]). split; [by apply in_same_fds|]. do 2 (split; [done|]). cbn in *. lia.
  - intros out inp off c k n e k' content (k1 & E & ->)%inwards_law Hc Ho.
    apply (sendfile_law _ _ _ _ _ _ _ _ content) in E as (?&?&?&?&?&?&?&Hi); [|done|done].
    do 3 (split; [done|]). split; [by apply in_same_fds|]. do 2 (split; [done|]). cbn in *. split; [lia|]. intros He.
    specialize (Hi He). lia.
  - intros fd k e k' (k1 & E & ->)%inward_law. apply in_same_but. by eapply close_law.
  - intros src k fd e k' (k1 & E & ->)%inwards_law. apply dup_law in E. destruct (decide (e = ENone)).
    + destruct E as (Hb & ?). split; [by apply in_same_but|done].
    + destruct E as (Hb & ?). split; [by apply in_same_but|by apply in_same_fds].
  - intros fd k e k' (k1 & E & ->)%inward_law. apply nonblock_law in E as (?&?&?).
    split; [by apply in_same_fds|]. cbn in *. split; [done|lia].
  - intros op fd ev k e k' (k1 & E & ->)%inward_law. apply epoll_law in E as (?&?&?&?&?&?). cbn in *.
    do 3 (split; [done|]). split; [lia|done].
Qed.

#[export] Instance in_receive_laws : ReceiveLaws inkernel.
Proof.
  split.
  - intros fd n k c b e k' E Hn. cbn in E. unfold in_read in E. unfold waiting, in_receive.
    destruct (in_intr k) as [|i] eqn:Ei; cycle 1.
    { injection E as <- <- <- <-. split; [done|]. split; [by apply Z.lt_le_incl|]. split; [by split|]. split; [done|].
      split; [done|]. split; [done|]. split; [done|]. cbn. rewrite Ei. split; [lia|]. intros _. lia. }
    assert (aget fd (in_data k) = Some [] \/ aget fd (in_data k) = None \/ exists x w, aget fd (in_data k) = Some (x :: w)) as Hcase
      by (destruct (aget fd (in_data k)) as [[|x w]|]; eauto).
    assert (default [] (aget fd (in_data k)) = [] -> in_intr k = 0%nat -> (c, b, e, k') = (-1, [], EAGAIN, k) ->
      default [] (aget fd (in_data k)) = b ++ default [] (aget fd (in_data k')) /\ len b <= n /\ same_fds k k' /\
      (forall x, sent k' x = sent k x) /\ (e = ENone -> c = len b /\ (c < n -> default [] (aget fd (in_data k')) = [])) /\
      (e <> ENone -> c <= 0 /\ b = []) /\ (e = EAGAIN -> default [] (aget fd (in_data k')) = []) /\
      (patience k' <= patience k)%nat /\ (e = EINTR -> (patience k' < patience k)%nat)) as Hagain.
    { intros Hz _ [= -> -> -> ->]. split; [done|]. split; [by apply Z.lt_le_incl|]. by split; [split|]. }
    destruct Hcase as [Ea|[Ea|(x & w & Ea)]]; rewrite Ea in E; [apply Hagain; by rewrite ?Ea..|]. clear Hagain. rewrite Ea.
    injection E as <- <- <- <-. cbn [in_data aget]. rewrite Z.eqb_refl. cbn [default from_option id].
    rewrite take_drop, len_take. split; [done|]. split; [lia|]. split; [by split|]. split; [done|].
    split; [|cbn; rewrite Ei; repeat split; done].
    intros _. split; [done|]. intros Hlt. apply drop_ge. unfold len in *. lia.
  - by intros fd b k n e k' x (k1 & E & ->)%inwards_law.
  - by intros out inp off c k n e k' x (k1 & E & ->)%inwards_law.
  - by intros fd k e k' x (k1 & E & ->)%inward_law Hx.
  - by intros op fd ev k e k' x (k1 & E & ->)%inward_law.
  - intros out inp off c k n e k' (k1 & E & ->)%inwards_law. cbn in *. apply offer_spec in E as (_&_&_&_&_&?&_). cbn in *. lia.
Qed.

(** ** A connection to run *)

Section witness.
#[local] Instance read_allocator : Allocator aligned := aligned_allocator (fun _ => Some 0%nat).
#[local] Instance read_laws : AllocatorLaws aligned := aligned_laws (fun _ => Some 0%nat).

Definition lt_engine : engine := MkEngine 100 EPOLLLT 0 false.
Definition et_engine : engine := MkEngine 100 EPOLLET 0 false.
Definition small_reads : rconf := MkRconf 4 3 false false.

(** The peer sent 17 bytes; one read will be interrupted. *)
Definition read_conn (g : engine) : nbconn inkernel aligned :=
  MkConn (MkIn (MkScript [] [] [] [3] [(3, if EpollMod g =? EPOLLET then 4 else 0)]) [(3, str "one two three end")] 1)
    newAligned 3 ConnTypeTCP 0 [] false false None None None true true [OnOpen].

Definition quiet_handler (b : bytes) (s : nbconn inkernel aligned) : res (nbconn inkernel aligned) := Ret s.

Lemma quiet_handler_ok g : handler_ok g ∅ quiet_handler.
Proof. intros b s Hs. exists s. split; [done|]. split; [done|apply keeps_refl]. Qed.

Lemma read_settled g : settled g ∅ (read_conn g).
Proof.
  split; [|split; [intros H; by destruct H|]].
  - split; [|done|done|apply not_elem_of_nil|done|done].
    split; [constructor|constructor| |constructor|]; [intros x Hx; by apply elem_of_nil in Hx|].
    cbn. rewrite union_empty_l_L. exact aligned_inv_new.
  - intros _ _. cbn. by destruct (EpollMod g =? EPOLLET).
Qed.

Lemma hangup_drained_witness :
  exists s', handle_event lt_engine small_reads quiet_handler Ret Ret 20 None (Z.lor EPOLLIN EPOLLRDHUP) (read_conn lt_engine) = Ret s' /\
    c_closed s' = true /\ data_of (calls s') = str "one two three end".
Proof.
  destruct (hangup_drained lt_engine small_reads ∅ quiet_handler Ret Ret (quiet_handler_ok lt_engine) ltac:(done) eq_refl eq_refl
    20 (Z.lor EPOLLIN EPOLLRDHUP) (read_conn lt_engine) (read_settled lt_engine) eq_refl eq_refl eq_refl) as (s' & E & Hc & Hcase).
  - vm_compute. lia.
  - vm_compute. reflexivity.
  - exists s'. split; [exact E|]. split; [exact Hc|]. vm_compute in E. injection E as <-. vm_compute. reflexivity.
Defined.

Lemma event_reads_witness :
  exists s', handle_event et_engine small_reads quiet_handler Ret Ret 20 None EPOLLIN (read_conn et_engine) = Ret s' /\
    data_of (calls s') = str "one two three end" /\ waiting (kern s') 3 = [].
Proof.
  destruct (event_reads et_engine small_reads ∅ quiet_handler Ret Ret (quiet_handler_ok et_engine) ltac:(done) eq_refl eq_refl
    20 EPOLLIN (read_conn et_engine) (read_settled et_engine) eq_refl eq_refl eq_refl eq_refl) as (s' & d & E & Hd & Hcase).
  - vm_compute. lia.
  - vm_compute. reflexivity.
  - exists s'. split; [exact E|]. vm_compute in E. injection E as <-. split; vm_compute; reflexivity.
Defined.

(** In level-triggered mode three reads are the bound; the rest waits for the
    next event. *)
Example bounded_reads :
  exists s', handle_event lt_engine small_reads quiet_handler Ret Ret 20 None EPOLLIN (read_conn lt_engine) = Ret s' /\
    data_of (calls s') = str "one two " /\ waiting (kern s') 3 = str "three end".
Proof. eexists. split; [vm_compute; reflexivity|]. split; vm_compute; reflexivity. Qed.
End witness.
