(* ===== verification/AsyncRead.v ===== *)
(** * Reading in another goroutine (src/conn_unix.go, AsyncRead)

    In edge-triggered mode with asynchronous reading, the poller hands a read
    loop to the executor for the first reading event of a connection and only
    counts the events that come while it runs ([readEvents]).  Poller, read
    loops, the peer and a close interleave; a step is one atomic operation, one
    system call or one call of a handler. *)

From Stdlib Require Import ZArith Lia.
From Stdlib Require Import Strings.Byte Strings.String.
From stdpp Require Import base numbers list list_numbers.
From S2P Require Import Prelude.

Open Scope Z_scope.

(** The poller: at rest; about to call [IOExecute]; about to take back its
    count of a third event, with the number of counts the read loop took away
    since. *)
Inductive poller_pc := PIdle | PSpawn | PUndo (n : nat).

(** A read loop: before a read, in round [i], with a buffer of [l] bytes;
    about to call the data handler; behind the inner loop, before it takes
    away its count. *)
Inductive reader_pc := RLoop (i l : Z) | RHold (d : bytes) (i l : Z) | RDec (l : Z).

(** [a_queue] is what the kernel has for the connection, [a_edge] an event the
    poller has not seen; [a_arrived] and [a_out], as history, what the peer sent
    and what the data handler got; [a_overtaken] whether read loops took away
    two counts while the poller was about to take back its own. *)
Record astate := MkAsync {
  a_queue : bytes;
  a_edge : bool;
  readEvents : Z;
  a_poller : poller_pc;
  a_readers : list reader_pc;
  a_closed : bool;
  a_arrived : bytes;
  a_out : bytes;
  a_overtaken : bool
}.

Definition a_init : astate := MkAsync [] false 0 PIdle [] false [] [] false.

Inductive alabel :=
| LArrive (d : bytes)
| LHangup
| LPoll
| LSpawn (l : Z)
| LUndo
| LRead (r : nat) (n : Z)
| LData (r : nat)
| LAgain (r : nat)
| LIntr (r : nat)
| LFail (r : nat)
| LRounds (r : nat)
| LDec (r : nat)
| LClose.

Section machine.
Context (MaxReads : Z).

Definition with_reader (r : nat) (pc : reader_pc) (s : astate) : astate :=
  MkAsync (a_queue s) (a_edge s) (readEvents s) (a_poller s) (<[r := pc]> (a_readers s)) (a_closed s)
    (a_arrived s) (a_out s) (a_overtaken s).
Definition without_reader (r : nat) (s : astate) : astate :=
  MkAsync (a_queue s) (a_edge s) (readEvents s) (a_poller s) (delete r (a_readers s)) (a_closed s)
    (a_arrived s) (a_out s) (a_overtaken s).
Definition with_poller (pc : poller_pc) (cnt : Z) (edge : bool) (s : astate) : astate :=
  MkAsync (a_queue s) edge cnt pc (a_readers s) (a_closed s) (a_arrived s) (a_out s) (a_overtaken s).

(** The reading event of a connection: its part up to the call of [IOExecute]. *)
Definition async_event (s : astate) : astate :=
  let cnt := readEvents s + 1 in
  if 2 <? cnt then with_poller (PUndo 0) cnt false s
  else if 1 <? cnt then with_poller PIdle cnt false s
  else with_poller PSpawn cnt false s.

(** A read of a stream: [n] bytes, which are the buffer's new length. *)
Definition async_read (r : nat) (n i l : Z) (s : astate) : astate :=
  MkAsync (drop (Z.to_nat n) (a_queue s)) (a_edge s) (readEvents s) (a_poller s)
    (<[r := RHold (take (Z.to_nat n) (a_queue s)) i n]> (a_readers s)) (a_closed s) (a_arrived s) (a_out s)
    (a_overtaken s).

(** The data handler, then the test for a short read. *)
Definition async_data (r : nat) (d : bytes) (i l : Z) (s : astate) : astate :=
  let pc := if len d <? l then RDec l else RLoop (i + 1) l in
  MkAsync (a_queue s) (a_edge s) (readEvents s) (a_poller s) (<[r := pc]> (a_readers s)) (a_closed s)
    (a_arrived s) (a_out s ++ d) (a_overtaken s).

(** The end of a pass over the kernel's buffer. *)
Definition async_dec (r : nat) (l : Z) (s : astate) : astate :=
  let cnt := readEvents s - 1 in
  let s := MkAsync (a_queue s) (a_edge s) cnt
             (match a_poller s with PUndo n => PUndo (S n) | p => p end) (a_readers s) (a_closed s)
             (a_arrived s) (a_out s)
             (a_overtaken s || match a_poller s with PUndo (S _) => true | _ => false end) in
  if cnt =? 0 then without_reader r s else with_reader r (RLoop 0 l) s.

Definition set_aclosed (s : astate) : astate :=
  MkAsync (a_queue s) (a_edge s) (readEvents s) (a_poller s) (a_readers s) true (a_arrived s) (a_out s) (a_overtaken s).

Definition aexec (x : alabel) (s : astate) : option astate :=
  match x with
  | LArrive d =>
      Some (MkAsync (a_queue s ++ d) true (readEvents s) (a_poller s) (a_readers s) (a_closed s)
              (a_arrived s ++ d) (a_out s) (a_overtaken s))
  | LHangup => Some (with_poller (a_poller s) (readEvents s) true s)
  | LPoll =>
      match a_poller s, a_edge s with
      | PIdle, true => Some (if a_closed s then with_poller PIdle (readEvents s) false s else async_event s)
      | _, _ => None
      end
  | LSpawn l =>
      match a_poller s with
      | PSpawn =>
          if 0 <? l then
            Some (MkAsync (a_queue s) (a_edge s) (readEvents s) PIdle (a_readers s ++ [RLoop 0 l]) (a_closed s)
                    (a_arrived s) (a_out s) (a_overtaken s))
          else None
      | _ => None
      end
  | LUndo =>
      match a_poller s with
      | PUndo _ => Some (with_poller PIdle (readEvents s - 1) (a_edge s) s)
      | _ => None
      end
  | LRead r n =>
      match a_readers s !! r with
      | Some (RLoop i l) =>
          if (i <? MaxReads) && negb (a_closed s) && (0 <? n) && (n <=? l) && (n <=? len (a_queue s))
          then Some (async_read r n i l s) else None
      | _ => None
      end
  | LData r =>
      match a_readers s !! r with
      | Some (RHold d i l) => Some (async_data r d i l s)
      | _ => None
      end
  | LAgain r =>
      match a_readers s !! r with
      | Some (RLoop i l) =>
          if (i <? MaxReads) && negb (a_closed s) && bool_decide (a_queue s = []) then Some (with_reader r (RDec l) s) else None
      | _ => None
      end
  | LIntr r =>
      match a_readers s !! r with
      | Some (RLoop i l) => if (i <? MaxReads) && negb (a_closed s) then Some (with_reader r (RLoop (i + 1) l) s) else None
      | _ => None
      end
  | LFail r =>
      match a_readers s !! r with
      | Some (RLoop i l) => if i <? MaxReads then Some (set_aclosed (without_reader r s)) else None
      | _ => None
      end
  | LRounds r =>
      match a_readers s !! r with
      | Some (RLoop i l) => if i <? MaxReads then None else Some (with_reader r (RDec l) s)
      | _ => None
      end
  | LDec r =>
      match a_readers s !! r with
      | Some (RDec l) => Some (async_dec r l s)
      | _ => None
      end
  | LClose => Some (set_aclosed s)
  end.

Fixpoint arun (xs : list alabel) (s : astate) : option astate :=
  match xs with
  | [] => Some s
  | x :: xs => s ← aexec x s; arun xs s
  end.

(** ** The invariant *)

Definition held (s : astate) : bytes :=
  concat (map (fun pc => match pc with RHold d _ _ => d | _ => [] end) (a_readers s)).

(** A round counter that is within the steps taken. *)
Definition rounds_le (m : Z) (pc : reader_pc) : Prop :=
  match pc with
  | RLoop i l => i <= m /\ 0 < l
  | RHold d i l => i <= m /\ len d = l /\ 0 < l
  | RDec l => 0 < l
  end.

(** Who reads what is in the kernel: an event not seen yet, the loop about to
    be started, a loop before its end, or a count that makes it go round. *)
Definition noticed (s : astate) : Prop :=
  a_queue s <> [] -> a_edge s = true \/
  match a_poller s, a_readers s with
  | PSpawn, _ => True
  | _, RLoop _ _ :: _ => True
  | _, RHold _ _ _ :: _ => True
  | PIdle, [RDec _] => readEvents s = 2
  | PUndo n, [RDec _] => n = 0%nat
  | _, _ => False
  end.

(** The count, the poller and the read loops of an open connection. *)
Definition counted (s : astate) : Prop :=
  match a_poller s, a_readers s with
  | PIdle, [] => readEvents s = 0
  | PSpawn, [] => readEvents s = 1
  | PIdle, [_] => readEvents s = 1 \/ readEvents s = 2
  | PUndo n, [_] => (n <= 1)%nat /\ readEvents s = 3 - Z.of_nat n
  | _, _ => False
  end.

(** At most one loop, also after a close. *)
Definition single (s : astate) : Prop :=
  match a_poller s, a_readers s with
  | PSpawn, [] | PIdle, [] | PUndo _, [] | PIdle, [_] | PUndo _, [_] => True
  | _, _ => False
  end.

Record a_inv (m : Z) (s : astate) : Prop := {
  ai_single : single s;
  ai_rounds : Forall (rounds_le m) (a_readers s);
  ai_data : a_arrived s = a_out s ++ held s ++ a_queue s;
  ai_open : a_closed s = false -> counted s /\ noticed s
}.

Lemma rounds_le_mono m m' pc : m <= m' -> rounds_le m pc -> rounds_le m' pc.
Proof. destruct pc; cbn; intuition lia. Qed.

Lemma single_lookup s r pc :
  single s -> a_readers s !! r = Some pc -> r = 0%nat /\ a_readers s = [pc] /\ a_poller s <> PSpawn.
Proof.
  unfold single. intros Hs Hr. destruct (a_poller s), (a_readers s) as [|pc' [|? ?]]; try done;
    destruct r as [|r]; try done; by injection Hr as <-.
Qed.

Lemma one_reader m pc : Forall (rounds_le m) [pc] -> rounds_le m pc.
Proof. intros H. by apply Forall_cons in H as [? _]. Qed.

(** Goals about a state given by its fields. *)
Ltac fields :=
  unfold single, counted, noticed, held in *;
  cbn [a_queue a_edge readEvents a_poller a_readers a_closed a_arrived a_out a_overtaken with_reader without_reader
       with_poller set_aclosed map concat app insert list_insert delete list_delete] in *.

(** The reader of an open connection goes on with [pc], which keeps reading. *)
Lemma a_goes_on m s pc pc' :
  a_inv m s -> a_readers s = [pc] -> a_closed s = false -> a_poller s <> PSpawn ->
  match pc' with RDec _ => a_queue s = [] | _ => True end ->
  match pc, pc' with RHold _ _ _, _ | _, RHold _ _ _ => False | _, _ => True end ->
  rounds_le (m + 1) pc' -> a_inv (m + 1) (with_reader 0 pc' s).
Proof.
  intros [Hs Hr Hd Ho] Er Hc Hp Hq Hh Hpc. destruct (Ho Hc) as [H1 H2]. fields. rewrite Er in *.
  split; fields; rewrite ?Er; fields.
  - by destruct (a_poller s).
  - by apply Forall_singleton.
  - by destruct pc, pc'.
  - intros _. split; [by destruct (a_poller s)|]. intros Hne. destruct pc' as [| |l]; [| |congruence];
      right; by destruct (a_poller s).
Qed.

Lemma a_step_env m x s s' :
  a_inv m s -> match x with LArrive _ | LHangup | LClose => True | _ => False end ->
  aexec x s = Some s' -> a_inv (m + 1) s'.
Proof.
  intros [Hs Hr Hd Ho] Hx E.
  assert (Forall (rounds_le (m + 1)) (a_readers s)) as Hr1.
  { eapply Forall_impl; [exact Hr|]. intros pc. apply rounds_le_mono. lia. }
  destruct x; try done; injection E as <-; split; fields; try done.
  - by rewrite Hd, <- !app_assoc.
  - intros Hc. destruct (Ho Hc) as [H1 H2]. split; [done|]. intros _. by left.
  - intros Hc. destruct (Ho Hc) as [H1 H2]. split; [done|]. intros _. by left.
Qed.

Lemma a_step_poller m x s s' :
  0 <= m -> a_inv m s -> match x with LPoll | LSpawn _ | LUndo => True | _ => False end ->
  aexec x s = Some s' -> a_inv (m + 1) s'.
Proof.
  intros Hm [Hs Hr Hd Ho] Hx E.
  assert (Forall (rounds_le (m + 1)) (a_readers s)) as Hr1.
  { eapply Forall_impl; [exact Hr|]. intros pc. apply rounds_le_mono. lia. }
  destruct x as [ | | |l| | | | | | | | | ]; try done; cbn [aexec] in E.
  - destruct (a_poller s) eqn:Ep, (a_edge s) eqn:Ee; try done. injection E as <-. destruct (a_closed s) eqn:Ec.
    + split; fields; try rewrite Ep in *; try done. intros Hc. congruence.
    + destruct (Ho eq_refl) as [H1 H2]. unfold async_event. fields. rewrite Ep in *.
      destruct (a_readers s) as [|pc [|? ?]] eqn:Er; try done.
      * rewrite H1. change (0 + 1) with 1. cbn [Z.ltb Z.compare Pos.compare Pos.compare_cont].
        split; fields; rewrite ?Er in *; try done. intros _. split; [done|]. by right.
      * destruct H1 as [H1|H1]; rewrite H1; [change (1 + 1) with 2|change (2 + 1) with 3];
          cbn [Z.ltb Z.compare Pos.compare Pos.compare_cont]; (split; fields; rewrite ?Er in *; [done|done|done|]);
          intros _; (split; [cbn; lia|]); intros _; right; by destruct pc.
  - destruct (a_poller s) eqn:Ep; try done. destruct (Z.ltb_spec 0 l) as [Hl|]; [|done]. injection E as <-.
    fields. rewrite Ep in *. destruct (a_readers s) as [|pc rs] eqn:Er; [|done].
    split; fields; [done| |done|].
    + apply Forall_singleton. cbn. lia.
    + intros Hc. destruct (Ho Hc) as [H1 H2]. split; [by left|]. intros _. by right.
  - destruct (a_poller s) as [| |n] eqn:Ep; try done. injection E as <-. fields. rewrite Ep in *.
    destruct (a_readers s) as [|pc [|? ?]] eqn:Er; try done.
    + split; fields; rewrite ?Er; try done. intros Hc. by destruct (Ho Hc).
    + split; fields; rewrite ?Er; try done. intros Hc. destruct (Ho Hc) as [[H1 H2] H3]. split; [lia|].
      intros Hq. destruct (H3 Hq) as [H4|H4]; [by left|]. right. destruct pc; try done. subst n. lia.
Qed.

Lemma a_step_read m x s s' :
  0 <= m < MaxReads -> a_inv m s ->
  match x with LRead _ _ | LAgain _ | LIntr _ | LFail _ | LRounds _ => True | _ => False end ->
  aexec x s = Some s' -> a_inv (m + 1) s'.
Proof.
  intros Hm Hi Hx E. pose proof Hi as [Hs Hr Hd Ho].
  destruct x as [ | | | | |r n| |r|r|r|r| | ]; try done; cbn [aexec] in E;
    (destruct (a_readers s !! r) as [[i l| |]|] eqn:Er; try done);
    destruct (single_lookup s r _ Hs Er) as (-> & Er' & Hp);
    (assert (i <= m /\ 0 < l) as [Him Hl] by (rewrite Er' in Hr; exact (one_reader _ _ Hr))).
  - destruct (_ && _) eqn:Eg; [|done]. injection E as <-.
    rewrite !andb_true_iff, negb_true_iff, !Z.ltb_lt, !Z.leb_le in Eg. destruct Eg as ((((Hi1 & Hc) & Hn) & Hnl) & Hq).
    destruct (Ho Hc) as [H1 H2]. unfold async_read. fields. rewrite Er' in *. split; fields.
    + done.
    + apply Forall_singleton. cbn. rewrite len_take. lia.
    + rewrite Hd. cbn. by rewrite app_nil_r, take_drop.
    + intros _. split; [done|]. intros _. right. by destruct (a_poller s).
  - destruct (_ && _) eqn:Eg; [|done]. injection E as <-.
    rewrite !andb_true_iff, negb_true_iff, bool_decide_eq_true in Eg. destruct Eg as ((_ & Hc) & Hq).
    by apply (a_goes_on m s (RLoop i l)).
  - destruct (_ && _) eqn:Eg; [|done]. injection E as <-. rewrite andb_true_iff, negb_true_iff in Eg.
    apply (a_goes_on m s (RLoop i l)); try done; [apply Eg|cbn; lia].
  - destruct (_ <? _); [|done]. injection E as <-. fields. rewrite Er' in *. split; fields; rewrite ?Er'; fields; try done.
    by destruct (a_poller s).
  - destruct (Z.ltb_spec i MaxReads); [done|]. lia.
Qed.

Lemma a_step_end m x s s' :
  a_inv m s -> 0 <= m -> match x with LData _ | LDec _ => True | _ => False end ->
  aexec x s = Some s' -> a_overtaken s' = false -> a_inv (m + 1) s'.
Proof.
  intros [Hs Hr Hd Ho] Hm Hx E Hov. destruct x as [ | | | | | |r| | | | |r| ]; try done; cbn [aexec] in E.
  - destruct (a_readers s !! r) as [[|d i l|]|] eqn:Er; try done.
    destruct (single_lookup s r _ Hs Er) as (-> & Er' & Hp). injection E as <-. unfold async_data.
    rewrite Er' in *. destruct (one_reader _ _ Hr) as (Hri & Hrl & Hrp). rewrite Hrl, Z.ltb_irrefl.
    fields. rewrite Er' in *. split; fields.
    + done.
    + apply Forall_singleton. cbn. lia.
    + rewrite Hd. cbn. by rewrite app_nil_r, <- app_assoc.
    + intros Hc. destruct (Ho Hc) as [H1 H2]. split; [done|]. intros _. right. by destruct (a_poller s).
  - destruct (a_readers s !! r) as [[| |l]|] eqn:Er; try done.
    destruct (single_lookup s r _ Hs Er) as (-> & Er' & Hp). injection E as <-. unfold async_dec in *.
    assert (0 < l) as Hl by (rewrite Er' in Hr; exact (one_reader _ _ Hr)).
    fields. rewrite Er' in *. destruct (Z.eqb_spec (readEvents s - 1) 0) as [Hz|Hz]; split; fields; rewrite ?Er'; fields.
    + by destruct (a_poller s).
    + constructor.
    + done.
    + intros Hc. destruct (Ho Hc) as [H1 H2]. destruct (a_poller s) as [| |n]; [|done|].
      * split; [lia|]. intros Hq. destruct (H2 Hq) as [?|?]; [by left|lia].
      * destruct n as [|n]; [lia|]. apply orb_false_iff in Hov as [_ Hov]. done.
    + by destruct (a_poller s).
    + apply Forall_singleton. cbn. lia.
    + done.
    + intros Hc. destruct (Ho Hc) as [H1 H2]. destruct (a_poller s) as [| |n]; [|done|].
      * split; [lia|]. intros _. by right.
      * destruct n as [|n]; [|apply orb_false_iff in Hov as [_ Hov]; done]. split; [lia|]. intros _. by right.
Qed.

Lemma a_step m x s s' :
  0 <= m < MaxReads -> a_inv m s -> aexec x s = Some s' -> a_overtaken s' = false -> a_inv (m + 1) s'.
Proof.
  intros Hm Hi E Hov.
  destruct x; first [ refine (a_step_env m _ s s' Hi _ E); exact I | refine (a_step_read m _ s s' Hm Hi _ E); exact I
                    | refine (a_step_poller m _ s s' (proj1 Hm) Hi _ E); exact I
                    | refine (a_step_end m _ s s' Hi (proj1 Hm) _ E Hov); exact I ].
Qed.

(** Once overtaken, always overtaken. *)
Lemma overtaken_stays x s s' : aexec x s = Some s' -> a_overtaken s' = false -> a_overtaken s = false.
Proof.
  intros E H. destruct x; cbn [aexec] in E; unfold async_event, async_dec in E; repeat case_match; try done;
    injection E as <-; cbn in H; try done; by apply orb_false_iff in H as [? _].
Qed.

Lemma arun_inv xs : forall m s s',
  0 <= m -> m + len xs < MaxReads -> a_inv m s -> arun xs s = Some s' -> a_overtaken s' = false ->
  a_overtaken s = false /\ a_inv (m + len xs) s'.
Proof.
  induction xs as [|x xs IH]; intros m s s' Hm Hb Hi E Hov; cbn [arun] in E.
  - injection E as <-. unfold len. cbn. by rewrite Z.add_0_r.
  - destruct (aexec x s) as [s1|] eqn:E1; [|done]. cbn [mbind option_bind] in E.
    assert (len (x :: xs) = 1 + len xs) as Hl by (unfold len; cbn; lia). pose proof (len_nonneg xs).
    assert (a_overtaken s1 = false) as Hov1.
    { clear IH Hi Hb Hl H E1. revert s1 E. induction xs as [|y xs IH]; intros s1 E; cbn [arun] in E; [congruence|].
      destruct (aexec y s1) as [s2|] eqn:E2; [|done]. eapply overtaken_stays; [done|]. by eapply IH. }
    split; [by eapply overtaken_stays|]. rewrite Hl.
    replace (m + (1 + len xs)) with (m + 1 + len xs) by lia. eapply IH; [lia|lia| |done|done].
    eapply a_step; [|done..]. lia.
Qed.

Lemma a_init_inv : a_inv 0 a_init.
Proof. split; [done|constructor|done|]. intros _. split; [done|]. intros H. by destruct H. Qed.

(** C14: asynchronous reading loses nothing and keeps the order.  However the
    poller, the read loop, the peer and a close interleave, there is at most one
    read loop, and what the peer sent is what the handler got, what the loop
    holds and what the kernel has, in this order; when no loop runs, the poller
    is at rest and no event waits, an open connection has handed everything to
    the handler.  This is so until the read loop goes round twice between the
    two updates of the poller's count of a third event. *)
Theorem async_read_complete (xs : list alabel) (s : astate) :
  arun xs a_init = Some s -> len xs < MaxReads -> a_overtaken s = false ->
  (length (a_readers s) <= 1)%nat /\
  a_arrived s = a_out s ++ held s ++ a_queue s /\
  (a_closed s = false -> a_readers s = [] -> a_poller s = PIdle -> a_edge s = false -> a_out s = a_arrived s).
Proof.
  intros E Hl Hov. destruct (arun_inv xs 0 a_init s ltac:(lia) ltac:(lia) a_init_inv E Hov) as [_ [Hs Hr Hd Ho]].
  split; [|split; [done|]].
  - unfold single in Hs. destruct (a_poller s), (a_readers s) as [|? [|? ?]]; cbn; try done; lia.
  - intros Hc Hn Hp He. destruct (Ho Hc) as [_ Hq]. unfold noticed, held in *. rewrite Hn, Hp, He in *.
    destruct (a_queue s); [by rewrite Hd, app_nil_r|]. by destruct (Hq ltac:(done)).
Qed.
End machine.

(** Three events, of which the last finds the loop already asked to go round. *)
Definition async_trace : list alabel :=
  [LArrive (str "ab"); LPoll; LSpawn 4; LRead 0 1; LArrive (str "cd"); LPoll; LArrive (str "e"); LPoll;
   LData 0; LUndo; LRead 0 1; LData 0; LIntr 0; LRead 0 1; LData 0; LRead 0 1; LData 0; LRead 0 1; LData 0;
   LAgain 0; LDec 0; LAgain 0; LDec 0].

Lemma async_read_complete_witness :
  exists s, arun (2 ^ 31 - 1) async_trace a_init = Some s /\ a_out s = str "abcde" /\ a_readers s = [].
Proof.
  destruct (arun (2 ^ 31 - 1) async_trace a_init) as [s|] eqn:E; [|vm_compute in E; discriminate].
  destruct (async_read_complete (2 ^ 31 - 1) async_trace s E) as (_ & _ & H).
  - vm_compute. reflexivity.
  - vm_compute in E. injection E as <-. reflexivity.
  - exists s. split; [reflexivity|]. vm_compute in E. injection E as <-. split; [|reflexivity].
    rewrite H; reflexivity.
Defined.

(** ** Where the code falls short *)

(** The loop ends while the poller is about to take back its count: the count
    becomes negative, and from then on every event starts a loop of its own.
    Two loops deliver what they read in the wrong order. *)
Definition overtaking : list alabel :=
  [LArrive (str "a"); LPoll; LSpawn 4; LArrive (str "b"); LPoll; LArrive (str "c"); LPoll;
   LRead 0 3; LData 0; LAgain 0; LDec 0; LAgain 0; LDec 0; LAgain 0; LDec 0; LUndo;
   LArrive (str "d"); LPoll; LSpawn 4; LRead 0 1; LArrive (str "e"); LPoll; LSpawn 4; LRead 1 1; LData 1; LData 0].

Lemma async_overtaken :
  exists s, arun (2 ^ 31 - 1) overtaking a_init = Some s /\ length (a_readers s) = 2%nat /\
    a_arrived s = str "abcde" /\ a_out s = str "abced".
Proof. eexists. split; [vm_compute; reflexivity|]. vm_compute. done. Qed.

(** The inner loop on datagrams: a read takes as much of a datagram as the
    buffer holds, and the buffer keeps the length of what was read. *)
Fixpoint read_datagrams (l : nat) (ds : list bytes) : list bytes * nat :=
  match ds with
  | [] => ([], l)
  | d :: ds =>
      let b := take l d in
      let l := match b with [] => l | _ => length b end in
      let '(out, l) := read_datagrams l ds in
      (match b with [] => out | _ => b :: out end, l)
  end.

(** A datagram behind a shorter one is cut. *)
Lemma datagram_cut : (read_datagrams 65536 [str "hi"; str "hello"]).1 = [str "hi"; str "he"].
Proof. vm_compute. reflexivity. Qed.
