(* ===== verification/JobList.v ===== *)
(** * The job list of a connection (src/conn.go, Execute)

    [Execute] and [MustExecute] append a job under the lock; the caller that
    finds the list empty hands a runner to the engine's executor.  Runners are
    goroutines: each step below is one critical section, one hand-over or the
    start or the end of a job, and steps of different goroutines interleave
    freely.  Nothing in the steps limits the number of runners: that there is
    at most one is a theorem. *)

From Stdlib Require Import ZArith Lia.
From stdpp Require Import base numbers list relations.
From S2P Require Import Prelude.

Section jobs.
Context {job : Type}.

(** Where a runner is: handed to the executor with its first job; running job
    number [i] of the list; back from job number [i], before the lock. *)
Inductive runner :=
| Waiting (j : job)
| Running (i : nat) (j : job)
| Returned (i : nat).

(** [jobList] with the entries set to nil; the runners; and, as history, the
    jobs accepted, the jobs started and the jobs ended. *)
Record jstate := MkJ {
  jobList : list (option job);
  runners : list runner;
  j_closed : bool;
  accepted : list job;
  started : list job;
  ended : list job
}.

Definition j_init : jstate := MkJ [] [] false [] [] [].

(** The body of [Execute] and [MustExecute] once the job is admitted: append,
    and hand over a runner when the job is the head. *)
Definition push_job (j : job) (s : jstate) : jstate :=
  let isHead := bool_decide (jobList s = []) in
  MkJ (jobList s ++ [Some j]) (if isHead then runners s ++ [Waiting j] else runners s)
    (j_closed s) (accepted s ++ [j]) (started s) (ended s).

Definition Execute (j : job) (s : jstate) : bool * jstate :=
  if j_closed s then (false, s) else (true, push_job j s).

Definition MustExecute (j : job) (s : jstate) : jstate := push_job j s.

(** The critical section between two jobs of [execute]: the list is emptied
    when the runner is at its end, else the next job is taken from it.  [None]
    is a panic or a nil job. *)
Definition next_job (i : nat) (l : list (option job)) : option (option (nat * job) * list (option job)) :=
  let i := S i in
  if bool_decide (length l = i) then Some (None, [])
  else
    match l !! i with
    | Some (Some j) => Some (Some (i, j), <[i := None]> l)
    | _ => None
    end.

Definition set_runner (n : nat) (r : runner) (s : jstate) : jstate :=
  MkJ (jobList s) (<[n := r]> (runners s)) (j_closed s) (accepted s) (started s) (ended s).

Inductive jstep : jstate -> jstate -> Prop :=
| J_Execute j s b s' :
    Execute j s = (b, s') -> jstep s s'
| J_MustExecute j s :
    jstep s (MustExecute j s)
| J_close s :
    jstep s (MkJ (jobList s) (runners s) true (accepted s) (started s) (ended s))
| J_begin n j s :
    runners s !! n = Some (Waiting j) ->
    jstep s (MkJ (jobList s) (<[n := Running 0 j]> (runners s)) (j_closed s) (accepted s)
               (started s ++ [j]) (ended s))
| J_end n i j s :
    (** the job returns, or panics and is recovered *)
    runners s !! n = Some (Running i j) ->
    jstep s (MkJ (jobList s) (<[n := Returned i]> (runners s)) (j_closed s) (accepted s)
               (started s) (ended s ++ [j]))
| J_next n i i' j l s :
    runners s !! n = Some (Returned i) -> next_job i (jobList s) = Some (Some (i', j), l) ->
    jstep s (MkJ l (<[n := Running i' j]> (runners s)) (j_closed s) (accepted s)
               (started s ++ [j]) (ended s))
| J_done n i l s :
    runners s !! n = Some (Returned i) -> next_job i (jobList s) = Some (None, l) ->
    jstep s (MkJ l (delete n (runners s)) (j_closed s) (accepted s) (started s) (ended s)).

Definition reachable (s : jstate) : Prop := rtc jstep j_init s.

(** ** The invariant *)

(** The list holds the jobs of one round: those behind [prev], of which the
    first [k] were taken. *)
Definition round (prev q : list job) (taken : nat) (l : list (option job)) : Prop :=
  length l = length q /\ forall n, (taken <= n)%nat -> l !! n = Some <$> q !! n.

Inductive j_inv : jstate -> Prop :=
| inv_idle c acc :
    j_inv (MkJ [] [] c acc acc acc)
| inv_waiting prev j q l c :
    round prev (j :: q) 1 l ->
    j_inv (MkJ l [Waiting j] c (prev ++ j :: q) prev prev)
| inv_running prev q i j l c :
    round prev q (S i) l -> q !! i = Some j ->
    j_inv (MkJ l [Running i j] c (prev ++ q) (prev ++ take (S i) q) (prev ++ take i q))
| inv_returned prev q i j l c :
    round prev q (S i) l -> q !! i = Some j ->
    j_inv (MkJ l [Returned i] c (prev ++ q) (prev ++ take (S i) q) (prev ++ take (S i) q)).

Lemma round_push prev q k l j : (k <= length q)%nat -> round prev q k l -> round prev (q ++ [j]) k (l ++ [Some j]).
Proof.
  intros Hk [Hl Hn]. split; [by rewrite !length_app, Hl|]. intros n Hkn.
  destruct (decide (n < length q)%nat) as [Hlt|Hge].
  - rewrite !lookup_app_l by lia. by apply Hn.
  - rewrite !lookup_app_r by lia. rewrite Hl. by destruct (n - length q)%nat.
Qed.

Lemma round_nonempty prev q k l : q <> [] -> round prev q k l -> l <> [].
Proof. intros Hq [Hl _] ->. by destruct q. Qed.

(** An admitted job joins the round; with no round it starts one. *)
Lemma push_inv j s : j_inv s -> j_inv (push_job j s).
Proof.
  destruct 1 as [c acc|prev j0 q l c Hr|prev q i j0 l c Hr Hj|prev q i j0 l c Hr Hj]; unfold push_job; cbn.
  - apply (inv_waiting acc j []). split; [done|].
    intros [|n] Hn; [lia|done].
  - rewrite bool_decide_false by (by apply (round_nonempty prev (j0 :: q) 1)). rewrite <- app_assoc.
    apply (inv_waiting prev j0 (q ++ [j])). change (j0 :: q ++ [j]) with ((j0 :: q) ++ [j]).
    apply round_push; [cbn; lia|done].
  - assert (i < length q)%nat as Hi by (by eapply lookup_lt_Some).
    rewrite bool_decide_false by (apply (round_nonempty prev q (S i)); [by intros -> |done]). rewrite <- app_assoc.
    rewrite <- (take_app_le q [j] (S i)), <- (take_app_le q [j] i) by lia.
    apply inv_running; [apply round_push; [lia|done]|by rewrite lookup_app_l].
  - assert (i < length q)%nat as Hi by (by eapply lookup_lt_Some).
    rewrite bool_decide_false by (apply (round_nonempty prev q (S i)); [by intros -> |done]). rewrite <- app_assoc.
    rewrite <- (take_app_le q [j] (S i)) by lia.
    apply (inv_returned prev (q ++ [j]) i j0); [apply round_push; [lia|done]|by rewrite lookup_app_l].
Qed.
(** Taking the next job of a round. *)
Lemma next_job_inv prev q i j l :
  round prev q (S i) l -> q !! i = Some j ->
  match q !! S i with
  | None => next_job i l = Some (None, []) /\ length q = S i
  | Some j' => exists l', next_job i l = Some (Some (S i, j'), l') /\ round prev q (S (S i)) l'
  end.
Proof.
  intros [Hl Hn] Hi. apply lookup_lt_Some in Hi as Hlt. unfold next_job.
  destruct (q !! S i) as [j'|] eqn:E.
  - apply lookup_lt_Some in E as Hlt'. rewrite bool_decide_false by lia.
    rewrite (Hn (S i)), E by lia. cbn. eexists. split; [done|]. split; [by rewrite length_insert|].
    intros n Hle. rewrite list_lookup_insert_ne by lia. apply Hn. lia.
  - apply lookup_ge_None in E. rewrite bool_decide_true by lia. split; [done|lia].
Qed.

Lemma one_runner (r r' : runner) n : [r] !! n = Some r' -> n = 0%nat /\ r' = r.
Proof. destruct n as [|[|n]]; cbn; [by intros [= ->]|done|done]. Qed.

Lemma jstep_inv s s' : j_inv s -> jstep s s' -> j_inv s'.
Proof.
  intros Hinv Hs. destruct Hs as [j s b s' He|j s|s|n j s Hn|n i j s Hn|n i i' j l s Hn Hnext|n i l s Hn Hnext].
  - unfold Execute in He. destruct (j_closed s); injection He as <- <-; [done|by apply push_inv].
  - by apply push_inv.
  - destruct Hinv; cbn; by econstructor.
  - destruct Hinv as [|prev j0 q l c Hr| |]; cbn in *; [done| |by apply one_runner in Hn as []..].
    apply one_runner in Hn as [-> [= ->]]. cbn.
    pose proof (inv_running prev (j0 :: q) 0 j0 l c Hr eq_refl) as H. cbn in H. by rewrite app_nil_r in H.
  - destruct Hinv as [| |prev q i0 j0 l c Hr Hj|]; cbn in *; [done|by apply one_runner in Hn as []| |by apply one_runner in Hn as []].
    apply one_runner in Hn as [-> [= -> ->]]. cbn. rewrite <- app_assoc.
    rewrite <- (take_S_r q i0 j0) by done. by eapply inv_returned.
  - destruct Hinv as [| | |prev q i0 j0 l0 c Hr Hj]; cbn in *; [done|by apply one_runner in Hn as []..|].
    apply one_runner in Hn as [-> [= ->]]. cbn. pose proof (next_job_inv prev q i0 j0 l0 Hr Hj) as H.
    destruct (q !! S i0) as [j'|] eqn:E; [|destruct H; congruence]. destruct H as (l' & Hx & Hr').
    rewrite Hnext in Hx. injection Hx as -> -> ->. rewrite <- app_assoc.
    rewrite <- (take_S_r q (S i0) j') by done. by eapply inv_running.
  - destruct Hinv as [| | |prev q i0 j0 l0 c Hr Hj]; cbn in *; [done|by apply one_runner in Hn as []..|].
    apply one_runner in Hn as [-> [= ->]]. cbn. pose proof (next_job_inv prev q i0 j0 l0 Hr Hj) as H.
    destruct (q !! S i0) as [j'|] eqn:E; [destruct H as (? & ? & _); congruence|]. destruct H as [Hx Hlen].
    rewrite Hnext in Hx. injection Hx as ->. rewrite take_ge by lia. apply inv_idle.
Qed.

Lemma reachable_inv s : reachable s -> j_inv s.
Proof.
  unfold reachable. generalize (inv_idle false []). fold j_init. generalize j_init.
  intros s0 H0 H. induction H as [|s0 s1 s2 Hs _ IH]; [done|]. apply IH. by eapply jstep_inv.
Qed.

(** C13: in every interleaving the jobs accepted so far are the jobs ended, the
    one running if any, and the jobs still to run, in the order in which they
    were accepted; there is at most one runner; and no runner is left only when
    every job has ended. *)
Theorem jobs_in_order s :
  reachable s ->
  (length (runners s) <= 1)%nat /\
  ended s `prefix_of` started s /\ started s `prefix_of` accepted s /\
  (length (started s) <= length (ended s) + 1)%nat /\
  (runners s = [] -> ended s = accepted s /\ jobList s = []).
Proof.
  intros H%reachable_inv. destruct H as [c acc|prev j q l c Hr|prev q i j l c Hr Hj|prev q i j l c Hr Hj]; cbn.
  - split; [lia|]. split; [done|]. split; [done|]. split; [lia|done].
  - split; [done|]. split; [done|]. split; [by apply prefix_app_r|]. split; [lia|done].
  - split; [done|]. split; [apply prefix_app; exists [j]; by apply take_S_r|].
    split; [apply prefix_app; exists (drop (S i) q); by rewrite take_drop|].
    split; [|done]. rewrite !length_app, !length_take. lia.
  - split; [done|]. split; [done|]. split; [apply prefix_app; exists (drop (S i) q); by rewrite take_drop|].
    split; [lia|done].
Qed.

(** Jobs are never stuck: while one is accepted and not ended, some runner
    can take a step, and it never meets a nil or missing job. *)
Theorem jobs_progress s :
  reachable s -> ended s <> accepted s ->
  exists n r, runners s !! n = Some r /\
    match r with
    | Waiting _ | Running _ _ => True
    | Returned i => is_Some (next_job i (jobList s))
    end.
Proof.
  intros H%reachable_inv Hne. destruct H as [c acc|prev j q l c Hr|prev q i j l c Hr Hj|prev q i j l c Hr Hj]; cbn in *;
    [done|exists 0%nat; by eexists..|].
  exists 0%nat, (Returned i). split; [done|]. pose proof (next_job_inv prev q i j l Hr Hj) as H.
  destruct (q !! S i); [destruct H as (l' & -> & _)|destruct H as [-> _]]; eauto.
Qed.

End jobs.

Arguments jstate : clear implicits.

(** ** Witnesses *)

(** Two jobs accepted one after the other, the first one running. *)
Definition two_jobs : jstate nat := MkJ [Some 1; Some 2]%nat [Running 0 1%nat] false [1; 2]%nat [1%nat] [].

Lemma two_jobs_reachable : reachable two_jobs.
Proof.
  eapply rtc_l; [exact (J_Execute 1%nat j_init true _ eq_refl)|].
  eapply rtc_l; [eapply (J_MustExecute 2%nat)|].
  eapply rtc_l; [by apply (J_begin 0 1%nat)|]. apply rtc_refl.
Qed.

Lemma jobs_in_order_witness :
  (length (runners two_jobs) <= 1)%nat /\ started two_jobs `prefix_of` accepted two_jobs.
Proof. destruct (jobs_in_order two_jobs two_jobs_reachable) as (? & _ & ? & _). by split. Defined.

Lemma jobs_progress_witness :
  exists n r, runners two_jobs !! n = Some r /\
    match r with
    | Waiting _ | Running _ _ => True
    | Returned i => is_Some (next_job i (jobList two_jobs))
    end.
Proof. exact (jobs_progress two_jobs two_jobs_reachable ltac:(discriminate)). Defined.
