(* ===== verification/TaskPool.v ===== *)
(** * The task pool (src/taskpool/taskpool.go)

    Goroutines and channels as interleaved steps: callers of [Go], workers, the
    dispatcher and [Stop].  A step is one atomic operation or one channel
    operation; [acquire] takes two, an addition and, when it fails, the
    subtraction that undoes it. *)

From Stdlib Require Import ZArith Lia.
From stdpp Require Import base numbers list relations.
From S2P Require Import Prelude.

Open Scope Z_scope.

Section pool.
Context {task : Type}.

(** A caller of [Go] whose [acquire] failed: before the subtraction, and at the
    select on the queue. *)
Inductive caller :=
| CUndo (f : task)
| CPush (f : task).

(** A worker: running, at the select, and in [release] before the subtraction
    and before the send. *)
Inductive worker :=
| WRun (f : task)
| WPoll
| WRelease
| WSignal.

(** The dispatcher: at its select, about to fork, after a failed [acquire],
    waiting for a slot, returned. *)
Inductive dispatcher :=
| DSelect
| DFork (f : task)
| DUndo (f : task)
| DWait (f : task)
| DExit.

Record pool := MkPool {
  concurrent : Z;
  maxConcurrent : Z;
  chQqueue : list task;
  queueSize : Z;
  chSlot : bool;
  chClose : bool;
  callers : list caller;
  workers : list worker;
  disp : dispatcher;
  (** history *)
  submitted : list task;
  executed : list task;
  dropped : list task
}.

Definition New (max size : Z) : pool :=
  MkPool 0 (if max <=? 0 then 1 else max) [] size false false [] [] DSelect [] [] [].

(** Updates of the parts. *)
Definition set_conc (n : Z) (p : pool) : pool :=
  MkPool n (maxConcurrent p) (chQqueue p) (queueSize p) (chSlot p) (chClose p) (callers p) (workers p)
    (disp p) (submitted p) (executed p) (dropped p).
Definition set_queue (q : list task) (p : pool) : pool :=
  MkPool (concurrent p) (maxConcurrent p) q (queueSize p) (chSlot p) (chClose p) (callers p) (workers p)
    (disp p) (submitted p) (executed p) (dropped p).
Definition set_slot (b : bool) (p : pool) : pool :=
  MkPool (concurrent p) (maxConcurrent p) (chQqueue p) (queueSize p) b (chClose p) (callers p) (workers p)
    (disp p) (submitted p) (executed p) (dropped p).
Definition set_callers (c : list caller) (p : pool) : pool :=
  MkPool (concurrent p) (maxConcurrent p) (chQqueue p) (queueSize p) (chSlot p) (chClose p) c (workers p)
    (disp p) (submitted p) (executed p) (dropped p).
Definition set_workers (w : list worker) (p : pool) : pool :=
  MkPool (concurrent p) (maxConcurrent p) (chQqueue p) (queueSize p) (chSlot p) (chClose p) (callers p) w
    (disp p) (submitted p) (executed p) (dropped p).
Definition set_disp (d : dispatcher) (p : pool) : pool :=
  MkPool (concurrent p) (maxConcurrent p) (chQqueue p) (queueSize p) (chSlot p) (chClose p) (callers p)
    (workers p) d (submitted p) (executed p) (dropped p).
Definition log_submit (f : task) (p : pool) : pool :=
  MkPool (concurrent p) (maxConcurrent p) (chQqueue p) (queueSize p) (chSlot p) (chClose p) (callers p)
    (workers p) (disp p) (submitted p ++ [f]) (executed p) (dropped p).
Definition log_exec (f : task) (p : pool) : pool :=
  MkPool (concurrent p) (maxConcurrent p) (chQqueue p) (queueSize p) (chSlot p) (chClose p) (callers p)
    (workers p) (disp p) (submitted p) (executed p ++ [f]) (dropped p).
Definition log_drop (f : task) (p : pool) : pool :=
  MkPool (concurrent p) (maxConcurrent p) (chQqueue p) (queueSize p) (chSlot p) (chClose p) (callers p)
    (workers p) (disp p) (submitted p) (executed p) (dropped p ++ [f]).

(** The addition of [acquire]: the count after it, and whether the slot is
    taken. *)
Definition acquire (p : pool) : bool * pool :=
  let n := concurrent p + 1 in (n <=? maxConcurrent p, set_conc n p).

(** The start of [fork]: a worker that runs [f], when the slot is taken. *)
Definition fork (f : task) (p : pool) : bool * pool :=
  let '(ok, p) := acquire p in
  (ok, if ok then set_workers (workers p ++ [WRun f]) p else p).

(** [Go] up to the end of [fork]'s addition. *)
Definition Go (f : task) (p : pool) : pool :=
  let '(ok, p) := fork f (log_submit f p) in
  if ok then p else set_callers (callers p ++ [CUndo f]) p.

Definition Stop (p : pool) : pool :=
  if chClose p then p
  else MkPool (concurrent p + maxConcurrent p) (maxConcurrent p) (chQqueue p) (queueSize p) (chSlot p) true
         (callers p) (workers p) (disp p) (submitted p) (executed p) (dropped p).

(** Steps of a caller of [Go]. *)
Inductive caller_step : pool -> pool -> Prop :=
| C_undo i f p :
    callers p !! i = Some (CUndo f) ->
    caller_step p (set_callers (<[i := CPush f]> (callers p)) (set_conc (concurrent p - 1) p))
| C_push i f p :
    callers p !! i = Some (CPush f) -> len (chQqueue p) < queueSize p ->
    caller_step p (set_callers (delete i (callers p)) (set_queue (chQqueue p ++ [f]) p))
| C_hand_dispatcher i f p :
    (** a receiver is waiting at an empty queue *)
    callers p !! i = Some (CPush f) -> chQqueue p = [] -> disp p = DSelect ->
    caller_step p (set_callers (delete i (callers p)) (set_disp (DFork f) p))
| C_closed i f p :
    callers p !! i = Some (CPush f) -> chClose p = true ->
    caller_step p (set_callers (delete i (callers p)) (log_drop f p)).

(** Steps of a worker. *)
Inductive worker_step : pool -> pool -> Prop :=
| W_end i f p :
    workers p !! i = Some (WRun f) ->
    worker_step p (set_workers (<[i := WPoll]> (workers p)) (log_exec f p))
| W_take i f q p :
    workers p !! i = Some WPoll -> chQqueue p = f :: q ->
    worker_step p (set_workers (<[i := WRun f]> (workers p)) (set_queue q p))
| W_hand i c f p :
    (** a caller is waiting at an empty queue *)
    workers p !! i = Some WPoll -> chQqueue p = [] -> callers p !! c = Some (CPush f) ->
    worker_step p (set_workers (<[i := WRun f]> (workers p)) (set_callers (delete c (callers p)) p))
| W_default i p :
    workers p !! i = Some WPoll -> chQqueue p = [] ->
    worker_step p (set_workers (<[i := WRelease]> (workers p)) p)
| W_release i p :
    workers p !! i = Some WRelease ->
    worker_step p (set_workers (<[i := WSignal]> (workers p)) (set_conc (concurrent p - 1) p))
| W_signal i p :
    workers p !! i = Some WSignal ->
    worker_step p (set_workers (delete i (workers p)) (set_slot true p)).

(** Steps of the dispatcher. *)
Inductive dispatch_step : pool -> pool -> Prop :=
| D_take f q p :
    disp p = DSelect -> chQqueue p = f :: q ->
    dispatch_step p (set_disp (DFork f) (set_queue q p))
| D_close p :
    disp p = DSelect -> chClose p = true -> dispatch_step p (set_disp DExit p)
| D_fork f p p' ok :
    disp p = DFork f -> fork f p = (ok, p') ->
    dispatch_step p (set_disp (if ok then DSelect else DUndo f) p')
| D_undo f p :
    disp p = DUndo f -> dispatch_step p (set_disp (DWait f) (set_conc (concurrent p - 1) p))
| D_wake f p :
    disp p = DWait f -> chSlot p = true -> dispatch_step p (set_disp (DFork f) (set_slot false p))
| D_quit f p :
    disp p = DWait f -> chClose p = true -> dispatch_step p (set_disp DExit (log_drop f p)).

(** Steps the pool takes by itself, and all steps. *)
Definition internal (p p' : pool) : Prop := caller_step p p' \/ worker_step p p' \/ dispatch_step p p'.

Inductive pstep : pool -> pool -> Prop :=
| P_go f p : pstep p (Go f p)
| P_stop p : pstep p (Stop p)
| P_internal p p' : internal p p' -> pstep p p'.

(** ** Counting *)

Definition caller_task (c : caller) : list task := match c with CUndo f | CPush f => [f] end.
Definition worker_task (w : worker) : list task := match w with WRun f => [f] | _ => [] end.
Definition disp_task (d : dispatcher) : list task := match d with DFork f | DUndo f | DWait f => [f] | _ => [] end.

(** The tasks that are accepted and neither executed nor dropped. *)
Definition held (p : pool) : list task :=
  concat (caller_task <$> callers p) ++ concat (worker_task <$> workers p) ++ disp_task (disp p) ++ chQqueue p.

Definition caller_slot (c : caller) : Z := match c with CUndo _ => 1 | CPush _ => 0 end.
Definition worker_slot (w : worker) : Z := match w with WSignal => 0 | _ => 1 end.
Definition disp_slot (d : dispatcher) : Z := match d with DUndo _ => 1 | _ => 0 end.

Definition zsum {X} (f : X -> Z) (l : list X) : Z := foldr (fun x n => f x + n) 0 l.

(** Workers that hold a slot. *)
Definition active (p : pool) : Z := zsum worker_slot (workers p).

Record pool_inv (p : pool) : Prop := {
  pi_max : 0 < maxConcurrent p;
  pi_count : concurrent p = active p + zsum caller_slot (callers p) + disp_slot (disp p)
             + (if chClose p then maxConcurrent p else 0);
  pi_active : active p <= maxConcurrent p;
  pi_tasks : submitted p ≡ₚ executed p ++ dropped p ++ held p;
  pi_dropped : chClose p = false -> dropped p = [];
  pi_exit : disp p = DExit -> chClose p = true
}.

Lemma list_delete_insert {X} (l : list X) i y : delete i (<[i := y]> l) = delete i l.
Proof. revert i. induction l as [|x l IH]; intros [|i]; cbn; [done..|]. by rewrite IH. Qed.

Section sums.
Context {X : Type} (f : X -> Z).

Lemma zsum_app l k : zsum f (l ++ k) = zsum f l + zsum f k.
Proof. unfold zsum. induction l as [|x l IH]; cbn; [done|]. rewrite IH. lia. Qed.

Lemma zsum_one x : zsum f [x] = f x.
Proof. unfold zsum. cbn. lia. Qed.

Lemma zsum_middle l i x : l !! i = Some x -> zsum f l = f x + zsum f (delete i l).
Proof.
  intros H. rewrite <- (take_drop_middle l i x H) at 1. rewrite delete_take_drop, !zsum_app. cbn.
  change (foldr (fun x n => f x + n) 0 (drop (S i) l)) with (zsum f (drop (S i) l)). lia.
Qed.

Lemma zsum_insert l i x y : l !! i = Some x -> zsum f (<[i := y]> l) = zsum f l - f x + f y.
Proof.
  intros H. assert (<[i := y]> l !! i = Some y) as Hy by (apply list_lookup_insert_eq; by eapply lookup_lt_Some).
  rewrite (zsum_middle _ _ _ Hy), (zsum_middle _ _ _ H).
  rewrite list_delete_insert. lia.
Qed.

Lemma zsum_nonneg l : (forall x, 0 <= f x) -> 0 <= zsum f l.
Proof. intros H. unfold zsum. induction l as [|x l IH]; cbn; [done|]. specialize (H x). lia. Qed.
End sums.

Section tasks.
Context {X : Type} (f : X -> list task).

Lemma concat_middle l i x : l !! i = Some x -> concat (f <$> l) ≡ₚ f x ++ concat (f <$> delete i l).
Proof.
  intros H. rewrite <- (take_drop_middle l i x H) at 1. rewrite delete_take_drop.
  rewrite !fmap_app, fmap_cons, !concat_app, concat_cons. solve_Permutation.
Qed.

Lemma concat_insert l i x y :
  l !! i = Some x -> concat (f <$> <[i := y]> l) ≡ₚ f y ++ concat (f <$> delete i l).
Proof.
  intros H. assert (<[i := y]> l !! i = Some y) as Hy by (apply list_lookup_insert_eq; by eapply lookup_lt_Some).
  by rewrite (concat_middle _ _ _ Hy), list_delete_insert.
Qed.
End tasks.
#[local] Arguments zsum : simpl never.

Lemma worker_slot_range w : 0 <= worker_slot w <= 1.
Proof. destruct w; cbn; lia. Qed.

Lemma caller_slot_nonneg c : 0 <= caller_slot c.
Proof. destruct c; cbn; lia. Qed.

(** What each step does to the counts: rewrite the sums over an updated list. *)
Ltac sums :=
  unfold active in *;
  cbn [set_callers set_workers set_conc set_queue set_slot set_disp log_submit log_exec log_drop concurrent
    maxConcurrent chClose callers workers disp submitted executed dropped chQqueue] in *;
  repeat match goal with
  | H : ?l !! ?i = Some ?x |- context [zsum ?f (<[?i := _]> ?l)] => rewrite (zsum_insert f l i x _ H)
  | H : ?l !! ?i = Some ?x, S : context [zsum ?f ?l] |- context [zsum ?f (delete ?i ?l)] =>
      rewrite (zsum_middle f l i x H) in S
  end;
  rewrite ?zsum_app, ?zsum_one; cbn [worker_slot caller_slot disp_slot] in *.

Lemma fork_inv f p ok p' :
  pool_inv p -> fork f p = (ok, p') ->
  maxConcurrent p' = maxConcurrent p /\ concurrent p' = concurrent p + 1 /\ chClose p' = chClose p /\
  callers p' = callers p /\ chQqueue p' = chQqueue p /\ disp p' = disp p /\
  submitted p' = submitted p /\ executed p' = executed p /\ dropped p' = dropped p /\
  workers p' = (if ok then workers p ++ [WRun f] else workers p) /\
  (ok = true -> active p + 1 <= maxConcurrent p).
Proof.
  intros [Hmax Hc Ha Ht Hd Hx]. unfold fork, acquire. intros [= <- <-].
  destruct (concurrent p + 1 <=? maxConcurrent p) eqn:E; cbn; repeat (split; [done|]); [|done].
  intros _. bool_hyp. pose proof (zsum_nonneg caller_slot (callers p) caller_slot_nonneg).
  assert (0 <= disp_slot (disp p)) by (destruct (disp p); cbn; lia).
  destruct (chClose p); lia.
Qed.

Lemma Go_inv f p : pool_inv p -> pool_inv (Go f p).
Proof.
  intros Hinv. unfold Go. destruct (fork f (log_submit f p)) as [ok p'] eqn:E.
  assert (forall q, fork f p = q -> fork f (log_submit f p) = (q.1, log_submit f q.2)) as Hlog.
  { intros q <-. unfold fork, acquire. cbn. by destruct (_ <=? _). }
  destruct (fork f p) as [ok0 p0] eqn:E0. rewrite (Hlog _ eq_refl) in E. injection E as <- <-. cbn [fst snd].
  destruct (fork_inv f p ok0 p0 Hinv E0) as (H1 & H2 & H3 & H4 & H5 & H6 & H7 & H8 & H9 & H10 & H11).
  destruct Hinv as [Hmax Hc Ha Ht Hd Hx]. destruct ok0.
  - split; unfold held in *; cbn; rewrite ?H1, ?H2, ?H3, ?H4, ?H5, ?H6, ?H7, ?H8, ?H9; unfold active in *; cbn;
      rewrite ?H10; rewrite ?zsum_app, ?zsum_one, ?fmap_app, ?concat_app; cbn; try done; try lia.
    rewrite Ht. solve_Permutation.
  - split; unfold held in *; cbn; rewrite ?H1, ?H2, ?H3, ?H4, ?H5, ?H6, ?H7, ?H8, ?H9; unfold active in *; cbn;
      rewrite ?H10; rewrite ?zsum_app, ?zsum_one, ?fmap_app, ?concat_app; cbn; try done; try lia.
    rewrite Ht. solve_Permutation.
Qed.

Lemma Stop_inv p : pool_inv p -> pool_inv (Stop p).
Proof.
  intros [Hmax Hc Ha Ht Hd Hx]. unfold Stop. destruct (chClose p) eqn:E; [split; rewrite ?E; done|].
  split; cbn; try done. unfold active in *. cbn. lia.
Qed.

(** The tasks of an updated list of callers or workers. *)
Ltac perms :=
  repeat match goal with
  | H : ?l !! ?i = Some ?x |- context [concat (?f <$> <[?i := _]> ?l)] => rewrite (concat_insert f l i x _ H)
  | H : ?l !! ?i = Some ?x |- context [concat (?f <$> ?l)] => rewrite (concat_middle f l i x H)
  end; cbn; solve_Permutation.

Lemma caller_inv p p' : caller_step p p' -> pool_inv p -> pool_inv p'.
Proof.
  intros Hs [Hmax Hc Ha Ht Hd Hx]. destruct Hs as [i f p Hi|i f p Hi Hq|i f p Hi Hq Hdi|i f p Hi Hcl].
  - split; unfold held in *; sums; try done; try lia. rewrite Ht. perms.
  - split; unfold held in *; sums; try done; try lia. rewrite Ht. perms.
  - rewrite Hdi in Hc. split; unfold held in *; sums; try done; try lia. rewrite Ht, Hdi, Hq. perms.
  - split; unfold held in *; sums; try done; try lia; [|congruence]. rewrite Ht. perms.
Qed.

Lemma worker_inv p p' : worker_step p p' -> pool_inv p -> pool_inv p'.
Proof.
  intros Hs [Hmax Hc Ha Ht Hd Hx].
  destruct Hs as [i f p Hi|i f q p Hi Hq|i c f p Hi Hq Hcl|i p Hi Hq|i p Hi|i p Hi].
  - split; unfold held in *; sums; try done; try lia. rewrite Ht. perms.
  - split; unfold held in *; sums; try done; try lia. rewrite Ht, Hq. perms.
  - split; unfold held in *; sums; try done; try lia. rewrite Ht, Hq. perms.
  - split; unfold held in *; sums; try done; try lia. rewrite Ht. perms.
  - split; unfold held in *; sums; try done; try lia. rewrite Ht. perms.
  - split; unfold held in *; sums; try done; try lia. rewrite Ht. perms.
Qed.

Lemma dispatch_inv p p' : dispatch_step p p' -> pool_inv p -> pool_inv p'.
Proof.
  intros Hs Hinv. destruct Hs as [f q p Hdi Hq|p Hdi Hcl|f p p' ok Hdi Hf|f p Hdi|f p Hdi Hsl|f p Hdi Hcl].
  3: { destruct (fork_inv f p ok p' Hinv Hf) as (H1 & H2 & H3 & H4 & H5 & H6 & H7 & H8 & H9 & H10 & H11).
    destruct Hinv as [Hmax Hc Ha Ht Hd Hx]. rewrite Hdi in *. cbn in Hc.
    split; unfold held in *; cbn; rewrite ?H1, ?H2, ?H3, ?H4, ?H5, ?H7, ?H8, ?H9; unfold active in *; cbn;
      rewrite ?H10; destruct ok; cbn; rewrite ?zsum_app, ?zsum_one, ?fmap_app, ?concat_app; cbn; try done; try lia;
      rewrite Ht, Hdi; cbn; solve_Permutation. }
  all: destruct Hinv as [Hmax Hc Ha Ht Hd Hx]; rewrite Hdi in Hc; cbn in Hc.
  all: split; unfold held in *; sums; try done; try lia; try congruence.
  all: rewrite Ht, Hdi; try rewrite Hq; cbn; solve_Permutation.
Qed.

Lemma pstep_inv p p' : pstep p p' -> pool_inv p -> pool_inv p'.
Proof.
  intros Hs. destruct Hs as [f p|p|p p' [H|[H|H]]];
    eauto using Go_inv, Stop_inv, caller_inv, worker_inv, dispatch_inv.
Qed.

Lemma fork_max f p ok p' : fork f p = (ok, p') -> maxConcurrent p' = maxConcurrent p.
Proof. unfold fork, acquire. intros [= <- <-]. by destruct (_ <=? _). Qed.

Lemma max_const p p' : rtc pstep p p' -> maxConcurrent p' = maxConcurrent p.
Proof.
  induction 1 as [|p0 p1 p2 Hs _ IH]; [done|]. rewrite IH. clear IH.
  destruct Hs as [f p|p|p p' [H|[H|H]]].
  - unfold Go. destruct (fork f (log_submit f p)) as [ok q] eqn:E. apply fork_max in E. by destruct ok.
  - unfold Stop. by destruct (chClose p).
  - by destruct H.
  - by destruct H.
  - destruct H as [| |f p p' ok Hd Hf| | |]; try done. cbn. by eapply fork_max.
Qed.

Lemma New_pool_inv max size : pool_inv (New max size).
Proof.
  assert (0 < maxConcurrent (New max size)) by (cbn; destruct (max <=? 0) eqn:E; bool_hyp; lia).
  split; try done. change (active (New max size)) with 0. lia.
Qed.

Lemma pool_reachable_inv max size p : rtc pstep (New max size) p -> pool_inv p.
Proof.
  generalize (New_pool_inv max size). generalize (New max size). intros p0 H0 H.
  induction H as [|p0 p1 p2 Hs _ IH]; [done|]. apply IH. by eapply pstep_inv.
Qed.

(** A worker is never blocked. *)
Lemma worker_can_step p : workers p <> [] -> exists p', internal p p'.
Proof.
  destruct (workers p) as [|w ws] eqn:Ew; [done|]. intros _.
  assert (workers p !! 0%nat = Some w) as Hw by by rewrite Ew.
  destruct w as [f| | |].
  - eexists. right; left. by eapply W_end.
  - destruct (chQqueue p) as [|f q] eqn:Eq; eexists; right; left; [by eapply W_default|by eapply W_take].
  - eexists. right; left. by eapply W_release.
  - eexists. right; left. by eapply W_signal.
Qed.

Lemma caller_cases (cs : list caller) :
  (exists i f, cs !! i = Some (CUndo f)) \/ (forall c, c ∈ cs -> exists f, c = CPush f).
Proof.
  induction cs as [|c cs IH]; [right; intros c Hc; set_solver|].
  destruct c as [f|f]; [left; by exists 0%nat, f|].
  destruct IH as [(i & g & Hi)|IH]; [left; by exists (S i), g|].
  right. intros c [-> |Hc]%elem_of_cons; [by exists f|by apply IH].
Qed.

(** ** Properties *)

(** C27: in every interleaving of callers, workers, dispatcher and [Stop], never
    more than the maximum number of workers hold a slot, so never more tasks
    run at once; and every task submitted is executed once, dropped after
    [Stop], or still held by the pool. *)
Theorem pool_safe (max size : Z) (p : pool) :
  rtc pstep (New max size) p ->
  active p <= (if max <=? 0 then 1 else max) /\
  submitted p ≡ₚ executed p ++ dropped p ++ held p /\
  (chClose p = false -> dropped p = []).
Proof.
  intros H. assert (maxConcurrent p = maxConcurrent (New max size)) as Hm by (by apply max_const).
  apply pool_reachable_inv in H as [_ _ Ha Ht Hd _]. rewrite Hm in Ha. cbn in Ha. done.
Qed.

(** While tasks are held and the pool is not stopped, some goroutine of the
    pool can take a step, except when every task is with the dispatcher or in
    the queue, the dispatcher waits for a slot, and no worker is left to give
    one: then nothing happens until another task is submitted. *)
Theorem pool_progress (max size : Z) (p : pool) :
  rtc pstep (New max size) p -> chClose p = false -> held p <> [] ->
  (exists p', internal p p') \/
  (workers p = [] /\ chSlot p = false /\ (exists f, disp p = DWait f) /\
   forall c, c ∈ callers p -> exists f, c = CPush f).
Proof.
  intros H%pool_reachable_inv Hcl Hh. pose proof (pi_exit _ H) as Hx.
  destruct (workers p) as [|w ws] eqn:Ew; cycle 1.
  { left. apply worker_can_step. by rewrite Ew. }
  destruct (caller_cases (callers p)) as [(i & f & Hi)|Hpush].
  { left. eexists. left. by eapply C_undo. }
  destruct (disp p) as [|f|f|f|] eqn:Ed.
  - left. destruct (chQqueue p) as [|f q] eqn:Eq; [|eexists; right; right; by eapply D_take].
    destruct (callers p) as [|c cs] eqn:Ec.
    { exfalso. apply Hh. unfold held. by rewrite Ew, Ec, Ed, Eq. }
    destruct (Hpush c) as [f ->]; [apply list_elem_of_here|].
    eexists. left. apply (C_hand_dispatcher 0 f); [by rewrite Ec|done|done].
  - left. destruct (fork f p) as [ok p'] eqn:Ef. eexists. right; right. by eapply D_fork.
  - left. eexists. right; right. by eapply D_undo.
  - destruct (chSlot p) eqn:Es; [left; eexists; right; right; by eapply D_wake|].
    right. split; [done|]. split; [done|]. split; [by eexists|done].
  - specialize (Hx eq_refl). congruence.
Qed.

End pool.

Arguments pool : clear implicits.

(** ** Witnesses, and a lost wake-up *)

Definition one_running : pool nat :=
  MkPool 1 1 [] 1 false false [] [WRun 1%nat] DSelect [1%nat] [] [].

Lemma one_running_reachable : rtc pstep (New 1 1) one_running.
Proof. eapply rtc_l; [exact (P_go 1%nat _)|]. apply rtc_refl. Qed.

Lemma pool_safe_witness :
  active one_running <= 1 /\ submitted one_running ≡ₚ executed one_running ++ dropped one_running ++ held one_running.
Proof. destruct (pool_safe 1 1 one_running one_running_reachable) as (? & ? & _). by split. Defined.

Lemma pool_progress_witness :
  (exists p', internal one_running p') \/
  (workers one_running = [] /\ chSlot one_running = false /\ (exists f, disp one_running = DWait f) /\
   forall c, c ∈ callers one_running -> exists f, c = CPush f).
Proof. exact (pool_progress 1 1 one_running one_running_reachable eq_refl ltac:(discriminate)). Defined.

(** The last worker leaves between the addition and the subtraction of a failing
    [acquire]; the dispatcher takes its signal, fails because of that addition,
    and waits again: two tasks are held, no slot is taken and no goroutine of
    the pool can move. *)
Definition lost : pool nat :=
  MkPool 0 1 [3%nat] 1 false false [] [] (DWait 2%nat) [1; 2; 3]%nat [1%nat] [].

(** A pool with one slot and a queue of one, not stopped. *)
Definition small (conc : Z) (q : list nat) (slot : bool) (cs : list caller) (ws : list worker)
    (d : dispatcher) (sub ex : list nat) : pool nat :=
  MkPool conc 1 q 1 slot false cs ws d sub ex [].

Lemma step_to {X} (R : X -> X -> Prop) p q p' : R p q -> q = p' -> R p p'.
Proof. by intros ? <-. Qed.

Tactic Notation "go_to" constr(p) uconstr(c) := apply (rtc_l pstep _ p); [exact (c _)|].
Tactic Notation "caller_to" constr(p) uconstr(c) := apply (rtc_l pstep _ p); [apply P_internal; left; eapply step_to; [apply c; reflexivity|reflexivity]|].
Tactic Notation "worker_to" constr(p) uconstr(c) := apply (rtc_l pstep _ p); [apply P_internal; right; left; eapply step_to; [apply c; reflexivity|reflexivity]|].
Tactic Notation "dispatcher_to" constr(p) uconstr(c) := apply (rtc_l pstep _ p); [apply P_internal; right; right; eapply step_to; [eapply c; reflexivity|reflexivity]|].

Lemma lost_wakeup : rtc pstep (New 1 1) lost /\ forall p', ~ internal lost p'.
Proof.
  split.
  - go_to (small 1 [] false [] [WRun 1%nat] DSelect [1]%nat []) (P_go 1%nat).
    go_to (small 2 [] false [CUndo 2%nat] [WRun 1%nat] DSelect [1; 2]%nat []) (P_go 2%nat).
    caller_to (small 1 [] false [CPush 2%nat] [WRun 1%nat] DSelect [1; 2]%nat []) (C_undo 0 2%nat).
    caller_to (small 1 [2]%nat false [] [WRun 1%nat] DSelect [1; 2]%nat []) (C_push 0 2%nat).
    dispatcher_to (small 1 [] false [] [WRun 1%nat] (DFork 2%nat) [1; 2]%nat []) (D_take 2%nat []).
    dispatcher_to (small 2 [] false [] [WRun 1%nat] (DUndo 2%nat) [1; 2]%nat []) (D_fork 2%nat _ _ false).
    dispatcher_to (small 1 [] false [] [WRun 1%nat] (DWait 2%nat) [1; 2]%nat []) (D_undo 2%nat).
    worker_to (small 1 [] false [] [WPoll] (DWait 2%nat) [1; 2]%nat [1]%nat) (W_end 0 1%nat).
    worker_to (small 1 [] false [] [WRelease] (DWait 2%nat) [1; 2]%nat [1]%nat) (W_default 0).
    go_to (small 2 [] false [CUndo 3%nat] [WRelease] (DWait 2%nat) [1; 2; 3]%nat [1]%nat) (P_go 3%nat).
    worker_to (small 1 [] false [CUndo 3%nat] [WSignal] (DWait 2%nat) [1; 2; 3]%nat [1]%nat) (W_release 0).
    worker_to (small 1 [] true [CUndo 3%nat] [] (DWait 2%nat) [1; 2; 3]%nat [1]%nat) (W_signal 0).
    dispatcher_to (small 1 [] false [CUndo 3%nat] [] (DFork 2%nat) [1; 2; 3]%nat [1]%nat) (D_wake 2%nat).
    dispatcher_to (small 2 [] false [CUndo 3%nat] [] (DUndo 2%nat) [1; 2; 3]%nat [1]%nat) (D_fork 2%nat _ _ false).
    dispatcher_to (small 1 [] false [CUndo 3%nat] [] (DWait 2%nat) [1; 2; 3]%nat [1]%nat) (D_undo 2%nat).
    caller_to (small 0 [] false [CPush 3%nat] [] (DWait 2%nat) [1; 2; 3]%nat [1]%nat) (C_undo 0 3%nat).
    caller_to lost (C_push 0 3%nat).
    apply rtc_refl.
  - intros p' [H|[H|H]]; inversion H; subst; done.
Qed.
