(* ===== verification/Body.v ===== *)
(** * The HTTP body (src/nbhttp/body.go)

    A body is a list of buffers with a read index into the first one.  The
    abstract view is a byte queue. *)

From Stdlib Require Import ZArith Lia.
From Stdlib Require Import Strings.Byte Strings.String.
From stdpp Require Import base numbers list list_numbers gmap.
From S2P Require Import Prelude Mempool MempoolFacts.

Open Scope Z_scope.

Inductive body_err := BodyEOF | BodyTooLong.

Section body.
Context {A : Type} `{!Allocator A}.
Context (MaxHTTPBodySize : Z).

(** The reader, with the allocator of its engine. *)
Record BodyReader := MkBody {
  br_index : Z;
  br_left : Z;
  br_buffers : list pbuf;
  br_closed : bool;
  br_alloc : A
}.

Definition NewBodyReader (a : A) : BodyReader := MkBody 0 0 [] false a.

(** The loop of [Read]: [p] is the part of the result copied so far, [need] the
    length of the caller's slice.  Each round drops a buffer or ends, so the
    number of buffers bounds them. *)
Fixpoint read_loop (fuel : nat) (need : Z) (p : bytes) (br : BodyReader)
    : option (bytes * option body_err * BodyReader) :=
  if (len p <? need) && (0 <? br_left br) then
    match br_buffers br with
    | [] =>
        let br := MkBody (br_index br) 0 [] (br_closed br) (br_alloc br) in
        Some (p, if 0 <? len p then None else Some BodyEOF, br)
    | pbuf :: rest =>
        match fuel with
        | O => None
        | S fuel =>
            if b_len pbuf <=? br_index br then
              a ← Free pbuf (br_alloc br);
              read_loop fuel need p (MkBody 0 (br_left br) rest (br_closed br) a)
            else
              src ← slice_from (data pbuf) (br_index br);
              let nc := Z.min (need - len p) (len src) in
              let p := p ++ take (Z.to_nat nc) src in
              if b_len pbuf <=? nc + br_index br then
                a ← Free pbuf (br_alloc br);
                read_loop fuel need p (MkBody 0 (br_left br - nc) rest (br_closed br) a)
              else
                read_loop fuel need p
                  (MkBody (br_index br + nc) (br_left br - nc) (pbuf :: rest) (br_closed br) (br_alloc br))
        end
    end
  else Some (p, None, br).

Definition Read (need : Z) (br : BodyReader) : option (bytes * option body_err * BodyReader) :=
  if br_closed br then Some ([], Some BodyEOF, br)
  else if br_left br <=? 0 then Some ([], Some BodyEOF, br)
  else read_loop (S (length (br_buffers br))) need [] br.

Fixpoint free_all (bs : list pbuf) (a : A) : option A :=
  match bs with
  | [] => Some a
  | b :: bs => a ← Free b a; free_all bs a
  end.

Definition Close (br : BodyReader) : option BodyReader :=
  if br_closed br then Some br
  else a ← free_all (br_buffers br) (br_alloc br); Some (MkBody 0 0 [] true a).

(** [RawBodyBuffers] *)
Definition RawBodyBuffers (br : BodyReader) : option (list bytes) :=
  match br_buffers br with
  | [] => Some []
  | b :: rest => d ← slice_from (data b) (br_index br); Some (d :: (data <$> rest))
  end.

(** Taking a new buffer for [d] at the end. *)
Definition push_buffer (d : bytes) (bs : list pbuf) (a : A) : option (list pbuf * A) :=
  '(p, a) ← Malloc (len d) a;
  Some (bs ++ [copy_at p 0 d], a).

(** Filling the room of the last buffer: the buffer, and the bytes left over. *)
Definition fill_tail (p : pbuf) (d : bytes) : option (pbuf * bytes) :=
  let l := b_len p in
  let bLeft := cap p - l in
  if 0 <? bLeft then
    q ← reslice p (if len d <? bLeft then l + len d else cap p);
    let q := copy_at q l d in
    let nc := Z.min (b_len q - l) (len d) in
    d ← slice_from d nc;
    Some (q, d)
  else Some (p, d).

Definition append (d : bytes) (br : BodyReader) : option (option body_err * BodyReader) :=
  if len d =? 0 then Some (None, br)
  else if (0 <? MaxHTTPBodySize) && (MaxHTTPBodySize <? len d + br_left br) then Some (Some BodyTooLong, br)
  else
    let left := br_left br + len d in
    match last (br_buffers br) with
    | None =>
        '(bs, a) ← push_buffer d (br_buffers br) (br_alloc br);
        Some (None, MkBody (br_index br) left bs (br_closed br) a)
    | Some p =>
        '(p, d) ← fill_tail p d;
        let bs := removelast (br_buffers br) ++ [p] in
        '(bs, a) ← (if 0 <? len d then push_buffer d bs (br_alloc br) else Some (bs, br_alloc br));
        Some (None, MkBody (br_index br) left bs (br_closed br) a)
    end.

(** ** The abstract view *)

(** The bytes still to be read. *)
Definition content (br : BodyReader) : bytes :=
  drop (Z.to_nat (br_index br)) (concat (data <$> br_buffers br)).

Context `{!AllocatorLaws A}.

Record body_ok (others : gset nat) (br : BodyReader) : Prop := {
  bo_left : br_left br = len (content br);
  bo_index : match br_buffers br with [] => br_index br = 0 | b :: _ => 0 <= br_index br <= b_len b end;
  bo_genuine : Forall genuine (br_buffers br);
  bo_nodup : NoDup (b_id <$> br_buffers br);
  bo_fresh : forall x, x ∈ b_id <$> br_buffers br -> x ∉ others;
  bo_alloc : alloc_inv (br_alloc br) (list_to_set (b_id <$> br_buffers br) ∪ others)
}.

(** The first buffer is given back. *)
Lemma body_drop_head others b rest a :
  genuine b -> NoDup (b_id <$> b :: rest) -> (forall x, x ∈ b_id <$> b :: rest -> x ∉ others) ->
  alloc_inv a (list_to_set (b_id <$> b :: rest) ∪ others) ->
  exists a', Free b a = Some a' /\ alloc_inv a' (list_to_set (b_id <$> rest) ∪ others).
Proof.
  intros Hg Hnd Hfr Ha. cbn in Hnd, Hfr, Ha. apply NoDup_cons in Hnd as [Hb Hnd].
  destruct (free_law a _ b Ha Hg ltac:(set_solver)) as (a' & He & Ha'). exists a'. split; [done|].
  assert (b_id b ∉ others) as Hbo by (apply Hfr; set_solver).
  assert (({[b_id b]} ∪ list_to_set (b_id <$> rest) ∪ others) ∖ {[b_id b]}
    = list_to_set (b_id <$> rest) ∪ others) as <-; [set_solver|done].
Qed.

Lemma content_cons b rest i l c a :
  0 <= i <= b_len b -> genuine b ->
  content (MkBody i l (b :: rest) c a) = drop (Z.to_nat i) (data b) ++ concat (data <$> rest).
Proof.
  intros Hi Hg. unfold content. cbn. pose proof (data_len b (genuine_ok _ Hg)) as Hd. unfold len in Hd.
  rewrite drop_app_le by lia. done.
Qed.

(** ** Read *)

(** Without its first buffer a body is in order again. *)
Lemma body_rest others b rest i l c a :
  body_ok others (MkBody i l (b :: rest) c a) ->
  exists a', Free b a = Some a' /\ body_ok others (MkBody 0 (len (concat (data <$> rest))) rest c a').
Proof.
  intros [_ _ Hg Hnd Hfr Ha]. cbn [br_buffers br_alloc] in *. apply Forall_cons in Hg as [Hgb Hg].
  destruct (body_drop_head others b rest a Hgb Hnd Hfr Ha) as (a' & Hfree & Ha').
  exists a'. split; [done|]. cbn in Hnd, Hfr. apply NoDup_cons in Hnd as [_ Hnd].
  split; cbn; try done; [|set_solver]. destruct rest as [|b' r']; [done|].
  apply Forall_cons in Hg as [Hgb' _]. pose proof (genuine_ok _ Hgb') as H'. unfold buf_ok in H'. lia.
Qed.

(** One round of the loop: [m] bytes move from the body to the result. *)
Lemma read_round others fuel need p i l b rest a :
  let br := MkBody i l (b :: rest) false a in
  body_ok others br -> len p < need -> 0 < l ->
  exists m br', read_loop (S fuel) need p br = read_loop fuel need (p ++ take (Z.to_nat m) (content br)) br' /\
    body_ok others br' /\ br_closed br' = false /\ content br' = drop (Z.to_nat m) (content br) /\
    0 <= m <= need - len p /\ m <= len (content br) /\
    ((length (br_buffers br') <= length rest)%nat \/ m = need - len p).
Proof.
  intros br Hok Hp Hl. pose proof Hok as [Hleft Hi Hg Hnd Hfr Ha].
  cbn [br br_buffers br_index br_left br_alloc] in *. apply Forall_cons in Hg as [Hgb Hg].
  pose proof (data_len b (genuine_ok _ Hgb)) as Hdl.
  destruct (body_rest others b rest i l false a Hok) as (a' & Hfree & Hrest).
  assert (forall l', content (MkBody 0 l' rest false a') = concat (data <$> rest)) as Hc0 by done.
  cbn [read_loop br_left br_buffers br_index br_closed br_alloc br].
  rewrite !(proj2 (Z.ltb_lt _ _)) by done. cbn [andb]. subst br.
  rewrite (content_cons b rest i l false a Hi Hgb) in *.
  set (src := drop (Z.to_nat i) (data b)) in *. pose proof (len_nonneg src).
  assert (len src = b_len b - i) as Hsl by (unfold src; rewrite len_drop; lia). rewrite len_app in Hleft.
  destruct (b_len b <=? i) eqn:Ei; bool_hyp.
  - rewrite Hfree. cbn [mbind option_bind]. exists 0, (MkBody 0 l rest false a').
    change (Z.to_nat 0) with 0%nat. rewrite take_0, app_nil_r, drop_0, Hc0, len_app. len_pose.
    assert (src = []) as -> by (apply len_zero_nil; lia). split; [done|].
    split; [replace l with (len (concat (data <$> rest))) by lia; done|].
    split; [done|]. split; [done|]. split; [lia|]. split; [lia|]. left. cbn. lia.
  - rewrite slice_from_eq by lia. fold src. cbn [mbind option_bind].
    set (nc := Z.min (need - len p) (len src)). exists nc. rewrite len_app, take_app_le by (unfold len in *; lia).
    len_pose. destruct (b_len b <=? nc + i) eqn:En; bool_hyp.
    + rewrite Hfree. cbn [mbind option_bind]. eexists. split; [done|]. rewrite Hc0.
      split; [replace (l - nc) with (len (concat (data <$> rest))) by lia; done|]. split; [done|].
      split; [rewrite drop_app_ge by (unfold len in *; lia); replace (Z.to_nat nc - length src)%nat with 0%nat by (unfold len in *; lia); done|].
      split; [lia|]. split; [lia|]. left. cbn. lia.
    + eexists. split; [done|].
      assert (content (MkBody (i + nc) (l - nc) (b :: rest) false a) = drop (Z.to_nat nc) src ++ concat (data <$> rest)) as Hcn.
      { rewrite content_cons by (try done; lia). unfold src. rewrite drop_drop. do 2 f_equal. lia. }
      rewrite Hcn. split; [|split; [done|split; [by rewrite drop_app_le by (unfold len in *; lia)|]]].
      * split; cbn [br_buffers br_index br_left br_alloc]; try done; [|lia|by apply Forall_cons].
        rewrite Hcn, len_app, len_drop. lia.
      * split; [lia|]. split; [lia|]. right. lia.
Qed.

Lemma read_loop_ok others fuel need p br :
  body_ok others br -> br_closed br = false -> len p <= need -> (length (br_buffers br) < fuel)%nat ->
  exists br', read_loop fuel need p br
    = Some (p ++ take (Z.to_nat (need - len p)) (content br), None, br') /\
    body_ok others br' /\ br_closed br' = false /\
    content br' = drop (Z.to_nat (need - len p)) (content br).
Proof.
  revert p br. induction fuel as [|fuel IH]; intros p br Hok Hcl Hp Hfuel; [lia|].
  pose proof (bo_left _ _ Hok) as Hl. pose proof (len_nonneg (content br)).
  destruct ((len p <? need) && (0 <? br_left br)) eqn:E; cycle 1.
  { cbn [read_loop]. rewrite E. exists br.
    assert (take (Z.to_nat (need - len p)) (content br) = [] /\ drop (Z.to_nat (need - len p)) (content br) = content br) as [-> ->].
    { apply andb_false_iff in E as [E|E]; bool_hyp.
      - replace (Z.to_nat (need - len p)) with 0%nat by lia. by rewrite take_0, drop_0.
      - assert (content br = []) as -> by (apply len_zero_nil; lia). by rewrite take_nil, drop_nil. }
    rewrite app_nil_r. done. }
  bool_hyp. destruct br as [i l [|b rest] c a]; cbn in Hcl; subst c.
  { unfold content in Hl. cbn in Hl. rewrite drop_nil in Hl. change (len []) with 0 in Hl. cbn in *. lia. }
  destruct (read_round others fuel need p i l b rest a Hok) as (m & br' & -> & Hok' & Hcl' & Hc' & Hm & Hmc & Hend); [done..|].
  set (cont := content (MkBody i l (b :: rest) false a)) in *.
  assert (len (p ++ take (Z.to_nat m) cont) = len p + m) as Hpl by (rewrite len_app, len_take; lia).
  destruct Hend as [Hshort|Hfull].
  - destruct (IH (p ++ take (Z.to_nat m) cont) br' Hok' Hcl') as (br2 & -> & Hok2 & Hcl2 & Hc2); [lia|cbn in Hfuel; lia|].
    rewrite Hpl, Hc' in *. exists br2. split; [|split; [done|split; [done|]]].
    + rewrite <- app_assoc. do 4 f_equal.
      rewrite <- (take_drop (Z.to_nat m) cont) at 3. unfold len in *.
      rewrite take_app_ge by (rewrite length_take; lia). f_equal. f_equal. rewrite length_take. lia.
    + rewrite Hc2, drop_drop. f_equal. lia.
  - exists br'. subst m. split; [|done]. destruct fuel; cbn [read_loop]; by rewrite (proj2 (Z.ltb_ge _ _)) by lia.
Qed.

(** [Read] returns the next bytes, or the end when there are none. *)
Lemma Read_ok others need br :
  body_ok others br -> br_closed br = false -> 0 <= need ->
  exists p err br', Read need br = Some (p, err, br') /\ body_ok others br' /\ br_closed br' = false /\
    p = take (Z.to_nat need) (content br) /\ content br' = drop (Z.to_nat need) (content br) /\
    err = (if decide (content br = []) then Some BodyEOF else None).
Proof.
  intros Hok Hcl Hn. unfold Read. rewrite Hcl. pose proof (bo_left _ _ Hok) as Hl.
  destruct (br_left br <=? 0) eqn:E; bool_hyp.
  - assert (content br = []) as Hc by (apply len_zero_nil; pose proof (len_nonneg (content br)); lia).
    rewrite Hc. eexists _, _, _. split; [done|]. split; [done|]. split; [done|].
    rewrite take_nil, drop_nil. split; [done|]. split; [done|]. by rewrite decide_True.
  - destruct (read_loop_ok others (S (length (br_buffers br))) need [] br Hok Hcl) as (br' & -> & Hok' & Hcl' & Hc');
      [change (len []) with 0; lia|lia|]. change (len []) with 0 in *. rewrite Z.sub_0_r in *.
    eexists _, _, _. split; [done|]. split; [done|]. split; [done|]. split; [done|]. split; [done|].
    rewrite decide_False; [done|]. intros Hc. rewrite Hc in Hl. change (len []) with 0 in Hl. lia.
Qed.

Lemma free_all_ok others bs a :
  Forall genuine bs -> NoDup (b_id <$> bs) -> (forall x, x ∈ b_id <$> bs -> x ∉ others) ->
  alloc_inv a (list_to_set (b_id <$> bs) ∪ others) ->
  exists a', free_all bs a = Some a' /\ alloc_inv a' others.
Proof.
  revert a. induction bs as [|b bs IH]; intros a Hg Hnd Hfr Ha; cbn [free_all].
  { exists a. split; [done|]. cbn in Ha. by rewrite union_empty_l_L in Ha. }
  apply Forall_cons in Hg as [Hgb Hg]. destruct (body_drop_head others b bs a Hgb Hnd Hfr Ha) as (a1 & -> & Ha1).
  cbn in Hnd, Hfr. apply NoDup_cons in Hnd as [_ Hnd]. cbn [mbind option_bind]. apply IH; try done. set_solver.
Qed.

Lemma Close_ok others br :
  body_ok others br -> br_closed br = false ->
  exists br', Close br = Some br' /\ br_closed br' = true /\ br_buffers br' = [] /\ alloc_inv (br_alloc br') others.
Proof.
  intros [_ _ Hg Hnd Hfr Ha] Hcl. unfold Close. rewrite Hcl.
  destruct (free_all_ok others (br_buffers br) (br_alloc br) Hg Hnd Hfr Ha) as (a' & -> & Ha').
  cbn [mbind option_bind]. eexists. split; [done|]. done.
Qed.

(** ** append *)

(** The last buffer takes what fits. *)
Lemma fill_tail_ok (q : pbuf) d :
  genuine q ->
  exists q' rest, fill_tail q d = Some (q', rest) /\ genuine q' /\ b_id q' = b_id q /\
    data q' ++ rest = data q ++ d /\ b_len q <= b_len q'.
Proof.
  intros Hg. pose proof (genuine_ok _ Hg) as Hok. unfold buf_ok in Hok. pose proof (len_nonneg d).
  unfold fill_tail. destruct (0 <? cap q - b_len q) eqn:E; bool_hyp; [|exists q, d; repeat split; try done; lia].
  set (n := if len d <? cap q - b_len q then b_len q + len d else cap q).
  assert (b_len q <= n <= cap q /\ n - b_len q <= len d) as [Hn Hnd].
  { unfold n. destruct (len d <? cap q - b_len q) eqn:E2; bool_hyp; lia. }
  rewrite reslice_eq by lia. cbn [mbind option_bind copy_at b_len].
  rewrite Z.min_l by lia. rewrite slice_from_eq by lia. cbn [mbind option_bind].
  assert (length (overwrite (b_mem q) (Z.to_nat (b_len q)) (take (Z.to_nat (n - b_len q)) d)) = length (b_mem q)) as Hlen
    by apply overwrite_length.
  eexists _, _. split; [done|]. split; [apply (genuine_view q); [done|exact Hlen|cbn; lia]|].
  split; [done|]. split; [|cbn; lia].
  rewrite <- (take_drop (Z.to_nat (n - b_len q)) d) at 3. rewrite app_assoc. f_equal.
  pose proof (append_in_place q (take (Z.to_nat (n - b_len q)) d) (genuine_ok _ Hg)) as Hap.
  rewrite len_take in Hap. rewrite <- Hap by (unfold cap in *; lia). unfold data. cbn. f_equal. lia.
Qed.

Lemma push_buffer_ok others bs a d :
  Forall genuine bs -> NoDup (b_id <$> bs) -> (forall x, x ∈ b_id <$> bs -> x ∉ others) ->
  alloc_inv a (list_to_set (b_id <$> bs) ∪ others) ->
  exists q a', push_buffer d bs a = Some (bs ++ [q], a') /\ genuine q /\ data q = d /\
    NoDup (b_id <$> bs ++ [q]) /\ (forall x, x ∈ b_id <$> bs ++ [q] -> x ∉ others) /\
    alloc_inv a' (list_to_set (b_id <$> bs ++ [q]) ∪ others).
Proof.
  intros Hg Hnd Hfr Ha. unfold push_buffer. pose proof (len_nonneg d).
  destruct (malloc_law a _ (len d) Ha ltac:(done)) as (q & a' & -> & Hl & Hgq & Hid & Ha'). cbn [mbind option_bind].
  assert (genuine (copy_at q 0 d)) as Hgc by (apply genuine_view; [done|apply overwrite_length|by apply genuine_ok]).
  eexists _, _. split; [done|]. split; [done|]. split.
  { unfold len in Hl. pose proof (copy_prefix q d (length d) (genuine_ok _ Hgq) ltac:(lia) ltac:(lia)) as Hc.
    pose proof (data_len _ (genuine_ok _ Hgc)) as Hd. unfold len in Hd. cbn [copy_at b_len] in Hd.
    rewrite !take_ge in Hc by lia. done. }
  rewrite fmap_app. cbn [fmap list_fmap copy_at b_id]. split; [|split].
  - apply NoDup_app. split; [done|]. split; [set_solver|apply NoDup_singleton].
  - set_solver.
  - rewrite list_to_set_app_L. cbn.
    assert (list_to_set (b_id <$> bs) ∪ ({[b_id q]} ∪ ∅) ∪ others
      = {[b_id q]} ∪ (list_to_set (b_id <$> bs) ∪ others)) as -> by set_solver. done.
Qed.

(** More behind the last buffer is more behind the content. *)
Lemma content_more i bs l c a bs' l' a' x :
  match bs with [] => i = 0 | b :: _ => 0 <= i <= b_len b end -> Forall genuine bs ->
  concat (data <$> bs') = concat (data <$> bs) ++ x ->
  content (MkBody i l' bs' c a') = content (MkBody i l bs c a) ++ x.
Proof.
  intros Hi Hg Hx. unfold content. cbn. rewrite Hx. apply drop_app_le.
  destruct bs as [|b bs]; [subst; cbn; lia|]. apply Forall_cons in Hg as [Hg _].
  pose proof (data_len b (genuine_ok _ Hg)) as Hd. unfold len in Hd. cbn. rewrite length_app. lia.
Qed.

Lemma body_grow others i l bs c a d :
  body_ok others (MkBody i l bs c a) ->
  forall bs' a', concat (data <$> bs') = concat (data <$> bs) ++ d ->
  match bs' with [] => i = 0 | b :: _ => 0 <= i <= b_len b end ->
  Forall genuine bs' -> NoDup (b_id <$> bs') -> (forall x, x ∈ b_id <$> bs' -> x ∉ others) ->
  alloc_inv a' (list_to_set (b_id <$> bs') ∪ others) ->
  body_ok others (MkBody i (l + len d) bs' c a') /\
  content (MkBody i (l + len d) bs' c a') = content (MkBody i l bs c a) ++ d.
Proof.
  intros [Hl Hi Hg _ _ _] bs' a' Hx Hi' Hg' Hnd' Hfr' Ha'.
  pose proof (content_more i bs l c a bs' (l + len d) a' d Hi Hg Hx) as Hc. split; [|done].
  split; try done. rewrite Hc, len_app, <- Hl. done.
Qed.

Lemma append_ok others d br :
  body_ok others br -> d <> [] ->
  exists err br', append d br = Some (err, br') /\ body_ok others br' /\ br_closed br' = br_closed br /\
    if (0 <? MaxHTTPBodySize) && (MaxHTTPBodySize <? len (content br) + len d)
    then err = Some BodyTooLong /\ br' = br
    else err = None /\ content br' = content br ++ d.
Proof.
  intros Hok Hd. pose proof Hok as [Hl Hi Hg Hnd Hfr Ha]. apply len_pos in Hd. unfold append.
  rewrite (proj2 (Z.eqb_neq _ _)), <- Hl, (Z.add_comm (len d)) by lia.
  destruct ((0 <? MaxHTTPBodySize) && (MaxHTTPBodySize <? br_left br + len d)).
  { eexists _, _. split; [done|]. done. }
  destruct br as [i l bs c a]. cbn [br_index br_left br_buffers br_closed br_alloc] in *.
  pose proof (body_grow others i l bs c a d Hok) as Hdone.
  destruct (last bs) as [t|] eqn:Elast.
  - apply last_Some in Elast as (bs0 & ->). rewrite removelast_last.
    pose proof Hg as Hg0. apply Forall_app in Hg0 as [Hg0 Hgt]. apply Forall_cons in Hgt as [Hgt _].
    destruct (fill_tail_ok t d Hgt) as (t' & rest & -> & Hgt' & Hid & Hdata & Hlen). cbn [mbind option_bind].
    assert (b_id <$> bs0 ++ [t'] = b_id <$> bs0 ++ [t]) as Hids by (rewrite !fmap_app; cbn; by rewrite Hid).
    assert (Forall genuine (bs0 ++ [t'])) as Hg1 by (apply Forall_app; split; [done|by apply Forall_singleton]).
    assert (forall k, match (bs0 ++ [t']) ++ k with [] => i = 0 | b :: _ => 0 <= i <= b_len b end) as Hi1.
    { intros k. destruct bs0; cbn in *; [lia|done]. }
    destruct (0 <? len rest) eqn:Er; bool_hyp.
    + rewrite <- Hids in Hnd, Hfr, Ha.
      destruct (push_buffer_ok others (bs0 ++ [t']) a rest Hg1 Hnd Hfr Ha) as (q & a' & -> & Hgq & Hdq & Hnd' & Hfr' & Ha').
      cbn [mbind option_bind]. eexists _, _. split; [done|].
      destruct (Hdone ((bs0 ++ [t']) ++ [q]) a') as [? ?]; try done.
      * rewrite !fmap_app, !concat_app. cbn. rewrite Hdq, !app_nil_r, <- !app_assoc. by rewrite Hdata.
      * apply (Hi1 [q]).
      * apply Forall_app. split; [done|by apply Forall_singleton].
    + assert (rest = []) as -> by (apply len_zero_nil; pose proof (len_nonneg rest); lia).
      rewrite app_nil_r in Hdata. cbn [mbind option_bind]. eexists _, _. split; [done|].
      destruct (Hdone (bs0 ++ [t']) a) as [? ?]; rewrite ?Hids; try done.
      * rewrite !fmap_app, !concat_app. cbn. by rewrite !app_nil_r, <- app_assoc, Hdata.
      * specialize (Hi1 []). by rewrite app_nil_r in Hi1.
  - apply last_None in Elast as ->.
    destruct (push_buffer_ok others [] a d Hg Hnd Hfr Ha) as (q & a' & -> & Hgq & Hdq & Hnd' & Hfr' & Ha').
    cbn [mbind option_bind]. eexists _, _. split; [done|].
    destruct (Hdone ([] ++ [q]) a') as [? ?]; try done; cbn.
    + by rewrite Hdq, app_nil_r.
    + pose proof (genuine_ok _ Hgq) as Hq. unfold buf_ok in Hq. lia.
    + by apply Forall_singleton.
Qed.

(** ** Sequences of operations *)

Inductive body_op := BAppend (d : bytes) | BRead (need : Z).

(** The abstract body is the string of the bytes appended and not yet read. *)
Definition body_spec (o : body_op) (q : bytes) : bytes * option body_err * bytes :=
  match o with
  | BAppend d =>
      if negb (len d =? 0) && (0 <? MaxHTTPBodySize) && (MaxHTTPBodySize <? len q + len d)
      then ([], Some BodyTooLong, q) else ([], None, q ++ d)
  | BRead need =>
      (take (Z.to_nat need) q, if decide (q = []) then Some BodyEOF else None, drop (Z.to_nat need) q)
  end.

Definition body_do (o : body_op) (br : BodyReader) : option (bytes * option body_err * BodyReader) :=
  match o with
  | BAppend d => '(err, br) ← append d br; Some ([], err, br)
  | BRead need => Read need br
  end.

Fixpoint body_run (os : list body_op) (br : BodyReader) : option (list (bytes * option body_err) * BodyReader) :=
  match os with
  | [] => Some ([], br)
  | o :: os =>
      '(p, err, br) ← body_do o br;
      '(rs, br) ← body_run os br;
      Some ((p, err) :: rs, br)
  end.

Fixpoint spec_run (os : list body_op) (q : bytes) : list (bytes * option body_err) * bytes :=
  match os with
  | [] => ([], q)
  | o :: os => let '(p, err, q) := body_spec o q in
               let '(rs, q) := spec_run os q in ((p, err) :: rs, q)
  end.

Definition op_ok (o : body_op) : Prop := match o with BRead need => 0 <= need | BAppend _ => True end.

Lemma body_do_ok others o br :
  body_ok others br -> br_closed br = false -> op_ok o ->
  exists br', body_do o br = Some ((body_spec o (content br)).1, br') /\ body_ok others br' /\
    br_closed br' = false /\ content br' = (body_spec o (content br)).2.
Proof.
  intros Hok Hcl Ho. destruct o as [d|need]; cbn [body_do body_spec].
  - destruct (len d =? 0) eqn:Ed; bool_hyp.
    { apply len_zero_nil in Ed as ->. cbn. eexists. split; [done|]. by rewrite app_nil_r. }
    destruct (append_ok others d br Hok) as (err & br' & -> & Hok' & Hcl' & Hres); [intros ->; done|].
    cbn [mbind option_bind negb andb]. rewrite Hcl in Hcl'.
    destruct ((0 <? MaxHTTPBodySize) && (MaxHTTPBodySize <? len (content br) + len d));
      destruct Hres as [-> Hres]; [subst br'|]; by eexists.
  - destruct (Read_ok others need br Hok Hcl Ho) as (p & err & br' & -> & Hok' & Hcl' & -> & Hc & ->). by eexists.
Qed.

Lemma body_run_ok others os br :
  body_ok others br -> br_closed br = false -> Forall op_ok os ->
  exists br', body_run os br = Some ((spec_run os (content br)).1, br') /\ body_ok others br' /\
    br_closed br' = false /\ content br' = (spec_run os (content br)).2.
Proof.
  revert br. induction os as [|o os IH]; intros br Hok Hcl Ho; cbn [body_run spec_run]; [by eexists|].
  apply Forall_cons in Ho as [Ho Hos]. destruct (body_do_ok others o br Hok Hcl Ho) as (br1 & -> & Hok1 & Hcl1 & Hc1).
  destruct (body_spec o (content br)) as [[p err] q]. cbn [fst snd mbind option_bind] in *. subst q.
  destruct (IH br1 Hok1 Hcl1 Hos) as (br2 & -> & Hok2 & Hcl2 & Hc2).
  destruct (spec_run os (content br1)) as [rs q]. cbn in *. by eexists.
Qed.

Lemma spec_bounded os q :
  0 < MaxHTTPBodySize -> len q <= MaxHTTPBodySize -> len (spec_run os q).2 <= MaxHTTPBodySize.
Proof.
  intros Hm. revert q. induction os as [|o os IH]; intros q Hq; cbn [spec_run]; [done|].
  destruct (body_spec o q) as [[p err] q'] eqn:E. destruct (spec_run os q') as [rs q2] eqn:E2. cbn.
  specialize (IH q'). rewrite E2 in IH. apply IH. clear IH E2. destruct o as [d|need]; cbn in E.
  - rewrite (proj2 (Z.ltb_lt 0 _)) in E by done. rewrite andb_true_r in E.
    destruct (len d =? 0) eqn:Ed; cbn in E; bool_hyp.
    + injection E as <- <- <-. apply len_zero_nil in Ed as ->. by rewrite app_nil_r.
    + destruct (MaxHTTPBodySize <? len q + len d) eqn:El; injection E as <- <- <-; [done|]. bool_hyp. by rewrite len_app.
  - injection E as <- <- <-. rewrite len_drop. pose proof (len_nonneg q). lia.
Qed.

Lemma NewBodyReader_ok others a : alloc_inv a others -> body_ok others (NewBodyReader a).
Proof.
  intros Ha. split; cbn; try done; [constructor|set_solver|by rewrite union_empty_l_L].
Qed.

(** C33: a body behaves as a string: bytes come out as they were appended, in
    order and once, whatever the sizes of the pieces and of the reads; a piece
    that would exceed the limit is refused whole; the end is reported exactly
    when nothing is left; and closing gives every buffer back, after which
    every read reports the end. *)
Theorem body_is_string (others : gset nat) (a : A) (os : list body_op) :
  alloc_inv a others -> Forall op_ok os ->
  exists br, body_run os (NewBodyReader a) = Some ((spec_run os []).1, br) /\
    content br = (spec_run os []).2 /\
    exists br', Close br = Some br' /\ alloc_inv (br_alloc br') others /\
      Close br' = Some br' /\ forall need, Read need br' = Some ([], Some BodyEOF, br').
Proof.
  intros Ha Ho. destruct (body_run_ok others os (NewBodyReader a) (NewBodyReader_ok others a Ha) eq_refl Ho)
    as (br & He & Hok & Hcl & Hc).
  exists br. split; [done|]. split; [done|].
  destruct (Close_ok others br Hok Hcl) as (br' & Hx & Hcl' & _ & Ha'). exists br'.
  split; [done|]. split; [done|]. unfold Close, Read. rewrite Hcl'. done.
Qed.

(** The unread bytes of a body never exceed the configured limit. *)
Theorem body_bounded (others : gset nat) (a : A) (os : list body_op) :
  alloc_inv a others -> Forall op_ok os -> 0 < MaxHTTPBodySize ->
  exists rs br, body_run os (NewBodyReader a) = Some (rs, br) /\ br_left br <= MaxHTTPBodySize.
Proof.
  intros Ha Ho Hm. destruct (body_run_ok others os (NewBodyReader a) (NewBodyReader_ok others a Ha) eq_refl Ho)
    as (br & He & Hok & Hcl & Hc).
  eexists _, br. split; [done|]. rewrite (bo_left _ _ Hok), Hc.
  apply spec_bounded; [done|]. change (len (content (NewBodyReader a))) with 0. lia.
Qed.

End body.

(** ** Witnesses *)

Section witness.
#[local] Instance body_allocator : Allocator aligned := aligned_allocator (fun _ => Some 0%nat).
#[local] Instance body_laws : AllocatorLaws aligned := aligned_laws (fun _ => Some 0%nat).

Lemma aligned_empty : alloc_inv newAligned ∅.
Proof.
  split; [done|..|done].
  - intros i pool H. apply lookup_replicate in H as [-> _]. done.
  - repeat split; [constructor|set_solver|set_solver].
Qed.

Definition body_script : list body_op :=
  [BAppend (str "hello "); BAppend (str "world"); BRead 4; BAppend (str "!"); BRead 100; BRead 1].

Lemma body_is_string_witness :
  exists br, body_run 20 body_script (NewBodyReader newAligned)
    = Some ([([], None); ([], None); (str "hell", None); ([], None); (str "o world!", None); ([], Some BodyEOF)], br) /\
    content br = [].
Proof.
  destruct (body_is_string 20 ∅ newAligned body_script aligned_empty) as (br & He & Hc & _).
  - repeat constructor; done.
  - exists br. split; [exact He|exact Hc].
Defined.

Lemma body_bounded_witness :
  exists rs br, body_run 20 body_script (NewBodyReader newAligned) = Some (rs, br) /\ br_left br <= 20.
Proof. apply (body_bounded 20 ∅ newAligned body_script aligned_empty); [repeat constructor; done|done]. Defined.
End witness.
