(* ===== verification/Response.v ===== *)
(** * The HTTP response (src/nbhttp/response.go)

    The response writer of a handler: the head, the chunks or the body of a
    declared length, buffered up to [maxPacketSize], and the final flush.  The
    connection is a list of the byte strings written to it; [conn_fail] says
    when a write to it fails, and with which count and error.  The text of a status, the order in which a map
    is iterated, and the current time are parameters. *)

From Stdlib Require Import ZArith Lia.
From Stdlib Require Import Strings.Byte Strings.String.
From stdpp Require Import base numbers list list_numbers gmap.
From S2P Require Import Prelude GoLib Table Parser Mempool.

Open Scope Z_scope.

(** What a handler does with its response. *)
Inductive resp_op := HWrite (d : bytes) | HFlush.

Inductive resp_err := ErrContentLength | ErrBadLength | ErrConn (e : Z).

(** The parts of the request a response depends on. *)
Record req_info := MkReq {
  q_Proto : bytes;
  q_atLeast11 : bool;
  q_Close : bool
}.

(** [time.Time] in UTC, as [Date], [Clock] and [Weekday] give it. *)
Record utc := MkUtc { u_year : Z; u_month : Z; u_day : Z; u_weekday : Z; u_hour : Z; u_min : Z; u_sec : Z }.

Definition maxPacketSize : Z := 65536.
Definition CRLF : bytes := [CR; LF].

Section response.
Context {A : Type} `{!Allocator A}.
Context (StatusText : Z -> bytes) (iter : Header -> list (bytes * list bytes)).
Context (iter_trailer : gmap bytes bytes -> list (bytes * bytes)).
Context (now : utc) (conn_fail : list bytes -> bytes -> option (Z * Z)).
Context (req : req_info).

Record Response := MkResponse {
  r_status : bytes;
  r_statusCode : Z;
  r_header : Header;
  r_trailer : gmap bytes bytes;
  r_trailerSize : Z;
  r_buffer : option pbuf;
  r_bodyBuffer : option pbuf;
  r_contentLen : Z;
  r_bodyWritten : Z;
  r_chunked : bool;
  r_chunkChecked : bool;
  r_headEncoded : bool;
  r_hasBody : bool;
  r_hijacked : bool;
  r_alloc : A;
  r_wire : list bytes
}.

Definition set_status (st : bytes) (code : Z) (s : Response) : Response :=
  MkResponse st code (r_header s) (r_trailer s) (r_trailerSize s) (r_buffer s) (r_bodyBuffer s)
    (r_contentLen s) (r_bodyWritten s) (r_chunked s) (r_chunkChecked s) (r_headEncoded s) (r_hasBody s)
    (r_hijacked s) (r_alloc s) (r_wire s).
Definition set_hdr (h : Header) (s : Response) : Response :=
  MkResponse (r_status s) (r_statusCode s) h (r_trailer s) (r_trailerSize s) (r_buffer s)
    (r_bodyBuffer s) (r_contentLen s) (r_bodyWritten s) (r_chunked s) (r_chunkChecked s) (r_headEncoded
    s) (r_hasBody s) (r_hijacked s) (r_alloc s) (r_wire s).
Definition set_trailer (t : gmap bytes bytes) (n : Z) (s : Response) : Response :=
  MkResponse (r_status s) (r_statusCode s) (r_header s) t n (r_buffer s) (r_bodyBuffer s)
    (r_contentLen s) (r_bodyWritten s) (r_chunked s) (r_chunkChecked s) (r_headEncoded s) (r_hasBody s)
    (r_hijacked s) (r_alloc s) (r_wire s).
Definition set_buffer (b : option pbuf) (s : Response) : Response :=
  MkResponse (r_status s) (r_statusCode s) (r_header s) (r_trailer s) (r_trailerSize s) b
    (r_bodyBuffer s) (r_contentLen s) (r_bodyWritten s) (r_chunked s) (r_chunkChecked s) (r_headEncoded
    s) (r_hasBody s) (r_hijacked s) (r_alloc s) (r_wire s).
Definition set_bodyBuffer (b : option pbuf) (s : Response) : Response :=
  MkResponse (r_status s) (r_statusCode s) (r_header s) (r_trailer s) (r_trailerSize s) (r_buffer s) b
    (r_contentLen s) (r_bodyWritten s) (r_chunked s) (r_chunkChecked s) (r_headEncoded s) (r_hasBody s)
    (r_hijacked s) (r_alloc s) (r_wire s).
Definition set_contentLen (n : Z) (s : Response) : Response :=
  MkResponse (r_status s) (r_statusCode s) (r_header s) (r_trailer s) (r_trailerSize s) (r_buffer s)
    (r_bodyBuffer s) n (r_bodyWritten s) (r_chunked s) (r_chunkChecked s) (r_headEncoded s) (r_hasBody
    s) (r_hijacked s) (r_alloc s) (r_wire s).
Definition set_bodyWritten (n : Z) (s : Response) : Response :=
  MkResponse (r_status s) (r_statusCode s) (r_header s) (r_trailer s) (r_trailerSize s) (r_buffer s)
    (r_bodyBuffer s) (r_contentLen s) n (r_chunked s) (r_chunkChecked s) (r_headEncoded s) (r_hasBody s)
    (r_hijacked s) (r_alloc s) (r_wire s).
Definition set_chunks (c k : bool) (s : Response) : Response :=
  MkResponse (r_status s) (r_statusCode s) (r_header s) (r_trailer s) (r_trailerSize s) (r_buffer s)
    (r_bodyBuffer s) (r_contentLen s) (r_bodyWritten s) c k (r_headEncoded s) (r_hasBody s) (r_hijacked
    s) (r_alloc s) (r_wire s).
Definition set_headEncoded  (s : Response) : Response :=
  MkResponse (r_status s) (r_statusCode s) (r_header s) (r_trailer s) (r_trailerSize s) (r_buffer s)
    (r_bodyBuffer s) (r_contentLen s) (r_bodyWritten s) (r_chunked s) (r_chunkChecked s) true (r_hasBody
    s) (r_hijacked s) (r_alloc s) (r_wire s).
Definition set_hasBody  (s : Response) : Response :=
  MkResponse (r_status s) (r_statusCode s) (r_header s) (r_trailer s) (r_trailerSize s) (r_buffer s)
    (r_bodyBuffer s) (r_contentLen s) (r_bodyWritten s) (r_chunked s) (r_chunkChecked s) (r_headEncoded
    s) true (r_hijacked s) (r_alloc s) (r_wire s).
Definition set_hijacked  (s : Response) : Response :=
  MkResponse (r_status s) (r_statusCode s) (r_header s) (r_trailer s) (r_trailerSize s) (r_buffer s)
    (r_bodyBuffer s) (r_contentLen s) (r_bodyWritten s) (r_chunked s) (r_chunkChecked s) (r_headEncoded
    s) (r_hasBody s) true (r_alloc s) (r_wire s).
Definition set_ralloc (a : A) (s : Response) : Response :=
  MkResponse (r_status s) (r_statusCode s) (r_header s) (r_trailer s) (r_trailerSize s) (r_buffer s)
    (r_bodyBuffer s) (r_contentLen s) (r_bodyWritten s) (r_chunked s) (r_chunkChecked s) (r_headEncoded
    s) (r_hasBody s) (r_hijacked s) a (r_wire s).
Definition set_wire (w : list bytes) (s : Response) : Response :=
  MkResponse (r_status s) (r_statusCode s) (r_header s) (r_trailer s) (r_trailerSize s) (r_buffer s)
    (r_bodyBuffer s) (r_contentLen s) (r_bodyWritten s) (r_chunked s) (r_chunkChecked s) (r_headEncoded
    s) (r_hasBody s) (r_hijacked s) (r_alloc s) w.

Definition NewResponse (a : A) : Response :=
  MkResponse [] 0 ∅ ∅ 0 None None 0 0 false false false false false a [].

Definition Hijack (s : Response) : Response := set_hijacked s.

(** [conn.Write(b)]: the count, and the error of a failed write. *)
Definition conn_Write (b : bytes) (s : Response) : Z * option resp_err * Response :=
  match conn_fail (r_wire s) b with
  | Some (n, e) => (n, Some (ErrConn e), s)
  | None => (len b, None, set_wire (r_wire s ++ [b]) s)
  end.

Definition pool_free (p : pbuf) (s : Response) : option Response :=
  a ← Free p (r_alloc s); Some (set_ralloc a s).

(** Consecutive [mempool.Append] and [mempool.AppendString] calls. *)
Fixpoint append_all (ps : list bytes) (p : pbuf) (a : A) : option (pbuf * A) :=
  match ps with
  | [] => Some (p, a)
  | x :: ps => '(p, a) ← Append p x a; append_all ps p a
  end.

(** ** The head *)

Definition WriteHeader (statusCode : Z) (s : Response) : Response :=
  if negb (r_hijacked s) && (r_statusCode s =? 0) && negb (r_statusCode s =? statusCode) then
    let status := StatusText statusCode in
    let s := if bool_decide (status = []) then s else set_status status statusCode s in
    let cl := header_get (r_header s) contentLengthHeader in
    if bool_decide (cl = []) then s
    else
      match ParseInt cl 10 64 with
      | Some v => if 0 <=? v then s else set_hdr (header_del (r_header s) contentLengthHeader) s
      | None => set_hdr (header_del (r_header s) contentLengthHeader) s
      end
  else s.

Definition checkChunked (s : Response) : Response :=
  if r_chunkChecked s then s
  else
    if existsb (fun v => bool_decide (v = str "chunked")) (default [] (r_header s !! transferEncodingHeader)) then
      set_hdr (delete contentLengthHeader (r_header s)) (set_chunks true true s)
    else
      let c := q_atLeast11 req && bool_decide (header_get (r_header s) contentLengthHeader = []) &&
               negb (r_statusCode s =? 204) && negb (r_statusCode s =? 304) in
      let c := c || (0 <? len (default [] (r_header s !! trailerHeader))) in
      let s := set_chunks (c || r_chunked s) true s in
      if r_chunked s then
        set_hdr (delete contentLengthHeader (<[transferEncodingHeader := [str "chunked"]]> (r_header s))) s
      else s.

Definition digit (z : Z) : byte := z2b (48 + z).

(** The three letters of the day and of the month. *)
Definition day_name (w : Z) : bytes := take 3 (drop (Z.to_nat (3 * w)) (str "SunMonTueWedThuFriSat")).
Definition month_name (m : Z) : bytes :=
  take 3 (drop (Z.to_nat (3 * (m - 1))) (str "JanFebMarAprMayJunJulAugSepOctNovDec")).

Definition date_line (t : utc) : bytes :=
  str "Date: " ++ day_name (u_weekday t) ++ str ", " ++
  [digit (u_day t / 10); digit (u_day t mod 10); SP] ++ month_name (u_month t) ++ [SP] ++
  [digit (u_year t / 1000); digit ((u_year t / 100) mod 10); digit ((u_year t / 10) mod 10);
   digit (u_year t mod 10); SP] ++
  [digit (u_hour t / 10); digit (u_hour t mod 10); ":"%byte;
   digit (u_min t / 10); digit (u_min t mod 10); ":"%byte;
   digit (u_sec t / 10); digit (u_sec t mod 10); SP] ++ str "GMT" ++ CRLF.

(** The pieces the head is put together from, in order. *)
Definition status_pieces (s : Response) : list bytes :=
  let c := r_statusCode s in
  [q_Proto req; [SP; digit (c / 100); digit ((c mod 100) / 10); digit (c mod 10); SP]; r_status s; CRLF].

Definition length_pieces (s : Response) : list bytes :=
  if negb (r_chunked s) && (len (default [] (r_header s !! contentLengthHeader)) =? 0) then
    str "Content-Length: " ::
    (if negb (r_hasBody s) then [[ "0"%byte; CR; LF]]
     else
       let l := match r_bodyBuffer s with Some b => b_len b | None => 0 end in
       if 0 <? l then [FormatUint l 10; CRLF] else [["0"%byte; CR; LF]])
  else [].

Definition fixed_pieces (s : Response) : list bytes :=
  (if r_hasBody s && (len (default [] (r_header s !! str "Content-Type")) =? 0)
   then [str "Content-Type: text/plain; charset=utf-8" ++ CRLF] else []) ++
  length_pieces s ++
  (if q_Close req && (len (default [] (r_header s !! str "Connection")) =? 0)
   then [str "Connection: close" ++ CRLF] else []) ++
  (if len (default [] (r_header s !! str "Date")) =? 0 then [date_line now] else []).

Definition field_pieces (k : bytes) (vv : list bytes) : list bytes :=
  concat (map (fun v => [k; [":"%byte; SP]; v; CRLF]) vv).

(** The trailers announced, empty. *)
Definition announced (s : Response) : gmap bytes bytes :=
  foldl (fun t k => <[k := []]> t) ∅ (default [] (r_header s !! trailerHeader)).

(** The loop over the header: fields go to the head, announced trailers are
    kept with their value. *)
Fixpoint header_loop (h : Header) (kvs : list (bytes * list bytes)) (t : gmap bytes bytes) (n : Z)
    : list bytes * gmap bytes bytes * Z :=
  match kvs with
  | [] => ([], t, n)
  | (k, vv) :: kvs =>
      if decide (is_Some (t !! k)) then
        if 0 <? len vv then
          let v := header_get h k in
          header_loop h kvs (<[k := v]> t) (n + (len k + len v + 4))
        else header_loop h kvs t n
      else
        let '(ps, t, n) := header_loop h kvs t n in
        (field_pieces k vv ++ ps, t, n)
  end.

Definition eoncodeHead (s : Response) : option Response :=
  if r_headEncoded s then Some s
  else
    let s := set_headEncoded s in
    '(p, a) ← Malloc 1024 (r_alloc s);
    p ← reslice p 0;
    let '(ps, t, n) := header_loop (r_header s) (iter (r_header s)) (announced s) (r_trailerSize s) in
    '(p, a) ← append_all (status_pieces s ++ fixed_pieces s ++ ps ++ [CRLF]) p a;
    Some (set_buffer (Some p) (set_trailer t n (set_ralloc a s))).

(** ** Chunks *)

(** The loop of [formatInt], from the back of its ten bytes. *)
Fixpoint formatInt_loop (room : nat) (base n : Z) (acc : bytes) : option bytes :=
  match room with
  | O => None
  | S room =>
      let acc := digit_char (n mod base) :: acc in
      let n := n / base in
      if n <=? 0 then Some acc else formatInt_loop room base n acc
  end.

Definition formatInt (n base : Z) : option bytes :=
  if (n <? 0) || (0x7FFFFFFF <? n) then Some [] else formatInt_loop 10 base n [].

Definition writeChunk (d : bytes) (s : Response) : option (Z * option resp_err * Response) :=
  s ← eoncodeHead s;
  let pbuf := r_buffer s in
  let s := set_buffer None s in
  lenStr ← formatInt (len d) 16;
  let totalSize := len lenStr + len d + 4 + match pbuf with Some p => b_len p | None => 0 end in
  if totalSize <? maxPacketSize then
    '(p, s) ← match pbuf with
              | Some p => Some (p, s)
              | None => '(p, a) ← Malloc totalSize (r_alloc s); Some (p, set_ralloc a s)
              end;
    '(p, a) ← append_all [lenStr; CRLF; d; CRLF] p (r_alloc s);
    Some (len d, None, set_buffer (Some p) (set_ralloc a s))
  else
    '(p, err, s) ←
      match pbuf with
      | Some p =>
          '(p, a) ← append_all [lenStr; CRLF] p (r_alloc s);
          let '(_, err, s) := conn_Write (data p) (set_ralloc a s) in
          s ← pool_free p s;
          (** the buffer that was given back is used on *)
          p ← reslice p 0;
          Some (p, err, s)
      | None =>
          '(p, a) ← Malloc totalSize (r_alloc s);
          p ← reslice p 0;
          '(p, a) ← append_all [lenStr; CRLF] p a;
          Some (p, None, set_ralloc a s)
      end;
    match err with
    | Some e => Some (0, Some e, s)
    | None =>
        '(p, a) ← append_all [d; CRLF] p (r_alloc s);
        let s := set_ralloc a s in
        if b_len p <? maxPacketSize then Some (len d, None, set_buffer (Some p) s)
        else
          let '(_, err, s) := conn_Write (data p) s in
          s ← pool_free p s;
          match err with
          | Some e => Some (0, Some e, s)
          | None => Some (len d, None, s)
          end
    end.

(** ** A body of a declared length *)

Definition contentLength (s : Response) : Z * option resp_err * Response :=
  if 0 <? r_contentLen s then (r_contentLen s, None, s)
  else
    let cl := header_get (r_header s) contentLengthHeader in
    if bool_decide (cl = []) then (0, None, s)
    else
      match ParseInt cl 10 64 with
      | Some v => (v, None, set_contentLen v s)
      | None => (0, Some ErrBadLength, s)
      end.

(** From the label [APPEND_BODY] on. *)
Definition append_body (cl : Z) (d : bytes) (s : Response) : option (Z * option resp_err * Response) :=
  let l := len d in
  let direct s :=
    Some (conn_Write d (set_bodyWritten (r_bodyWritten s + l) s)) in
  let cache p s :=
    let s := set_bodyWritten (r_bodyWritten s + l) s in
    '(p, a) ← Append p d (r_alloc s);
    let s := set_ralloc a s in
    if (0 <? cl) && (maxPacketSize <=? b_len p) then
      let '(l, err, s) := conn_Write (data p) s in
      match err with
      | Some e => s ← pool_free p s; Some (l, Some e, set_bodyBuffer None s)
      | None => q ← reslice p 0; Some (l, None, set_bodyBuffer (Some q) s)
      end
    else Some (l, None, set_bodyBuffer (Some p) s) in
  match r_bodyBuffer s with
  | None =>
      if (0 <? cl) && (maxPacketSize <=? l) then direct s
      else
        '(p, a) ← Malloc l (r_alloc s);
        p ← reslice p 0;
        cache p (set_ralloc a s)
  | Some p =>
      if (0 <? cl) && (maxPacketSize <? b_len p + l) then
        '(p, err, s) ← (if 0 <? b_len p then
                          let '(_, err, s) := conn_Write (data p) s in
                          q ← reslice p 0;
                          match err with
                          | Some e => s ← pool_free q s; Some (q, Some e, set_bodyBuffer None s)
                          | None => Some (q, None, set_bodyBuffer (Some q) s)
                          end
                        else Some (p, None, s));
        match err with
        | Some e => Some (0, Some e, s)
        | None =>
            if maxPacketSize <=? l then
              s ← pool_free p s;
              direct (set_bodyBuffer None s)
            else cache p s
        end
      else cache p s
  end.

Definition Write (d : bytes) (s : Response) : option (Z * option resp_err * Response) :=
  let l := len d in
  if l =? 0 then Some (0, None, s)
  else
    let s := WriteHeader 200 s in
    let s := checkChunked s in
    let s := set_hasBody s in
    if r_chunked s then writeChunk d s
    else
      let '(cl, err, s) := contentLength s in
      match err with
      | Some e => Some (0, Some e, s)
      | None =>
          if (0 <? cl) && (cl <? r_bodyWritten s + l) then Some (0, Some ErrContentLength, s)
          else if 0 <? cl then
            s ← eoncodeHead s;
            let pbuf := r_buffer s in
            let s := set_buffer None s in
            match pbuf with
            | None => append_body cl d s
            | Some p =>
                if b_len p + l <? maxPacketSize then append_body cl d (set_bodyBuffer (Some p) s)
                else
                  let '(_, err, s) := conn_Write (data p) s in
                  s ← pool_free p s;
                  match err with
                  | Some e => Some (0, Some e, s)
                  | None => append_body cl d s
                  end
            end
          else append_body cl d s
      end.

(** ** Flushing *)

(** One buffer of [Flush]: it is sent and emptied, or given back on error. *)
Definition flush_part (b : option pbuf) (s : Response) : option (option pbuf * Response) :=
  match b with
  | Some p =>
      if 0 <? b_len p then
        let '(_, err, s) := conn_Write (data p) s in
        match err with
        | Some _ => s ← pool_free p s; Some (None, s)
        | None => q ← reslice p 0; Some (Some q, s)
        end
      else Some (Some p, s)
  | None => Some (None, s)
  end.

Definition Flush (s : Response) : option Response :=
  if r_hijacked s then Some s
  else
    let s := WriteHeader 200 s in
    let s := checkChunked s in
    s ← eoncodeHead s;
    '(b, s) ← flush_part (r_buffer s) s;
    let s := set_buffer b s in
    '(b, s) ← flush_part (r_bodyBuffer s) s;
    Some (set_bodyBuffer b s).

Definition trailer_pieces (t : gmap bytes bytes) : list bytes :=
  concat (map (fun kv => [kv.1; str ": "; kv.2; CRLF]) (iter_trailer t)).

(** [conn.Write] of a buffer, then [Free]. *)
Definition send_free (p : pbuf) (s : Response) : option (option resp_err * Response) :=
  let '(_, err, s) := conn_Write (data p) s in
  s ← pool_free p s;
  Some (err, s).

(** The end of a response without chunks. *)
Definition flush_plain (s : Response) : option (option resp_err * Response) :=
  '(err, s) ←
    match r_buffer s with
    | None => Some (None, s)
    | Some p =>
        '(err, p, s) ←
          match r_bodyBuffer s with
          | Some b =>
              if 0 <? b_len b then
                if maxPacketSize <? b_len p + b_len b then
                  '(err, s) ← send_free p s;
                  let s := set_bodyBuffer None (set_buffer None s) in
                  match err with
                  | Some e => s ← pool_free b s; Some (Some e, b, s)
                  | None => Some (None, b, s)
                  end
                else
                  '(p, a) ← Append p (data b) (r_alloc s);
                  s ← pool_free b (set_ralloc a s);
                  Some (None, p, set_bodyBuffer None s)
              else Some (None, p, s)
          | None => Some (None, p, s)
          end;
        match err with
        | Some e => Some (Some e, s)
        | None => '(err, s) ← send_free p s; Some (err, set_buffer None s)
        end
    end;
  match err with
  | Some e => Some (Some e, s)
  | None =>
      match r_bodyBuffer s with
      | Some b =>
          if 0 <? b_len b then '(err, s) ← send_free b s; Some (err, set_bodyBuffer None s)
          else Some (None, s)
      | None => Some (None, s)
      end
  end.

Definition flush_chunked (s : Response) : option (option resp_err * Response) :=
  let pdata := r_buffer s in
  let s := set_buffer None s in
  '(p, a) ←
    (if decide (r_trailer s = ∅) then
       '(p, a) ← match pdata with Some p => Some (p, r_alloc s) | None => Malloc 0 (r_alloc s) end;
       append_all [str "0" ++ CRLF ++ CRLF] p a
     else
       '(p, a) ← match pdata with
                 | Some p => Some (p, r_alloc s)
                 | None => '(p, a) ← Malloc 512 (r_alloc s); p ← reslice p 0; Some (p, a)
                 end;
       append_all ([str "0" ++ CRLF] ++ trailer_pieces (r_trailer s) ++ [CRLF]) p a);
  send_free p (set_ralloc a s).

Definition flush (s : Response) : option (option resp_err * Response) :=
  if r_chunked s then flush_chunked s else flush_plain s.

(** [flushResponse] of the server's processor, up to the flush. *)
Definition finish (s : Response) : option (option resp_err * Response) :=
  if r_hijacked s then Some (None, s)
  else
    let s := WriteHeader 200 s in
    let s := checkChunked s in
    s ← eoncodeHead s;
    flush s.

(** A handler's writes and flushes, with the results of its writes. *)
Fixpoint handle (ops : list resp_op) (s : Response) : option (list (Z * option resp_err) * Response) :=
  match ops with
  | [] => Some ([], s)
  | HWrite d :: ops =>
      '(n, e, s) ← Write d s;
      '(rs, s) ← handle ops s;
      Some ((n, e) :: rs, s)
  | HFlush :: ops => s ← Flush s; handle ops s
  end.

End response.

Arguments Response : clear implicits.
