(* ===== verification/ResponseProps.v ===== *)
(** * The wire form of a response

    What a handler's writes and flushes put on the connection, for the three
    framings of response.go: chunks, a declared length, and a length found out
    at the end. *)

From Stdlib Require Import ZArith Lia.
From Stdlib Require Import Strings.Byte Strings.String.
From stdpp Require Import base numbers list list_numbers gmap.
From S2P Require Import Prelude GoLib Table Parser ParserMessage Mempool MempoolFacts MempoolProps Response.

Open Scope Z_scope.

(** ** Owned buffers *)

Section owned.
Context {A : Type} `{!Allocator A} `{!AllocatorLaws A}.

(** The client owns [p] besides [live]. *)
Definition holds (a : A) (live : gset nat) (p : pbuf) : Prop :=
  genuine p /\ (b_id p ∉ live) /\ alloc_inv a ({[b_id p]} ∪ live).

Lemma holds_len a live p : holds a live p -> b_len p = len (data p).
Proof. intros (Hg & _). symmetry. apply data_len. by apply genuine_ok in Hg. Qed.

Lemma append_one a live p d :
  holds a live p -> exists p' a', Append p d a = Some (p', a') /\ holds a' live p' /\ data p' = data p ++ d.
Proof.
  intros (Hg & Hn & Ha). destruct (append_law a _ p d Ha Hg) as (p' & a' & E & Hd & Hg' & Hn' & Ha'); [set_solver|].
  assert (({[b_id p]} ∪ live) ∖ {[b_id p]} = live) as Hl by (apply live_back; done).
  rewrite Hl in Hn', Ha'. exists p', a'. done.
Qed.

Lemma append_all_ok ps : forall p a live,
  holds a live p ->
  exists p' a', append_all ps p a = Some (p', a') /\ holds a' live p' /\ data p' = data p ++ concat ps.
Proof.
  induction ps as [|x ps IH]; intros p a live H.
  - exists p, a. by rewrite app_nil_r.
  - destruct (append_one a live p x H) as (p1 & a1 & E & H1 & D1).
    destruct (IH p1 a1 live H1) as (p2 & a2 & E2 & H2 & D2). exists p2, a2. split; [|split; [done|]].
    + cbn [append_all]. by rewrite E.
    + rewrite D2, D1. cbn [concat]. by rewrite app_assoc.
Qed.

Lemma reslice_zero a live p :
  holds a live p -> exists q, reslice p 0 = Some q /\ holds a live q /\ data q = [] /\ b_len q = 0.
Proof.
  intros (Hg & Hn & Ha). pose proof (genuine_ok _ Hg) as Hok. unfold buf_ok in Hok.
  exists (MkBuf (b_id p) (b_mem p) 0). split; [apply reslice_eq; lia|].
  split; [|done]. split; [apply genuine_view; [done|done|lia]|done].
Qed.

Lemma malloc_zero a live n :
  alloc_inv a live -> 0 <= n ->
  exists p a' q, Malloc n a = Some (p, a') /\ reslice p 0 = Some q /\ holds a' live q /\ data q = [].
Proof.
  intros Ha Hn. destruct (malloc_law a live n Ha Hn) as (p & a' & E & _ & Hg & Hni & Ha').
  destruct (reslice_zero a' live p) as (q & Eq & Hq & Dq & _); [done|]. by exists p, a', q.
Qed.

Lemma free_one a live p : holds a live p -> exists a', Free p a = Some a' /\ alloc_inv a' live.
Proof.
  intros (Hg & Hn & Ha). destruct (free_law a _ p Ha Hg) as (a' & E & Ha'); [set_solver|].
  assert (({[b_id p]} ∪ live) ∖ {[b_id p]} = live) as Hl by (apply live_back; done).
  rewrite Hl in Ha'. by exists a'.
Qed.
End owned.

(** ** Chunk sizes *)

Lemma fmt_loop_eq base : 2 <= base -> forall room f n acc,
  0 <= n < base ^ Z.of_nat room -> n < 2 ^ Z.of_nat f -> (0 < room)%nat -> (0 < f)%nat ->
  formatInt_loop room base n acc = Some (fmt_digits f base n acc).
Proof.
  intros Hb. induction room as [|room IH]; intros f n acc Hn Hf Hr Hf0; [lia|].
  destruct f as [|f]; [lia|].
  rewrite Nat2Z.inj_succ, Z.pow_succ_r in Hn by lia. rewrite Nat2Z.inj_succ, Z.pow_succ_r in Hf by lia.
  assert (0 <= n / base) as Hd by (apply Z.div_pos; lia).
  assert (n / base < base ^ Z.of_nat room) as H1 by (apply Z.div_lt_upper_bound; lia).
  assert (n / base < 2 ^ Z.of_nat f) as H2 by (apply Z.div_lt_upper_bound; nia).
  cbn [formatInt_loop fmt_digits]. cbv zeta. destruct (Z.leb_spec (n / base) 0), (Z.eqb_spec (n / base) 0); try lia.
  - done.
  - apply IH; [lia|done|..].
    + destruct room; [cbn in H1; lia|lia].
    + destruct f; [cbn in H2; lia|lia].
Qed.

(** [formatInt] prints what [strconv] would, for every size it accepts. *)
Lemma formatInt_eq n : 0 <= n <= 0x7FFFFFFF -> formatInt n 16 = Some (FormatUint n 16).
Proof.
  intros Hn. unfold formatInt, FormatUint.
  rewrite (proj2 (Z.ltb_ge n 0)), (proj2 (Z.ltb_ge 0x7FFFFFFF n)) by lia.
  cbn [orb]. cbv iota. apply fmt_loop_eq; [lia| |..|lia|lia].
  - change (16 ^ Z.of_nat 10) with 1099511627776. lia.
  - rewrite Nat2Z.inj_succ, Z2Nat.id by apply Z.log2_nonneg.
    destruct (decide (n = 0)) as [-> |Hne]; [done|]. apply Z.log2_spec. lia.
Qed.

Lemma concat_snoc (w : list bytes) (b : bytes) : concat (w ++ [b]) = concat w ++ b.
Proof. rewrite concat_app. cbn. by rewrite app_nil_r. Qed.

(** ** Handlers *)

Section response.
Context {A : Type} `{!Allocator A} `{!AllocatorLaws A}.
Context (StatusText : Z -> bytes) (iter : Header -> list (bytes * list bytes)).
Context (iter_trailer : gmap bytes bytes -> list (bytes * bytes)).
Context (now : utc) (req : req_info).
Context (Hok : StatusText 200 <> []).

(** A connection whose writes succeed. *)
Definition conn_up (w : list bytes) (b : bytes) : option (Z * Z) := None.

Abbreviation Response := (Response A).
Abbreviation prep s := (checkChunked req (WriteHeader StatusText 200 s)).
Abbreviation encode := (eoncodeHead iter now req).
Abbreviation write := (Write StatusText iter now conn_up req).
Abbreviation flush_op := (Flush StatusText iter now conn_up req).
Abbreviation handle_up := (handle StatusText iter now conn_up req).
Abbreviation finish_op := (finish StatusText iter iter_trailer now conn_up req).

(** The head of a response, as one byte string, and the trailers it announces. *)
Definition head_loop (s : Response) : list bytes * gmap bytes bytes * Z :=
  header_loop (r_header s) (iter (r_header s)) (announced s) (r_trailerSize s).

Definition head_of (s : Response) : bytes :=
  concat (status_pieces req s ++ fixed_pieces now req s ++ (head_loop s).1.1 ++ [CRLF]).

(** The response as the handler gets it, with its own fields and status. *)
Record unsent (s : Response) (live : gset nat) : Prop := {
  un_head : r_headEncoded s = false;
  un_hij : r_hijacked s = false;
  un_buf : r_buffer s = None;
  un_body : r_bodyBuffer s = None;
  un_wire : r_wire s = [];
  un_written : r_bodyWritten s = 0;
  un_alloc : alloc_inv (r_alloc s) live
}.

(** The state has its status and framing settled. *)
Definition settled (s : Response) : Prop :=
  r_hijacked s = false /\ r_statusCode s <> 0 /\ r_chunkChecked s = true.

Lemma settled_prep s : settled s -> prep s = s.
Proof.
  intros (Hh & Hs & Hc). unfold WriteHeader. rewrite Hh. rewrite (proj2 (Z.eqb_neq _ _) Hs).
  cbn [negb andb]. unfold checkChunked. by rewrite Hc.
Qed.

(** Settling the status and the framing leaves the rest alone. *)
Record same_rest (s s' : Response) : Prop := {
  sr_trailerSize : r_trailerSize s' = r_trailerSize s;
  sr_head : r_headEncoded s' = r_headEncoded s;
  sr_hij : r_hijacked s' = r_hijacked s;
  sr_buf : r_buffer s' = r_buffer s;
  sr_body : r_bodyBuffer s' = r_bodyBuffer s;
  sr_wire : r_wire s' = r_wire s;
  sr_written : r_bodyWritten s' = r_bodyWritten s;
  sr_cl : r_contentLen s' = r_contentLen s;
  sr_has : r_hasBody s' = r_hasBody s;
  sr_alloc : r_alloc s' = r_alloc s
}.

Lemma WriteHeader_rest code s : same_rest s (WriteHeader StatusText code s).
Proof. destruct s. unfold WriteHeader. repeat case_match; split; reflexivity. Qed.

Lemma checkChunked_rest s : same_rest s (checkChunked req s).
Proof. destruct s. unfold checkChunked. repeat case_match; split; reflexivity. Qed.

Lemma prep_rest s : same_rest s (prep s).
Proof.
  destruct (WriteHeader_rest 200 s). destruct (checkChunked_rest (WriteHeader StatusText 200 s)).
  split; etrans; eauto.
Qed.

Lemma prep_settled s : r_hijacked s = false -> settled (prep s).
Proof.
  intros Hh.
  assert (r_statusCode (WriteHeader StatusText 200 s) <> 0) as Hs.
  { unfold WriteHeader. rewrite Hh. cbn [negb andb]. destruct (Z.eqb_spec (r_statusCode s) 0) as [E|E]; [|done].
    rewrite E. cbn [Z.eqb negb andb]. rewrite (bool_decide_eq_false_2 (StatusText 200 = [])) by done.
    repeat case_match; done. }
  pose proof (prep_rest s) as R. split; [by rewrite (sr_hij _ _ R)|].
  split; [|unfold checkChunked; repeat case_match; done].
  unfold checkChunked. repeat case_match; done.
Qed.

(** Encoding the head puts it in the buffer. *)
Definition encoded (s : Response) (p : pbuf) (a : A) : Response :=
  set_buffer (Some p) (set_trailer (head_loop s).1.2 (head_loop s).2 (set_ralloc a (set_headEncoded s))).

Lemma encode_ok s live :
  r_headEncoded s = false -> alloc_inv (r_alloc s) live ->
  exists p a, encode s = Some (encoded s p a) /\ holds a live p /\ data p = head_of s.
Proof.
  intros Hh Ha. unfold eoncodeHead. rewrite Hh. cbn [r_alloc set_headEncoded].
  destruct (malloc_zero _ live 1024 Ha ltac:(lia)) as (p0 & a1 & p & -> & E & Hp & Dp).
  cbn [mbind option_bind]. rewrite E. cbn [mbind option_bind].
  change (header_loop (r_header (set_headEncoded s)) (iter (r_header (set_headEncoded s)))
    (announced (set_headEncoded s)) (r_trailerSize (set_headEncoded s))) with (head_loop s).
  destruct (head_loop s) as [[ps t] n] eqn:El.
  change (status_pieces req (set_headEncoded s)) with (status_pieces req s).
  change (fixed_pieces now req (set_headEncoded s)) with (fixed_pieces now req s).
  destruct (append_all_ok (status_pieces req s ++ fixed_pieces now req s ++ ps ++ [CRLF]) p a1 live Hp)
    as (p2 & a2 & -> & Hp2 & D2).
  exists p2, a2. cbn [mbind option_bind]. split; [unfold encoded; by rewrite El|]. split; [done|].
  rewrite D2, Dp. unfold head_of. by rewrite El.
Qed.

Lemma encode_done s : r_headEncoded s = true -> encode s = Some s.
Proof. intros H. unfold eoncodeHead. by rewrite H. Qed.

Lemma conn_up_write b (s : Response) : conn_Write conn_up b s = (len b, None, set_wire (r_wire s ++ [b]) s).
Proof. done. Qed.

Lemma pool_free_ok p (s : Response) live :
  holds (r_alloc s) live p -> exists a, pool_free p s = Some (set_ralloc a s) /\ alloc_inv a live.
Proof.
  intros H. destruct (free_one _ _ _ H) as (a & E & Ha). exists a. unfold pool_free. by rewrite E.
Qed.

Lemma send_free_ok p (s : Response) live :
  holds (r_alloc s) live p ->
  exists a, send_free conn_up p s = Some (None, set_ralloc a (set_wire (r_wire s ++ [data p]) s)) /\ alloc_inv a live.
Proof.
  intros H. unfold send_free. rewrite conn_up_write.
  destruct (pool_free_ok p (set_wire (r_wire s ++ [data p]) s) live H) as (a & -> & Ha). by exists a.
Qed.

(** A buffer that may be there: its bytes, and its owner. *)
Definition pending (b : option pbuf) : bytes := match b with Some p => data p | None => [] end.

Definition owns (a : A) (live : gset nat) (b : option pbuf) : Prop :=
  match b with Some p => holds a live p | None => alloc_inv a live end.

(** What a finished response still owns is at most an empty body buffer. *)
Definition released (s : Response) (live : gset nat) : Prop :=
  r_hijacked s = false /\ r_buffer s = None /\ owns (r_alloc s) live (r_bodyBuffer s).

(** ** Chunks *)

(** A response in chunks whose head is encoded: [out] is everything that is on
    the wire or in the buffer, [n] the length of the buffer. *)
Record chunking (s : Response) (live : gset nat) (t : gmap bytes bytes) (out : bytes) (n : Z) (p : pbuf) : Prop := {
  ch_settled : settled s;
  ch_chunked : r_chunked s = true;
  ch_head : r_headEncoded s = true;
  ch_trailer : r_trailer s = t;
  ch_body : r_bodyBuffer s = None;
  ch_buf : r_buffer s = Some p;
  ch_owned : holds (r_alloc s) live p;
  ch_len : b_len p = n;
  ch_out : concat (r_wire s) ++ data p = out
}.

Lemma chunk_write s live t out n p d :
  chunking s live t out n p -> 0 < len d -> n + len (encode_chunk d) < maxPacketSize ->
  exists s' p', write d s = Some (len d, None, s') /\
    chunking s' live t (out ++ encode_chunk d) (n + len (encode_chunk d)) p'.
Proof.
  intros [Hse Hc Hh Ht Hb Hp Ho Hl Hout] Hd Hfit.
  assert (len (encode_chunk d) = len (FormatUint (len d) 16) + len d + 4) as Hec.
  { unfold encode_chunk, crlf. unfold len. rewrite !length_app. cbn [length]. lia. }
  assert (0 <= len (FormatUint (len d) 16)) as Hf by (unfold len; lia).
  pose proof (holds_len _ _ _ Ho) as Hlp.
  assert (0 <= n) as Hn0 by (rewrite <- Hl, Hlp; unfold len; lia).
  unfold Write. destruct (Z.eqb_spec (len d) 0) as [?|_]; [lia|]. cbv zeta.
  rewrite (settled_prep s Hse). cbn [r_chunked set_hasBody]. rewrite Hc.
  unfold writeChunk. rewrite encode_done by done. cbn [mbind option_bind r_buffer set_hasBody]. rewrite Hp.
  rewrite formatInt_eq by (unfold maxPacketSize in Hfit; lia). cbn [mbind option_bind].
  rewrite Hl. destruct (Z.ltb_spec (len (FormatUint (len d) 16) + len d + 4 + n) maxPacketSize); [|lia].
  cbn [mbind option_bind r_alloc set_buffer set_hasBody].
  destruct (append_all_ok [FormatUint (len d) 16; CRLF; d; CRLF] p (r_alloc s) live Ho) as (p' & a' & -> & Ho' & D').
  cbn [mbind option_bind].
  assert (data p' = data p ++ encode_chunk d) as D2.
  { rewrite D'. cbn [concat]. by rewrite app_nil_r. }
  eexists _, p'. split; [reflexivity|]. split; try done.
  - cbn [r_alloc set_buffer set_ralloc]. rewrite (holds_len _ _ _ Ho'), D2. unfold len in *. rewrite length_app. lia.
  - cbn [r_wire set_buffer set_ralloc set_hasBody]. rewrite D2, app_assoc. by rewrite Hout.
Qed.

(** A buffer in [Flush]: sent when it is not empty, then empty. *)
Lemma flush_part_ok p (s : Response) live :
  holds (r_alloc s) live p ->
  exists q w, flush_part conn_up (Some p) s = Some (Some q, set_wire w s) /\ holds (r_alloc s) live q /\
    b_len q = 0 /\ data q = [] /\ concat w = concat (r_wire s) ++ data p.
Proof.
  intros Ho. unfold flush_part. pose proof (holds_len _ _ _ Ho) as Hl. destruct (Z.ltb_spec 0 (b_len p)) as [H|H].
  - rewrite conn_up_write. destruct (reslice_zero _ _ _ Ho) as (q & -> & Hq & Dq & Lq).
    exists q, (r_wire s ++ [data p]). rewrite concat_snoc. done.
  - exists p, (r_wire s). assert (data p = []) as Dp.
    { apply length_zero_iff_nil. unfold len in Hl. lia. }
    rewrite Dp, app_nil_r. split; [by destruct s|]. split; [done|]. split; [|done].
    rewrite Hl, Dp. done.
Qed.

Lemma chunk_flush s live t out n p :
  chunking s live t out n p -> exists s' p', flush_op s = Some s' /\ chunking s' live t out 0 p'.
Proof.
  intros [Hse Hc Hh Ht Hb Hp Ho Hl Hout]. unfold Flush. destruct Hse as (Hj & Hs & Hk) eqn:Ese. rewrite Hj.
  rewrite (settled_prep s Hse). rewrite encode_done by done. cbn [mbind option_bind]. rewrite Hp.
  destruct (flush_part_ok p s live Ho) as (q & w & -> & Hq & Lq & Dq & Hw). cbn [mbind option_bind].
  cbn [r_bodyBuffer set_buffer set_wire]. rewrite Hb. cbn [flush_part mbind option_bind].
  eexists _, q. split; [reflexivity|]. split; try done.
  cbn [r_wire set_buffer set_wire set_bodyBuffer]. rewrite Dq, app_nil_r, Hw. done.
Qed.

Definition trailer_bytes (t : gmap bytes bytes) : bytes := concat (trailer_pieces iter_trailer t).

Lemma chunk_finish s live t out n p :
  chunking s live t out n p -> (iter_trailer ∅ = []) ->
  exists s', finish_op s = Some (None, s') /\
    concat (r_wire s') = out ++ FormatUint 0 16 ++ crlf ++ trailer_bytes t ++ crlf /\
    released s' live /\ r_bodyBuffer s' = None.
Proof.
  intros [Hse Hc Hh Ht Hb Hp Ho Hl Hout] Hit. unfold finish. destruct Hse as (Hj & Hs & Hk) eqn:Ese. rewrite Hj.
  rewrite (settled_prep s Hse). rewrite encode_done by done. cbn [mbind option_bind].
  unfold flush. rewrite Hc. unfold flush_chunked. rewrite Hp. cbn [r_trailer set_buffer r_alloc]. rewrite Ht.
  set (tail := FormatUint 0 16 ++ crlf ++ trailer_bytes t ++ crlf).
  assert (exists p' a', (if decide (t = ∅)
     then '(p, a) ← Some (p, r_alloc s); append_all [str "0" ++ CRLF ++ CRLF] p a
     else '(p, a) ← Some (p, r_alloc s); append_all ([str "0" ++ CRLF] ++ trailer_pieces iter_trailer t ++ [CRLF]) p a)
     = Some (p', a') /\ holds a' live p' /\ data p' = data p ++ tail) as (p' & a' & -> & Ho' & D').
  { destruct (decide (t = ∅)) as [-> |_]; cbn [mbind option_bind].
    - destruct (append_all_ok [str "0" ++ CRLF ++ CRLF] p (r_alloc s) live Ho) as (p' & a' & E & H1 & H2).
      exists p', a'. split; [done|]. split; [done|]. rewrite H2. unfold tail, trailer_bytes, trailer_pieces.
      rewrite Hit. done.
    - destruct (append_all_ok ([str "0" ++ CRLF] ++ trailer_pieces iter_trailer t ++ [CRLF]) p (r_alloc s) live Ho)
        as (p' & a' & E & H1 & H2).
      exists p', a'. split; [done|]. split; [done|]. rewrite H2. unfold tail, trailer_bytes. f_equal.
      rewrite !concat_app. cbn [concat]. rewrite !app_nil_r. done. }
  cbn [mbind option_bind].
  destruct (send_free_ok p' (set_ralloc a' (set_buffer None s)) live Ho') as (a & -> & Ha).
  eexists. split; [reflexivity|]. split; [|split; [split; [exact Hj|split; [done|]]|exact Hb]].
  - cbn [r_wire set_ralloc set_wire set_buffer]. rewrite concat_snoc, D', app_assoc. by rewrite Hout.
  - cbn [r_bodyBuffer r_alloc set_ralloc set_wire set_buffer]. by rewrite Hb.
Qed.

(** The state the head is encoded from: [hb] when a write comes first. *)
Definition first_state (hb : bool) (s : Response) : Response :=
  if hb then set_hasBody (prep s) else prep s.

(** Whether the first thing that happens to the response is a write. *)
Fixpoint opens_with_body (ops : list resp_op) : bool :=
  match ops with
  | [] => false
  | HWrite d :: ops => if len d =? 0 then opens_with_body ops else true
  | HFlush :: _ => false
  end.

Fixpoint writes (ops : list resp_op) : list bytes :=
  match ops with
  | [] => []
  | HWrite d :: ops => if len d =? 0 then writes ops else d :: writes ops
  | HFlush :: ops => writes ops
  end.

(** The buffer, [n] bytes long, never reaches [maxPacketSize]. *)
Fixpoint fits (n : Z) (ops : list resp_op) : bool :=
  match ops with
  | [] => true
  | HWrite d :: ops =>
      if len d =? 0 then fits n ops
      else (n + len (encode_chunk d) <? maxPacketSize) && fits (n + len (encode_chunk d)) ops
  | HFlush :: ops => fits 0 ops
  end.

(** The handler, then the end of the response. *)
Definition respond (ops : list resp_op) (s : Response)
    : option (list (Z * option resp_err) * option resp_err * Response) :=
  '(rs, s) ← handle_up ops s;
  '(e, s) ← finish_op s;
  Some (rs, e, s).

(** Every write of the list succeeds in full. *)
Fixpoint full_writes (ops : list resp_op) : list (Z * option resp_err) :=
  match ops with
  | [] => []
  | HWrite d :: ops => (len d, None) :: full_writes ops
  | HFlush :: ops => full_writes ops
  end.

Lemma first_settled hb s : r_hijacked s = false -> settled (first_state hb s).
Proof. intros H. pose proof (prep_settled s H) as S. destruct hb; exact S. Qed.

Lemma encoded_settled s p a : settled s -> settled (encoded s p a).
Proof. intros H. exact H. Qed.

Lemma write_empty d s : len d = 0 -> write d s = Some (0, None, s).
Proof. intros H. unfold Write. by rewrite H. Qed.

(** The first write, flush or end encodes the head and goes on from there. *)
Lemma first_start hb s live :
  unsent s live ->
  exists p a, encode (first_state hb s) = Some (encoded (first_state hb s) p a) /\ holds a live p /\
    data p = head_of (first_state hb s).
Proof.
  intros Hu. apply encode_ok.
  - destruct (prep_rest s). destruct hb; cbn; by rewrite sr_head0, (un_head _ _ Hu).
  - destruct (prep_rest s). destruct hb; cbn; rewrite sr_alloc0; exact (un_alloc _ _ Hu).
Qed.

Lemma first_flush s live p a :
  unsent s live -> encode (first_state false s) = Some (encoded (first_state false s) p a) ->
  flush_op s = flush_op (encoded (first_state false s) p a).
Proof.
  intros Hu He. pose proof (first_settled false s (un_hij _ _ Hu)) as Hs.
  unfold Flush. rewrite (un_hij _ _ Hu). rewrite (settled_prep (encoded _ _ _)) by exact Hs.
  destruct Hs as (Hj & _ & _). cbn [r_hijacked encoded set_buffer set_trailer set_ralloc set_headEncoded]. rewrite Hj.
  cbn [first_state] in He. rewrite He. rewrite encode_done by done. done.
Qed.

Lemma first_finish s live p a :
  unsent s live -> encode (first_state false s) = Some (encoded (first_state false s) p a) ->
  finish_op s = finish_op (encoded (first_state false s) p a).
Proof.
  intros Hu He. pose proof (first_settled false s (un_hij _ _ Hu)) as Hs.
  unfold finish. rewrite (un_hij _ _ Hu). rewrite (settled_prep (encoded _ _ _)) by exact Hs.
  destruct Hs as (Hj & _ & _). cbn [r_hijacked encoded set_buffer set_trailer set_ralloc set_headEncoded]. rewrite Hj.
  cbn [first_state] in He. rewrite He. rewrite encode_done by done. done.
Qed.

Lemma set_hasBody_encoded x p a : set_hasBody (encoded (set_hasBody x) p a) = encoded (set_hasBody x) p a.
Proof. by destruct x. Qed.

Lemma first_chunk s live p a d :
  unsent s live -> r_chunked (prep s) = true -> 0 < len d ->
  encode (first_state true s) = Some (encoded (first_state true s) p a) ->
  write d s = write d (encoded (first_state true s) p a).
Proof.
  intros Hu Hc Hd He. pose proof (first_settled true s (un_hij _ _ Hu)) as Hs.
  unfold Write. destruct (Z.eqb_spec (len d) 0) as [?|_]; [lia|]. cbv zeta.
  rewrite (settled_prep (encoded _ _ _)) by exact Hs. cbn [first_state] in *.
  remember (prep s) as x eqn:Ex. rewrite set_hasBody_encoded.
  assert (r_chunked (encoded (set_hasBody x) p a) = true) as E1 by exact Hc.
  assert (r_chunked (set_hasBody x) = true) as E2 by exact Hc.
  rewrite E1, E2. unfold writeChunk. rewrite He, encode_done by done. done.
Qed.

Lemma first_chunking hb s live p a :
  unsent s live -> r_chunked (prep s) = true -> holds a live p -> data p = head_of (first_state hb s) ->
  chunking (encoded (first_state hb s) p a) live (head_loop (first_state hb s)).1.2 (head_of (first_state hb s))
    (len (head_of (first_state hb s))) p.
Proof.
  intros Hu Hc Ho Hd. pose proof (prep_rest s) as R. split; try done.
  - apply encoded_settled, first_settled, (un_hij _ _ Hu).
  - by destruct hb.
  - destruct hb; cbn; by rewrite (sr_body _ _ R), (un_body _ _ Hu).
  - by rewrite (holds_len _ _ _ Ho), Hd.
  - rewrite <- Hd. destruct hb; cbn; by rewrite (sr_wire _ _ R), (un_wire _ _ Hu).
Qed.

Lemma chunk_handle ops : forall s live t out n p,
  chunking s live t out n p -> fits n ops = true ->
  exists s' n' p', handle_up ops s = Some (full_writes ops, s') /\
    chunking s' live t (out ++ concat (map encode_chunk (writes ops))) n' p'.
Proof.
  induction ops as [|[d|] ops IH]; intros s live t out n p Hc Hf.
  - exists s, n, p. by rewrite app_nil_r.
  - cbn [fits handle full_writes writes] in *. destruct (Z.eqb_spec (len d) 0) as [E|E].
    + rewrite write_empty by done. destruct (IH s live t out n p Hc Hf) as (s' & n' & p' & Hr & Hc').
      exists s', n', p'. split; [|done]. cbn [mbind option_bind]. by rewrite Hr, E.
    + apply andb_true_iff in Hf as [H1 H2]. apply Z.ltb_lt in H1.
      destruct (chunk_write s live t out n p d Hc ltac:(unfold len in *; lia) H1) as (s1 & p1 & -> & Hc1).
      destruct (IH _ _ _ _ _ _ Hc1 H2) as (s' & n' & p' & Hr & Hc').
      exists s', n', p'. cbn [mbind option_bind]. split; [by rewrite Hr|].
      cbn [map concat]. by rewrite app_assoc.
  - cbn [fits handle full_writes writes] in *. destruct (chunk_flush s live t out n p Hc) as (s1 & p1 & -> & Hc1).
    cbn [mbind option_bind]. by apply (IH s1 live t out 0 p1).
Qed.

Lemma respond_flush s s1 ops : flush_op s = flush_op s1 -> respond (HFlush :: ops) s = respond (HFlush :: ops) s1.
Proof. intros H. unfold respond. cbn [handle]. by rewrite H. Qed.

Lemma respond_write s s1 d ops :
  write d s = write d s1 -> respond (HWrite d :: ops) s = respond (HWrite d :: ops) s1.
Proof. intros H. unfold respond. cbn [handle]. by rewrite H. Qed.

Lemma respond_ok ops s rs s2 e s3 :
  handle_up ops s = Some (rs, s2) -> finish_op s2 = Some (e, s3) -> respond ops s = Some (rs, e, s3).
Proof. intros H1 H2. unfold respond. rewrite H1. cbn [mbind option_bind]. by rewrite H2. Qed.

Lemma respond_step d s k e s1 ops rs e' s' :
  write d s = Some (k, e, s1) -> respond ops s1 = Some (rs, e', s') ->
  respond (HWrite d :: ops) s = Some ((k, e) :: rs, e', s').
Proof.
  unfold respond. cbn [handle]. intros -> Hr. cbn [mbind option_bind].
  destruct (handle_up ops s1) as [[rs0 s2]|]; [|done]. cbn [mbind option_bind] in *.
  destruct (finish_op s2) as [[e0 s3]|]; [|done]. cbn [mbind option_bind] in *. congruence.
Qed.

(** The whole of a chunked response. *)
Lemma chunked_respond (s : Response) (live : gset nat) (ops : list resp_op) :
  unsent s live -> r_chunked (prep s) = true -> iter_trailer ∅ = [] ->
  let s1 := first_state (opens_with_body ops) s in
  fits (len (head_of s1)) ops = true ->
  exists s', respond ops s = Some (full_writes ops, None, s') /\
    concat (r_wire s') =
      head_of s1 ++ concat (map encode_chunk (writes ops)) ++
      FormatUint 0 16 ++ crlf ++ trailer_bytes (head_loop s1).1.2 ++ crlf /\
    released s' live /\ r_bodyBuffer s' = None.
Proof.
  intros Hu Hc Hit. cbv zeta. induction ops as [|[d|] ops IH]; intros Hf.
  - destruct (first_start false s live Hu) as (p & a & He & Ho & Dp).
    pose proof (first_chunking false s live p a Hu Hc Ho Dp) as Hch.
    unfold respond. cbn [handle mbind option_bind full_writes writes opens_with_body map concat].
    rewrite (first_finish s live p a Hu He).
    destruct (chunk_finish _ _ _ _ _ _ Hch Hit) as (s' & -> & Hw & Ha). by exists s'.
  - cbn [opens_with_body fits] in *. destruct (Z.eqb_spec (len d) 0) as [E|E].
    + destruct (IH Hf) as (s' & Hr & H). exists s'. split; [|cbn [writes]; by rewrite (proj2 (Z.eqb_eq _ _) E)].
      cbn [full_writes]. rewrite E. exact (respond_step _ _ _ _ _ _ _ _ _ (write_empty d s E) Hr).
    + destruct (first_start true s live Hu) as (p & a & He & Ho & Dp).
      pose proof (first_chunking true s live p a Hu Hc Ho Dp) as Hch.
      assert (fits (len (head_of (first_state true s))) (HWrite d :: ops) = true) as Hf'.
      { cbn [fits]. rewrite (proj2 (Z.eqb_neq _ _) E). exact Hf. }
      destruct (chunk_handle (HWrite d :: ops) _ _ _ _ _ _ Hch Hf') as (s2 & n2 & p2 & Hh & Hch2).
      destruct (chunk_finish _ _ _ _ _ _ Hch2 Hit) as (s' & Hfin & Hw & Ha).
      exists s'. split; [|split; [|done]].
      * rewrite (respond_write _ _ _ _ (first_chunk s live p a d Hu Hc ltac:(unfold len in *; lia) He)).
        exact (respond_ok _ _ _ _ _ _ Hh Hfin).
      * by rewrite Hw, <- app_assoc.
  - cbn [opens_with_body] in *.
    destruct (first_start false s live Hu) as (p & a & He & Ho & Dp).
    pose proof (first_chunking false s live p a Hu Hc Ho Dp) as Hch.
    destruct (chunk_handle (HFlush :: ops) _ _ _ _ _ _ Hch Hf) as (s2 & n2 & p2 & Hh & Hch2).
    destruct (chunk_finish _ _ _ _ _ _ Hch2 Hit) as (s' & Hfin & Hw & Ha).
    exists s'. split; [|split; [|done]].
    + rewrite (respond_flush _ _ _ (first_flush s live p a Hu He)). exact (respond_ok _ _ _ _ _ _ Hh Hfin).
    + by rewrite Hw, <- app_assoc.
Qed.

(** A response in chunks: every write succeeds, the wire carries the head, one
    chunk per non-empty write, the last chunk and the trailers, and all buffers
    go back to the pool. *)
Theorem chunked_response (s : Response) (live : gset nat) (ops : list resp_op) :
  unsent s live -> r_chunked (prep s) = true -> iter_trailer ∅ = [] ->
  let s1 := first_state (opens_with_body ops) s in
  fits (len (head_of s1)) ops = true ->
  exists s', respond ops s = Some (full_writes ops, None, s') /\
    concat (r_wire s') =
      head_of s1 ++ concat (map encode_chunk (writes ops)) ++
      FormatUint 0 16 ++ crlf ++ trailer_bytes (head_loop s1).1.2 ++ crlf /\
    alloc_inv (r_alloc s') live.
Proof.
  intros Hu Hc Hit s1 Hf. destruct (chunked_respond s live ops Hu Hc Hit Hf) as (s' & Hr & Hw & (_ & _ & Ho) & Hb).
  rewrite Hb in Ho. by exists s'.
Qed.

(** ** A declared length *)

(** What [append_body] leaves: the data follows what was pending. *)
Definition stored (s : Response) (live : gset nat) (d : bytes) (s' : Response) : Prop :=
  exists cur w a, s' = set_ralloc a (set_wire w (set_bodyBuffer cur (set_bodyWritten (r_bodyWritten s + len d) s))) /\
    owns a live cur /\ concat w ++ pending cur = concat (r_wire s) ++ pending (r_bodyBuffer s) ++ d.

Lemma cache_ok cl d p s live :
  holds (r_alloc s) live p -> r_bodyBuffer s = Some p \/ r_bodyBuffer s = None /\ data p = [] ->
  exists k s',
    (let s := set_bodyWritten (r_bodyWritten s + len d) s in
     '(p, a) ← Append p d (r_alloc s);
     let s := set_ralloc a s in
     if (0 <? cl) && (maxPacketSize <=? b_len p) then
       let '(l, err, s) := conn_Write conn_up (data p) s in
       match err with
       | Some e => s ← pool_free p s; Some (l, Some e, set_bodyBuffer None s)
       | None => q ← reslice p 0; Some (l, None, set_bodyBuffer (Some q) s)
       end
     else Some (len d, None, set_bodyBuffer (Some p) s)) = Some (k, None, s') /\ stored s live d s' /\
    (cl <= 0 -> k = len d /\ exists q a, s' = set_bodyBuffer (Some q) (set_ralloc a (set_bodyWritten (r_bodyWritten s + len d) s))).
Proof.
  intros Ho Hp. cbv zeta. cbn [r_alloc set_bodyWritten].
  destruct (append_one _ live p d Ho) as (p' & a' & -> & Ho' & D'). cbn [mbind option_bind].
  assert (data p ++ d = pending (r_bodyBuffer s) ++ d) as Hd.
  { destruct Hp as [-> |[-> ->]]; done. }
  rewrite Hd in D'.
  destruct ((0 <? cl) && (maxPacketSize <=? b_len p')) eqn:E.
  - rewrite conn_up_write. destruct (reslice_zero _ _ _ Ho') as (q & -> & Hq & Dq & _). cbn [mbind option_bind].
    eexists _, _. split; [reflexivity|]. split; [|intros Hcl; apply andb_true_iff in E as [E _]; lia].
    exists (Some q), (r_wire s ++ [data p']), a'. split; [by destruct s|]. split; [done|].
    cbn [pending]. by rewrite Dq, app_nil_r, concat_snoc, D'.
  - eexists _, _. split; [reflexivity|]. split; [|intros _; split; [done|by exists p', a']].
    exists (Some p'), (r_wire s), a'. split; [by destruct s|]. split; [done|]. cbn [pending]. by rewrite D'.
Qed.

Lemma direct_stored d (s : Response) live a w :
  alloc_inv a live -> concat w = concat (r_wire s) ++ pending (r_bodyBuffer s) ->
  stored s live d
    (set_wire (w ++ [d]) (set_bodyWritten (r_bodyWritten s + len d) (set_bodyBuffer None (set_ralloc a (set_wire w s))))).
Proof.
  intros Ha Hw. exists None, (w ++ [d]), a. split; [by destruct s|]. split; [done|].
  cbn [pending]. rewrite app_nil_r, concat_snoc, Hw. by rewrite app_assoc.
Qed.

Lemma append_body_ok cl d s live :
  owns (r_alloc s) live (r_bodyBuffer s) -> 0 < len d ->
  exists k s', append_body conn_up cl d s = Some (k, None, s') /\ stored s live d s'.
Proof.
  intros Ho Hd. unfold append_body. cbv zeta. destruct (r_bodyBuffer s) as [p|] eqn:Eb; cbn [owns] in Ho.
  - destruct ((0 <? cl) && (maxPacketSize <? b_len p + len d)) eqn:E.
    2:{ destruct (cache_ok cl d p s live Ho) as (k & s' & E' & H & _); [by left|]. eauto. }
    destruct (flush_part_ok p s live Ho) as (q & w & Ef & Hq & Lq & Dq & Hw).
    assert ((if 0 <? b_len p then
         let '(_, err, s0) := conn_Write conn_up (data p) s in
         q ← reslice p 0;
         match err with
         | Some e => s1 ← pool_free q s0; Some (q, Some e, set_bodyBuffer None s1)
         | None => Some (q, None, set_bodyBuffer (Some q) s0)
         end
       else Some (p, None, s)) = Some (q, None, set_bodyBuffer (Some q) (set_wire w s))) as ->.
    { unfold flush_part in Ef. destruct (0 <? b_len p).
      - rewrite conn_up_write in *. destruct (reslice p 0) as [q'|]; [|done]. cbn [mbind option_bind] in *.
        injection Ef as -> Hws. by rewrite Hws.
      - injection Ef as -> Hws. rewrite <- Hws, <- Eb. by destruct s. }
    cbn [mbind option_bind]. destruct (maxPacketSize <=? len d).
    + destruct (pool_free_ok q (set_bodyBuffer (Some q) (set_wire w s)) live Hq) as (a & -> & Ha).
      cbn [mbind option_bind]. rewrite conn_up_write. eexists _, _. split; [reflexivity|].
      pose proof (direct_stored d s live a w Ha) as H. rewrite Eb in H. cbn [pending] in H.
      specialize (H Hw). destruct s. exact H.
    + destruct (cache_ok cl d q (set_bodyBuffer (Some q) (set_wire w s)) live Hq) as (k & s' & E' & H & _); [by left|].
      eexists _, _. split; [exact E'|]. destruct H as (cur & w' & a & -> & Ho' & Hc).
      exists cur, w', a. split; [by destruct s|]. split; [done|].
      rewrite Hc. cbn [r_wire r_bodyBuffer set_bodyBuffer set_wire pending]. rewrite Hw, Dq, Eb. cbn [pending].
      by rewrite <- app_assoc.
  - destruct ((0 <? cl) && (maxPacketSize <=? len d)).
    + rewrite conn_up_write. eexists _, _. split; [reflexivity|].
      exists None, (r_wire s ++ [d]), (r_alloc s).
      split; [destruct s; cbn in Eb |- *; by rewrite Eb|]. split; [done|].
      rewrite concat_snoc, Eb. cbn [pending]. by rewrite app_nil_r.
    + destruct (malloc_zero _ live (len d) Ho ltac:(lia)) as (p0 & a & q & -> & Eq & Hq & Dq).
      cbn [mbind option_bind]. rewrite Eq. cbn [mbind option_bind].
      destruct (cache_ok cl d q (set_ralloc a s) live Hq) as (k & s' & E' & H & _); [by right|].
      eexists _, _. split; [exact E'|]. destruct H as (cur & w' & a' & -> & Ho' & Hc).
      exists cur, w', a'. split; [by destruct s|]. split; [done|]. rewrite Hc. by destruct s.
Qed.

(** The declared length, cached or still in the header. *)
Definition declares (n : Z) (s : Response) : Prop :=
  0 < n /\ (r_contentLen s = n \/
    r_contentLen s <= 0 /\ ParseInt (header_get (r_header s) contentLengthHeader) 10 64 = Some n).

Lemma contentLength_ok n s : declares n s -> contentLength s = (n, None, set_contentLen n s).
Proof.
  intros [Hn [E|[E Hp]]]; unfold contentLength.
  - rewrite E. rewrite (proj2 (Z.ltb_lt 0 n)) by lia. rewrite <- E. by destruct s.
  - destruct (Z.ltb_spec 0 (r_contentLen s)); [lia|].
    destruct (bool_decide_reflect (header_get (r_header s) contentLengthHeader = [])) as [E0|_].
    + rewrite E0 in Hp. done.
    + by rewrite Hp.
Qed.

(** A response of declared length [n] whose head is encoded: [w] bytes of body
    are accepted, [out] is everything on the wire or in its one buffer. *)
Record counting (s : Response) (live : gset nat) (n w : Z) (out : bytes) : Prop := {
  co_settled : settled s;
  co_chunked : r_chunked s = false;
  co_head : r_headEncoded s = true;
  co_decl : declares n s;
  co_written : r_bodyWritten s = w;
  co_one : r_buffer s = None \/ r_bodyBuffer s = None;
  co_owned : owns (r_alloc s) live (match r_buffer s with Some p => Some p | None => r_bodyBuffer s end);
  co_out : concat (r_wire s) ++ pending (r_buffer s) ++ pending (r_bodyBuffer s) = out
}.

Lemma stored_counting s live n w out d s' :
  settled s -> r_chunked s = false -> r_headEncoded s = true -> r_contentLen s = n -> 0 < n ->
  r_bodyWritten s = w -> r_buffer s = None ->
  concat (r_wire s) ++ pending (r_bodyBuffer s) = out ->
  stored s live d s' -> counting s' live n (w + len d) (out ++ d).
Proof.
  intros Hs Hc Hh Hn Hn0 Hw Hb Hout (cur & w' & a & -> & Ho & Hcat).
  split; try done.
  - split; [done|]. by left.
  - cbn. by rewrite Hw.
  - by left.
  - cbn [r_alloc r_buffer r_bodyBuffer set_ralloc set_wire set_bodyBuffer set_bodyWritten]. by rewrite Hb.
  - cbn [r_wire r_buffer r_bodyBuffer set_ralloc set_wire set_bodyBuffer set_bodyWritten]. rewrite Hb.
    cbn [pending app]. by rewrite Hcat, app_assoc, Hout.
Qed.

Lemma count_reject s live n w out d :
  counting s live n w out -> 0 < len d -> n < w + len d ->
  exists s', write d s = Some (0, Some ErrContentLength, s') /\ counting s' live n w out.
Proof.
  intros [Hse Hc Hh Hd Hw H1 Ho Hout] Hl Hn. unfold Write. destruct (Z.eqb_spec (len d) 0) as [?|_]; [lia|]. cbv zeta.
  rewrite (settled_prep s Hse). assert (r_chunked (set_hasBody s) = false) as -> by exact Hc.
  rewrite (contentLength_ok n (set_hasBody s)) by exact Hd.
  assert ((0 <? n) && (n <? r_bodyWritten (set_contentLen n (set_hasBody s)) + len d) = true) as ->.
  { cbn [r_bodyWritten set_contentLen set_hasBody]. destruct Hd. lia. }
  eexists. split; [reflexivity|]. split; try done. split; [by destruct Hd|]. by left.
Qed.

Lemma count_write s live n w out d :
  counting s live n w out -> 0 < len d -> w + len d <= n ->
  exists k s', write d s = Some (k, None, s') /\ counting s' live n (w + len d) (out ++ d).
Proof.
  intros [Hse Hc Hh Hd Hw H1 Ho Hout] Hl Hn. unfold Write. destruct (Z.eqb_spec (len d) 0) as [?|_]; [lia|]. cbv zeta.
  rewrite (settled_prep s Hse). assert (r_chunked (set_hasBody s) = false) as -> by exact Hc.
  rewrite (contentLength_ok n (set_hasBody s)) by exact Hd.
  assert ((0 <? n) && (n <? r_bodyWritten (set_contentLen n (set_hasBody s)) + len d) = false) as ->.
  { cbn [r_bodyWritten set_contentLen set_hasBody]. destruct Hd. lia. }
  destruct Hd as [Hn0 _]. rewrite (proj2 (Z.ltb_lt 0 n) Hn0).
  rewrite encode_done by exact Hh. cbn [mbind option_bind].
  cbn [r_buffer set_contentLen set_hasBody].
  set (s1 := set_buffer None (set_contentLen n (set_hasBody s))).
  destruct (r_buffer s) as [p|] eqn:Eb; cbn [pending] in *.
  - destruct H1 as [H1|H1]; [done|]. rewrite H1 in Hout. cbn [pending] in Hout. rewrite app_nil_r in Hout.
    destruct (b_len p + len d <? maxPacketSize).
    + destruct (append_body_ok n d (set_bodyBuffer (Some p) s1) live Ho Hl) as (k & s' & E & Hst).
      exists k, s'. split; [exact E|].
      exact (stored_counting (set_bodyBuffer (Some p) s1) live n w out d s' Hse Hc Hh eq_refl Hn0 Hw eq_refl Hout Hst).
    + rewrite conn_up_write. set (s2 := set_wire (r_wire s1 ++ [data p]) s1).
      destruct (pool_free_ok p s2 live Ho) as (a & -> & Ha). cbn [mbind option_bind].
      assert (r_bodyBuffer (set_ralloc a s2) = None) as H1' by exact H1.
      destruct (append_body_ok n d (set_ralloc a s2) live) as (k & s' & E & Hst); [by rewrite H1'|done|].
      exists k, s'. split; [exact E|].
      apply (stored_counting (set_ralloc a s2) live n w out d s' Hse Hc Hh eq_refl Hn0 Hw eq_refl); [|done].
      rewrite H1'. cbn [pending]. rewrite app_nil_r.
      change (r_wire (set_ralloc a s2)) with (r_wire s ++ [data p]). by rewrite concat_snoc.
  - destruct (append_body_ok n d s1 live Ho Hl) as (k & s' & E & Hst).
    exists k, s'. split; [exact E|].
    exact (stored_counting s1 live n w out d s' Hse Hc Hh eq_refl Hn0 Hw eq_refl Hout Hst).
Qed.

(** A flush of one possible buffer. *)
Lemma flush_opt_ok b s live :
  owns (r_alloc s) live b ->
  exists c w, flush_part conn_up b s = Some (c, set_wire w s) /\ owns (r_alloc s) live c /\ pending c = [] /\
    concat w = concat (r_wire s) ++ pending b /\ (b = None -> c = None).
Proof.
  destruct b as [p|]; cbn [owns pending]; intros Ho.
  - destruct (flush_part_ok p s live Ho) as (q & w & E & Hq & _ & Dq & Hw). by exists (Some q), w.
  - exists None, (r_wire s). split; [by destruct s|]. by rewrite app_nil_r.
Qed.

Lemma count_flush s live n w out :
  counting s live n w out -> exists s', flush_op s = Some s' /\ counting s' live n w out.
Proof.
  intros [Hse Hc Hh Hd Hw H1 Ho Hout]. unfold Flush. pose proof Hse as (Hj & _ & _). rewrite Hj.
  rewrite (settled_prep s Hse). rewrite encode_done by done. cbn [mbind option_bind].
  destruct (r_buffer s) as [p|] eqn:Eb.
  - destruct H1 as [H1|H1]; [done|]. destruct (flush_opt_ok (Some p) s live Ho) as (c & w1 & -> & Hc1 & Pc & Hw1 & _).
    cbn [mbind option_bind]. cbn [r_bodyBuffer set_buffer set_wire]. rewrite H1. cbn [flush_part mbind option_bind].
    eexists. split; [reflexivity|]. split; try done.
    + by right.
    + cbn. destruct c; done.
    + cbn [r_wire r_buffer r_bodyBuffer set_buffer set_wire set_bodyBuffer pending]. rewrite Pc, Hw1.
      rewrite H1 in Hout. cbn [pending] in *. by rewrite !app_nil_r in *.
  - cbn [flush_part mbind option_bind]. cbn [r_bodyBuffer set_buffer].
    destruct (flush_opt_ok (r_bodyBuffer s) (set_buffer None s) live Ho) as (c & w1 & -> & Hc1 & Pc & Hw1 & _).
    cbn [mbind option_bind]. eexists. split; [reflexivity|]. split; try done.
    + by left.
    + cbn [r_wire r_buffer r_bodyBuffer set_buffer set_wire set_bodyBuffer pending app]. rewrite Pc, Hw1.
      by rewrite app_nil_r.
Qed.

Lemma count_finish s live n w out :
  counting s live n w out ->
  exists s', finish_op s = Some (None, s') /\ concat (r_wire s') = out /\ released s' live.
Proof.
  intros [Hse Hc Hh Hd Hw H1 Ho Hout]. unfold finish. pose proof Hse as (Hj & _ & _). rewrite Hj.
  rewrite (settled_prep s Hse). rewrite encode_done by done. cbn [mbind option_bind].
  unfold flush. rewrite Hc. unfold flush_plain. destruct (r_buffer s) as [p|] eqn:Eb.
  - destruct H1 as [H1|H1]; [done|]. rewrite H1 in Hout |- *. cbn [mbind option_bind pending] in *.
    rewrite app_nil_r in Hout. destruct (send_free_ok p s live Ho) as (a & -> & Ha). cbn [mbind option_bind].
    cbn [r_bodyBuffer set_buffer set_ralloc set_wire]. rewrite H1. eexists. split; [reflexivity|].
    split; [cbn [r_wire set_buffer set_ralloc set_wire]; by rewrite concat_snoc|].
    split; [exact Hj|]. split; [done|]. cbn [r_bodyBuffer r_alloc set_buffer set_ralloc set_wire]. by rewrite H1.
  - cbn [mbind option_bind pending app] in *. destruct (r_bodyBuffer s) as [b|] eqn:Eq; cbn [pending owns] in *.
    + destruct (Z.ltb_spec 0 (b_len b)) as [Hl|Hl].
      * destruct (send_free_ok b s live Ho) as (a & -> & Ha). cbn [mbind option_bind]. eexists. split; [reflexivity|].
        split; [cbn [r_wire set_bodyBuffer set_ralloc set_wire]; by rewrite concat_snoc|done].
      * eexists. split; [reflexivity|]. pose proof (holds_len _ _ _ Ho) as Hlen.
        assert (data b = []) as Db by (apply length_zero_iff_nil; unfold len in Hlen; lia).
        rewrite Db, app_nil_r in Hout. split; [done|]. split; [done|]. by rewrite Eq.
    + eexists. split; [reflexivity|]. rewrite app_nil_r in Hout. split; [done|]. split; [done|]. by rewrite Eq.
Qed.

(** The writes a response of length [n] takes after [w] bytes, and what each
    write answers. *)
Fixpoint accepted (n w : Z) (ops : list resp_op) : bytes :=
  match ops with
  | [] => []
  | HWrite d :: ops => if n <? w + len d then accepted n w ops else d ++ accepted n (w + len d) ops
  | HFlush :: ops => accepted n w ops
  end.

Fixpoint verdicts (n w : Z) (ops : list resp_op) : list (option resp_err) :=
  match ops with
  | [] => []
  | HWrite d :: ops =>
      if n <? w + len d then Some ErrContentLength :: verdicts n w ops
      else None :: verdicts n (w + len d) ops
  | HFlush :: ops => verdicts n w ops
  end.

Lemma len_zero (d : bytes) : len d = 0 -> d = [].
Proof. unfold len. destruct d; [done|]. cbn [length]. lia. Qed.

Lemma count_handle n ops : forall s live w out,
  counting s live n w out -> w <= n ->
  exists rs s' w', handle_up ops s = Some (rs, s') /\ rs.*2 = verdicts n w ops /\
    counting s' live n w' (out ++ accepted n w ops).
Proof.
  induction ops as [|[d|] ops IH]; intros s live w out Hc Hw.
  - exists [], s, w. by rewrite app_nil_r.
  - cbn [handle accepted verdicts]. destruct (Z.ltb_spec n (w + len d)) as [H|H].
    + assert (0 < len d) as Hl by lia.
      destruct (count_reject s live n w out d Hc Hl H) as (s1 & -> & Hc1). cbn [mbind option_bind].
      destruct (IH s1 live w out Hc1 Hw) as (rs & s' & w' & -> & Hrs & Hc'). eexists _, s', w'.
      split; [reflexivity|]. split; [|done]. cbn. by rewrite Hrs.
    + destruct (decide (len d = 0)) as [E|E].
      * rewrite write_empty by done. cbn [mbind option_bind]. rewrite E, Z.add_0_r, (len_zero d E). cbn [app].
        destruct (IH s live w out Hc Hw) as (rs & s' & w' & -> & Hrs & Hc'). eexists _, s', w'.
        split; [reflexivity|]. split; [|done]. cbn. by rewrite Hrs.
      * assert (0 < len d) as Hl by (unfold len in *; lia).
        destruct (count_write s live n w out d Hc Hl H) as (k & s1 & -> & Hc1). cbn [mbind option_bind].
        destruct (IH s1 live _ _ Hc1 H) as (rs & s' & w' & -> & Hrs & Hc'). eexists _, s', w'.
        split; [reflexivity|]. split; [cbn; by rewrite Hrs|]. by rewrite app_assoc.
  - cbn [handle accepted verdicts]. destruct (count_flush s live n w out Hc) as (s1 & -> & Hc1).
    cbn [mbind option_bind]. by apply (IH s1 live w out).
Qed.

Lemma first_counting hb s live n p a :
  unsent s live -> r_chunked (prep s) = false -> declares n (prep s) -> holds a live p ->
  data p = head_of (first_state hb s) ->
  counting (encoded (first_state hb s) p a) live n 0 (head_of (first_state hb s)).
Proof.
  intros Hu Hc Hd Ho Dp. pose proof (prep_rest s) as R. split; try done.
  - apply encoded_settled, first_settled, (un_hij _ _ Hu).
  - by destruct hb.
  - by destruct hb.
  - destruct hb; cbn; by rewrite (sr_written _ _ R), (un_written _ _ Hu).
  - right. destruct hb; cbn; by rewrite (sr_body _ _ R), (un_body _ _ Hu).
  - cbn [r_wire r_buffer r_bodyBuffer encoded set_buffer pending]. rewrite Dp.
    assert (r_wire (first_state hb s) = [] /\ r_bodyBuffer (first_state hb s) = None) as [Ew Eb].
    { destruct hb; cbn; by rewrite (sr_wire _ _ R), (sr_body _ _ R), (un_wire _ _ Hu), (un_body _ _ Hu). }
    cbn [r_wire r_bodyBuffer set_trailer set_ralloc set_headEncoded]. rewrite Ew, Eb. cbn [concat app pending].
    by rewrite app_nil_r.
Qed.

(** The head does not depend on the cached length. *)
Lemma encode_contentLen n s : encode (set_contentLen n s) = set_contentLen n <$> encode s.
Proof.
  unfold eoncodeHead. cbn [r_headEncoded set_contentLen]. destruct (r_headEncoded s); [done|].
  cbn [r_alloc set_contentLen set_headEncoded].
  destruct (Malloc 1024 (r_alloc s)) as [[p0 a0]|]; [|done]. cbn [mbind option_bind].
  destruct (reslice p0 0) as [p1|]; [|done]. cbn [mbind option_bind].
  change (header_loop (r_header (set_headEncoded (set_contentLen n s))) (iter (r_header (set_headEncoded (set_contentLen n s))))
    (announced (set_headEncoded (set_contentLen n s))) (r_trailerSize (set_headEncoded (set_contentLen n s))))
    with (head_loop s).
  change (header_loop (r_header (set_headEncoded s)) (iter (r_header (set_headEncoded s)))
    (announced (set_headEncoded s)) (r_trailerSize (set_headEncoded s))) with (head_loop s).
  destruct (head_loop s) as [[ps t] k].
  change (status_pieces req (set_headEncoded (set_contentLen n s))) with (status_pieces req (set_headEncoded s)).
  change (fixed_pieces now req (set_headEncoded (set_contentLen n s)))
    with (fixed_pieces now req (set_headEncoded s)).
  destruct (append_all _ p1 a0) as [[p2 a2]|]; done.
Qed.

(** The first write that is accepted encodes the head on its way. *)
Lemma first_count s live n p a d :
  unsent s live -> r_chunked (prep s) = false -> declares n (prep s) -> 0 < len d <= n ->
  encode (first_state true s) = Some (encoded (first_state true s) p a) ->
  write d s = write d (encoded (first_state true s) p a).
Proof.
  intros Hu Hc Hd Hl He. pose proof (first_settled true s (un_hij _ _ Hu)) as Hs.
  unfold Write. destruct (Z.eqb_spec (len d) 0) as [?|_]; [lia|]. cbv zeta.
  rewrite (settled_prep (encoded _ _ _)) by exact Hs.
  assert (r_bodyWritten (prep s) = 0) as Hw by (rewrite (sr_written _ _ (prep_rest s)); exact (un_written _ _ Hu)).
  cbn [first_state] in *.
  remember (prep s) as x eqn:Ex. rewrite set_hasBody_encoded.
  assert (r_chunked (encoded (set_hasBody x) p a) = false) as -> by exact Hc.
  assert (r_chunked (set_hasBody x) = false) as -> by exact Hc.
  rewrite (contentLength_ok n (set_hasBody x)) by exact Hd.
  rewrite (contentLength_ok n (encoded (set_hasBody x) p a)) by exact Hd.
  assert (r_bodyWritten (set_contentLen n (set_hasBody x)) = 0) as -> by exact Hw.
  assert (r_bodyWritten (set_contentLen n (encoded (set_hasBody x) p a)) = 0) as -> by exact Hw.
  destruct Hd as [Hn0 _]. rewrite (proj2 (Z.ltb_lt 0 n) Hn0).
  assert (n <? 0 + len d = false) as -> by lia. cbn [andb].
  rewrite !encode_contentLen, He. rewrite encode_done by done. done.
Qed.

Lemma prep_unsent s live : unsent s live -> unsent (prep s) live.
Proof.
  intros [H1 H2 H3 H4 H5 H6 H7]. pose proof (prep_rest s) as [_ R1 R2 R3 R4 R5 R6 _ _ R7].
  split; congruence || by rewrite R7.
Qed.

(** A first write that is refused leaves the response as it was, but for the
    body it announces. *)
Lemma first_reject s live n d :
  unsent s live -> r_chunked (prep s) = false -> declares n (prep s) -> n < len d ->
  let s' := set_contentLen n (first_state true s) in
  write d s = Some (0, Some ErrContentLength, s') /\ unsent s' live /\ r_chunked (prep s') = false /\
  declares n (prep s') /\ (forall b, head_of (first_state b s') = head_of (first_state true s)).
Proof.
  intros Hu Hc Hd Hl. cbv zeta. pose proof (first_settled true s (un_hij _ _ Hu)) as Hs.
  pose proof (prep_unsent s live Hu) as Hu'.
  assert (settled (set_contentLen n (first_state true s))) as Hs' by exact Hs.
  rewrite (settled_prep _ Hs'). pose proof Hd as [Hn0 _].
  split; [|split; [|split; [exact Hc|split; [split; [done|by left]|]]]].
  - unfold Write. destruct (Z.eqb_spec (len d) 0) as [?|_]; [lia|]. cbv zeta.
    cbn [first_state] in *. remember (prep s) as x eqn:Ex.
    assert (r_chunked (set_hasBody x) = false) as -> by exact Hc.
    rewrite (contentLength_ok n (set_hasBody x)) by exact Hd.
    assert (r_bodyWritten (set_contentLen n (set_hasBody x)) = 0) as -> by exact (un_written _ _ Hu').
    assert ((0 <? n) && (n <? 0 + len d) = true) as -> by lia. done.
  - destruct Hu'. by split.
  - intros b. unfold first_state at 1. rewrite (settled_prep _ Hs'). destruct b; done.
Qed.

(** The whole of a response of declared length. *)
Lemma length_respond (s : Response) (live : gset nat) (n : Z) (ops : list resp_op) :
  unsent s live -> r_chunked (prep s) = false -> declares n (prep s) ->
  exists rs s', respond ops s = Some (rs, None, s') /\ rs.*2 = verdicts n 0 ops /\
    concat (r_wire s') = head_of (first_state (opens_with_body ops) s) ++ accepted n 0 ops /\ released s' live.
Proof.
  revert s. induction ops as [|o ops IH]; intros s Hu Hc Hd.
  - destruct (first_start false s live Hu) as (p & a & He & Ho & Dp).
    pose proof (first_counting false s live n p a Hu Hc Hd Ho Dp) as Hco.
    destruct (count_finish _ _ _ _ _ Hco) as (s' & Hf & Hw). exists [], s'.
    unfold respond. cbn [handle mbind option_bind accepted]. rewrite (first_finish s live p a Hu He), Hf.
    by rewrite app_nil_r.
  - assert (0 < n) as Hn0 by apply Hd.
    assert (forall hb, (exists p a, holds a live p /\ data p = head_of (first_state hb s) /\
        respond (o :: ops) s = respond (o :: ops) (encoded (first_state hb s) p a)) ->
      opens_with_body (o :: ops) = hb ->
      exists rs s', respond (o :: ops) s = Some (rs, None, s') /\ rs.*2 = verdicts n 0 (o :: ops) /\
        concat (r_wire s') = head_of (first_state (opens_with_body (o :: ops)) s) ++ accepted n 0 (o :: ops) /\
        released s' live) as Hgo.
    { intros hb (p & a & Ho & Dp & ->) ->. pose proof (first_counting hb s live n p a Hu Hc Hd Ho Dp) as Hco.
      destruct (count_handle n (o :: ops) _ _ _ _ Hco ltac:(lia)) as (rs & s2 & w2 & Hh & Hrs & Hco2).
      destruct (count_finish _ _ _ _ _ Hco2) as (s' & Hf & Hw). exists rs, s'.
      split; [exact (respond_ok _ _ _ _ _ _ Hh Hf)|done]. }
    destruct o as [d|].
    + destruct (decide (len d = 0)) as [E|E].
      { destruct (IH s Hu Hc Hd) as (rs & s' & Hr & Hrs & Hw). exists ((0, None) :: rs), s'.
        cbn [verdicts accepted opens_with_body]. rewrite (proj2 (Z.eqb_eq _ _) E), E.
        rewrite (proj2 (Z.ltb_ge n (0 + 0))) by lia. rewrite (len_zero d E). cbn [app fmap list_fmap snd].
        split; [|split; [f_equal; exact Hrs|exact Hw]].
        rewrite <- (len_zero d E). exact (respond_step _ _ _ _ _ _ _ _ _ (write_empty d s E) Hr). }
      assert (0 < len d) as Hl by (unfold len in *; lia).
      destruct (decide (n < len d)) as [Hrej|Hacc].
      * destruct (first_reject s live n d Hu Hc Hd Hrej) as (Hwr & Hu' & Hc' & Hd' & Hhead).
        destruct (IH _ Hu' Hc' Hd') as (rs & s' & Hr & Hrs & Hw). exists ((0, Some ErrContentLength) :: rs), s'.
        cbn [verdicts accepted opens_with_body]. rewrite (proj2 (Z.eqb_neq _ _) E).
        rewrite (proj2 (Z.ltb_lt n (0 + len d))) by lia. cbn [fmap list_fmap snd]. rewrite <- (Hhead (opens_with_body ops)).
        split; [|split; [f_equal; exact Hrs|exact Hw]]. exact (respond_step _ _ _ _ _ _ _ _ _ Hwr Hr).
      * apply (Hgo true); [|cbn [opens_with_body]; by rewrite (proj2 (Z.eqb_neq _ _) E)].
        destruct (first_start true s live Hu) as (p & a & He & Ho & Dp). exists p, a.
        split; [done|]. split; [done|]. apply respond_write.
        exact (first_count s live n p a d Hu Hc Hd ltac:(lia) He).
    + apply (Hgo false); [|done]. destruct (first_start false s live Hu) as (p & a & He & Ho & Dp). exists p, a.
      split; [done|]. split; [done|]. apply respond_flush. exact (first_flush s live p a Hu He).
Qed.

(** A response of a declared length: a write is refused exactly when it would
    exceed the length, and the wire carries the head and the accepted writes,
    whatever their sizes and wherever the flushes are. *)
Theorem length_response (s : Response) (live : gset nat) (n : Z) (ops : list resp_op) :
  unsent s live -> r_chunked (prep s) = false -> declares n (prep s) ->
  exists rs s', respond ops s = Some (rs, None, s') /\ rs.*2 = verdicts n 0 ops /\
    concat (r_wire s') = head_of (first_state (opens_with_body ops) s) ++ accepted n 0 ops.
Proof.
  intros Hu Hc Hd. destruct (length_respond s live n ops Hu Hc Hd) as (rs & s' & Hr & Hv & Hw & _). by exists rs, s'.
Qed.

(** ** A length found out at the end *)

(** What the head depends on besides the body. *)
Definition head_fields (s : Response) : bytes * Z * Header * Z * bool :=
  (r_status s, r_statusCode s, r_header s, r_trailerSize s, r_chunked s).

(** No length is declared and nothing has been sent: the body is collected. *)
Record collecting (s0 s : Response) (live : gset nat) (body : bytes) : Prop := {
  cl_settled : settled s;
  cl_chunked : r_chunked s = false;
  cl_len : r_contentLen s <= 0;
  cl_none : r_header s !! contentLengthHeader = None;
  cl_unsent : r_headEncoded s = false;
  cl_buf : r_buffer s = None;
  cl_wire : r_wire s = [];
  cl_owned : owns (r_alloc s) live (r_bodyBuffer s);
  cl_body : pending (r_bodyBuffer s) = body;
  cl_has : r_hasBody s = (r_hasBody s0 || negb (bool_decide (body = [])))%bool;
  cl_fields : head_fields s = head_fields s0
}.

(** The head of a response whose whole body is known. *)
Definition plain_head (s : Response) (body : bytes) : bytes :=
  head_of (if bool_decide (body = []) then prep s
           else set_bodyBuffer (Some (MkBuf 0 body (len body))) (set_hasBody (prep s))).

Lemma contentLength_none (s : Response) :
  r_contentLen s <= 0 -> r_header s !! contentLengthHeader = None -> contentLength s = (0, None, s).
Proof.
  intros Hl Hn. unfold contentLength. destruct (Z.ltb_spec 0 (r_contentLen s)); [lia|].
  unfold header_get. assert (CanonicalHeaderKey contentLengthHeader = contentLengthHeader) as -> by by vm_compute.
  by rewrite Hn.
Qed.

Lemma append_body_zero d s live :
  owns (r_alloc s) live (r_bodyBuffer s) -> 0 <= len d ->
  exists q a, append_body conn_up 0 d s =
      Some (len d, None, set_bodyBuffer (Some q) (set_ralloc a (set_bodyWritten (r_bodyWritten s + len d) s))) /\
    holds a live q /\ data q = pending (r_bodyBuffer s) ++ d.
Proof.
  intros Ho Hd. unfold append_body. cbv zeta. cbn [Z.ltb Z.compare andb].
  destruct (r_bodyBuffer s) as [p|] eqn:Eb; cbn [owns pending] in *.
  - destruct (append_one _ live p d Ho) as (q & a & E & Hq & Dq). cbn [r_alloc set_bodyWritten]. rewrite E.
    by exists q, a.
  - destruct (malloc_zero _ live (len d) Ho Hd) as (p0 & a0 & p & -> & Ep & Hp & Dp). cbn [mbind option_bind].
    rewrite Ep. cbn [mbind option_bind].
    destruct (append_one _ live p d Hp) as (q & a & E & Hq & Dq). cbn [r_alloc set_bodyWritten set_ralloc].
    rewrite E. rewrite Dp in Dq. exists q, a. split; [by destruct s|done].
Qed.

Lemma collect_write s0 s live body d :
  collecting s0 s live body -> 0 < len d ->
  exists s', write d s = Some (len d, None, s') /\ collecting s0 s' live (body ++ d).
Proof.
  intros [Hse Hc Hl Hn Hh Hb Hw Ho Hbody Hhas Hv] Hd.
  unfold Write. destruct (Z.eqb_spec (len d) 0) as [?|_]; [lia|]. cbv zeta.
  rewrite (settled_prep s Hse). assert (r_chunked (set_hasBody s) = false) as -> by exact Hc.
  rewrite (contentLength_none (set_hasBody s)) by done. cbn [Z.ltb Z.compare andb].
  destruct (append_body_zero d (set_hasBody s) live Ho ltac:(lia)) as (q & a & -> & Hq & Dq).
  eexists. split; [reflexivity|]. split; try done.
  - cbn [r_bodyBuffer set_bodyBuffer pending]. rewrite Dq. cbn [r_bodyBuffer set_hasBody]. by rewrite Hbody.
  - rewrite bool_decide_eq_false_2; [by rewrite orb_true_r|]. intros E. apply app_eq_nil in E as [_ ->]. done.
Qed.

Lemma collect_handle s0 ds : forall s live body,
  collecting s0 s live body ->
  exists s', handle_up (map HWrite ds) s = Some (map (fun d => (len d, None)) ds, s') /\
    collecting s0 s' live (body ++ concat ds).
Proof.
  induction ds as [|d ds IH]; intros s live body Hc; cbn [map handle concat].
  - exists s. by rewrite app_nil_r.
  - destruct (decide (len d = 0)) as [E|E].
    + rewrite write_empty by done. cbn [mbind option_bind]. destruct (IH s live body Hc) as (s' & -> & H).
      exists s'. rewrite E, (len_zero d E). done.
    + destruct (collect_write s0 s live body d Hc ltac:(unfold len in *; lia)) as (s1 & -> & Hc1).
      cbn [mbind option_bind]. destruct (IH s1 live _ Hc1) as (s' & -> & Hc'). exists s'.
      by rewrite app_assoc.
Qed.

Lemma head_of_fields s s' :
  head_fields s = head_fields s' -> r_hasBody s = r_hasBody s' ->
  (r_hasBody s = true ->
   match r_bodyBuffer s with Some b => b_len b | None => 0 end =
   match r_bodyBuffer s' with Some b => b_len b | None => 0 end) ->
  head_of s = head_of s'.
Proof.
  unfold head_fields. intros [= E1 E2 E3 E4 E5] Eh Hl.
  unfold head_of, head_loop, status_pieces, fixed_pieces, length_pieces, announced.
  rewrite E1, E2, E3, E4, E5, <- Eh. destruct (r_hasBody s); [rewrite Hl by done|]; done.
Qed.

(** Sending the head and the body, in one packet or two. *)
Lemma flush_plain_both s live p b :
  r_buffer s = Some p -> r_bodyBuffer s = Some b -> 0 < b_len b ->
  holds (r_alloc s) ({[b_id b]} ∪ live) p -> holds (r_alloc s) ({[b_id p]} ∪ live) b -> r_hijacked s = false ->
  exists s', flush_plain conn_up s = Some (None, s') /\ concat (r_wire s') = concat (r_wire s) ++ data p ++ data b /\
    released s' live.
Proof.
  intros Ep Eb Hb Hp Ho Hj. unfold flush_plain. rewrite Ep, Eb, (proj2 (Z.ltb_lt 0 _) Hb).
  destruct (maxPacketSize <? b_len p + b_len b).
  - destruct (send_free_ok p s _ Hp) as (a & -> & Ha). cbn [mbind option_bind].
    assert (holds a live b) as Hob.
    { destruct Ho as (Hg & Hn & _). split; [done|]. split; [set_solver|done]. }
    destruct (send_free_ok b (set_bodyBuffer None (set_buffer None
      (set_ralloc a (set_wire (r_wire s ++ [data p]) s)))) live Hob) as (a2 & -> & Ha2). cbn [mbind option_bind].
    eexists. split; [reflexivity|]. split; [|done].
    cbn [r_wire set_buffer set_bodyBuffer set_ralloc set_wire]. rewrite !concat_snoc. by rewrite app_assoc.
  - destruct (append_one _ _ p (data b) Hp) as (p' & a & -> & Hp' & Dp'). cbn [mbind option_bind].
    assert (holds a ({[b_id p']} ∪ live) b) as Hob.
    { destruct Ho as (Hg & Hn & _), Hp' as (Hg' & Hn' & Ha'). split; [done|]. split; [set_solver|].
      assert ({[b_id b]} ∪ ({[b_id p']} ∪ live) = {[b_id p']} ∪ ({[b_id b]} ∪ live)) as -> by set_solver. done. }
    destruct (pool_free_ok b (set_ralloc a s) _ Hob) as (a2 & -> & Ha2). cbn [mbind option_bind].
    assert (holds a2 live p') as Hp2.
    { destruct Hp' as (Hg' & Hn' & _). split; [done|]. split; [set_solver|done]. }
    destruct (send_free_ok p' (set_bodyBuffer None (set_ralloc a2 (set_ralloc a s))) live Hp2) as (a3 & -> & Ha3).
    cbn [mbind option_bind]. eexists. split; [reflexivity|]. split; [|done].
    cbn [r_wire set_buffer set_bodyBuffer set_ralloc set_wire]. by rewrite concat_snoc, Dp'.
Qed.

Lemma flush_plain_head s live p :
  r_buffer s = Some p -> holds (r_alloc s) live p ->
  match r_bodyBuffer s with Some b => b_len b <= 0 | None => True end ->
  exists s', flush_plain conn_up s = Some (None, s') /\ concat (r_wire s') = concat (r_wire s) ++ data p /\
    r_hijacked s' = r_hijacked s /\ r_buffer s' = None /\ r_bodyBuffer s' = r_bodyBuffer s /\ alloc_inv (r_alloc s') live.
Proof.
  intros Ep Hp Hb. unfold flush_plain. rewrite Ep. destruct (r_bodyBuffer s) as [b|] eqn:Eb.
  - rewrite (proj2 (Z.ltb_ge 0 (b_len b)) Hb). cbn [mbind option_bind].
    destruct (send_free_ok p s live Hp) as (a & -> & Ha). cbn [mbind option_bind].
    cbn [r_bodyBuffer set_buffer set_ralloc set_wire]. rewrite Eb, (proj2 (Z.ltb_ge 0 (b_len b)) Hb).
    eexists. split; [reflexivity|]. split; [cbn [r_wire set_buffer set_ralloc set_wire]; by rewrite concat_snoc|by rewrite <- Eb].
  - cbn [mbind option_bind]. destruct (send_free_ok p s live Hp) as (a & -> & Ha). cbn [mbind option_bind].
    cbn [r_bodyBuffer set_buffer set_ralloc set_wire]. rewrite Eb.
    eexists. split; [reflexivity|]. split; [cbn [r_wire set_buffer set_ralloc set_wire]; by rewrite concat_snoc|by rewrite <- Eb].
Qed.

Lemma collect_finish s0 s live body :
  collecting s0 s live body ->
  exists s', finish_op s = Some (None, s') /\ concat (r_wire s') = head_of s ++ body /\ released s' live.
Proof.
  intros [Hse Hc Hl Hn Hh Hb Hw Ho Hbody Hhas Hv]. unfold finish. pose proof Hse as (Hj & _ & _). rewrite Hj.
  rewrite (settled_prep s Hse). destruct (r_bodyBuffer s) as [b|] eqn:Eb; cbn [owns pending] in *.
  - pose proof (holds_len _ _ _ Ho) as Hlen. pose proof Ho as (Hg & Hnl & Ha).
    destruct (encode_ok s _ Hh Ha) as (p & a & -> & Hp & Dp). cbn [mbind option_bind].
    unfold flush. assert (r_chunked (encoded s p a) = false) as -> by exact Hc.
    destruct (decide (0 < b_len b)) as [Hpos|Hz].
    + destruct (flush_plain_both (encoded s p a) live p b eq_refl Eb Hpos Hp) as (s' & -> & Hwire & Hrel); [|exact Hj|].
      { destruct Hp as (Hgp & Hnp & Hap). split; [done|]. split; [set_solver|].
        assert ({[b_id b]} ∪ ({[b_id p]} ∪ live) = {[b_id p]} ∪ ({[b_id b]} ∪ live)) as -> by set_solver. done. }
      exists s'. split; [done|]. split; [|done]. rewrite Hwire, Dp, Hbody.
      change (r_wire (encoded s p a)) with (r_wire s). by rewrite Hw.
    + destruct (flush_plain_head (encoded s p a) _ p eq_refl Hp) as (s' & -> & Hwire & R1 & R2 & R3 & R4).
      { change (r_bodyBuffer (encoded s p a)) with (r_bodyBuffer s). rewrite Eb. lia. }
      exists s'. split; [done|]. split; [|split; [by rewrite R1|split; [done|]]]; cycle 1.
      { rewrite R3. change (r_bodyBuffer (encoded s p a)) with (r_bodyBuffer s). by rewrite Eb. }
      rewrite Hwire, Dp, <- Hbody.
      change (r_wire (encoded s p a)) with (r_wire s). rewrite Hw.
      assert (data b = []) as -> by (apply len_zero; unfold len in *; lia). by rewrite app_nil_r.
  - destruct (encode_ok s _ Hh Ho) as (p & a & -> & Hp & Dp). cbn [mbind option_bind].
    unfold flush. assert (r_chunked (encoded s p a) = false) as -> by exact Hc.
    destruct (flush_plain_head (encoded s p a) _ p eq_refl Hp) as (s' & -> & Hwire & R1 & R2 & R3 & R4).
    { change (r_bodyBuffer (encoded s p a)) with (r_bodyBuffer s). by rewrite Eb. }
    exists s'. split; [done|]. split; [|split; [by rewrite R1|split; [done|]]]; cycle 1.
    { rewrite R3. change (r_bodyBuffer (encoded s p a)) with (r_bodyBuffer s). by rewrite Eb. }
    rewrite Hwire, Dp, <- Hbody.
    change (r_wire (encoded s p a)) with (r_wire s). by rewrite Hw, app_nil_r.
Qed.

Lemma collect_start s live :
  unsent s live -> r_chunked (prep s) = false -> r_contentLen s <= 0 -> r_hasBody s = false ->
  r_header (prep s) !! contentLengthHeader = None -> collecting (prep s) (prep s) live [].
Proof.
  intros Hu Hc Hl Hb Hn. pose proof (prep_rest s) as R. pose proof (prep_unsent s live Hu) as Hu'.
  split; try done.
  - apply prep_settled, (un_hij _ _ Hu).
  - by rewrite (sr_cl _ _ R).
  - apply (un_head _ _ Hu').
  - apply (un_buf _ _ Hu').
  - apply (un_wire _ _ Hu').
  - rewrite (un_body _ _ Hu'). apply (un_alloc _ _ Hu').
  - by rewrite (un_body _ _ Hu').
  - by rewrite orb_false_r.
Qed.

Lemma collect_first s d : r_hijacked s = false -> write d s = write d (prep s) \/ len d = 0.
Proof.
  intros Hj. destruct (decide (len d = 0)) as [E|E]; [by right|]. left. unfold Write.
  rewrite (proj2 (Z.eqb_neq _ _) E). cbv zeta. by rewrite (settled_prep (prep s)) by by apply prep_settled.
Qed.

Lemma respond_prep s ds :
  r_hijacked s = false -> respond (map HWrite ds) s = respond (map HWrite ds) (prep s).
Proof.
  intros Hj. induction ds as [|d ds IH]; [|destruct (collect_first s d Hj) as [Hw|Hz]].
  - unfold respond, finish. cbn [map handle mbind option_bind].
    rewrite (settled_prep (prep s)) by by apply prep_settled.
    by rewrite (sr_hij _ _ (prep_rest s)), Hj.
  - by apply respond_write.
  - revert IH. unfold respond. cbn [map handle]. rewrite !write_empty by done. cbn [mbind option_bind].
    destruct (handle_up (map HWrite ds) s) as [[rs1 s1]|], (handle_up (map HWrite ds) (prep s)) as [[rs2 s2]|];
      cbn [mbind option_bind]; [|destruct (finish_op s1) as [[??]|]|destruct (finish_op s2) as [[??]|]|];
      cbn [mbind option_bind]; try done.
    destruct (finish_op s1) as [[??]|], (finish_op s2) as [[??]|]; cbn [mbind option_bind]; congruence.
Qed.

(** The whole of a response collected to its end. *)
Lemma buffered_respond (s : Response) (live : gset nat) (ds : list bytes) :
  unsent s live -> r_chunked (prep s) = false -> r_contentLen s <= 0 -> r_hasBody s = false ->
  r_header (prep s) !! contentLengthHeader = None ->
  exists s', respond (map HWrite ds) s = Some (map (fun d => (len d, None)) ds, None, s') /\
    concat (r_wire s') = plain_head s (concat ds) ++ concat ds /\ released s' live.
Proof.
  intros Hu Hc Hl Hb Hn.
  rewrite (respond_prep s ds (un_hij _ _ Hu)).
  destruct (collect_handle (prep s) ds _ live [] (collect_start s live Hu Hc Hl Hb Hn)) as (s1 & Hh & Hco).
  destruct (collect_finish _ _ _ _ Hco) as (s' & Hf & Hw & Hrel). cbn [app] in *. exists s'.
  split; [exact (respond_ok _ _ _ _ _ _ Hh Hf)|]. split; [|done]. rewrite Hw. f_equal. unfold plain_head.
  pose proof (cl_has _ _ _ _ Hco) as Hhas. rewrite (sr_has _ _ (prep_rest s)), Hb in Hhas.
  destruct (bool_decide_reflect (concat ds = [])) as [E|E]; cbn [orb negb] in Hhas; apply head_of_fields.
  - exact (cl_fields _ _ _ _ Hco).
  - by rewrite Hhas, (sr_has _ _ (prep_rest s)).
  - by rewrite Hhas.
  - exact (cl_fields _ _ _ _ Hco).
  - by rewrite Hhas.
  - intros _. pose proof (cl_body _ _ _ _ Hco) as Hbody. pose proof (cl_owned _ _ _ _ Hco) as Ho.
    destruct (r_bodyBuffer s1) as [b|]; cbn [pending owns] in *; [|done].
    cbn [r_bodyBuffer set_bodyBuffer b_len]. by rewrite (holds_len _ _ _ Ho), Hbody.
Qed.

(** A response without chunks and without a declared length (HTTP/1.0): the
    body is sent once, after a head that declares its exact length. *)
Theorem buffered_response (s : Response) (live : gset nat) (ds : list bytes) :
  unsent s live -> r_chunked (prep s) = false -> r_contentLen s <= 0 -> r_hasBody s = false ->
  r_header (prep s) !! contentLengthHeader = None ->
  (exists s', respond (map HWrite ds) s = Some (map (fun d => (len d, None)) ds, None, s') /\
    concat (r_wire s') = plain_head s (concat ds) ++ concat ds) /\
  (concat ds <> [] ->
    length_pieces (set_bodyBuffer (Some (MkBuf 0 (concat ds) (len (concat ds)))) (set_hasBody (prep s)))
      = [str "Content-Length: "; FormatUint (len (concat ds)) 10; CRLF]).
Proof.
  intros Hu Hc Hl Hb Hn. split.
  - destruct (buffered_respond s live ds Hu Hc Hl Hb Hn) as (s' & Hr & Hw & _). by exists s'.
  - intros Hne. unfold length_pieces. cbn [r_chunked r_header r_hasBody r_bodyBuffer set_bodyBuffer set_hasBody b_len].
    rewrite Hc, Hn. cbn [negb andb]. assert (0 <? len (concat ds) = true) as ->; [|done].
    apply Z.ltb_lt. assert (len (concat ds) <> 0) by (intros E; by apply len_zero in E). unfold len in *. lia.
Qed.

(** ** The three framings at once *)

(** [answer s ops out]: the handler [ops] on the response [s] puts [out] on the
    wire. *)
Inductive answer (s : Response) (ops : list resp_op) : bytes -> Prop :=
| AnswerChunks :
    r_chunked (prep s) = true ->
    fits (len (head_of (first_state (opens_with_body ops) s))) ops = true ->
    answer s ops (head_of (first_state (opens_with_body ops) s) ++ concat (map encode_chunk (writes ops)) ++
      FormatUint 0 16 ++ crlf ++ trailer_bytes (head_loop (first_state (opens_with_body ops) s)).1.2 ++ crlf)
| AnswerLength n :
    r_chunked (prep s) = false -> declares n (prep s) ->
    answer s ops (head_of (first_state (opens_with_body ops) s) ++ accepted n 0 ops)
| AnswerPlain ds :
    r_chunked (prep s) = false -> r_contentLen s <= 0 -> r_hasBody s = false ->
    r_header (prep s) !! contentLengthHeader = None -> ops = map HWrite ds ->
    answer s ops (plain_head s (concat ds) ++ concat ds).

Lemma respond_answer s live ops out :
  unsent s live -> iter_trailer ∅ = [] -> answer s ops out ->
  exists rs s', respond ops s = Some (rs, None, s') /\ concat (r_wire s') = out /\ released s' live.
Proof.
  intros Hu Hit [Hc Hf|n Hc Hd|ds Hc Hl Hb Hn ->].
  - destruct (chunked_respond s live ops Hu Hc Hit Hf) as (s' & ? & ? & ? & _). by eexists _, s'.
  - destruct (length_respond s live n ops Hu Hc Hd) as (rs & s' & ? & _ & ? & ?). by exists rs, s'.
  - destruct (buffered_respond s live ds Hu Hc Hl Hb Hn) as (s' & ? & ? & ?). by eexists _, s'.
Qed.

(** The wire does not depend on the allocator. *)
Lemma WriteHeader_ralloc (a : A) code s :
  WriteHeader StatusText code (set_ralloc a s) = set_ralloc a (WriteHeader StatusText code s).
Proof.
  unfold WriteHeader. change (r_hijacked (set_ralloc a s)) with (r_hijacked s).
  change (r_statusCode (set_ralloc a s)) with (r_statusCode s). destruct (_ && _); [|done].
  cbv zeta. destruct (bool_decide (StatusText code = [])); cbn [r_header set_ralloc set_status];
    destruct (bool_decide (header_get (r_header s) contentLengthHeader = [])); try done;
    destruct (ParseInt (header_get (r_header s) contentLengthHeader) 10 64) as [v|]; try done;
    by destruct (0 <=? v).
Qed.

Lemma checkChunked_ralloc (a : A) s : checkChunked req (set_ralloc a s) = set_ralloc a (checkChunked req s).
Proof.
  unfold checkChunked. change (r_chunkChecked (set_ralloc a s)) with (r_chunkChecked s).
  change (r_header (set_ralloc a s)) with (r_header s). change (r_statusCode (set_ralloc a s)) with (r_statusCode s).
  change (r_chunked (set_ralloc a s)) with (r_chunked s).
  destruct (r_chunkChecked s); [done|]. destruct (existsb _ _); [done|]. cbv zeta.
  generalize (q_atLeast11 req && bool_decide (header_get (r_header s) contentLengthHeader = []) &&
    negb (r_statusCode s =? 204) && negb (r_statusCode s =? 304)
    || (0 <? len (default [] (r_header s !! trailerHeader))) || r_chunked s) as c.
  intros [|]; done.
Qed.

Lemma prep_ralloc (a : A) s : prep (set_ralloc a s) = set_ralloc a (prep s).
Proof. by rewrite WriteHeader_ralloc, checkChunked_ralloc. Qed.

Lemma first_ralloc hb a s : first_state hb (set_ralloc a s) = set_ralloc a (first_state hb s).
Proof. destruct hb; cbn [first_state]; by rewrite prep_ralloc. Qed.

Lemma answer_ralloc a s ops out : answer s ops out -> answer (set_ralloc a s) ops out.
Proof.
  intros H. assert (forall hb, head_of (first_state hb s) = head_of (first_state hb (set_ralloc a s))) as Hh.
  { intros hb. by rewrite first_ralloc. }
  destruct H as [Hc Hf|n Hc Hd|ds Hc Hl Hb Hn ->].
  - assert (forall hb, head_loop (first_state hb s) = head_loop (first_state hb (set_ralloc a s))) as Hl.
    { intros hb. by rewrite first_ralloc. }
    rewrite Hh, Hl in *. constructor; [by rewrite prep_ralloc|done].
  - rewrite Hh. apply AnswerLength; by rewrite prep_ralloc.
  - assert (plain_head s (concat ds) = plain_head (set_ralloc a s) (concat ds)) as ->.
    { unfold plain_head. rewrite prep_ralloc. by case_bool_decide. }
    apply AnswerPlain; try done; by rewrite prep_ralloc.
Qed.

End response.

(** ** Runs *)

Section witness.
#[local] Instance resp_allocator : Allocator aligned := aligned_allocator (fun _ => Some 0%nat).
#[local] Instance resp_laws : AllocatorLaws aligned := aligned_laws (fun _ => Some 0%nat).

Definition demo_text (code : Z) : bytes :=
  if code =? 200 then str "OK" else if code =? 404 then str "Not Found" else [].
Definition demo_iter (h : Header) : list (bytes * list bytes) := map_to_list h.
Definition demo_iter_trailer (t : gmap bytes bytes) : list (bytes * bytes) := map_to_list t.
Definition demo_now : utc := MkUtc 2024 2 29 4 12 30 5.
Definition req11 : req_info := MkReq (str "HTTP/1.1") true false.
Definition req10 : req_info := MkReq (str "HTTP/1.0") false true.

Definition demo_response (h : Header) : Response aligned := set_hdr h (NewResponse newAligned).
Definition demo_length : Header := {[contentLengthHeader := [str "5"]]}.
Definition demo_ops : list resp_op := [HWrite (str "hello"); HFlush; HWrite []; HWrite (str "world!")].

Lemma demo_unsent h : unsent (demo_response h) ∅.
Proof. split; try done. apply aligned_inv_new. Qed.

Lemma chunked_response_witness :
  exists s', respond demo_text demo_iter demo_iter_trailer demo_now req11 demo_ops (demo_response ∅)
    = Some ([(5, None); (0, None); (6, None)], None, s') /\
    concat (r_wire s') =
      str "HTTP/1.1 200 OK" ++ CRLF ++ str "Content-Type: text/plain; charset=utf-8" ++ CRLF ++
      str "Date: Thu, 29 Feb 2024 12:30:05 GMT" ++ CRLF ++ str "Transfer-Encoding: chunked" ++ CRLF ++ CRLF ++
      str "5" ++ CRLF ++ str "hello" ++ CRLF ++ str "6" ++ CRLF ++ str "world!" ++ CRLF ++ str "0" ++ CRLF ++ CRLF.
Proof.
  destruct (chunked_response demo_text demo_iter demo_iter_trailer demo_now req11 ltac:(done)
    (demo_response ∅) ∅ demo_ops (demo_unsent ∅)) as (s' & Hr & Hw & _);
    [vm_compute; reflexivity|vm_compute; reflexivity|vm_compute; reflexivity|].
  exists s'. split; [exact Hr|]. rewrite Hw. vm_compute. reflexivity.
Defined.

Lemma length_response_witness :
  exists rs s', respond demo_text demo_iter demo_iter_trailer demo_now req11 demo_ops (demo_response demo_length)
    = Some (rs, None, s') /\ rs.*2 = [None; None; Some ErrContentLength] /\
    concat (r_wire s') =
      str "HTTP/1.1 200 OK" ++ CRLF ++ str "Content-Type: text/plain; charset=utf-8" ++ CRLF ++
      str "Date: Thu, 29 Feb 2024 12:30:05 GMT" ++ CRLF ++ str "Content-Length: 5" ++ CRLF ++ CRLF ++ str "hello".
Proof.
  destruct (length_response demo_text demo_iter demo_iter_trailer demo_now req11 ltac:(done)
    (demo_response demo_length) ∅ 5 demo_ops (demo_unsent _)) as (rs & s' & Hr & Hrs & Hw).
  - vm_compute. reflexivity.
  - split; [lia|]. right. split; [done|]. by vm_compute.
  - exists rs, s'. split; [exact Hr|]. split; [exact Hrs|]. rewrite Hw. vm_compute. reflexivity.
Defined.

Lemma buffered_response_witness :
  exists s', respond demo_text demo_iter demo_iter_trailer demo_now req10
      (map HWrite [str "hello"; []; str "!"]) (demo_response ∅)
    = Some ([(5, None); (0, None); (1, None)], None, s') /\
    concat (r_wire s') =
      str "HTTP/1.0 200 OK" ++ CRLF ++ str "Content-Type: text/plain; charset=utf-8" ++ CRLF ++
      str "Content-Length: 6" ++ CRLF ++ str "Connection: close" ++ CRLF ++
      str "Date: Thu, 29 Feb 2024 12:30:05 GMT" ++ CRLF ++ CRLF ++ str "hello!".
Proof.
  destruct (buffered_response demo_text demo_iter demo_iter_trailer demo_now req10 ltac:(done)
    (demo_response ∅) ∅ [str "hello"; []; str "!"] (demo_unsent ∅)) as [(s' & Hr & Hw) _];
    [vm_compute; reflexivity|done|done|vm_compute; reflexivity|].
  exists s'. split; [exact Hr|]. rewrite Hw. vm_compute. reflexivity.
Defined.

(** ** Where the code falls short *)

Definition run11 := respond (A := aligned) demo_text demo_iter demo_iter_trailer demo_now req11.
Definition run10 := respond (A := aligned) demo_text demo_iter demo_iter_trailer demo_now req10.

(** A flush fixes the length of an HTTP/1.0 response at what was written before
    it; the writes after it go out all the same. *)
Lemma flush_fixes_length :
  exists s', run10 [HWrite (str "ab"); HFlush; HWrite (str "cd")] (demo_response ∅)
    = Some ([(2, None); (2, None)], None, s') /\
    concat (r_wire s') =
      str "HTTP/1.0 200 OK" ++ CRLF ++ str "Content-Type: text/plain; charset=utf-8" ++ CRLF ++
      str "Content-Length: 2" ++ CRLF ++ str "Connection: close" ++ CRLF ++
      str "Date: Thu, 29 Feb 2024 12:30:05 GMT" ++ CRLF ++ CRLF ++ str "abcd".
Proof. eexists. split; [vm_compute; reflexivity|by vm_compute]. Qed.

(** A declared length of 0 is taken for none: a body is sent after it. *)
Lemma zero_length_unchecked :
  exists s', run11 [HWrite (str "ab")] (demo_response {[contentLengthHeader := [str "0"]]})
    = Some ([(2, None)], None, s') /\
    concat (r_wire s') =
      str "HTTP/1.1 200 OK" ++ CRLF ++ str "Content-Type: text/plain; charset=utf-8" ++ CRLF ++
      str "Date: Thu, 29 Feb 2024 12:30:05 GMT" ++ CRLF ++ str "Content-Length: 0" ++ CRLF ++ CRLF ++ str "ab".
Proof. eexists. split; [vm_compute; reflexivity|by vm_compute]. Qed.

(** The general pool, the default of the server, growing arrays to size. *)
#[local] Instance default_allocator : Allocator mempool :=
  mempool_allocator (fun _ => Some 0%nat) (fun _ n => n).

Definition default_response (h : Header) : Response mempool :=
  set_hdr h (NewResponse (New 1024 (1024 * 1024 * 1024))).
Definition run_default := handle (A := mempool) demo_text demo_iter demo_now conn_up req11.
Definition bytes_of (n : Z) : bytes := replicate (Z.to_nat n) "x"%byte.

(** A chunk that does not fit behind the buffered ones: the buffer is sent and
    given back, and used on.  The next user of the pool gets the same array. *)
Lemma chunk_buffer_shared :
  ('(rs, s) ← run_default [HWrite (bytes_of 60000); HWrite (bytes_of 6000)] (default_response ∅);
   p ← r_buffer s;
   '(q, _) ← Malloc 10 (r_alloc s);
   Some (bool_decide (b_id p = b_id q))) = Some true.
Proof. vm_compute. reflexivity. Qed.

(** A small chunk after a large one: the new buffer is appended to without
    being emptied, and what it held is sent before the chunk. *)
Lemma small_chunk_garbage :
  ('(rs, s) ← run_default [HWrite (bytes_of 70000); HWrite (str "hi")] (default_response ∅);
   p ← r_buffer s;
   Some (data p)) = Some (bytes_of 7 ++ encode_chunk (str "hi")).
Proof. vm_compute. reflexivity. Qed.

(** A write that fills the buffer of a response of declared length answers
    with the length of the whole buffer, head and earlier writes included. *)
Lemma write_overcounts :
  (fst <$> run_default [HWrite (bytes_of 60000); HWrite (bytes_of 5416)]
    (default_response {[contentLengthHeader := [str "70000"]]})) = Some [(60000, None); (65536, None)].
Proof. vm_compute. reflexivity. Qed.
End witness.
