(* ===== verification/Processor.v ===== *)
(** * The processors of a connection (src/nbhttp/processor.go)

    [ServerProcessor] puts a request together from the parser's callbacks and
    hands it to the connection's executor; a job of the executor runs the
    handler and ends the response.  [ClientProcessor] does the same for a
    response.  Both are instances of the parser's [Processor].

    A callback that panics (a nil request, an allocator that panics) leaves
    [None].  Bodies and responses take their buffers from one allocator, as
    with the default configuration. *)

From Stdlib Require Import ZArith Lia.
From Stdlib Require Import Strings.Byte Strings.String.
From stdpp Require Import base numbers list list_numbers gmap.
From S2P Require Import Prelude GoLib Table Parser Mempool Body Response.

Open Scope Z_scope.

(** ** Configuration and requests *)

Record sconf := MkConf {
  c_WriteTimeout : Z;
  c_RetainHTTPBody : bool;
  c_MaxHTTPBodySize : Z;
  c_RemoteAddr : bytes
}.

Section requests.
Context {A : Type} `{!Allocator A}.
Abbreviation BodyReader := (@BodyReader A).

(** [http.Request], the fields this package sets. *)
Record http_request := MkHttpRequest {
  hr_Method : bytes;
  hr_RequestURI : bytes;
  hr_URL : option url;
  hr_Host : bytes;
  hr_Proto : bytes;
  hr_ProtoMajor : Z;
  hr_ProtoMinor : Z;
  hr_Header : Header;
  hr_ContentLength : Z;
  hr_Body : option BodyReader;
  hr_Trailer : option Header;
  hr_TransferEncoding : list bytes;
  hr_Close : bool;
  hr_RemoteAddr : bytes
}.

Definition emptyRequest : http_request := MkHttpRequest [] [] None [] [] 0 0 ∅ 0 None None [] false [].

Definition set_Method (m : bytes) (r : http_request) : http_request :=
  MkHttpRequest m (hr_RequestURI r) (hr_URL r) (hr_Host r) (hr_Proto r) (hr_ProtoMajor r) (hr_ProtoMinor r)
    (hr_Header r) (hr_ContentLength r) (hr_Body r) (hr_Trailer r) (hr_TransferEncoding r) (hr_Close r) (hr_RemoteAddr r).
Definition set_uri (u : bytes) (r : http_request) : http_request :=
  MkHttpRequest (hr_Method r) u (hr_URL r) (hr_Host r) (hr_Proto r) (hr_ProtoMajor r) (hr_ProtoMinor r)
    (hr_Header r) (hr_ContentLength r) (hr_Body r) (hr_Trailer r) (hr_TransferEncoding r) (hr_Close r) (hr_RemoteAddr r).
Definition set_url (u : option url) (r : http_request) : http_request :=
  MkHttpRequest (hr_Method r) (hr_RequestURI r) u (hr_Host r) (hr_Proto r) (hr_ProtoMajor r) (hr_ProtoMinor r)
    (hr_Header r) (hr_ContentLength r) (hr_Body r) (hr_Trailer r) (hr_TransferEncoding r) (hr_Close r) (hr_RemoteAddr r).
Definition set_host (h : bytes) (r : http_request) : http_request :=
  MkHttpRequest (hr_Method r) (hr_RequestURI r) (hr_URL r) h (hr_Proto r) (hr_ProtoMajor r) (hr_ProtoMinor r)
    (hr_Header r) (hr_ContentLength r) (hr_Body r) (hr_Trailer r) (hr_TransferEncoding r) (hr_Close r) (hr_RemoteAddr r).
Definition set_version (p : bytes) (x y : Z) (r : http_request) : http_request :=
  MkHttpRequest (hr_Method r) (hr_RequestURI r) (hr_URL r) (hr_Host r) p x y
    (hr_Header r) (hr_ContentLength r) (hr_Body r) (hr_Trailer r) (hr_TransferEncoding r) (hr_Close r) (hr_RemoteAddr r).
Definition set_fields (h : Header) (r : http_request) : http_request :=
  MkHttpRequest (hr_Method r) (hr_RequestURI r) (hr_URL r) (hr_Host r) (hr_Proto r) (hr_ProtoMajor r) (hr_ProtoMinor r)
    h (hr_ContentLength r) (hr_Body r) (hr_Trailer r) (hr_TransferEncoding r) (hr_Close r) (hr_RemoteAddr r).
Definition set_length (n : Z) (r : http_request) : http_request :=
  MkHttpRequest (hr_Method r) (hr_RequestURI r) (hr_URL r) (hr_Host r) (hr_Proto r) (hr_ProtoMajor r) (hr_ProtoMinor r)
    (hr_Header r) n (hr_Body r) (hr_Trailer r) (hr_TransferEncoding r) (hr_Close r) (hr_RemoteAddr r).
Definition set_body (b : option BodyReader) (r : http_request) : http_request :=
  MkHttpRequest (hr_Method r) (hr_RequestURI r) (hr_URL r) (hr_Host r) (hr_Proto r) (hr_ProtoMajor r) (hr_ProtoMinor r)
    (hr_Header r) (hr_ContentLength r) b (hr_Trailer r) (hr_TransferEncoding r) (hr_Close r) (hr_RemoteAddr r).
Definition set_trailers (t : option Header) (r : http_request) : http_request :=
  MkHttpRequest (hr_Method r) (hr_RequestURI r) (hr_URL r) (hr_Host r) (hr_Proto r) (hr_ProtoMajor r) (hr_ProtoMinor r)
    (hr_Header r) (hr_ContentLength r) (hr_Body r) t (hr_TransferEncoding r) (hr_Close r) (hr_RemoteAddr r).
Definition set_rest (te : list bytes) (c : bool) (ra : bytes) (r : http_request) : http_request :=
  MkHttpRequest (hr_Method r) (hr_RequestURI r) (hr_URL r) (hr_Host r) (hr_Proto r) (hr_ProtoMajor r) (hr_ProtoMinor r)
    (hr_Header r) (hr_ContentLength r) (hr_Body r) (hr_Trailer r) te c ra.

(** A body with the current state of the allocator. *)
Definition body_with (a : A) (b : BodyReader) : BodyReader :=
  MkBody (br_index b) (br_left b) (br_buffers b) (br_closed b) a.

Definition body_error (e : body_err) : http_err :=
  match e with BodyTooLong => ErrTooLong | BodyEOF => ErrOther 0 end.

(** [OnBody] of both processors: the body is made when it is first needed. *)
Definition add_body (limit : Z) (d : bytes) (b : option BodyReader) (a : A)
    : option (option http_err * BodyReader) :=
  let br := match b with Some br => body_with a br | None => NewBodyReader a end in
  '(e, br) ← Body.append limit d br;
  Some (option_map body_error e, br).

(** Closing and recycling a body. *)
Definition release_body (retain : bool) (b : option BodyReader) (a : A) : option A :=
  match b with
  | Some br => if retain then Some a else br' ← Body.Close (body_with a br); Some (br_alloc br')
  | None => Some a
  end.

(** ** Keeping the connection *)

(** The loop over the values of the Connection header: whether it has a
    "close", and whether a "keep-alive" came before. *)
Fixpoint connection_values (vs : list bytes) (keepAlive : bool) : bool * bool :=
  match vs with
  | [] => (false, keepAlive)
  | v :: vs =>
      let w := ToLower (Trim_space v) in
      if bool_decide (w = str "close") then (true, keepAlive)
      else connection_values vs (keepAlive || bool_decide (w = str "keep-alive"))
  end.

Definition wants_close (r : http_request) : bool :=
  if hr_ProtoMajor r <? 1 then true
  else
    let '(hasClose, keepAlive) := connection_values (default [] (hr_Header r !! str "Connection")) false in
    if (hr_ProtoMajor r =? 1) && (hr_ProtoMinor r =? 0) then hasClose || negb keepAlive else hasClose.

(** [request.ProtoAtLeast(major, minor)] *)
Definition ProtoAtLeast (major minor : Z) (r : http_request) : bool :=
  (major <? hr_ProtoMajor r) || ((hr_ProtoMajor r =? major) && (minor <=? hr_ProtoMinor r)).

(** The parts of a request its response looks at. *)
Definition response_info (r : http_request) : req_info :=
  MkReq (hr_Proto r) (ProtoAtLeast 1 1 r) (hr_Close r).

(** ** The server's processor *)

(** The processor, with what it shares: the allocator, the jobs given to the
    connection's executor, whether the executor takes jobs, and the connection
    (what was written, the deadlines set, whether it was closed). *)
Record server := MkServer {
  sv_request : option http_request;
  sv_alloc : A;
  sv_jobs : list http_request;
  sv_exec : bool;
  sv_wire : list bytes;
  sv_writeDeadlines : nat;
  sv_readDeadlines : nat;
  sv_closed : bool
}.

Definition new_server (a : A) : server := MkServer None a [] true [] 0 0 false.

Definition with_request (q : option http_request) (s : server) : server :=
  MkServer q (sv_alloc s) (sv_jobs s) (sv_exec s) (sv_wire s) (sv_writeDeadlines s) (sv_readDeadlines s) (sv_closed s).
Definition with_alloc (a : A) (s : server) : server :=
  MkServer (sv_request s) a (sv_jobs s) (sv_exec s) (sv_wire s) (sv_writeDeadlines s) (sv_readDeadlines s) (sv_closed s).
Definition with_jobs (js : list http_request) (s : server) : server :=
  MkServer (sv_request s) (sv_alloc s) js (sv_exec s) (sv_wire s) (sv_writeDeadlines s) (sv_readDeadlines s) (sv_closed s).

Context (conf : sconf) (parse_other : bytes -> option url) (OnRequest : http_request -> http_request).

Definition sp_OnMethod (m : bytes) (s : server) : server :=
  match sv_request s with
  | None => with_request (Some (set_fields ∅ (set_Method m emptyRequest))) s
  | Some r => with_request (Some (set_Method m r)) s
  end.

Definition sp_OnURL (raw : bytes) (s : server) : option (server * option http_err) :=
  r ← sv_request s;
  let r := set_uri raw r in
  let justAuthority := bool_decide (hr_Method r = str "CONNECT") && negb (HasPrefix raw (str "/")) in
  let raw' := if justAuthority then str "http://" ++ raw else raw in
  match ParseRequestURI parse_other raw' with
  | None => Some (with_request (Some r) s, Some (ErrBadURL raw'))
  | Some u =>
      let u := if justAuthority then MkURL [] (u_Host u) (u_Path u) (u_RawQuery u) (u_ForceQuery u) else u in
      Some (with_request (Some (set_url (Some u) r)) s, None)
  end.

Definition sp_OnProto (v : bytes) (s : server) : option (server * option http_err) :=
  match ParseHTTPVersion v with
  | None => Some (s, Some (ErrMalformedVersion v))
  | Some (x, y) => r ← sv_request s; Some (with_request (Some (set_version v x y r)) s, None)
  end.

Definition sp_OnHeader (k v : bytes) (s : server) : option server :=
  r ← sv_request s;
  let h := hr_Header r in
  Some (with_request (Some (set_fields (<[k := default [] (h !! k) ++ [v]]> h) r)) s).

Definition sp_OnContentLength (n : Z) (s : server) : option server :=
  r ← sv_request s; Some (with_request (Some (set_length n r)) s).

Definition sp_OnBody (d : bytes) (s : server) : option (server * option http_err) :=
  r ← sv_request s;
  '(e, br) ← add_body (c_MaxHTTPBodySize conf) d (hr_Body r) (sv_alloc s);
  Some (with_request (Some (set_body (Some br) r)) (with_alloc (br_alloc br) s), e).

Definition sp_OnTrailerHeader (k v : bytes) (s : server) : option server :=
  r ← sv_request s;
  Some (with_request (Some (set_trailers (Some (header_add (default ∅ (hr_Trailer r)) k v)) r)) s).

(** [releaseRequest]: the body's buffers go back. *)
Definition releaseRequest (r : http_request) (s : server) : option server :=
  a ← release_body (c_RetainHTTPBody conf) (hr_Body r) (sv_alloc s);
  Some (with_alloc a s).

(** The host, the framing and the fate of the connection, then the job. *)
Definition complete_request (r : http_request) (a : A) : option http_request :=
  u ← hr_URL r;
  let r :=
    if bool_decide (u_Host u = []) then
      let h := header_get (hr_Header r) (str "Host") in
      set_host h (set_url (Some (MkURL (u_Scheme u) h (u_Path u) (u_RawQuery u) (u_ForceQuery u))) r)
    else r in
  let r := set_rest (default [] (hr_Header r !! transferEncodingHeader)) (wants_close r) (c_RemoteAddr conf) r in
  Some (match hr_Body r with None => set_body (Some (NewBodyReader a)) r | Some _ => r end).

Definition sp_OnComplete (s : server) : option server :=
  match sv_request s with
  | None => Some s
  | Some r =>
      let s := with_request None s in
      let s := if 0 <? c_WriteTimeout conf then
                 MkServer (sv_request s) (sv_alloc s) (sv_jobs s) (sv_exec s) (sv_wire s)
                   (S (sv_writeDeadlines s)) (sv_readDeadlines s) (sv_closed s)
               else s in
      r ← complete_request r (sv_alloc s);
      let r := OnRequest r in
      if sv_exec s then Some (with_jobs (sv_jobs s ++ [r]) s) else releaseRequest r s
  end.

Definition sp_Clean (s : server) : option server :=
  match sv_request s with
  | Some r => s ← releaseRequest r s; Some (with_request None s)
  | None => Some s
  end.

(** ** A job: the handler, then the end of the response *)

Section job.
Context (StatusText : Z -> bytes) (iter : Header -> list (bytes * list bytes)).
Context (iter_trailer : gmap bytes bytes -> list (bytes * bytes)) (now : utc).
(** Whether and how a write fails, for a closed connection and for an open one
    with what was written before. *)
Context (conn_fail : bool -> list bytes -> bytes -> option (Z * Z)).
(** The handler, with the connection its response writes to: the request, whose
    body it may have read, and the response. *)
Context (ServeHTTP : (list bytes -> bytes -> option (Z * Z)) -> http_request -> Response A -> option (http_request * Response A)).
Context (upgraded : bool).

(** [releaseResponse] *)
Definition free_opt (b : option pbuf) (a : A) : option A :=
  match b with Some p => Free p a | None => Some a end.

Definition releaseResponse (res : Response A) (a : A) : option A :=
  a ← free_opt (r_buffer res) a;
  free_opt (r_bodyBuffer res) a.

Definition close_conn (s : server) : server :=
  MkServer (sv_request s) (sv_alloc s) (sv_jobs s) (sv_exec s) (sv_wire s) (sv_writeDeadlines s) (sv_readDeadlines s) true.

Definition conn_now (s : server) (w : list bytes) (b : bytes) : option (Z * Z) :=
  conn_fail (sv_closed s) (sv_wire s ++ w) b.

Definition flushResponse (r : http_request) (res : Response A) (s : server) : option server :=
  '(err, res) ← finish StatusText iter iter_trailer now (conn_now s) (response_info r) res;
  let s := MkServer (sv_request s) (r_alloc res) (sv_jobs s) (sv_exec s) (sv_wire s ++ r_wire res)
             (sv_writeDeadlines s) (sv_readDeadlines s) (sv_closed s) in
  let s :=
    if r_hijacked res then s
    else
      match err with
      | Some _ => close_conn s
      | None =>
          if hr_Close r then close_conn s
          else if upgraded then s
          else MkServer (sv_request s) (sv_alloc s) (sv_jobs s) (sv_exec s) (sv_wire s) (sv_writeDeadlines s)
                 (S (sv_readDeadlines s)) (sv_closed s)
      end in
  s ← releaseRequest r s;
  a ← releaseResponse res (sv_alloc s);
  Some (with_alloc a s).

(** The executor runs the oldest job. *)
Definition run_job (s : server) : option server :=
  match sv_jobs s with
  | [] => Some s
  | r :: js =>
      let s := with_jobs js s in
      '(r, res) ← ServeHTTP (conn_now s) r (NewResponse (sv_alloc s));
      flushResponse r res s
  end.
End job.
End requests.

Arguments http_request : clear implicits.
Arguments server : clear implicits.

(** ** The client's processor *)

Section responses.
Context {A : Type} `{!Allocator A}.

(** [http.Response], the fields this package sets. *)
Record http_response := MkHttpResponse {
  hs_Proto : bytes;
  hs_ProtoMajor : Z;
  hs_ProtoMinor : Z;
  hs_StatusCode : Z;
  hs_Status : bytes;
  hs_Header : Header;
  hs_ContentLength : Z;
  hs_Body : option (@BodyReader A);
  hs_Trailer : option Header
}.

Definition emptyClientResponse : http_response := MkHttpResponse [] 0 0 0 [] ∅ 0 None None.

(** The processor, the allocator of the bodies, the responses that wait for the
    executor, and the calls of the handler. *)
Record client := MkClient {
  cp_response : option http_response;
  cp_alloc : A;
  cp_jobs : list http_response;
  cp_exec : bool;
  cp_handled : list http_response
}.

Context (conf : sconf).

Definition with_response (r : option http_response) (s : client) : client :=
  MkClient r (cp_alloc s) (cp_jobs s) (cp_exec s) (cp_handled s).

Definition cp_OnProto (v : bytes) (s : client) : client * option http_err :=
  match ParseHTTPVersion v with
  | None => (s, Some (ErrMalformedVersion v))
  | Some (x, y) =>
      let r := default emptyClientResponse (cp_response s) in
      (with_response (Some (MkHttpResponse v x y (hs_StatusCode r) (hs_Status r) (hs_Header r)
         (hs_ContentLength r) (hs_Body r) (hs_Trailer r))) s, None)
  end.

Definition cp_OnStatus (code : Z) (st : bytes) (s : client) : option client :=
  r ← cp_response s;
  Some (with_response (Some (MkHttpResponse (hs_Proto r) (hs_ProtoMajor r) (hs_ProtoMinor r) code st (hs_Header r)
    (hs_ContentLength r) (hs_Body r) (hs_Trailer r))) s).

Definition cp_OnHeader (k v : bytes) (s : client) : option client :=
  r ← cp_response s;
  Some (with_response (Some (MkHttpResponse (hs_Proto r) (hs_ProtoMajor r) (hs_ProtoMinor r) (hs_StatusCode r)
    (hs_Status r) (header_add (hs_Header r) k v) (hs_ContentLength r) (hs_Body r) (hs_Trailer r))) s).

Definition cp_OnContentLength (n : Z) (s : client) : option client :=
  r ← cp_response s;
  Some (with_response (Some (MkHttpResponse (hs_Proto r) (hs_ProtoMajor r) (hs_ProtoMinor r) (hs_StatusCode r)
    (hs_Status r) (hs_Header r) n (hs_Body r) (hs_Trailer r))) s).

Definition cp_OnBody (d : bytes) (s : client) : option (client * option http_err) :=
  r ← cp_response s;
  '(e, br) ← add_body (c_MaxHTTPBodySize conf) d (hs_Body r) (cp_alloc s);
  Some (MkClient (Some (MkHttpResponse (hs_Proto r) (hs_ProtoMajor r) (hs_ProtoMinor r) (hs_StatusCode r)
      (hs_Status r) (hs_Header r) (hs_ContentLength r) (Some br) (hs_Trailer r)))
    (br_alloc br) (cp_jobs s) (cp_exec s) (cp_handled s), e).

Definition cp_OnTrailerHeader (k v : bytes) (s : client) : option client :=
  r ← cp_response s;
  Some (with_response (Some (MkHttpResponse (hs_Proto r) (hs_ProtoMajor r) (hs_ProtoMinor r) (hs_StatusCode r)
    (hs_Status r) (hs_Header r) (hs_ContentLength r) (hs_Body r)
    (Some (header_add (default ∅ (hs_Trailer r)) k v)))) s).

(** The body is closed whatever the configuration says about bodies. *)
Definition releaseClientResponse (r : http_response) (s : client) : option client :=
  a ← release_body false (hs_Body r) (cp_alloc s);
  Some (MkClient (cp_response s) a (cp_jobs s) (cp_exec s) (cp_handled s)).

(** The handler is called, then the response released. *)
Definition deliver_response (r : http_response) (s : client) : option client :=
  releaseClientResponse r (MkClient (cp_response s) (cp_alloc s) (cp_jobs s) (cp_exec s) (cp_handled s ++ [r])).

Definition cp_OnComplete (s : client) : option client :=
  r ← cp_response s;
  let s := with_response None s in
  if hs_StatusCode r =? 101 then deliver_response r s
  else if cp_exec s then Some (MkClient (cp_response s) (cp_alloc s) (cp_jobs s ++ [r]) (cp_exec s) (cp_handled s))
  else releaseClientResponse r s.

Definition run_client_job (s : client) : option client :=
  match cp_jobs s with
  | [] => Some s
  | r :: js => deliver_response r (MkClient (cp_response s) (cp_alloc s) js (cp_exec s) (cp_handled s))
  end.

Definition cp_Clean (s : client) : option client :=
  match cp_response s with
  | Some r => s ← releaseClientResponse r s; Some (with_response None s)
  | None => Some s
  end.
End responses.

Arguments http_response : clear implicits.
Arguments client : clear implicits.

(** ** Instances *)

(** A server's processor never installs a reader itself: the handler does. *)
#[export] Instance server_processor {A : Type} `{!Allocator A} {C : Type} (conf : sconf)
    (parse_other : bytes -> option url) (OnRequest : http_request A -> http_request A)
    : Processor (option (server A)) C := {|
  OnMethod s m := sp_OnMethod m <$> s;
  OnURL s u := match s ≫= sp_OnURL parse_other u with Some (s, e) => (Some s, e) | None => (None, Some (ErrOther 0)) end;
  OnProto s v := match s ≫= sp_OnProto v with Some (s, e) => (Some s, e) | None => (None, Some (ErrOther 0)) end;
  OnStatus s _ _ := s;
  OnHeader s k v := s ≫= sp_OnHeader k v;
  OnContentLength s n := s ≫= sp_OnContentLength n;
  OnBody s d := match s ≫= sp_OnBody conf d with Some (s, e) => (Some s, e) | None => (None, Some (ErrOther 0)) end;
  OnTrailerHeader s k v := s ≫= sp_OnTrailerHeader k v;
  OnComplete s := (s ≫= sp_OnComplete conf OnRequest, None);
  ProcClose s _ := s ≫= sp_Clean conf;
  ProcClean s := s ≫= sp_Clean conf
|}.

#[export] Instance client_processor {A : Type} `{!Allocator A} {C : Type} (conf : sconf)
    : Processor (option (client A)) C := {|
  OnMethod s _ := s;
  OnURL s _ := (s, None);
  OnProto s v := match s with Some s => let '(s, e) := cp_OnProto v s in (Some s, e) | None => (None, Some (ErrOther 0)) end;
  OnStatus s c st := s ≫= cp_OnStatus c st;
  OnHeader s k v := s ≫= cp_OnHeader k v;
  OnContentLength s n := s ≫= cp_OnContentLength n;
  OnBody s d := match s ≫= cp_OnBody conf d with Some (s, e) => (Some s, e) | None => (None, Some (ErrOther 0)) end;
  OnTrailerHeader s k v := s ≫= cp_OnTrailerHeader k v;
  OnComplete s := (s ≫= cp_OnComplete, None);
  ProcClose s _ := s ≫= cp_Clean;
  ProcClean s := s ≫= cp_Clean
|}.
