(* ===== verification/ProcessorProps.v ===== *)
(** * From bytes to requests

    The parser, the server's processor and the bodies together: the wire form
    of any list of requests, cut anywhere, becomes the jobs of the connection,
    one per request, in order, each with the parts and the body of its
    request. *)

From Stdlib Require Import ZArith Lia.
From Stdlib Require Import Strings.Byte Strings.String.
From stdpp Require Import base numbers list list_numbers gmap.
From S2P Require Import Prelude GoLib Table Parser ParserFacts ParserSplit ParserRun ParserMessage.
From S2P Require Import Mempool MempoolFacts MempoolProps Body Response Processor.

Open Scope Z_scope.

(** The bytes of a body, and the length the parser reports for it. *)
Definition payload (f : framing) : bytes :=
  match f with NoBody => [] | Fixed b => b | Chunks cs => concat cs end.

Definition reported_length (f : framing) : Z :=
  match f with NoBody => -1 | Fixed b => len b | Chunks _ => -1 end.

(** The header a list of fields makes. *)
Definition add_field (h : Header) (kv : bytes * bytes) : Header :=
  <[CanonicalHeaderKey kv.1 := default [] (h !! CanonicalHeaderKey kv.1) ++ [kv.2]]> h.

Definition header_of (r : request) : Header :=
  foldl add_field ∅ (r_fields r ++ framing_fields (r_body r)).

(** The rule for keeping a connection: HTTP/1.0 closes unless asked to keep it
    alive (before any "close"), HTTP/1.1 keeps it unless asked to close. *)
Definition says (w : bytes) (v : bytes) : bool := bool_decide (ToLower (Trim_space v) = w).

Definition close_rule (major minor : Z) (values : list bytes) : bool :=
  (major <? 1) || existsb (says (str "close")) values ||
  ((major =? 1) && (minor =? 0) && negb (existsb (says (str "keep-alive")) values)).

Lemma connection_values_spec vs ka :
  (connection_values vs ka).1 = existsb (says (str "close")) vs /\
  (existsb (says (str "close")) vs = false ->
   (connection_values vs ka).2 = ka || existsb (says (str "keep-alive")) vs).
Proof.
  revert ka. induction vs as [|v vs IH]; intros ka; cbn [connection_values existsb].
  - by rewrite orb_false_r.
  - fold (says (str "close") v). fold (says (str "keep-alive") v).
    destruct (says (str "close") v); [done|]. cbn [orb].
    destruct (IH (ka || says (str "keep-alive") v)) as [-> H2].
    split; [done|]. intros H. rewrite H2 by done. by rewrite orb_assoc.
Qed.

Lemma union_swap (X Y Z : gset nat) : X ∪ Y ∪ Z = Y ∪ (X ∪ Z).
Proof. set_solver. Qed.

Lemma union_middle (X Y Z W : gset nat) : X ∪ (Y ∪ Z) ∪ W = Y ∪ (X ∪ Z ∪ W).
Proof. set_solver. Qed.

Section server.
Context {A : Type} `{!Allocator A} `{!AllocatorLaws A} {C : Type} `{!ParserCloser C}.
Context (conf : sconf) (parse_other : bytes -> option url).

Abbreviation BodyReader := (@BodyReader A).
Abbreviation server := (server A).

(** No [OnRequest] hook. *)
#[local] Instance the_processor : Processor (option server) C :=
  server_processor conf parse_other (fun r => r).

(** The request as the handler gets it, but for its body. *)
Definition expected (r : request) (u : url) (x y : Z) (b : BodyReader) : http_request A :=
  let h := header_of r in
  let host := header_get h (str "Host") in
  let u' := if bool_decide (u_Host u = []) then MkURL (u_Scheme u) host (u_Path u) (u_RawQuery u) (u_ForceQuery u) else u in
  MkHttpRequest (r_method r) (r_uri r) (Some u') (if bool_decide (u_Host u = []) then host else [])
    (r_proto r) x y h (reported_length (r_body r)) (Some b) None
    (default [] (h !! transferEncodingHeader)) (close_rule x y (default [] (h !! str "Connection")))
    (c_RemoteAddr conf).

Definition received (r : request) (q : http_request A) : Prop :=
  exists u x y b, ParseRequestURI parse_other (r_uri r) = Some u /\ ParseHTTPVersion (r_proto r) = Some (x, y) /\
    q = expected r u x y b /\ content b = payload (r_body r) /\ br_closed b = false.

(** What a server takes: the target and the version parse, and the body is
    within the limit. *)
Definition acceptable (r : request) : bool :=
  bool_decide (is_Some (ParseRequestURI parse_other (r_uri r))) &&
  bool_decide (is_Some (ParseHTTPVersion (r_proto r))) &&
  ((c_MaxHTTPBodySize conf <=? 0) || (len (payload (r_body r)) <=? c_MaxHTTPBodySize conf)).

(** ** The bodies of the jobs *)

Definition ids (bs : list BodyReader) : list nat := b_id <$> concat (br_buffers <$> bs).

Record body_shape (b : BodyReader) : Prop := {
  bs_left : br_left b = len (content b);
  bs_index : match br_buffers b with [] => br_index b = 0 | p :: _ => 0 <= br_index b <= b_len p end;
  bs_genuine : Forall genuine (br_buffers b)
}.

(** Bodies that are not touched any more: their buffers are distinct and none
    of the others'. *)
Record frozen (live : gset nat) (bs : list BodyReader) : Prop := {
  fz_shape : Forall body_shape bs;
  fz_nodup : NoDup (ids bs);
  fz_fresh : forall x, x ∈ ids bs -> x ∉ live
}.

Definition held (bs : list BodyReader) (live : gset nat) : gset nat := list_to_set (ids bs) ∪ live.

Lemma ids_snoc bs b : ids (bs ++ [b]) = ids bs ++ (b_id <$> br_buffers b).
Proof. unfold ids. rewrite fmap_app, concat_app. cbn. by rewrite app_nil_r, fmap_app. Qed.

Lemma ids_cons b bs : ids (b :: bs) = (b_id <$> br_buffers b) ++ ids bs.
Proof. unfold ids. cbn. by rewrite fmap_app. Qed.

Lemma frozen_tail live b bs : frozen live (b :: bs) -> frozen live bs.
Proof.
  intros [Hs Hn Hf]. rewrite ids_cons in *. apply Forall_cons in Hs as [_ Hs]. apply NoDup_app in Hn as (_ & _ & Hn).
  split; [done|done|]. intros x Hx. apply Hf. rewrite elem_of_app. by right.
Qed.

(** One more owner besides the bodies. *)
Lemma held_add (x : nat) bs live : held bs ({[x]} ∪ live) = {[x]} ∪ held bs live.
Proof.
  unfold held. generalize (list_to_set (C := gset nat) (ids bs)). intros X.
  rewrite (assoc_L (∪)), (comm_L (∪) X), <- (assoc_L (∪)). done.
Qed.

Lemma content_with a (b : BodyReader) : content (body_with a b) = content b.
Proof. done. Qed.

(** The body being received, once it is complete, joins the others. *)
Lemma frozen_snoc live bs b a :
  frozen live bs -> body_ok (held bs live) (body_with a b) ->
  frozen live (bs ++ [b]) /\ alloc_inv a (held (bs ++ [b]) live).
Proof.
  intros [Hs Hn Hf] [Hl Hi Hg Hnd Hfr Ha]. cbn [br_buffers br_index br_left br_alloc body_with] in *.
  assert (held (bs ++ [b]) live = list_to_set (b_id <$> br_buffers b) ∪ held bs live) as Hh.
  { unfold held. rewrite ids_snoc, list_to_set_app_L. apply union_swap. }
  rewrite Hh. split; [|done]. split.
  - apply Forall_app. split; [done|]. repeat constructor; done.
  - rewrite ids_snoc. apply NoDup_app. split; [done|]. split; [|done].
    intros x H1 H2. apply (Hfr x H2). unfold held. apply elem_of_union_l. by apply elem_of_list_to_set.
  - rewrite ids_snoc. intros x [H|H]%elem_of_app; [by apply Hf|]. intros Hx. apply (Hfr x H). unfold held. by apply elem_of_union_r.
Qed.

(** A body that was read from, at the front again. *)
Lemma frozen_cons live b bs a :
  frozen live bs -> body_ok (held bs live) (body_with a b) ->
  frozen live (b :: bs) /\ alloc_inv a (held (b :: bs) live).
Proof.
  intros Hf Hb. destruct (frozen_snoc live bs b a Hf Hb) as [[Hs Hn Hr] Ha].
  assert (ids (b :: bs) ≡ₚ ids (bs ++ [b])) as Hp by (rewrite ids_cons, ids_snoc; apply Permutation_app_comm).
  split; [split|].
  - apply Forall_app in Hs as [Hs1 Hs2]. constructor; [by apply Forall_singleton|done].
  - by rewrite Hp.
  - intros x. rewrite Hp. apply Hr.
  - assert (held (b :: bs) live = held (bs ++ [b]) live) as ->; [|done].
    unfold held. apply set_eq. intros x. rewrite !elem_of_union, !elem_of_list_to_set. by rewrite Hp.
Qed.

(** A job's body among the others, as [body_ok] sees it. *)
Lemma frozen_body live bs1 b bs2 a :
  frozen live (bs1 ++ b :: bs2) -> alloc_inv a (held (bs1 ++ b :: bs2) live) ->
  body_ok (held (bs1 ++ bs2) live) (body_with a b) /\ frozen live (bs1 ++ bs2).
Proof.
  intros [Hs Hn Hf] Ha.
  assert (ids (bs1 ++ b :: bs2) = ids bs1 ++ (b_id <$> br_buffers b) ++ ids bs2) as Hi.
  { unfold ids. rewrite fmap_app, concat_app. cbn. by rewrite !fmap_app. }
  assert (ids (bs1 ++ bs2) = ids bs1 ++ ids bs2) as Hi2.
  { unfold ids. by rewrite fmap_app, concat_app, fmap_app. }
  rewrite Hi in Hn, Hf. apply Forall_app in Hs as [Hs1 Hs2]. apply Forall_cons in Hs2 as [[H1 H2 H3] Hs2].
  apply NoDup_app in Hn as (N1 & N12 & N2). apply NoDup_app in N2 as (N2 & N23 & N3). split; [|split].
  - split; try done; unfold held in *; rewrite ?Hi in *; rewrite Hi2; cbn [br_buffers br_alloc body_with].
    + intros x Hx. rewrite list_to_set_app_L. specialize (N12 x). specialize (N23 x Hx). specialize (Hf x).
      rewrite !elem_of_app in *. rewrite !elem_of_union, !elem_of_list_to_set. tauto.
    + assert (list_to_set (b_id <$> br_buffers b) ∪ (list_to_set (ids bs1 ++ ids bs2) ∪ live)
        = list_to_set (ids bs1 ++ (b_id <$> br_buffers b) ++ ids bs2) ∪ live) as ->; [|done].
      rewrite !list_to_set_app_L. symmetry. apply union_middle.
  - by apply Forall_app.
  - rewrite Hi2. apply NoDup_app. split; [done|]. split; [|done].
    intros x X1 X2. apply (N12 x X1). rewrite elem_of_app. by right.
  - rewrite Hi2. intros x X. apply Hf. rewrite !elem_of_app in *. tauto.
Qed.

Lemma wants_close_rule (r : http_request A) :
  wants_close r = close_rule (hr_ProtoMajor r) (hr_ProtoMinor r) (default [] (hr_Header r !! str "Connection")).
Proof.
  unfold wants_close, close_rule. destruct (hr_ProtoMajor r <? 1); [done|]. cbn [orb].
  set (vs := default [] _). destruct (connection_values_spec vs false) as [H1 H2].
  destruct (connection_values vs false) as [hc ka]. cbn [fst snd] in *. subst hc.
  destruct (existsb (says (str "close")) vs); cbn [orb].
  - by destruct ((hr_ProtoMajor r =? 1) && (hr_ProtoMinor r =? 0)).
  - rewrite H2 by done. cbn [orb]. by destruct ((hr_ProtoMajor r =? 1) && (hr_ProtoMinor r =? 0)).
Qed.

(** ** One request *)

Lemma with_request_twice q q' (s : server) : with_request q (with_request q' s) = with_request q s.
Proof. done. Qed.

Lemma deliver_fields_eq fs (r : http_request A) s :
  deliver_fields (Some (with_request (Some r) s)) fs =
  Some (with_request (Some (set_fields (foldl add_field (hr_Header r) fs) r)) s).
Proof.
  revert r. induction fs as [|kv fs IH]; intros r; cbn [deliver_fields foldl]; [by destruct r|].
  change (foldl (fun pr kv => OnHeader pr (CanonicalHeaderKey kv.1) kv.2)
    (OnHeader (Some (with_request (Some r) s)) (CanonicalHeaderKey kv.1) kv.2) fs)
    with (deliver_fields (Some (with_request (Some (set_fields (add_field (hr_Header r) kv) r)) s)) fs).
  rewrite IH. by destruct r.
Qed.

(** The body so far, whether or not it has been made. *)
Definition body_so_far (others : gset nat) (a : A) (b : option BodyReader) (c : bytes) : Prop :=
  match b with
  | None => alloc_inv a others /\ c = []
  | Some br => body_ok others (body_with a br) /\ content br = c /\ br_closed br = false
  end.

Lemma add_body_ok others a b c d :
  body_so_far others a b c -> d <> [] ->
  (c_MaxHTTPBodySize conf <= 0 \/ len c + len d <= c_MaxHTTPBodySize conf) ->
  exists br, add_body (c_MaxHTTPBodySize conf) d b a = Some (None, br) /\
    body_so_far others (br_alloc br) (Some br) (c ++ d).
Proof.
  intros Hb Hd Hlim. unfold add_body.
  set (br0 := match b with Some br => body_with a br | None => NewBodyReader a end).
  assert (body_ok others br0 /\ content br0 = c /\ br_closed br0 = false) as (Hok & Hc & Hcl).
  { unfold br0. destruct b as [br|]; cbn in Hb; [done|]. destruct Hb as [Ha ->].
    split; [by apply NewBodyReader_ok|done]. }
  destruct (append_ok (c_MaxHTTPBodySize conf) others d br0 Hok Hd) as (e & br & -> & Hok' & Hcl' & Hres).
  assert ((0 <? c_MaxHTTPBodySize conf) && (c_MaxHTTPBodySize conf <? len (content br0) + len d) = false) as E.
  { rewrite Hc. apply andb_false_iff. destruct Hlim; [left|right]; lia. }
  rewrite E in Hres. destruct Hres as [-> Hres]. exists br. split; [done|].
  destruct br as [i l bs k a']. split; [exact Hok'|]. split; [by rewrite <- Hc|]. by rewrite Hcl'.
Qed.

Lemma on_body_ok others r s c d :
  body_so_far others (sv_alloc s) (hr_Body r) c -> d <> [] ->
  (c_MaxHTTPBodySize conf <= 0 \/ len c + len d <= c_MaxHTTPBodySize conf) ->
  exists br, ok_step (OnBody (Some (with_request (Some r) s)) d)
      = Some (Some (with_request (Some (set_body (Some br) r)) (with_alloc (br_alloc br) s))) /\
    body_so_far others (br_alloc br) (Some br) (c ++ d).
Proof.
  intros Hb Hd Hl. destruct (add_body_ok others (sv_alloc s) (hr_Body r) c d Hb Hd Hl) as (br & E & Hok).
  exists br. split; [|done]. cbn [OnBody the_processor server_processor mbind option_bind].
  unfold sp_OnBody. cbn [sv_request with_request mbind option_bind sv_alloc]. by rewrite E.
Qed.

Lemma deliver_chunks_ok others cs : forall r s c,
  body_so_far others (sv_alloc s) (hr_Body r) c -> forallb (fun c => (0 <? len c) && (len c <? 2 ^ 62)) cs = true ->
  (c_MaxHTTPBodySize conf <= 0 \/ len c + len (concat cs) <= c_MaxHTTPBodySize conf) ->
  exists b a, deliver_chunks (Some (with_request (Some r) s)) cs
      = Some (Some (with_request (Some (set_body b r)) (with_alloc a s))) /\
    body_so_far others a b (c ++ concat cs).
Proof.
  induction cs as [|d cs IH]; intros r s c Hb Hok Hl; cbn [deliver_chunks concat].
  - exists (hr_Body r), (sv_alloc s). rewrite app_nil_r. split; [by destruct r, s|done].
  - cbn [forallb concat] in *. bool_hyp. rewrite len_app in Hl. pose proof (len_nonneg (concat cs)).
    destruct (on_body_ok others r s c d Hb) as (br & -> & Hb'); [intros ->; done|destruct Hl; [by left|right; lia]|].
    cbn [mbind option_bind].
    destruct (IH (set_body (Some br) r) (with_alloc (br_alloc br) s) (c ++ d) Hb') as (b & a & -> & Hb2); [done| |].
    + rewrite len_app. destruct Hl; [by left|right; lia].
    + exists b, a. by rewrite app_assoc.
Qed.

Lemma deliver_body_ok others f r s :
  alloc_inv (sv_alloc s) others -> hr_Body r = None -> framing_ok f = true ->
  (c_MaxHTTPBodySize conf <= 0 \/ len (payload f) <= c_MaxHTTPBodySize conf) ->
  exists b a, deliver_body (Some (with_request (Some r) s)) f
      = Some (Some (with_request (Some (set_body b (set_length (reported_length f) r))) (with_alloc a s))) /\
    body_so_far others a b (payload f).
Proof.
  intros Ha Hn Hf Hl.
  assert (forall n, OnContentLength (Some (with_request (Some r) s)) n
    = Some (with_request (Some (set_length n r)) s)) as Hlen by done.
  destruct f as [|[|x d]|cs]; cbn [deliver_body payload reported_length] in *; rewrite Hlen.
  - exists None, (sv_alloc s). split; [|done]. rewrite <- Hn. by destruct r, s.
  - exists None, (sv_alloc s). split; [|done]. rewrite <- Hn. by destruct r, s.
  - destruct (on_body_ok others (set_length (len (x :: d)) r) s [] (x :: d)) as (br & -> & Hb).
    + cbn [hr_Body set_length]. by rewrite Hn.
    + done.
    + exact Hl.
    + by exists (Some br), (br_alloc br).
  - destruct (deliver_chunks_ok others cs (set_length (-1) r) s []) as (b & a & -> & Hb).
    + cbn [hr_Body set_length]. by rewrite Hn.
    + exact Hf.
    + exact Hl.
    + by exists b, a.
Qed.

(** ** A server between two requests *)

Definition bodies (js : list (http_request A)) : list BodyReader := omap hr_Body js.

Record resting (s : server) (live : gset nat) : Prop := {
  rs_request : sv_request s = None;
  rs_exec : sv_exec s = true;
  rs_frozen : frozen live (bodies (sv_jobs s));
  rs_alloc : alloc_inv (sv_alloc s) (held (bodies (sv_jobs s)) live)
}.

(** The end of a request: the job is queued, its body with the others'. *)
Lemma complete_ok s live r u x y b a :
  frozen live (bodies (sv_jobs s)) -> sv_exec s = true ->
  body_so_far (held (bodies (sv_jobs s)) live) a b (payload (r_body r)) ->
  exists s' br,
    sp_OnComplete conf (fun r => r) (with_request (Some (set_body b (set_length (reported_length (r_body r))
      (set_fields (header_of r) (set_version (r_proto r) x y (set_url (Some u) (set_uri (r_uri r)
        (set_fields ∅ (set_Method (r_method r) emptyRequest))))))))) (with_alloc a s)) = Some s' /\
    resting s' live /\ sv_jobs s' = sv_jobs s ++ [expected r u x y br] /\
    content br = payload (r_body r) /\ br_closed br = false /\ sv_wire s' = sv_wire s /\ sv_closed s' = sv_closed s.
Proof.
  intros Hfz Hx Hb.
  set (br := match b with Some b => b | None => NewBodyReader a end).
  assert (body_ok (held (bodies (sv_jobs s)) live) (body_with a br) /\ content br = payload (r_body r) /\
    br_closed br = false) as (Hok & Hc & Hcl).
  { unfold br. destruct b as [b|]; [exact Hb|]. destruct Hb as [Ha ->]. split; [by apply NewBodyReader_ok|done]. }
  destruct (frozen_snoc _ _ _ _ Hfz Hok) as [Hfz' Ha'].
  unfold sp_OnComplete. cbn [sv_request with_request].
  set (s1 := if 0 <? c_WriteTimeout conf then _ else _).
  assert (sv_request s1 = None /\ sv_alloc s1 = a /\ sv_jobs s1 = sv_jobs s /\ sv_exec s1 = true /\
    sv_wire s1 = sv_wire s /\ sv_closed s1 = sv_closed s) as (E1 & E2 & E3 & E4 & E5 & E6).
  { unfold s1. destruct (0 <? c_WriteTimeout conf); done. }
  unfold complete_request. cbn [hr_URL set_body set_length set_fields set_version set_url mbind option_bind].
  rewrite E4. exists (with_jobs (sv_jobs s1 ++ [expected r u x y br]) s1), br.
  split; [|split; [|split; [by cbn [sv_jobs with_jobs]; rewrite E3|done]]].
  - do 4 f_equal. unfold expected, br. rewrite E2, wants_close_rule. destruct b; case_bool_decide; done.
  - split; try done; cbn [sv_jobs with_jobs sv_alloc]; rewrite E3; unfold bodies; rewrite omap_app; [exact Hfz'|].
    rewrite E2. exact Ha'.
Qed.

Lemma deliver_one s live r :
  resting s live -> request_ok r = true -> acceptable r = true ->
  exists s' q, deliver (C := C) (Some s) r = Some (Some s') /\ resting s' live /\
    sv_jobs s' = sv_jobs s ++ [q] /\ received r q /\ sv_wire s' = sv_wire s /\ sv_closed s' = sv_closed s.
Proof.
  intros [Hq Hx Hfz Ha] Hok Hacc. unfold acceptable in Hacc. unfold request_ok in Hok. bool_hyp.
  repeat match goal with H : is_Some _ |- _ => destruct H as [? ?] end.
  match goal with H : ParseHTTPVersion _ = Some ?v |- _ => destruct v as [x y]; rename H into Ev end.
  match goal with H : ParseRequestURI _ _ = Some ?v |- _ => rename v into u; rename H into Eu end.
  unfold deliver. cbn [OnMethod the_processor server_processor fmap option_fmap option_map].
  unfold sp_OnMethod. rewrite Hq.
  cbn [OnURL OnProto the_processor server_processor mbind option_bind].
  unfold sp_OnURL. cbn [sv_request with_request mbind option_bind].
  assert (bool_decide (hr_Method (set_uri (r_uri r) (set_fields ∅ (set_Method (r_method r) emptyRequest))) = str "CONNECT")
    && negb (HasPrefix (r_uri r) (str "/")) = false) as ->.
  { apply andb_false_iff. right. destruct (r_uri r) as [|c w]; [done|].
    apply negb_false_iff. change (str "/") with ["/"%byte]. cbn [HasPrefix]. by match goal with H : (c =b _) = true |- _ => rewrite H end. }
  rewrite Eu. cbn [ok_step mbind option_bind]. unfold sp_OnProto. rewrite Ev.
  cbn [sv_request with_request mbind option_bind ok_step].
  set (r1 := set_version (r_proto r) x y (set_url (Some u) (set_uri (r_uri r) (set_fields ∅ (set_Method (r_method r) emptyRequest))))).
  rewrite !with_request_twice, deliver_fields_eq.
  destruct (deliver_body_ok (held (bodies (sv_jobs s)) live) (r_body r)
    (set_fields (foldl add_field (hr_Header r1) (r_fields r ++ framing_fields (r_body r))) r1) s Ha eq_refl)
    as (b & a & -> & Hb); [done|lia|].
  destruct (complete_ok s live r u x y b a Hfz Hx Hb) as (s' & br & E & Hr & Hj & Hc & Hk & Hw & Hcl).
  exists s', (expected r u x y br). cbn [mbind option_bind OnComplete the_processor server_processor].
  change (foldl add_field (hr_Header r1) (r_fields r ++ framing_fields (r_body r))) with (header_of r).
  unfold r1. rewrite E.
  split; [done|]. split; [done|]. split; [done|]. split; [|done].
  by exists u, x, y, br.
Qed.

Lemma deliver_many rs : forall s live,
  resting s live -> forallb request_ok rs = true -> forallb acceptable rs = true ->
  exists s' qs, deliver_all (C := C) (Some s) rs = Some (Some s') /\ resting s' live /\
    sv_jobs s' = sv_jobs s ++ qs /\ Forall2 received rs qs /\ sv_wire s' = sv_wire s /\ sv_closed s' = sv_closed s.
Proof.
  induction rs as [|r rs IH]; intros s live Hs Hok Hacc; cbn [deliver_all forallb] in *.
  - exists s, []. by rewrite app_nil_r.
  - bool_hyp. destruct (deliver_one s live r Hs) as (s1 & q & -> & Hs1 & Hj & Hq & Hw & Hc); [done..|].
    cbn [mbind option_bind]. destruct (IH s1 live Hs1) as (s' & qs & -> & Hs' & Hj' & Hqs & Hw' & Hc'); [done..|].
    exists s', (q :: qs). split; [done|]. split; [done|]. split; [by rewrite Hj', Hj, <- app_assoc|].
    split; [by constructor|]. by rewrite Hw', Hc'.
Qed.

Context `{!ParserCloserLaws C} (bound : Z).

(** The processor installs no reader, so it has nothing to promise about one. *)
#[local] Instance the_processor_laws : ProcessorLaws (option server) C.
Proof. by refine {| stream_bound := bound |}. Defined.

(** Bytes in, jobs out. *)
Lemma receive_ok (a : A) (live : gset nat) (limit : Z) (rs : list request) (ds : list bytes) :
  alloc_inv a live -> forallb request_ok rs = true -> forallb acceptable rs = true ->
  ds <> [] -> concat ds = concat (map encode_request rs) ->
  limit <= 0 \/ len (concat ds) <= limit -> len (concat ds) <= bound ->
  exists (q : parser (option server) C) s,
    feed (NewParser (Some (new_server a)) false limit) ds = PRet q None /\ processor q = Some s /\
    Forall2 received rs (sv_jobs s) /\ resting s live /\ sv_wire s = [] /\ sv_closed s = false.
Proof.
  intros Ha Hok Hacc Hne Hds Hlim Hsb.
  assert (resting (new_server a) live) as Hrest.
  { split; try done; [split; [constructor|constructor|intros x Hx; by apply elem_of_nil in Hx]|].
    unfold held. cbn. by rewrite union_empty_l_L. }
  destruct (deliver_many rs (new_server a) live Hrest Hok Hacc) as (s & qs & Hd & Hs & Hj & Hf & Hw & Hc).
  destruct (feed_requests (ProcessorLaws0 := the_processor_laws) limit (Some (new_server a)) (Some s) rs ds Hok Hd Hne Hds Hlim Hsb) as (cl & cs & E).
  exists (idle (C := C) limit false [] 0 false (Some s) cl cs), s. split; [exact E|]. split; [done|].
  cbn [new_server sv_jobs app] in Hj. subst qs. done.
Qed.

End server.
