(* ===== verification/ServerRun.v ===== *)
(** * From requests to responses

    The jobs of a connection run one after the other, each with a handler and
    the end of its response.  Together with the parser and the processor this
    is a server: bytes in, bytes out. *)

From Stdlib Require Import ZArith Lia.
From Stdlib Require Import Strings.Byte Strings.String.
From stdpp Require Import base numbers list list_numbers gmap.
From S2P Require Import Prelude GoLib Table Parser ParserFacts ParserSplit ParserRun ParserMessage ParserProps.
From S2P Require Import Mempool MempoolFacts MempoolProps Body Response ResponseProps Processor ProcessorProps.

Open Scope Z_scope.

Section run.
Context {A : Type} `{!Allocator A} `{!AllocatorLaws A}.
Context (StatusText : Z -> bytes) (iter : Header -> list (bytes * list bytes)).
Context (iter_trailer : gmap bytes bytes -> list (bytes * bytes)) (now : utc).
Context (Hok : StatusText 200 <> []) (Hit : iter_trailer ∅ = []).
Context (conf : sconf) (Hretain : c_RetainHTTPBody conf = false).

(** What the handler does with a request: it reads from the body, with slices of
    the lengths [reads]; then, depending on what it read, it sets header fields,
    calls [WriteHeader] or not, and writes and flushes. *)
Definition answer_plan : Type := option Z * Header * list resp_op.
Context (reads : http_request A -> list nat) (plan : http_request A -> list (bytes * option body_err) -> answer_plan).

Definition with_body (b : @BodyReader A) (r : http_request A) : http_request A :=
  MkHttpRequest (hr_Method r) (hr_RequestURI r) (hr_URL r) (hr_Host r) (hr_Proto r) (hr_ProtoMajor r) (hr_ProtoMinor r)
    (hr_Header r) (hr_ContentLength r) (Some b) (hr_Trailer r) (hr_TransferEncoding r) (hr_Close r) (hr_RemoteAddr r).

Definition read_op (n : nat) : body_op := BRead (Z.of_nat n).

(** The response when the writing begins. *)
Definition begin (p : answer_plan) (res : Response A) : Response A :=
  let res := set_hdr p.1.2 res in
  match p.1.1 with Some code => WriteHeader StatusText code res | None => res end.

Definition serve (conn : list bytes -> bytes -> option (Z * Z)) (r : http_request A) (res : Response A)
    : option (http_request A * Response A) :=
  b ← hr_Body r;
  '(got, b) ← body_run (c_MaxHTTPBodySize conf) (map read_op (reads r)) (body_with (r_alloc res) b);
  let p := plan r got in
  '(_, res) ← handle StatusText iter now conn (response_info r) p.2 (begin p (set_ralloc (br_alloc b) res));
  Some (with_body b r, res).

(** What the reads of a handler give. *)
Definition got (r : http_request A) : list (bytes * option body_err) :=
  match hr_Body r with
  | Some b => (spec_run (c_MaxHTTPBodySize conf) (map read_op (reads r)) (content b)).1
  | None => []
  end.

(** A connection that takes every write until it is closed. *)
Definition conn_open (closed : bool) (w : list bytes) (b : bytes) : option (Z * Z) :=
  if closed then Some (0, 1) else None.

Abbreviation job := (run_job conf StatusText iter iter_trailer now conn_open serve false).

Definition replies (a : A) (r : http_request A) (out : bytes) : Prop :=
  answer StatusText iter iter_trailer now (response_info r) (begin (plan r (got r)) (NewResponse a)) (plan r (got r)).2 out.

Lemma begin_ralloc p a s : begin p (set_ralloc a s) = set_ralloc a (begin p s).
Proof.
  unfold begin. change (set_hdr p.1.2 (set_ralloc a s)) with (set_ralloc a (set_hdr p.1.2 s)).
  destruct p.1.1; [apply WriteHeader_ralloc|done].
Qed.

Lemma begin_unsent p a live : alloc_inv a live -> unsent (begin p (NewResponse a)) live.
Proof.
  intros Ha. unfold begin. destruct p.1.1 as [code|]; [|by split].
  destruct (WriteHeader_rest StatusText code (set_hdr p.1.2 (NewResponse a))). split; first [by etrans; [eassumption|]|by rewrite sr_alloc].
Qed.

Lemma replies_any a a' r out : replies a r out -> replies a' r out.
Proof.
  intros H. apply (answer_ralloc StatusText iter iter_trailer now (response_info r) a') in H. by rewrite <- begin_ralloc in H.
Qed.

Fixpoint run_jobs (n : nat) (s : server A) : option (server A) :=
  match n with
  | O => Some s
  | S n => s ← job s; run_jobs n s
  end.

(** Giving back what a finished response still owns, after the body. *)
Lemma release_ok (res : Response A) b js live :
  frozen live (b :: js) -> released res (held (b :: js) live) -> br_closed b = false ->
  exists a1 a2, release_body false (Some b) (r_alloc res) = Some a1 /\ releaseResponse res a1 = Some a2 /\
    alloc_inv a2 (held js live) /\ frozen live js.
Proof.
  intros Hf (_ & Hb & Ho) Hcl. unfold release_body, releaseResponse. rewrite Hb. cbn [free_opt].
  destruct (r_bodyBuffer res) as [p|]; cbn [owns] in Ho.
  - destruct Ho as (Hg & Hn & Ha). pose proof Hf as [F1 F2 F3].
    assert (frozen ({[b_id p]} ∪ live) (b :: js)) as Hf'.
    { split; [done|done|]. intros x Hx. rewrite elem_of_union, elem_of_singleton. intros [-> |Hl]; [|by apply (F3 x)].
      apply Hn. unfold held. rewrite elem_of_union, elem_of_list_to_set. by left. }
    assert (alloc_inv (r_alloc res) (held (b :: js) ({[b_id p]} ∪ live))) as Ha' by by rewrite held_add.
    destruct (frozen_body _ [] b js _ Hf' Ha') as [Hbo _]. cbn [app] in Hbo.
    destruct (Close_ok _ _ Hbo Hcl) as (br' & -> & _ & _ & Hal). cbn [mbind option_bind].
    rewrite held_add in Hal. assert (b_id p ∉ held js live) as Hnp.
    { intros Hx. apply Hn. revert Hx. unfold held. rewrite !elem_of_union, !elem_of_list_to_set, ids_cons, elem_of_app.
      tauto. }
    destruct (free_one (br_alloc br') (held js live) p) as (a2 & E & Ha2); [done|].
    exists (br_alloc br'), a2. split; [done|]. split; [exact E|]. split; [done|]. by eapply frozen_tail.
  - destruct (frozen_body _ [] b js _ Hf Ho) as [Hbo _]. cbn [app] in Hbo.
    destruct (Close_ok _ _ Hbo Hcl) as (br' & -> & _ & _ & Hal). cbn [mbind option_bind].
    exists (br_alloc br'), (br_alloc br'). split; [done|]. split; [done|]. split; [done|]. by eapply frozen_tail.
Qed.

(** What a handler reads, and the body it leaves. *)
Lemma reads_ok ns b bs a live :
  frozen live (b :: bs) -> alloc_inv a (held (b :: bs) live) -> br_closed b = false ->
  exists b', body_run (c_MaxHTTPBodySize conf) (map read_op ns) (body_with a b) =
      Some ((spec_run (c_MaxHTTPBodySize conf) (map read_op ns) (content b)).1, b') /\
    br_closed b' = false /\ frozen live (b' :: bs) /\ alloc_inv (br_alloc b') (held (b' :: bs) live).
Proof.
  intros Hf Ha Hcl. destruct (frozen_body live [] b bs _ Hf Ha) as [Hbo Hfr]. cbn [app] in Hbo, Hfr.
  destruct (body_run_ok (c_MaxHTTPBodySize conf) _ (map read_op ns) _ Hbo Hcl) as (b' & Eb & Hbo' & Hcl' & _).
  { apply Forall_forall. intros o (n & -> & _)%list_elem_of_fmap. cbn. lia. }
  rewrite content_with in Eb. exists b'. split; [done|]. split; [done|]. apply frozen_cons; [done|]. by destruct b'.
Qed.

(** The connection between two jobs. *)
Record running (s : server A) (live : gset nat) : Prop := {
  rn_frozen : frozen live (bodies (sv_jobs s));
  rn_alloc : alloc_inv (sv_alloc s) (held (bodies (sv_jobs s)) live)
}.

Lemma job_ok s live a r js b out :
  running s live -> sv_closed s = false -> sv_jobs s = r :: js -> hr_Body r = Some b -> br_closed b = false -> replies a r out ->
  exists s', job s = Some s' /\ running s' live /\ sv_jobs s' = js /\
    concat (sv_wire s') = concat (sv_wire s) ++ out /\ sv_closed s' = hr_Close r /\
    sv_readDeadlines s' = (if hr_Close r then sv_readDeadlines s else S (sv_readDeadlines s)).
Proof.
  intros [Hf Ha] Hopen Hj Hb Hcl Hrep. rewrite Hj in Hf, Ha.
  assert (bodies (r :: js) = b :: bodies js) as Ebs by (unfold bodies; cbn; by rewrite Hb).
  rewrite Ebs in Hf, Ha. destruct (reads_ok (reads r) b (bodies js) _ live Hf Ha Hcl) as (b' & Eb & Hcl' & Hf' & Ha').
  set (res0 := begin (plan r (got r)) (NewResponse (br_alloc b'))).
  assert (unsent res0 (held (b' :: bodies js) live)) as Hu by (by apply begin_unsent).
  destruct (respond_answer StatusText iter iter_trailer now (response_info r) Hok res0 _ _ _ Hu Hit
    (replies_any a (br_alloc b') r out Hrep)) as (rs & res & Hr & Hw & Hrel).
  unfold respond in Hr. unfold run_job. rewrite Hj. unfold serve at 1. rewrite Hb. cbn [mbind option_bind].
  change (r_alloc (NewResponse (sv_alloc (with_jobs js s)))) with (sv_alloc s). rewrite Eb. cbn [mbind option_bind].
  assert (got r = (spec_run (c_MaxHTTPBodySize conf) (map read_op (reads r)) (content b)).1) as Eg by (unfold got; by rewrite Hb).
  rewrite <- Eg. change (set_ralloc (br_alloc b') (NewResponse (sv_alloc (with_jobs js s)))) with (NewResponse (br_alloc b')). fold res0.
  assert (conn_now conn_open (with_jobs js s) = conn_up) as ->.
  { unfold conn_now, conn_open. cbn [sv_closed with_jobs]. by rewrite Hopen. }
  destruct (handle StatusText iter now conn_up (response_info r) (plan r (got r)).2 res0) as [[rs0 res1]|]; [|done].
  cbn [mbind option_bind] in *. unfold flushResponse. change (response_info (with_body b' r)) with (response_info r).
  assert (conn_now conn_open (with_jobs js s) = conn_up) as ->.
  { unfold conn_now, conn_open. cbn [sv_closed with_jobs]. by rewrite Hopen. }
  destruct (finish StatusText iter iter_trailer now conn_up (response_info r) res1) as [[e res2]|]; [|done].
  cbn [mbind option_bind] in *. injection Hr as -> -> ->.
  pose proof Hrel as (Hhij & _ & _). rewrite Hhij.
  destruct (release_ok res b' (bodies js) live Hf' Hrel Hcl') as (a1 & a2 & E1 & E2 & Ha2 & Hf2).
  unfold releaseRequest. cbn [hr_Body with_body hr_Close]. rewrite Hretain.
  destruct (hr_Close r); cbn [sv_alloc close_conn]; rewrite E1; cbn [mbind option_bind sv_alloc with_alloc];
    rewrite E2; (eexists; split; [reflexivity|]); (split; [by split|]); (split; [done|]);
    cbn [sv_wire sv_closed sv_readDeadlines with_alloc close_conn with_jobs];
    rewrite concat_app, Hw; done.
Qed.

(** Every job of the list is answered; only the last may end the connection. *)
Lemma jobs_ok live a : forall js s outs,
  running s live -> sv_closed s = false -> sv_jobs s = js ->
  Forall (fun r => exists b, hr_Body r = Some b /\ br_closed b = false) js ->
  Forall (fun r => hr_Close r = false) (removelast js) -> Forall2 (replies a) js outs ->
  exists s', run_jobs (length js) s = Some s' /\ running s' live /\ sv_jobs s' = [] /\
    concat (sv_wire s') = concat (sv_wire s) ++ concat outs /\ sv_closed s' = existsb hr_Close js.
Proof.
  induction js as [|r js IH]; intros s outs Hr Hop Hj Hbs Hkeep Hans.
  - apply Forall2_nil_inv_l in Hans as ->. exists s. cbn. by rewrite app_nil_r.
  - apply Forall2_cons_inv_l in Hans as (out & outs' & Ho & Hos & ->). apply Forall_cons in Hbs as [(b & Hb & Hcl) Hbs].
    destruct (job_ok s live a r js b out Hr Hop Hj Hb Hcl Ho) as (s1 & E & Hr1 & Hj1 & Hw1 & Hc1 & _).
    cbn [length run_jobs]. rewrite E. cbn [mbind option_bind existsb concat].
    destruct js as [|r' js'].
    + apply Forall2_nil_inv_l in Hos as ->. exists s1. cbn [length run_jobs existsb concat].
      rewrite app_nil_r, orb_false_r. done.
    + change (removelast (r :: r' :: js')) with (r :: removelast (r' :: js')) in Hkeep.
      apply Forall_cons in Hkeep as [Hk Hkeep]. rewrite Hk in Hc1 |- *.
      destruct (IH s1 outs' Hr1 Hc1 Hj1 Hbs Hkeep Hos) as (s' & E' & Hr' & Hj' & Hw' & Hc').
      exists s'. split; [done|]. split; [done|]. split; [done|]. rewrite Hw', Hw1. by rewrite <- app_assoc.
Qed.

(** ** Bytes in, bytes out *)

Context {C : Type} `{!ParserCloser C} `{!ParserCloserLaws C}.
Context (parse_other : bytes -> option url) (bound : Z).
#[local] Instance run_processor : Processor (option (server A)) C := the_processor conf parse_other.

(** Whether a request ends its connection. *)
Definition closes (r : request) : bool :=
  match ParseHTTPVersion (r_proto r) with
  | Some (x, y) => close_rule x y (default [] (header_of r !! str "Connection"))
  | None => false
  end.

Lemma received_close r (q : http_request A) : received conf parse_other r q -> hr_Close q = closes r.
Proof. intros (u & x & y & b & _ & Ev & -> & _). unfold closes. by rewrite Ev. Qed.

Lemma received_body r (q : http_request A) :
  received conf parse_other r q -> exists b, hr_Body q = Some b /\ br_closed b = false.
Proof. intros (u & x & y & b & _ & _ & -> & _ & Hc). by exists b. Qed.

Lemma received_closes rs (qs : list (http_request A)) :
  Forall2 (received conf parse_other) rs qs -> existsb hr_Close qs = existsb closes rs /\
  (Forall (fun r => closes r = false) (removelast rs) -> Forall (fun q => hr_Close q = false) (removelast qs)).
Proof.
  induction 1 as [|r q rs qs Hr Hrs [IH1 IH2]]; [done|]. cbn [existsb]. rewrite (received_close r q Hr), IH1.
  split; [done|]. destruct Hrs as [|r' q' rs' qs' Hr' Hrs']; [constructor|].
  change (removelast (r :: r' :: rs')) with (r :: removelast (r' :: rs')).
  change (removelast (q :: q' :: qs')) with (q :: removelast (q' :: qs')).
  intros [H1 H2]%Forall_cons. constructor; [by rewrite (received_close r q Hr)|by apply IH2].
Qed.

(** The run of a whole server. *)
Lemma serve_all (a : A) (live : gset nat) (limit : Z) (rs : list request) (ds : list bytes)
    (reply : request -> bytes) :
  alloc_inv a live -> forallb request_ok rs = true -> forallb (acceptable conf parse_other) rs = true ->
  ds <> [] -> concat ds = concat (map encode_request rs) ->
  limit <= 0 \/ len (concat ds) <= limit -> len (concat ds) <= bound ->
  Forall (fun r => closes r = false) (removelast rs) ->
  (forall r q, r ∈ rs -> received conf parse_other r q -> replies a q (reply r)) ->
  exists (p : parser (option (server A)) C) s s',
    feed (NewParser (Some (new_server a)) false limit) ds = PRet p None /\ processor p = Some s /\
    run_jobs (length rs) s = Some s' /\ concat (sv_wire s') = concat (map reply rs) /\
    sv_closed s' = existsb closes rs /\ sv_jobs s' = [] /\ alloc_inv (sv_alloc s') live.
Proof.
  intros Ha Hrok Hacc Hne Hds Hlim Hsb Hkeep Hrep.
  destruct (receive_ok (C := C) conf parse_other bound a live limit rs ds Ha Hrok Hacc Hne Hds Hlim Hsb)
    as (p & s & E & Hp & Hf & Hs & Hw & Hc).
  destruct (received_closes _ _ Hf) as [Hex Hlast].
  destruct (jobs_ok live a (sv_jobs s) s (map reply rs)) as (s' & E' & Hr' & Hj' & Hw' & Hc').
  - split; apply Hs.
  - done.
  - done.
  - clear -Hf. induction Hf; constructor; eauto using received_body.
  - by apply Hlast.
  - clear -Hf Hrep. induction Hf as [|r q rs qs Hr Hrs IH]; constructor.
    + apply Hrep; [set_solver|done].
    + apply IH. intros r' q' Hin. apply Hrep. set_solver.
  - exists p, s, s'. split; [exact E|]. split; [done|].
    rewrite (Forall2_length _ _ _ Hf), E', Hw', Hc', Hw. split; [done|]. split; [done|]. split; [done|].
    split; [done|]. pose proof (rn_alloc _ _ Hr') as Hal. rewrite Hj' in Hal. unfold held in Hal. cbn in Hal.
    by rewrite union_empty_l_L in Hal.
Qed.

End run.

(** ** A run *)

Section witness.
#[local] Instance run_allocator : Allocator aligned := aligned_allocator (fun _ => Some 0%nat).
#[local] Instance run_laws : AllocatorLaws aligned := aligned_laws (fun _ => Some 0%nat).

Definition demo_conf : sconf := MkConf 0 false 100 (str "10.0.0.1:80").
Definition no_other (_ : bytes) : option url := None.

Definition demo_requests : list request :=
  [MkRequest (str "POST") (str "/a?b") (str "HTTP/1.1") [(str "host", str "x")] (Chunks [str "he"; str "llo"]);
   MkRequest (str "GET") (str "/") (str "HTTP/1.1") [(str "Connection", str "close")] NoBody].

(** The wire form, one byte per read. *)
Definition demo_reads : list bytes := map (fun c => [c]) (concat (map encode_request demo_requests)).

(** The handler reads the body and answers with the target of the request and
    what it read, with the status 404 if that is something. *)
Definition demo_body_reads (q : http_request aligned) : list nat := [3%nat; 3%nat; 3%nat].
Definition demo_plan (q : http_request aligned) (got : list (bytes * option body_err)) : answer_plan :=
  let b := concat (map fst got) in
  (if bool_decide (b = []) then None else Some 404, ∅, [HWrite (hr_RequestURI q); HWrite b]).

Definition demo_reply (r : request) : bytes :=
  str "HTTP/1.1 " ++ (if bool_decide (payload (r_body r) = []) then str "200 OK" else str "404 Not Found") ++ CRLF ++ str "Content-Type: text/plain; charset=utf-8" ++ CRLF ++
  (if closes r then str "Connection: close" ++ CRLF else []) ++
  str "Date: Thu, 29 Feb 2024 12:30:05 GMT" ++ CRLF ++ str "Transfer-Encoding: chunked" ++ CRLF ++ CRLF ++
  encode_chunk (r_uri r) ++ (if bool_decide (payload (r_body r) = []) then [] else encode_chunk (payload (r_body r))) ++ str "0" ++ CRLF ++ CRLF.


Lemma demo_got r q : r ∈ demo_requests -> received demo_conf no_other r q ->
  concat (map fst (got demo_conf demo_body_reads q)) = payload (r_body r).
Proof.
  intros Hr (u & x & y & b & _ & _ & -> & Hc & _). unfold got. cbn [hr_Body expected]. rewrite Hc.
  unfold demo_requests in Hr. rewrite !elem_of_cons in Hr. destruct Hr as [-> |[-> |Hr]]; [reflexivity|reflexivity|by apply elem_of_nil in Hr].
Qed.

Lemma demo_replies r q :
  r ∈ demo_requests -> received demo_conf no_other r q ->
  replies demo_text demo_iter demo_iter_trailer demo_now demo_conf demo_body_reads demo_plan newAligned q (demo_reply r).
Proof.
  intros Hr Hq. pose proof (demo_got r q Hr Hq) as Hg. unfold replies, demo_plan. rewrite Hg.
  destruct Hq as (u & x & y & b & Eu & Ev & -> & _).
  assert (forall info s ops out, r_chunked (checkChunked info (WriteHeader demo_text 200 s)) = true ->
    fits (len (head_of demo_iter demo_now info (first_state demo_text info (opens_with_body ops) s))) ops = true ->
    out = head_of demo_iter demo_now info (first_state demo_text info (opens_with_body ops) s) ++ concat (map encode_chunk (writes ops)) ++
      FormatUint 0 16 ++ crlf ++ trailer_bytes demo_iter_trailer (head_loop demo_iter
        (first_state demo_text info (opens_with_body ops) s)).1.2 ++ crlf ->
    answer (A := aligned) demo_text demo_iter demo_iter_trailer demo_now info s ops out) as Hans.
  { intros info s ops out H1 H2 ->. by constructor. }
  unfold demo_requests in Hr. rewrite !elem_of_cons in Hr.
  destruct Hr as [-> |[-> |Hr]]; [| |by apply elem_of_nil in Hr]; vm_compute in Ev; injection Ev as <- <-;
    apply Hans; vm_compute; reflexivity.
Qed.

End witness.
