(* ===== verification/ClientRun.v ===== *)
(** * From responses to handlers

    The parser of a client, its processor and the bodies together: the wire
    form of any list of responses, cut anywhere, becomes calls of the handler,
    one per response, in order, each with the parts and the body of its
    response. *)

From Stdlib Require Import ZArith Lia.
From Stdlib Require Import Strings.Byte Strings.String.
From stdpp Require Import base numbers list list_numbers gmap.
From S2P Require Import Prelude GoLib Table Parser ParserFacts ParserSplit ParserRun ParserMessage ParserProps ParserResponse.
From S2P Require Import Mempool MempoolFacts MempoolProps Body Response Processor ProcessorProps.

Open Scope Z_scope.
Open Scope byte_cmp_scope.

(** ** Canonical names *)

Lemma canonical_byte (b : bool) c :
  let d := if b then to_upper_byte c else to_lower_byte c in
  is_tchar d = is_tchar c /\ (d =b "-") = (c =b "-") /\ (if b then to_upper_byte d else to_lower_byte d) = d.
Proof.
  assert (forall c, (let d := to_upper_byte c in
    Bool.eqb (is_tchar d) (is_tchar c) && Bool.eqb (d =b "-") (c =b "-") && (to_upper_byte d =b d)) &&
    (let d := to_lower_byte c in
    Bool.eqb (is_tchar d) (is_tchar c) && Bool.eqb (d =b "-") (c =b "-") && (to_lower_byte d =b d)) = true) as H
    by (apply forall_byte; by vm_compute).
  specialize (H c). cbv zeta in *. rewrite !andb_true_iff, !eqb_true_iff, !beqb_eq in H. destruct b; tauto.
Qed.

Lemma canonical_idempotent k : CanonicalHeaderKey (CanonicalHeaderKey k) = CanonicalHeaderKey k.
Proof.
  unfold CanonicalHeaderKey. destruct (forallb is_tchar k) eqn:E; [|by rewrite E].
  assert (forall k b, forallb is_tchar (canonical_go b k) = forallb is_tchar k /\ canonical_go b (canonical_go b k) = canonical_go b k) as H.
  { clear. induction k as [|c k IH]; intros b; [done|]. cbn [canonical_go forallb].
    destruct (canonical_byte b c) as (H1 & H2 & H3). rewrite H1, H2, H3. destruct (IH (c =b "-")) as [-> ->]. done. }
  destruct (H k true) as [H1 H2]. by rewrite H1, E, H2.
Qed.

Section client.
Context {A : Type} `{!Allocator A} `{!AllocatorLaws A} {C : Type} `{!ParserCloser C}.
Context (conf : sconf).

Abbreviation BodyReader := (@BodyReader A).
Abbreviation client := (client A).

#[local] Instance the_client : Processor (option client) C := client_processor conf.

Definition fields_header (r : response) : Header := foldl add_field ∅ (response_fields r).

(** The response as the handler gets it. *)
Definition expected_response (r : response) (x y : Z) (b : option BodyReader) : http_response A :=
  MkHttpResponse (s_proto r) x y (s_code r) (first_word (s_text r)) (fields_header r)
    (reported_length (s_body r)) b None.

Definition body_content (b : option BodyReader) : bytes := match b with Some b => content b | None => [] end.

Definition answered (r : response) (q : http_response A) : Prop :=
  exists x y b, ParseHTTPVersion (s_proto r) = Some (x, y) /\ q = expected_response r x y b /\
    body_content b = payload (s_body r).

(** What a client takes: the version parses, the body is within the limit, and
    the response does not switch protocols. *)
Definition takes (r : response) : bool :=
  bool_decide (is_Some (ParseHTTPVersion (s_proto r))) &&
  ((c_MaxHTTPBodySize conf <=? 0) || (len (payload (s_body r)) <=? c_MaxHTTPBodySize conf)) &&
  negb (s_code r =? 101).

Definition set_hbody (b : option BodyReader) (r : http_response A) : http_response A :=
  MkHttpResponse (hs_Proto r) (hs_ProtoMajor r) (hs_ProtoMinor r) (hs_StatusCode r) (hs_Status r) (hs_Header r)
    (hs_ContentLength r) b (hs_Trailer r).
Definition set_hlength (n : Z) (r : http_response A) : http_response A :=
  MkHttpResponse (hs_Proto r) (hs_ProtoMajor r) (hs_ProtoMinor r) (hs_StatusCode r) (hs_Status r) (hs_Header r)
    n (hs_Body r) (hs_Trailer r).
Definition set_hheader (h : Header) (r : http_response A) : http_response A :=
  MkHttpResponse (hs_Proto r) (hs_ProtoMajor r) (hs_ProtoMinor r) (hs_StatusCode r) (hs_Status r) h
    (hs_ContentLength r) (hs_Body r) (hs_Trailer r).
Definition with_calloc (a : A) (s : client) : client :=
  MkClient (cp_response s) a (cp_jobs s) (cp_exec s) (cp_handled s).

(** ** One response *)

Lemma client_fields_eq fs (r : http_response A) (s : client) :
  deliver_fields (Some (with_response (Some r) s)) fs =
  Some (with_response (Some (set_hheader (foldl add_field (hs_Header r) fs) r)) s).
Proof.
  revert r. induction fs as [|kv fs IH]; intros r; cbn [deliver_fields foldl]; [by destruct r|].
  change (foldl (fun pr kv => OnHeader pr (CanonicalHeaderKey kv.1) kv.2)
    (OnHeader (Some (with_response (Some r) s)) (CanonicalHeaderKey kv.1) kv.2) fs)
    with (deliver_fields (Some (with_response (Some (set_hheader (header_add (hs_Header r) (CanonicalHeaderKey kv.1) kv.2) r)) s)) fs).
  assert (header_add (hs_Header r) (CanonicalHeaderKey kv.1) kv.2 = add_field (hs_Header r) kv) as ->.
  { unfold header_add, add_field. by rewrite canonical_idempotent. }
  rewrite IH. by destruct r.
Qed.

Lemma client_body_piece others r (s : client) c d :
  body_so_far others (cp_alloc s) (hs_Body r) c -> d <> [] ->
  (c_MaxHTTPBodySize conf <= 0 \/ len c + len d <= c_MaxHTTPBodySize conf) ->
  exists br, ok_step (OnBody (Some (with_response (Some r) s)) d)
      = Some (Some (with_response (Some (set_hbody (Some br) r)) (with_calloc (br_alloc br) s))) /\
    body_so_far others (br_alloc br) (Some br) (c ++ d).
Proof.
  intros Hb Hd Hl. destruct (add_body_ok conf others (cp_alloc s) (hs_Body r) c d Hb Hd Hl) as (br & E & Hok).
  exists br. split; [|done]. cbn [OnBody the_client client_processor mbind option_bind].
  unfold cp_OnBody. cbn [cp_response with_response mbind option_bind cp_alloc]. by rewrite E.
Qed.

Lemma client_chunks others cs : forall r (s : client) c,
  body_so_far others (cp_alloc s) (hs_Body r) c -> forallb (fun c => (0 <? len c) && (len c <? 2 ^ 62)) cs = true ->
  (c_MaxHTTPBodySize conf <= 0 \/ len c + len (concat cs) <= c_MaxHTTPBodySize conf) ->
  exists b a, deliver_chunks (Some (with_response (Some r) s)) cs
      = Some (Some (with_response (Some (set_hbody b r)) (with_calloc a s))) /\
    body_so_far others a b (c ++ concat cs).
Proof.
  induction cs as [|d cs IH]; intros r s c Hb Hok Hl; cbn [deliver_chunks concat].
  - exists (hs_Body r), (cp_alloc s). rewrite app_nil_r. split; [by destruct r, s|done].
  - cbn [forallb concat] in *. bool_hyp. rewrite len_app in Hl. pose proof (len_nonneg (concat cs)).
    destruct (client_body_piece others r s c d Hb) as (br & -> & Hb'); [intros ->; done|destruct Hl; [by left|right; lia]|].
    cbn [mbind option_bind].
    destruct (IH (set_hbody (Some br) r) (with_calloc (br_alloc br) s) (c ++ d) Hb') as (b & a & -> & Hb2); [done| |].
    + rewrite len_app. destruct Hl; [by left|right; lia].
    + exists b, a. by rewrite app_assoc.
Qed.

Lemma client_body others f r (s : client) :
  alloc_inv (cp_alloc s) others -> hs_Body r = None -> framing_ok f = true ->
  (c_MaxHTTPBodySize conf <= 0 \/ len (payload f) <= c_MaxHTTPBodySize conf) ->
  exists b a, deliver_body (Some (with_response (Some r) s)) f
      = Some (Some (with_response (Some (set_hbody b (set_hlength (reported_length f) r))) (with_calloc a s))) /\
    body_so_far others a b (payload f).
Proof.
  intros Ha Hn Hf Hl.
  assert (forall n, OnContentLength (Some (with_response (Some r) s)) n
    = Some (with_response (Some (set_hlength n r)) s)) as Hlen by done.
  destruct f as [|[|x d]|cs]; cbn [deliver_body payload reported_length] in *; rewrite Hlen.
  - exists None, (cp_alloc s). split; [|done]. rewrite <- Hn. by destruct r, s.
  - exists None, (cp_alloc s). split; [|done]. rewrite <- Hn. by destruct r, s.
  - destruct (client_body_piece others (set_hlength (len (x :: d)) r) s [] (x :: d)) as (br & -> & Hb);
      [by cbn [hs_Body set_hlength]; rewrite Hn|done|exact Hl|].
    by exists (Some br), (br_alloc br).
  - destruct (client_chunks others cs (set_hlength (-1) r) s []) as (b & a & -> & Hb);
      [by cbn [hs_Body set_hlength]; rewrite Hn|exact Hf|exact Hl|].
    by exists b, a.
Qed.

(** ** A client between two responses *)

Definition response_bodies (js : list (http_response A)) : list BodyReader := omap hs_Body js.

Record client_resting (s : client) (live : gset nat) : Prop := {
  cr_response : cp_response s = None;
  cr_exec : cp_exec s = true;
  cr_frozen : frozen live (response_bodies (cp_jobs s));
  cr_alloc : alloc_inv (cp_alloc s) (held (response_bodies (cp_jobs s)) live);
  cr_open : Forall (fun b => br_closed b = false) (response_bodies (cp_jobs s))
}.

(** A response without a body adds none to the bodies of the jobs. *)
Lemma body_joins live bs a b c :
  frozen live bs -> Forall (fun b => br_closed b = false) bs -> body_so_far (held bs live) a b c ->
  let bs' := bs ++ omap hs_Body [MkHttpResponse [] 0 0 0 [] ∅ 0 b None] in
  frozen live bs' /\ alloc_inv a (held bs' live) /\ Forall (fun b => br_closed b = false) bs' /\ body_content b = c.
Proof.
  intros Hf Ho Hb. destruct b as [b|]; cbn [omap list_omap hs_Body].
  - destruct Hb as (Hok & Hc & Hcl). destruct (frozen_snoc _ _ _ _ Hf Hok) as [H1 H2]. repeat split; try apply H1; try done.
    apply Forall_app. by repeat constructor.
  - destruct Hb as [Ha ->]. by rewrite app_nil_r.
Qed.

Lemma client_one s live r :
  client_resting s live -> response_ok r = true -> takes r = true ->
  exists s' q, ParserResponse.deliver_response (C := C) (Some s) r = Some (Some s') /\ client_resting s' live /\
    cp_jobs s' = cp_jobs s ++ [q] /\ answered r q /\ cp_handled s' = cp_handled s.
Proof.
  intros [Hq Hx Hfz Ha Hop] Hok Htk. unfold takes in Htk. unfold response_ok in Hok. bool_hyp.
  match goal with H : is_Some _ |- _ => destruct H as [[x y] Ev] end.
  unfold ParserResponse.deliver_response. cbn [OnProto the_client client_processor]. unfold cp_OnProto. rewrite Ev, Hq.
  cbn [ok_step mbind option_bind default]. cbn [OnStatus the_client client_processor].
  unfold cp_OnStatus. cbn [cp_response with_response mbind option_bind].
  rewrite client_fields_eq.
  match goal with |- context [deliver_body (Some (with_response (Some ?q) ?s')) _] => set (r1 := q); set (s1 := s') end.
  destruct (client_body (held (response_bodies (cp_jobs s)) live) (s_body r) r1 s1 Ha eq_refl) as (b & a & -> & Hb); [done|lia|].
  destruct (body_joins live _ a b _ Hfz Hop Hb) as (F1 & F2 & F3 & F4).
  cbn [mbind option_bind OnComplete the_client client_processor]. unfold cp_OnComplete.
  cbn [cp_response with_response mbind option_bind hs_StatusCode set_hbody set_hlength r1 set_hheader].
  assert ((s_code r =? 101) = false) as Hsw by lia. rewrite Hsw.
  cbn [cp_exec with_calloc with_response s1]. rewrite Hx.
  eexists _, (expected_response r x y b). split; [reflexivity|].
  cbn [cp_jobs cp_handled with_calloc with_response cp_alloc s1]. split; [|split; [done|split; [by exists x, y, b|done]]].
  split; cbn [cp_response cp_exec cp_jobs cp_alloc]; try done; unfold response_bodies; rewrite omap_app; assumption.
Qed.

Lemma client_many rs : forall s live,
  client_resting s live -> forallb response_ok rs = true -> forallb takes rs = true ->
  exists s' qs, deliver_responses (C := C) (Some s) rs = Some (Some s') /\ client_resting s' live /\
    cp_jobs s' = cp_jobs s ++ qs /\ Forall2 answered rs qs /\ cp_handled s' = cp_handled s.
Proof.
  induction rs as [|r rs IH]; intros s live Hs Hok Htk; cbn [deliver_responses forallb] in *.
  - exists s, []. by rewrite app_nil_r.
  - bool_hyp. destruct (client_one s live r Hs) as (s1 & q & -> & Hs1 & Hj & Hq & Hh); [done..|].
    cbn [mbind option_bind]. destruct (IH s1 live Hs1) as (s' & qs & -> & Hs' & Hj' & Hqs & Hh'); [done..|].
    exists s', (q :: qs). split; [done|]. split; [done|]. split; [by rewrite Hj', Hj, <- app_assoc|].
    split; [by constructor|]. by rewrite Hh'.
Qed.

(** ** Running the jobs *)

Fixpoint run_client_jobs (n : nat) (s : client) : option client :=
  match n with
  | O => Some s
  | S n => s ← run_client_job s; run_client_jobs n s
  end.

Lemma client_job s live r js :
  client_resting s live -> cp_jobs s = r :: js ->
  exists s', run_client_job s = Some s' /\ client_resting s' live /\ cp_jobs s' = js /\
    cp_handled s' = cp_handled s ++ [r].
Proof.
  intros [Hq Hx Hfz Ha Hop] Hj. unfold run_client_job. rewrite Hj. unfold deliver_response, releaseClientResponse.
  cbn [cp_alloc]. rewrite Hj in Hfz, Ha, Hop. destruct (hs_Body r) as [b|] eqn:Eb.
  - assert (response_bodies (r :: js) = b :: response_bodies js) as Ebs by (unfold response_bodies; cbn; by rewrite Eb).
    rewrite Ebs in Hfz, Ha, Hop. apply Forall_cons in Hop as [Hcl Hop].
    destruct (frozen_body live [] b (response_bodies js) _ Hfz Ha) as [Hok Hfz']. cbn [app] in *.
    destruct (Close_ok _ _ Hok Hcl) as (br' & E & _ & _ & Ha'). cbn [release_body]. rewrite E. cbn [mbind option_bind].
    eexists. split; [reflexivity|]. done.
  - assert (response_bodies (r :: js) = response_bodies js) as Ebs by (unfold response_bodies; cbn; by rewrite Eb).
    rewrite Ebs in Hfz, Ha, Hop. cbn [release_body mbind option_bind]. eexists. split; [reflexivity|]. done.
Qed.

Lemma client_jobs live : forall js s,
  client_resting s live -> cp_jobs s = js ->
  exists s', run_client_jobs (length js) s = Some s' /\ client_resting s' live /\ cp_jobs s' = [] /\
    cp_handled s' = cp_handled s ++ js.
Proof.
  induction js as [|r js IH]; intros s Hs Hj.
  - exists s. by rewrite app_nil_r.
  - destruct (client_job s live r js Hs Hj) as (s1 & E & Hs1 & Hj1 & Hh1). cbn [length run_client_jobs]. rewrite E.
    cbn [mbind option_bind]. destruct (IH s1 Hs1 Hj1) as (s' & -> & Hs' & Hj' & Hh'). exists s'.
    split; [done|]. split; [done|]. split; [done|]. by rewrite Hh', Hh1, <- app_assoc.
Qed.

Definition new_client (a : A) : client := MkClient None a [] true [].

Context `{!ParserCloserLaws C} (bound : Z).

(** The processor installs no reader. *)
#[local] Instance the_client_laws : ProcessorLaws (option client) C.
Proof. by refine {| stream_bound := bound |}. Defined.

(** The run of a whole client. *)
Lemma receive_all (a : A) (live : gset nat) (limit : Z) (rs : list response) (ds : list bytes) :
  alloc_inv a live -> forallb response_ok rs = true -> forallb takes rs = true ->
  ds <> [] -> concat ds = concat (map encode_response rs) ->
  limit <= 0 \/ len (concat ds) <= limit -> len (concat ds) <= bound ->
  exists (q : parser (option client) C) s s',
    feed (NewParser (Some (new_client a)) true limit) ds = PRet q None /\ processor q = Some s /\
    cp_handled s = [] /\ run_client_jobs (length rs) s = Some s' /\ cp_jobs s' = [] /\
    Forall2 answered rs (cp_handled s') /\ alloc_inv (cp_alloc s') live.
Proof.
  intros Ha Hok Htk Hne Hds Hlim Hsb.
  assert (client_resting (new_client a) live) as Hrest.
  { split; try done; [split; [constructor|constructor|intros x Hx; by apply elem_of_nil in Hx]|].
    unfold held. cbn. by rewrite union_empty_l_L. }
  destruct (client_many rs (new_client a) live Hrest Hok Htk) as (s & qs & Hd & Hs & Hj & Hf & Hh).
  destruct (feed_responses (ProcessorLaws0 := the_client_laws) limit (Some (new_client a)) (Some s) rs ds Hok Hd Hne Hds Hlim Hsb)
    as (cl & cs & E).
  cbn [new_client cp_jobs app] in Hj.
  destruct (client_jobs live qs s Hs Hj) as (s' & E' & Hs' & Hj' & Hh').
  exists (idle (C := C) limit false [] 0 true (Some s) cl cs), s, s'. split; [exact E|]. split; [done|]. split; [done|].
  rewrite (Forall2_length _ _ _ Hf). split; [done|]. split; [done|]. rewrite Hh', Hh. split; [done|].
  pose proof (cr_alloc _ _ Hs') as Hal. rewrite Hj' in Hal. unfold held in Hal. cbn in Hal. by rewrite union_empty_l_L in Hal.
Qed.

(** C8: a client's parser and processor together turn the wire form of a list of
    responses, cut anywhere into reads, into one call of the handler per response,
    in order; each has the version, code, header and declared length of its
    response, the first word of its status text and exactly the bytes of its body;
    when the calls have returned every buffer is with the pool.  The responses are
    those of [response_ok] and [takes]: a version that starts with H and parses, a
    status text that starts with a letter, fields with a token as name, other than
    the framing fields, and a value that is not empty, does not start with a space
    and has no line ends; a body that is absent, has a declared length or comes in
    non-empty chunks without trailers, and is within the client's limit; and a code
    other than 101, which starts an upgrade. *)
Theorem client_receives (a : A) (live : gset nat) (limit : Z) (rs : list response) (ds : list bytes) :
  alloc_inv a live -> forallb response_ok rs = true -> forallb takes rs = true ->
  ds <> [] -> concat ds = concat (map encode_response rs) ->
  limit <= 0 \/ len (concat ds) <= limit -> len (concat ds) <= bound ->
  exists (q : parser (option client) C) s s',
    feed (NewParser (Some (new_client a)) true limit) ds = PRet q None /\ processor q = Some s /\
    cp_handled s = [] /\ run_client_jobs (length rs) s = Some s' /\ cp_jobs s' = [] /\
    Forall2 answered rs (cp_handled s') /\ alloc_inv (cp_alloc s') live.
Proof. exact (receive_all a live limit rs ds). Qed.
End client.

(** ** A run *)

Section witness.
#[local] Instance client_run_allocator : Allocator aligned := aligned_allocator (fun _ => Some 0%nat).
#[local] Instance client_run_laws : AllocatorLaws aligned := aligned_laws (fun _ => Some 0%nat).

Definition demo_client_conf : sconf := MkConf 0 false 100 [].

Definition demo_responses : list response :=
  [ParserResponse.MkResponse (str "HTTP/1.1") 404 (str "Not Found") [(str "server", str "x")] (Fixed (str "gone")) [(str "Age", str "1")];
   ParserResponse.MkResponse (str "HTTP/1.0") 200 (str "OK") [] (Chunks [str "he"; str "llo"]) []].

(** The wire form, one byte per read. *)
Definition demo_response_reads : list bytes := map (fun c => [c]) (concat (map encode_response demo_responses)).

Lemma client_receives_witness :
  exists (q : parser (option (client aligned)) bytes) s s',
    feed (Processor0 := the_client demo_client_conf) (NewParser (Some (new_client newAligned)) true 0) demo_response_reads
      = PRet q None /\ processor q = Some s /\ run_client_jobs 2 s = Some s' /\
    Forall2 answered demo_responses (cp_handled s').
Proof.
  destruct (client_receives (C := bytes) demo_client_conf (2 ^ 20) newAligned ∅ 0 demo_responses demo_response_reads)
    as (q & s & s' & E & Hp & _ & Er & _ & Hf & _).
  - apply aligned_inv_new.
  - vm_compute. reflexivity.
  - vm_compute. reflexivity.
  - vm_compute. discriminate.
  - vm_compute. reflexivity.
  - left. lia.
  - vm_compute. discriminate.
  - exists q, s, s'. split; [exact E|]. split; [exact Hp|]. split; [exact Er|exact Hf].
Defined.
End witness.
