(* ===== verification/Client.v ===== *)
(** * A connection of the HTTP client (src/nbhttp/client_conn.go)

    [ClientConn] sends requests over one connection and calls the handler of
    each when its response arrives or the connection ends.  A handler is a number; its calls are
    recorded.  Times are integers.  What the network does (dialing, the TLS
    handshake, writing the request) is an argument of [Do]. *)

From Stdlib Require Import ZArith Lia.
From Stdlib Require Import Strings.Byte Strings.String.
From stdpp Require Import base numbers list list_numbers gmap.
From S2P Require Import Prelude GoLib.

Open Scope Z_scope.

(** ** One connection *)

Module ClientConn.

Inductive client_err := EOF | ErrClientClosed | ErrClientTimeout | ErrClientUnsupportedSchema | ErrNet (e : Z).

(** What a handler is called with: a response, or an error. *)
Inductive outcome := GotResponse (r : Z) | GotError (e : client_err).

Record resHandler := MkHandler { h_t : Z; h_id : nat }.

(** [cc_conn] is the identity of the connection and whether it is a TLS one,
    which is wrapped in a [nbhttp.Conn]; [cc_dialer] the set
    [Engine.dialerConns]; [cc_deadline] the read deadline of the connection,
    [None] for none; [cc_opened] and [cc_shut] the sockets dialed and closed. *)
Record t := Mk {
  cc_conn : option (nat * bool);
  cc_handlers : list resHandler;
  cc_closed : bool;
  cc_deadline : option Z;
  cc_calls : list (nat * outcome);
  cc_onCloses : nat;
  cc_dialer : gset nat;
  cc_opened : list nat;
  cc_shut : list nat
}.

Definition new : t := Mk None [] false None [] 0 ∅ [] [].

Section ops.
Context (Timeout IdleConnTimeout : Z) (onClose : bool).

Definition Reset (c : t) : t :=
  if cc_closed c then
    Mk None [] false (cc_deadline c) (cc_calls c) (cc_onCloses c) (cc_dialer c) (cc_opened c) (cc_shut c)
  else c.

(** Every handler gets the error, then the connection is closed.  Only a plain
    connection is taken out of [dialerConns]: the type switch does not know the
    wrapper of a TLS connection. *)
Definition closeWithErrorWithoutLock (err : option client_err) (c : t) : t :=
  let e := default EOF err in
  let calls := cc_calls c ++ map (fun h => (h_id h, GotError e)) (cc_handlers c) in
  let n := if onClose then S (cc_onCloses c) else cc_onCloses c in
  match cc_conn c with
  | Some (k, tls) =>
      Mk None [] (cc_closed c) (cc_deadline c) calls n (if tls then cc_dialer c else cc_dialer c ∖ {[k]})
        (cc_opened c) (cc_shut c ++ [k])
  | None => Mk None [] (cc_closed c) (cc_deadline c) calls n (cc_dialer c) (cc_opened c) (cc_shut c)
  end.

Definition CloseWithError (err : option client_err) (c : t) : t :=
  if cc_closed c then c
  else
    closeWithErrorWithoutLock err
      (Mk (cc_conn c) (cc_handlers c) true (cc_deadline c) (cc_calls c) (cc_onCloses c) (cc_dialer c)
        (cc_opened c) (cc_shut c)).

Definition Close (c : t) : t := CloseWithError (Some EOF) c.

Definition set_handlers (hs : list resHandler) (c : t) : t :=
  Mk (cc_conn c) hs (cc_closed c) (cc_deadline c) (cc_calls c) (cc_onCloses c) (cc_dialer c) (cc_opened c) (cc_shut c).
Definition call (h : resHandler) (o : outcome) (c : t) : t :=
  Mk (cc_conn c) (cc_handlers c) (cc_closed c) (cc_deadline c) (cc_calls c ++ [(h_id h, o)]) (cc_onCloses c)
    (cc_dialer c) (cc_opened c) (cc_shut c).

(** [c.conn.SetReadDeadline], which panics without a connection. *)
Definition SetReadDeadline (d : option Z) (c : t) : option t :=
  match cc_conn c with
  | Some _ => Some (Mk (cc_conn c) (cc_handlers c) (cc_closed c) d (cc_calls c) (cc_onCloses c) (cc_dialer c)
                      (cc_opened c) (cc_shut c))
  | None => None
  end.

Definition onResponse (now : Z) (o : outcome) (c : t) : option t :=
  if cc_closed c then Some c
  else
    match cc_handlers c with
    | [] => Some c
    | head :: rest =>
        let c := set_handlers rest (call head o c) in
        match rest with
        | next :: _ =>
            let deadline := h_t next + Timeout in
            if 0 <? Timeout then
              Some (if deadline <? now then closeWithErrorWithoutLock (Some ErrClientTimeout) c else c)
            else SetReadDeadline (Some deadline) c
        | [] =>
            if 0 <? IdleConnTimeout then SetReadDeadline (Some (now + IdleConnTimeout)) c
            else SetReadDeadline None c
        end
    end.

(** ** Sending a request *)

Inductive scheme := Http | Https | OtherScheme.

(** How the steps of dialing and sending go, in order; [None] is success.
    [n_elapsed] is the time that passed since the start of [Do]. *)
Record network := MkNet {
  n_scheme : scheme;
  n_elapsed : Z;
  n_proxy : option client_err;
  n_proxyDialer : option client_err;
  n_dial : option client_err;
  n_NBConn : option client_err;
  n_Handshake : option client_err;
  n_VerifyHostname : option client_err;
  n_conn2Array : option client_err;
  n_AddConn : option client_err;
  n_write : option client_err
}.

Definition fail (e : client_err) (c : t) : t := closeWithErrorWithoutLock (Some e) c.

Definition sendRequest (net : network) (c : t) : t :=
  match n_write net with Some e => fail e c | None => c end.

(** The first error of a list of steps. *)
Definition first_error (l : list (option client_err)) : option client_err :=
  fold_right (fun e r => match e with Some _ => e | None => r end) None l.

(** A dialed socket [k] becomes the connection. *)
Definition install (k : nat) (tls : bool) (c : t) : t :=
  Mk (Some (k, tls)) (cc_handlers c) (cc_closed c) (cc_deadline c) (cc_calls c) (cc_onCloses c) ({[k]} ∪ cc_dialer c)
    (cc_opened c) (cc_shut c).

Definition opened (k : nat) (d : option Z) (c : t) : t :=
  Mk (cc_conn c) (cc_handlers c) (cc_closed c) d (cc_calls c) (cc_onCloses c) (cc_dialer c) (cc_opened c ++ [k]) (cc_shut c).

(** The address dialed: the host up to the first colon, and a port. *)
Definition dial_addr (host : bytes) (s : scheme) : bytes :=
  match split_byte ":" host with
  | h :: p :: _ => h ++ [":"%byte] ++ p
  | [h] => h ++ match s with Https => str ":443" | _ => str ":80" end
  | [] => []
  end.

(** The branch of [Do] without a connection.  [k] names the socket. *)
Definition dial_and_send (now : Z) (net : network) (k : nat) (c : t) : t :=
  if (0 <? Timeout) && (Timeout - n_elapsed net <=? 0) then fail ErrClientTimeout c
  else
  match first_error [n_proxy net; n_proxyDialer net; n_dial net] with
  | Some e => fail e c
  | None =>
      let c := opened k (if 0 <? Timeout then Some (now + Timeout) else None) c in
      match n_scheme net with
      | Http =>
          match n_NBConn net with
          | Some e => fail e c
          | None => sendRequest net (install k false c)
          end
      | Https =>
          match first_error [n_Handshake net; n_VerifyHostname net; n_NBConn net; n_conn2Array net] with
          | Some e => fail e c
          | None =>
              let c := install k true c in
              match n_AddConn net with
              | Some e => fail e c
              | None => sendRequest net c
              end
          end
      | OtherScheme => fail ErrClientUnsupportedSchema c
      end
  end.

Definition Do (now : Z) (net : network) (k : nat) (id : nat) (c : t) : option t :=
  if cc_closed c then Some (call (MkHandler now id) (GotError ErrClientClosed) c)
  else
    let c := set_handlers (cc_handlers c ++ [MkHandler now id]) c in
    match cc_conn c with
    | Some _ =>
        c ← (if (0 <? Timeout) && (len (cc_handlers c) =? 1) then SetReadDeadline (Some (now + Timeout)) c else Some c);
        Some (sendRequest net c)
    | None => Some (dial_and_send now net k c)
    end.

(** ** Runs *)

Inductive op :=
| ODo (now : Z) (net : network) (k id : nat)
| OResponse (now : Z) (r : Z)
| OClose (e : option client_err)
| OReset.

Definition step (o : op) (c : t) : option t :=
  match o with
  | ODo now net k id => Do now net k id c
  | OResponse now r => onResponse now (GotResponse r) c
  | OClose e => Some (CloseWithError e c)
  | OReset => Some (Reset c)
  end.

Fixpoint run (os : list op) (c : t) : option t :=
  match os with
  | [] => Some c
  | o :: os => c ← step o c; run os c
  end.

(** The requests given to the connection, in order. *)
Definition submitted (os : list op) : list nat :=
  omap (fun o => match o with ODo _ _ _ id => Some id | _ => None end) os.

(** Whoever was called, then whoever still waits. *)
Definition served (c : t) : list nat := (cc_calls c).*1 ++ map h_id (cc_handlers c).

Record ok (c : t) : Prop := {
  ok_closed : cc_closed c = true -> cc_conn c = None /\ cc_handlers c = [];
  ok_conn : cc_handlers c <> [] -> is_Some (cc_conn c);
  ok_shut : forall k b, cc_conn c = Some (k, b) -> k ∈ cc_opened c
}.

Lemma served_fail e c : served (closeWithErrorWithoutLock e c) = served c.
Proof.
  unfold served, closeWithErrorWithoutLock. destruct (cc_conn c) as [[k b]|]; cbn;
    rewrite app_nil_r, fmap_app, <- list_fmap_compose; done.
Qed.

Lemma conn_fail_ok e c : ok (closeWithErrorWithoutLock e c).
Proof. unfold closeWithErrorWithoutLock. destruct (cc_conn c) as [[k b]|]; by split. Qed.

Lemma conn_deadline_ok d c :
  ok c -> is_Some (cc_conn c) -> exists c', SetReadDeadline d c = Some c' /\ ok c' /\ served c' = served c /\
    cc_conn c' = cc_conn c.
Proof.
  intros [H1 H2 H3] [k Hk]. unfold SetReadDeadline. rewrite Hk. eexists. split; [done|]. by rewrite <- Hk.
Qed.

Lemma conn_send_ok net c : ok c -> ok (sendRequest net c) /\ served (sendRequest net c) = served c.
Proof.
  intros Hc. unfold sendRequest. destruct (n_write net); [|done]. split; [apply conn_fail_ok|apply served_fail].
Qed.

Lemma conn_dial_ok now net k c :
  cc_closed c = false -> ok (dial_and_send now net k c) /\ served (dial_and_send now net k c) = served c.
Proof.
  intros Hc. assert (forall e c', served c' = served c -> ok (fail e c') /\ served (fail e c') = served c) as Hf.
  { intros e c' Hs. split; [apply conn_fail_ok|]. unfold fail. by rewrite served_fail. }
  unfold dial_and_send. destruct (_ && _); [by apply Hf|].
  destruct (first_error _) as [e|]; [by apply Hf|].
  set (c1 := opened _ _ _).
  assert (forall b, ok (install k b c1)) as Hi.
  { intros b. split; cbn; [congruence|done|]. intros k' b' [= <- <-]. set_solver. }
  destruct (n_scheme net); [| |by apply Hf].
  - destruct (n_NBConn net); [by apply Hf|]. exact (conn_send_ok net (install k false c1) (Hi false)).
  - destruct (first_error _) as [e|]; [by apply Hf|]. destruct (n_AddConn net); [by apply Hf|].
    exact (conn_send_ok net (install k true c1) (Hi true)).
Qed.

Lemma conn_step_ok o c : ok c -> exists c', step o c = Some c' /\ ok c' /\ served c' = served c ++ submitted [o].
Proof.
  intros Hc. pose proof Hc as [H1 H2 H3]. destruct o as [now net k id|now r|e|]; cbn [step submitted omap list_omap].
  - unfold Do. destruct (cc_closed c) eqn:Ec.
    + eexists. split; [done|]. destruct (H1 eq_refl) as [Hn Hh]. split; [by split|].
      unfold served, call. cbn. rewrite Hh, fmap_app. cbn. by rewrite !app_nil_r.
    + set (c1 := set_handlers _ c).
      assert (served c1 = served c ++ [id]) as Hs1.
      { unfold served, c1. cbn. rewrite map_app. cbn. by rewrite app_assoc. }
      destruct (cc_conn c1) as [kb|] eqn:Ek.
      * assert (ok c1) as Hc1 by (split; [cbn; congruence|intros _; by rewrite Ek|exact H3]).
        destruct (_ && _); cbn [mbind option_bind].
        { destruct (conn_deadline_ok (Some (now + Timeout)) c1 Hc1 ltac:(by rewrite Ek)) as (c2 & -> & Hc2 & Hs2 & _).
          cbn [mbind option_bind]. eexists. split; [done|]. destruct (conn_send_ok net c2 Hc2) as [? ->]. by rewrite Hs2, Hs1. }
        eexists. split; [done|]. destruct (conn_send_ok net c1 Hc1) as [? ->]. by rewrite Hs1.
      * eexists. split; [done|]. destruct (conn_dial_ok now net k c1) as [? ->]; [done|]. by rewrite Hs1.
  - rewrite app_nil_r. unfold onResponse. destruct (cc_closed c) eqn:Ec; [by exists c|].
    destruct (cc_handlers c) as [|h rest] eqn:Eh; [by exists c|].
    destruct (H2 ltac:(done)) as [kb Hk]. set (c1 := set_handlers rest (call h (GotResponse r) c)).
    assert (served c1 = served c) as Hs1.
    { unfold served, c1. cbn. rewrite Eh, fmap_app. cbn. by rewrite <- app_assoc. }
    assert (ok c1) as Hc1 by (split; [cbn; congruence|intros _; by exists kb|exact H3]).
    assert (is_Some (cc_conn c1)) as Hk1 by by exists kb.
    destruct rest as [|next rest'].
    + destruct (0 <? IdleConnTimeout);
        [destruct (conn_deadline_ok (Some (now + IdleConnTimeout)) c1 Hc1 Hk1) as (c2 & -> & ? & ? & _)
        |destruct (conn_deadline_ok None c1 Hc1 Hk1) as (c2 & -> & ? & ? & _)]; exists c2; by rewrite <- Hs1.
    + destruct (0 <? Timeout).
      * eexists. split; [done|]. destruct (_ <? _); [|done]. split; [apply conn_fail_ok|]. by rewrite served_fail.
      * destruct (conn_deadline_ok (Some (h_t next + Timeout)) c1 Hc1 Hk1) as (c2 & -> & ? & ? & _).
        exists c2. by rewrite <- Hs1.
  - eexists. split; [done|]. rewrite app_nil_r. unfold CloseWithError. destruct (cc_closed c); [done|].
    split; [apply conn_fail_ok|]. by rewrite served_fail.
  - eexists. split; [done|]. rewrite app_nil_r. unfold Reset. destruct (cc_closed c) eqn:Ec; [|done].
    destruct (H1 eq_refl) as [Hn Hh]. split; [by split|]. unfold served. cbn. by rewrite Hh.
Qed.

Lemma conn_run_ok os : forall c, ok c -> exists c', run os c = Some c' /\ ok c' /\ served c' = served c ++ submitted os.
Proof.
  induction os as [|o os IH]; intros c Hc; cbn [run].
  - exists c. by rewrite app_nil_r.
  - destruct (conn_step_ok o c Hc) as (c1 & -> & Hc1 & Hs1). cbn [mbind option_bind].
    destruct (IH c1 Hc1) as (c' & -> & Hc' & Hs'). exists c'. split; [done|]. split; [done|].
    rewrite Hs', Hs1, <- app_assoc. f_equal. unfold submitted. by rewrite <- omap_app.
Qed.

(** C21: over any sequence of requests, responses, closes and resets on a
    client's connection, nothing panics and the handlers are called exactly in
    the order of the requests: those called so far, then those still waiting,
    are the requests submitted.  A response goes to the request that waits the
    longest; closing calls every waiting handler with the error and leaves none
    waiting, also after a failed dial, handshake or write. *)
Theorem client_fifo (os : list op) :
  exists c, run os new = Some c /\ (cc_calls c).*1 ++ map h_id (cc_handlers c) = submitted os /\
    (cc_closed c = true -> cc_handlers c = []) /\
    (forall now r h rest, cc_closed c = false -> cc_handlers c = h :: rest ->
      exists c' more, onResponse now (GotResponse r) c = Some c' /\
        cc_calls c' = cc_calls c ++ (h_id h, GotResponse r) :: more /\
        (more = [] /\ cc_handlers c' = rest \/
         more = map (fun h => (h_id h, GotError ErrClientTimeout)) rest /\ cc_handlers c' = [])) /\
    (forall e, cc_closed c = false ->
      cc_calls (CloseWithError e c) = cc_calls c ++ map (fun h => (h_id h, GotError (default EOF e))) (cc_handlers c) /\
      cc_handlers (CloseWithError e c) = [] /\ cc_closed (CloseWithError e c) = true).
Proof.
  destruct (conn_run_ok os new) as (c & Hr & [H1 H2 H3] & Hs); [by split|]. exists c.
  split; [done|]. split; [exact Hs|]. split; [intros Hc; by apply H1|]. split.
  - intros now r h rest Hc Hh. unfold onResponse. rewrite Hc, Hh. destruct (H2 ltac:(by rewrite Hh)) as [kb Hk].
    destruct rest as [|next rest].
    + unfold SetReadDeadline. cbn. rewrite Hk. destruct (0 <? IdleConnTimeout); (eexists _, []; split; [done|]); auto.
    + destruct (0 <? Timeout).
      * destruct (h_t next + Timeout <? now).
        { eexists _, _. split; [done|]. unfold closeWithErrorWithoutLock. cbn. rewrite Hk. destruct kb as [k b]. cbn.
          rewrite <- app_assoc. split; [reflexivity|]. by right. }
        eexists _, []. split; [done|]. auto.
      * unfold SetReadDeadline. cbn. rewrite Hk. eexists _, []. split; [done|]. auto.
  - intros e Hc. unfold CloseWithError, closeWithErrorWithoutLock. rewrite Hc. cbn. destruct (cc_conn c) as [[k b]|]; done.
Qed.

End ops.

Definition good_net : network := MkNet Http 0 None None None None None None None None None.
Definition broken_net : network := MkNet Http 0 None None None None None None None None (Some (ErrNet 32)).
Definition bad_tls : network := MkNet Https 0 None None None None (Some (ErrNet 1)) None None None None.

Definition demo_run : list op :=
  [ODo 0 good_net 1 10; ODo 1 good_net 1 11; OResponse 2 200; ODo 3 broken_net 1 12; OClose None; OReset; ODo 9 good_net 2 13].

Lemma client_fifo_witness :
  exists c, run 5 0 true demo_run new = Some c /\
    cc_calls c = [(10%nat, GotResponse 200); (11%nat, GotError (ErrNet 32)); (12%nat, GotError (ErrNet 32))] /\
    (cc_calls c).*1 ++ map h_id (cc_handlers c) = [10; 11; 12; 13]%nat.
Proof.
  destruct (client_fifo 5 0 true demo_run) as (c & Hr & Hs & _).
  exists c. split; [exact Hr|]. split; [|exact Hs]. vm_compute in Hr. injection Hr as <-. reflexivity.
Defined.

(** ** Where the code falls short *)

(** Without a timeout, the response to the first of two requests sets a read
    deadline that is already past. *)
Lemma pipelined_deadline_past :
  exists c, run 0 0 false [ODo 0 good_net 1 10; ODo 1 good_net 1 11; OResponse 5 200] new = Some c /\
    cc_handlers c = [MkHandler 1 11] /\ cc_deadline c = Some 1.
Proof. eexists. split; [vm_compute; reflexivity|done]. Qed.

(** With a timeout, the deadline of the first request stays on for the second. *)
Lemma pipelined_deadline_kept :
  exists c, run 10 0 false [ODo 0 good_net 1 10; ODo 8 good_net 1 11; OResponse 9 200] new = Some c /\
    cc_handlers c = [MkHandler 8 11] /\ cc_deadline c = Some 10.
Proof. eexists. split; [vm_compute; reflexivity|done]. Qed.

(** A TLS handshake that fails leaves the dialed socket open. *)
Lemma handshake_failure_leaks :
  exists c, run 0 0 false [ODo 0 bad_tls 1 10; OClose None] new = Some c /\ cc_opened c = [1%nat] /\ cc_shut c = [].
Proof. eexists. split; [vm_compute; reflexivity|done]. Qed.

(** A host that is an IPv6 literal is cut at its first colon. *)
Lemma ipv6_host_cut : dial_addr (str "[::1]:8080") Http = str "[:".
Proof. reflexivity. Qed.

End ClientConn.
