(* ===== verification/GoCrypto.v ===== *)
(** * SHA-1, base64 and UTF-8

    What the WebSocket handshake takes from the standard library: [crypto/sha1],
    [encoding/base64] and the decoding of a rune ([unicode/utf8]). *)

From Stdlib Require Import ZArith Lia.
From Stdlib Require Import Strings.Byte Strings.String.
From stdpp Require Import base numbers list list_numbers gmap.
From S2P Require Import Prelude GoLib.

Open Scope Z_scope.

(** ** SHA-1 *)

Definition w32 (x : Z) : Z := Z.land x 0xFFFFFFFF.
Definition rotl (n x : Z) : Z := w32 (Z.lor (Z.shiftl x n) (Z.shiftr x (32 - n))).

Definition be32 (x : Z) : bytes :=
  [z2b (Z.shiftr x 24); z2b (Z.shiftr x 16); z2b (Z.shiftr x 8); z2b x].

(** The message, a one bit, zeros, and the length in bits. *)
Definition sha1_pad (m : bytes) : bytes :=
  let bits := 8 * len m in
  m ++ [x80] ++ replicate (Z.to_nat ((55 - len m) mod 64)) x00 ++
  be32 (w32 (Z.shiftr bits 32)) ++ be32 (w32 bits).

Fixpoint be_words (n : nat) (m : bytes) : list Z :=
  match n, m with
  | S n, a :: b :: c :: d :: r =>
      (b2z a * 16777216 + b2z b * 65536 + b2z c * 256 + b2z d) :: be_words n r
  | _, _ => []
  end.

(** The schedule, last word first. *)
Fixpoint schedule (n : nat) (w : list Z) : list Z :=
  match n with
  | O => w
  | S n =>
      let at_ i := default 0 (w !! i) in
      schedule n (rotl 1 (Z.lxor (Z.lxor (at_ 2%nat) (at_ 7%nat)) (Z.lxor (at_ 13%nat) (at_ 15%nat))) :: w)
  end.

Definition sha1_round (t : nat) (w : Z) (h : Z * Z * Z * Z * Z) : Z * Z * Z * Z * Z :=
  let '(a, b, c, d, e) := h in
  let '(f, k) :=
    if (t <? 20)%nat then (Z.lor (Z.land b c) (Z.land (Z.lxor b 0xFFFFFFFF) d), 0x5A827999)
    else if (t <? 40)%nat then (Z.lxor (Z.lxor b c) d, 0x6ED9EBA1)
    else if (t <? 60)%nat then (Z.lor (Z.lor (Z.land b c) (Z.land b d)) (Z.land c d), 0x8F1BBCDC)
    else (Z.lxor (Z.lxor b c) d, 0xCA62C1D6) in
  (w32 (rotl 5 a + f + e + k + w), a, rotl 30 b, c, d).

Fixpoint sha1_rounds (t : nat) (ws : list Z) (h : Z * Z * Z * Z * Z) : Z * Z * Z * Z * Z :=
  match ws with
  | [] => h
  | w :: ws => sha1_rounds (S t) ws (sha1_round t w h)
  end.

Fixpoint sha1_blocks (n : nat) (m : bytes) (h : Z * Z * Z * Z * Z) : Z * Z * Z * Z * Z :=
  match n with
  | O => h
  | S n =>
      let ws := rev (schedule 64 (rev (be_words 16 m))) in
      let '(a, b, c, d, e) := h in
      let '(a', b', c', d', e') := sha1_rounds 0 ws h in
      sha1_blocks n (drop 64 m) (w32 (a + a'), w32 (b + b'), w32 (c + c'), w32 (d + d'), w32 (e + e'))
  end.

Definition sha1 (m : bytes) : bytes :=
  let p := sha1_pad m in
  let '(a, b, c, d, e) := sha1_blocks (Nat.div (length p) 64) p (0x67452301, 0xEFCDAB89, 0x98BADCFE, 0x10325476, 0xC3D2E1F0) in
  be32 a ++ be32 b ++ be32 c ++ be32 d ++ be32 e.

(** ** base64 *)

Definition base64_char (n : Z) : byte :=
  default "="%byte (str "ABCDEFGHIJKLMNOPQRSTUVWXYZabcdefghijklmnopqrstuvwxyz0123456789+/" !! Z.to_nat n).

(** [base64.StdEncoding.EncodeToString] *)
Fixpoint base64 (m : bytes) : bytes :=
  match m with
  | a :: b :: c :: r =>
      let v := b2z a * 65536 + b2z b * 256 + b2z c in
      [base64_char (v / 262144); base64_char ((v / 4096) mod 64); base64_char ((v / 64) mod 64); base64_char (v mod 64)]
      ++ base64 r
  | [a; b] =>
      let v := b2z a * 65536 + b2z b * 256 in
      [base64_char (v / 262144); base64_char ((v / 4096) mod 64); base64_char ((v / 64) mod 64); "="%byte]
  | [a] =>
      let v := b2z a * 65536 in
      [base64_char (v / 262144); base64_char ((v / 4096) mod 64); "="%byte; "="%byte]
  | [] => []
  end.

(** The test vectors of FIPS 180 and RFC 4648. *)
Example sha1_abc : sha1 (str "abc") =
  be32 0xA9993E36 ++ be32 0x4706816A ++ be32 0xBA3E2571 ++ be32 0x7850C26C ++ be32 0x9CD0D89D.
Proof. vm_compute. reflexivity. Qed.

Example sha1_two_blocks : sha1 (str "abcdbcdecdefdefgefghfghighijhijkijkljklmklmnlmnomnopnopq") =
  be32 0x84983E44 ++ be32 0x1C3BD26E ++ be32 0xBAAE4AA1 ++ be32 0xF95129E5 ++ be32 0xE54670F1.
Proof. vm_compute. reflexivity. Qed.

Example base64_foobar :
  map base64 [[]; str "f"; str "fo"; str "foo"; str "foobar"] = [[]; str "Zg=="; str "Zm8="; str "Zm9v"; str "Zm9vYmFy"].
Proof. vm_compute. reflexivity. Qed.

(** ** Runes *)

Definition RuneError : Z := 0xFFFD.

Definition in_z (lo hi : Z) (c : byte) : bool := (lo <=? b2z c) && (b2z c <=? hi).
Definition cont (c : byte) : bool := in_z 0x80 0xBF c.

(** [utf8.DecodeRuneInString]: the rune and its width; an invalid encoding is
    one byte wide. *)
Definition DecodeRune (s : bytes) : Z * nat :=
  match s with
  | [] => (RuneError, 0%nat)
  | a :: r =>
      if b2z a <? 0x80 then (b2z a, 1%nat)
      else
        match r with
        | b :: r =>
            if in_z 0xC2 0xDF a && cont b then ((b2z a - 0xC0) * 64 + (b2z b - 0x80), 2%nat)
            else
              match r with
              | c :: r =>
                  let second := if b2z a =? 0xE0 then in_z 0xA0 0xBF b
                                else if b2z a =? 0xED then in_z 0x80 0x9F b else cont b in
                  if in_z 0xE0 0xEF a && second && cont c then
                    ((b2z a - 0xE0) * 4096 + (b2z b - 0x80) * 64 + (b2z c - 0x80), 3%nat)
                  else
                    match r with
                    | d :: _ =>
                        let second := if b2z a =? 0xF0 then in_z 0x90 0xBF b
                                      else if b2z a =? 0xF4 then in_z 0x80 0x8F b else cont b in
                        if in_z 0xF0 0xF4 a && second && cont c && cont d then
                          ((b2z a - 0xF0) * 262144 + (b2z b - 0x80) * 4096 + (b2z c - 0x80) * 64 + (b2z d - 0x80), 4%nat)
                        else (RuneError, 1%nat)
                    | [] => (RuneError, 1%nat)
                    end
              | [] => (RuneError, 1%nat)
              end
        | [] => (RuneError, 1%nat)
        end
  end.

(** A string cut into its runes, each with its bytes. *)
Fixpoint runes (fuel : nat) (s : bytes) : list (Z * bytes) :=
  match fuel, s with
  | S fuel, _ :: _ => let '(r, n) := DecodeRune s in (r, take n s) :: runes fuel (drop n s)
  | _, _ => []
  end.

(** [unicode.IsSpace] *)
Definition IsSpace (r : Z) : bool :=
  ((9 <=? r) && (r <=? 13)) || (r =? 32) || (r =? 0x85) || (r =? 0xA0) || (r =? 0x1680) ||
  ((0x2000 <=? r) && (r <=? 0x200A)) || (r =? 0x2028) || (r =? 0x2029) || (r =? 0x202F) || (r =? 0x205F) || (r =? 0x3000).

Fixpoint drop_spaces (l : list (Z * bytes)) : list (Z * bytes) :=
  match l with
  | [] => []
  | (r, b) :: l' => if IsSpace r then drop_spaces l' else l
  end.

(** [strings.TrimSpace] *)
Definition TrimSpace (s : bytes) : bytes :=
  concat (map snd (rev (drop_spaces (rev (drop_spaces (runes (length s) s)))))).
