(* ===== verification/Handshake.v ===== *)
(** * The WebSocket handshake (src/nbhttp/websocket/upgrader.go, dialer.go)

    The scanning of header values, the checks and the answer of [Upgrader], and
    the request and the checks of [Dialer].  The host of an [Origin] value
    ([url.Parse]) and the order in which a header map is iterated are
    parameters. *)

From Stdlib Require Import ZArith Lia.
From Stdlib Require Import Strings.Byte Strings.String.
From stdpp Require Import base numbers list list_numbers gmap.
From S2P Require Import Prelude GoLib GoCrypto Mempool Response.

Open Scope Z_scope.
Open Scope byte_cmp_scope.

(** ** Scanning *)

Definition isTokenOctet (c : byte) : bool :=
  existsb (fun d => c =b d)
    (str "!#$%&'*+-.0123456789ABCDEFGHIJKLMNOPQRSTUWVXYZ^_`abcdefghijklmnopqrstuvwxyz|~").

Definition is_blank (c : byte) : bool := (c =b SP) || (c =b HT).

Definition skipSpace (s : bytes) : bytes := drop_while is_blank s.

Fixpoint nextToken (s : bytes) : bytes * bytes :=
  match s with
  | c :: r => if isTokenOctet c then let '(t, rest) := nextToken r in (c :: t, rest) else ([], s)
  | [] => ([], [])
  end.

Definition DQUOTE : byte := x22.
Definition BACKSLASH : byte := x5c.

(** After a backslash; [esc] when the next byte is taken as it is. *)
Fixpoint quoted_escaped (s acc : bytes) (esc : bool) : bytes * bytes :=
  match s with
  | [] => ([], [])
  | c :: r =>
      if esc then quoted_escaped r (c :: acc) false
      else if c =b BACKSLASH then quoted_escaped r acc true
      else if c =b DQUOTE then (rev acc, r)
      else quoted_escaped r (c :: acc) false
  end.

Fixpoint quoted (s acc : bytes) : bytes * bytes :=
  match s with
  | [] => ([], [])
  | c :: r =>
      if c =b DQUOTE then (rev acc, r)
      else if c =b BACKSLASH then quoted_escaped r acc true
      else quoted r (c :: acc)
  end.

Definition nextTokenOrQuoted (s : bytes) : bytes * bytes :=
  match s with
  | c :: r => if c =b DQUOTE then quoted r [] else nextToken s
  | [] => nextToken s
  end.

Definition fold_rune (r : Z) : Z := if (65 <=? r) && (r <=? 90) then r + 32 else r.

(** The loop of [equalASCIIFold]; every round takes a rune of each string. *)
Fixpoint fold_loop (fuel : nat) (s t : bytes) : bool :=
  match fuel, s, t with
  | S fuel, _ :: _, _ :: _ =>
      let '(sr, n) := DecodeRune s in
      let '(tr, m) := DecodeRune t in
      if (sr =? tr) || (fold_rune sr =? fold_rune tr) then fold_loop fuel (drop n s) (drop m t) else false
  | _, _, _ => bool_decide (s = t)
  end.

Definition equalASCIIFold (s t : bytes) : bool := fold_loop (length s) s t.

(** The inner loop of [headerContains]; every round takes a token. *)
Fixpoint contains_loop (fuel : nat) (value s : bytes) : bool :=
  match fuel with
  | O => false
  | S fuel =>
      let '(t, s) := nextToken (skipSpace s) in
      match t with
      | [] => false
      | _ =>
          match skipSpace s with
          | [] => equalASCIIFold t value
          | c :: r =>
              if negb (c =b ",") then false
              else if equalASCIIFold t value then true
              else contains_loop fuel value r
          end
      end
  end.

Definition headerContains (h : Header) (name value : bytes) : bool :=
  existsb (fun s => contains_loop (S (length s)) value s) (default [] (h !! name)).

Definition extension := gmap bytes bytes.

(** The loop over the parameters of an extension; [None] gives up the value. *)
Fixpoint ext_params (fuel : nat) (s : bytes) (ext : extension) : option (extension * bytes) :=
  match skipSpace s with
  | c :: r =>
      if c =b ";" then
        match fuel with
        | O => None
        | S fuel =>
            let '(k, s) := nextToken (skipSpace r) in
            match k with
            | [] => None
            | _ =>
                let '(v, s) := match skipSpace s with
                               | c :: r => if c =b "=" then let '(v, s) := nextTokenOrQuoted (skipSpace r) in (v, skipSpace s)
                                           else ([], c :: r)
                               | [] => ([], [])
                               end in
                match s with
                | c :: _ => if (c =b ",") || (c =b ";") then ext_params fuel s (<[k := v]> ext) else None
                | [] => ext_params fuel s (<[k := v]> ext)
                end
            end
        end
      else Some (ext, c :: r)
  | [] => Some (ext, [])
  end.

Fixpoint ext_loop (fuel : nat) (s : bytes) : list extension :=
  match fuel with
  | O => []
  | S fuel =>
      let '(t, s) := nextToken (skipSpace s) in
      match t with
      | [] => []
      | _ =>
          match ext_params (length s) s {[[] := t]} with
          | None => []
          | Some (ext, s) =>
              match s with
              | [] => [ext]
              | c :: r => if c =b "," then ext :: ext_loop fuel r else []
              end
          end
      end
  end.

Definition parseExtensions (h : Header) : list extension :=
  concat (map (fun s => ext_loop (S (length s)) s) (default [] (h !! str "Sec-Websocket-Extensions"))).

(** ** The accept key *)

Definition keyGUID : bytes := str "258EAFA5-E914-47DA-95CA-C5AB0DC85B11".

Definition acceptKeyBytes (challengeKey : bytes) : bytes := base64 (sha1 (challengeKey ++ keyGUID)).
Definition acceptKeyString (challengeKey : bytes) : bytes := base64 (sha1 (challengeKey ++ keyGUID)).

(** ** The server *)

Inductive hs_err :=
| ErrUpgradeTokenNotFound
| ErrUpgradeMethodIsGet
| ErrUpgradeInvalidWebsocketVersion
| ErrUpgradeUnsupportedExtensions
| ErrUpgradeOriginNotAllowed
| ErrUpgradeMissingWebsocketKey
| ErrBadHandshake
| ErrInvalidCompression
| ErrDuplicateHeader (k : bytes).

(** The parts of a request the upgrader looks at. *)
Record ws_request := MkWsRequest { wr_Method : bytes; wr_Header : Header; wr_Host : bytes }.

(** [u.CheckOrigin] is [None] when nil; [u.Subprotocols] likewise. *)
Record upgrader := MkUpgrader {
  up_CheckOrigin : option (ws_request -> bool);
  up_Subprotocols : option (list bytes);
  up_enableCompression : bool
}.

Section server.
Context (parse_host : bytes -> option bytes).

Definition checkSameOrigin (r : ws_request) : bool :=
  match default [] (wr_Header r !! str "Origin") with
  | [] => true
  | o :: _ => match parse_host o with Some h => equalASCIIFold h (wr_Host r) | None => false end
  end.

Definition subprotocols (h : Header) : list bytes :=
  match TrimSpace (header_get h (str "Sec-Websocket-Protocol")) with
  | [] => []
  | s => map TrimSpace (split_byte "," s)
  end.

(** The first of the server's protocols the client offers. *)
Definition selectSubprotocol (u : upgrader) (r : ws_request) (responseHeader : option Header) : bytes :=
  match up_Subprotocols u with
  | Some ps => default [] (list_find (fun p => p ∈ subprotocols (wr_Header r)) ps ≫= fun ip => Some ip.2)
  | None =>
      match responseHeader with
      | Some h => header_get h (str "Sec-Websocket-Protocol")
      | None => []
      end
  end.

Definition commCheck (u : upgrader) (r : ws_request) (responseHeader : option Header)
    : (Z * hs_err) + (bytes * bytes * bool) :=
  if negb (headerContains (wr_Header r) (str "Connection") (str "upgrade")) then inl (400, ErrUpgradeTokenNotFound)
  else if negb (headerContains (wr_Header r) (str "Upgrade") (str "websocket")) then inl (400, ErrUpgradeTokenNotFound)
  else if negb (bool_decide (wr_Method r = str "GET")) then inl (405, ErrUpgradeMethodIsGet)
  else if negb (headerContains (wr_Header r) (str "Sec-Websocket-Version") (str "13"))
  then inl (400, ErrUpgradeInvalidWebsocketVersion)
  else if bool_decide (is_Some (default ∅ responseHeader !! str "Sec-Websocket-Extensions"))
  then inl (500, ErrUpgradeUnsupportedExtensions)
  else if negb ((default checkSameOrigin (up_CheckOrigin u)) r) then inl (403, ErrUpgradeOriginNotAllowed)
  else
    let challengeKey := header_get (wr_Header r) (str "Sec-Websocket-Key") in
    if bool_decide (challengeKey = []) then inl (400, ErrUpgradeMissingWebsocketKey)
    else
      let subprotocol := selectSubprotocol u r responseHeader in
      let compress := up_enableCompression u &&
        existsb (fun ext => bool_decide (ext !! [] = Some (str "permessage-deflate"))) (parseExtensions (wr_Header r)) in
      inr (challengeKey, subprotocol, compress).

(** A control byte in a value becomes a space. *)
Definition sanitize (b : byte) : byte := if b2z b <=? 31 then SP else b.

Definition extension_offer : bytes := str "permessage-deflate; server_no_context_takeover; client_no_context_takeover".

(** The answer's pieces, in the order they are appended. *)
Definition comm_pieces (fields : list (bytes * list bytes)) (challengeKey subprotocol : bytes) (compress : bool)
    : list bytes :=
  [str "HTTP/1.1 101 Switching Protocols" ++ CRLF ++ str "Upgrade: websocket" ++ CRLF ++
     str "Connection: Upgrade" ++ CRLF ++ str "Sec-WebSocket-Accept: ";
   acceptKeyBytes challengeKey; CRLF] ++
  (if bool_decide (subprotocol = []) then [] else [str "Sec-WebSocket-Protocol: "; subprotocol; CRLF]) ++
  (if compress then [str "Sec-WebSocket-Extensions: " ++ extension_offer ++ CRLF] else []) ++
  concat (map (fun kv : bytes * list bytes =>
    if bool_decide (kv.1 = str "Sec-Websocket-Protocol") then []
    else concat (map (fun v => [kv.1; str ": "] ++ map (fun b => [sanitize b]) v ++ [CRLF]) kv.2)) fields) ++
  [CRLF].

Context {A : Type} `{!Allocator A} (iter : Header -> list (bytes * list bytes)).

(** [commResponse]: the answer is put together in a pooled buffer and written;
    [wr] is the error of the write.  The bytes written, the error, and whether
    the connection was closed. *)
Definition commResponse (responseHeader : option Header) (challengeKey subprotocol : bytes) (compress : bool)
    (wr : option Z) (a : A) : option (bytes * option Z * bool * A) :=
  '(p, a) ← Malloc 1024 a;
  p ← reslice p 0;
  '(p, a) ← append_all (comm_pieces (iter (default ∅ responseHeader)) challengeKey subprotocol compress) p a;
  let out := data p in
  a ← Free p a;
  Some (out, wr, bool_decide (wr <> None), a).
End server.

(** ** The client *)

Record dialer := MkDialer { dl_Subprotocols : list bytes; dl_enableCompression : bool }.

(** [strings.Join(l, ", ")] *)
Fixpoint join_comma (l : list bytes) : bytes :=
  match l with
  | [] => []
  | [x] => x
  | x :: r => x ++ str ", " ++ join_comma r
  end.

(** The loop over the caller's header: host, header, or the first duplicate. *)
Fixpoint request_fields (d : dialer) (fields : list (bytes * list bytes)) (host : bytes) (h : Header)
    : hs_err + bytes * Header :=
  match fields with
  | [] => inr (host, h)
  | (k, vs) :: fields =>
      if bool_decide (k = str "Host") then request_fields d fields (match vs with v :: _ => v | [] => host end) h
      else if bool_decide (k ∈ [str "Upgrade"; str "Connection"; str "Sec-Websocket-Key"; str "Sec-Websocket-Version";
                                str "Sec-Websocket-Extensions"]) ||
              (bool_decide (k = str "Sec-Websocket-Protocol") && (0 <? len (dl_Subprotocols d)))
      then inl (ErrDuplicateHeader k)
      else request_fields d fields host (<[k := vs]> h)
  end.

(** The request of [DialContext]. *)
Definition dial_request (d : dialer) (challengeKey host : bytes) (fields : list (bytes * list bytes))
    : hs_err + ws_request :=
  let h : Header := ∅ in
  let h := <[str "Upgrade" := [str "websocket"]]> h in
  let h := <[str "Connection" := [str "Upgrade"]]> h in
  let h := <[str "Sec-Websocket-Key" := [challengeKey]]> h in
  let h := <[str "Sec-Websocket-Version" := [str "13"]]> h in
  let h := if 0 <? len (dl_Subprotocols d)
           then <[str "Sec-Websocket-Protocol" := [join_comma (dl_Subprotocols d)]]> h else h in
  match request_fields d fields host h with
  | inl e => inl e
  | inr (host, h) =>
      let h := if dl_enableCompression d then <[str "Sec-Websocket-Extensions" := [extension_offer]]> h else h in
      inr (MkWsRequest (str "GET") h host)
  end.

(** The loop over the extensions of the answer. *)
Fixpoint answer_extensions (exts : list extension) : hs_err + bool :=
  match exts with
  | [] => inr false
  | ext :: exts =>
      if negb (bool_decide (ext !! [] = Some (str "permessage-deflate"))) then answer_extensions exts
      else if bool_decide (is_Some (ext !! str "server_no_context_takeover")) &&
              bool_decide (is_Some (ext !! str "client_no_context_takeover"))
      then inr true else inl ErrInvalidCompression
  end.

(** The checks of the answer: the subprotocol and whether to compress. *)
Definition dial_check (challengeKey : bytes) (StatusCode : Z) (h : Header) : hs_err + bytes * bool :=
  if negb (StatusCode =? 101) ||
     negb (headerContains h (str "Upgrade") (str "websocket")) ||
     negb (headerContains h (str "Connection") (str "upgrade")) ||
     negb (bool_decide (header_get h (str "Sec-Websocket-Accept") = acceptKeyString challengeKey))
  then inl ErrBadHandshake
  else
    match answer_extensions (parseExtensions h) with
    | inl e => inl e
    | inr c => inr (header_get h (str "Sec-Websocket-Protocol"), c)
    end.

(** The sample of RFC 6455. *)
Example accept_sample : acceptKeyString (str "dGhlIHNhbXBsZSBub25jZQ==") = str "s3pPLMBiTxaQ9kYGzzhZRbK+xOo=".
Proof. vm_compute. reflexivity. Qed.
