(* ===== verification/HandshakeProps.v ===== *)
(** * Dialer and upgrader agree

    The reference reading of a comma-separated header value, the answer as a
    list of fields, and the handshake between [Dialer] and [Upgrader]. *)

From Stdlib Require Import ZArith Lia.
From Stdlib Require Import Strings.Byte Strings.String.
From stdpp Require Import base numbers list list_numbers gmap.
From S2P Require Import Prelude GoLib GoCrypto Mempool MempoolFacts MempoolProps Parser ParserMessage.
From S2P Require Import Response ResponseProps Handshake.

Open Scope Z_scope.
Open Scope byte_cmp_scope.

#[local] Arguments isTokenOctet : simpl never.
#[local] Arguments is_blank : simpl never.

(** ** Tokens *)

Definition token (s : bytes) : Prop := s <> [] /\ Forall (fun c => isTokenOctet c = true) s.

(** Facts about all bytes, by trying them. *)
Definition all_bytes : list byte := map z2b (seqZ 0 256).

Lemma all_bytes_in c : c ∈ all_bytes.
Proof.
  unfold all_bytes. apply list_elem_of_In, in_map_iff. exists (b2z c).
  pose proof (b2z_range c). split; [apply z2b_b2z|]. apply list_elem_of_In, elem_of_seqZ. lia.
Qed.

Lemma by_bytes (f : byte -> bool) : forallb f all_bytes = true -> forall c, f c = true.
Proof. rewrite forallb_forall. intros H c. apply H, list_elem_of_In, all_bytes_in. Qed.

Lemma octet_plain c : isTokenOctet c = true ->
  (c =b ",") = false /\ is_blank c = false /\ b2z c <? 0x80 = true /\ IsSpace (b2z c) = false.
Proof.
  pose proof (by_bytes (fun c => negb (isTokenOctet c) ||
    (negb (c =b ",") && negb (is_blank c) && (b2z c <? 0x80) && negb (IsSpace (b2z c))))) as H.
  specialize (H ltac:(by vm_compute) c). cbv beta in H. intros Hc. rewrite Hc in H. cbn [negb orb] in H.
  apply andb_true_iff in H as [H H4]. apply andb_true_iff in H as [H H3]. apply andb_true_iff in H as [H1 H2].
  by rewrite !negb_true_iff in *.
Qed.

(** ** Header values as lists of tokens *)

(** The elements of a value, without the blanks around them. *)
Definition trim_blank (s : bytes) : bytes := trim_right is_blank (drop_while is_blank s).
Definition is_token (s : bytes) : bool := negb (bool_decide (s = [])) && forallb isTokenOctet s.

Lemma is_token_token s : is_token s = true -> token s.
Proof.
  unfold is_token. intros [H1 H2]%andb_true_iff. apply negb_true_iff, bool_decide_eq_false in H1. split; [done|].
  apply Forall_forall. rewrite forallb_forall in H2. intros c Hc. by apply H2, list_elem_of_In.
Qed.

(** The elements up to the first that is no token. *)
Fixpoint token_prefix (l : list bytes) : list bytes :=
  match l with
  | [] => []
  | s :: l => if is_token (trim_blank s) then trim_blank s :: token_prefix l else []
  end.

Definition list_contains (value s : bytes) : bool :=
  existsb (fun t => equalASCIIFold t value) (token_prefix (split_byte "," s)).

Lemma nextToken_app t s :
  Forall (fun c => isTokenOctet c = true) t ->
  match s with c :: _ => isTokenOctet c = false | [] => True end -> nextToken (t ++ s) = (t, s).
Proof.
  intros Ht Hs. induction Ht as [|c t Hc Ht IH]; cbn [app nextToken].
  - destruct s as [|c s]; [done|]. cbn. by rewrite Hs.
  - by rewrite Hc, IH.
Qed.

Lemma nextToken_spec s :
  exists t r, nextToken s = (t, r) /\ s = t ++ r /\ Forall (fun c => isTokenOctet c = true) t /\
    match r with c :: _ => isTokenOctet c = false | [] => True end.
Proof.
  induction s as [|c s (t & r & E & -> & Ht & Hr)]; cbn [nextToken].
  - by exists [], [].
  - rewrite E. destruct (isTokenOctet c) eqn:Ec.
    + exists (c :: t), r. split; [done|]. split; [done|]. split; [by constructor|done].
    + by exists [], (c :: t ++ r).
Qed.

Lemma drop_while_split f s :
  exists p, s = p ++ drop_while f s /\ Forall (fun c => f c = true) p /\
    match drop_while f s with c :: _ => f c = false | [] => True end.
Proof.
  induction s as [|c s (p & E & Hp & Hr)]; cbn [drop_while].
  - by exists [].
  - destruct (f c) eqn:Ec.
    + exists (c :: p). split; [cbn; by f_equal|]. split; [by constructor|done].
    + by exists [].
Qed.

Lemma drop_while_all f p s : Forall (fun c => f c = true) p -> drop_while f (p ++ s) = drop_while f s.
Proof. induction 1 as [|c p Hc Hp IH]; cbn; [done|]. by rewrite Hc. Qed.

Lemma drop_while_stop f s : match s with c :: _ => f c = false | [] => True end -> drop_while f s = s.
Proof. destruct s as [|c s]; [done|]. cbn. by intros ->. Qed.

Lemma trim_right_spec f (t b : bytes) :
  Forall (fun c => f c = true) b -> match rev t with c :: _ => f c = false | [] => True end ->
  trim_right f (t ++ b) = t.
Proof.
  intros Hb Ht. unfold trim_right. rewrite rev_app_distr, drop_while_all by by apply Forall_rev.
  rewrite drop_while_stop by done. apply rev_involutive.
Qed.

(** Cutting off the first element. *)
Lemma split_first e r :
  Forall (fun c => (c =b ",") = false) e ->
  split_byte "," (e ++ r) =
  match r with
  | [] => [e]
  | c :: r' => if c =b "," then e :: split_byte "," r' else split_byte "," (e ++ r)
  end.
Proof.
  intros He. induction He as [|c e Hc He IH].
  - destruct r as [|c r]; [done|]. cbn. by destruct (c =b ",").
  - cbn [app split_byte]. rewrite Hc. destruct r as [|c' r'].
    + rewrite app_nil_r in *. rewrite IH. done.
    + destruct (c' =b ",") eqn:E; [by rewrite IH|done].
Qed.

Lemma blank_not_comma c : is_blank c = true -> (c =b ",") = false.
Proof.
  pose proof (by_bytes (fun c => negb (is_blank c) || negb (c =b ",")) ltac:(by vm_compute) c) as H.
  cbv beta in H. intros Hc. rewrite Hc in H. cbn [negb orb] in H. by apply negb_true_iff.
Qed.

Lemma blank_not_octet c : is_blank c = true -> isTokenOctet c = false.
Proof.
  pose proof (by_bytes (fun c => negb (is_blank c) || negb (isTokenOctet c)) ltac:(by vm_compute) c) as H.
  cbv beta in H. intros Hc. rewrite Hc in H. cbn [negb orb] in H. by apply negb_true_iff.
Qed.

Lemma split_head s :
  exists e l r, split_byte "," s = e :: l /\ s = e ++ r /\ Forall (fun c => (c =b ",") = false) e /\
    (r = [] /\ l = [] \/ exists r', r = ","%byte :: r' /\ l = split_byte "," r').
Proof.
  induction s as [|c s (e & l & r & E & -> & He & Hr)].
  - exists [], [], []. split; [done|]. split; [done|]. split; [constructor|by left].
  - cbn [split_byte]. destruct (c =b ",") eqn:Ec.
    + apply beqb_eq in Ec as ->. exists [], (split_byte "," (e ++ r)), (","%byte :: e ++ r).
      split; [done|]. split; [done|]. split; [constructor|]. right. by exists (e ++ r).
    + rewrite E. exists (c :: e), l, r. split; [done|]. split; [done|]. split; [by constructor|done].
Qed.

Lemma trim_right_split f x : exists b, x = trim_right f x ++ b /\ Forall (fun c => f c = true) b.
Proof.
  destruct (drop_while_split f (rev x)) as (p & E & Hp & _). exists (rev p). split; [|by apply Forall_rev].
  unfold trim_right. rewrite <- rev_app_distr, <- E. by rewrite rev_involutive.
Qed.

(** An element is blanks, a token, blanks, and then something else or nothing. *)
Lemma element_shape e :
  exists b1 t b2 z, e = b1 ++ t ++ b2 ++ z /\ Forall (fun c => is_blank c = true) b1 /\
    Forall (fun c => isTokenOctet c = true) t /\ Forall (fun c => is_blank c = true) b2 /\
    match z with c :: _ => is_blank c = false | [] => True end /\
    (t = [] -> b2 = []) /\ (b2 = [] -> match z with c :: _ => isTokenOctet c = false | [] => True end).
Proof.
  destruct (drop_while_split is_blank e) as (b1 & E1 & Hb1 & Hh1).
  destruct (nextToken_spec (drop_while is_blank e)) as (t & r & _ & E2 & Ht & Hr).
  destruct (drop_while_split is_blank r) as (b2 & E3 & Hb2 & Hh2).
  exists b1, t, b2, (drop_while is_blank r). rewrite <- E3, <- E2. split; [done|]. split; [done|]. split; [done|].
  split; [done|]. split; [done|]. split.
  - intros ->. cbn in E2. rewrite E2 in Hh1. destruct b2 as [|c b2]; [done|]. rewrite E3 in Hh1. cbn in Hh1.
    apply Forall_cons in Hb2 as [Hc _]. congruence.
  - intros ->. cbn in E3. by rewrite <- E3.
Qed.

Lemma skip_blanks b s :
  Forall (fun c => is_blank c = true) b -> match s with c :: _ => is_blank c = false | [] => True end ->
  skipSpace (b ++ s) = s.
Proof. intros Hb Hs. unfold skipSpace. rewrite drop_while_all by done. by apply drop_while_stop. Qed.

Lemma token_last t : Forall (fun c => isTokenOctet c = true) t -> match rev t with c :: _ => is_blank c = false | [] => True end.
Proof.
  intros Ht. apply Forall_rev in Ht. destruct (rev t) as [|c l]; [done|]. apply Forall_cons in Ht as [Hc _].
  by apply octet_plain in Hc as (_ & ? & _).
Qed.

(** The trimmed element is a token exactly when nothing else follows. *)
Lemma element_token b1 t b2 z :
  Forall (fun c => is_blank c = true) b1 -> Forall (fun c => isTokenOctet c = true) t ->
  Forall (fun c => is_blank c = true) b2 -> match z with c :: _ => is_blank c = false | [] => True end ->
  (t = [] -> b2 = []) -> (b2 = [] -> match z with c :: _ => isTokenOctet c = false | [] => True end) ->
  match z with
  | [] => trim_blank (b1 ++ t ++ b2 ++ z) = t
  | _ :: _ => is_token (trim_blank (b1 ++ t ++ b2 ++ z)) = false
  end.
Proof.
  intros H1 Ht H2 Hz Hb Hn. unfold trim_blank. rewrite drop_while_all by done.
  assert (drop_while is_blank (t ++ b2 ++ z) = t ++ b2 ++ z) as ->.
  { apply drop_while_stop. destruct t as [|c t]; cbn; [rewrite Hb by done; done|].
    apply Forall_cons in Ht as [Hc _]. by apply octet_plain in Hc as (_ & ? & _). }
  destruct z as [|c z].
  - rewrite app_nil_r. apply trim_right_spec; [done|]. by apply token_last.
  - destruct (trim_right_split is_blank (t ++ b2 ++ c :: z)) as (bl & E & Hbl).
    assert (exists y, trim_right is_blank (t ++ b2 ++ c :: z) = t ++ b2 ++ c :: y) as [y Ey].
    { remember (trim_right is_blank (t ++ b2 ++ c :: z)) as x eqn:Ex. clear Ex. rewrite app_assoc in E.
      apply app_eq_app in E as (k & [[E1 E2]|[E1 E2]]).
      - destruct k as [|d k].
        + exfalso. cbn in E2. subst bl. apply Forall_cons in Hbl as [Hc _]. congruence.
        + exfalso. subst bl. apply Forall_app in Hbl as [_ Hbl]. apply Forall_cons in Hbl as [Hc _]. congruence.
      - destruct k as [|d k].
        + exfalso. cbn in E2. subst bl. apply Forall_cons in Hbl as [Hc _]. congruence.
        + cbn in E2. injection E2 as <- E2. exists k. by rewrite E1, <- app_assoc. }
    rewrite Ey. unfold is_token. apply andb_false_iff. right. rewrite !forallb_app.
    apply andb_false_iff. right. destruct b2 as [|d b2]; cbn.
    + by rewrite (Hn eq_refl).
    + apply Forall_cons in H2 as [Hd _]. by rewrite (blank_not_octet d Hd).
Qed.

(** The scanner finds a token exactly among the elements of the list, up to the
    first malformed one. *)
Lemma contains_loop_spec value : forall fuel s,
  (length s < fuel)%nat -> contains_loop fuel value s = list_contains value s.
Proof.
  induction fuel as [|fuel IH]; intros s Hf; [lia|]. cbn [contains_loop]. unfold list_contains.
  destruct (split_head s) as (e & l & r & E & -> & He & Hr). rewrite E. cbn [token_prefix].
  destruct (element_shape e) as (b1 & t & b2 & z & -> & H1 & Ht & H2 & Hz & Hb & Hn).
  pose proof (element_token b1 t b2 z H1 Ht H2 Hz Hb Hn) as Htok.
  assert (match r with c :: _ => is_blank c = false /\ isTokenOctet c = false | [] => True end) as Hr0.
  { destruct Hr as [[-> _]|(r' & -> & _)]; done. }
  assert (skipSpace ((b1 ++ t ++ b2 ++ z) ++ r) = t ++ b2 ++ z ++ r) as ->.
  { rewrite <- !app_assoc. apply skip_blanks; [done|]. destruct t as [|c t].
    - rewrite (Hb eq_refl). cbn. destruct z; [by destruct r as [|??]; [|apply Hr0]|done].
    - cbn. apply Forall_cons in Ht as [Hc _]. by apply octet_plain in Hc as (_ & ? & _). }
  rewrite nextToken_app; [|done|]; cycle 1.
  { destruct b2 as [|d b2]; cbn; [destruct z; [by destruct r; [|apply Hr0]|by apply Hn]|].
    apply Forall_cons in H2 as [Hd _]. by apply blank_not_octet. }
  assert (skipSpace (b2 ++ z ++ r) = z ++ r) as ->.
  { apply skip_blanks; [done|]. destruct z; [by destruct r; [|apply Hr0]|done]. }
  destruct t as [|c0 t].
  { assert (is_token (trim_blank (b1 ++ [] ++ b2 ++ z)) = false) as ->; [|done].
    destruct z; [by rewrite Htok|done]. }
  destruct z as [|c z]; cbn [app] in *.
  - rewrite Htok. assert (is_token (c0 :: t) = true) as ->.
    { unfold is_token. cbn [bool_decide]. rewrite bool_decide_eq_false_2 by done. cbn [negb andb].
      apply forallb_forall. intros x Hx. rewrite Forall_forall in Ht. apply Ht. by apply list_elem_of_In. }
    cbn [existsb]. destruct Hr as [[-> ->]|(r' & -> & ->)].
    + cbn. by rewrite orb_false_r.
    + cbn [negb]. change ("," =b ",") with true. cbn [negb]. destruct (equalASCIIFold (c0 :: t) value); [done|].
      rewrite IH; [done|]. rewrite !length_app in Hf. cbn in Hf. lia.
  - rewrite Htok. assert ((c =b ",") = false) as ->; [|done].
    rewrite Forall_forall in He. apply He. clear. set_solver.
Qed.

(** *** Extensions

    The fuel of the two loops of [parseExtensions] is never used up: every round
    takes at least one byte. *)

Lemma skipSpace_len s : (length (skipSpace s) <= length s)%nat.
Proof. unfold skipSpace. induction s as [|c s IH]; cbn; [done|]. destruct (is_blank c); cbn; lia. Qed.

Lemma nextToken_len s : (length (nextToken s).1 + length (nextToken s).2 = length s)%nat.
Proof. destruct (nextToken_spec s) as (t & r & -> & -> & _). by rewrite length_app. Qed.

Lemma quoted_len s : forall acc,
  (length (quoted s acc).2 <= length s)%nat /\ forall esc, (length (quoted_escaped s acc esc).2 <= length s)%nat.
Proof.
  induction s as [|c s IH]; intros acc; cbn; [done|]. split.
  - destruct (c =b DQUOTE); cbn; [lia|]. destruct (c =b BACKSLASH); [|destruct (IH (c :: acc)); lia].
    destruct (IH acc) as [_ H]. specialize (H true). lia.
  - intros esc. destruct esc; [destruct (IH (c :: acc)) as [_ H]; specialize (H false); lia|].
    destruct (c =b BACKSLASH); [destruct (IH acc) as [_ H]; specialize (H true); lia|].
    destruct (c =b DQUOTE); cbn; [lia|]. destruct (IH (c :: acc)) as [_ H]; specialize (H false); lia.
Qed.

Lemma value_len s : (length (nextTokenOrQuoted s).2 <= length s)%nat.
Proof.
  destruct s as [|c s]; [done|]. unfold nextTokenOrQuoted. destruct (c =b DQUOTE).
  - destruct (quoted_len s []) as [H _]. cbn. lia.
  - pose proof (nextToken_len (c :: s)). lia.
Qed.

Lemma ext_params_fuel m : forall n s ext,
  (length s <= m)%nat -> (length s <= n)%nat ->
  ext_params m s ext = ext_params n s ext /\
  (forall e r, ext_params m s ext = Some (e, r) -> (length r <= length s)%nat).
Proof.
  induction m as [|m IH]; intros n s ext Hm Hn; pose proof (skipSpace_len s) as Hs.
  - destruct s; [|cbn in Hm; lia]. destruct n; (split; [done|]); intros e r [= <- <-]; done.
  - destruct n as [|n]; [destruct s; [|cbn in Hn; lia]; split; [done|]; intros e r [= <- <-]; done|].
    cbn [ext_params]. destruct (skipSpace s) as [|c r] eqn:Es; [split; [done|]; intros e r [= <- <-]; cbn; lia|].
    destruct (c =b ";"); [|split; [done|]; intros e r' [= <- <-]; done]. cbn [length] in Hs.
    pose proof (skipSpace_len r) as Hr. pose proof (nextToken_len (skipSpace r)) as Hk.
    destruct (nextToken (skipSpace r)) as [[|k0 k] s1]; cbn [fst snd length] in Hk; [done|].
    assert (exists v s2, match skipSpace s1 with
       | c :: r => if c =b "=" then let '(v, s) := nextTokenOrQuoted (skipSpace r) in (v, skipSpace s) else ([], c :: r)
       | [] => ([], []) end = (v, s2) /\ (length s2 <= length s1)%nat) as (v & s2 & -> & H2).
    { pose proof (skipSpace_len s1) as H1. destruct (skipSpace s1) as [|d r1]; [exists [], []; split; [done|cbn; lia]|].
      destruct (d =b "="); [|eexists _, _; split; [done|exact H1]]. pose proof (skipSpace_len r1) as H3.
      pose proof (value_len (skipSpace r1)) as H4. destruct (nextTokenOrQuoted (skipSpace r1)) as [v s3]. cbn [snd] in H4.
      pose proof (skipSpace_len s3). eexists _, _. split; [done|]. cbn in H1. lia. }
    destruct (IH n s2 (<[k0 :: k := v]> ext) ltac:(lia) ltac:(lia)) as [E Hl].
    destruct s2 as [|d s3]; [|destruct (_ || _); [|done]]; (split; [exact E|]); intros e r' Er; apply Hl in Er; lia.
Qed.

Lemma ext_loop_fuel m : forall n s, (length s < m)%nat -> (length s < n)%nat -> ext_loop m s = ext_loop n s.
Proof.
  induction m as [|m IH]; intros n s Hm Hn; [lia|]. destruct n as [|n]; [lia|]. cbn [ext_loop].
  pose proof (skipSpace_len s) as Hs. pose proof (nextToken_len (skipSpace s)) as Hk.
  destruct (nextToken (skipSpace s)) as [[|t0 t] s1]; cbn [fst snd length] in Hk; [done|].
  destruct (ext_params_fuel (length s1) (length s1) s1 {[[] := t0 :: t]} ltac:(done) ltac:(done)) as [_ Hl].
  destruct (ext_params (length s1) s1 {[[] := t0 :: t]}) as [[ext s2]|]; [|done]. specialize (Hl ext s2 eq_refl).
  destruct s2 as [|c r]; [done|]. destruct (c =b ","); [|done]. f_equal. cbn in Hl. apply IH; lia.
Qed.

(** ** Subprotocols *)

Lemma runes_ascii s :
  Forall (fun c => b2z c <? 0x80 = true) s -> runes (length s) s = map (fun c => (b2z c, [c])) s.
Proof.
  induction 1 as [|c s Hc Hs IH]; [done|]. cbn [length runes map].
  assert (DecodeRune (c :: s) = (b2z c, 1%nat)) as -> by (unfold DecodeRune; by rewrite Hc).
  change (take 1 (c :: s)) with [c]. change (drop 1 (c :: s)) with s. by rewrite IH.
Qed.

Lemma drop_spaces_ascii s :
  drop_spaces (map (fun c => (b2z c, [c])) s) = map (fun c => (b2z c, [c])) (drop_while (fun c => IsSpace (b2z c)) s).
Proof. induction s as [|c s IH]; [done|]. cbn [map drop_spaces drop_while]. by destruct (IsSpace (b2z c)). Qed.

Lemma TrimSpace_ascii s :
  Forall (fun c => b2z c <? 0x80 = true) s ->
  TrimSpace s = trim_right (fun c => IsSpace (b2z c)) (drop_while (fun c => IsSpace (b2z c)) s).
Proof.
  intros Hs. unfold TrimSpace, trim_right. rewrite runes_ascii, drop_spaces_ascii by done.
  rewrite <- map_rev, drop_spaces_ascii, <- map_rev, map_map.
  generalize (rev (drop_while (fun c => IsSpace (b2z c)) (rev (drop_while (fun c => IsSpace (b2z c)) s)))) as l.
  induction l as [|c l IH]; [done|]. cbn [map concat snd app]. by f_equal.
Qed.

(** A string of plain characters between two that are no spaces. *)
Lemma TrimSpace_id s :
  Forall (fun c => b2z c <? 0x80 = true) s -> match s with c :: _ => IsSpace (b2z c) = false | [] => True end ->
  match rev s with c :: _ => IsSpace (b2z c) = false | [] => True end ->
  TrimSpace s = s /\ TrimSpace (SP :: s) = s.
Proof.
  intros Hs H1 H2. assert (trim_right (fun c => IsSpace (b2z c)) s = s) as Ht.
  { rewrite <- (app_nil_r s) at 1. by apply trim_right_spec. }
  rewrite !TrimSpace_ascii by (try constructor; done). split.
  - by rewrite drop_while_stop.
  - cbn [drop_while]. change (IsSpace (b2z SP)) with true. cbv iota. by rewrite drop_while_stop.
Qed.

Lemma octets_plain t :
  Forall (fun c => isTokenOctet c = true) t ->
  Forall (fun c => b2z c <? 0x80 = true) t /\ Forall (fun c => IsSpace (b2z c) = false) t /\
  Forall (fun c => (c =b ",") = false) t.
Proof.
  intros Ht. split; [|split]; (eapply Forall_impl; [exact Ht|]); cbn; intros c Hc; by apply octet_plain in Hc as (? & ? & ? & ?).
Qed.

Lemma token_trim t : token t -> TrimSpace t = t /\ TrimSpace (SP :: t) = t.
Proof.
  intros [_ Ht]. apply octets_plain in Ht as (H1 & H2 & _). apply TrimSpace_id; [done|..].
  - by destruct H2.
  - apply Forall_rev in H2. by destruct H2.
Qed.

Lemma join_split t ds : Forall token (t :: ds) -> split_byte "," (join_comma (t :: ds)) = t :: map (cons SP) ds.
Proof.
  revert t. induction ds as [|d ds IH]; intros t [[_ Ht] Hds]%Forall_cons; apply octets_plain in Ht as (_ & _ & Hc).
  - pose proof (split_first t [] Hc) as H. by rewrite app_nil_r in H.
  - change (join_comma (t :: d :: ds)) with (t ++ ","%byte :: SP :: join_comma (d :: ds)).
    rewrite split_first by done. change ("," =b ",") with true. cbv iota. f_equal.
    specialize (IH d Hds). cbn [split_byte]. change (SP =b ",") with false. cbv iota. by rewrite IH.
Qed.

Lemma join_ends t ds :
  Forall token (t :: ds) ->
  let s := join_comma (t :: ds) in
  Forall (fun c => b2z c <? 0x80 = true) s /\ match s with c :: _ => IsSpace (b2z c) = false | [] => False end /\
  match rev s with c :: _ => IsSpace (b2z c) = false | [] => False end.
Proof.
  cbv zeta. revert t. induction ds as [|d ds IH]; intros t [[Hne Ht] Hds]%Forall_cons.
  - cbn [join_comma]. apply octets_plain in Ht as (H1 & H2 & _). split; [done|]. split; [by destruct H2|].
    destruct (rev t) as [|c l] eqn:E; [apply (f_equal (@rev byte)) in E; rewrite rev_involutive in E; done|].
    apply Forall_rev in H2. rewrite E in H2. by apply Forall_cons in H2 as [? _].
  - destruct (IH d Hds) as (H1 & H2 & H3). apply octets_plain in Ht as (T1 & T2 & _).
    change (join_comma (t :: d :: ds)) with (t ++ str ", " ++ join_comma (d :: ds)). split; [|split].
    + apply Forall_app. split; [done|]. apply Forall_app. split; [repeat constructor|done].
    + destruct t; [done|]. by apply Forall_cons in T2 as [? _].
    + rewrite !rev_app_distr. destruct (rev (join_comma (d :: ds))); done.
Qed.

(** The server reads back the list the client joined. *)
Lemma subprotocols_join (h : Header) ds :
  Forall token ds -> ds <> [] -> h !! str "Sec-Websocket-Protocol" = Some [join_comma ds] -> subprotocols h = ds.
Proof.
  intros Hds Hne Hh. destruct ds as [|t ds]; [done|]. unfold subprotocols, header_get.
  assert (CanonicalHeaderKey (str "Sec-Websocket-Protocol") = str "Sec-Websocket-Protocol") as -> by by vm_compute.
  rewrite Hh. destruct (join_ends t ds Hds) as (H1 & H2 & H3).
  destruct (TrimSpace_id (join_comma (t :: ds)) H1) as [-> _].
  - by destruct (join_comma (t :: ds)).
  - by destruct (rev (join_comma (t :: ds))).
  - destruct (join_comma (t :: ds)) as [|c l] eqn:E; [done|]. rewrite <- E, join_split by done.
    apply Forall_cons in Hds as [Ht Hds]. cbn [map]. rewrite (proj1 (token_trim t Ht)). f_equal. rewrite map_map.
    clear -Hds. induction Hds as [|d ds Hd Hds IH]; [done|]. cbn [map]. by rewrite (proj2 (token_trim d Hd)), IH.
Qed.

(** ** What the upgrader lets through *)

Definition header_has (h : Header) (name value : bytes) : bool :=
  existsb (list_contains value) (default [] (h !! name)).

Lemma headerContains_spec h name value : headerContains h name value = header_has h name value.
Proof.
  unfold headerContains, header_has. induction (default [] (h !! name)) as [|s l IH]; [done|]. cbn [existsb].
  by rewrite IH, contains_loop_spec by lia.
Qed.

(** The conditions of an upgrade, in the order in which they are checked. *)
Definition conditions (parse_host : bytes -> option bytes) (u : upgrader) (r : ws_request) (rh : option Header)
    : list (bool * (Z * hs_err)) :=
  [(header_has (wr_Header r) (str "Connection") (str "upgrade"), (400, ErrUpgradeTokenNotFound));
   (header_has (wr_Header r) (str "Upgrade") (str "websocket"), (400, ErrUpgradeTokenNotFound));
   (bool_decide (wr_Method r = str "GET"), (405, ErrUpgradeMethodIsGet));
   (header_has (wr_Header r) (str "Sec-Websocket-Version") (str "13"), (400, ErrUpgradeInvalidWebsocketVersion));
   (bool_decide (default ∅ rh !! str "Sec-Websocket-Extensions" = None), (500, ErrUpgradeUnsupportedExtensions));
   (default (checkSameOrigin parse_host) (up_CheckOrigin u) r, (403, ErrUpgradeOriginNotAllowed));
   (negb (bool_decide (header_get (wr_Header r) (str "Sec-Websocket-Key") = [])), (400, ErrUpgradeMissingWebsocketKey))].

(** The first condition that fails decides the answer. *)
Fixpoint first_failed {X} (l : list (bool * X)) : option X :=
  match l with
  | [] => None
  | (b, x) :: l => if b then first_failed l else Some x
  end.

Lemma select_offered u r rh ps :
  up_Subprotocols u = Some ps -> selectSubprotocol u r rh <> [] ->
  selectSubprotocol u r rh ∈ ps /\ selectSubprotocol u r rh ∈ subprotocols (wr_Header r).
Proof.
  intros Hu. unfold selectSubprotocol. rewrite Hu.
  destruct (list_find _ ps) as [[i p]|] eqn:E; cbn; [|done]. intros _.
  apply list_find_Some in E as (Hi & Hp & _). split; [by eapply list_elem_of_lookup_2|done].
Qed.

(** The upgrader answers an upgrade request by the first of its conditions
    that fails, with the status of that condition, where a header value is read
    as a comma-separated list of tokens, compared without regard to case, up to
    its first malformed element.  When all hold, the key is the client's and not
    empty, compression is agreed on only if it is enabled and offered, and a
    subprotocol chosen from the server's list is one the client offered. *)
Theorem upgrade_checked (parse_host : bytes -> option bytes) (u : upgrader) (r : ws_request) (rh : option Header) :
  match first_failed (conditions parse_host u r rh) with
  | Some err => commCheck parse_host u r rh = inl err
  | None =>
      exists ck sp comp, commCheck parse_host u r rh = inr (ck, sp, comp) /\
        ck = header_get (wr_Header r) (str "Sec-Websocket-Key") /\ ck <> [] /\
        (comp = true -> up_enableCompression u = true /\
           exists ext, ext ∈ parseExtensions (wr_Header r) /\ ext !! [] = Some (str "permessage-deflate")) /\
        (forall ps, up_Subprotocols u = Some ps -> sp <> [] -> sp ∈ ps /\ sp ∈ subprotocols (wr_Header r))
  end.
Proof.
  unfold commCheck, conditions. rewrite !headerContains_spec. cbn [first_failed].
  destruct (header_has _ (str "Connection") _); cbn [negb]; [|done].
  destruct (header_has _ (str "Upgrade") _); cbn [negb]; [|done].
  destruct (bool_decide (wr_Method r = _)); cbn [negb]; [|done].
  destruct (header_has _ (str "Sec-Websocket-Version") _); cbn [negb]; [|done].
  destruct (default ∅ rh !! str "Sec-Websocket-Extensions") as [v|].
  { rewrite (bool_decide_eq_false_2 (Some v = None)) by done. by rewrite (bool_decide_eq_true_2 (is_Some (Some v))). }
  rewrite (bool_decide_eq_false_2 (is_Some None)) by (by intros [? ?]). rewrite bool_decide_eq_true_2 by done.
  destruct (default _ (up_CheckOrigin u) r); cbn [negb]; [|done].
  destruct (bool_decide_reflect (header_get (wr_Header r) (str "Sec-Websocket-Key") = [])) as [Hk|Hk]; cbn [negb]; [done|].
  eexists _, _, _. split; [reflexivity|]. split; [done|]. split; [done|]. split; [|intros ps; apply select_offered].
  intros [He Hx]%andb_true_iff. split; [done|]. apply existsb_exists in Hx as (ext & Hin & Hd).
  exists ext. split; [by apply list_elem_of_In|]. by apply bool_decide_eq_true in Hd.
Qed.

(** ** The answer as fields *)

Definition answer_fields (fields : list (bytes * list bytes)) (ck sp : bytes) (comp : bool) : list (bytes * bytes) :=
  [(str "Upgrade", str "websocket"); (str "Connection", str "Upgrade"); (str "Sec-WebSocket-Accept", acceptKeyBytes ck)] ++
  (if bool_decide (sp = []) then [] else [(str "Sec-WebSocket-Protocol", sp)]) ++
  (if comp then [(str "Sec-WebSocket-Extensions", extension_offer)] else []) ++
  concat (map (fun kv : bytes * list bytes =>
    if bool_decide (kv.1 = str "Sec-Websocket-Protocol") then []
    else map (fun v => (kv.1, map sanitize v)) kv.2) fields).

Lemma concat_singles (v : bytes) : concat (map (fun b => [sanitize b]) v) = map sanitize v.
Proof. induction v as [|b v IH]; [done|]. cbn. by rewrite IH. Qed.

Lemma values_text k vs :
  concat (concat (map (fun v : bytes => [k; str ": "] ++ map (fun b => [sanitize b]) v ++ [CRLF]) vs))
  = concat (map encode_field (map (fun v => (k, map sanitize v)) vs)).
Proof.
  induction vs as [|v vs IH]; [done|]. cbn [map concat]. rewrite concat_app, IH. f_equal.
  unfold encode_field. cbn [fst snd]. rewrite !concat_app, concat_singles. cbn [concat].
  rewrite ?app_nil_r, <- ?app_assoc. reflexivity.
Qed.

Lemma comm_text fields ck sp comp :
  concat (comm_pieces fields ck sp comp) =
  str "HTTP/1.1 101 Switching Protocols" ++ crlf ++ concat (map encode_field (answer_fields fields ck sp comp)) ++ crlf.
Proof.
  unfold comm_pieces, answer_fields.
  rewrite !map_app, !concat_app. cbn [concat map]. rewrite !app_nil_r.
  assert (concat (concat (map (fun kv : bytes * list bytes =>
      if bool_decide (kv.1 = str "Sec-Websocket-Protocol") then []
      else concat (map (fun v : bytes => [kv.1; str ": "] ++ map (fun b => [sanitize b]) v ++ [CRLF]) kv.2)) fields))
    = concat (map encode_field (concat (map (fun kv : bytes * list bytes =>
      if bool_decide (kv.1 = str "Sec-Websocket-Protocol") then []
      else map (fun v => (kv.1, map sanitize v)) kv.2) fields)))) as ->.
  { induction fields as [|kv fields IH]; [done|]. cbn [map concat]. rewrite map_app, !concat_app, IH. f_equal.
    destruct (bool_decide _); [done|]. apply values_text. }
  generalize (concat (map encode_field (concat (map (fun kv : bytes * list bytes =>
      if bool_decide (kv.1 = str "Sec-Websocket-Protocol") then []
      else map (fun v => (kv.1, map sanitize v)) kv.2) fields)))) as rest. intros rest.
  unfold encode_field. cbn [fst snd]. rewrite <- !app_assoc.
  destruct (bool_decide (sp = [])), comp; cbn [map concat app fst snd]; rewrite ?app_nil_r, <- ?app_assoc; cbn [app];
    rewrite <- ?app_assoc; reflexivity.
Qed.

(** ** The client's view of the answer *)

Definition header_from (fs : list (bytes * bytes)) : Header := foldl (fun h kv => header_add h kv.1 kv.2) ∅ fs.

Definition field_values (k : bytes) (fs : list (bytes * bytes)) : list bytes :=
  (filter (fun kv => CanonicalHeaderKey kv.1 = k) fs).*2.

Lemma field_values_app k fs gs : field_values k (fs ++ gs) = field_values k fs ++ field_values k gs.
Proof. unfold field_values. by rewrite filter_app, fmap_app. Qed.

Lemma field_values_one k a v : field_values k [(a, v)] = if bool_decide (CanonicalHeaderKey a = k) then [v] else [].
Proof. unfold field_values. rewrite filter_cons. cbn [fst]. destruct (decide (CanonicalHeaderKey a = k)); [by rewrite bool_decide_eq_true_2|by rewrite bool_decide_eq_false_2]. Qed.

Lemma header_from_lookup k fs : default [] (header_from fs !! k) = field_values k fs.
Proof.
  unfold header_from. assert (forall h : Header, default [] (foldl (fun h kv => header_add h kv.1 kv.2) h fs !! k)
    = default [] (h !! k) ++ field_values k fs) as H; [|by rewrite H].
  induction fs as [|[a v] fs IH]; intros h; cbn [foldl fst snd].
  - by rewrite app_nil_r.
  - rewrite IH. unfold field_values, header_add. rewrite filter_cons. cbn [fst snd].
    destruct (decide (CanonicalHeaderKey a = k)) as [<- |Hne].
    + rewrite lookup_insert_eq. cbn. by rewrite <- app_assoc.
    + by rewrite lookup_insert_ne.
Qed.

Lemma header_from_get k fs : CanonicalHeaderKey k = k -> header_get (header_from fs) k = default [] (head (field_values k fs)).
Proof.
  intros Hk. unfold header_get. rewrite Hk, <- header_from_lookup.
  destruct (header_from fs !! k) as [[|v vs]|]; done.
Qed.

(** A server's own fields do not speak of the subprotocol or of extensions,
    except for the field the upgrader reads. *)
Definition extra_ok (kv : bytes * list bytes) : bool :=
  bool_decide (kv.1 = str "Sec-Websocket-Protocol") ||
  negb (bool_decide (CanonicalHeaderKey kv.1 ∈ [str "Sec-Websocket-Protocol"; str "Sec-Websocket-Extensions"])).

Definition extra_fields (fields : list (bytes * list bytes)) : list (bytes * bytes) :=
  concat (map (fun kv : bytes * list bytes =>
    if bool_decide (kv.1 = str "Sec-Websocket-Protocol") then []
    else map (fun v => (kv.1, map sanitize v)) kv.2) fields).

Lemma extra_values k fields :
  k ∈ [str "Sec-Websocket-Protocol"; str "Sec-Websocket-Extensions"] ->
  forallb extra_ok fields = true -> field_values k (extra_fields fields) = [].
Proof.
  intros Hk. unfold extra_fields. induction fields as [|[a vs] fields IH]; [done|]. cbn [forallb map concat fst snd].
  intros [H1 H2]%andb_true_iff. rewrite field_values_app, IH, app_nil_r by done. unfold extra_ok in H1. cbn [fst] in H1.
  destruct (bool_decide (a = str "Sec-Websocket-Protocol")); [done|]. cbn [orb] in H1.
  apply negb_true_iff, bool_decide_eq_false in H1. unfold field_values.
  induction vs as [|v vs IHv]; [done|]. cbn [map]. rewrite filter_cons. cbn [fst].
  rewrite decide_False by congruence. exact IHv.
Qed.

Lemma answer_values k fields ck sp comp :
  field_values k (answer_fields fields ck sp comp) =
  field_values k [(str "Upgrade", str "websocket")] ++ field_values k [(str "Connection", str "Upgrade")] ++
  field_values k [(str "Sec-WebSocket-Accept", acceptKeyBytes ck)] ++
  field_values k (if bool_decide (sp = []) then [] else [(str "Sec-WebSocket-Protocol", sp)]) ++
  field_values k (if comp then [(str "Sec-WebSocket-Extensions", extension_offer)] else []) ++
  field_values k (extra_fields fields).
Proof.
  unfold answer_fields. rewrite !field_values_app.
  change [(str "Upgrade", str "websocket"); (str "Connection", str "Upgrade"); (str "Sec-WebSocket-Accept", acceptKeyBytes ck)]
    with ([(str "Upgrade", str "websocket")] ++ [(str "Connection", str "Upgrade")] ++ [(str "Sec-WebSocket-Accept", acceptKeyBytes ck)]).
  rewrite !field_values_app, <- !app_assoc. done.
Qed.

Lemma contains_first (h : Header) name value v vs :
  default [] (h !! name) = v :: vs -> contains_loop (S (length v)) value v = true -> headerContains h name value = true.
Proof. intros H Hv. unfold headerContains. rewrite H. cbn [existsb]. by rewrite Hv. Qed.

Ltac canonical := vm_compute; reflexivity.

(** The comparisons of known field names, by evaluation. *)
Ltac known_fields :=
  repeat match goal with
  | |- context [bool_decide (CanonicalHeaderKey ?a = ?k)] =>
      first [ replace (bool_decide (CanonicalHeaderKey a = k)) with true by canonical
            | replace (bool_decide (CanonicalHeaderKey a = k)) with false by canonical ]
  end; cbv iota.

Lemma answer_upgrade fields ck sp comp :
  exists vs, field_values (str "Upgrade") (answer_fields fields ck sp comp) = str "websocket" :: vs.
Proof. rewrite answer_values, field_values_one. known_fields. by eexists. Qed.

Lemma answer_connection fields ck sp comp :
  exists vs, field_values (str "Connection") (answer_fields fields ck sp comp) = str "Upgrade" :: vs.
Proof. rewrite answer_values, !field_values_one. known_fields. by eexists. Qed.

Lemma answer_accept fields ck sp comp :
  exists vs, field_values (str "Sec-Websocket-Accept") (answer_fields fields ck sp comp) = acceptKeyBytes ck :: vs.
Proof. rewrite answer_values, !field_values_one. known_fields. by eexists. Qed.

Lemma answer_protocol fields ck sp comp :
  forallb extra_ok fields = true ->
  field_values (str "Sec-Websocket-Protocol") (answer_fields fields ck sp comp) = if bool_decide (sp = []) then [] else [sp].
Proof.
  intros Hx. rewrite answer_values, extra_values, !field_values_one by (done || set_solver).
  destruct (bool_decide (sp = [])), comp; rewrite ?field_values_one; known_fields; reflexivity.
Qed.

Lemma answer_exts fields ck sp comp :
  forallb extra_ok fields = true ->
  field_values (str "Sec-Websocket-Extensions") (answer_fields fields ck sp comp) = if comp then [extension_offer] else [].
Proof.
  intros Hx. rewrite answer_values, extra_values, !field_values_one by (done || set_solver).
  destruct (bool_decide (sp = [])), comp; rewrite ?field_values_one; known_fields; reflexivity.
Qed.

Lemma client_accepts fields ck sp comp :
  forallb extra_ok fields = true ->
  dial_check ck 101 (header_from (answer_fields fields ck sp comp)) = inr (sp, comp).
Proof.
  intros Hx. unfold dial_check.
  destruct (answer_upgrade fields ck sp comp) as [v1 E1]. rewrite <- header_from_lookup in E1.
  destruct (answer_connection fields ck sp comp) as [v2 E2]. rewrite <- header_from_lookup in E2.
  destruct (answer_accept fields ck sp comp) as [v3 E3].
  rewrite (contains_first _ _ (str "websocket") _ _ E1) by canonical.
  rewrite (contains_first _ _ (str "upgrade") _ _ E2) by canonical.
  rewrite !header_from_get by canonical. rewrite E3. cbn [head default].
  rewrite (bool_decide_eq_true_2 (acceptKeyBytes ck = acceptKeyString ck)) by done. cbn [Z.eqb negb orb].
  unfold parseExtensions. rewrite header_from_lookup, answer_exts, answer_protocol by done.
  assert (default [] (head (if bool_decide (sp = []) then [] else [sp])) = sp) as -> by by case_bool_decide.
  destruct comp; [|done].
  assert (answer_extensions (concat (map (fun s => ext_loop (S (length s)) s) [extension_offer])) = inr true) as -> by canonical.
  done.
Qed.

(** ** The server's view of the request *)

Definition reserved : list bytes :=
  [str "Upgrade"; str "Connection"; str "Sec-Websocket-Key"; str "Sec-Websocket-Version"; str "Sec-Websocket-Extensions"].

Lemma request_fields_keep d fields : forall host h host' h' k,
  request_fields d fields host h = inr (host', h') ->
  k ∈ reserved \/ (k = str "Sec-Websocket-Protocol" /\ dl_Subprotocols d <> []) -> h' !! k = h !! k.
Proof.
  induction fields as [|[a vs] fields IH]; intros host h host' h' k E Hk; cbn [request_fields] in E.
  - by injection E as _ <-.
  - destruct (bool_decide_reflect (a = str "Host")) as [_|_]; [by eapply IH|].
    destruct (_ || _) eqn:Ed; [done|]. apply orb_false_iff in Ed as [E1 E2]. apply bool_decide_eq_false in E1.
    rewrite (IH _ _ _ _ k E Hk). apply lookup_insert_ne. intros <-. destruct Hk as [Hk|[-> Hs]]; [done|].
    rewrite bool_decide_eq_true_2 in E2 by done. cbn [andb] in E2. apply Z.ltb_ge in E2.
    destruct (dl_Subprotocols d); [done|]. unfold len in E2. cbn in E2. lia.
Qed.

Lemma canonical_key (k : bytes) : CanonicalHeaderKey k = k -> forall (h : Header) v, h !! k = Some [v] -> header_get h k = v.
Proof. intros Hk h v Hh. unfold header_get. by rewrite Hk, Hh. Qed.

Lemma dial_header d ck host fields r :
  dial_request d ck host fields = inr r ->
  wr_Method r = str "GET" /\ wr_Header r !! str "Upgrade" = Some [str "websocket"] /\
  wr_Header r !! str "Connection" = Some [str "Upgrade"] /\ wr_Header r !! str "Sec-Websocket-Key" = Some [ck] /\
  wr_Header r !! str "Sec-Websocket-Version" = Some [str "13"] /\
  wr_Header r !! str "Sec-Websocket-Extensions" = (if dl_enableCompression d then Some [extension_offer] else None) /\
  (dl_Subprotocols d <> [] -> wr_Header r !! str "Sec-Websocket-Protocol" = Some [join_comma (dl_Subprotocols d)]).
Proof.
  unfold dial_request. cbv zeta. set (h0 := if 0 <? len (dl_Subprotocols d) then _ else _).
  destruct (request_fields d fields host h0) as [e|[host' h']] eqn:E; [done|]. intros [= <-].
  assert (forall k, k ∈ reserved -> h' !! k = h0 !! k) as Hk by (intros k Hk; eapply request_fields_keep; eauto).
  assert (h0 !! str "Upgrade" = Some [str "websocket"] /\ h0 !! str "Connection" = Some [str "Upgrade"] /\
    h0 !! str "Sec-Websocket-Key" = Some [ck] /\ h0 !! str "Sec-Websocket-Version" = Some [str "13"] /\
    h0 !! str "Sec-Websocket-Extensions" = None) as (E1 & E2 & E3 & E4 & E5).
  { unfold h0. destruct (0 <? len (dl_Subprotocols d)); vm_compute; done. }
  assert (forall k, k <> str "Sec-Websocket-Extensions" ->
    (if dl_enableCompression d then <[str "Sec-Websocket-Extensions":=[extension_offer]]> h' else h') !! k = h' !! k) as Hne.
  { intros k Hk'. destruct (dl_enableCompression d); [by apply lookup_insert_ne|done]. }
  cbn [wr_Method wr_Header]. rewrite !Hne by done.
  assert (str "Upgrade" ∈ reserved /\ str "Connection" ∈ reserved /\ str "Sec-Websocket-Key" ∈ reserved /\
    str "Sec-Websocket-Version" ∈ reserved /\ str "Sec-Websocket-Extensions" ∈ reserved) as (R1 & R2 & R3 & R4 & R5).
  { unfold reserved. set_solver. }
  rewrite !Hk, E1, E2, E3, E4 by done. split; [done|]. split; [done|]. split; [done|]. split; [done|]. split; [done|].
  split.
  - destruct (dl_enableCompression d); [by rewrite lookup_insert_eq|]. by rewrite Hk.
  - intros Hs. rewrite Hne by done. rewrite (request_fields_keep d fields host h0 host' h' _ E) by auto. unfold h0.
    assert (0 <? len (dl_Subprotocols d) = true) as ->; [|by rewrite lookup_insert_eq].
    destruct (dl_Subprotocols d); [done|]. apply Z.ltb_lt. unfold len. cbn. lia.
Qed.

Section agreement.
Context (parse_host : bytes -> option bytes).
Context {A : Type} `{!Allocator A} `{!AllocatorLaws A} (iter : Header -> list (bytes * list bytes)).

(** C23: a dialer and an upgrader agree.  The request of a dialer with a challenge
    key passes the upgrader's checks when its origin is allowed and the server's
    own header speaks of subprotocols and extensions in no field but
    Sec-Websocket-Protocol; they use compression exactly when both enable it; with
    subprotocols on both sides the upgrader takes the first of its own that the
    dialer offers, and without any of its own it takes the value of
    Sec-Websocket-Protocol of the server's header, as it is.  The answer, which
    the connection takes, is a status line and a list of fields; in the values of
    the server's own header no control byte survives, except that the
    subprotocol is not sanitised ([subprotocol_splits_response]); the buffer it was
    built in goes back; and the dialer's checks accept these fields and come to
    the same subprotocol and the same compression. *)
Theorem handshake_agrees (d : dialer) (u : upgrader) (ck host : bytes) (fields : list (bytes * list bytes))
    (r : ws_request) (rh : option Header) (a : A) (live : gset nat) :
  dial_request d ck host fields = inr r -> ck <> [] ->
  default (checkSameOrigin parse_host) (up_CheckOrigin u) r = true ->
  default ∅ rh !! str "Sec-Websocket-Extensions" = None ->
  forallb extra_ok (iter (default ∅ rh)) = true -> alloc_inv a live ->
  exists sp a', let comp := up_enableCompression u && dl_enableCompression d in
    commCheck parse_host u r rh = inr (ck, sp, comp) /\
    (forall ps, up_Subprotocols u = Some ps -> dl_Subprotocols d <> [] -> Forall token (dl_Subprotocols d) ->
      sp = default [] (list_find (fun p => p ∈ dl_Subprotocols d) ps ≫= fun ip => Some ip.2)) /\
    (up_Subprotocols u = None -> sp = header_get (default ∅ rh) (str "Sec-Websocket-Protocol")) /\
    commResponse iter rh ck sp comp None a =
      Some (str "HTTP/1.1 101 Switching Protocols" ++ crlf ++
            concat (map encode_field (answer_fields (iter (default ∅ rh)) ck sp comp)) ++ crlf, None, false, a') /\
    alloc_inv a' live /\
    Forall (fun kv => Forall (fun c => 32 <= b2z c) kv.2) (extra_fields (iter (default ∅ rh))) /\
    dial_check ck 101 (header_from (answer_fields (iter (default ∅ rh)) ck sp comp)) = inr (sp, comp).
Proof.
  intros Hr Hck Horig Hext Hx Ha. destruct (dial_header d ck host fields r Hr) as (Hm & H1 & H2 & H3 & H4 & H5 & H6).
  set (sp := selectSubprotocol u r rh). cbv zeta. set (comp := up_enableCompression u && dl_enableCompression d).
  assert (commCheck parse_host u r rh = inr (ck, sp, comp)) as Hc.
  { unfold commCheck. rewrite (contains_first _ (str "Connection") (str "upgrade") (str "Upgrade") []) by (by rewrite H2 || canonical).
    rewrite (contains_first _ (str "Upgrade") (str "websocket") (str "websocket") []) by (by rewrite H1 || canonical).
    rewrite (contains_first _ (str "Sec-Websocket-Version") (str "13") (str "13") []) by (by rewrite H4 || canonical).
    rewrite Hm, Hext, Horig. rewrite (canonical_key (str "Sec-Websocket-Key") ltac:(canonical) _ _ H3).
    rewrite (bool_decide_eq_false_2 (ck = [])) by done. cbn [negb].
    rewrite bool_decide_eq_true_2 by done. rewrite (bool_decide_eq_false_2 (is_Some None)) by (by intros [? ?]).
    cbn [negb]. fold sp. do 2 f_equal. unfold comp, parseExtensions. rewrite H5.
    destruct (up_enableCompression u); [|done]. cbn [andb]. destruct (dl_enableCompression d); vm_compute; reflexivity. }
  destruct (malloc_zero a live 1024 Ha ltac:(lia)) as (p0 & a1 & p & E1 & E2 & Hp & Dp).
  destruct (append_all_ok (comm_pieces (iter (default ∅ rh)) ck sp comp) p a1 live Hp) as (p2 & a2 & E3 & Hp2 & D2).
  destruct (free_one a2 live p2 Hp2) as (a3 & E4 & Ha3).
  exists sp, a3. split; [done|]. split; [|split; [|split; [|split; [done|split; [|by apply client_accepts]]]]].
  - intros ps Hps Hne Htok. unfold sp, selectSubprotocol. rewrite Hps.
    by rewrite (subprotocols_join _ _ Htok Hne (H6 Hne)).
  - intros Hn. unfold sp, selectSubprotocol. rewrite Hn. by destruct rh.
  - unfold commResponse. rewrite E1. cbn [mbind option_bind]. rewrite E2. cbn [mbind option_bind]. rewrite E3.
    cbn [mbind option_bind]. rewrite E4. cbn [mbind option_bind]. by rewrite D2, Dp, <- comm_text.
  - clear. unfold extra_fields. induction (iter (default ∅ rh)) as [|[k vs] l IH]; [constructor|]. cbn [map concat].
    apply Forall_app. split; [|done]. cbn [fst snd]. destruct (bool_decide _); [constructor|].
    apply Forall_forall. intros [k' v'] (v & [= -> ->] & _)%list_elem_of_fmap. cbn [snd].
    apply Forall_forall. intros c (b & -> & _)%list_elem_of_fmap. unfold sanitize.
    destruct (Z.leb_spec (b2z b) 31); [by vm_compute|lia].
Qed.
End agreement.

Section witness.
#[local] Instance hs_allocator : Allocator aligned := aligned_allocator (fun _ => Some 0%nat).
#[local] Instance hs_laws : AllocatorLaws aligned := aligned_laws (fun _ => Some 0%nat).

Definition hs_dialer : dialer := MkDialer [str "chat"; str "superchat"] true.
Definition hs_upgrader : upgrader := MkUpgrader None (Some [str "v2"; str "superchat"; str "chat"]) true.
Definition hs_host (o : bytes) : option bytes :=
  if bool_decide (take 7 o = str "http://") then Some (drop 7 o) else None.
Definition hs_iter (h : Header) : list (bytes * list bytes) := map_to_list h.
Definition hs_key : bytes := str "dGhlIHNhbXBsZSBub25jZQ==".
Definition hs_rh : option Header := Some {[str "X-Note" := [str "a" ++ CRLF ++ str "b"]]}.

Definition hs_dial : hs_err + ws_request :=
  dial_request hs_dialer hs_key (str "example.com") [(str "Origin", [str "http://Example.com"])].
Definition hs_req : ws_request := match hs_dial with inr r => r | inl _ => MkWsRequest [] ∅ [] end.

Lemma hs_req_ok : hs_dial = inr hs_req.
Proof.
  assert (match hs_dial with inr _ => true | inl _ => false end = true) as H by (vm_compute; reflexivity).
  unfold hs_req. destruct hs_dial; [discriminate|reflexivity].
Qed.

(** A request from the same origin, with two subprotocols; the server's own
    header tries to smuggle a line end into a value. *)
Lemma handshake_agrees_witness :
  exists sp (a' : aligned),
    commCheck hs_host hs_upgrader hs_req hs_rh = inr (hs_key, sp, true) /\
    sp = str "superchat" /\
    (fst ∘ fst ∘ fst) <$> commResponse (A := aligned) hs_iter hs_rh hs_key sp true None newAligned =
      Some (str "HTTP/1.1 101 Switching Protocols" ++ CRLF ++ str "Upgrade: websocket" ++ CRLF ++
        str "Connection: Upgrade" ++ CRLF ++ str "Sec-WebSocket-Accept: s3pPLMBiTxaQ9kYGzzhZRbK+xOo=" ++ CRLF ++
        str "Sec-WebSocket-Protocol: superchat" ++ CRLF ++
        str "Sec-WebSocket-Extensions: permessage-deflate; server_no_context_takeover; client_no_context_takeover" ++ CRLF ++
        str "X-Note: a  b" ++ CRLF ++ CRLF) /\
    alloc_inv a' ∅.
Proof.
  destruct (handshake_agrees (A := aligned) hs_host hs_iter hs_dialer hs_upgrader hs_key (str "example.com")
    [(str "Origin", [str "http://Example.com"])] hs_req hs_rh newAligned ∅ hs_req_ok) as (sp & a' & H1 & H2 & _ & H3 & H4 & _).
  - done.
  - vm_compute. reflexivity.
  - vm_compute. reflexivity.
  - vm_compute. reflexivity.
  - exact aligned_inv_new.
  - assert (sp = str "superchat") as ->.
    { rewrite (H2 _ eq_refl ltac:(done)); [vm_compute; reflexivity|].
      apply Forall_cons; split; [|apply Forall_cons; split; [|constructor]]; apply is_token_token; vm_compute; reflexivity. }
    exists (str "superchat"), a'. split; [exact H1|]. split; [done|]. split; [vm_compute; reflexivity|exact H4].
Defined.

(** Without subprotocols of its own the upgrader copies the value of the server's
    header: a line end in it ends the field and begins the next. *)
Definition split_rh : option Header := Some {[str "Sec-Websocket-Protocol" := [str "chat" ++ CRLF ++ str "Set-Cookie: a=b"]]}.

Lemma subprotocol_splits_response :
  let u := MkUpgrader None None true in
  exists sp, commCheck hs_host u hs_req split_rh = inr (hs_key, sp, true) /\
    (fst ∘ fst ∘ fst) <$> commResponse (A := aligned) hs_iter split_rh hs_key sp false None newAligned =
      Some (str "HTTP/1.1 101 Switching Protocols" ++ CRLF ++ str "Upgrade: websocket" ++ CRLF ++
        str "Connection: Upgrade" ++ CRLF ++ str "Sec-WebSocket-Accept: s3pPLMBiTxaQ9kYGzzhZRbK+xOo=" ++ CRLF ++
        str "Sec-WebSocket-Protocol: chat" ++ CRLF ++ str "Set-Cookie: a=b" ++ CRLF ++ CRLF).
Proof. eexists. split; vm_compute; reflexivity. Qed.
End witness.
