(* ===== verification/Timer.v ===== *)
(** * Deferred calls (src/timer/timer.go)

    [Async] hands a function to one goroutine that runs the functions in order
    and ends when the list is empty.  Callers and goroutines interleave; a step
    is a critical section of [asyncMux] or the end of a function.  Functions
    are numbers, and one that panics is recovered, so it ends like another. *)

From Stdlib Require Import ZArith Lia.
From stdpp Require Import base numbers list list_numbers.
From S2P Require Import Prelude.

(** A goroutine of [Async]: before the critical section with index [i], or
    inside the function [f]. *)
Inductive async_pc := ATake (i : nat) | ARun (i : nat) (f : nat).

(** [t_given], [t_started] and [t_ended] are the history of calls. *)
Record timer := MkTimer {
  asyncList : list nat;
  t_runners : list async_pc;
  t_given : list nat;
  t_started : list nat;
  t_ended : list nat
}.

Definition NewTimer : timer := MkTimer [] [] [] [] [].

Definition Async (f : nat) (t : timer) : timer :=
  let isHead := bool_decide (asyncList t = []) in
  MkTimer (asyncList t ++ [f]) (if isHead then t_runners t ++ [ATake 0] else t_runners t) (t_given t ++ [f])
    (t_started t) (t_ended t).

(** The critical section of goroutine [n]; [None] is an index out of range. *)
Definition async_take (n i : nat) (t : timer) : option timer :=
  if bool_decide (i = length (asyncList t))
  then Some (MkTimer [] (delete n (t_runners t)) (t_given t) (t_started t) (t_ended t))
  else
    f ← asyncList t !! i;
    Some (MkTimer (asyncList t) (<[n := ARun (S i) f]> (t_runners t)) (t_given t) (t_started t ++ [f]) (t_ended t)).

Definition async_end (n i f : nat) (t : timer) : timer :=
  MkTimer (asyncList t) (<[n := ATake i]> (t_runners t)) (t_given t) (t_started t) (t_ended t ++ [f]).

Inductive tlabel := TAsync (f : nat) | TStep (n : nat).

Definition texec (x : tlabel) (t : timer) : option timer :=
  match x with
  | TAsync f => Some (Async f t)
  | TStep n =>
      match t_runners t !! n with
      | Some (ATake i) => async_take n i t
      | Some (ARun i f) => Some (async_end n i f t)
      | None => None
      end
  end.

Fixpoint trun (xs : list tlabel) (t : timer) : option timer :=
  match xs with
  | [] => Some t
  | x :: xs => t ← texec x t; trun xs t
  end.

(** ** The invariant *)

(** No goroutine and nothing to do; or one goroutine, [i] functions into the
    list that was started when everything in [prev] had ended. *)
Inductive t_inv : timer -> Prop :=
| tinv_idle g : t_inv (MkTimer [] [] g g g)
| tinv_take prev l i :
    l <> [] -> (i <= length l)%nat ->
    t_inv (MkTimer l [ATake i] (prev ++ l) (prev ++ take i l) (prev ++ take i l))
| tinv_run prev l i f :
    l !! i = Some f ->
    t_inv (MkTimer l [ARun (S i) f] (prev ++ l) (prev ++ take (S i) l) (prev ++ take i l)).

Lemma take_snoc_le (l : list nat) x i : (i <= length l)%nat -> take i (l ++ [x]) = take i l.
Proof. intros H. by apply take_app_le. Qed.

Lemma t_inv_async f t : t_inv t -> t_inv (Async f t).
Proof.
  destruct 1 as [g|prev l i Hl Hi|prev l i f' Hf]; unfold Async; cbn.
  - pose proof (tinv_take g [f] 0 ltac:(done) ltac:(cbn; lia)) as H. by rewrite app_nil_r in H.
  - rewrite bool_decide_false by done. rewrite <- app_assoc, <- (take_snoc_le l f) by done.
    apply tinv_take; [by destruct l|rewrite length_app; lia].
  - apply lookup_lt_Some in Hf as Hi.
    rewrite bool_decide_false by (by destruct l). rewrite <- app_assoc, <- !(take_snoc_le l f) by lia.
    apply tinv_run. by rewrite lookup_app_l.
Qed.

Lemma t_inv_step n t pc :
  t_inv t -> t_runners t !! n = Some pc -> exists t', texec (TStep n) t = Some t' /\ t_inv t'.
Proof.
  intros Ht Hn. cbn [texec]. rewrite Hn. destruct Ht as [g|prev l i Hl Hi|prev l i f Hf]; cbn in Hn.
  - done.
  - destruct n; [|done]. injection Hn as <-. unfold async_take. cbn. case_bool_decide as Hc.
    + eexists. split; [done|]. subst i. rewrite firstn_all. apply tinv_idle.
    + destruct (lookup_lt_is_Some_2 l i ltac:(lia)) as [f Hf]. rewrite Hf. eexists. split; [done|].
      rewrite <- app_assoc, <- take_S_r by done. by apply tinv_run.
  - destruct n; [|done]. injection Hn as <-. eexists. split; [done|]. unfold async_end. cbn.
    apply lookup_lt_Some in Hf as Hi. rewrite <- app_assoc, <- take_S_r by done.
    apply tinv_take; [by destruct l|lia].
Qed.

Lemma t_inv_run xs : forall t t', t_inv t -> trun xs t = Some t' -> t_inv t'.
Proof.
  induction xs as [|[f|n] xs IH]; intros t t' Ht; cbn [trun].
  - by intros [= <-].
  - cbn [texec mbind option_bind]. apply IH. by apply t_inv_async.
  - destruct (t_runners t !! n) as [pc|] eqn:E; [|cbn [texec]; by rewrite E].
    destruct (t_inv_step n t pc Ht E) as (t1 & -> & Ht1). cbn [mbind option_bind]. by apply IH.
Qed.

(** Whatever the interleaving, functions given to [Async] run one at a time
    and in the order of the calls, no step of the goroutine goes wrong, and
    none is lost: while one has not ended a goroutine exists that can go on,
    and when no goroutine is left all have ended. *)
Theorem async_in_order (xs : list tlabel) (t : timer) :
  trun xs NewTimer = Some t ->
  t_started t `prefix_of` t_given t /\
  (t_started t = t_ended t \/ exists f, t_started t = t_ended t ++ [f]) /\
  (forall n pc, t_runners t !! n = Some pc -> n = 0%nat /\ is_Some (texec (TStep n) t)) /\
  (t_runners t = [] -> t_ended t = t_given t) /\
  (t_ended t <> t_given t -> is_Some (texec (TStep 0) t)).
Proof.
  intros E. pose proof (t_inv_run xs _ _ (tinv_idle []) E) as Ht.
  assert (forall n pc, t_runners t !! n = Some pc -> n = 0%nat /\ is_Some (texec (TStep n) t)) as Hstep.
  { intros n pc Hn. destruct (t_inv_step n t pc Ht Hn) as (t1 & -> & _). split; [|done].
    destruct Ht; cbn in Hn; by destruct n. }
  assert (t_runners t <> [] -> is_Some (texec (TStep 0) t)) as Hgo.
  { destruct (t_runners t) as [|pc rs] eqn:Er; [done|]. intros _. by destruct (Hstep 0%nat pc). }
  destruct Ht as [g|prev l i Hl Hi|prev l i f Hf]; cbn in *.
  - split_and!; auto.
  - split_and!; try done; auto. apply prefix_app, prefix_take.
  - split_and!; try done; auto; [apply prefix_app, prefix_take|]. right. exists f.
    by rewrite <- app_assoc, <- take_S_r.
Qed.

Definition timer_trace : list tlabel := [TAsync 7; TAsync 8; TStep 0; TStep 0; TStep 0; TAsync 9; TStep 0; TStep 0].

Lemma async_in_order_witness :
  exists t, trun timer_trace NewTimer = Some t /\ t_started t = [7; 8; 9]%nat /\ is_Some (texec (TStep 0) t).
Proof.
  eexists. split; [vm_compute; reflexivity|]. split; [reflexivity|].
  eapply (async_in_order timer_trace); [vm_compute; reflexivity|]. vm_compute. discriminate.
Defined.
