(* ===== verification/EngineRun.v ===== *)
(** * Connections of an engine, from accept to stop (src/engine.go,
    src/engine_unix.go, src/poller_epoll.go)

    The engine counts its connections in [wgConn]: one more when a connection
    is opened or dialled, one less when its close handler has ended; [Stop]
    closes what is in the table of connections and waits for the count.
    Accepting goroutines, dialers, pollers, the goroutine of [Async] and [Stop]
    interleave; a step is an access to shared state.  [Async] is a queue of
    tasks run in order ([Timer]). *)

From Stdlib Require Import ZArith Lia.
From stdpp Require Import base numbers list list_numbers gmap.
From S2P Require Import Prelude.

Open Scope Z_scope.

(** What is handed to [Async]: closing a connection, from [Stop]; calling the
    close handler of a connection and then [wgConn.Done], from [OnClose]. *)
Inductive task := TCloseConn (c : nat) | TOnClose (c : nat).

(** A goroutine that adds a connection: before [addConn]; before the table is
    set; before the event is registered; and the same for a dialer, which has
    counted the connection before [addDialer]. *)
Inductive adder := AOpen (c : nat) | ATable (c : nat) | AReg (c : nat) | DAttach (c : nat) | DReg (c : nat).

Definition adder_conn (a : adder) : nat :=
  match a with AOpen c | ATable c | AReg c | DAttach c | DReg c => c end.

Inductive stop_pc := SRunning | SScan (i : nat) | SWait | SDone.

(** [e_open] are the connections with a poller that are not closed.  The
    history: [e_late], the connections put into the table behind the scan of
    [Stop]; [e_opened], those given a poller; [e_handled], those whose close
    handler has ended. *)
Record engine_state := MkEng {
  wgConn : Z;
  connsUnix : gmap nat nat;
  e_open : gset nat;
  e_tasks : list task;
  e_adders : list adder;
  e_stop : stop_pc;
  e_late : gset nat;
  e_opened : list nat;
  e_handled : list nat
}.

(** [initHandlers] counts one for the engine itself. *)
Definition e_init : engine_state := MkEng 1 ∅ ∅ [] [] SRunning ∅ [] [].

Inductive elabel :=
| LAccept (c : nat)
| LDial (c : nat)
| LAdder (k : nat) (ok : bool)
| LClose (c : nat)
| LTask
| LStop
| LScan
| LWait.

Section machine.
(** The descriptor of a connection, and [MaxOpenFiles], the size of the table. *)
Context (fd : nat -> nat) (MaxOpenFiles : nat).

Definition set_wg (w : Z) (s : engine_state) : engine_state :=
  MkEng w (connsUnix s) (e_open s) (e_tasks s) (e_adders s) (e_stop s) (e_late s) (e_opened s) (e_handled s).
Definition set_adders (l : list adder) (s : engine_state) : engine_state :=
  MkEng (wgConn s) (connsUnix s) (e_open s) (e_tasks s) l (e_stop s) (e_late s) (e_opened s) (e_handled s).
Definition set_tasks (l : list task) (s : engine_state) : engine_state :=
  MkEng (wgConn s) (connsUnix s) (e_open s) l (e_adders s) (e_stop s) (e_late s) (e_opened s) (e_handled s).
Definition set_estop (x : stop_pc) (s : engine_state) : engine_state :=
  MkEng (wgConn s) (connsUnix s) (e_open s) (e_tasks s) (e_adders s) x (e_late s) (e_opened s) (e_handled s).

(** Whether the scan of [Stop] is past a descriptor. *)
Definition scanned (f : nat) (p : stop_pc) : bool :=
  match p with SRunning => false | SScan i => bool_decide (f < i)%nat | SWait | SDone => true end.

(** [c.p = p] and [wgConn.Add(w)]. *)
Definition attach (w : Z) (c : nat) (s : engine_state) : engine_state :=
  MkEng (wgConn s + w) (connsUnix s) ({[c]} ∪ e_open s) (e_tasks s) (e_adders s) (e_stop s) (e_late s)
    (e_opened s ++ [c]) (e_handled s).

(** [p.g.connsUnix[fd] = c] *)
Definition put (c : nat) (s : engine_state) : engine_state :=
  MkEng (wgConn s) (<[fd c := c]> (connsUnix s)) (e_open s) (e_tasks s) (e_adders s) (e_stop s)
    (if scanned (fd c) (e_stop s) then {[c]} ∪ e_late s else e_late s) (e_opened s) (e_handled s).

(** [p.g.connsUnix[fd] = nil] *)
Definition unput (c : nat) (s : engine_state) : engine_state :=
  MkEng (wgConn s) (delete (fd c) (connsUnix s)) (e_open s) (e_tasks s) (e_adders s) (e_stop s) (e_late s)
    (e_opened s) (e_handled s).

(** [closeWithError] of a connection with a poller: [deleteConn] takes it out
    of the table and hands the close handler to [Async]. *)
Definition close_conn (c : nat) (s : engine_state) : engine_state :=
  if bool_decide (c ∈ e_open s) then
    MkEng (wgConn s)
      (if bool_decide (connsUnix s !! fd c = Some c) then delete (fd c) (connsUnix s) else connsUnix s)
      (e_open s ∖ {[c]}) (e_tasks s ++ [TOnClose c]) (e_adders s) (e_stop s) (e_late s) (e_opened s) (e_handled s)
  else s.

(** [addConn], from where the goroutine is; [ok] is the outcome of [addRead]. *)
Definition addConn_step (k : nat) (ok : bool) (a : adder) (s : engine_state) : engine_state :=
  match a with
  | AOpen c =>
      if (MaxOpenFiles <=? fd c)%nat then set_adders (delete k (e_adders s)) s
      else attach 1 c (set_adders (<[k := ATable c]> (e_adders s)) s)
  | ATable c => put c (set_adders (<[k := AReg c]> (e_adders s)) s)
  | AReg c =>
      let s := set_adders (delete k (e_adders s)) s in
      if ok then s else close_conn c (unput c s)
  | _ => s
  end.

(** [addDialer] and the end of [DialAsyncTimeout]; [ok] is the outcome of
    [addReadWrite]. *)
Definition addDialer_step (k : nat) (ok : bool) (a : adder) (s : engine_state) : engine_state :=
  match a with
  | DAttach c =>
      if (MaxOpenFiles <=? fd c)%nat then set_wg (wgConn s - 1) (set_adders (delete k (e_adders s)) s)
      else put c (attach 0 c (set_adders (<[k := DReg c]> (e_adders s)) s))
  | DReg c =>
      let s := set_adders (delete k (e_adders s)) s in
      if ok then s else set_wg (wgConn s - 1) (close_conn c (unput c s))
  | _ => s
  end.

(** One task of [Async]. *)
Definition run_task (t : task) (s : engine_state) : engine_state :=
  match t with
  | TCloseConn c => close_conn c s
  | TOnClose c =>
      MkEng (wgConn s - 1) (connsUnix s) (e_open s) (e_tasks s) (e_adders s) (e_stop s) (e_late s) (e_opened s)
        (e_handled s ++ [c])
  end.

(** The loop of [Stop] over the table. *)
Definition scan_step (i : nat) (s : engine_state) : engine_state :=
  if bool_decide (i = MaxOpenFiles) then set_estop SWait s
  else
    let s := set_estop (SScan (S i)) s in
    match connsUnix s !! i with
    | Some c => set_tasks (e_tasks s ++ [TCloseConn c]) s
    | None => s
    end.

(** Whether a connection has been given a poller where the goroutine is. *)
Definition attached (a : adder) : bool := match a with AOpen _ | DAttach _ => false | _ => true end.

(** A connection the kernel may hand out: a new one, with a descriptor that no
    open connection has, nor one that waits to be added. *)
Definition fresh (c : nat) (s : engine_state) : bool :=
  bool_decide (c ∉ e_opened s) &&
  forallb (fun a => negb (bool_decide (adder_conn a = c)) && (attached a || negb (bool_decide (fd (adder_conn a) = fd c)))) (e_adders s) &&
  forallb (fun c' => negb (bool_decide (fd c' = fd c))) (elements (e_open s)).

Definition eexec (x : elabel) (s : engine_state) : option engine_state :=
  match x with
  | LAccept c => if fresh c s then Some (set_adders (e_adders s ++ [AOpen c]) s) else None
  | LDial c =>
      if fresh c s then Some (set_wg (wgConn s + 1) (set_adders (e_adders s ++ [DAttach c]) s)) else None
  | LAdder k ok =>
      match e_adders s !! k with
      | Some ((AOpen _ | ATable _ | AReg _) as a) => Some (addConn_step k ok a s)
      | Some a => Some (addDialer_step k ok a s)
      | None => None
      end
  | LClose c => if bool_decide (c ∈ e_open s) then Some (close_conn c s) else None
  | LTask => match e_tasks s with t :: ts => Some (run_task t (set_tasks ts s)) | [] => None end
  | LStop =>
      match e_stop s with
      | SRunning => Some (set_wg (wgConn s - 1) (set_estop (SScan 0) s))
      | _ => Some s
      end
  | LScan => match e_stop s with SScan i => Some (scan_step i s) | _ => None end
  | LWait => match e_stop s with SWait => if wgConn s =? 0 then Some (set_estop SDone s) else None | _ => None end
  end.

Fixpoint erun (xs : list elabel) (s : engine_state) : option engine_state :=
  match xs with
  | [] => Some s
  | x :: xs => s ← eexec x s; erun xs s
  end.

(** The registration of a dialled connection does not fail, and no descriptor is
    given out again while the goroutine that adds its former connection, closed
    meanwhile, is still at it. *)
Definition undisturbed (x : elabel) (s : engine_state) : Prop :=
  match x with
  | LAdder k false => match e_adders s !! k with Some (DReg _) => False | _ => True end
  | LAccept c | LDial c => Forall (fun a => fd (adder_conn a) <> fd c) (e_adders s)
  | _ => True
  end.

Fixpoint all_undisturbed (xs : list elabel) (s : engine_state) : Prop :=
  match xs with
  | [] => True
  | x :: xs => undisturbed x s /\ match eexec x s with Some s => all_undisturbed xs s | None => True end
  end.

(** ** The invariant *)

Definition closing (ts : list task) : list nat :=
  omap (fun t => match t with TOnClose c => Some c | _ => None end) ts.

Definition dialing (l : list adder) : list nat :=
  omap (fun a => match a with DAttach c => Some c | _ => None end) l.

Definition engine_unit (p : stop_pc) : Z := match p with SRunning => 1 | _ => 0 end.

Record e_inv (s : engine_state) : Prop := {
  ei_wg : wgConn s = Z.of_nat (size (e_open s)) + len (closing (e_tasks s)) + len (dialing (e_adders s))
            + engine_unit (e_stop s);
  ei_hist : e_opened s ≡ₚ elements (e_open s) ++ closing (e_tasks s) ++ e_handled s;
  ei_table c : c ∈ e_open s -> ATable c ∈ e_adders s \/ connsUnix s !! fd c = Some c;
  ei_scan c : c ∈ e_open s -> connsUnix s !! fd c = Some c -> scanned (fd c) (e_stop s) = true ->
    TCloseConn c ∈ e_tasks s \/ c ∈ e_late s;
  ei_fds c c' : c ∈ e_open s -> c' ∈ e_open s -> fd c = fd c' -> c = c';
  ei_adders : NoDup ((fun a => fd (adder_conn a)) <$> e_adders s);
  ei_busy a c : a ∈ e_adders s -> c ∈ e_open s -> fd (adder_conn a) = fd c -> adder_conn a = c;
  ei_new a : a ∈ e_adders s -> attached a = false -> adder_conn a ∉ e_opened s;
  ei_in a : a ∈ e_adders s -> attached a = true -> adder_conn a ∈ e_opened s;
  ei_small c : c ∈ e_open s -> (fd c < MaxOpenFiles)%nat;
  ei_tab f c : connsUnix s !! f = Some c -> c ∈ e_opened s
}.

Lemma closing_app l l' : closing (l ++ l') = closing l ++ closing l'.
Proof. apply omap_app. Qed.

Lemma dialing_app l l' : dialing (l ++ l') = dialing l ++ dialing l'.
Proof. apply omap_app. Qed.

Lemma open_opened s c : e_inv s -> c ∈ e_open s -> c ∈ e_opened s.
Proof. intros Hi Hc. rewrite (ei_hist s Hi), elem_of_app, elem_of_elements. by left. Qed.

(** Where an adder is in the list. *)
Lemma adder_split (l : list adder) k a :
  l !! k = Some a -> exists l1 l2, l = l1 ++ a :: l2 /\ delete k l = l1 ++ l2 /\ forall a', <[k := a']> l = l1 ++ a' :: l2.
Proof.
  intros H. exists (take k l), (drop (S k) l). rewrite take_drop_middle by done. split; [done|].
  split; [by rewrite delete_take_drop|]. intros a'. rewrite insert_take_drop; [done|]. by eapply lookup_lt_Some.
Qed.

Lemma size_attach c (X : gset nat) : c ∉ X -> size ({[c]} ∪ X) = S (size X).
Proof. intros H. rewrite size_union by set_solver. by rewrite size_singleton. Qed.

Lemma size_detach c (X : gset nat) : c ∈ X -> size X = S (size (X ∖ {[c]})).
Proof.
  intros H. rewrite <- (size_attach c) by set_solver. f_equal. apply leibniz_equiv.
  intros y. destruct (decide (y = c)); set_solver.
Qed.

Lemma elements_detach c (X : gset nat) : c ∈ X -> elements X ≡ₚ c :: elements (X ∖ {[c]}).
Proof.
  intros H. rewrite <- elements_union_singleton by set_solver. apply elements_proper.
  intros y. destruct (decide (y = c)); set_solver.
Qed.

(** Closing: whatever happens to its own place in the table. *)
Lemma shut_inv c t s :
  e_inv s -> c ∈ e_open s -> (forall f, f <> fd c -> t !! f = connsUnix s !! f) ->
  t ⊆ connsUnix s ->
  e_inv (MkEng (wgConn s) t (e_open s ∖ {[c]}) (e_tasks s ++ [TOnClose c]) (e_adders s) (e_stop s) (e_late s)
    (e_opened s) (e_handled s)).
Proof.
  intros [Hw Hh Ht Hs Hf Ha Hb Hn Hin Hsm Htb] Hc Hother Hsub.
  assert (forall c', c' ∈ e_open s ∖ {[c]} -> c' ∈ e_open s /\ t !! fd c' = connsUnix s !! fd c') as Hkeep.
  { intros c' [H1 H2]%elem_of_difference. split; [done|]. apply Hother. intros He.
    apply H2, elem_of_singleton. by apply Hf. }
  split; cbn [wgConn connsUnix e_open e_tasks e_adders e_stop e_late e_opened e_handled]; rewrite ?closing_app.
  - rewrite Hw, (size_detach c (e_open s)), len_app by done. change (len (closing [TOnClose c])) with 1. lia.
  - rewrite Hh, (elements_detach c (e_open s)) by done. cbn. by rewrite <- app_assoc, Permutation_middle, Permutation_middle.
  - intros c' Hc'. destruct (Hkeep c' Hc') as [H1 ->]. by apply Ht.
  - intros c' Hc'. destruct (Hkeep c' Hc') as [H1 ->]. intros H2 H3. destruct (Hs c' H1 H2 H3) as [H|H]; [left|by right].
    rewrite elem_of_app. by left.
  - intros c1 c2 H1 H2. apply Hf; by apply Hkeep.
  - done.
  - intros a c' H1 H2. apply Hb; [done|]. by apply Hkeep.
  - done.
  - done.
  - intros c' H1. apply Hsm. by apply Hkeep.
  - intros f c' H. apply (Htb f). by eapply lookup_weaken.
Qed.

Lemma close_inv c s : e_inv s -> e_inv (close_conn c s).
Proof.
  intros Hi. unfold close_conn. case_bool_decide as Hc; [|done]. apply shut_inv; [done..| |].
  - intros f Hne. case_bool_decide; [|done]. by rewrite lookup_delete_ne.
  - case_bool_decide; [apply delete_subseteq|done].
Qed.

(** A goroutine that ends. *)
Lemma leave_inv k a w s :
  e_inv s -> e_adders s !! k = Some a -> (forall c, a <> ATable c) -> w = wgConn s - len (dialing [a]) ->
  e_inv (set_wg w (set_adders (delete k (e_adders s)) s)).
Proof.
  intros [Hw Hh Ht Hs Hf Ha Hb Hn Hin Hsm Htb] Hk Hend ->. destruct (adder_split _ k a Hk) as (l1 & l2 & El & Ed & _).
  assert (forall b, b ∈ delete k (e_adders s) -> b ∈ e_adders s) as Hsub.
  { intros b. rewrite Ed, El, !elem_of_app, elem_of_cons. tauto. }
  split; cbn [wgConn connsUnix e_open e_tasks e_adders e_stop e_late e_opened e_handled set_wg set_adders]; eauto.
  - rewrite Hw, Ed, El, !dialing_app, !len_app. change (a :: l2) with ([a] ++ l2). rewrite dialing_app, len_app. lia.
  - intros c Hc. destruct (Ht c Hc) as [H|H]; [left|by right]. rewrite El in H. rewrite Ed.
    rewrite elem_of_app, elem_of_cons in *. destruct H as [?|[He|?]]; [by left|by destruct (Hend c)|by right].
  - rewrite Ed. rewrite El, fmap_app in Ha. cbn in Ha. rewrite fmap_app.
    apply NoDup_app in Ha as (N1 & N2 & N3). apply NoDup_cons in N3 as [N3 N4]. apply NoDup_app. split; [done|]. split; [|done].
    intros x H1 H2. apply (N2 x H1). rewrite elem_of_cons; by right.
Qed.

(** A goroutine that goes on with the same connection. *)
Lemma move_inv k a a' s :
  e_inv s -> e_adders s !! k = Some a -> adder_conn a' = adder_conn a -> attached a' = attached a ->
  len (dialing [a']) = len (dialing [a]) ->
  (forall c, a = ATable c -> c ∈ e_open s -> connsUnix s !! fd c = Some c) ->
  e_inv (set_adders (<[k := a']> (e_adders s)) s).
Proof.
  intros [Hw Hh Ht Hs Hf Ha Hb Hn Hin Hsm Htb] Hk Hc Hat Hdial Hpre. destruct (adder_split _ k a Hk) as (l1 & l2 & El & _ & Ei).
  assert (forall b, b ∈ <[k := a']> (e_adders s) -> b = a' \/ b ∈ e_adders s) as Hsub.
  { intros b. rewrite Ei, El, !elem_of_app, !elem_of_cons. tauto. }
  assert (a ∈ e_adders s) as Hin_a by (by eapply list_elem_of_lookup_2).
  split; cbn [wgConn connsUnix e_open e_tasks e_adders e_stop e_late e_opened e_handled set_adders]; eauto.
  - rewrite Hw, Ei, El, !dialing_app, !len_app. change (a' :: l2) with ([a'] ++ l2). change (a :: l2) with ([a] ++ l2).
    rewrite !dialing_app, !len_app. lia.
  - intros c Hcc. destruct (Ht c Hcc) as [H|H]; [|by right]. rewrite El in H. rewrite Ei.
    rewrite elem_of_app, elem_of_cons in *. destruct H as [?|[He|?]]; [by left; left|by right; apply Hpre|by left; right; right].
  - rewrite Ei. rewrite El in Ha. rewrite !fmap_app in *. cbn in *. by rewrite Hc.
  - intros b c [-> |H]%Hsub; [rewrite Hc|]; by apply Hb.
  - intros b [-> |H]%Hsub; [rewrite Hc, Hat|]; by apply Hn.
  - intros b [-> |H]%Hsub; [rewrite Hc, Hat|]; by apply Hin.
Qed.

(** A connection is given a poller; [w] is what the count was short of. *)
Lemma attach_inv k a a' w s :
  e_inv s -> e_adders s !! k = Some a -> adder_conn a' = adder_conn a -> attached a = false -> attached a' = true ->
  w = 1 - len (dialing [a]) + len (dialing [a']) -> (fd (adder_conn a) < MaxOpenFiles)%nat ->
  (a' = ATable (adder_conn a) \/ connsUnix s !! fd (adder_conn a) = Some (adder_conn a)) ->
  (connsUnix s !! fd (adder_conn a) = Some (adder_conn a) -> scanned (fd (adder_conn a)) (e_stop s) = true ->
    adder_conn a ∈ e_late s) ->
  e_inv (attach w (adder_conn a) (set_adders (<[k := a']> (e_adders s)) s)).
Proof.
  intros [Hw Hh Ht Hs Hf Ha Hb Hn Hin Hsm Htb] Hk Hc Hat Hat' Hdial Hsmall Htab Hlate.
  set (c := adder_conn a) in *.
  destruct (adder_split _ k a Hk) as (l1 & l2 & El & _ & Ei).
  assert (a ∈ e_adders s) as Hin_a by (by eapply list_elem_of_lookup_2).
  pose proof (Hn a Hin_a Hat) as Hfresh. fold c in Hfresh.
  assert (c ∉ e_open s) as Hno.
  { intros Ho. apply Hfresh. rewrite Hh, elem_of_app, elem_of_elements. by left. }
  assert (forall c', c' ∈ e_open s -> fd c' <> fd c) as Hfd.
  { intros c' Ho He. apply Hno. assert (c = c') as -> by (apply (Hb a c' Hin_a Ho); by rewrite He). done. }
  assert (forall b, b ∈ l1 ++ l2 -> fd (adder_conn b) <> fd c) as Hdiff.
  { intros b Hbb He. rewrite El, fmap_app in Ha. cbn in Ha. apply NoDup_app in Ha as (N1 & N2 & N3).
    apply NoDup_cons in N3 as [N3 N4]. apply elem_of_app in Hbb as [H|H].
    - apply (N2 (fd c)); [rewrite <- He; by apply (list_elem_of_fmap_2 (fun a => fd (adder_conn a)))|by left].
    - apply N3. fold c. rewrite <- He. by apply (list_elem_of_fmap_2 (fun a => fd (adder_conn a))). }
  assert (forall b, b ∈ l1 ++ a' :: l2 -> b = a' \/ b ∈ l1 ++ l2) as Hsub.
  { intros b. rewrite !elem_of_app, elem_of_cons. tauto. }
  assert (forall b, b ∈ l1 ++ l2 -> b ∈ e_adders s) as Hold.
  { intros b. rewrite El, !elem_of_app, elem_of_cons. tauto. }
  split; cbn [wgConn connsUnix e_open e_tasks e_adders e_stop e_late e_opened e_handled set_adders attach]; rewrite ?Ei.
  - rewrite Hw, size_attach, El, !dialing_app, !len_app by done. change (a' :: l2) with ([a'] ++ l2).
    change (a :: l2) with ([a] ++ l2). rewrite !dialing_app, !len_app. lia.
  - rewrite elements_union_singleton, Hh by done. by rewrite <- Permutation_cons_append.
  - intros c' [->%elem_of_singleton|H]%elem_of_union.
    + destruct Htab as [-> |H]; [left|by right]. rewrite elem_of_app, elem_of_cons. tauto.
    + destruct (Ht c' H) as [Hb'|?]; [left|by right]. rewrite El in Hb'. rewrite elem_of_app, elem_of_cons in *.
      destruct Hb' as [?|[He|?]]; [by left| |by right; right]. by rewrite <- He in Hat.
  - intros c' [->%elem_of_singleton|H]%elem_of_union; [|by apply Hs]. intros H1 H2. right. by apply Hlate.
  - intros c1 c2 [->%elem_of_singleton|H1]%elem_of_union [->%elem_of_singleton|H2]%elem_of_union He; [done| | |by apply Hf].
    + by destruct (Hfd c2).
    + by destruct (Hfd c1).
  - rewrite El in Ha. rewrite !fmap_app in *. cbn in *. by rewrite Hc.
  - intros b c' [-> |Hbb]%Hsub [->%elem_of_singleton|Ho]%elem_of_union He.
    + done.
    + rewrite Hc in He. symmetry in He. by destruct (Hfd c').
    + by destruct (Hdiff b).
    + by apply Hb; [apply Hold| |].
  - intros b [-> |Hbb]%Hsub; [by rewrite Hat'|]. intros H1. rewrite elem_of_app, list_elem_of_singleton. intros [H|H].
    + by apply (Hn b (Hold b Hbb)).
    + apply (Hdiff b Hbb). by rewrite H.
  - intros b [-> |Hbb]%Hsub H1; rewrite elem_of_app, list_elem_of_singleton; [right; by rewrite Hc|left].
    by apply Hin; [apply Hold|].
  - intros c' [->%elem_of_singleton|H]%elem_of_union; [done|by apply Hsm].
  - intros f c' H. rewrite elem_of_app. left. by apply (Htb f).
Qed.

(** Setting the table for a connection that is being added. *)
Lemma put_inv a s : e_inv s -> a ∈ e_adders s -> attached a = true -> e_inv (put (adder_conn a) s).
Proof.
  intros [Hw Hh Ht Hs Hf Ha Hb Hn Hin Hsm Htb] Hina Hat. set (c := adder_conn a).
  assert (forall c', c' ∈ e_open s -> fd c' = fd c -> c' = c) as Hown.
  { intros c' Ho He. symmetry. by apply (Hb a). }
  split; cbn [wgConn connsUnix e_open e_tasks e_adders e_stop e_late e_opened e_handled put]; try done.
  - intros c' Ho. destruct (decide (fd c' = fd c)) as [He|He].
    + rewrite (Hown c' Ho He). right. by rewrite lookup_insert_eq.
    + destruct (Ht c' Ho) as [H|H]; [by left|right]. by rewrite lookup_insert_ne.
  - intros c' Ho H1 H2. destruct (decide (fd c' = fd c)) as [He|He].
    + assert (c' = c) as -> by by apply Hown. right. rewrite H2. by apply elem_of_union_l, elem_of_singleton.
    + rewrite lookup_insert_ne in H1 by done. destruct (Hs c' Ho H1 H2) as [H|H]; [by left|right].
      destruct (scanned (fd c) (e_stop s)); [by apply elem_of_union_r|done].
  - intros f c' [[_ <-]|[_ H]]%lookup_insert_Some; [by apply Hin|by apply (Htb f)].
Qed.

Lemma put_lookup c s : connsUnix (put c s) !! fd c = Some c.
Proof. cbn. by rewrite lookup_insert_eq. Qed.

(** A registration that failed. *)
Lemma unreg_inv k a s :
  e_inv s -> e_adders s !! k = Some a -> match a with AReg _ | DReg _ => True | _ => False end ->
  e_inv (close_conn (adder_conn a) (unput (adder_conn a) (set_adders (delete k (e_adders s)) s))).
Proof.
  intros Hi Hk Hend. pose proof (leave_inv k a (wgConn s) s Hi Hk ltac:(by destruct a) ltac:(destruct a; try done; unfold len; cbn; lia)) as Hi'.
  assert (a ∈ e_adders s) as Hina by by eapply list_elem_of_lookup_2.
  set (c := adder_conn a). change (set_wg (wgConn s) (set_adders (delete k (e_adders s)) s)) with (set_adders (delete k (e_adders s)) s) in Hi'.
  set (s1 := set_adders _ _) in *. unfold close_conn.
  change (e_open (unput c s1)) with (e_open s). case_bool_decide as Hc.
  - apply (shut_inv c _ s1 Hi' Hc).
    + intros f Hne. case_bool_decide; cbn; by rewrite ?lookup_delete_ne.
    + case_bool_decide; cbn; rewrite ?delete_delete_eq; apply delete_subseteq.
  - destruct Hi as [_ _ _ _ _ _ Hb _ _ _ _]. destruct Hi' as [Hw Hh Ht Hs Hf Ha Hb' Hn Hin Hsm Htb].
    assert (forall c', c' ∈ e_open s -> delete (fd c) (connsUnix s) !! fd c' = connsUnix s !! fd c') as Hkeep.
    { intros c' Ho. apply lookup_delete_ne. intros He. apply Hc. assert (c = c') as -> by by apply (Hb a). done. }
    split; try done; cbn [wgConn connsUnix e_open e_tasks e_adders e_stop e_late e_opened e_handled unput s1 set_adders].
    + intros c' Ho. rewrite Hkeep by done. by apply Ht.
    + intros c' Ho. rewrite Hkeep by done. by apply Hs.
    + intros f c' [_ H]%lookup_delete_Some. by apply (Htb f).
Qed.

(** The other goroutines. *)
Lemma accept_inv a w s :
  e_inv s -> fresh (adder_conn a) s = true -> Forall (fun b => fd (adder_conn b) <> fd (adder_conn a)) (e_adders s) -> attached a = false -> w = len (dialing [a]) ->
  e_inv (set_wg (wgConn s + w) (set_adders (e_adders s ++ [a]) s)).
Proof.
  intros [Hw Hh Ht Hs Hf Ha Hb Hn Hin Hsm Htb] Hfr Hover Hat ->. unfold fresh in Hfr.
  apply andb_true_iff in Hfr as [[F1%bool_decide_eq_true _]%andb_true_iff F3]. rewrite forallb_forall in F3.
  assert (forall b, b ∈ e_adders s -> fd (adder_conn b) <> fd (adder_conn a)) as Hd1.
  { by apply Forall_forall. }
  assert (forall c', c' ∈ e_open s -> fd c' <> fd (adder_conn a)) as Hd2.
  { intros c' Ho%elem_of_elements%list_elem_of_In He. specialize (F3 c' Ho). by rewrite bool_decide_true in F3. }
  split; cbn [wgConn connsUnix e_open e_tasks e_adders e_stop e_late e_opened e_handled set_wg set_adders]; try done.
  - rewrite Hw, dialing_app, len_app. lia.
  - intros c Ho. destruct (Ht c Ho) as [H|H]; [left; rewrite elem_of_app; by left|by right].
  - rewrite fmap_app. apply NoDup_app. split; [done|]. split; [|apply NoDup_singleton].
    intros x (b & -> & Hbb)%list_elem_of_fmap H. apply list_elem_of_singleton in H. by apply (Hd1 b).
  - intros b c [Hbb|Hbb]%elem_of_app Ho; [by apply Hb|]. apply list_elem_of_singleton in Hbb as ->. intros He.
    symmetry in He. by destruct (Hd2 c).
  - intros b [Hbb|Hbb]%elem_of_app; [by apply Hn|]. apply list_elem_of_singleton in Hbb as ->. by intros _.
  - intros b [Hbb|Hbb]%elem_of_app; [by apply Hin|]. apply list_elem_of_singleton in Hbb as ->. by rewrite Hat.
Qed.

Lemma task_inv t ts s : e_inv s -> e_tasks s = t :: ts -> e_inv (run_task t (set_tasks ts s)).
Proof.
  intros Hi Et. destruct t as [c|c]; cbn [run_task].
  - destruct (decide (c ∈ e_open s)) as [Hc|Hc].
    + unfold close_conn. change (e_open (set_tasks ts s)) with (e_open s). rewrite bool_decide_true by done.
      pose proof (shut_inv c (if bool_decide (connsUnix s !! fd c = Some c) then delete (fd c) (connsUnix s) else connsUnix s)
        s Hi Hc) as Hsh. destruct Hsh as [Hw Hh Ht Hs Hf Ha Hb Hn Hin Hsm Htb].
      { intros f Hne. case_bool_decide; [by rewrite lookup_delete_ne|done]. }
      { case_bool_decide; [apply delete_subseteq|done]. }
      rewrite Et in Hw, Hh, Hs. split; try done; cbn [wgConn connsUnix e_open e_tasks e_adders e_stop e_late e_opened e_handled set_tasks] in *.
      intros c' Ho H1 H2. destruct (Hs c' Ho H1 H2) as [H|H]; [left|by right].
      apply elem_of_cons in H as [[= ->]|H]; [|done]. apply elem_of_difference in Ho as [_ Ho]. by rewrite elem_of_singleton in Ho.
    + unfold close_conn. change (e_open (set_tasks ts s)) with (e_open s). rewrite bool_decide_false by done.
      destruct Hi as [Hw Hh Ht Hs Hf Ha Hb Hn Hin Hsm Htb]. rewrite Et in Hw, Hh, Hs. split; try done.
      intros c' Ho H1 H2. destruct (Hs c' Ho H1 H2) as [H|H]; [left|by right]. by apply elem_of_cons in H as [[= ->]|H].
  - destruct Hi as [Hw Hh Ht Hs Hf Ha Hb Hn Hin Hsm Htb]. rewrite Et in Hw, Hh, Hs.
    split; try done; cbn [wgConn connsUnix e_open e_tasks e_adders e_stop e_late e_opened e_handled set_tasks].
    + rewrite Hw. change (closing (TOnClose c :: ts)) with (c :: closing ts). rewrite len_cons. lia.
    + rewrite Hh. change (closing (TOnClose c :: ts)) with (c :: closing ts). apply Permutation_app_head.
      cbn. rewrite Permutation_cons_append. by rewrite app_assoc.
    + intros c' Ho H1 H2. destruct (Hs c' Ho H1 H2) as [H|H]; [left|by right]. by apply elem_of_cons in H as [?|H].
Qed.

Lemma scan_inv i s : e_inv s -> e_stop s = SScan i -> e_inv (scan_step i s).
Proof.
  intros [Hw Hh Ht Hs Hf Ha Hb Hn Hin Hsm Htb] Es. rewrite Es in *. unfold scan_step. case_bool_decide as Hm.
  - subst i. split; try done; cbn [wgConn connsUnix e_open e_tasks e_adders e_stop e_late e_opened e_handled set_estop].
    + intros c Ho H1 _. apply Hs; [done..|]. cbn. apply bool_decide_true. by apply Hsm.
  - change (connsUnix (set_estop (SScan (S i)) s)) with (connsUnix s).
    assert (forall c, c ∈ e_open s -> connsUnix s !! fd c = Some c -> scanned (fd c) (SScan (S i)) = true ->
      (TCloseConn c ∈ e_tasks s \/ c ∈ e_late s) \/ connsUnix s !! i = Some c) as Hnew.
    { intros c Ho H1 H2. cbn in H2. apply bool_decide_eq_true in H2. destruct (decide (fd c = i)) as [<- |Hne]; [by right|left].
      apply Hs; [done..|]. cbn. apply bool_decide_true. lia. }
    destruct (connsUnix s !! i) as [c0|] eqn:Ei; split; try done;
      cbn [wgConn connsUnix e_open e_tasks e_adders e_stop e_late e_opened e_handled set_estop set_tasks].
    + by rewrite closing_app, app_nil_r.
    + by rewrite closing_app, app_nil_r.
    + intros c Ho H1 H2. rewrite elem_of_app, list_elem_of_singleton.
      destruct (Hnew c Ho H1 H2) as [[H|H]|[= ->]]; [by left; left|by right|by left; right].
    + intros c Ho H1 H2. by destruct (Hnew c Ho H1 H2).
Qed.

Lemma adder_inv k ok a s s' :
  e_inv s -> e_adders s !! k = Some a -> (ok = false -> match a with DReg _ => False | _ => True end) ->
  s' = match a with AOpen _ | ATable _ | AReg _ => addConn_step k ok a s | _ => addDialer_step k ok a s end -> e_inv s'.
Proof.
  intros Hi Hk Hreg ->. assert (a ∈ e_adders s) as Hina by by eapply list_elem_of_lookup_2.
  assert (attached a = false -> connsUnix s !! fd (adder_conn a) <> Some (adder_conn a)) as Hnot.
  { intros Hat Ht. by apply (ei_new s Hi a Hina Hat), (ei_tab s Hi (fd (adder_conn a))). }
  assert (forall l, set_adders l s = set_wg (wgConn s) (set_adders l s)) as Hsame by done.
  destruct a as [c|c|c|c|c]; cbn [addConn_step addDialer_step adder_conn attached] in *.
  - destruct (Nat.leb_spec MaxOpenFiles (fd c)) as [H|H].
    + rewrite Hsame. apply (leave_inv k (AOpen c)); try done. unfold len. cbn. lia.
    + apply (attach_inv k (AOpen c) (ATable c) 1 s); try done; [by left|]. by intros ?%Hnot.
  - change (put c (set_adders (<[k := AReg c]> (e_adders s)) s))
      with (set_adders (<[k := AReg c]> (e_adders (put c s))) (put c s)).
    apply (move_inv k (ATable c)); [by apply (put_inv (ATable c))|done..|]. intros c' [= <-] _. apply put_lookup.
  - destruct ok; [rewrite Hsame; apply (leave_inv k (AReg c)); try done; unfold len; cbn; lia|]. by apply (unreg_inv k (AReg c)).
  - destruct (Nat.leb_spec MaxOpenFiles (fd c)) as [H|H]; [by apply (leave_inv k (DAttach c))|].
    assert (e_inv (attach 0 c (set_adders (<[k := ATable c]> (e_adders s)) s))) as H1.
    { apply (attach_inv k (DAttach c) (ATable c) 0 s); try done; [by left|]. by intros ?%Hnot. }
    assert ((<[k := ATable c]> (e_adders s) : list adder) !! k = Some (ATable c)) as H2.
    { rewrite list_lookup_insert_eq; [done|]. by eapply lookup_lt_Some. }
    pose proof (put_inv (ATable c) _ H1 ltac:(by eapply list_elem_of_lookup_2) eq_refl) as H3.
    apply (move_inv k (ATable c) (DReg c)) in H3; [|done|done|done|done|by intros c' [= <-] _; apply put_lookup].
    cbn [e_adders put attach set_adders adder_conn] in H3. by rewrite list_insert_insert_eq in H3.
  - destruct ok; [rewrite Hsame; apply (leave_inv k (DReg c)); try done; unfold len; cbn; lia|]. by destruct Hreg.
Qed.

Lemma exec_inv x s s' : e_inv s -> undisturbed x s -> eexec x s = Some s' -> e_inv s'.
Proof.
  intros Hi Hd E. destruct x as [c|c|k ok|c| | | |]; cbn [eexec] in E.
  - destruct (fresh c s) eqn:Hf; [|done]. injection E as <-.
    pose proof (accept_inv (AOpen c) 0 s Hi Hf Hd eq_refl eq_refl) as H. by rewrite Z.add_0_r in H.
  - destruct (fresh c s) eqn:Hf; [|done]. injection E as <-. by apply (accept_inv (DAttach c) 1 s Hi Hf Hd).
  - destruct (e_adders s !! k) as [a|] eqn:Hk; [|done]. apply (adder_inv k ok a s); [done|done| |by destruct a; injection E as <-].
    intros ->. cbn in Hd. rewrite Hk in Hd. by destruct a.
  - case_bool_decide; [|done]. apply (inj Some) in E as <-. by apply close_inv.
  - destruct (e_tasks s) as [|t ts] eqn:Et; [done|]. injection E as <-. by apply task_inv.
  - destruct (e_stop s) eqn:Es; injection E as <-; try done. destruct Hi as [Hw Hh Ht Hs Hf Ha Hb Hn Hin Hsm Htb].
    rewrite Es in Hw. split; try done. cbn [wgConn e_open e_tasks e_adders e_stop set_wg set_estop engine_unit] in *. lia.
  - destruct (e_stop s) eqn:Es; try done. injection E as <-. by apply scan_inv.
  - destruct (e_stop s) eqn:Es; try done. destruct (_ =? _); [|done]. injection E as <-.
    destruct Hi as [Hw Hh Ht Hs Hf Ha Hb Hn Hin Hsm Htb]. rewrite Es in *. by split.
Qed.

Lemma erun_inv xs : forall s s', e_inv s -> all_undisturbed xs s -> erun xs s = Some s' -> e_inv s'.
Proof.
  induction xs as [|x xs IH]; intros s s' Hi; cbn [erun all_undisturbed].
  - by intros _ [= <-].
  - intros [H1 H2]. destruct (eexec x s) as [s1|] eqn:E; [|done]. cbn [mbind option_bind]. apply IH; [|done].
    by eapply exec_inv.
Qed.

Lemma e_init_inv : e_inv e_init.
Proof.
  split; try done; cbn; try set_solver. apply NoDup_nil_2.
Qed.

(** C17: in every run in which no registration of a dialled connection fails and
    no descriptor is given out again while the goroutine that adds its former
    connection is still at it, however goroutines accept, add, dial, close (also
    what is still being added) and stop, the count of connections never goes below
    zero; when the wait of [Stop] can end, the close handler of every connection
    that was opened has run to its end, exactly once; and once the scan of [Stop]
    is over, the tasks are done and nobody is adding a connection, the wait does
    end, unless a connection was put into the table behind the scan.  The three
    exceptions are real: [dial_counted_down_twice], [late_entry_hides],
    [stop_misses_late]. *)
Theorem stop_waits (xs : list elabel) (s : engine_state) :
  all_undisturbed xs e_init -> erun xs e_init = Some s ->
  0 <= wgConn s /\
  (e_stop s = SWait -> is_Some (eexec LWait s) -> e_opened s ≡ₚ e_handled s) /\
  (e_stop s = SWait -> e_tasks s = [] -> e_adders s = [] -> e_late s = ∅ -> is_Some (eexec LWait s)).
Proof.
  intros Hd E. destruct (erun_inv xs _ _ e_init_inv Hd E) as [Hw Hh Ht Hs Hf Ha Hb Hn Hin Hsm Htb].
  pose proof (len_nonneg (closing (e_tasks s))). pose proof (len_nonneg (dialing (e_adders s))).
  split; [destruct (e_stop s); cbn in Hw; lia|]. split; intros Es; cbn [eexec]; rewrite Es in *; cbn [engine_unit] in Hw.
  - intros [? Hx]. destruct (Z.eqb_spec (wgConn s) 0) as [Hz|]; [|done].
    assert (e_open s = ∅) as Ho by (apply leibniz_equiv, size_empty_iff; lia).
    assert (closing (e_tasks s) = []) as Hc by (apply len_zero_nil; lia).
    rewrite Hh, Ho, Hc, elements_empty. done.
  - intros Et Ea El. rewrite Et, Ea in *. assert (e_open s = ∅) as Ho.
    { apply set_eq. intros c. split; [|set_solver]. intros Hc. exfalso.
      destruct (Ht c Hc) as [Hx|Hx]; [by apply elem_of_nil in Hx|].
      destruct (Hs c Hc Hx eq_refl) as [H'|H']; [by apply elem_of_nil in H'|]. rewrite El in H'. set_solver. }
    rewrite Ho in Hw. change (Z.of_nat (size (∅ : gset nat))) with 0 in Hw. cbn in Hw. rewrite Hw. by eexists.
Qed.
End machine.

(** ** Runs *)

(** Two connections accepted and one dialled; one is closed by its peer; then
    [Stop]. *)
Definition stop_trace : list elabel :=
  [LAccept 1; LAdder 0 true; LDial 2; LAdder 0 true; LAdder 0 true; LAdder 0 true; LAdder 0 true; LAccept 3; LAdder 0 true;
   LAdder 0 true; LClose 1; LStop; LScan; LAdder 0 true; LScan; LScan; LScan; LTask; LScan; LTask; LTask; LTask; LTask]%nat.

Lemma stop_waits_witness :
  exists s, erun id 4 stop_trace e_init = Some s /\ is_Some (eexec id 4 LWait s) /\ e_opened s ≡ₚ e_handled s.
Proof.
  assert (all_undisturbed id 4 stop_trace e_init) as Hd by (vm_compute; repeat split; repeat constructor; discriminate).
  eexists. split; [vm_compute; reflexivity|]. split; [vm_compute; by eexists|].
  eapply (stop_waits id 4 stop_trace); [exact Hd|vm_compute; reflexivity|reflexivity|vm_compute; by eexists].
Defined.

(** ** Where the code falls short *)

(** [addDialer] has closed the connection, so that its close handler counts it
    down, before [DialAsyncTimeout] counts it down again: [Stop] makes the
    count negative, which is a panic. *)
Lemma dial_counted_down_twice :
  exists s, erun id 4 [LDial 1; LAdder 0 true; LAdder 0 false; LTask; LStop]%nat e_init = Some s /\ wgConn s = -1.
Proof. eexists. split; [vm_compute; reflexivity|reflexivity]. Qed.

(** A connection accepted before the listener was closed and put into the table
    behind the scan keeps [Stop] waiting, with nothing left that would close
    it. *)
Lemma stop_misses_late :
  exists s, erun id 2 [LAccept 0; LAdder 0 true; LStop; LScan; LAdder 0 true; LAdder 0 true; LScan; LScan]%nat e_init = Some s /\
    e_stop s = SWait /\ e_tasks s = [] /\ e_adders s = [] /\ eexec id 2 LWait s = None.
Proof. eexists. split; [vm_compute; reflexivity|]. done. Qed.

(** A connection closed in its [OnOpen] handler, whose descriptor is accepted
    again at once: the late entry of the closed connection hides the new one from
    [Stop], which waits for it forever. *)
Lemma late_entry_hides :
  exists s, erun (fun _ => 0%nat) 2 [LAccept 1; LAdder 0 true; LClose 1; LTask; LAccept 2; LAdder 1 true; LAdder 1 true; LAdder 0 true;
      LAdder 0 true; LAdder 0 true; LStop; LScan; LScan; LScan; LTask]%nat e_init = Some s /\
    e_stop s = SWait /\ e_tasks s = [] /\ e_adders s = [] /\ e_late s = ∅ /\ eexec (fun _ => 0%nat) 2 LWait s = None.
Proof. eexists. split; [vm_compute; reflexivity|]. done. Qed.
