(* ===== verification/Lmux.v ===== *)
(** * The listener multiplexer (src/lmux/lmux.go)

    One goroutine per listener accepts connections and hands each to channel A,
    while fewer than [maxOnlineA] connections of A are online, or to channel B.
    The goroutines, the two consumers of each listener and [Stop] interleave; a
    step is an atomic addition, a channel operation or the return of
    [l.Accept].  Connections are numbers. *)

From Stdlib Require Import ZArith Lia.
From stdpp Require Import base numbers list list_numbers gmap.
From S2P Require Import Prelude.

Open Scope Z_scope.

Definition int32 (x : Z) : Z := wrap_s 32 x.

Inductive event := EConn (c : nat) | EErr.

(** The goroutine of a listener: at the test of [shutdown]; in [Accept]; with a
    connection, before the count, before taking the count back, before each
    send; with an error, before each send; ended. *)
Inductive accept_pc :=
| AcLoop | AcWait | AcCount (c : nat) | AcSendA (c : nat) | AcUndo (c : nat) | AcSendB (c : nat)
| AcErrA | AcErrB | AcDone.

Record lchan := MkLchan { l_pc : accept_pc; chA : list event; chB : list event }.

(** [lm_heldA] and [lm_heldB] are the connections that consumers took and that
    are online; [lm_accepted] and [lm_gone], as history, the connections
    accepted and those no longer online.  [lm_panicked]: [Stop] closed
    [chClose] a second time. *)
Record lmux := MkLmux {
  lm_shutdown : bool;
  lm_closed : bool;
  lm_panicked : bool;
  onlineA : Z;
  maxOnlineA : Z;
  lm_ls : list lchan;
  lm_heldA : list nat;
  lm_heldB : list nat;
  lm_accepted : list nat;
  lm_gone : list nat
}.

(** [New], then [Mux] for each of [n] listeners and [Start]. *)
Definition NewMux (max : Z) (n : nat) : lmux :=
  MkLmux false false false 0 (int32 max) (replicate n (MkLchan AcLoop [] [])) [] [] [] [].

Definition chanSize : Z := 1024 * 64.

Inductive accept_result := AConn (c : nat) | ATimeout | AError.

Inductive llabel :=
| LoopTest (i : nat)
| AcceptReturns (i : nat) (r : accept_result)
| Goes (i : nat)
| TakeA (i : nat)
| TakeB (i : nat)
| Decrease (k : nat)
| LeaveB (k : nat)
| StopMux.

Definition set_l (i : nat) (l : lchan) (s : lmux) : lmux :=
  MkLmux (lm_shutdown s) (lm_closed s) (lm_panicked s) (onlineA s) (maxOnlineA s) (<[i := l]> (lm_ls s)) (lm_heldA s)
    (lm_heldB s) (lm_accepted s) (lm_gone s).
Definition set_online (x : Z) (s : lmux) : lmux :=
  MkLmux (lm_shutdown s) (lm_closed s) (lm_panicked s) x (maxOnlineA s) (lm_ls s) (lm_heldA s) (lm_heldB s)
    (lm_accepted s) (lm_gone s).

Definition set_pc (pc : accept_pc) (l : lchan) : lchan := MkLchan pc (chA l) (chB l).

(** The next step of the goroutine of a listener outside [Accept]; [None] when
    a send has to wait for room. *)
Definition accept_step (i : nat) (l : lchan) (s : lmux) : option lmux :=
  match l_pc l with
  | AcCount c =>
      let n := int32 (onlineA s + 1) in
      Some (set_online n (set_l i (set_pc (if n <=? maxOnlineA s then AcSendA c else AcUndo c) l) s))
  | AcUndo c => Some (set_online (int32 (onlineA s - 1)) (set_l i (set_pc (AcSendB c) l) s))
  | AcSendA c =>
      if len (chA l) <? chanSize then Some (set_l i (MkLchan AcLoop (chA l ++ [EConn c]) (chB l)) s) else None
  | AcSendB c =>
      if len (chB l) <? chanSize then Some (set_l i (MkLchan AcLoop (chA l) (chB l ++ [EConn c])) s) else None
  | AcErrA => if len (chA l) <? chanSize then Some (set_l i (MkLchan AcErrB (chA l ++ [EErr]) (chB l)) s) else None
  | AcErrB => if len (chB l) <? chanSize then Some (set_l i (MkLchan AcDone (chA l) (chB l ++ [EErr])) s) else None
  | _ => None
  end.

(** [ChanListener.Accept] of A, when it takes an event. *)
Definition takeA (i : nat) (l : lchan) (s : lmux) : option lmux :=
  match chA l with
  | e :: es =>
      let s := set_l i (MkLchan (l_pc l) es (chB l)) s in
      Some (match e with
            | EConn c => MkLmux (lm_shutdown s) (lm_closed s) (lm_panicked s) (onlineA s) (maxOnlineA s) (lm_ls s)
                           (lm_heldA s ++ [c]) (lm_heldB s) (lm_accepted s) (lm_gone s)
            | EErr => s
            end)
  | [] => None
  end.

Definition takeB (i : nat) (l : lchan) (s : lmux) : option lmux :=
  match chB l with
  | e :: es =>
      let s := set_l i (MkLchan (l_pc l) (chA l) es) s in
      Some (match e with
            | EConn c => MkLmux (lm_shutdown s) (lm_closed s) (lm_panicked s) (onlineA s) (maxOnlineA s) (lm_ls s)
                           (lm_heldA s) (lm_heldB s ++ [c]) (lm_accepted s) (lm_gone s)
            | EErr => s
            end)
  | [] => None
  end.

(** [DecreaseOnlineA], called once for a connection of A that ends. *)
Definition DecreaseOnlineA (k : nat) (s : lmux) : option lmux :=
  c ← lm_heldA s !! k;
  Some (MkLmux (lm_shutdown s) (lm_closed s) (lm_panicked s) (int32 (onlineA s - 1)) (maxOnlineA s) (lm_ls s)
          (delete k (lm_heldA s)) (lm_heldB s) (lm_accepted s) (lm_gone s ++ [c])).

Definition Stop (s : lmux) : lmux :=
  MkLmux true true (lm_panicked s || lm_closed s) (onlineA s) (maxOnlineA s) (lm_ls s) (lm_heldA s) (lm_heldB s)
    (lm_accepted s) (lm_gone s).

Definition lexec (x : llabel) (s : lmux) : option lmux :=
  match x with
  | LoopTest i =>
      l ← lm_ls s !! i;
      match l_pc l with
      | AcLoop => Some (set_l i (set_pc (if lm_shutdown s then AcDone else AcWait) l) s)
      | _ => None
      end
  | AcceptReturns i r =>
      l ← lm_ls s !! i;
      match l_pc l, r with
      | AcWait, AConn c =>
          Some (MkLmux (lm_shutdown s) (lm_closed s) (lm_panicked s) (onlineA s) (maxOnlineA s)
                  (<[i := set_pc (AcCount c) l]> (lm_ls s)) (lm_heldA s) (lm_heldB s) (lm_accepted s ++ [c]) (lm_gone s))
      | AcWait, ATimeout => Some (set_l i (set_pc AcLoop l) s)
      | AcWait, AError => Some (set_l i (set_pc AcErrA l) s)
      | _, _ => None
      end
  | Goes i => l ← lm_ls s !! i; accept_step i l s
  | TakeA i => l ← lm_ls s !! i; takeA i l s
  | TakeB i => l ← lm_ls s !! i; takeB i l s
  | Decrease k => DecreaseOnlineA k s
  | LeaveB k =>
      c ← lm_heldB s !! k;
      Some (MkLmux (lm_shutdown s) (lm_closed s) (lm_panicked s) (onlineA s) (maxOnlineA s) (lm_ls s) (lm_heldA s)
              (delete k (lm_heldB s)) (lm_accepted s) (lm_gone s ++ [c]))
  | StopMux => Some (Stop s)
  end.

Fixpoint lrun (xs : list llabel) (s : lmux) : option lmux :=
  match xs with
  | [] => Some s
  | x :: xs => s ← lexec x s; lrun xs s
  end.

(** ** The invariant *)

Definition conns_of (es : list event) : list nat :=
  omap (fun e => match e with EConn c => Some c | EErr => None end) es.

Definition pc_conn (pc : accept_pc) : list nat :=
  match pc with AcCount c | AcSendA c | AcUndo c | AcSendB c => [c] | _ => [] end.

(** The connections a listener has, and those among them that count for A. *)
Definition l_conns (l : lchan) : list nat := pc_conn (l_pc l) ++ conns_of (chA l) ++ conns_of (chB l).

Definition l_admitted (l : lchan) : list nat :=
  (match l_pc l with AcSendA c => [c] | _ => [] end) ++ conns_of (chA l).

(** What an addition not yet taken back adds to the count. *)
Definition l_undo (l : lchan) : list nat := match l_pc l with AcUndo c => [c] | _ => [] end.

(** The connections of A: on the way to A, in A, or taken from it and online. *)
Definition admitted (s : lmux) : list nat := concat (map l_admitted (lm_ls s)) ++ lm_heldA s.

Definition undos (s : lmux) : list nat := concat (map l_undo (lm_ls s)).

Record l_inv (n : nat) (s : lmux) : Prop := {
  li_len : length (lm_ls s) = n;
  li_count : onlineA s = Z.of_nat (length (admitted s)) + Z.of_nat (length (undos s));
  li_bound : Z.of_nat (length (admitted s)) <= maxOnlineA s;
  li_conns : lm_accepted s ≡ₚ concat (map l_conns (lm_ls s)) ++ lm_heldA s ++ lm_heldB s ++ lm_gone s
}.

Lemma conns_of_app es es' : conns_of (es ++ es') = conns_of es ++ conns_of es'.
Proof. apply omap_app. Qed.

Lemma conns_of_conn c es : conns_of (EConn c :: es) = c :: conns_of es.
Proof. done. Qed.

Lemma conns_of_err es : conns_of (EErr :: es) = conns_of es.
Proof. done. Qed.

Lemma listener_split (ls : list lchan) i l :
  ls !! i = Some l -> exists l1 l2, ls = l1 ++ l :: l2 /\ forall l', <[i := l']> ls = l1 ++ l' :: l2.
Proof.
  intros H. exists (take i ls), (drop (S i) ls). rewrite take_drop_middle by done. split; [done|].
  intros l'. apply insert_take_drop. by eapply lookup_lt_Some.
Qed.

Lemma list_split (l : list nat) k c :
  l !! k = Some c -> exists l1 l2, l = l1 ++ c :: l2 /\ delete k l = l1 ++ l2.
Proof.
  intros H. exists (take k l), (drop (S k) l). rewrite take_drop_middle by done. split; [done|]. by rewrite delete_take_drop.
Qed.

Lemma undos_le n s : l_inv n s -> (length (undos s) <= n)%nat.
Proof.
  intros Hi. rewrite <- (li_len n s Hi). unfold undos. generalize (lm_ls s). intros ls.
  induction ls as [|l ls IH]; cbn; [done|]. rewrite length_app. unfold l_undo at 1. destruct (l_pc l); cbn; lia.
Qed.

Section bounded.
Context (n : nat) (max : Z) (small : 0 <= max) (fits : max + Z.of_nat n < 2 ^ 31 - 1).

Lemma int32_small x : -1 <= x <= max + Z.of_nat n + 1 -> int32 x = x.
Proof. intros H. unfold int32. apply wrap_s_small; lia. Qed.

(** Replacing listener [i]. *)
Lemma listener_inv i l l' o hA hB acc gone s :
  l_inv n s -> lm_ls s !! i = Some l ->
  Z.of_nat (length (l_admitted l') + length hA) + Z.of_nat (length (l_undo l')) - o =
    Z.of_nat (length (l_admitted l) + length (lm_heldA s)) + Z.of_nat (length (l_undo l)) - onlineA s ->
  ((length (l_admitted l') + length hA <= length (l_admitted l) + length (lm_heldA s))%nat \/ o <= maxOnlineA s) ->
  (forall x, count_occ Nat.eq_dec (l_conns l' ++ hA ++ hB ++ gone) x + count_occ Nat.eq_dec (lm_accepted s) x =
    count_occ Nat.eq_dec (l_conns l ++ lm_heldA s ++ lm_heldB s ++ lm_gone s) x + count_occ Nat.eq_dec acc x)%nat ->
  l_inv n (MkLmux (lm_shutdown s) (lm_closed s) (lm_panicked s) o (maxOnlineA s) (<[i := l']> (lm_ls s)) hA hB acc gone).
Proof.
  intros [Hn Hc Hb Ha] Hl Hcount Hbound Hocc. destruct (listener_split _ _ _ Hl) as (l1 & l2 & El & Ei).
  rewrite (Permutation_count_occ Nat.eq_dec) in Ha.
  assert (o = Z.of_nat (length (concat (map l_admitted (l1 ++ l' :: l2)) ++ hA)) +
    Z.of_nat (length (concat (map l_undo (l1 ++ l' :: l2))))) as Ho.
  { unfold admitted, undos in Hc. rewrite El in Hc. repeat rewrite ?map_app, ?concat_app, ?length_app in *. cbn in *. rewrite !length_app in *. lia. }
  split; cbn [lm_ls onlineA maxOnlineA lm_heldA lm_heldB lm_accepted lm_gone].
  - by rewrite length_insert.
  - unfold admitted, undos. cbn [lm_ls lm_heldA]. by rewrite Ei.
  - unfold admitted, undos in *. cbn [lm_ls lm_heldA]. rewrite Ei. rewrite El in Hb, Hc.
    repeat rewrite ?map_app, ?concat_app, ?length_app in *. cbn in *. rewrite !length_app in *.
    destruct Hbound; lia.
  - apply (Permutation_count_occ Nat.eq_dec). intros x. specialize (Ha x). specialize (Hocc x). rewrite Ei. rewrite El in Ha.
    repeat rewrite ?map_app, ?concat_app, ?count_occ_app in *. cbn in *. rewrite !count_occ_app in *. lia.
Qed.

(** The three conditions of [listener_inv] for a concrete change. *)
Ltac change_listener Hi Hl :=
  eapply (listener_inv _ _ _ _ _ _ _ _ _ Hi Hl);
  unfold l_admitted, l_undo, l_conns;
  cbn [l_pc chA chB set_pc pc_conn lm_heldA lm_heldB lm_gone lm_accepted maxOnlineA onlineA];
  repeat rewrite ?length_app, ?conns_of_app, ?conns_of_conn, ?conns_of_err;
  [cbn; lia|cbn; lia|intros x; repeat rewrite ?count_occ_app, ?conns_of_app; cbn; repeat case_match; lia].

Lemma goes_inv i l s s' :
  l_inv n s -> maxOnlineA s = max -> lm_ls s !! i = Some l -> accept_step i l s = Some s' -> l_inv n s' /\ maxOnlineA s' = max.
Proof.
  intros Hi Hm Hl E. pose proof (undos_le n s Hi) as Hu.
  pose proof (li_count n s Hi) as Hc. pose proof (li_bound n s Hi) as Hb.
  pose proof (int32_small (onlineA s + 1) ltac:(lia)) as W1. pose proof (int32_small (onlineA s - 1) ltac:(lia)) as W2.
  unfold accept_step in E. destruct l as [pc a b]. cbn [l_pc chA chB] in E. destruct pc as [| |c|c|c|c| | |]; try done;
    try (destruct (_ <? _); [|done]); injection E as <-; (split; [|done]); unfold set_online, set_l;
    rewrite ?W1, ?W2.
  - destruct (Z.leb_spec (onlineA s + 1) (maxOnlineA s)); change_listener Hi Hl.
  - change_listener Hi Hl.
  - change_listener Hi Hl.
  - change_listener Hi Hl.
  - change_listener Hi Hl.
  - change_listener Hi Hl.
Qed.

Lemma take_inv i l s s' :
  l_inv n s -> lm_ls s !! i = Some l -> takeA i l s = Some s' \/ takeB i l s = Some s' ->
  l_inv n s' /\ maxOnlineA s' = maxOnlineA s.
Proof.
  intros Hi Hl E. unfold takeA, takeB, set_l in E. destruct l as [pc a b]. cbn [l_pc chA chB] in E.
  destruct E as [E|E]; [destruct a as [|[c|] a]|destruct b as [|[c|] b]]; try done; injection E as <-; (split; [|done]);
    cbn [lm_shutdown lm_closed lm_panicked onlineA maxOnlineA lm_ls lm_heldA lm_heldB lm_accepted lm_gone];
    change_listener Hi Hl.
Qed.

(** Where a connection leaves, or nothing of this changes. *)
Lemma rest_inv b1 b2 b3 s :
  l_inv n s -> l_inv n (MkLmux b1 b2 b3 (onlineA s) (maxOnlineA s) (lm_ls s) (lm_heldA s) (lm_heldB s) (lm_accepted s) (lm_gone s)).
Proof. intros [Hn Hc Hb Ha]. by split. Qed.

Lemma decrease_inv k s s' :
  l_inv n s -> maxOnlineA s = max -> DecreaseOnlineA k s = Some s' -> l_inv n s' /\ maxOnlineA s' = max.
Proof.
  intros Hi Hm E. pose proof (undos_le n s Hi) as Hu. destruct Hi as [Hn Hc Hb Ha].
  unfold DecreaseOnlineA in E. destruct (lm_heldA s !! k) as [c|] eqn:Hk; [|done]. cbn [mbind option_bind] in E. injection E as <-.
  rewrite (int32_small (onlineA s - 1)) by lia. destruct (list_split _ _ _ Hk) as (l1 & l2 & El & Ed). split; [|done].
  unfold admitted, undos in *. split; unfold admitted, undos; cbn [lm_ls onlineA maxOnlineA lm_heldA lm_heldB lm_accepted lm_gone];
    rewrite ?Ed; rewrite ?El in *; try done; repeat rewrite ?length_app in *; cbn [length] in *; try lia.
  rewrite Ha. apply Permutation_app_head. rewrite (Permutation_app_comm (lm_gone s) [c]), <- !app_assoc. cbn.
  apply Permutation_app_head. rewrite Permutation_middle. apply Permutation_app_head. by rewrite Permutation_middle.
Qed.

Lemma lexec_inv x s s' : l_inv n s -> maxOnlineA s = max -> lexec x s = Some s' -> l_inv n s' /\ maxOnlineA s' = max.
Proof.
  intros Hi Hm E. destruct x as [i|i r|i|i|i|k|k|]; cbn [lexec] in E.
  - destruct (lm_ls s !! i) as [[pc a b]|] eqn:Hl; [|done]. cbn [mbind option_bind l_pc] in E. destruct pc; try done.
    injection E as <-. split; [|done]. unfold set_l.
    assert (exists pc, (if lm_shutdown s then AcDone else AcWait) = pc /\ (pc = AcDone \/ pc = AcWait)) as (pc & -> & [-> | ->])
      by (destruct (lm_shutdown s); eauto); change_listener Hi Hl.
  - destruct (lm_ls s !! i) as [[pc a b]|] eqn:Hl; [|done]. cbn [mbind option_bind l_pc] in E. destruct pc; try done.
    destruct r; injection E as <-; (split; [|done]); unfold set_l; change_listener Hi Hl.
  - destruct (lm_ls s !! i) as [l|] eqn:Hl; [|done]. by apply (goes_inv i l s).
  - destruct (lm_ls s !! i) as [l|] eqn:Hl; [|done]. rewrite <- Hm. apply (take_inv i l s s' Hi Hl). by left.
  - destruct (lm_ls s !! i) as [l|] eqn:Hl; [|done]. rewrite <- Hm. apply (take_inv i l s s' Hi Hl). by right.
  - by apply (decrease_inv k s).
  - destruct (lm_heldB s !! k) as [c|] eqn:Hk; [|done]. injection E as <-. split; [|done].
    destruct (list_split _ _ _ Hk) as (l1 & l2 & El & Ed). destruct Hi as [Hn Hc Hb Ha]. split; try done.
    cbn [lm_accepted lm_ls lm_heldA lm_heldB lm_gone]. rewrite Ed, Ha, El. do 2 apply Permutation_app_head.
    rewrite <- !app_assoc. apply Permutation_app_head. cbn. by rewrite Permutation_cons_append, app_assoc.
  - injection E as <-. split; [by apply rest_inv|done].
Qed.

Lemma lrun_inv xs : forall s s', l_inv n s -> maxOnlineA s = max -> lrun xs s = Some s' -> l_inv n s' /\ maxOnlineA s' = max.
Proof.
  induction xs as [|x xs IH]; intros s s' Hi Hm; cbn [lrun]; [by intros [= <-]|].
  destruct (lexec x s) as [s1|] eqn:E; [|done]. cbn [mbind option_bind].
  destruct (lexec_inv x s s1 Hi Hm E) as [Hi1 Hm1]. by apply IH.
Qed.

Lemma newmux_inv : l_inv n (NewMux max n) /\ maxOnlineA (NewMux max n) = max.
Proof.
  assert (forall {B} (f : lchan -> list B), f (MkLchan AcLoop [] []) = [] ->
    concat (map f (replicate n (MkLchan AcLoop [] []))) = []) as Hz.
  { intros B f Hf. generalize n. intros m. induction m as [|m IH]; [done|]. cbn. by rewrite Hf, IH. }
  split; [|by apply int32_small; lia].
  split; cbn [NewMux lm_ls onlineA maxOnlineA lm_heldA lm_heldB lm_accepted lm_gone admitted undos];
    unfold admitted, undos; cbn [NewMux lm_ls lm_heldA]; rewrite ?Hz by done; try done.
  - by rewrite length_replicate.
  - rewrite int32_small by lia. cbn. lia.
Qed.
End bounded.

(** The multiplexer keeps its promise under every interleaving of any
    number of listeners: never more than [maxOnlineA] connections are on their
    way to A, waiting in A or taken from A and still online, also between the
    addition and its being taken back; the counter is exact whenever no
    addition is pending; and every connection accepted is in exactly one place:
    with its listener, in one of the channels, online, or gone. *)
Theorem mux_bounded (n : nat) (max : Z) (xs : list llabel) (s : lmux) :
  0 <= max -> max + Z.of_nat n < 2 ^ 31 - 1 -> lrun xs (NewMux max n) = Some s ->
  len (admitted s) <= max /\
  (undos s = [] -> onlineA s = len (admitted s)) /\
  lm_accepted s ≡ₚ concat (map l_conns (lm_ls s)) ++ lm_heldA s ++ lm_heldB s ++ lm_gone s.
Proof.
  intros Hs Hf E. destruct (newmux_inv n max Hs Hf) as [H0 Hm0].
  destruct (lrun_inv n max Hf xs _ _ H0 Hm0 E) as [[Hn Hc Hb Ha] Hm]. unfold len. rewrite <- Hm. split; [done|].
  split; [|done]. intros Hu. rewrite Hc, Hu. cbn. lia.
Qed.

(** Two listeners and room for one connection: the first goes to A, the second
    to B, and when the first is over the third goes to A. *)
Definition mux_trace : list llabel :=
  [LoopTest 0; LoopTest 1; AcceptReturns 0 (AConn 10); AcceptReturns 1 (AConn 20); Goes 0; Goes 1; Goes 0; Goes 1; Goes 1;
   TakeA 0; TakeB 1; Decrease 0; LoopTest 1; AcceptReturns 1 (AConn 21); Goes 1; Goes 1; StopMux; LoopTest 0]%nat.

Lemma mux_bounded_witness :
  exists s, lrun mux_trace (NewMux 1 2) = Some s /\ len (admitted s) <= 1 /\ onlineA s = len (admitted s) /\
    lm_heldB s = [20]%nat /\ lm_gone s = [10]%nat.
Proof.
  eexists. split; [vm_compute; reflexivity|].
  destruct (mux_bounded 2 1 mux_trace _ ltac:(lia) ltac:(lia) ltac:(vm_compute; reflexivity)) as (H1 & H2 & _).
  split; [exact H1|]. split; [exact (H2 eq_refl)|]. split; reflexivity.
Defined.

(** ** Where the code falls short *)

(** [Stop] twice closes a closed channel. *)
Lemma stop_twice_panics : exists s, lrun [StopMux; StopMux] (NewMux 1 1) = Some s /\ lm_panicked s = true.
Proof. eexists. split; [vm_compute; reflexivity|reflexivity]. Qed.

(** A limit beyond 32 bits wraps: nothing goes to A. *)
Lemma large_limit_wraps :
  exists s, lrun [LoopTest 0; AcceptReturns 0 (AConn 1); Goes 0; Goes 0; Goes 0; TakeB 0]%nat (NewMux (2 ^ 31) 1) = Some s /\
    lm_heldB s = [1]%nat.
Proof. eexists. split; [vm_compute; reflexivity|reflexivity]. Qed.
