(* ===== verification/ConnKey.v ===== *)
(** * Keys of connections (src/nbhttp/convert.go)

    The HTTP engine keeps the addresses of its connections in tables, encoded
    with a tag for the type as byte arrays, and decodes them to close them.  A
    pointer is its address; only 64-bit platforms. *)

From Stdlib Require Import ZArith Lia.
From Stdlib Require Import Strings.Byte.
From stdpp Require Import base numbers list list_numbers gmap.
From S2P Require Import Prelude GoLib.

Open Scope Z_scope.

Definition uintptrSize : nat := 8.
Definition connTypNONE : byte := x00.
Definition connTypNBIO : byte := x01.
Definition connTypTCP : byte := x02.
Definition connTypUNIX : byte := x03.
Definition connTypTLS : byte := x04.
Definition connTypLTLS : byte := x05.

(** The dynamic types of a [net.Conn] that the switch knows, and any other. *)
Inductive net_type := TyNBIO | TyTCP | TyUNIX | TyTLS | TyLTLS | TyOther.

#[export] Instance net_type_eq_dec : EqDecision net_type.
Proof. solve_decision. Defined.

Record net_conn := MkNetConn { nc_type : net_type; nc_ptr : Z }.

#[export] Instance net_conn_eq_dec : EqDecision net_conn.
Proof. solve_decision. Defined.

Definition conn2Array (c : net_conn) : option bytes :=
  typ ← match nc_type c with
        | TyNBIO => Some connTypNBIO
        | TyTCP => Some connTypTCP
        | TyUNIX => Some connTypUNIX
        | TyTLS => Some connTypTLS
        | TyLTLS => Some connTypLTLS
        | TyOther => None
        end;
  Some (le_put uintptrSize (nc_ptr c) ++ [typ]).

(** [None] also where the array is too short for an index. *)
Definition array2Conn (b : bytes) : option net_conn :=
  let p := le_get (take uintptrSize b) in
  match b !! uintptrSize with
  | Some x01 => Some (MkNetConn TyNBIO p)
  | Some x02 => Some (MkNetConn TyTCP p)
  | Some x03 => Some (MkNetConn TyUNIX p)
  | Some x04 => Some (MkNetConn TyTLS p)
  | Some x05 => Some (MkNetConn TyLTLS p)
  | _ => None
  end.

Definition is_address (p : Z) : Prop := 0 <= p < 2 ^ 64.

Lemma conn_key_decodes c k : is_address (nc_ptr c) -> conn2Array c = Some k -> array2Conn k = Some c.
Proof.
  intros Hp Hk. destruct c as [t p]. unfold conn2Array in Hk. cbn [nc_type nc_ptr] in *.
  assert (forall typ, array2Conn (le_put uintptrSize p ++ [typ]) =
    match typ with
    | x01 => Some (MkNetConn TyNBIO p) | x02 => Some (MkNetConn TyTCP p) | x03 => Some (MkNetConn TyUNIX p)
    | x04 => Some (MkNetConn TyTLS p) | x05 => Some (MkNetConn TyLTLS p) | _ => None
    end) as H.
  { intros typ. unfold array2Conn. rewrite lookup_app_r by (rewrite length_le_put; done).
    rewrite length_le_put, take_app_length' by (by rewrite length_le_put). rewrite le_get_put, Z.mod_small by (unfold is_address in Hp; change (256 ^ Z.of_nat uintptrSize) with (2 ^ 64); lia).
    change ([typ] !! (uintptrSize - uintptrSize)%nat) with (Some typ). by destruct typ. }
  destruct t; cbn [mbind option_bind] in Hk; try done; apply (inj Some) in Hk as <-; by rewrite H.
Qed.

Lemma conn_key_inj c c' k :
  is_address (nc_ptr c) -> is_address (nc_ptr c') -> conn2Array c = Some k -> conn2Array c' = Some k -> c = c'.
Proof.
  intros H1 H2 E1 E2. apply conn_key_decodes in E1; [|done]. apply conn_key_decodes in E2; [|done]. congruence.
Qed.
