(* ===== verification/HttpEngine.v ===== *)
(** * The connections of an HTTP engine (src/nbhttp/engine.go)

    In mixed mode the engine listens through the multiplexer: connections of
    channel A are read by a goroutine each, those of channel B by the pollers.
    The engine keeps the keys of its connections in a table of at most
    [MaxLoad] entries.  The listening goroutines, the blocking read loops, the
    pollers' close handlers and upgrades that move a connection to the pollers
    interleave; a step is one operation with its critical section.  What the
    network and the operating system do is an argument of the operations. *)

From Stdlib Require Import ZArith Lia.
From Stdlib Require Import Strings.Byte.
From stdpp Require Import base numbers list list_numbers gmap.
From S2P Require Import Prelude GoLib Lmux ConnKey.

Open Scope Z_scope.

(** The state.  [he_readers] are the connections with a blocking read loop,
    [he_polled] those given to a poller, [he_closing] those whose close handler
    ([OnClose] of the poller's engine) is still to run.  The history: the calls
    of [_onOpen] and [_onClose], the connections refused, those that the
    poller closed without calling a handler, and those that it closed before
    [_onOpen] was called. *)
Record http_engine := MkHttpEngine {
  he_mux : lmux;
  he_conns : gset bytes;
  he_readers : list nat;
  he_polled : list nat;
  he_closing : list nat;
  he_opens : list nat;
  he_closes : list nat;
  he_refused : list nat;
  he_silent : list nat;
  he_unopened : list nat
}.

Definition NewHttpEngine (MaxBlockingOnline : Z) (n : nat) : http_engine :=
  MkHttpEngine (NewMux MaxBlockingOnline n) ∅ [] [] [] [] [] [] [] [].

(** How adding to a poller goes: [NBConn] fails; the connection has a session;
    [AddConn] fails with the connection closed by the poller, with its close
    handler called or, when the table of descriptors is full, not called; or it
    is added. *)
Inductive poll_outcome := ONBConn | OSession | ORegister | OTooMany | OAdded.

Section engine.
(** The type of an accepted connection.  The number of a connection is the
    address of the object that stands for it. *)
Context (ty : nat -> net_type) (MaxLoad : Z).

Definition std_key (c : nat) : option bytes := conn2Array (MkNetConn (ty c) (Z.of_nat c)).
Definition nb_key (c : nat) : option bytes := conn2Array (MkNetConn TyNBIO (Z.of_nat c)).

Definition with_mux (m : lmux) (e : http_engine) : http_engine :=
  MkHttpEngine m (he_conns e) (he_readers e) (he_polled e) (he_closing e) (he_opens e) (he_closes e) (he_refused e) (he_silent e) (he_unopened e).
Definition with_conns (x : gset bytes) (e : http_engine) : http_engine :=
  MkHttpEngine (he_mux e) x (he_readers e) (he_polled e) (he_closing e) (he_opens e) (he_closes e) (he_refused e) (he_silent e) (he_unopened e).
Definition opened (c : nat) (e : http_engine) : http_engine :=
  MkHttpEngine (he_mux e) (he_conns e) (he_readers e) (he_polled e) (he_closing e) (he_opens e ++ [c]) (he_closes e) (he_refused e) (he_silent e) (he_unopened e).
Definition closed (c : nat) (e : http_engine) : http_engine :=
  MkHttpEngine (he_mux e) (he_conns e) (he_readers e) (he_polled e) (he_closing e) (he_opens e) (he_closes e ++ [c]) (he_refused e) (he_silent e) (he_unopened e).
Definition refused (c : nat) (e : http_engine) : http_engine :=
  MkHttpEngine (he_mux e) (he_conns e) (he_readers e) (he_polled e) (he_closing e) (he_opens e) (he_closes e) (he_refused e ++ [c]) (he_silent e) (he_unopened e).

(** [decrease], for connection number [k] of those taken from A. *)
Definition decrease (k : nat) (e : http_engine) : option http_engine :=
  m ← DecreaseOnlineA k (he_mux e); Some (with_mux m e).

Definition overloaded (e : http_engine) : bool := MaxLoad <=? Z.of_nat (size (he_conns e)).

(** A connection that just came from A is the last one taken from it. *)
Definition refuse_blocking (c : nat) (e : http_engine) : option http_engine :=
  decrease (length (he_readers e)) (refused c e).

Definition unopened (c : nat) (e : http_engine) : http_engine :=
  MkHttpEngine (he_mux e) (he_conns e) (he_readers e) (he_polled e) (he_closing e) (he_opens e) (he_closes e) (he_refused e)
    (he_silent e) (he_unopened e ++ [c]).

Definition spawn_reader (c : nat) (e : http_engine) : http_engine :=
  MkHttpEngine (he_mux e) (he_conns e) (he_readers e ++ [c]) (he_polled e) (he_closing e) (he_opens e) (he_closes e)
    (he_refused e) (he_silent e) (he_unopened e).

Definition AddConnNonTLSBlocking (c : nat) (e : http_engine) : option http_engine :=
  if overloaded e then refuse_blocking c e
  else
    match ty c with
    | TyTCP | TyUNIX =>
        match std_key c with
        | None => refuse_blocking c e
        | Some key => Some (spawn_reader c (opened c (with_conns ({[key]} ∪ he_conns e) e)))
        end
    | _ => refuse_blocking c e
    end.

(** The same steps; the read loop is the one of a TLS connection. *)
Definition AddConnTLSBlocking (c : nat) (e : http_engine) : option http_engine :=
  if overloaded e then refuse_blocking c e
  else
    match ty c with
    | TyTCP | TyUNIX =>
        match std_key c with
        | None => refuse_blocking c e
        | Some key => Some (spawn_reader c (opened c (with_conns ({[key]} ∪ he_conns e) e)))
        end
    | _ => refuse_blocking c e
    end.

(** [engine.AddConn] with its effects on the table, by outcome. *)
Definition add_to_poller (o : poll_outcome) (c : nat) (key : bytes) (e : http_engine) : http_engine :=
  match o with
  | ORegister =>
      MkHttpEngine (he_mux e) (he_conns e ∖ {[key]}) (he_readers e) (he_polled e) (he_closing e ++ [c]) (he_opens e) (he_closes e)
        (he_refused e) (he_silent e) (he_unopened e)
  | OTooMany =>
      MkHttpEngine (he_mux e) (he_conns e ∖ {[key]}) (he_readers e) (he_polled e) (he_closing e) (he_opens e) (he_closes e)
        (he_refused e) (he_silent e ++ [c]) (he_unopened e)
  | _ =>
      MkHttpEngine (he_mux e) (he_conns e) (he_readers e) (he_polled e ++ [c]) (he_closing e) (he_opens e) (he_closes e)
        (he_refused e) (he_silent e) (he_unopened e)
  end.

(** The [decrease] of B does nothing. *)
Definition AddConnNonTLSNonBlocking (o : poll_outcome) (c : nat) (e : http_engine) : http_engine :=
  match o with
  | ONBConn | OSession => refused c e
  | _ =>
      match nb_key c with
      | None => refused c e
      | Some key =>
          if overloaded e then refused c e
          else add_to_poller o c key (opened c (with_conns ({[key]} ∪ he_conns e) e))
      end
  end.

Definition AddConnTLSNonBlocking (o : poll_outcome) (c : nat) (e : http_engine) : http_engine :=
  match o with
  | ONBConn | OSession => refused c e
  | _ =>
      match nb_key c with
      | None => refused c e
      | Some key =>
          if overloaded e then refused c e
          else add_to_poller o c key (opened c (with_conns ({[key]} ∪ he_conns e) e))
      end
  end.

(** An upgrade moves a connection to the pollers: [_onOpen] is called last, and
    only if the connection was added. *)
Definition AddTransferredConn (o : poll_outcome) (c : nat) (e : http_engine) : http_engine :=
  match nb_key c with
  | None => refused c e
  | Some key =>
      if overloaded e then refused c e
      else
        let e := add_to_poller o c key (with_conns ({[key]} ∪ he_conns e) e) in
        match o with ORegister | OTooMany => unopened c e | _ => opened c e end
  end.

(** The deferred end of a blocking read loop, number [k]. *)
Definition end_reader (k : nat) (e : http_engine) : option http_engine :=
  c ← he_readers e !! k;
  let e := MkHttpEngine (he_mux e)
             (match std_key c with Some key => he_conns e ∖ {[key]} | None => he_conns e end)
             (delete k (he_readers e)) (he_polled e) (he_closing e) (he_opens e) (he_closes e) (he_refused e) (he_silent e) (he_unopened e) in
  decrease k (closed c e).

(** The close handler the engine gives to [OnClose] of the pollers' engine. *)
Definition on_close (k : nat) (e : http_engine) : option http_engine :=
  c ← he_closing e !! k;
  let e := closed c e in
  Some (MkHttpEngine (he_mux e) (match nb_key c with Some key => he_conns e ∖ {[key]} | None => he_conns e end)
          (he_readers e) (he_polled e) (delete k (he_closing e)) (he_opens e) (he_closes e) (he_refused e) (he_silent e) (he_unopened e)).

(** A poller, or a write that failed, or a timer closes connection [k]. *)
Definition poller_closes (k : nat) (e : http_engine) : option http_engine :=
  c ← he_polled e !! k;
  Some (MkHttpEngine (he_mux e) (he_conns e) (he_readers e) (delete k (he_polled e)) (he_closing e ++ [c]) (he_opens e) (he_closes e)
          (he_refused e) (he_silent e) (he_unopened e)).

(** ** Steps *)

(** [listen] on A and on B of listener [i]: an event is taken from the channel,
    and a connection is added. *)
Inductive hlabel :=
| HMux (x : llabel)
| HListenA (i : nat) (tls : bool)
| HListenB (i : nat) (tls : bool) (o : poll_outcome)
| HReaderEnds (k : nat)
| HTransfer (k : nat) (c : nat) (o : poll_outcome)
| HPollerCloses (k : nat)
| HOnClose (k : nat).

(** The last element a step added to a list. *)
Definition taken (l l' : list nat) : option nat := l' !! length l.

Definition listenA (i : nat) (tls : bool) (e : http_engine) : option http_engine :=
  m ← lexec (TakeA i) (he_mux e);
  match taken (lm_heldA (he_mux e)) (lm_heldA m) with
  | Some c => (if tls then AddConnTLSBlocking else AddConnNonTLSBlocking) c (with_mux m e)
  | None => Some (with_mux m e)
  end.

Definition listenB (i : nat) (tls : bool) (o : poll_outcome) (e : http_engine) : option http_engine :=
  m ← lexec (TakeB i) (he_mux e);
  match taken (lm_heldB (he_mux e)) (lm_heldB m) with
  | Some c =>
      m ← lexec (LeaveB (length (lm_heldB (he_mux e)))) m;
      Some ((if tls then AddConnTLSNonBlocking else AddConnNonTLSNonBlocking) o c (with_mux m e))
  | None => Some (with_mux m e)
  end.

(** An address for a new object: no object in use has it. *)
Definition unknown (c : nat) (e : http_engine) : bool :=
  (Z.of_nat c <? 2 ^ 64) &&
  bool_decide (c ∉ concat (map l_conns (lm_ls (he_mux e))) ++ he_readers e ++ he_polled e ++ he_closing e).

(** The steps of the multiplexer itself. *)
Definition mux_label (x : llabel) (e : http_engine) : bool :=
  match x with
  | LoopTest _ | Goes _ | StopMux | AcceptReturns _ (ATimeout | AError) => true
  | AcceptReturns _ (AConn c) => unknown c e
  | _ => false
  end.

Definition hexec (x : hlabel) (e : http_engine) : option http_engine :=
  match x with
  | HMux x => if mux_label x e then m ← lexec x (he_mux e); Some (with_mux m e) else None
  | HListenA i tls => listenA i tls e
  | HListenB i tls o => listenB i tls o e
  | HReaderEnds k => end_reader k e
  | HTransfer k c o => if unknown c e then end_reader k (AddTransferredConn o c e) else None
  | HPollerCloses k => poller_closes k e
  | HOnClose k => on_close k e
  end.

Fixpoint hrun (xs : list hlabel) (e : http_engine) : option http_engine :=
  match xs with
  | [] => Some e
  | x :: xs => e ← hexec x e; hrun xs e
  end.
End engine.
