(* ===== verification/HttpEngineProps.v ===== *)
(** * The connections of an HTTP engine: limits, keys and handlers

    What holds of [HttpEngine] in every run. *)

From Stdlib Require Import ZArith Lia.
From Stdlib Require Import Strings.Byte.
From stdpp Require Import base numbers list list_numbers gmap.
From S2P Require Import Prelude GoLib Lmux ConnKey HttpEngine.

Open Scope Z_scope.

(** Permutations of lists of numbers, by counting occurrences. *)
Ltac perm_lia :=
  apply (Permutation_count_occ Nat.eq_dec);
  let x := fresh "x" in intros x;
  repeat match goal with H : Permutation _ _ |- _ => pose proof (proj1 (Permutation_count_occ Nat.eq_dec _ _) H x); clear H end;
  do 2 (repeat rewrite ?count_occ_app in *; cbn [count_occ] in *); repeat case_match; lia.

Section props.
Context (ty : nat -> net_type) (MaxLoad : Z).

Abbreviation std_key := (std_key ty).

Definition addressed (c : nat) : Prop := is_address (Z.of_nat c).

Definition is_std (c : nat) : Prop := ty c = TyTCP \/ ty c = TyUNIX.

Lemma std_key_some c : is_std c -> is_Some (std_key c).
Proof. unfold HttpEngine.std_key, conn2Array. intros [H|H]; cbn; rewrite H; by eexists. Qed.

Lemma std_key_inj c c' k : addressed c -> addressed c' -> std_key c = Some k -> std_key c' = Some k -> c = c'.
Proof.
  intros A1 A2 H1 H2.
  pose proof (conn_key_inj (MkNetConn (ty c) (Z.of_nat c)) (MkNetConn (ty c') (Z.of_nat c')) k A1 A2 H1 H2) as [= _ H]. lia.
Qed.

Lemma nb_key_inj c c' k : addressed c -> addressed c' -> nb_key c = Some k -> nb_key c' = Some k -> c = c'.
Proof.
  intros A1 A2 H1 H2.
  pose proof (conn_key_inj (MkNetConn TyNBIO (Z.of_nat c)) (MkNetConn TyNBIO (Z.of_nat c')) k A1 A2 H1 H2) as [= H]. lia.
Qed.

Lemma std_nb_key c c' k : addressed c -> addressed c' -> is_std c -> std_key c = Some k -> nb_key c' = Some k -> False.
Proof.
  intros A1 A2 Hs H1 H2.
  pose proof (conn_key_inj (MkNetConn (ty c) (Z.of_nat c)) (MkNetConn TyNBIO (Z.of_nat c')) k A1 A2 H1 H2) as [= H _].
  destruct Hs; congruence.
Qed.

(** ** The invariant of the table, beside the multiplexer

    [L] are the connections still with the multiplexer. *)

Definition std_keyed (l : list nat) (key : bytes) : Prop := exists c, c ∈ l /\ std_key c = Some key.
Definition nb_keyed (l : list nat) (key : bytes) : Prop := exists c, c ∈ l /\ nb_key c = Some key.

(** Objects in use have addresses of their own. *)
Definition in_use (l : list nat) : Prop := NoDup l /\ Forall addressed l.

#[local] Instance in_use_proper : Proper ((≡ₚ) ==> iff) in_use.
Proof. intros l l' Hl. unfold in_use. by rewrite Hl. Qed.

Lemma in_use_perm l l' : l ≡ₚ l' -> in_use l -> in_use l'.
Proof. intros Hl. by rewrite Hl. Qed.

Lemma in_use_cons c l : in_use (c :: l) <-> c ∉ l /\ addressed c /\ in_use l.
Proof. unfold in_use. rewrite NoDup_cons, Forall_cons. tauto. Qed.

Lemma in_use_addr l c : in_use l -> c ∈ l -> addressed c.
Proof. intros [_ H] Hc. rewrite Forall_forall in H. by apply H. Qed.

Record core (L : list nat) (e : http_engine) : Prop := {
  co_live : in_use (L ++ he_readers e ++ he_polled e ++ he_closing e);
  co_std : Forall is_std (he_readers e);
  co_in key : std_keyed (he_readers e) key \/ nb_keyed (he_polled e) key -> key ∈ he_conns e;
  co_out key : key ∈ he_conns e -> std_keyed (he_readers e) key \/ nb_keyed (he_polled e ++ he_closing e) key;
  co_size : Z.of_nat (size (he_conns e)) <= MaxLoad;
  co_calls : he_opens e ++ he_unopened e ≡ₚ he_readers e ++ he_polled e ++ he_closing e ++ he_closes e ++ he_silent e
}.

Lemma core_mux L m e : core L e -> core L (with_mux m e).
Proof. intros [H1 H2 H3 H4 H5 H6]. by split. Qed.

Lemma core_perm L L' e : L ≡ₚ L' -> core L e -> core L' e.
Proof. intros HL [H1 H2 H3 H4 H5 H6]. split; try done. by rewrite <- HL. Qed.

Lemma core_less c L e : core (c :: L) e -> core L e.
Proof. intros [H1 H2 H3 H4 H5 H6]. split; try done. by apply in_use_cons in H1 as (_ & _ & H1). Qed.

Lemma core_more c L e :
  core L e -> c ∉ L ++ he_readers e ++ he_polled e ++ he_closing e /\ addressed c -> core (c :: L) e.
Proof. intros [H1 H2 H3 H4 H5 H6] [Hc Ha]. split; try done. by apply in_use_cons. Qed.

Lemma core_refused c L e : core L e -> core L (refused c e).
Proof. intros [H1 H2 H3 H4 H5 H6]. by split. Qed.

Lemma size_insert (X : gset bytes) key : (size ({[key]} ∪ X) <= S (size X))%nat.
Proof.
  destruct (decide (key ∈ X)) as [H|H].
  - rewrite (subseteq_union_1_L {[key]} X) by set_solver. lia.
  - rewrite size_union by set_solver. by rewrite size_singleton.
Qed.

Lemma size_remove (X : gset bytes) key : (size (X ∖ {[key]}) <= size X)%nat.
Proof. apply subseteq_size. set_solver. Qed.

Lemma keyed_app (l l' : list nat) key : nb_keyed (l ++ l') key <-> nb_keyed l key \/ nb_keyed l' key.
Proof.
  unfold nb_keyed. split.
  - intros (c & [H|H]%elem_of_app & E); eauto.
  - intros [(c & H & E)|(c & H & E)]; exists c; rewrite elem_of_app; auto.
Qed.

Lemma std_keyed_app (l l' : list nat) key : std_keyed (l ++ l') key <-> std_keyed l key \/ std_keyed l' key.
Proof.
  unfold std_keyed. split.
  - intros (c & [H|H]%elem_of_app & E); eauto.
  - intros [(c & H & E)|(c & H & E)]; exists c; rewrite elem_of_app; auto.
Qed.

Lemma nb_keyed_one c key : nb_keyed [c] key <-> nb_key c = Some key.
Proof.
  unfold nb_keyed. split; [|intros H; exists c; split; [by left|done]].
  intros (c' & ->%list_elem_of_singleton & H). done.
Qed.

Lemma std_keyed_one c key : std_keyed [c] key <-> std_key c = Some key.
Proof.
  unfold std_keyed. split; [|intros H; exists c; split; [by left|done]].
  intros (c' & ->%list_elem_of_singleton & H). done.
Qed.

(** A connection gets a reader. *)
Lemma core_spawn c L key e :
  core (c :: L) e -> is_std c -> std_key c = Some key -> overloaded MaxLoad e = false ->
  core L (spawn_reader c (opened c (with_conns ({[key]} ∪ he_conns e) e))).
Proof.
  intros [H1 H2 H3 H4 H5 H6] Hc Hk Ho. unfold overloaded in Ho. pose proof (size_insert (he_conns e) key).
  split; cbn [he_readers he_polled he_closing he_conns he_opens he_unopened he_closes he_silent spawn_reader opened with_conns].
  - refine (in_use_perm _ _ _ H1). clear H6. perm_lia.
  - apply Forall_app. split; [done|]. by apply Forall_singleton.
  - intros k. rewrite std_keyed_app, std_keyed_one, elem_of_union, elem_of_singleton.
    intros [[H'|H']|H']; [right; apply H3; by left|left; congruence|right; apply H3; by right].
  - intros k. rewrite std_keyed_app, std_keyed_one, elem_of_union, elem_of_singleton.
    intros [-> |H']; [by left; right|]. destruct (H4 k H') as [?|?]; auto.
  - lia.
  - perm_lia.
Qed.

(** A connection goes to a poller; [told] says whether [_onOpen] came first. *)
Lemma core_poll o c L key e (told : bool) :
  core (c :: L) e -> nb_key c = Some key -> overloaded MaxLoad e = false ->
  core L (match told, o with
          | true, _ => add_to_poller o c key (opened c (with_conns ({[key]} ∪ he_conns e) e))
          | false, (ORegister | OTooMany) => unopened c (add_to_poller o c key (with_conns ({[key]} ∪ he_conns e) e))
          | false, _ => opened c (add_to_poller o c key (with_conns ({[key]} ∪ he_conns e) e))
          end).
Proof.
  intros [H1 H2 H3 H4 H5 H6] Hk Ho. unfold overloaded in Ho. pose proof (size_insert (he_conns e) key) as Hs.
  pose proof (size_remove ({[key]} ∪ he_conns e) key) as Hr.
  pose proof H1 as (Hc & Hac & H0)%in_use_cons.
  assert (forall c', c' ∈ he_readers e \/ c' ∈ he_polled e -> addressed c') as Had.
  { intros c' Hc'. apply (in_use_addr _ _ H0). rewrite !elem_of_app. tauto. }
  assert (forall k, std_keyed (he_readers e) k \/ nb_keyed (he_polled e) k -> k <> key) as Hne.
  { intros k [(c' & Hc' & Ek)|(c' & Hc' & Ek)] ->.
    - rewrite Forall_forall in H2. by apply (std_nb_key c' c key); auto.
    - apply Hc. rewrite (nb_key_inj c c' key) by auto. rewrite !elem_of_app. tauto. }
  destruct told, o; (split;
    cbn [he_readers he_polled he_closing he_conns he_opens he_unopened he_closes he_silent add_to_poller opened unopened with_conns];
    [clear H6; first [refine (in_use_perm _ _ _ H1); perm_lia|refine (in_use_perm _ _ _ H0); perm_lia]
    |done| | |lia|perm_lia]).
  all: intros k; rewrite ?keyed_app, ?nb_keyed_one.
  all: first [rewrite elem_of_difference|idtac]; rewrite elem_of_union, elem_of_singleton.
  all: first
    [ intros [H'|[H'|H']]; [right; apply H3; by left|right; apply H3; by right|left; congruence]
    | intros [-> |H']; [tauto|]; destruct (H4 k H') as [?|[?|?]%keyed_app]; tauto
    | intros H'; split; [right; by apply H3|by apply Hne]
    | intros [[-> |H'] Hn]; [done|]; destruct (H4 k H') as [?|[?|?]%keyed_app]; tauto ].
Qed.

(** The end of reader [k]. *)
Lemma core_end k c L e :
  core L e -> he_readers e !! k = Some c ->
  core L (closed c (MkHttpEngine (he_mux e)
    (match std_key c with Some key => he_conns e ∖ {[key]} | None => he_conns e end)
    (delete k (he_readers e)) (he_polled e) (he_closing e) (he_opens e) (he_closes e) (he_refused e) (he_silent e) (he_unopened e))).
Proof.
  intros [H1 H2 H3 H4 H5 H6] Hk. destruct (list_split _ _ _ Hk) as (l1 & l2 & El & Ed).
  assert (is_std c) as Hstd by (rewrite Forall_forall in H2; apply H2; by eapply list_elem_of_lookup_2).
  destruct (std_key_some c Hstd) as [key Ekey]. rewrite Ekey. pose proof (size_remove (he_conns e) key).
  assert (he_readers e ≡ₚ c :: delete k (he_readers e)) as Hp by (rewrite Ed, El; by rewrite Permutation_middle).
  rewrite Hp in H1, H2, H6. generalize dependent (delete k (he_readers e)). intros rs H1 H2 H6 Ed Hp.
  assert (in_use (c :: L ++ rs ++ he_polled e ++ he_closing e)) as (Hc & Hac & N)%in_use_cons.
  { refine (in_use_perm _ _ _ H1). clear H6 Hp. perm_lia. }
  assert (forall c', c' ∈ rs \/ c' ∈ he_polled e -> addressed c') as Had.
  { intros c' Hc'. apply (in_use_addr _ _ N). rewrite !elem_of_app. tauto. }
  apply Forall_cons in H2 as [_ H2].
  split; cbn [he_readers he_polled he_closing he_conns he_opens he_unopened he_closes he_silent closed].
  - done.
  - done.
  - intros q Hq. rewrite elem_of_difference, elem_of_singleton. split.
    + apply H3. destruct Hq as [(c' & Hc' & E)|?]; [left|by right]. exists c'. split; [|done]. rewrite Hp. by right.
    + intros ->. destruct Hq as [(c' & Hc' & E)|(c' & Hc' & E)]; [|by apply (std_nb_key c c' key); auto].
      apply Hc. rewrite (std_key_inj c c' key) by auto. rewrite !elem_of_app. tauto.
  - intros q [Hq Hne]%elem_of_difference. rewrite elem_of_singleton in Hne.
    destruct (H4 q Hq) as [(c' & Hc' & E)|?]; [left|by right]. exists c'. split; [|done]. rewrite Hp in Hc'.
    apply elem_of_cons in Hc' as [-> |?]; [|done]. congruence.
  - lia.
  - clear Hp. perm_lia.
Qed.

(** A poller closes connection [k]. *)
Lemma core_poller_closes k L e e' : core L e -> poller_closes k e = Some e' -> core L e'.
Proof.
  intros [H1 H2 H3 H4 H5 H6] E. unfold poller_closes in E. destruct (he_polled e !! k) as [c|] eqn:Hk; [|done].
  cbn [mbind option_bind] in E. injection E as <-. destruct (list_split _ _ _ Hk) as (l1 & l2 & El & Ed).
  split; cbn [he_readers he_polled he_closing he_conns he_opens he_unopened he_closes he_silent]; rewrite ?Ed; try done.
  - refine (in_use_perm _ _ _ H1). rewrite El. clear H6. perm_lia.
  - intros q [Hq|Hq]; apply H3; [by left|right]. rewrite El. rewrite keyed_app in *.
    change (c :: l2) with ([c] ++ l2). rewrite keyed_app. tauto.
  - intros q Hq. destruct (H4 q Hq) as [?|Hk']; [by left|right]. rewrite El in Hk'. change (c :: l2) with ([c] ++ l2) in Hk'.
    rewrite !keyed_app in *. tauto.
  - rewrite El in H6. perm_lia.
Qed.

(** A close handler of a poller's connection. *)
Lemma core_on_close k L e e' : core L e -> on_close k e = Some e' -> core L e'.
Proof.
  intros [H1 H2 H3 H4 H5 H6] E. unfold on_close in E. destruct (he_closing e !! k) as [c|] eqn:Hk; [|done].
  cbn [mbind option_bind] in E. apply (inj Some) in E as <-. destruct (list_split _ _ _ Hk) as (l1 & l2 & El & Ed).
  assert (exists key, nb_key c = Some key) as [key Ekey] by (by eexists). rewrite Ekey. pose proof (size_remove (he_conns e) key).
  assert (in_use (c :: L ++ he_readers e ++ he_polled e ++ l1 ++ l2)) as (Hc & Hac & N)%in_use_cons.
  { refine (in_use_perm _ _ _ H1). rewrite El. clear H6. perm_lia. }
  assert (forall c', c' ∈ he_readers e \/ c' ∈ he_polled e -> addressed c') as Had.
  { intros c' Hc'. apply (in_use_addr _ _ N). rewrite !elem_of_app. tauto. }
  split; cbn [he_readers he_polled he_closing he_conns he_opens he_unopened he_closes he_silent closed]; rewrite ?Ed; try done.
  - intros q Hq. rewrite elem_of_difference, elem_of_singleton. split; [by apply H3|]. intros ->.
    destruct Hq as [(c' & Hc' & E)|(c' & Hc' & E)].
    + rewrite Forall_forall in H2. by apply (std_nb_key c' c key); auto.
    + apply Hc. rewrite (nb_key_inj c c' key) by auto. rewrite !elem_of_app. tauto.
  - intros q [Hq Hne]%elem_of_difference. rewrite elem_of_singleton in Hne. destruct (H4 q Hq) as [?|Hk']; [by left|right].
    rewrite El in Hk'. change (c :: l2) with ([c] ++ l2) in Hk'. rewrite !keyed_app, nb_keyed_one in *.
    destruct Hk' as [?|[?|[?|?]]]; [tauto|tauto| |tauto]. congruence.
  - lia.
  - rewrite El in H6. perm_lia.
Qed.

(** ** With the multiplexer *)

Context (n : nat) (max : Z) (small : 0 <= max) (fits : max + Z.of_nat n < 2 ^ 31 - 1).

Definition pend (e : http_engine) : list nat := concat (map l_conns (lm_ls (he_mux e))).

Record h_inv (e : http_engine) : Prop := {
  hi_mux : l_inv n (he_mux e);
  hi_max : maxOnlineA (he_mux e) = max;
  hi_A : lm_heldA (he_mux e) = he_readers e;
  hi_B : lm_heldB (he_mux e) = [];
  hi_core : core (pend e) e
}.

Abbreviation AddBlocking := (AddConnNonTLSBlocking ty MaxLoad).

Lemma add_blocking_tls tls c e : (if tls : bool then AddConnTLSBlocking ty MaxLoad else AddBlocking) c e = AddBlocking c e.
Proof. by destruct tls. Qed.

Lemma add_poller_tls tls o c e :
  (if tls : bool then AddConnTLSNonBlocking MaxLoad else AddConnNonTLSNonBlocking MaxLoad) o c e =
  AddConnNonTLSNonBlocking MaxLoad o c e.
Proof. by destruct tls. Qed.

(** What a connection taken from A becomes. *)
Lemma add_blocking_inv c e e' :
  l_inv n (he_mux e) -> maxOnlineA (he_mux e) = max -> lm_heldA (he_mux e) = he_readers e ++ [c] ->
  lm_heldB (he_mux e) = [] -> core (c :: pend e) e -> AddBlocking c e = Some e' -> h_inv e'.
Proof.
  intros Hm Hmax HA HB Hcore E.
  assert (refuse_blocking c e = Some e' -> h_inv e') as Hrefuse.
  { unfold refuse_blocking, decrease. cbn [he_mux refused he_readers]. destruct (DecreaseOnlineA _ _) as [m|] eqn:Ed; [|done].
    cbn [mbind option_bind]. intros [= <-].
    destruct (decrease_inv n max fits _ _ _ Hm Hmax Ed) as [Hm1 Hmax1].
    unfold DecreaseOnlineA in Ed. rewrite HA in Ed. rewrite lookup_app_r, Nat.sub_diag in Ed by done. cbn [lookup list_lookup mbind option_bind] in Ed.
    injection Ed as <-. split; try done; cbn [he_mux with_mux lm_heldA he_readers refused].
    - rewrite delete_take_drop, take_app_length, drop_app_ge by (cbn; lia). by rewrite drop_ge, app_nil_r by (cbn; lia).
    - apply core_mux, core_refused. by eapply core_less. }
  unfold AddConnNonTLSBlocking in E. destruct (overloaded MaxLoad e) eqn:Ho; [by apply Hrefuse|].
  destruct (ty c) eqn:Et; try (by apply Hrefuse);
    (destruct (std_key c) as [key|] eqn:Ek; [|by apply Hrefuse]); apply (inj Some) in E as <-;
    (split; try done; apply core_spawn; [done| |done|done]; unfold is_std; rewrite Et; tauto).
Qed.

Lemma add_poller_inv o c e :
  l_inv n (he_mux e) -> maxOnlineA (he_mux e) = max -> lm_heldA (he_mux e) = he_readers e ->
  lm_heldB (he_mux e) = [] -> core (c :: pend e) e -> h_inv (AddConnNonTLSNonBlocking MaxLoad o c e).
Proof.
  intros Hm Hmax HA HB Hcore. assert (h_inv (refused c e)) as Hr.
  { split; try done. apply core_refused. by eapply core_less. }
  unfold AddConnNonTLSNonBlocking. destruct o; try done;
    (assert (exists key, nb_key c = Some key) as [key Ekey] by (by eexists)); rewrite Ekey;
    destruct (overloaded MaxLoad e) eqn:Ho; try done.
  - pose proof (core_poll ORegister c (pend e) key e true Hcore Ekey Ho). by split.
  - pose proof (core_poll OTooMany c (pend e) key e true Hcore Ekey Ho). by split.
  - pose proof (core_poll OAdded c (pend e) key e true Hcore Ekey Ho). by split.
Qed.

Lemma transfer_inv o c e : h_inv e -> core (c :: pend e) e -> h_inv (AddTransferredConn MaxLoad o c e).
Proof.
  intros [Hm Hmax HA HB _] Hcore. unfold AddTransferredConn.
  assert (exists key, nb_key c = Some key) as [key Ekey] by (by eexists). rewrite Ekey.
  destruct (overloaded MaxLoad e) eqn:Ho.
  - split; try done. apply core_refused. by eapply core_less.
  - pose proof (core_poll o c (pend e) key e false Hcore Ekey Ho). by destruct o; split.
Qed.

Lemma end_reader_inv k e e' : h_inv e -> end_reader ty k e = Some e' -> h_inv e'.
Proof.
  intros [Hm Hmax HA HB Hcore] E. unfold end_reader in E. destruct (he_readers e !! k) as [c|] eqn:Hk; [|done].
  cbn [mbind option_bind] in E. pose proof (core_end k c _ e Hcore Hk) as Hc1.
  revert E Hc1. set (e1 := closed _ _). intros E Hc1. unfold decrease in E.
  destruct (DecreaseOnlineA k (he_mux e1)) as [m|] eqn:Ed; [|done]. cbn [mbind option_bind] in E. apply (inj Some) in E as <-.
  change (he_mux e1) with (he_mux e) in Ed.
  destruct (decrease_inv n max fits _ _ _ Hm Hmax Ed) as [Hm1 Hmax1].
  unfold DecreaseOnlineA in Ed. rewrite HA, Hk in Ed. cbn [mbind option_bind] in Ed. apply (inj Some) in Ed as <-.
  split; try done. by apply core_mux.
Qed.

(** The multiplexer's own steps keep what is with it, but for a new connection. *)
Lemma mux_keeps x m m' :
  l_inv n m -> l_inv n m' -> lexec x m = Some m' -> lm_heldB m = [] ->
  match x with
  | AcceptReturns _ (AConn c) => lm_heldA m' = lm_heldA m /\ lm_heldB m' = [] /\ concat (map l_conns (lm_ls m')) ≡ₚ c :: concat (map l_conns (lm_ls m))
  | LoopTest _ | Goes _ | StopMux | AcceptReturns _ _ =>
      lm_heldA m' = lm_heldA m /\ lm_heldB m' = [] /\ concat (map l_conns (lm_ls m')) ≡ₚ concat (map l_conns (lm_ls m))
  | TakeA _ => lm_heldB m' = [] /\
      (lm_heldA m' = lm_heldA m /\ concat (map l_conns (lm_ls m')) ≡ₚ concat (map l_conns (lm_ls m)) \/
       exists c, lm_heldA m' = lm_heldA m ++ [c] /\ concat (map l_conns (lm_ls m)) ≡ₚ c :: concat (map l_conns (lm_ls m')))
  | TakeB _ => lm_heldA m' = lm_heldA m /\
      (lm_heldB m' = [] /\ concat (map l_conns (lm_ls m')) ≡ₚ concat (map l_conns (lm_ls m)) \/
       exists c, lm_heldB m' = [c] /\ concat (map l_conns (lm_ls m)) ≡ₚ c :: concat (map l_conns (lm_ls m')))
  | _ => True
  end.
Proof.
  intros [_ _ _ H1] [_ _ _ H2] E HB.
  assert (forall (P Q R : list nat), P ++ R ≡ₚ Q ++ R -> P ≡ₚ Q) as Hcancel by (intros P Q R; apply Permutation_app_inv_r).
  destruct x as [i|i r|i|i|i|k|k|]; try done; cbn [lexec] in E;
    try (destruct (lm_ls m !! i) as [l|] eqn:Hl; [|done]; cbn [mbind option_bind] in E).
  - destruct (l_pc l); try done. injection E as <-. cbn [set_l lm_heldA lm_heldB lm_accepted lm_gone lm_ls] in *.
    rewrite H1 in H2. split; [done|]. split; [done|]. symmetry. by eapply Hcancel.
  - destruct (l_pc l); try done. destruct r as [c| |]; injection E as <-; cbn [set_l lm_heldA lm_heldB lm_accepted lm_gone lm_ls] in *;
      rewrite H1 in H2; (split; [done|]); (split; [done|]); symmetry; eapply Hcancel; rewrite <- H2; [|done..].
    clear. perm_lia.
  - unfold accept_step in E. destruct (l_pc l); try done; try (destruct (_ <? _); [|done]); injection E as <-;
      cbn [set_l set_online lm_heldA lm_heldB lm_accepted lm_gone lm_ls] in *; rewrite H1 in H2; (split; [done|]); (split; [done|]);
      symmetry; by eapply Hcancel.
  - unfold takeA in E. destruct (chA l) as [|[c|] es]; try done; injection E as <-;
      cbn [set_l lm_heldA lm_heldB lm_accepted lm_gone lm_ls] in *; rewrite H1 in H2; (split; [done|]).
    + right. exists c. split; [done|]. eapply Hcancel. rewrite H2. clear. perm_lia.
    + left. split; [done|]. symmetry. by eapply Hcancel.
  - unfold takeB in E. destruct (chB l) as [|[c|] es]; try done; injection E as <-;
      cbn [set_l lm_heldA lm_heldB lm_accepted lm_gone lm_ls] in *; rewrite H1, HB in *; (split; [done|]).
    + right. exists c. split; [done|]. apply (Hcancel _ _ (lm_heldA m ++ [] ++ lm_gone m)). rewrite H2. clear. perm_lia.
    + left. split; [done|]. symmetry. by eapply Hcancel.
  - injection E as <-. cbn [Stop lm_heldA lm_heldB lm_ls] in *. done.
Qed.

Lemma unknown_new c e :
  unknown c e = true -> c ∉ pend e ++ he_readers e ++ he_polled e ++ he_closing e /\ addressed c.
Proof.
  unfold unknown. intros [H1 H2%bool_decide_eq_true]%andb_true_iff. split; [done|]. unfold addressed, is_address. lia.
Qed.

Lemma hexec_inv x e e' : h_inv e -> hexec ty MaxLoad x e = Some e' -> h_inv e'.
Proof.
  intros Hi E. pose proof Hi as [Hm Hmax HA HB Hcore].
  destruct x as [x|i tls|i tls o|k|k c o|k|k]; cbn [hexec] in E.
  - destruct (mux_label x e) eqn:Hx; [|done]. destruct (lexec x (he_mux e)) as [m|] eqn:Em; [|done]. cbn [mbind option_bind] in E.
    apply (inj Some) in E as <-. destruct (lexec_inv n max fits x _ _ Hm Hmax Em) as [Hm1 Hmax1].
    pose proof (mux_keeps x _ _ Hm Hm1 Em HB) as Hk.
    assert (lm_heldA m = lm_heldA (he_mux e) /\ lm_heldB m = [] /\ core (concat (map l_conns (lm_ls m))) e) as (K1 & K2 & K3).
    { destruct x as [j|j [c| |]|j|j|j|j|j|]; try done; destruct Hk as (K1 & K2 & K3); (split; [done|]); (split; [done|]);
        (eapply core_perm; [symmetry; exact K3|]); try done. apply core_more; [done|]. by apply unknown_new. }
    split; cbn [he_mux with_mux he_readers]; try done; [congruence|]. by apply core_mux.
  - unfold listenA in E. destruct (lexec (TakeA i) (he_mux e)) as [m|] eqn:Em; [|done]. cbn [mbind option_bind] in E.
    destruct (lexec_inv n max fits _ _ _ Hm Hmax Em) as [Hm1 Hmax1].
    destruct (mux_keeps _ _ _ Hm Hm1 Em HB) as [K2 [[K1 K3]|(c & K1 & K3)]]; rewrite K1 in E; unfold taken in E.
    + rewrite lookup_ge_None_2 in E by done. injection E as <-. split; try done; cbn [he_mux with_mux he_readers]; [congruence|].
      apply core_mux. eapply core_perm; [symmetry; exact K3|done].
    + rewrite lookup_app_r, Nat.sub_diag in E by done. cbn [lookup list_lookup] in E. rewrite add_blocking_tls in E.
      eapply (add_blocking_inv c (with_mux m e)); cbn [he_mux with_mux he_readers]; try done; [by rewrite K1, HA|].
      apply core_mux. by eapply core_perm.
  - unfold listenB in E. destruct (lexec (TakeB i) (he_mux e)) as [m|] eqn:Em; [|done]. cbn [mbind option_bind] in E.
    destruct (lexec_inv n max fits _ _ _ Hm Hmax Em) as [Hm1 Hmax1].
    destruct (mux_keeps _ _ _ Hm Hm1 Em HB) as [K1 [[K2 K3]|(c & K2 & K3)]]; rewrite K2, HB in E; unfold taken in E; cbn [lookup list_lookup length] in E.
    + injection E as <-. split; try done; cbn [he_mux with_mux he_readers]; [congruence|].
      apply core_mux. eapply core_perm; [symmetry; exact K3|done].
    + destruct (lexec (LeaveB 0) m) as [m2|] eqn:E2; [|done]. cbn [mbind option_bind] in E. rewrite add_poller_tls in E.
      destruct (lexec_inv n max fits _ _ _ Hm1 Hmax1 E2) as [Hm2 Hmax2].
      cbn [lexec] in E2. rewrite K2 in E2. cbn [lookup list_lookup mbind option_bind] in E2. injection E2 as <-.
      apply (inj Some) in E as <-. apply add_poller_inv; cbn [he_mux with_mux he_readers lm_heldA lm_heldB]; try done; [congruence|].
      apply core_mux. by eapply core_perm.
  - by eapply end_reader_inv.
  - destruct (unknown c e) eqn:Hu; [|done]. eapply end_reader_inv; [|exact E]. apply transfer_inv; [done|].
    apply core_more; [done|]. by apply unknown_new.
  - pose proof (core_poller_closes k _ e e' Hcore E) as Hc. unfold poller_closes in E.
    destruct (he_polled e !! k); [|done]. cbn [mbind option_bind] in E. injection E as <-. by split.
  - pose proof (core_on_close k _ e e' Hcore E) as Hc. unfold on_close in E.
    destruct (he_closing e !! k); [|done]. cbn [mbind option_bind] in E. apply (inj Some) in E as <-. by split.
Qed.

Lemma hrun_inv xs : forall e e', h_inv e -> hrun ty MaxLoad xs e = Some e' -> h_inv e'.
Proof.
  induction xs as [|x xs IH]; intros e e' Hi; cbn [hrun]; [by intros [= <-]|].
  destruct (hexec ty MaxLoad x e) as [e1|] eqn:E; [|done]. cbn [mbind option_bind]. apply IH. by eapply hexec_inv.
Qed.

Lemma new_engine_inv : 0 <= MaxLoad -> h_inv (NewHttpEngine max n).
Proof.
  intros Hl. destruct (newmux_inv n max small fits) as [H1 H2].
  assert (pend (NewHttpEngine max n) = []) as Hp.
  { destruct H1 as [_ _ _ Ha]. cbn [NewMux lm_accepted lm_heldA lm_heldB lm_gone] in Ha. rewrite !app_nil_r in Ha.
    symmetry in Ha. by apply Permutation_nil_r in Ha. }
  split; try done. rewrite Hp. split; cbn; try done.
  - split; [by apply NoDup_nil_2|constructor].
  - intros key [(c & H & _)|(c & H & _)]; by apply elem_of_nil in H.
Qed.

(** Connections in use have different keys. *)
Lemma keys_apart L e key : core L e ->
  (forall c c', c ∈ he_readers e -> c' ∈ he_readers e -> std_key c = Some key -> std_key c' = Some key -> c = c') /\
  (forall c c', c ∈ he_polled e ++ he_closing e -> c' ∈ he_polled e ++ he_closing e -> nb_key c = Some key -> nb_key c' = Some key -> c = c') /\
  (forall c c', c ∈ he_readers e -> c' ∈ he_polled e ++ he_closing e -> std_key c = Some key -> nb_key c' <> Some key).
Proof.
  intros [H1 H2 _ _ _ _].
  assert (forall c, c ∈ he_readers e -> addressed c) as Hr.
  { intros c Hc. apply (in_use_addr _ c H1). rewrite !elem_of_app. tauto. }
  assert (forall c, c ∈ he_polled e ++ he_closing e -> addressed c) as Hp.
  { intros c Hc. apply (in_use_addr _ c H1). rewrite !elem_of_app in *. tauto. }
  split_and!; intros c c' Hc Hc' E E'.
  - apply (std_key_inj c c' key); auto.
  - apply (nb_key_inj c c' key); auto.
  - apply (std_nb_key c c' key); auto. rewrite Forall_forall in H2. by apply H2.
Qed.

(** C12: an engine in mixed mode (0 <= [MaxBlockingOnline] and, with the number
    of listeners, below 2^31 - 1; 0 <= [MaxLoad]) keeps its limits and its books
    under every interleaving: never more than [MaxBlockingOnline] blocking read
    loops run and never more than [MaxLoad] entries are in the table; every
    connection with a read loop or a poller has its entry, every entry is that
    of such a connection or of one whose close handler is still to run, and no
    two of these connections share a key, so that each can be found and closed;
    no connection has two read loops or pollers; and apart from connections that
    a poller could not take over, [_onOpen] and [_onClose] are called once each
    for every connection. *)
Theorem engine_limits (xs : list hlabel) (e : http_engine) :
  0 <= MaxLoad -> hrun ty MaxLoad xs (NewHttpEngine max n) = Some e ->
  len (he_readers e) <= max /\ Z.of_nat (size (he_conns e)) <= MaxLoad /\
  (forall c, c ∈ he_readers e -> exists key, std_key c = Some key /\ key ∈ he_conns e) /\
  (forall c, c ∈ he_polled e -> exists key, nb_key c = Some key /\ key ∈ he_conns e) /\
  (forall key, key ∈ he_conns e -> std_keyed (he_readers e) key \/ nb_keyed (he_polled e ++ he_closing e) key) /\
  NoDup (he_readers e ++ he_polled e ++ he_closing e) /\
  (forall key c c', c ∈ he_readers e -> c' ∈ he_readers e -> std_key c = Some key -> std_key c' = Some key -> c = c') /\
  (forall key c c', c ∈ he_polled e ++ he_closing e -> c' ∈ he_polled e ++ he_closing e ->
     nb_key c = Some key -> nb_key c' = Some key -> c = c') /\
  (forall key c c', c ∈ he_readers e -> c' ∈ he_polled e ++ he_closing e -> std_key c = Some key -> nb_key c' <> Some key) /\
  he_opens e ++ he_unopened e ≡ₚ he_readers e ++ he_polled e ++ he_closing e ++ he_closes e ++ he_silent e.
Proof.
  intros Hl E. destruct (hrun_inv xs _ _ (new_engine_inv Hl) E) as [[_ _ Hb _] Hmax HA HB Hco].
  pose proof (fun key => keys_apart _ _ key Hco) as Hk. destruct Hco as [H1 H2 H3 H4 H5 H6].
  split_and!; try done; try (intros key; apply (Hk key)).
  - rewrite <- HA, <- Hmax. unfold admitted in Hb. rewrite length_app in Hb. unfold len. lia.
  - intros c Hc. destruct (std_key_some c) as [key Ek]; [rewrite Forall_forall in H2; by apply H2|].
    exists key. split; [done|]. apply H3. left. by exists c.
  - intros c Hc. assert (exists key, nb_key c = Some key) as [key Ek] by (by eexists).
    exists key. split; [done|]. apply H3. right. by exists c.
  - destruct H1 as [H1 _]. by apply NoDup_app in H1 as (_ & _ & H1).
Qed.
End props.

(** ** A run *)

(** One connection per mode; the blocking one is then moved to the pollers. *)
Definition engine_trace : list hlabel :=
  [HMux (LoopTest 0); HMux (AcceptReturns 0 (AConn 1)); HMux (Goes 0); HMux (Goes 0); HListenA 0 false;
   HMux (LoopTest 0); HMux (AcceptReturns 0 (AConn 2)); HMux (Goes 0); HMux (Goes 0); HMux (Goes 0); HListenB 0 false OAdded;
   HTransfer 0 3 OAdded; HPollerCloses 0; HOnClose 0]%nat.


Lemma engine_limits_witness :
  exists e, hrun (fun _ => TyTCP) 10 engine_trace (NewHttpEngine 1 1) = Some e /\ len (he_readers e) <= 1 /\
    Z.of_nat (size (he_conns e)) <= 10 /\ he_polled e = [3]%nat /\ he_opens e = [1; 2; 3]%nat /\ he_closes e = [1; 2]%nat.
Proof.
  assert (match hrun (fun _ => TyTCP) 10 engine_trace (NewHttpEngine 1 1) with
          | Some e => he_polled e = [3]%nat /\ he_opens e = [1; 2; 3]%nat /\ he_closes e = [1; 2]%nat
          | None => False
          end) as H by (vm_compute; repeat split).
  destruct (hrun (fun _ => TyTCP) 10 engine_trace (NewHttpEngine 1 1)) as [e|] eqn:E; [|destruct H].
  exists e. split; [reflexivity|].
  destruct (engine_limits (fun _ => TyTCP) 10 1 1 ltac:(lia) ltac:(lia) engine_trace e ltac:(lia) E) as (H1 & H2 & _).
  split; [exact H1|]. split; [exact H2|]. exact H.
Defined.

(** ** Where the code falls short *)

(** Moving a connection to the pollers counts it twice for a moment: at full
    load the upgrade is refused, although nothing is added. *)
Lemma transfer_counts_twice :
  exists e, hrun (fun _ => TyTCP) 1
    [HMux (LoopTest 0); HMux (AcceptReturns 0 (AConn 1)); HMux (Goes 0); HMux (Goes 0); HListenA 0 false; HTransfer 0 2 OAdded]%nat
    (NewHttpEngine 1 1) = Some e /\ he_refused e = [2]%nat /\ he_conns e = ∅.
Proof. eexists. split; [vm_compute; reflexivity|]. split; reflexivity. Qed.

(** A connection whose descriptor is beyond the table has been announced with
    [_onOpen] and is closed without [_onClose]. *)
Lemma too_many_files_silent :
  exists e, hrun (fun _ => TyTCP) 10
    [HMux (LoopTest 0); HMux (AcceptReturns 0 (AConn 1)); HMux (Goes 0); HMux (Goes 0); HMux (Goes 0); HListenB 0 false OTooMany]%nat
    (NewHttpEngine 0 1) = Some e /\ he_opens e = [1]%nat /\ he_closes e = [] /\ he_closing e = [] /\ he_polled e = [].
Proof. eexists. split; [vm_compute; reflexivity|]. repeat split. Qed.

(** A transferred connection that cannot be registered is closed with
    [_onClose] although [_onOpen] was never called. *)
Lemma transfer_closed_unopened :
  exists e, hrun (fun _ => TyTCP) 10
    [HMux (LoopTest 0); HMux (AcceptReturns 0 (AConn 1)); HMux (Goes 0); HMux (Goes 0); HListenA 0 false; HTransfer 0 2 ORegister;
     HOnClose 0]%nat
    (NewHttpEngine 1 1) = Some e /\ he_opens e = [1]%nat /\ he_closes e = [1; 2]%nat.
Proof. eexists. split; [vm_compute; reflexivity|]. repeat split. Qed.
