(* ===== verification/BlockRead.v ===== *)
(** * From the transport to the parser (src/nbhttp/engine.go)

    The data handlers of poller connections, plain and over TLS, and the read
    loops of blocking connections.  A blocking loop starts with the HTTP
    parser; when a request was answered by an upgrade it closes the parser and
    goes on with the reader the parser was given.  A read loop is given the
    results of its reads; the TLS library is an argument. *)

From Stdlib Require Import ZArith Lia.
From Stdlib Require Import Strings.Byte Strings.String.
From stdpp Require Import base numbers list list_numbers gmap.
From S2P Require Import Prelude GoLib Table Parser ParserFacts ParserSplit ParserRun ParserMessage ParserProps.

Open Scope Z_scope.

Inductive read_result := RData (d : bytes) | RErr (e : http_err).

Section loops.
Context {P C : Type} `{!Processor P C} `{!ParserCloser C}.
Abbreviation parser := (parser P C).

(** [conn.Trasfered], set by a handler that moved the connection to a poller;
    the session a handler of a poller connection put in place of the parser;
    [CloseAndClean] of the reader an upgrade installs. *)
Context (transferred : P -> bool) (new_session : P -> option C) (closer_close : C -> option http_err -> C).

(** ** Poller connections *)

(** What a poller connection has as its session, and the error it was closed
    with, if it was. *)
Inductive session := SParser (p : parser) | SCloser (c : C) | SPanicked.

Definition session_parse (s : session) (d : bytes) : session * option http_err :=
  match s with
  | SParser p =>
      match Parse p d with
      | PRet p e => (match new_session (processor p) with Some c => SCloser c | None => SParser p end, e)
      | _ => (SPanicked, None)
      end
  | SCloser c => let '(c, e) := CloserParse c d in (SCloser c, e)
  | SPanicked => (SPanicked, None)
  end.

(** The session the connection is left with, and the error it is closed with;
    a panic inside [Parse] is recovered and logged there. *)
Definition DataHandler (s : session) (d : bytes) : session * option http_err := session_parse s d.

Section tls.
(** [AppendAndRead readed n t]: the plaintext read into a buffer of [n] bytes,
    and the error. *)
Context {T : Type} (AppendAndRead : bytes -> Z -> T -> bytes * option http_err * T).

Inductive tls_result := TlsRet (s : session) (t : T) (closed : option http_err) | TlsFuel.

Fixpoint tls_loop (fuel : nat) (readed : bytes) (n : Z) (s : session) (t : T) : tls_result :=
  match fuel with
  | O => TlsFuel
  | S fuel =>
      let '(b, err, t) := AppendAndRead readed n t in
      let '(s, perr) := if 0 <? len b then session_parse s b else (s, None) in
      match perr with
      | Some e => TlsRet s t (Some e)
      | None =>
          match err with
          | Some e => TlsRet s t (Some e)
          | None => if len b =? 0 then TlsRet s t None else tls_loop fuel [] n s t
          end
      end
  end.

(** The buffer is the slice of the data itself. *)
Definition TLSDataHandler (fuel : nat) (s : session) (t : T) (data : bytes) : tls_result :=
  tls_loop fuel data (len data) s t.
End tls.

(** ** Blocking connections *)

(** The parser, and the reader that took over, if one did; the variable
    [parser] of the loop is nil from then on. *)
Record blocking := MkBlocking { b_parser : parser; b_reader : option C }.

Inductive block_result :=
| BWait (s : blocking)
| BDone (s : blocking) (err : option http_err)
| BPanic.

(** [parserCloser.Parse] of the loop. *)
Definition block_parse (s : blocking) (d : bytes) : option (blocking * option http_err) :=
  match b_reader s with
  | Some c => let '(c, e) := CloserParse c d in Some (MkBlocking (b_parser s) (Some c), e)
  | None => match Parse (b_parser s) d with PRet p e => Some (MkBlocking p None, e) | _ => None end
  end.

(** [parser.onClose = nil; parser.CloseAndClean(nil)] *)
Definition drop_parser (p : parser) : parser := CloseAndClean (set_onClose false p) None.

(** What the loop does behind a call of [Parse]: whether it ends.  A handler
    that moves the connection does so while it upgrades it, before the reader
    takes over. *)
Definition after_parse (s : blocking) : blocking * bool :=
  match b_reader s with
  | Some _ => (s, false)
  | None =>
      let p := b_parser s in
      if transferred (processor p) then (MkBlocking (drop_parser p) None, true)
      else
        match parserCloser p with
        | Some c => (MkBlocking (drop_parser p) (Some c), false)
        | None => (s, false)
        end
  end.

(** The deferred function, as far as the readers are concerned. *)
Definition block_end (moved : bool) (err : option http_err) (s : blocking) : blocking :=
  if moved then s
  else
    match b_reader s with
    | Some c => MkBlocking (b_parser s) (Some (closer_close c err))
    | None => MkBlocking (CloseAndClean (b_parser s) err) None
    end.

(** The error of [Parse] is ignored. *)
Fixpoint readConnBlocking (rs : list read_result) (s : blocking) : block_result :=
  match rs with
  | [] => BWait s
  | RErr e :: _ => BDone (block_end false (Some e) s) (Some e)
  | RData d :: rs =>
      match block_parse s d with
      | None => BPanic
      | Some (s, _) =>
          let '(s, moved) := after_parse s in
          if moved then BDone (block_end true None s) None else readConnBlocking rs s
      end
  end.

Section tls_blocking.
Context {T : Type} (AppendAndRead : bytes -> Z -> T -> bytes * option http_err * T) (BufferSize : Z).

(** The inner loop: what it leaves, and with what the loop ends, if it does. *)
Inductive inner_result :=
| IMore (s : blocking) (t : T)
| IDone (s : blocking) (moved : bool) (err : option http_err)
| IPanic
| IFuel.

Fixpoint inner_loop (fuel : nat) (readed : bytes) (s : blocking) (t : T) : inner_result :=
  match fuel with
  | O => IFuel
  | S fuel =>
      let '(b, errRead, t) := AppendAndRead readed BufferSize t in
      let finish s :=
        match errRead with
        | Some e => IDone s false (Some e)
        | None => if len b =? 0 then IMore s t else inner_loop fuel [] s t
        end in
      if 0 <? len b then
        match block_parse s b with
        | None => IPanic
        | Some (s, Some e) => IDone s false (Some e)
        | Some (s, None) =>
            let '(s, moved) := after_parse s in
            if moved then IDone s true None else finish s
        end
      else finish s
  end.

Fixpoint readTLSConnBlocking (fuel : nat) (rs : list read_result) (s : blocking) (t : T) : option block_result :=
  match rs with
  | [] => Some (BWait s)
  | RErr e :: _ => Some (BDone (block_end false (Some e) s) (Some e))
  | RData d :: rs =>
      match inner_loop fuel d s t with
      | IFuel => None
      | IPanic => Some BPanic
      | IDone s moved err => Some (BDone (block_end moved err s) err)
      | IMore s t => readTLSConnBlocking fuel rs s t
      end
  end.
End tls_blocking.

(** ** The same bytes reach the same reader *)

(** The state of a loop, next to a parser that was given the same bytes. *)
Definition tracks (p : parser) (s : blocking) : Prop :=
  match parserCloser p with
  | None => s = MkBlocking p None
  | Some c => b_reader s = Some c
  end.

Context (stays : forall pr, transferred pr = false) (keeps : forall pr, new_session pr = None).

(** An upgraded parser passes its data on. *)
Lemma Parse_upgraded p c d q :
  wf p -> parserCloser p = Some c -> d <> [] -> Parse p d = PRet q None ->
  exists c', CloserParse c d = (c', None) /\ parserCloser q = Some c'.
Proof.
  intros Hwf Hc Hd E. destruct (Parse_from p d q Hwf Hd E) as [_ He]. revert He.
  unfold parse_from, erase. rewrite parserCloser_entry, Hc.
  assert (cached p = []) as -> by (unfold cached; by rewrite (wf_upg p Hwf) by (by rewrite Hc)).
  cbn [app]. rewrite upgrader_eq by (pose proof (len_nonneg d); lia). change (drop (Z.to_nat 0) d) with d.
  destruct (CloserParse c d) as [c' e]. intros [= Hq ->]. exists c'. split; [done|]. by rewrite <- Hq.
Qed.

Lemma block_step p s d q :
  wf p -> tracks p s -> d <> [] -> Parse p d = PRet q None ->
  exists s1 s2, block_parse s d = Some (s1, None) /\ after_parse s1 = (s2, false) /\ tracks q s2.
Proof.
  intros Hwf Ht Hd E. unfold tracks in Ht. destruct (parserCloser p) as [c|] eqn:Ec.
  - destruct (Parse_upgraded p c d q Hwf Ec Hd E) as (c' & Ep & Eq). unfold block_parse. rewrite Ht, Ep.
    eexists _, _. split; [reflexivity|]. split; [reflexivity|]. unfold tracks. by rewrite Eq.
  - subst s. exists (MkBlocking q None). unfold block_parse, after_parse, tracks. cbn [b_reader b_parser].
    rewrite E, stays. destruct (parserCloser q) as [c|] eqn:Eq; eexists; split_and!; reflexivity.
Qed.

(** A run of the loop over pieces that are all accepted. *)
Fixpoint block_feed (s : blocking) (bs : list bytes) : option blocking :=
  match bs with
  | [] => Some s
  | b :: bs =>
      match block_parse s b with
      | Some (s, None) => let '(s, moved) := after_parse s in if moved then None else block_feed s bs
      | _ => None
      end
  end.

Lemma block_feed_tracks bs : forall p s q,
  wf p -> tracks p s -> Forall (fun b => b <> []) bs -> feed p bs = PRet q None ->
  exists s', block_feed s bs = Some s' /\ tracks q s'.
Proof.
  induction bs as [|b bs IH]; intros p s q Hwf Ht Hne E; cbn [feed block_feed] in *.
  - injection E as <-. by exists s.
  - apply Forall_cons in Hne as [Hb Hne]. destruct (Parse p b) as [p1 [e|]| |] eqn:Ep; try done.
    destruct (block_step p s b p1 Hwf Ht Hb Ep) as (s1 & s2 & -> & -> & Ht2).
    apply (IH p1 s2); try done. by apply (Parse_done p b).
Qed.

Lemma readConn_feed bs : forall rs s s', block_feed s bs = Some s' ->
  readConnBlocking (map RData bs ++ rs) s = readConnBlocking rs s'.
Proof.
  induction bs as [|b bs IH]; intros rs s s' E; cbn [block_feed map app readConnBlocking] in *; [by injection E as <-|].
  destruct (block_parse s b) as [[s1 [e|]]|]; try done. destruct (after_parse s1) as [s2 [|]]; [done|]. by apply IH.
Qed.

Lemma feed_app_ret p bs bs' q :
  feed p (bs ++ bs') = PRet q None -> exists p1, feed p bs = PRet p1 None /\ feed p1 bs' = PRet q None.
Proof.
  revert p. induction bs as [|b bs IH]; intros p E; cbn [app feed] in *; [by exists p|].
  destruct (Parse p b) as [p1 [e|]| |]; try done. by apply IH.
Qed.

Lemma session_step p d q : Parse p d = PRet q None -> session_parse (SParser p) d = (SParser q, None).
Proof. intros E. cbn [session_parse]. by rewrite E, keeps. Qed.

(** The calls of [DataHandler] on a connection that stays open. *)
Fixpoint data_events (s : session) (ds : list bytes) : option session :=
  match ds with
  | [] => Some s
  | d :: ds => match DataHandler s d with (s, None) => data_events s ds | _ => None end
  end.

Lemma data_feed bs : forall p q, feed p bs = PRet q None -> data_events (SParser p) bs = Some (SParser q).
Proof.
  induction bs as [|b bs IH]; intros p q E; cbn [feed data_events] in *; [by injection E as <-|].
  destruct (Parse p b) as [p1 [e|]| |] eqn:Ep; try done. unfold DataHandler. rewrite (session_step _ _ _ Ep). by apply IH.
Qed.
End loops.

(** ** TLS *)

(** What is relied on of the TLS library: on a genuine ciphertext it reports no
    error, returns the plaintext in order, and returns nothing only when it has
    no more. *)
Class TLSSession (T : Type) (AppendAndRead : bytes -> Z -> T -> bytes * option http_err * T) := {
  genuine : T -> bytes -> Prop;
  plaintext : T -> bytes -> bytes;
  tls_law x n t w b e t' :
    genuine t (x ++ w) -> 0 < n -> AppendAndRead x n t = (b, e, t') ->
    e = None /\ genuine t' w /\ (forall w', plaintext t (x ++ w') = b ++ plaintext t' w') /\
    (b = [] -> plaintext t' [] = []);
  plaintext_prefix t x w : plaintext t x `prefix_of` plaintext t (x ++ w)
}.

Section tls.
Context {T : Type} (AppendAndRead : bytes -> Z -> T -> bytes * option http_err * T) `{!TLSSession T AppendAndRead}.

(** The pieces the inner loop gets for one read of ciphertext. *)
Fixpoint tls_pieces (fuel : nat) (x : bytes) (n : Z) (t : T) : option (list bytes * T) :=
  match fuel with
  | O => None
  | S fuel =>
      let '(b, _, t) := AppendAndRead x n t in
      if len b =? 0 then Some ([], t)
      else '(bs, t) ← tls_pieces fuel [] n t; Some (b :: bs, t)
  end.

Lemma tls_pieces_ok fuel : forall x n t w,
  genuine t (x ++ w) -> 0 < n -> len (plaintext t x) < Z.of_nat fuel ->
  exists bs t', tls_pieces fuel x n t = Some (bs, t') /\ Forall (fun b => b <> []) bs /\ genuine t' w /\
    (forall w', plaintext t (x ++ w') = concat bs ++ plaintext t' w') /\ plaintext t' [] = [].
Proof.
  induction fuel as [|fuel IH]; intros x n t w Hg Hn Hf; [pose proof (len_nonneg (plaintext t x)); lia|].
  cbn [tls_pieces]. destruct (AppendAndRead x n t) as [[b e] t1] eqn:E.
  destruct (tls_law x n t w b e t1 Hg Hn E) as (_ & Hg1 & Hp & Hz). destruct (Z.eqb_spec (len b) 0) as [H0|H0].
  - apply len_zero_nil in H0 as ->. exists [], t1. split_and!; try done. by apply Hz.
  - assert (len (plaintext t1 []) < Z.of_nat fuel) as Hf1.
    { pose proof (Hp []) as Hp0. rewrite !app_nil_r in Hp0. rewrite Hp0, len_app in Hf. pose proof (len_nonneg b). lia. }
    destruct (IH [] n t1 w Hg1 Hn Hf1) as (bs & t2 & -> & Hne & Hg2 & Hp2 & Hz2). cbn [mbind option_bind].
    exists (b :: bs), t2. split_and!; try done.
    + constructor; [|done]. by intros ->.
    + intros w'. cbn [concat]. rewrite Hp, <- app_assoc, <- Hp2. done.
Qed.

Lemma tls_pieces_genuine fuel : forall x n t w bs t',
  genuine t (x ++ w) -> 0 < n -> tls_pieces fuel x n t = Some (bs, t') -> genuine t' w.
Proof.
  induction fuel as [|fuel IH]; intros x n t w bs t' Hg Hn Et; [done|]. cbn [tls_pieces] in Et.
  destruct (AppendAndRead x n t) as [[b e] t1] eqn:E. destruct (tls_law x n t w b e t1 Hg Hn E) as (_ & Hg1 & _).
  destruct (len b =? 0); [by injection Et as <- <-|]. destruct (tls_pieces fuel [] n t1) as [[bs1 t2]|] eqn:E1; [|done].
  cbn [mbind option_bind] in Et. injection Et as <- <-. by apply (IH [] n t1 w bs1).
Qed.

(** The pieces of all reads, one after the other. *)
Fixpoint tls_reads (fuel : nat) (n : bytes -> Z) (cs : list bytes) (t : T) : option (list bytes * T) :=
  match cs with
  | [] => Some ([], t)
  | x :: cs => '(bs, t) ← tls_pieces fuel x (n x) t; '(bs', t) ← tls_reads fuel n cs t; Some (bs ++ bs', t)
  end.

Lemma tls_reads_ok fuel n cs : forall t,
  genuine t (concat cs) -> Forall (fun x => 0 < n x) cs -> len (plaintext t (concat cs)) < Z.of_nat fuel ->
  plaintext t [] = [] ->
  exists bs t', tls_reads fuel n cs t = Some (bs, t') /\ Forall (fun b => b <> []) bs /\
    concat bs = plaintext t (concat cs).
Proof.
  induction cs as [|x cs IH]; intros t Hg Hn Hf Hz; cbn [concat tls_reads] in *; [by exists [], t|].
  apply Forall_cons in Hn as [Hx Hn]. destruct (tls_pieces_ok fuel x (n x) t (concat cs)) as (bs & t1 & -> & Hb & Hg1 & Hp & Hz1); try done.
  { destruct (plaintext_prefix t x (concat cs)) as [k Hk]. rewrite Hk, len_app in Hf. pose proof (len_nonneg k). lia. }
  rewrite (Hp (concat cs)) in Hf |- *. cbn [mbind option_bind]. destruct (IH t1) as (bs' & t2 & -> & Hb' & Hc); try done.
  { rewrite len_app in Hf. pose proof (len_nonneg (concat bs)). lia. }
  cbn [mbind option_bind]. exists (bs ++ bs'), t2. split_and!; try done; [by apply Forall_app|]. by rewrite concat_app, Hc.
Qed.

Context {P C : Type} `{!Processor P C} `{!ParserCloser C}.
Context (transferred : P -> bool) (new_session : P -> option C) (closer_close : C -> option http_err -> C).
Context (stays : forall pr, transferred pr = false) (keeps : forall pr, new_session pr = None).

Lemma inner_feed fuel : forall x n t w bs t' (s s' : blocking),
  genuine t (x ++ w) -> 0 < n -> tls_pieces fuel x n t = Some (bs, t') -> block_feed transferred s bs = Some s' ->
  inner_loop transferred AppendAndRead n fuel x s t = IMore s' t'.
Proof.
  induction fuel as [|fuel IH]; intros x n t w bs t' s s' Hg Hn Et Eb; [done|]. cbn [tls_pieces inner_loop] in *.
  destruct (AppendAndRead x n t) as [[b e] t1] eqn:E.
  destruct (tls_law x n t w b e t1 Hg Hn E) as (-> & Hg1 & _). destruct (Z.eqb_spec (len b) 0) as [H0|H0].
  - injection Et as <- <-. cbn [block_feed] in Eb. injection Eb as <-. by rewrite H0.
  - destruct (tls_pieces fuel [] n t1) as [[bs1 t2]|] eqn:E1; [|done]. cbn [mbind option_bind] in Et. injection Et as <- <-.
    cbn [block_feed] in Eb. pose proof (len_nonneg b). destruct (Z.ltb_spec 0 (len b)); [|lia].
    destruct (block_parse s b) as [[s1 [e|]]|]; try done. destruct (after_parse transferred s1) as [s2 [|]]; [done|].
    by apply (IH [] n t1 w bs1 t2 s2).
Qed.

Lemma block_feed_app bs bs' : forall s, block_feed transferred s (bs ++ bs') = s1 ← block_feed transferred s bs; block_feed transferred s1 bs'.
Proof.
  induction bs as [|b bs IH]; intros s; cbn [app block_feed]; [done|].
  destruct (block_parse s b) as [[s1 [e|]]|]; try done. destruct (after_parse transferred s1) as [s2 [|]]; done.
Qed.

Lemma readTLS_feed fuel n cs : forall t bs t' (s s' : blocking),
  genuine t (concat cs) -> 0 < n -> tls_reads fuel (fun _ => n) cs t = Some (bs, t') -> block_feed transferred s bs = Some s' ->
  readTLSConnBlocking transferred closer_close AppendAndRead n fuel (map RData cs) s t = Some (BWait s').
Proof.
  induction cs as [|x cs IH]; intros t bs t' s s' Hg Hn Et Eb; cbn [tls_reads map readTLSConnBlocking concat] in *.
  - injection Et as <- <-. by injection Eb as <-.
  - destruct (tls_pieces fuel x n t) as [[b1 t1]|] eqn:E1; [|done]. cbn [mbind option_bind] in Et.
    destruct (tls_reads fuel _ cs t1) as [[b2 t2]|] eqn:E2; [|done]. cbn [mbind option_bind] in Et. injection Et as <- <-.
    rewrite block_feed_app in Eb. destruct (block_feed transferred s b1) as [s1|] eqn:Es; [|done]. cbn [mbind option_bind] in Eb.
    rewrite (inner_feed fuel x n t (concat cs) b1 t1 s s1) by done. apply (IH t1 b2 t2); try done. by eapply tls_pieces_genuine.
Qed.

Lemma tls_loop_feed fuel : forall x n t w bs t' p q,
  genuine t (x ++ w) -> 0 < n -> tls_pieces fuel x n t = Some (bs, t') -> feed p bs = PRet q None ->
  tls_loop new_session AppendAndRead fuel x n (SParser p) t = TlsRet (SParser q) t' None.
Proof.
  induction fuel as [|fuel IH]; intros x n t w bs t' p q Hg Hn Et Ef; [done|]. cbn [tls_pieces tls_loop] in *.
  destruct (AppendAndRead x n t) as [[b e] t1] eqn:E.
  destruct (tls_law x n t w b e t1 Hg Hn E) as (-> & Hg1 & _). destruct (Z.eqb_spec (len b) 0) as [H0|H0].
  - injection Et as <- <-. injection Ef as <-. by rewrite H0.
  - destruct (tls_pieces fuel [] n t1) as [[bs1 t2]|] eqn:E1; [|done]. cbn [mbind option_bind] in Et. injection Et as <- <-.
    pose proof (len_nonneg b). destruct (Z.ltb_spec 0 (len b)); [|lia]. cbn [feed] in Ef.
    destruct (Parse p b) as [p1 [e|]| |] eqn:Ep; try done. rewrite (session_step _ keeps _ _ _ Ep).
    by apply (IH [] n t1 w bs1 t2 p1 q).
Qed.

(** The calls of [TLSDataHandler] on a connection that stays open. *)
Fixpoint tls_events (fuel : nat) (s : session) (t : T) (cs : list bytes) : option session :=
  match cs with
  | [] => Some s
  | x :: cs =>
      match TLSDataHandler new_session AppendAndRead fuel s t x with
      | TlsRet s t None => tls_events fuel s t cs
      | _ => None
      end
  end.

Lemma tls_events_feed fuel cs : forall t bs t' p q,
  genuine t (concat cs) -> Forall (fun x => 0 < len x) cs -> tls_reads fuel len cs t = Some (bs, t') ->
  feed p bs = PRet q None -> tls_events fuel (SParser p) t cs = Some (SParser q).
Proof.
  induction cs as [|x cs IH]; intros t bs t' p q Hg Hn Et Ef; cbn [tls_reads tls_events concat] in *.
  - injection Et as <- <-. by injection Ef as <-.
  - apply Forall_cons in Hn as [Hx Hn]. destruct (tls_pieces fuel x (len x) t) as [[b1 t1]|] eqn:E1; [|done]. cbn [mbind option_bind] in Et.
    destruct (tls_reads fuel len cs t1) as [[b2 t2]|] eqn:E2; [|done]. cbn [mbind option_bind] in Et. injection Et as <- <-.
    destruct (feed_app_ret p b1 b2 q Ef) as (p1 & Ef1 & Ef2). unfold TLSDataHandler.
    rewrite (tls_loop_feed fuel x (len x) t (concat cs) b1 t1 p p1) by done.
    apply (IH t1 b2 t2); try done. by eapply tls_pieces_genuine.
Qed.
End tls.

(** ** The transports agree *)


(** ** A null cipher *)

(** The session holds the plaintext not read yet. *)
Definition null_read (x : bytes) (n : Z) (t : bytes) : bytes * option http_err * bytes :=
  let t := t ++ x in (take (Z.to_nat n) t, None, drop (Z.to_nat n) t).

#[export] Instance null_cipher : TLSSession bytes null_read.
Proof.
  refine {| genuine _ _ := True; plaintext t w := t ++ w |}.
  - intros x n t w b e t' _ Hn [= <- <- <-]. split_and!; try done.
    + intros w'. by rewrite app_assoc, app_assoc, take_drop.
    + intros E. assert (t ++ x = []) as ->; [|by rewrite drop_nil].
      destruct (t ++ x) as [|c l]; [done|]. destruct (Z.to_nat n) eqn:En; [lia|done].
  - intros t x w. exists w. by rewrite app_assoc.
Defined.

Definition no_transfer (_ : list event) : bool := false.
Definition no_session (_ : list event) : option bytes := None.
Definition log_close (c : bytes) (_ : option http_err) : bytes := c.


(** A blocking connection goes on after an error of the parser: bytes that no
    request can start with are skipped one read at a time, where the other
    three close the connection. *)
Lemma blocking_ignores_errors :
  (DataHandler no_session (SParser (new_server 0)) [LF]).2 = Some ErrInvalidMethod /\
  (exists s t, TLSDataHandler no_session null_read 9 (SParser (new_server 0)) [] [LF] = TlsRet s t (Some ErrInvalidMethod)) /\
  exists s, readConnBlocking no_transfer log_close [RData [LF]; RData (line "GET / HTTP/1.1" ++ crlf)]
      (MkBlocking (new_server 0) None) = BWait s /\
    last (processor (b_parser s)) = Some EvComplete.
Proof. split; [reflexivity|]. split; eexists; [eexists|split]; vm_compute; reflexivity. Qed.
