(* ===== verification/EngineConfig.v ===== *)
(** * Configuration of the engines (src/engine.go, engine_unix.go, nbhttp/engine.go, nbhttp/server.go)

    The two [Config] structures, the two [NewEngine] functions that fill in
    defaults and pass the settings of the HTTP engine on to the engine of the
    pollers, and the switches between the reading modes.  Functions, handlers
    and allocators in a configuration are values of an abstract type; the number
    of processors is an argument. *)

From Stdlib Require Import ZArith Lia.
From Stdlib Require Import Strings.Byte Strings.String.
From stdpp Require Import base numbers list.
From S2P Require Import Prelude GoLib NbConn TaskPool.

Open Scope Z_scope.

(** [if x <= 0 { x = d }] and [if f == nil { f = d }] *)
Definition or_default (x d : Z) : Z := if x <=? 0 then d else x.

(** ** The engine of the pollers *)

Module Nbio.

Definition DefaultReadBufferSize : Z := 1024 * 64.
Definition DefaultMaxWriteBufferSize : Z := 0.
Definition DefaultMaxConnReadTimesPerEventLoop : Z := 3.
Definition DefaultUDPReadTimeout : Z := 120 * 10 ^ 9.

Record Config {F : Type} := MkConfig {
  Name : bytes;
  Network : bytes;
  Addrs : list bytes;
  NPoller : Z;
  ReadBufferSize : Z;
  MaxWriteBufferSize : Z;
  MaxConnReadTimesPerEventLoop : Z;
  LockListener : bool;
  LockPoller : bool;
  EpollMod : Z;
  EPOLLONESHOT : Z;
  UDPReadTimeout : Z;
  Listen : option F;
  ListenUDP : option F;
  AsyncReadInPoller : bool;
  IOExecute : option F;
  BodyAllocator : option F
}.
Arguments Config : clear implicits.

Section new.
Context {F : Type} (net_Listen net_ListenUDP DefaultMemPool : F) (NumCPU : Z).

(** [NewEngine], the settings it ends with. *)
Definition NewEngine (conf : Config F) : Config F :=
  MkConfig F
    (if bool_decide (Name conf = []) then str "NB" else Name conf)
    (Network conf) (Addrs conf)
    (if NPoller conf <=? 0 then
       let n := NumCPU / 4 in
       let n := if AsyncReadInPoller conf && (EpollMod conf =? EPOLLET) then 1 else n in
       if n =? 0 then 1 else n
     else NPoller conf)
    (or_default (ReadBufferSize conf) DefaultReadBufferSize)
    (or_default (MaxWriteBufferSize conf) DefaultMaxWriteBufferSize)
    (or_default (MaxConnReadTimesPerEventLoop conf) DefaultMaxConnReadTimesPerEventLoop)
    (LockListener conf) (LockPoller conf) (EpollMod conf) (EPOLLONESHOT conf) (UDPReadTimeout conf)
    (Some (default net_Listen (Listen conf))) (Some (default net_ListenUDP (ListenUDP conf)))
    (AsyncReadInPoller conf) (IOExecute conf)
    (Some (default DefaultMemPool (BodyAllocator conf))).

Definition with_reading (n mod_ : Z) (async : bool) (c : Config F) : Config F :=
  MkConfig F (Name c) (Network c) (Addrs c) n (ReadBufferSize c) (MaxWriteBufferSize c) (MaxConnReadTimesPerEventLoop c)
    (LockListener c) (LockPoller c) mod_ (EPOLLONESHOT c) (UDPReadTimeout c) (Listen c) (ListenUDP c) async
    (IOExecute c) (BodyAllocator c).

Definition SetETAsyncRead (c : Config F) : Config F := with_reading (or_default (NPoller c) 1) EPOLLET true c.
Definition SetLTSyncRead (c : Config F) : Config F := with_reading (or_default (NPoller c) NumCPU) EPOLLLT false c.
End new.

(** What the pollers rely on. *)
Record valid {F} (c : Config F) : Prop := {
  v_name : Name c <> [];
  v_npoller : 1 <= NPoller c;
  v_buffer : 1 <= ReadBufferSize c;
  v_write : 0 <= MaxWriteBufferSize c;
  v_reads : 1 <= MaxConnReadTimesPerEventLoop c;
  v_listen : is_Some (Listen c);
  v_listenudp : is_Some (ListenUDP c);
  v_alloc : is_Some (BodyAllocator c)
}.
End Nbio.

(** ** The HTTP engine *)

Module Http.

Definition IOModNonBlocking : Z := 0.
Definition IOModBlocking : Z := 1.
Definition IOModMixed : Z := 2.
Definition DefaultIOMod : Z := IOModNonBlocking.
Definition DefaultMaxBlockingOnline : Z := 10000.
Definition DefaultMaxLoad : Z := 1024 * 1024.
Definition DefaultHTTPReadLimit : Z := 1024 * 1024 * 64.
Definition DefaultMaxWebsocketFramePayloadSize : Z := 1024 * 32.
Definition DefaultKeepaliveTime : Z := 120 * 10 ^ 9.
Definition DefaultBlockingReadBufferSize : Z := 1024 * 4.

(** [pAddr] points to the address of that index in [Addrs] or [AddrsTLS]. *)
Record ConfAddr {F : Type} := MkConfAddr {
  ca_Network : bytes;
  ca_Addr : bytes;
  ca_NListener : Z;
  ca_TLSConfig : option F;
  ca_pAddr : option nat
}.
Arguments ConfAddr : clear implicits.

(** The settings [NewEngine] reads, then those it keeps as they are. *)
Record Config {F : Type} := MkConfig {
  Name : bytes;
  Network : bytes;
  Addrs : list bytes;
  AddrsTLS : list bytes;
  AddrConfigs : list (ConfAddr F);
  AddrConfigsTLS : list (ConfAddr F);
  Listen : option F;
  ListenUDP : option F;
  MaxLoad : Z;
  NListener : Z;
  NPoller : Z;
  ReadLimit : Z;
  ReadBufferSize : Z;
  MaxWriteBufferSize : Z;
  MaxWebsocketFramePayloadSize : Z;
  MessageHandlerPoolSize : Z;
  KeepaliveTime : Z;
  LockListener : bool;
  LockPoller : bool;
  MaxConnReadTimesPerEventLoop : Z;
  OnAcceptError : option F;
  Handler : option F;
  ServerExecutor : option F;
  ClientExecutor : option F;
  TLSConfig : option F;
  TLSAllocator : option F;
  BodyAllocator : option F;
  Context_ : option F;
  Cancel : option F;
  SupportServerOnly : bool;
  IOMod : Z;
  MaxBlockingOnline : Z;
  BlockingReadBufferSize : Z;
  EpollMod : Z;
  EPOLLONESHOT : Z;
  AsyncReadInPoller : bool;
  IOExecute : option F;
  MaxHTTPBodySize : Z;
  WriteTimeout : Z;
  DisableSendfile : bool;
  ReleaseWebsocketPayload : bool;
  RetainHTTPBody : bool;
  OnRequest : option F;
  ReadBufferPool : option F;
  WebsocketCompressor : option F;
  WebsocketDecompressor : option F
}.
Arguments Config : clear implicits.

(** What runs the handlers: a function of the user, a task pool, or a goroutine
    per call. *)
Inductive executor {F : Type} := ExUser (f : F) | ExPool (tp : pool nat) | ExGo.
Arguments executor : clear implicits.

(** [SyncCall]: the pool's [Call], or the plain call. *)
Record Engine {F : Type} := MkEngine {
  g : Nbio.Config F;
  g_Execute : executor F;
  conf : Config F;
  e_onAcceptError : option F;
  e_ExecuteClient : executor F;
  e_BaseCtx : F;
  e_Cancel : option F;
  e_callsPool : bool
}.
Arguments Engine : clear implicits.

Section new.
Context {F : Type} (net_Listen net_ListenUDP DefaultMemPool NewServeMux background cancel : F) (NumCPU GOMAXPROCS : Z).

Definition defaultNPoller : Z := let n := GOMAXPROCS / 4 in if 0 <? n then n else 1.

(** [for i, addr := range addrs], then [NListener] of every entry. *)
Definition addr_configs (network : bytes) (nlistener : Z) (addrs : list bytes) (cs : list (ConfAddr F)) : list (ConfAddr F) :=
  map (fun c => MkConfAddr F (ca_Network c) (ca_Addr c) (if ca_NListener c <=? 0 then 1 else ca_NListener c) (ca_TLSConfig c) (ca_pAddr c))
    (cs ++ imap (fun i addr => MkConfAddr F network addr nlistener None (Some i)) addrs).

(** [NewEngine], up to the settings and executors. *)
Definition normalise (c : Config F) : Config F :=
  MkConfig F
    (if bool_decide (Name c = []) then str "NB" else Name c)
    (Network c) (Addrs c) (AddrsTLS c)
    (addr_configs (Network c) (NListener c) (Addrs c) (AddrConfigs c))
    (addr_configs (Network c) (NListener c) (AddrsTLS c) (AddrConfigsTLS c))
    (Some (default net_Listen (Listen c))) (Some (default net_ListenUDP (ListenUDP c)))
    (or_default (MaxLoad c) DefaultMaxLoad)
    (NListener c)
    (if NPoller c <=? 0 then
       if AsyncReadInPoller c && (EpollMod c =? NbConn.EPOLLET) then 1 else defaultNPoller
     else NPoller c)
    (or_default (ReadLimit c) DefaultHTTPReadLimit)
    (or_default (ReadBufferSize c) Nbio.DefaultReadBufferSize)
    (MaxWriteBufferSize c)
    (or_default (MaxWebsocketFramePayloadSize c) DefaultMaxWebsocketFramePayloadSize)
    (match ServerExecutor c with
     | None => or_default (MessageHandlerPoolSize c) (GOMAXPROCS * 1024)
     | Some _ => MessageHandlerPoolSize c
     end)
    (or_default (KeepaliveTime c) DefaultKeepaliveTime)
    (LockListener c) (LockPoller c) (MaxConnReadTimesPerEventLoop c) (OnAcceptError c)
    (Some (default NewServeMux (Handler c)))
    (ServerExecutor c) (ClientExecutor c) (TLSConfig c)
    (Some (default DefaultMemPool (TLSAllocator c))) (Some (default DefaultMemPool (BodyAllocator c)))
    (Context_ c) (Cancel c) (SupportServerOnly c)
    (if bool_decide (IOMod c ∈ [IOModNonBlocking; IOModBlocking; IOModMixed]) then IOMod c else DefaultIOMod)
    (if IOMod c =? IOModMixed then or_default (MaxBlockingOnline c) DefaultMaxBlockingOnline else MaxBlockingOnline c)
    (or_default (BlockingReadBufferSize c) DefaultBlockingReadBufferSize)
    (EpollMod c) (EPOLLONESHOT c) (AsyncReadInPoller c) (IOExecute c) (MaxHTTPBodySize c) (WriteTimeout c) (DisableSendfile c)
    (ReleaseWebsocketPayload c) (RetainHTTPBody c) (OnRequest c) (ReadBufferPool c) (WebsocketCompressor c) (WebsocketDecompressor c).

Definition gopherConf (c : Config F) : Nbio.Config F :=
  Nbio.MkConfig F (Name c) (Network c) [] (NPoller c) (ReadBufferSize c) (MaxWriteBufferSize c)
    (MaxConnReadTimesPerEventLoop c) (LockListener c) (LockPoller c) (EpollMod c) (EPOLLONESHOT c) 0 None None
    (AsyncReadInPoller c) (IOExecute c) None.

Definition NewEngine (c : Config F) : Engine F :=
  let c := normalise c in
  MkEngine F
    (Nbio.NewEngine net_Listen net_ListenUDP DefaultMemPool NumCPU (gopherConf c))
    (match ServerExecutor c with
     | Some f => ExUser f
     | None => ExPool (TaskPool.New (MessageHandlerPoolSize c - 1) (1024 * 64))
     end)
    c
    None
    (match ClientExecutor c with
     | Some f => ExUser f
     | None => if SupportServerOnly c then ExGo else ExPool (TaskPool.New (GOMAXPROCS * 1024 - 1) (1024 * 64))
     end)
    (match Context_ c with Some ctx => ctx | None => background end)
    (match Context_ c with Some _ => Cancel c | None => Some cancel end)
    (match ServerExecutor c with Some _ => false | None => true end).

(** The method of the HTTP engine. *)
Definition SetOnAcceptError (h : F) (e : Engine F) : Engine F :=
  MkEngine F (g e) (g_Execute e) (conf e) (Some h) (e_ExecuteClient e) (e_BaseCtx e) (e_Cancel e) (e_callsPool e).

Definition with_addrs (a atls : list bytes) (handler exec tls : option F) (c : Config F) : Config F :=
  MkConfig F (Name c) (Network c) a atls (AddrConfigs c) (AddrConfigsTLS c) (Listen c) (ListenUDP c) (MaxLoad c) (NListener c)
    (NPoller c) (ReadLimit c) (ReadBufferSize c) (MaxWriteBufferSize c) (MaxWebsocketFramePayloadSize c) (MessageHandlerPoolSize c)
    (KeepaliveTime c) (LockListener c) (LockPoller c) (MaxConnReadTimesPerEventLoop c) (OnAcceptError c)
    (match handler with Some h => Some h | None => Handler c end)
    (match exec with Some x => Some x | None => ServerExecutor c end) (ClientExecutor c)
    (match tls with Some t => Some t | None => TLSConfig c end)
    (TLSAllocator c) (BodyAllocator c) (Context_ c) (Cancel c) (SupportServerOnly c) (IOMod c) (MaxBlockingOnline c)
    (BlockingReadBufferSize c) (EpollMod c) (EPOLLONESHOT c) (AsyncReadInPoller c) (IOExecute c) (MaxHTTPBodySize c) (WriteTimeout c) (DisableSendfile c)
    (ReleaseWebsocketPayload c) (RetainHTTPBody c) (OnRequest c) (ReadBufferPool c) (WebsocketCompressor c) (WebsocketDecompressor c).

(** The optional arguments of [NewServer] and [NewServerTLS], when they have
    the type asked for. *)
Definition NewServer (c : Config F) (handler exec : option F) : Engine F :=
  NewEngine (with_addrs (Addrs c) (AddrsTLS c) handler exec None c).

Definition NewServerTLS (c : Config F) (handler exec tls : option F) : Engine F :=
  NewEngine (with_addrs [] (AddrsTLS c ++ Addrs c) handler exec tls c).
End new.
End Http.

(** ** What a new engine has *)

(** What the HTTP engine relies on. *)
Record valid {F} (c : Http.Config F) : Prop := {
  v_load : 1 <= Http.MaxLoad c;
  v_limit : 1 <= Http.ReadLimit c;
  v_frame : 1 <= Http.MaxWebsocketFramePayloadSize c;
  v_keepalive : 1 <= Http.KeepaliveTime c;
  v_block : 1 <= Http.BlockingReadBufferSize c;
  v_iomod : Http.IOMod c ∈ [Http.IOModNonBlocking; Http.IOModBlocking; Http.IOModMixed];
  v_mixed : Http.IOMod c = Http.IOModMixed -> 1 <= Http.MaxBlockingOnline c;
  v_addrs : Forall (fun a => 1 <= Http.ca_NListener a) (Http.AddrConfigs c ++ Http.AddrConfigsTLS c);
  v_handler : is_Some (Http.Handler c);
  v_listen : is_Some (Http.Listen c);
  v_tls : is_Some (Http.TLSAllocator c);
  v_body : is_Some (Http.BodyAllocator c)
}.

Lemma or_default_pos x d : 1 <= d -> 1 <= or_default x d.
Proof. unfold or_default. destruct (Z.leb_spec x 0); lia. Qed.

Lemma or_default_nonneg x : 0 <= or_default x 0.
Proof. unfold or_default. destruct (Z.leb_spec x 0); lia. Qed.

Lemma or_default_keeps x d : 0 < x -> or_default x d = x.
Proof. unfold or_default. destruct (Z.leb_spec x 0); lia. Qed.

Lemma or_default_idem x d : or_default (or_default x d) d = or_default x d.
Proof. unfold or_default. destruct (Z.leb_spec x 0); [|by destruct (Z.leb_spec x 0); [lia|]]. by destruct (Z.leb_spec d 0). Qed.

Section configured.
Context {F : Type} (net_Listen net_ListenUDP DefaultMemPool NewServeMux background cancel : F) (NumCPU GOMAXPROCS : Z).

Abbreviation NewNbio := (Nbio.NewEngine net_Listen net_ListenUDP DefaultMemPool NumCPU).
Abbreviation NewHttp := (Http.NewEngine net_Listen net_ListenUDP DefaultMemPool NewServeMux background cancel NumCPU GOMAXPROCS).

Lemma nbio_valid c : 0 <= NumCPU -> Nbio.valid (NewNbio c).
Proof.
  intros Hc. split; cbn; try done.
  - by case_bool_decide.
  - destruct (Z.leb_spec (Nbio.NPoller c) 0); [|lia]. pose proof (Z.div_pos NumCPU 4 Hc). destruct (_ && _); cbn; [lia|].
    destruct (Z.eqb_spec (NumCPU / 4) 0); lia.
  - apply or_default_pos. unfold Nbio.DefaultReadBufferSize. lia.
  - apply or_default_nonneg.
  - apply or_default_pos. unfold Nbio.DefaultMaxConnReadTimesPerEventLoop. lia.
Qed.

(** Settings that are valid are kept. *)
Lemma nbio_keeps c : Nbio.valid c -> NewNbio c = c.
Proof.
  intros [Hn Hp Hb Hw Hr [l Hl] [u Hu] [a Ha]]. destruct c; cbn in *. subst. unfold Nbio.NewEngine. cbn.
  rewrite bool_decide_eq_false_2 by done. rewrite (or_default_keeps ReadBufferSize), (or_default_keeps MaxConnReadTimesPerEventLoop) by lia.
  destruct (Z.leb_spec NPoller 0); [lia|].
  assert (or_default MaxWriteBufferSize Nbio.DefaultMaxWriteBufferSize = MaxWriteBufferSize) as ->; [|done].
  unfold or_default, Nbio.DefaultMaxWriteBufferSize. destruct (Z.leb_spec MaxWriteBufferSize 0); lia.
Qed.

(** Switching the reading mode keeps the engine well-formed. *)
Lemma reading_valid (c : Nbio.Config F) : 0 < NumCPU -> Nbio.valid c -> Nbio.valid (Nbio.SetETAsyncRead c) /\ Nbio.valid (Nbio.SetLTSyncRead NumCPU c).
Proof. intros Hn []. by split; split; cbn; try done; apply or_default_pos; lia. Qed.

Lemma addr_configs_pos network n addrs (cs : list (Http.ConfAddr F)) :
  Forall (fun a => 1 <= Http.ca_NListener a) (Http.addr_configs network n addrs cs).
Proof.
  unfold Http.addr_configs. apply Forall_map, Forall_true. intros a. cbn. destruct (Z.leb_spec (Http.ca_NListener a) 0); lia.
Qed.

Lemma addr_configs_lookup network n addrs (cs : list (Http.ConfAddr F)) i a :
  addrs !! i = Some a ->
  Http.addr_configs network n addrs cs !! (length cs + i)%nat = Some (Http.MkConfAddr F network a (or_default n 1) None (Some i)).
Proof.
  intros Hi. unfold Http.addr_configs. rewrite list_lookup_fmap, lookup_app_r by lia.
  replace (length cs + i - length cs)%nat with i by lia. rewrite list_lookup_imap, Hi. done.
Qed.

Lemma http_valid c : 0 < GOMAXPROCS -> valid (Http.conf (NewHttp c)).
Proof.
  intros Hp. split; cbn; try done; try (apply or_default_pos; done).
  - case_bool_decide; [done|]. apply list_elem_of_here.
  - intros Hm. case_bool_decide; [|done]. rewrite Hm. cbn. by apply or_default_pos.
  - apply Forall_app. split; apply addr_configs_pos.
Qed.

Lemma http_npoller c : 0 < GOMAXPROCS -> 1 <= Http.NPoller (Http.conf (NewHttp c)).
Proof.
  intros Hp. cbn. destruct (Z.leb_spec (Http.NPoller c) 0); [|lia]. destruct (_ && _); [lia|].
  unfold Http.defaultNPoller. destruct (Z.ltb_spec 0 (GOMAXPROCS / 4)); lia.
Qed.

(** A number that is kept when positive and has a default otherwise. *)
Definition kept_or (x d x' : Z) : Prop := (0 < x -> x' = x) /\ (x <= 0 -> x' = d).

Lemma or_default_kept x d : kept_or x d (or_default x d).
Proof. split; unfold or_default; destruct (Z.leb_spec x 0); lia. Qed.

(** The settings of the HTTP engine against the configuration: with defaults, and
    untouched. *)
Record http_settings (c c' : Http.Config F) : Prop := {
  hs_name : Http.Name c' = (if bool_decide (Http.Name c = []) then str "NB" else Http.Name c);
  hs_load : kept_or (Http.MaxLoad c) Http.DefaultMaxLoad (Http.MaxLoad c');
  hs_npoller : kept_or (Http.NPoller c)
    (if Http.AsyncReadInPoller c && (Http.EpollMod c =? NbConn.EPOLLET) then 1 else Z.max 1 (GOMAXPROCS / 4)) (Http.NPoller c');
  hs_limit : kept_or (Http.ReadLimit c) Http.DefaultHTTPReadLimit (Http.ReadLimit c');
  hs_keepalive : kept_or (Http.KeepaliveTime c) Http.DefaultKeepaliveTime (Http.KeepaliveTime c');
  hs_buffer : kept_or (Http.ReadBufferSize c) Nbio.DefaultReadBufferSize (Http.ReadBufferSize c');
  hs_frame : kept_or (Http.MaxWebsocketFramePayloadSize c) Http.DefaultMaxWebsocketFramePayloadSize (Http.MaxWebsocketFramePayloadSize c');
  hs_block : kept_or (Http.BlockingReadBufferSize c) Http.DefaultBlockingReadBufferSize (Http.BlockingReadBufferSize c');
  hs_pool : match Http.ServerExecutor c with
            | None => kept_or (Http.MessageHandlerPoolSize c) (GOMAXPROCS * 1024) (Http.MessageHandlerPoolSize c')
            | Some _ => Http.MessageHandlerPoolSize c' = Http.MessageHandlerPoolSize c
            end;
  hs_iomod : Http.IOMod c' = (if bool_decide (Http.IOMod c ∈ [Http.IOModNonBlocking; Http.IOModBlocking; Http.IOModMixed]) then Http.IOMod c
                              else Http.IOModNonBlocking);
  hs_online : if Http.IOMod c =? Http.IOModMixed then kept_or (Http.MaxBlockingOnline c) Http.DefaultMaxBlockingOnline (Http.MaxBlockingOnline c')
              else Http.MaxBlockingOnline c' = Http.MaxBlockingOnline c;
  hs_functions : Http.Listen c' = Some (default net_Listen (Http.Listen c)) /\ Http.ListenUDP c' = Some (default net_ListenUDP (Http.ListenUDP c)) /\
    Http.Handler c' = Some (default NewServeMux (Http.Handler c)) /\ Http.TLSAllocator c' = Some (default DefaultMemPool (Http.TLSAllocator c)) /\
    Http.BodyAllocator c' = Some (default DefaultMemPool (Http.BodyAllocator c));
  hs_addresses : Http.Network c' = Http.Network c /\ Http.Addrs c' = Http.Addrs c /\ Http.AddrsTLS c' = Http.AddrsTLS c /\
    Http.NListener c' = Http.NListener c;
  hs_reading : Http.EpollMod c' = Http.EpollMod c /\ Http.EPOLLONESHOT c' = Http.EPOLLONESHOT c /\
    Http.AsyncReadInPoller c' = Http.AsyncReadInPoller c /\ Http.IOExecute c' = Http.IOExecute c /\
    Http.MaxConnReadTimesPerEventLoop c' = Http.MaxConnReadTimesPerEventLoop c /\ Http.LockListener c' = Http.LockListener c /\
    Http.LockPoller c' = Http.LockPoller c /\ Http.MaxWriteBufferSize c' = Http.MaxWriteBufferSize c;
  hs_users : Http.ServerExecutor c' = Http.ServerExecutor c /\ Http.ClientExecutor c' = Http.ClientExecutor c /\ Http.TLSConfig c' = Http.TLSConfig c /\
    Http.Context_ c' = Http.Context_ c /\ Http.Cancel c' = Http.Cancel c /\ Http.SupportServerOnly c' = Http.SupportServerOnly c /\
    Http.OnRequest c' = Http.OnRequest c /\ Http.MaxHTTPBodySize c' = Http.MaxHTTPBodySize c /\ Http.WriteTimeout c' = Http.WriteTimeout c /\
    Http.DisableSendfile c' = Http.DisableSendfile c /\ Http.ReleaseWebsocketPayload c' = Http.ReleaseWebsocketPayload c /\
    Http.RetainHTTPBody c' = Http.RetainHTTPBody c
}.

(** The engine of the pollers against the settings of the HTTP engine: what is
    passed on, and what is not. *)
Record poller_settings (c' : Http.Config F) (g : Nbio.Config F) : Prop := {
  ps_same : Nbio.Name g = Http.Name c' /\ Nbio.Network g = Http.Network c' /\ Nbio.NPoller g = Http.NPoller c' /\
    Nbio.ReadBufferSize g = Http.ReadBufferSize c' /\ Nbio.LockListener g = Http.LockListener c' /\ Nbio.LockPoller g = Http.LockPoller c' /\
    Nbio.EpollMod g = Http.EpollMod c' /\ Nbio.EPOLLONESHOT g = Http.EPOLLONESHOT c' /\
    Nbio.AsyncReadInPoller g = Http.AsyncReadInPoller c' /\ Nbio.IOExecute g = Http.IOExecute c';
  ps_write : kept_or (Http.MaxWriteBufferSize c') 0 (Nbio.MaxWriteBufferSize g);
  ps_reads : kept_or (Http.MaxConnReadTimesPerEventLoop c') Nbio.DefaultMaxConnReadTimesPerEventLoop (Nbio.MaxConnReadTimesPerEventLoop g);
  ps_not_passed : Nbio.Addrs g = [] /\ Nbio.Listen g = Some net_Listen /\ Nbio.ListenUDP g = Some net_ListenUDP /\
    Nbio.BodyAllocator g = Some DefaultMemPool /\ Nbio.UDPReadTimeout g = 0
}.

(** The entries of [AddrConfigs] or [AddrConfigsTLS]: those given, then one for
    each address, pointing back to it; each with at least one listener. *)
Definition entries (c : Http.Config F) (addrs : list bytes) (cs cs' : list (Http.ConfAddr F)) : Prop :=
  length cs' = (length cs + length addrs)%nat /\
  (forall i a, cs !! i = Some a ->
     cs' !! i = Some (Http.MkConfAddr F (Http.ca_Network a) (Http.ca_Addr a) (Z.max 1 (Http.ca_NListener a)) (Http.ca_TLSConfig a) (Http.ca_pAddr a))) /\
  (forall i a, addrs !! i = Some a ->
     cs' !! (length cs + i)%nat = Some (Http.MkConfAddr F (Http.Network c) a (Z.max 1 (Http.NListener c)) None (Some i))).

Lemma addr_configs_entries c addrs cs : entries c addrs cs (Http.addr_configs (Http.Network c) (Http.NListener c) addrs cs).
Proof.
  split; [unfold Http.addr_configs; by rewrite length_map, length_app, length_imap|]. split.
  - intros i a Hi. unfold Http.addr_configs. rewrite list_lookup_fmap, (lookup_app_l_Some _ _ _ _ Hi). cbn. repeat f_equal.
    destruct (Z.leb_spec (Http.ca_NListener a) 0); lia.
  - intros i a Hi. rewrite (addr_configs_lookup _ _ _ _ _ _ Hi). repeat f_equal. unfold or_default. destruct (Z.leb_spec (Http.NListener c) 0); lia.
Qed.

Lemma http_settings_new c : http_settings c (Http.conf (NewHttp c)).
Proof.
  split; cbn; try done; try (apply or_default_kept).
  - split; destruct (Z.leb_spec (Http.NPoller c) 0); try lia. intros _. destruct (_ && _); [done|].
    unfold Http.defaultNPoller. destruct (Z.ltb_spec 0 (GOMAXPROCS / 4)); lia.
  - destruct (Http.ServerExecutor c); [done|]. apply or_default_kept.
  - destruct (_ =? _); [apply or_default_kept|done].
Qed.

Lemma poller_settings_new c : 0 < GOMAXPROCS -> poller_settings (Http.conf (NewHttp c)) (Http.g (NewHttp c)).
Proof.
  intros Hp. pose proof (http_npoller c Hp) as Hn. split; [|apply or_default_kept|apply or_default_kept|done].
  cbn in *. set (n := if Http.NPoller c <=? 0 then _ else _) in *. split_and!; try done.
  - by repeat case_bool_decide.
  - destruct (Z.leb_spec n 0); [lia|done].
  - apply or_default_idem.
Qed.


(** The handler of accept errors given in the configuration is never used. *)
Lemma accept_error_ignored c h : Http.OnAcceptError c = Some h -> Http.e_onAcceptError (NewHttp c) = None.
Proof. done. Qed.
End configured.

(** The empty configuration. *)
Definition empty_config : Http.Config nat :=
  Http.MkConfig nat [] [] [str ":80"; str ":81"] [] [] [] None None 0 0 0 0 0 0 0 0 0 false false 0 (Some 7%nat) None None None None
    None None None None false 9 0 0 0 0 false None 0 0 false false false None None None None.

