(* ===== verification/EngineStart.v ===== *)
(** * Starting an engine (src/engine_unix.go, engine.go, net_unix.go, poller_epoll.go)

    [Start] of the engine of the pollers: what it creates, starts and, when a
    step fails, gives back.  Whether each call of the operating system succeeds
    is an argument. *)

From Stdlib Require Import ZArith Lia.
From stdpp Require Import base numbers list.
From S2P Require Import Prelude.

Open Scope nat_scope.

(** A TCP or Unix listener, the descriptor of a [net.UDPConn], the duplicate of it
    that a poller works with, or a poller with its two descriptors. *)
Inductive res := RListener (i : nat) | RUdp (i : nat) | RDup (i : nat) | RPoller (i : nat).

#[export] Instance res_eq_dec : EqDecision res.
Proof. solve_decision. Defined.

(** What exists: everything created, the goroutines started, what [stop] or
    [Close] was called on, and the UDP sockets that a poller took. *)
Record started := MkStarted {
  s_made : list res;
  s_running : list res;
  s_stopped : list res;
  s_added : list nat
}.

Definition s_empty : started := MkStarted [] [] [] [].

Definition make (r : res) (s : started) : started := MkStarted (s_made s ++ [r]) (s_running s) (s_stopped s) (s_added s).
Definition run (rs : list res) (s : started) : started := MkStarted (s_made s) (s_running s ++ rs) (s_stopped s) (s_added s).
Definition add (i : nat) (s : started) : started := MkStarted (s_made s) (s_running s) (s_stopped s) (s_added s ++ [i]).

(** [stop] of pollers and listeners, [Close] of UDP sockets.  Closing a
    [net.UDPConn] again does nothing, and nothing to the duplicate. *)
Definition stop (rs : list res) (s : started) : started := MkStarted (s_made s) (s_running s) (s_stopped s ++ rs) (s_added s).

(** What [stop] leads to: a listener or socket is closed by it; the descriptors
    of a poller are closed by its goroutine, once that sees the flag. *)
Definition released (s : started) (r : res) : bool :=
  bool_decide (r ∈ s_stopped s) &&
  match r with RPoller _ => bool_decide (r ∈ s_running s) | _ => true end.

Definition leaked (s : started) : list res := filter (fun r => released s r = false) (s_made s).

Inductive net := NetStream | NetUDP | NetOther.

(** [for i := range ...]: [act] for each index, and [undo] at the first that
    fails. *)
Fixpoint each (act : nat -> started -> started * bool) (undo : nat -> started -> started) (i n : nat) (s : started) : started * bool :=
  match n with
  | O => (s, true)
  | S n =>
      let '(s, ok) := act i s in
      if ok then each act undo (S i) n s else (undo i s, false)
  end.

(** A constructor: the new resource, or an error and nothing. *)
Definition create (ok : nat -> bool) (r : nat -> res) (i : nat) (s : started) : started * bool :=
  if ok i then (make (r i) s, true) else (s, false).

Definition listeners (n : nat) : list res := map RListener (seq 0 n).
Definition udps (n : nat) : list res := map RUdp (seq 0 n).
Definition dups (n : nat) : list res := map RDup (seq 0 n).
Definition pollers (n : nat) : list res := map RPoller (seq 0 n).

(** [dupStdConn] of a UDP socket: the descriptor is duplicated and the
    [net.UDPConn] closed, unless the duplication fails. *)
Definition dup_udp (dup_ok : nat -> bool) (i : nat) (s : started) : started * bool :=
  if dup_ok i then (stop [RUdp i] (make (RDup i) s), true) else (s, false).

(** [AddConn] of a UDP socket: [NBConn], which duplicates it, then [addConn] of a
    poller, which closes the duplicate when it fails (its number too large for
    the table, or [addRead] failing).  There is a poller: [NewEngine] makes their
    number positive. *)
Definition AddConn (dup_ok addconn_ok : nat -> bool) (i : nat) (s : started) : started * bool :=
  let '(s, ok) := dup_udp dup_ok i s in
  if ok then
    if addconn_ok i then (add i s, true) else (stop [RDup i] s, false)
  else (s, false).

Section start.
(** [newPoller] of a listener, [ResolveUDPAddr] and [ListenUDP] of an address,
    [newPoller] of a poller; and [AddConn] of a UDP socket, with its effects. *)
Context (listen_ok udp_ok poller_ok : nat -> bool) (addConn : nat -> started -> started * bool).

Definition make_listeners (n : nat) : started -> started * bool :=
  each (create listen_ok RListener) (fun i => stop (listeners i)) 0 n.

Definition make_udps (n : nat) : started -> started * bool :=
  each (create udp_ok RUdp) (fun i => stop (udps i)) 0 n.

(** [nl] and [nu]: how many listeners and UDP sockets there are.  Only the
    listeners and the pollers are stopped when a poller cannot be made. *)
Definition make_pollers (nl n : nat) : started -> started * bool :=
  each (create poller_ok RPoller) (fun i s => stop (pollers i) (stop (listeners nl) s)) 0 n.

Definition add_udps (nl n nu : nat) : started -> started * bool :=
  each addConn (fun _ s => stop (udps nu) (stop (pollers n) (stop (listeners nl) s))) 0 nu.

Definition Start (network : net) (addrs NPoller : nat) : started * bool :=
  let '(s, ok) :=
    match network with
    | NetStream => make_listeners addrs s_empty
    | NetUDP => make_udps addrs s_empty
    | NetOther => (s_empty, true)
    end in
  if ok then
    let nl := match network with NetStream => addrs | _ => 0 end in
    let nu := match network with NetUDP => addrs | _ => 0 end in
    let '(s, ok) := make_pollers nl NPoller s in
    if ok then
      let s := run (pollers NPoller) s in
      let s := run (listeners nl) s in
      add_udps nl NPoller nu s
    else (s, false)
  else (s, false).

End start.

(** ** What the loops do *)

(** A loop whose actions have known effects: [good] when [ok], [bad] otherwise. *)
Lemma each_cases (ok : nat -> bool) (good bad : nat -> started -> started) act undo n :
  (forall k s, act k s = if ok k then (good k s, true) else (bad k s, false)) -> forall i s,
  (each act undo i n s = (foldl (fun s k => good k s) s (seq i n), true) /\ forall k, i <= k < i + n -> ok k = true) \/
  exists k, i <= k < i + n /\ ok k = false /\
    each act undo i n s = (undo k (bad k (foldl (fun s k => good k s) s (seq i (k - i)))), false).
Proof.
  intros Hact. induction n as [|n IH]; intros i s; cbn [each seq foldl]; [left; split; [done|lia]|]. rewrite Hact. destruct (ok i) eqn:E.
  - destruct (IH (S i) (good i s)) as [[-> H]|(k & Hk & Hf & ->)].
    + left. split; [done|]. intros k Hk. destruct (decide (k = i)) as [->|]; [done|]. apply H. lia.
    + right. exists k. split; [lia|]. split; [done|]. replace (k - i) with (S (k - S i)) by lia. done.
  - right. exists i. split; [lia|]. split; [done|]. by rewrite Nat.sub_diag.
Qed.

Lemma make_fold (f : nat -> res) l : forall s,
  foldl (fun s k => make (f k) s) s l = MkStarted (s_made s ++ map f l) (s_running s) (s_stopped s) (s_added s).
Proof.
  induction l as [|x l IH]; intros s; cbn [foldl map]; [rewrite app_nil_r; by destruct s|]. rewrite IH. cbn. by rewrite <- app_assoc.
Qed.

(** An [AddConn] that works. *)
#[local] Definition taken (k : nat) (s : started) : started := add k (stop [RUdp k] (make (RDup k) s)).

Lemma taken_fold l : forall s,
  foldl (fun s k => taken k s) s l =
  MkStarted (s_made s ++ map RDup l) (s_running s) (s_stopped s ++ map RUdp l) (s_added s ++ l).
Proof.
  induction l as [|x l IH]; intros s; cbn [foldl map]; [rewrite !app_nil_r; by destruct s|]. rewrite IH. cbn.
  by rewrite <- !app_assoc.
Qed.

Lemma add_fold l : forall s, foldl (fun s k => add k s) s l = MkStarted (s_made s) (s_running s) (s_stopped s) (s_added s ++ l).
Proof.
  induction l as [|x l IH]; intros s; cbn [foldl]; [rewrite app_nil_r; by destruct s|]. rewrite IH. cbn. by rewrite <- app_assoc.
Qed.

Lemma make_cases ok (f : nat -> res) undo n s :
  (each (create ok f) undo 0 n s =
     (MkStarted (s_made s ++ map f (seq 0 n)) (s_running s) (s_stopped s) (s_added s), true) /\ forall k, k < n -> ok k = true) \/
  exists k, k < n /\ ok k = false /\
    each (create ok f) undo 0 n s =
      (undo k (MkStarted (s_made s ++ map f (seq 0 k)) (s_running s) (s_stopped s) (s_added s)), false).
Proof.
  destruct (each_cases ok (fun i => make (f i)) (fun _ s => s) (create ok f) undo n (fun _ _ => eq_refl) 0 s)
    as [[-> H]|(k & Hk & Hf & ->)]; rewrite make_fold; [left; split; [done|]; intros k Hk; apply H; lia|].
  right. exists k. rewrite Nat.sub_0_r. split_and!; try done. lia.
Qed.

#[local] Arguments listeners : simpl never.
#[local] Arguments udps : simpl never.
#[local] Arguments dups : simpl never.
#[local] Arguments pollers : simpl never.
#[local] Arguments each : simpl never.

(** Where [Start] can end. *)
Section outcomes.
Context (listen_ok udp_ok poller_ok : nat -> bool) (addConn : nat -> started -> started * bool).
Context (network : net) (addrs n : nat).

Definition of_listeners : nat := match network with NetStream => addrs | _ => 0 end.
Definition of_udps : nat := match network with NetUDP => addrs | _ => 0 end.

(** Every call before the UDP sockets are added. *)
Definition opened_ok : Prop :=
  (forall k, k < of_listeners -> listen_ok k = true) /\ (forall k, k < of_udps -> udp_ok k = true) /\ (forall k, k < n -> poller_ok k = true).

(** All is made and the goroutines run. *)
Definition ready : started :=
  MkStarted (listeners of_listeners ++ udps of_udps ++ pollers n) (pollers n ++ listeners of_listeners) [] [].

Inductive outcome : started * bool -> Prop :=
| All_ready : opened_ok -> outcome (add_udps addConn of_listeners n of_udps ready)
| No_listener k : k < of_listeners -> listen_ok k = false ->
    outcome (MkStarted (listeners k) [] (listeners k) [], false)
| No_udp k : k < of_udps -> udp_ok k = false ->
    outcome (MkStarted (udps k) [] (udps k) [], false)
| No_poller k : k < n -> poller_ok k = false ->
    outcome (MkStarted (listeners of_listeners ++ udps of_udps ++ pollers k) [] (listeners of_listeners ++ pollers k) [], false).

(** The second half, whatever the first made. *)
Lemma pollers_outcome :
  (forall k, k < of_listeners -> listen_ok k = true) -> (forall k, k < of_udps -> udp_ok k = true) ->
  outcome
    (let '(s, ok) := make_pollers poller_ok of_listeners n (MkStarted (listeners of_listeners ++ udps of_udps) [] [] []) in
     if ok then add_udps addConn of_listeners n of_udps (run (listeners of_listeners) (run (pollers n) s)) else (s, false)).
Proof.
  intros Hl Hu. unfold make_pollers. destruct (make_cases poller_ok RPoller (fun i s => stop (pollers i) (stop (listeners of_listeners) s)) n
    (MkStarted (listeners of_listeners ++ udps of_udps) [] [] [])) as [[-> Hp]|(k & Hk & Hf & ->)]; cbn [s_made s_running s_stopped s_added].
  - rewrite <- app_assoc. by apply All_ready.
  - unfold stop. cbn [s_made s_running s_stopped s_added]. rewrite <- app_assoc. by apply No_poller.
Qed.
End outcomes.

Lemma Start_outcome listen_ok udp_ok poller_ok addConn network addrs n :
  outcome listen_ok udp_ok poller_ok addConn network addrs n (Start listen_ok udp_ok poller_ok addConn network addrs n).
Proof.
  pose proof (pollers_outcome listen_ok udp_ok poller_ok addConn network addrs n) as H.
  unfold Start, make_listeners, make_udps. destruct network; cbn [of_listeners of_udps] in H.
  - destruct (make_cases listen_ok RListener (fun i => stop (listeners i)) addrs s_empty) as [[-> Hl]|(k & Hk & Hf & ->)]; cbn;
      [|by apply No_listener].
    change (udps 0) with (@nil res) in H. rewrite app_nil_r in H. apply H; [done|lia].
  - destruct (make_cases udp_ok RUdp (fun i => stop (udps i)) addrs s_empty) as [[-> Hu]|(k & Hk & Hf & ->)]; cbn; [|by apply No_udp].
    apply H; [lia|done].
  - apply H; lia.
Qed.

(** Adding the UDP sockets: all of them, or those before the first that fails,
    whose duplicate, if made, is closed. *)
Lemma add_udps_cases dup_ok addconn_ok nl n nu s :
  (add_udps (AddConn dup_ok addconn_ok) nl n nu s =
     (MkStarted (s_made s ++ dups nu) (s_running s) (s_stopped s ++ udps nu) (s_added s ++ seq 0 nu), true) /\
   forall k, k < nu -> dup_ok k && addconn_ok k = true) \/
  exists k d u, k < nu /\ dup_ok k && addconn_ok k = false /\ d ⊆ [RDup k] /\
    add_udps (AddConn dup_ok addconn_ok) nl n nu s =
      (MkStarted (s_made s ++ dups k ++ d) (s_running s)
         (s_stopped s ++ udps k ++ u ++ d ++ listeners nl ++ pollers n ++ udps nu) (s_added s ++ seq 0 k), false) /\ u ⊆ [RUdp k].
Proof.
  unfold add_udps. destruct (each_cases (fun k => dup_ok k && addconn_ok k) taken
    (fun k s => if dup_ok k then stop [RDup k] (stop [RUdp k] (make (RDup k) s)) else s) (AddConn dup_ok addconn_ok)
    (fun _ s => stop (udps nu) (stop (pollers n) (stop (listeners nl) s))) nu) with (i := 0) (s := s)
    as [[-> H]|(k & Hk & Hf & ->)].
  - intros k s'. unfold AddConn, dup_udp. destruct (dup_ok k); [|done]. cbn. by destruct (addconn_ok k).
  - left. rewrite taken_fold. split; [done|]. intros k Hk. apply H. lia.
  - right. exists k, (if dup_ok k then [RDup k] else []), (if dup_ok k then [RUdp k] else []).
    rewrite Nat.sub_0_r, taken_fold. split; [lia|]. split; [done|]. destruct (dup_ok k); unfold stop, make;
      cbn [s_made s_running s_stopped s_added app]; rewrite <- ?app_assoc, ?app_nil_r; split_and!; done || apply list_subseteq_nil.
Qed.

(** ** What is left behind *)

Lemma filter_all (P : res -> Prop) `{!forall r, Decision (P r)} (l : list res) : Forall P l -> filter P l = l.
Proof. induction 1 as [|r l Hr _ IH]; [done|]. rewrite filter_cons, decide_True by done. by rewrite IH. Qed.

Lemma filter_none (P : res -> Prop) `{!forall r, Decision (P r)} (l : list res) : Forall (fun r => ~ P r) l -> filter P l = [].
Proof. induction 1 as [|r l Hr _ IH]; [done|]. by rewrite filter_cons, decide_False by done. Qed.

(** What was made in three parts, only the second not released. *)
Lemma leaked_split l1 l2 l3 s : s_made s = l1 ++ l2 ++ l3 ->
  (forall r, r ∈ l1 ++ l3 -> released s r = true) -> (forall r, r ∈ l2 -> released s r = false) -> leaked s = l2.
Proof.
  intros E H1 H2. unfold leaked. rewrite E, !filter_app, (filter_none _ l1), (filter_all _ l2), (filter_none _ l3).
  - by rewrite app_nil_r.
  - apply Forall_forall. intros r Hr. rewrite H1; [done|]. by apply elem_of_app; right.
  - by apply Forall_forall.
  - apply Forall_forall. intros r Hr. rewrite H1; [done|]. by apply elem_of_app; left.
Qed.

Lemma elem_listeners r n : r ∈ listeners n <-> exists i, i < n /\ r = RListener i.
Proof. unfold listeners. rewrite list_elem_of_fmap. setoid_rewrite elem_of_seq. split; intros (i & ? & ?); exists i; split; done || lia. Qed.
Lemma elem_udps r n : r ∈ udps n <-> exists i, i < n /\ r = RUdp i.
Proof. unfold udps. rewrite list_elem_of_fmap. setoid_rewrite elem_of_seq. split; intros (i & ? & ?); exists i; split; done || lia. Qed.
Lemma elem_dups r n : r ∈ dups n <-> exists i, i < n /\ r = RDup i.
Proof. unfold dups. rewrite list_elem_of_fmap. setoid_rewrite elem_of_seq. split; intros (i & ? & ?); exists i; split; done || lia. Qed.
Lemma elem_pollers r n : r ∈ pollers n <-> exists i, i < n /\ r = RPoller i.
Proof. unfold pollers. rewrite list_elem_of_fmap. setoid_rewrite elem_of_seq. split; intros (i & ? & ?); exists i; split; done || lia. Qed.

Lemma released_spec s r : released s r = true <-> r ∈ s_stopped s /\ forall i, r = RPoller i -> r ∈ s_running s.
Proof.
  unfold released. rewrite andb_true_iff, bool_decide_eq_true. destruct r as [| | |i]; try naive_solver.
  rewrite bool_decide_eq_true. naive_solver.
Qed.

Lemma not_released s r : ~ (r ∈ s_stopped s /\ forall i, r = RPoller i -> r ∈ s_running s) -> released s r = false.
Proof. intros H. apply not_true_is_false. by rewrite released_spec. Qed.

Ltac members := cbn [s_made s_running s_stopped s_added] in *;
  rewrite ?elem_of_app, ?elem_listeners, ?elem_udps, ?elem_dups, ?elem_pollers, ?elem_of_nil in *.

Section results.
Context (listen_ok udp_ok poller_ok dup_ok addconn_ok : nat -> bool) (network : net) (addrs NPoller : nat).
#[local] Notation nl := (of_listeners network addrs).
#[local] Notation nu := (of_udps network addrs).

(** The ends of a [Start] that fails. *)
Inductive start_failure (s : started) : Prop :=
| Fail_open k : (k < nl /\ listen_ok k = false) \/ (k < nu /\ udp_ok k = false) -> leaked s = [] -> start_failure s
| Fail_poller k : k < NPoller -> poller_ok k = false -> leaked s = udps nu ++ pollers k -> start_failure s
| Fail_add k : k < nu -> dup_ok k && addconn_ok k = false -> leaked s = dups k -> start_failure s.

(** Every goroutine that was started is told to stop and the listeners are
    closed. *)
Definition wound_up (s : started) : Prop :=
  (forall r, r ∈ s_running s -> r ∈ s_stopped s) /\ (forall i, RListener i ∈ s_made s -> released s (RListener i) = true).

Lemma opened_leaks (f : nat -> res) k : (forall i j, f i <> RPoller j) ->
  let s := MkStarted (map f (seq 0 k)) [] (map f (seq 0 k)) [] in leaked s = [] /\ wound_up s.
Proof.
  intros Hf s. split; [apply (leaked_split (s_made s) [] []); [by rewrite !app_nil_r| |by intros r Hr%elem_of_nil]|split].
  - intros r. rewrite app_nil_r. intros Hr. apply released_spec. split; [done|]. intros i ->.
    apply list_elem_of_fmap in Hr as (j & E & _). by destruct (Hf j i).
  - by intros r Hr%elem_of_nil.
  - intros i Hi. by apply released_spec.
Qed.

Lemma no_poller_leaks k :
  let s := MkStarted (listeners nl ++ udps nu ++ pollers k) [] (listeners nl ++ pollers k) [] in
  leaked s = udps nu ++ pollers k /\ wound_up s.
Proof.
  intros s. subst s. split; [apply (leaked_split (listeners nl) _ []); [by rewrite app_nil_r| |]|split].
  - intros r Hr. apply released_spec. members. naive_solver.
  - intros r Hr. apply not_released. members. destruct Hr as [(i & _ & ->)|(i & _ & ->)]; intros [H1 H2]; [naive_solver|].
    by apply (not_elem_of_nil _ (H2 i eq_refl)).
  - by intros r Hr%elem_of_nil.
  - intros i Hi. apply released_spec. members. naive_solver.
Qed.

Lemma not_added_leaks k d u : k < nu -> d ⊆ [RDup k] -> u ⊆ [RUdp k] ->
  let s := MkStarted ((listeners nl ++ udps nu ++ pollers NPoller) ++ dups k ++ d) (pollers NPoller ++ listeners nl)
             ([] ++ udps k ++ u ++ d ++ listeners nl ++ pollers NPoller ++ udps nu) ([] ++ seq 0 k) in
  leaked s = dups k /\ wound_up s.
Proof.
  intros Hk Hd Hu s. subst s. split; [apply (leaked_split (listeners nl ++ udps nu ++ pollers NPoller) _ d); [done| |]|split].
  - intros r Hr. apply released_spec. members. split; [clear Hd Hu; tauto|]. intros i ->. members. left. destruct Hr as [[?|[?|Hr]]|Hr]; [naive_solver..|done|].
    apply Hd, list_elem_of_singleton in Hr. done.
  - intros r Hr. apply not_released. members. destruct Hr as (i & Hi & ->). intros [[[]|[H|[H|[H|H]]]] _].
    + naive_solver.
    + apply Hu, list_elem_of_singleton in H. done.
    + apply Hd, list_elem_of_singleton in H. injection H as ->. lia.
    + naive_solver.
  - intros r Hr. members. clear Hd Hu. tauto.
  - intros i Hi. apply released_spec. members. split; [|done]. destruct Hi as [[Hi|[Hi|Hi]]|[Hi|Hi]]; [by auto 8|naive_solver..|].
    apply Hd, list_elem_of_singleton in Hi. done.
Qed.

(** C39: [Start] succeeds exactly when every call does: each listener, UDP socket
    and poller is made and each UDP socket is duplicated and taken by a poller.
    Then all of these exist, the goroutines of the pollers and listeners run,
    and nothing was stopped but the [net.UDPConn]s that were duplicated.
    Otherwise every goroutine that was started has been told to stop and every
    listener is closed.  Nothing stays open when a listener or socket could not
    be opened; when a poller could not be created, exactly the UDP sockets and
    the pollers made before it stay open; and when a UDP socket could not be
    added, exactly the duplicates of those added before it do, since [Start]
    closes only the [net.UDPConn]s, which [AddConn] has closed already. *)
Theorem start_result :
  let '(s, ok) := Start listen_ok udp_ok poller_ok (AddConn dup_ok addconn_ok) network addrs NPoller in
  (ok = true <-> opened_ok listen_ok udp_ok poller_ok network addrs NPoller /\ forall k, k < nu -> dup_ok k && addconn_ok k = true) /\
  (ok = true ->
     s_made s = listeners nl ++ udps nu ++ pollers NPoller ++ dups nu /\ s_running s = pollers NPoller ++ listeners nl /\
     s_added s = seq 0 nu /\ s_stopped s = udps nu) /\
  (ok = false -> wound_up s /\ start_failure s).
Proof.
  destruct (Start_outcome listen_ok udp_ok poller_ok (AddConn dup_ok addconn_ok) network addrs NPoller) as [Ho|k Hk Hf|k Hk Hf|k Hk Hf].
  - destruct (add_udps_cases dup_ok addconn_ok nl NPoller nu (ready network addrs NPoller)) as [[-> H]|(k & d & u & Hk & Hf & Hd & -> & Hu)].
    + split; [done|]. split; [|done]. intros _. unfold ready. cbn [s_made s_running s_stopped s_added]. by rewrite <- !app_assoc.
    + destruct (not_added_leaks k d u Hk Hd Hu) as [Hl Hw]. split; [|split; [done|]].
      * split; [done|]. intros [_ H]. by rewrite H in Hf.
      * intros _. split; [done|]. by apply (Fail_add _ k).
  - destruct (opened_leaks RListener k) as [Hl Hw]; [done|]. split; [|split; [done|]].
    + split; [done|]. intros [(H & _) _]. by rewrite H in Hf.
    + intros _. split; [done|]. apply (Fail_open _ k); [by left|done].
  - destruct (opened_leaks RUdp k) as [Hl Hw]; [done|]. split; [|split; [done|]].
    + split; [done|]. intros [(_ & H & _) _]. by rewrite H in Hf.
    + intros _. split; [done|]. apply (Fail_open _ k); [by right|done].
  - destruct (no_poller_leaks k) as [Hl Hw]. split; [|split; [done|]].
    + split; [done|]. intros [(_ & _ & H) _]. by rewrite H in Hf.
    + intros _. split; [done|]. by apply (Fail_poller _ k).
Qed.
End results.

(** ** Where the code falls short *)

(** The third poller cannot be created: a UDP socket and four descriptors stay
    open. *)
Lemma start_leaks :
  let '(s, ok) := Start (fun _ => true) (fun _ => true) (fun i => negb (i =? 2)) (AddConn (fun _ => true) (fun _ => true)) NetUDP 1 4 in
  ok = false /\ leaked s = [RUdp 0; RPoller 0; RPoller 1].
Proof. split; reflexivity. Qed.

(** The second of two UDP sockets cannot be added: the first stays bound, with a
    poller that stops. *)
Lemma added_socket_leaks :
  let '(s, ok) := Start (fun _ => true) (fun _ => true) (fun _ => true) (AddConn (fun _ => true) (fun i => negb (i =? 1))) NetUDP 2 1 in
  ok = false /\ leaked s = [RDup 0] /\ s_added s = [0].
Proof. split; [|split]; reflexivity. Qed.
