(* ===== verification/HttpStart.v ===== *)
(** * Starting and stopping the HTTP engine's listeners (src/nbhttp/engine.go)

    [startListeners], [stopListeners], and the goroutines of [listen], which
    the wait group of the engine counts.  [Listen] is an argument: its answer to
    the call of that number, the address the listener got or an error. *)

From Stdlib Require Import ZArith Lia.
From Stdlib Require Import Strings.Byte Strings.String.
From stdpp Require Import base numbers list.
From S2P Require Import Prelude GoLib NbConn TaskPool EngineConfig.

Open Scope nat_scope.

(** Who serves the connections of a listener: the A and B side of the
    multiplexer, readers that block, the pollers. *)
Inductive server_kind := KMuxA | KMuxB | KBlocking | KNonBlocking.

(** A listener is named by the number of the call that made it. *)
Record listening {F : Type} := MkListening {
  ls_tls : list (Http.ConfAddr F);
  ls_plain : list (Http.ConfAddr F);
  ls_addrsTLS : list bytes;
  ls_addrs : list bytes;
  (** the calls of [Listen] *)
  ls_calls : list (bytes * bytes);
  (** [e.listeners], the listeners of the multiplexer, the listeners closed *)
  ls_listeners : list nat;
  ls_muxed : list nat;
  ls_closed : list nat;
  (** the goroutines of [listen] *)
  ls_loops : list (nat * bool * server_kind)
}.
Arguments listening : clear implicits.

Section start.
Context {F : Type} (Listen : nat -> bytes -> bytes -> option bytes).

Definition defaultNetwork : bytes := str "tcp".

Definition network_of (e_Network : bytes) (c : Http.ConfAddr F) : bytes :=
  let network := Http.ca_Network c in
  let network := if bool_decide (network = []) then e_Network else network in
  if bool_decide (network = []) then defaultNetwork else network.

(** [switch e.IOMod]; another mode serves nothing. *)
Definition serve (mod_ : Z) (tls : bool) (l : nat) (s : listening F) : listening F :=
  let put ls mx lo :=
    MkListening F (ls_tls s) (ls_plain s) (ls_addrsTLS s) (ls_addrs s) (ls_calls s) (ls_listeners s ++ ls) (ls_muxed s ++ mx)
      (ls_closed s) (ls_loops s ++ lo) in
  if Z.eqb mod_ Http.IOModMixed then put [] [l] [(l, tls, KMuxA); (l, tls, KMuxB)]
  else if Z.eqb mod_ Http.IOModBlocking then put [l] [] [(l, tls, KBlocking)]
  else if Z.eqb mod_ Http.IOModNonBlocking then put [l] [] [(l, tls, KNonBlocking)]
  else s.

(** [conf.Addr = ln.Addr().String()], and [*conf.pAddr]. *)
Definition set_addr (tls : bool) (i : nat) (addr : bytes) (s : listening F) : listening F :=
  let upd (c : Http.ConfAddr F) := Http.MkConfAddr F (Http.ca_Network c) addr (Http.ca_NListener c) (Http.ca_TLSConfig c) (Http.ca_pAddr c) in
  let confs := if tls then ls_tls s else ls_plain s in
  let addrs := if tls then ls_addrsTLS s else ls_addrs s in
  let addrs := match confs !! i with
               | Some c => match Http.ca_pAddr c with Some k => <[k := addr]> addrs | None => addrs end
               | None => addrs
               end in
  let confs := alter upd i confs in
  if tls then MkListening F confs (ls_plain s) addrs (ls_addrs s) (ls_calls s) (ls_listeners s) (ls_muxed s) (ls_closed s) (ls_loops s)
  else MkListening F (ls_tls s) confs (ls_addrsTLS s) addrs (ls_calls s) (ls_listeners s) (ls_muxed s) (ls_closed s) (ls_loops s).

Definition call (network addr : bytes) (s : listening F) : listening F :=
  MkListening F (ls_tls s) (ls_plain s) (ls_addrsTLS s) (ls_addrs s) (ls_calls s ++ [(network, addr)]) (ls_listeners s) (ls_muxed s)
    (ls_closed s) (ls_loops s).

Definition close_all (ls : list nat) (s : listening F) : listening F :=
  MkListening F (ls_tls s) (ls_plain s) (ls_addrsTLS s) (ls_addrs s) (ls_calls s) (ls_listeners s) (ls_muxed s) (ls_closed s ++ ls)
    (ls_loops s).

(** [for j := 0; j < conf.NListener; j++] for the entry of index [i]. *)
Fixpoint listen_times (mod_ : Z) (tls : bool) (network : bytes) (i n : nat) (s : listening F) : listening F * bool :=
  match n with
  | O => (s, true)
  | S n =>
      match (if tls then ls_tls s else ls_plain s) !! i with
      | None => (s, true)
      | Some c =>
          let addr := Http.ca_Addr c in
          let l := length (ls_calls s) in
          match Listen l network addr with
          | None => (close_all (ls_listeners s) (call network addr s), false)
          | Some got => listen_times mod_ tls network i n (serve mod_ tls l (set_addr tls i got (call network addr s)))
          end
      end
  end.

(** [for i := range ...] over the entries. *)
Fixpoint listen_each (mod_ : Z) (e_Network : bytes) (tls : bool) (i : nat) (cs : list (Http.ConfAddr F)) (s : listening F) : listening F * bool :=
  match cs with
  | [] => (s, true)
  | c :: cs =>
      if bool_decide (Http.ca_Addr c = []) then listen_each mod_ e_Network tls (S i) cs s
      else
        let '(s, ok) := listen_times mod_ tls (network_of e_Network c) i (Z.to_nat (Http.ca_NListener c)) s in
        if ok then listen_each mod_ e_Network tls (S i) cs s else (s, false)
  end.

Definition startListeners (c : Http.Config F) : listening F * bool :=
  let s := MkListening F (Http.AddrConfigsTLS c) (Http.AddrConfigs c) (Http.AddrsTLS c) (Http.Addrs c) [] [] [] [] [] in
  let '(s, ok) := listen_each (Http.IOMod c) (Http.Network c) true 0 (Http.AddrConfigsTLS c) s in
  if ok then listen_each (Http.IOMod c) (Http.Network c) false 0 (Http.AddrConfigs c) s else (s, false).

Definition stopListeners (mod_ : Z) (s : listening F) : listening F :=
  close_all (ls_listeners s) (if Z.eqb mod_ Http.IOModMixed then close_all (ls_muxed s) s else s).
End start.

(** ** The goroutines *)

(** The wait group: the accept loops and the pollers it counts. *)
Record group := MkGroup {
  gr_shutdown : bool;
  gr_loops : nat;
  gr_pollers : nat
}.

(** A loop comes to its test, [for !e.shutdown], whatever its last [Accept]
    answered; a poller that was stopped ends. *)
Inductive glabel := GTest | GPoller.

Definition gexec (x : glabel) (s : group) : group :=
  match x with
  | GTest => if gr_shutdown s then MkGroup true (Nat.pred (gr_loops s)) (gr_pollers s) else s
  | GPoller => MkGroup (gr_shutdown s) (gr_loops s) (Nat.pred (gr_pollers s))
  end.

(** [g.Wait()] returns. *)
Definition wait_over (s : group) : bool := (gr_loops s =? 0) && (gr_pollers s =? 0).

(** The group when [startListeners] returned; [Stop] of the HTTP engine sets
    [e.shutdown], [e.Engine.Stop] alone does not. *)
Definition group_of {F} (shutdown : bool) (NPoller : nat) (s : listening F) : group :=
  MkGroup shutdown (length (ls_loops s)) NPoller.

Lemma gexec_open xs : forall s, gr_shutdown s = false -> gr_loops (foldl (fun s x => gexec x s) s xs) = gr_loops s.
Proof.
  induction xs as [|x xs IH]; intros s H; [done|]. cbn [foldl]. destruct x; cbn [gexec]; rewrite ?H, IH; done.
Qed.

(** ** What [startListeners] does *)

(** What a configuration asks for: one slot per listener, in the order of the
    calls.  The first listener of an entry gets the entry's address, the next ones
    the address the one before got. *)
Record slot := MkSlot { sl_tls : bool; sl_network : bytes; sl_addr : bytes; sl_first : bool }.

Definition entry_slots {F} (tls : bool) (e_Network : bytes) (c : Http.ConfAddr F) : list slot :=
  let x := MkSlot tls (network_of e_Network c) (Http.ca_Addr c) in
  match (if bool_decide (Http.ca_Addr c = []) then O else Z.to_nat (Http.ca_NListener c)) with
  | O => []
  | S n => x true :: replicate n (x false)
  end.
Definition slots {F} (c : Http.Config F) : list slot :=
  (Http.AddrConfigsTLS c ≫= entry_slots true (Http.Network c)) ++ (Http.AddrConfigs c ≫= entry_slots false (Http.Network c)).

(** The goroutines of a listener. *)
Definition goroutines (mod_ : Z) (l : nat) (x : slot) : list (nat * bool * server_kind) :=
  if Z.eqb mod_ Http.IOModMixed then [(l, sl_tls x, KMuxA); (l, sl_tls x, KMuxB)]
  else if Z.eqb mod_ Http.IOModBlocking then [(l, sl_tls x, KBlocking)]
  else [(l, sl_tls x, KNonBlocking)].

Section served.
Context {F : Type} (Listen : nat -> bytes -> bytes -> option bytes) (mod_ : Z).
Context (Hmod : mod_ ∈ [Http.IOModNonBlocking; Http.IOModBlocking; Http.IOModMixed]).

(** The answer to a call, and the call a slot stands for. *)
Definition answer (calls : list (bytes * bytes)) (k : nat) : option bytes := '(network, addr) ← calls !! k; Listen k network addr.
Definition asks (calls : list (bytes * bytes)) (k : nat) (x : slot) : bytes * bytes :=
  (sl_network x, if sl_first x then sl_addr x else default [] (answer calls (Nat.pred k))).

Definition mixed : bool := Z.eqb mod_ Http.IOModMixed.

(** The slots [sl] are served. *)
Record serving (sl : list slot) (s : listening F) : Prop := {
  sv_calls : length (ls_calls s) = length sl;
  sv_asks : forall k x, sl !! k = Some x -> ls_calls s !! k = Some (asks (ls_calls s) k x);
  sv_got : forall k, k < length sl -> is_Some (answer (ls_calls s) k);
  sv_listeners : ls_listeners s = if mixed then [] else seq 0 (length sl);
  sv_muxed : ls_muxed s = if mixed then seq 0 (length sl) else [];
  sv_loops : ls_loops s = concat (imap (goroutines mod_) sl)
}.

Lemma seq_snoc n : seq 0 (S n) = seq 0 n ++ [n].
Proof. replace (S n) with (n + 1) by lia. by rewrite seq_app. Qed.

Lemma answer_app calls y k : k < length calls -> answer (calls ++ [y]) k = answer calls k.
Proof. intros H. unfold answer. by rewrite lookup_app_l. Qed.

Lemma asks_app calls y k x : k < length calls -> asks (calls ++ [y]) k x = asks calls k x.
Proof. intros H. unfold asks. destruct (sl_first x); [done|]. rewrite answer_app; [done|lia]. Qed.

(** [serve] with what the mode does. *)
Lemma serve_spec tls l (s : listening F) net addr first :
  serve mod_ tls l s = MkListening F (ls_tls s) (ls_plain s) (ls_addrsTLS s) (ls_addrs s) (ls_calls s)
    (ls_listeners s ++ if mixed then [] else [l]) (ls_muxed s ++ if mixed then [l] else []) (ls_closed s)
    (ls_loops s ++ goroutines mod_ l (MkSlot tls net addr first)).
Proof.
  unfold serve, goroutines, mixed. assert (mod_ = Http.IOModNonBlocking \/ mod_ = Http.IOModBlocking \/ mod_ = Http.IOModMixed) as Hc.
  { revert Hmod. rewrite !elem_of_cons, elem_of_nil. tauto. }
  destruct Hc as [-> | [-> | ->]]; reflexivity.
Qed.

(** One more slot. *)
Lemma serve_serving tls i got sl x s :
  serving sl s -> sl_tls x = tls -> sl_first x = true \/ 0 < length sl ->
  forall addr, asks (ls_calls s) (length sl) x = (sl_network x, addr) -> Listen (length sl) (sl_network x) addr = Some got ->
  serving (sl ++ [x]) (serve mod_ tls (length sl) (set_addr tls i got (call (sl_network x) addr s))).
Proof.
  intros [H1 H2 H3 H4 H5 H6] Htls Hpos addr Ha Hg.
  assert (forall t : listening F, t = set_addr tls i got (call (sl_network x) addr s) ->
    ls_calls t = ls_calls s ++ [(sl_network x, addr)] /\ ls_listeners t = ls_listeners s /\ ls_muxed t = ls_muxed s /\ ls_loops t = ls_loops s) as Ht.
  { intros t ->. unfold set_addr. by destruct tls. }
  destruct (Ht _ eq_refl) as (T1 & T2 & T3 & T4). destruct x as [xt xn xa xf]. cbn [sl_tls sl_network sl_addr sl_first] in *. subst xt.
  rewrite (serve_spec tls _ _ xn xa xf). split; cbn [ls_calls ls_listeners ls_muxed ls_loops]; rewrite ?T1, ?T2, ?T3, ?T4, ?length_app; cbn [length].
  - lia.
  - intros k y [Hk|[Hk1 Hk2]]%lookup_app_Some.
    + pose proof (lookup_lt_Some _ _ _ Hk) as Hlt. rewrite asks_app by lia. apply lookup_app_l_Some. by apply H2.
    + apply list_lookup_singleton_Some in Hk2 as [Hk2 <-]. assert (k = length sl) as -> by lia.
      rewrite lookup_app_r by lia. rewrite H1, Nat.sub_diag. cbn [lookup list_lookup]. f_equal. symmetry. rewrite <- Ha.
      unfold asks. cbn [sl_first sl_network]. destruct xf; [done|]. rewrite answer_app; [done|]. destruct Hpos; [done|lia].
  - intros k Hk. destruct (decide (k = length sl)) as [->|Hn]; [|rewrite answer_app by lia; apply H3; lia].
    unfold answer. rewrite lookup_app_r by lia. rewrite H1, Nat.sub_diag. cbn. by eexists.
  - rewrite H4. destruct mixed; [done|]. replace (length sl + 1) with (S (length sl)) by lia. by rewrite seq_snoc.
  - rewrite H5. destruct mixed; [|done]. replace (length sl + 1) with (S (length sl)) by lia. by rewrite seq_snoc.
  - rewrite H6, imap_app, concat_app. cbn. by rewrite Nat.add_0_r, app_nil_r.
Qed.

Definition confs (tls : bool) (s : listening F) : list (Http.ConfAddr F) := if tls then ls_tls s else ls_plain s.

Lemma served_same tls i got network addr l (s : listening F) :
  let s' := serve mod_ tls l (set_addr tls i got (call network addr s)) in
  ls_calls s' = ls_calls s ++ [(network, addr)] /\ ls_closed s' = ls_closed s /\ confs (negb tls) s' = confs (negb tls) s /\
  (forall j, j <> i -> confs tls s' !! j = confs tls s !! j) /\
  (forall c, confs tls s !! i = Some c -> exists c', confs tls s' !! i = Some c' /\ Http.ca_Addr c' = got).
Proof.
  intros s'. unfold s'. rewrite (serve_spec tls l _ [] [] true). unfold set_addr, confs.
  destruct tls; cbn [ls_calls ls_closed ls_tls ls_plain call negb]; split_and!; try done;
    try (intros j Hj; by rewrite list_lookup_alter_ne); intros c Hc; rewrite list_lookup_alter_eq, Hc; by eexists.
Qed.

(** What a loop over the slots [more] comes to: all are served, or those before
    one whose call of [Listen] failed, after which [e.listeners] were closed. *)
Definition stopped_at (sl : list slot) (x : slot) (s : listening F) : Prop :=
  exists s0, serving sl s0 /\ ls_closed s0 = [] /\ (sl_first x = true \/ 0 < length sl) /\
    let '(network, addr) := asks (ls_calls s0) (length sl) x in
    Listen (length sl) network addr = None /\ s = close_all (ls_listeners s0) (call network addr s0).

Definition got (sl more : list slot) (r : listening F * bool) : Prop :=
  if r.2 then serving (sl ++ more) r.1 /\ ls_closed r.1 = []
  else exists made x rest, more = made ++ x :: rest /\ stopped_at (sl ++ made) x r.1.

Lemma got_cons sl x more r : got (sl ++ [x]) more r -> got sl (x :: more) r.
Proof.
  unfold got. replace (sl ++ x :: more) with ((sl ++ [x]) ++ more) by (by rewrite <- app_assoc). destruct (r.2); [done|].
  intros (made & y & rest & -> & H). exists (x :: made), y, rest. split; [done|].
  by replace (sl ++ x :: made) with ((sl ++ [x]) ++ made) by (by rewrite <- app_assoc).
Qed.

Lemma listen_times_got (tls : bool) network a0 i n : forall s c sl first,
  serving sl s -> ls_closed s = [] -> confs tls s !! i = Some c ->
  (if first : bool then Http.ca_Addr c = a0 else 0 < length sl /\ answer (ls_calls s) (Nat.pred (length sl)) = Some (Http.ca_Addr c)) ->
  let r := listen_times Listen mod_ tls network i n s in
  let x := MkSlot tls network a0 in
  got sl (match n with O => [] | S n => x first :: replicate n (x false) end) r /\
  (r.2 = true -> confs (negb tls) r.1 = confs (negb tls) s /\ forall j, j <> i -> confs tls r.1 !! j = confs tls s !! j).
Proof.
  induction n as [|n IH]; intros s c sl first Hs Hc Hi Hf r x; unfold r; cbn [listen_times]; fold (confs tls s).
  { unfold got. cbn. by rewrite app_nil_r. }
  rewrite Hi. rewrite (sv_calls _ _ Hs).
  assert (asks (ls_calls s) (length sl) (x first) = (network, Http.ca_Addr c)) as Ha.
  { unfold asks. cbn. destruct first; [by rewrite Hf|]. by destruct Hf as [_ ->]. }
  assert (sl_first (x first) = true \/ 0 < length sl) as Hpos by (destruct first; [by left|by right; destruct Hf]).
  destruct (Listen (length sl) network (Http.ca_Addr c)) as [a|] eqn:El.
  - pose proof (serve_serving tls i a sl (x first) s Hs eq_refl Hpos (Http.ca_Addr c) Ha El) as Hs'.
    destruct (served_same tls i a network (Http.ca_Addr c) (length sl) s) as (G1 & G2 & G3 & G4 & G5).
    destruct (G5 c Hi) as (c' & Hi' & Hc'). cbn [sl_network x] in Hs'.
    set (s' := serve _ _ _ _) in *.
    destruct (IH s' c' (sl ++ [x first]) false Hs') as [IH1 IH2]; [by rewrite G2|done| |].
    + rewrite length_app. cbn [length]. split; [lia|]. rewrite Nat.add_1_r. cbn [Nat.pred]. unfold answer. rewrite G1, <- (sv_calls _ _ Hs).
      rewrite lookup_app_r, Nat.sub_diag by lia. cbn [lookup list_lookup mbind option_bind]. by rewrite (sv_calls _ _ Hs), El, Hc'.
    + split; [apply got_cons; by destruct n|]. intros Hr. destruct (IH2 Hr) as [K1 K2]. rewrite K1. split; [done|].
      intros j Hj. by rewrite K2, G4.
  - split; [|done]. unfold got. cbn [fst snd]. exists [], (x first), (replicate n (x false)). split; [done|]. exists s. rewrite app_nil_r, Ha. done.
Qed.

Lemma got_app sl more more' s (r : listening F * bool) :
  got sl more (s, true) -> (serving (sl ++ more) s -> ls_closed s = [] -> got (sl ++ more) more' r) -> got sl (more ++ more') r.
Proof.
  intros [H1 H2] H. specialize (H H1 H2). unfold got in *. destruct (r.2); [by rewrite app_assoc|].
  destruct H as (made & y & rest & -> & H). exists (more ++ made), y, rest. rewrite <- app_assoc, app_assoc in *. split; [done|].
  by rewrite app_assoc.
Qed.

Lemma listen_each_got (tls : bool) network cs : forall i s sl,
  serving sl s -> ls_closed s = [] -> (forall j c, cs !! j = Some c -> confs tls s !! (i + j) = Some c) ->
  let r := listen_each Listen mod_ network tls i cs s in
  got sl (cs ≫= entry_slots tls network) r /\ (r.2 = true -> confs (negb tls) r.1 = confs (negb tls) s).
Proof.
  induction cs as [|c cs IH]; intros i s sl Hs Hc Hi r; unfold r; cbn [listen_each].
  { unfold got. cbn. by rewrite app_nil_r. }
  cbn [mbind list_bind]. fold (mbind (entry_slots tls network) cs).
  assert (forall j c, cs !! j = Some c -> confs tls s !! (S i + j) = Some c) as Hi' by (intros j c' H; rewrite Nat.add_succ_comm; by apply Hi).
  unfold entry_slots at 1. case_bool_decide as Ha; [by apply IH|].
  pose proof (Hi 0 c eq_refl) as H0. rewrite Nat.add_0_r in H0.
  destruct (listen_times_got tls (network_of network c) (Http.ca_Addr c) i (Z.to_nat (Http.ca_NListener c)) s c sl true Hs Hc H0 eq_refl) as [Hg Hk].
  destruct (listen_times _ _ _ _ _ _ s) as [s1 [|]]; cbn [fst snd] in *.
  - destruct (Hk eq_refl) as [K1 K2]. destruct Hg as [Hg1 Hg2]. cbn [fst] in *.
    destruct (IH (S i) s1 _ Hg1 Hg2) as [IH1 IH2].
    { intros j c' H. rewrite K2 by lia. by apply Hi'. }
    split; [by apply (got_app _ _ _ s1)|]. intros Hr. rewrite (IH2 Hr). exact K1.
  - split; [|done]. destruct Hg as (made & x & rest & E & H). exists made, x, (rest ++ (cs ≫= entry_slots tls network)).
    split; [|done]. rewrite E. by rewrite <- app_assoc.
Qed.
End served.

(** C20: in each of the three modes, [startListeners] succeeds exactly when every
    call of [Listen] does.  Then there is one call per slot, TLS entries first, in
    the order of the configuration: the first call of an entry with its network
    and address, the next ones with the address the one before was given; every
    listener is served by the goroutines of its mode (blocking and polling behind
    the multiplexer, one of the two otherwise), with TLS or without as its entry
    says; none is closed, and [stopListeners] closes every listener once.
    Otherwise, after the calls of some slots had succeeded and their listeners
    been served in the same way, the call of the next slot failed, no later call
    was made, and the listeners are closed, except behind the multiplexer, where
    they stay open. *)
Theorem listeners_served {F : Type} (Listen : nat -> bytes -> bytes -> option bytes) (c : Http.Config F) :
  Http.IOMod c ∈ [Http.IOModNonBlocking; Http.IOModBlocking; Http.IOModMixed] ->
  let '(s, ok) := startListeners Listen c in
  let behind_mux := Z.eqb (Http.IOMod c) Http.IOModMixed in
  (ok = true ->
     length (ls_calls s) = length (slots c) /\
     (forall k x, slots c !! k = Some x -> ls_calls s !! k = Some (asks Listen (ls_calls s) k x) /\ is_Some (answer Listen (ls_calls s) k)) /\
     ls_loops s = concat (imap (goroutines (Http.IOMod c)) (slots c)) /\
     ls_closed s = [] /\ ls_closed (stopListeners (Http.IOMod c) s) = seq 0 (length (slots c))) /\
  (ok = false -> exists made x rest,
     slots c = made ++ x :: rest /\ length (ls_calls s) = S (length made) /\
     (forall k y, (made ++ [x]) !! k = Some y -> ls_calls s !! k = Some (asks Listen (ls_calls s) k y)) /\
     (forall k, k < length made -> is_Some (answer Listen (ls_calls s) k)) /\ answer Listen (ls_calls s) (length made) = None /\
     ls_loops s = concat (imap (goroutines (Http.IOMod c)) made) /\
     ls_closed s = (if behind_mux then [] else seq 0 (length made))).
Proof.
  intros Hm. set (s0 := MkListening F (Http.AddrConfigsTLS c) (Http.AddrConfigs c) (Http.AddrsTLS c) (Http.Addrs c) [] [] [] [] []).
  assert (got Listen (Http.IOMod c) [] (slots c) (startListeners Listen c)) as Hg.
  { assert (serving Listen (Http.IOMod c) [] s0) as H0.
    { split; cbn; try done; try (intros k H; lia); try (by destruct mixed); intros k x H; by rewrite lookup_nil in H. }
    destruct (listen_each_got Listen (Http.IOMod c) Hm true (Http.Network c) (Http.AddrConfigsTLS c) 0 s0 [] H0 eq_refl) as [H1 H2]; [done|].
    unfold startListeners, slots. fold s0. destruct (listen_each _ _ _ true _ _ s0) as [s1 [|]]; cbn [fst snd] in *.
    - apply (got_app _ _ _ _ _ s1); [done|]. intros H3 H4. apply listen_each_got; [done..|]. intros j c' H. cbn [Nat.add].
      specialize (H2 eq_refl). cbn in H2. cbn. by rewrite H2.
    - destruct H1 as (made & x & rest & -> & H). exists made, x, (rest ++ (Http.AddrConfigs c ≫= entry_slots false (Http.Network c))).
      split; [|done]. by rewrite <- app_assoc. }
  destruct (startListeners Listen c) as [s ok]. unfold got in Hg. cbn [fst snd app] in Hg. split; intros ->.
  - destruct Hg as [[H1 H2 H3 H4 H5 H6] Hc]. unfold mixed in *. split_and!; try done.
    + intros k x Hk. split; [by apply H2|]. apply H3. by eapply lookup_lt_Some.
    + unfold stopListeners, close_all. destruct (Z.eqb _ _); cbn [ls_closed ls_listeners ls_muxed]; rewrite Hc, H4; cbn [app]; [|done].
      by rewrite H5, app_nil_r.
  - destruct Hg as (made & x & rest & E & s1 & [H1 H2 H3 H4 H5 H6] & Hc & Hpos & Hf). exists made, x, rest.
    destruct (asks Listen (ls_calls s1) (length made) x) as [network addr] eqn:Ea. destruct Hf as [Hf ->].
    unfold close_all, call. cbn [ls_calls ls_loops ls_closed ls_listeners]. rewrite length_app, H1, Hc, H4. cbn [length]. split_and!; try done; [lia| | |].
    + intros k y [Hk|[Hk1 Hk2]]%lookup_app_Some.
      * pose proof (lookup_lt_Some _ _ _ Hk). rewrite asks_app by lia. apply lookup_app_l_Some. by apply H2.
      * apply list_lookup_singleton_Some in Hk2 as [Hk2 <-]. assert (k = length made) as -> by lia.
        rewrite lookup_app_r, H1, Nat.sub_diag by lia. cbn [lookup list_lookup]. f_equal. rewrite <- Ea. unfold asks.
        destruct (sl_first x); [done|]. rewrite answer_app; [done|]. destruct Hpos; [done|lia].
    + intros k Hk. rewrite answer_app by lia. by apply H3.
    + unfold answer. rewrite lookup_app_r, H1, Nat.sub_diag by lia. cbn. by rewrite Hf.
Qed.

(** Two addresses in mixed mode with two and one listeners. *)
Definition two_addresses (mod_ : Z) : Http.Config nat :=
  Http.MkConfig nat [] [] [] [] [Http.MkConfAddr nat [] (str ":80") 2 None None; Http.MkConfAddr nat [] (str ":81") 1 None None] [] None None
    0 0 0 0 0 0 0 0 0 false false 0 None None None None None None None None None false mod_ 0 0 0 0 false None
    0 0 false false false None None None None.

Lemma two_addresses_run :
  let '(s, ok) := startListeners (fun _ _ a => Some a) (two_addresses Http.IOModMixed) in
  ok = true /\ length (ls_calls s) = 3 /\ map snd (ls_loops s) = [KMuxA; KMuxB; KMuxA; KMuxB; KMuxA; KMuxB].
Proof. vm_compute. done. Qed.

Lemma two_addresses_mode : Http.IOMod (two_addresses Http.IOModMixed) ∈ [Http.IOModNonBlocking; Http.IOModBlocking; Http.IOModMixed].
Proof. by repeat constructor. Qed.

Lemma listeners_served_witness :
  let '(s, ok) := startListeners (fun _ _ a => Some a) (two_addresses Http.IOModMixed) in
  ok = true /\ length (ls_calls s) = 3 /\ ls_closed (stopListeners (Http.IOMod (two_addresses Http.IOModMixed)) s) = [0; 1; 2].
Proof.
  pose proof (listeners_served (fun _ _ a => Some a) (two_addresses Http.IOModMixed) two_addresses_mode) as H.
  pose proof two_addresses_run as R. destruct (startListeners _ _) as [s ok]. destruct R as (-> & Hn & _).
  destruct H as [H _]. destruct (H eq_refl) as (Hc & _ & _ & _ & Hs). split; [reflexivity|]. split; [exact Hn|exact Hs].
Defined.

(** ** Where the code falls short *)

(** When a later [Listen] fails, [Start] stops the engine of the pollers and
    waits for the goroutines of the listeners made before; [e.shutdown] is not
    set, so they go on and [Start] does not return. *)
Lemma start_error_hangs {F : Type} (s : listening F) NPoller xs :
  ls_loops s <> [] -> wait_over (foldl (fun g x => gexec x g) (group_of false NPoller s) xs) = false.
Proof.
  intros H. unfold wait_over. rewrite gexec_open by done. cbn. destruct (ls_loops s); [done|]. done.
Qed.

(** Such a failure, in two modes: a goroutine is left in each, and behind the
    multiplexer the listener is not closed. *)
Lemma start_error_leaves :
  let fails mod_ := startListeners (fun l _ a => if l =? 2 then None else Some a) (two_addresses mod_) in
  (fails Http.IOModNonBlocking).2 = false /\ length (ls_loops (fails Http.IOModNonBlocking).1) = 2 /\
  ls_closed (fails Http.IOModNonBlocking).1 = [0; 1] /\
  (fails Http.IOModMixed).2 = false /\ ls_closed (fails Http.IOModMixed).1 = [].
Proof. repeat split. Qed.
