(* ===== verification/WsUpgrade.v ===== *)
(** * Upgrading a connection (src/nbhttp/websocket/upgrader.go, conn.go)

    [Upgrade] once the request passed its checks: how each kind of connection is
    handed over to the new WebSocket connection, so that the bytes that follow
    reach it; [HandleRead], its own read loop.  What the connection is, what the
    pollers answer and whether the answer can be written are arguments. *)

From Stdlib Require Import ZArith Lia.
From Stdlib Require Import Strings.Byte Strings.String.
From stdpp Require Import base numbers list gmap.
From S2P Require Import Prelude GoLib GoCrypto Table Parser ParserFacts ParserSplit ParserProps Handshake.

Open Scope Z_scope.

(** ** The connection *)

(** What the poller's connection has as session: nothing, the HTTP parser, the
    new WebSocket connection, something else. *)
Inductive sess := SNone | SHttpParser | SWs | SOther.

(** [underLayerConn]: a poller's connection, TLS over one, TLS over a connection
    of the standard library, a TCP connection, another one. *)
Inductive conn_kind := KNbio | KTLSNbio | KTLSStd | KTCP | KUnknown.

#[export] Instance sess_eq_dec : EqDecision sess.
Proof. solve_decision. Defined.
#[export] Instance conn_kind_eq_dec : EqDecision conn_kind.
Proof. solve_decision. Defined.

Inductive up_err := UpCheck (e : hs_err) | UpNotHijacker | UpHijack (n : Z) | UpNBConn (n : Z) | UpAdd (n : Z) | UpWrite (n : Z).

(** The settings of the upgrader that are read here. *)
Record up_conf := MkUpConf {
  BlockingModTrasferConnToPoller : bool;
  BlockingModAsyncWrite : bool;
  BlockingModHandleRead : bool;
  up_KeepaliveTime : Z;
  up_ReleasePayload : bool;
  (** of [u.Engine]: both epoll flags of the one-shot mode *)
  up_oneshot : bool;
  (** [ReleaseWebsocketPayload] of [u.Engine] and of the parser's engine *)
  up_engineRelease : bool;
  up_parserRelease : bool
}.

(** What is met: the connection's kind, whether it is an [*nbhttp.Conn] (read by
    the engine's parser) with a parser, whether the writer is a [*Response],
    the optional arguments when they are booleans, and the answers of [Hijack],
    [NBConn], [AddTransferredConn] and [Write]. *)
Record up_env := MkUpEnv {
  ue_kind : conn_kind;
  ue_httpConn : bool;
  ue_httpParser : bool;
  ue_response : bool;
  ue_session : sess;
  ue_hijacker : bool;
  ue_hijack : option Z;
  ue_args : list (option bool);
  ue_NBConn : option Z;
  ue_add : option Z;
  ue_write : option Z
}.

Inductive over := OverConn | OverTLS | OverNbc.
Inductive engine_of := EngUpgrader | EngParser.
Inductive exec_of := ExNil | ExParser | ExNbc | ExSync.

(** The new connection. *)
Record wsc := MkWsc {
  w_over : over;
  w_asyncWrite : bool;
  w_Engine : engine_of;
  w_Execute : exec_of;
  w_isBlockingMod : bool;
  w_isReadingByParser : bool;
  w_releasePayload : bool
}.

(** What [Upgrade] leaves: the session of the poller's connection, the data
    handler it was given, whether it was added to a poller, [Trasfered], whether
    the [*nbhttp.Conn] still has its parser, whether [parser.ParserCloser] is
    the new connection, whether [HandleRead] was started, whether the connection
    was closed, and which connection got the read deadline, if one did. *)
Inductive on_data := HandlerEngine | HandlerWs | HandlerWsTLS.

Record up_state := MkUpState {
  us_session : sess;
  us_onData : on_data;
  us_added : bool;
  us_transferred : bool;
  us_httpParser : bool;
  us_parserCloser : bool;
  us_handleRead : bool;
  us_closed : bool;
  us_deadline : option over
}.

Definition set_ws (h : on_data) (s : up_state) : up_state :=
  MkUpState SWs h (us_added s) (us_transferred s) (us_httpParser s) (us_parserCloser s) (us_handleRead s) (us_closed s) (us_deadline s).
Definition set_transferred (v : bool) (s : up_state) : up_state :=
  MkUpState (us_session s) (us_onData s) (us_added s) (us_transferred s || v) (us_httpParser s) (us_parserCloser s) (us_handleRead s)
    (us_closed s) (us_deadline s).
Definition drop_http_parser (v : bool) (s : up_state) : up_state :=
  MkUpState (us_session s) (us_onData s) (us_added s) (us_transferred s) (us_httpParser s && negb v) (us_parserCloser s)
    (us_handleRead s) (us_closed s) (us_deadline s).
Definition set_closer (s : up_state) : up_state :=
  MkUpState (us_session s) (us_onData s) (us_added s) (us_transferred s) (us_httpParser s) true (us_handleRead s) (us_closed s) (us_deadline s).
Definition set_added (v : bool) (s : up_state) : up_state :=
  MkUpState (us_session s) (us_onData s) v (us_transferred s) (us_httpParser s) (us_parserCloser s) (us_handleRead s)
    (us_closed s || negb v) (us_deadline s).
Definition set_closed (s : up_state) : up_state :=
  MkUpState (us_session s) (us_onData s) (us_added s) (us_transferred s) (us_httpParser s) (us_parserCloser s) (us_handleRead s) true (us_deadline s).
Definition set_deadline (d : option over) (s : up_state) : up_state :=
  MkUpState (us_session s) (us_onData s) (us_added s) (us_transferred s) (us_httpParser s) (us_parserCloser s) (us_handleRead s) (us_closed s) d.
Definition set_handleRead (s : up_state) : up_state :=
  MkUpState (us_session s) (us_onData s) (us_added s) (us_transferred s) (us_httpParser s) (us_parserCloser s) true (us_closed s) (us_deadline s).

(** [clearNBCWSSession] *)
Definition clearNBCWSSession (s : up_state) : up_state :=
  match us_session s with
  | SWs => MkUpState SNone (us_onData s) (us_added s) (us_transferred s) (us_httpParser s) (us_parserCloser s) (us_handleRead s)
             (us_closed s) (us_deadline s)
  | _ => s
  end.

Definition start_state (e : up_env) : up_state :=
  MkUpState (match ue_kind e with KNbio | KTLSNbio => ue_session e | _ => SNone end) HandlerEngine
    (match ue_kind e with KNbio | KTLSNbio => true | _ => false end) false (ue_httpConn e && ue_httpParser e) false false false None.

Section upgrade.
Context (u : up_conf) (e : up_env).

(** [transferConn], after the optional argument. *)
Definition transferConn : bool :=
  match ue_args e with
  | [] => BlockingModTrasferConnToPoller u
  | a :: _ => default false a
  end.

(** [parser] behind [getParser]. *)
Definition has_parser : bool := ue_response e || (ue_httpConn e && ue_httpParser e).

(** The scenarios that keep the connection where it is, outside the pollers. *)
Definition stay_blocking (s : up_state) : wsc * up_state :=
  (MkWsc OverConn (BlockingModAsyncWrite u) EngUpgrader (if has_parser then ExParser else ExNil) true false false,
   if has_parser then drop_http_parser (ue_httpConn e) (set_closer s) else s).

(** The scenarios of a connection a poller has. *)
Definition on_poller (s : up_state) : option up_err * option wsc * up_state :=
  match us_session s with
  | SHttpParser =>
      (None, Some (MkWsc OverConn false EngParser ExParser false false false),
       drop_http_parser (ue_httpConn e) (set_ws HandlerEngine s))
  | _ => (None, None, s)
  end.

(** The scenarios that move the connection to a poller. *)
Definition transfer (o : over) (h : on_data) (s : up_state) : option up_err * option wsc * up_state :=
  match ue_NBConn e with
  | Some n => (Some (UpNBConn n), None, s)
  | None =>
      let s := set_transferred (ue_httpConn e) s in
      let w := MkWsc o false EngUpgrader (if up_oneshot u then ExSync else ExNbc) false false false in
      let s := set_ws h (drop_http_parser (ue_httpConn e) s) in
      match ue_add e with
      | Some n => (Some (UpAdd n), None, clearNBCWSSession (set_added false s))
      | None => (None, Some w, set_added true s)
      end
  end.

(** [switch vt := underLayerConn.(type)] *)
Definition switch_conn (s : up_state) : option up_err * option wsc * up_state :=
  match ue_kind e with
  | KNbio => on_poller s
  | KTLSNbio => on_poller s
  | KTLSStd => if transferConn then transfer OverTLS HandlerWsTLS s else let '(w, s) := stay_blocking s in (None, Some w, s)
  | KTCP => if transferConn then transfer OverNbc HandlerWs s else let '(w, s) := stay_blocking s in (None, Some w, s)
  | KUnknown => let '(w, s) := stay_blocking s in (None, Some w, s)
  end.

Definition handleRead : bool :=
  match ue_args e with
  | _ :: a :: _ => default false a
  | _ => BlockingModHandleRead u
  end.

(** Behind the switch: the answer, the deadline, the reader. *)
Definition finish (w : wsc) (s : up_state) : option wsc * option up_err * up_state :=
  match ue_write e with
  | Some n => (None, Some (UpWrite n), clearNBCWSSession (set_closed s))
  | None =>
      let s := set_deadline (if 0 <? up_KeepaliveTime u then Some (if bool_decide (ue_kind e = KTLSStd) && transferConn then OverTLS else OverConn) else None) s in
      let w := MkWsc (w_over w) (w_asyncWrite w) (w_Engine w) (w_Execute w) (w_isBlockingMod w) (ue_httpConn e) false in
      let s := if w_isBlockingMod w && negb (w_isReadingByParser w) && handleRead then set_handleRead s else s in
      let release := up_ReleasePayload u ||
        match w_Engine w with EngUpgrader => up_engineRelease u | EngParser => up_parserRelease u end in
      (Some (MkWsc (w_over w) (w_asyncWrite w) (w_Engine w) (w_Execute w) (w_isBlockingMod w) (w_isReadingByParser w) release), None, s)
  end.

(** [Upgrade], with the result of [commCheck]. *)
Definition Upgrade (check : (Z * hs_err) + (bytes * bytes * bool)) : option wsc * option up_err * up_state :=
  let s := start_state e in
  match check with
  | inl (_, err) => (None, Some (UpCheck err), s)
  | inr _ =>
      if negb (ue_hijacker e) then (None, Some UpNotHijacker, s)
      else
        match ue_hijack e with
        | Some n => (None, Some (UpHijack n), s)
        | None =>
            match switch_conn s with
            | (None, Some w, s) => finish w s
            | (err, _, s) => (None, err, s)
            end
        end
  end.
End upgrade.

(** ** [HandleRead] *)

Section handle_read.
Context {C : Type} `{!ParserCloser C} (CloseAndClean : C -> option http_err -> C).

(** What the loop reads: data, or an error. *)
Inductive ws_read := WsData (d : bytes) | WsErr (e : http_err).

Fixpoint read_all (rs : list ws_read) (c : C) : option (C * http_err) + C :=
  match rs with
  | [] => inr c
  | WsErr e :: _ => inl (Some (CloseAndClean c (Some e), e))
  | WsData d :: rs =>
      match CloserParse c d with
      | (c, Some e) => inl (Some (CloseAndClean c (Some e), e))
      | (c, None) => read_all rs c
      end
  end.

(** [inl None]: another goroutine reads, nothing is done; [inr c]: the loop waits
    for data. *)
Definition HandleRead (isReadingByParser isInReadingLoop : bool) (rs : list ws_read) (c : C) : option (C * http_err) + C :=
  if isReadingByParser then inl None
  else if isInReadingLoop then inl None
  else read_all rs c.
End handle_read.

(** The loop has the effect of one call of [Parse] on all bytes read. *)
Lemma read_all_pieces {C : Type} `{!ParserCloser C} `{!ParserCloserLaws C} (close : C -> option http_err -> C) ds : forall c,
  ds <> [] -> Forall (fun d => d <> []) ds -> closer_ok c (len (concat ds)) ->
  match CloserParse c (concat ds) with
  | (c', None) => HandleRead close false false (map WsData ds) c = inr c'
  | (_, Some e) => exists c', HandleRead close false false (map WsData ds) c = inl (Some (c', e))
  end.
Proof.
  unfold HandleRead. induction ds as [|d ds IH]; intros c Hne Hd Hok; [done|]. apply Forall_cons in Hd as [Hd1 Hd2].
  cbn [concat map read_all] in *. destruct (decide (ds = [])) as [->|Hds].
  { cbn. rewrite app_nil_r. destruct (CloserParse c d) as [c' [e|]]; [by eexists|done]. }
  assert (concat ds <> []) as Hc.
  { destruct ds as [|x ds]; [done|]. apply Forall_cons in Hd2 as [Hx _]. cbn. intros [-> _]%app_nil. done. }
  rewrite len_app in Hok. pose proof (closer_app c d (concat ds) Hd1 Hc Hok) as Ha.
  destruct (CloserParse c d) as [c1 [e|]] eqn:E.
  - destruct (CloserParse c (d ++ concat ds)) as [c' e']. cbn in Ha. subst e'. by eexists.
  - rewrite Ha. apply IH; try done. apply (closer_keep c c1 d); try done. apply len_nonneg.
Qed.

(** ** Who reads *)

(** The poller hands data to the session or the handler set for it, the loop of
    the blocking engine hands it to [ParserCloser], or [HandleRead] reads. *)
Inductive reader := ByPoller | ByParser | ByLoop.

Definition readers (e : up_env) (s : up_state) : list reader :=
  (if us_added s && bool_decide (us_session s = SWs) then [ByPoller] else []) ++
  (if us_parserCloser s && ue_httpConn e && negb (us_transferred s) then [ByParser] else []) ++
  (if us_handleRead s then [ByLoop] else []).

(** A connection of the HTTP engine has a parser, and a [*Response] belongs to
    one. *)
Definition env_ok (e : up_env) : Prop :=
  (ue_httpConn e = true -> ue_httpParser e = true \/ ue_response e = true) /\ (ue_response e = true -> ue_httpConn e = true).

(** Whether the poller has the connection when [Upgrade] is done with it. *)
Definition polled (u : up_conf) (e : up_env) : bool :=
  match ue_kind e with KNbio | KTLSNbio => true | KTLSStd | KTCP => transferConn u e | KUnknown => false end.

(** A failed write leaves the new connection as the parser's [ParserCloser] where
    the connection stays with the blocking engine. *)
Definition closer_left (u : up_conf) (e : up_env) (err : option up_err) : bool :=
  match err with Some (UpWrite _) => negb (polled u e) && ue_httpConn e | _ => false end.

Lemma read_by_parser e s : ByParser ∈ readers e s <-> us_parserCloser s && ue_httpConn e && negb (us_transferred s) = true.
Proof.
  unfold readers. rewrite !elem_of_app. split.
  - intros [H|[H|H]]; case_match; try done; by apply elem_of_nil in H || apply list_elem_of_singleton in H.
  - intros ->. right. left. by constructor.
Qed.

(** Before anything was changed. *)
Lemma start_refused (u : up_conf) (e : up_env) (err : up_err) :
  (forall n, err <> UpWrite n) ->
  us_handleRead (start_state e) = false /\
  (us_session (start_state e) = SWs -> ue_session e = SWs) /\
  (ByParser ∈ readers e (start_state e) <-> closer_left u e (Some err) = true) /\
  (closer_left u e (Some err) = true -> us_closed (start_state e) = true) /\
  (Some err = None -> (ue_kind e = KNbio \/ ue_kind e = KTLSNbio) /\ ue_session e <> SHttpParser).
Proof.
  intros Hn. assert (closer_left u e (Some err) = false) as -> by (destruct err; try done; by destruct (Hn n)).
  rewrite read_by_parser. unfold start_state. cbn. by destruct (ue_kind e), (ue_session e).
Qed.

#[local] Arguments readers : simpl never.

(** C25: an upgraded connection has exactly one reader: the poller when it has or
    gets the connection, the loop of the blocking engine when that has it, and
    otherwise [HandleRead] or, when that is switched off, the caller; the old
    loop is told to leave exactly when the connection moved, only the blocking
    modes write asynchronously, and the connection is open.  When [Upgrade] fails,
    no poller session and no [HandleRead] is left that would feed the abandoned
    connection; the parser of the blocking engine is left handing bytes to it
    exactly when the answer could not be written and the connection stays with
    that engine ([failed_write_keeps_closer]), and then the connection is closed;
    an error is returned unless a poller's connection has a foreign session. *)
Theorem upgrade_one_reader (u : up_conf) (e : up_env) (check : (Z * hs_err) + (bytes * bytes * bool)) :
  env_ok e ->
  let '(r, err, s) := Upgrade u e check in
  match r with
  | Some w =>
      err = None /\ us_closed s = false /\ w_isBlockingMod w = negb (polled u e) /\ w_isReadingByParser w = ue_httpConn e /\
      readers e s = (if polled u e then [ByPoller]
                     else if ue_httpConn e then [ByParser]
                     else if handleRead u e then [ByLoop] else []) /\
      (us_transferred s = true <-> us_session s = SWs /\ us_onData s <> HandlerEngine /\ ue_httpConn e = true) /\
      (w_asyncWrite w = true -> polled u e = false) /\ us_httpParser s = false
  | None =>
      us_handleRead s = false /\ (us_session s = SWs -> ue_session e = SWs) /\
      (ByParser ∈ readers e s <-> closer_left u e err = true) /\ (closer_left u e err = true -> us_closed s = true) /\
      (err = None -> (ue_kind e = KNbio \/ ue_kind e = KTLSNbio) /\ ue_session e <> SHttpParser)
  end.
Proof.
  intros [H1 H2]. unfold Upgrade. destruct check as [[z err]|ck]; [by apply start_refused|].
  destruct (ue_hijacker e); cbn [negb]; [|by apply start_refused]. destruct (ue_hijack e); [by apply start_refused|].
  unfold switch_conn, on_poller, transfer, stay_blocking, finish, has_parser, closer_left, polled, start_state.
  generalize (transferConn u e) as t. generalize (handleRead u e) as hr. intros hr t. destruct e as [k hc hp rs se hj hjk args nb ad wr]. cbn in *.
  assert (rs = true -> hc = true) as H3 by done.
  assert (hc = true -> rs || hc && hp = true) as H4 by (intros ->; destruct (H1 eq_refl) as [->| ->]; by rewrite ?orb_true_r).
  destruct k; cbn; [destruct se|destruct se|destruct t|destruct t|]; cbn; try destruct nb; cbn; try destruct ad; cbn; try destruct wr; cbn;
    (destruct hc; [rewrite ?H4 by done|destruct rs; [by specialize (H3 eq_refl)|]]); cbn;
    rewrite ?read_by_parser; unfold readers; cbn; rewrite ?andb_false_r; try destruct hr; cbn; clear; split_and!; try done;
    split; intros; destruct_and?; split_and?; try done; congruence || by auto.
Qed.

(** ** Witness, and where the code falls short *)

(** A TCP connection of the blocking engine that is moved to a poller. *)
Definition moved_conf : up_conf := MkUpConf true false true 120 false false false true.
Definition moved_env (added : option Z) : up_env := MkUpEnv KTCP true true true SNone true None [] None added None.

Lemma upgrade_one_reader_witness :
  let '(r, err, s) := Upgrade moved_conf (moved_env None) (inr (str "k", [], false)) in
  is_Some r /\ readers (moved_env None) s = [ByPoller] /\ us_transferred s = true.
Proof.
  pose proof (upgrade_one_reader moved_conf (moved_env None) (inr (str "k", [], false)) ltac:(split; cbn; auto)) as H.
  cbn in *. destruct H as (_ & _ & _ & _ & Hr & _). split_and!; [by eexists|done|done].
Defined.

(** A poller's connection whose session is not the parser: the caller gets no
    connection and no error. *)
Lemma upgrade_nil_nil :
  let '(r, err, _) := Upgrade moved_conf (MkUpEnv KNbio true true true SOther true None [] None None None) (inr (str "k", [], false)) in
  r = None /\ err = None.
Proof. done. Qed.

(** The read deadline of a connection that moved is set on the connection it was
    moved from, which [NBConn] has closed. *)
Lemma moved_without_deadline :
  let '(r, _, s) := Upgrade moved_conf (moved_env None) (inr (str "k", [], false)) in
  w_over <$> r = Some OverNbc /\ us_deadline s = Some OverConn.
Proof. done. Qed.

(** When the answer cannot be written the new connection, which the caller never
    gets, stays with the parser of the blocking engine. *)
Lemma failed_write_keeps_closer :
  let stay := MkUpConf false false true 120 false false false true in
  let broken := MkUpEnv KTCP true true true SNone true None [] None None (Some 32) in
  let '(r, err, s) := Upgrade stay broken (inr (str "k", [], false)) in
  r = None /\ err = Some (UpWrite 32) /\ us_closed s = true /\ readers broken s = [ByParser].
Proof. done. Qed.
