(* ===== verification/Udp.v ===== *)
(** * UDP sessions (src/conn_unix.go)

    A UDP server socket keeps one connection per remote address in a map.  Reads
    hold the mutex of the server connection; closing a session sets its flag
    under the session's own mutex and takes it out of the map under the server's,
    so that it takes two steps. *)

From Stdlib Require Import ZArith Lia.
From Stdlib Require Import Strings.Byte.
From stdpp Require Import base numbers list list_numbers gmap.
From S2P Require Import Prelude GoLib.

Open Scope Z_scope.

(** ** Addresses *)

(** [syscall.Sockaddr]: the two kinds the switch knows, and any other. *)
Inductive sockaddr :=
| SockaddrInet4 (addr : bytes) (port : Z)
| SockaddrInet6 (addr : bytes) (port : Z) (zone : Z)
| SockaddrOther.

#[export] Instance sockaddr_eq_dec : EqDecision sockaddr.
Proof. solve_decision. Defined.

Definition udpAddrKeySize : nat := 22.

(** [copy(ret[i:], l)] into an array. *)
Definition copy_into (ret : bytes) (i : nat) (l : bytes) : bytes := take (length ret) (take i ret ++ l ++ drop (i + length l) ret).

Definition getUDPNetAddrKey (sa : sockaddr) : bytes :=
  let ret := replicate udpAddrKeySize x00 in
  match sa with
  | SockaddrInet4 addr port => copy_into (copy_into ret 0 addr) 16 (le_put 2 port)
  | SockaddrInet6 addr port zone => copy_into (copy_into (copy_into ret 0 addr) 16 (le_put 2 port)) 18 (le_put 4 zone)
  | SockaddrOther => ret
  end.

(** [net.UDPAddr]; [zone_name] is [net.InterfaceByIndex]. *)
Record UDPAddr := MkUDPAddr { ua_IP : bytes; ua_Port : Z; ua_Zone : bytes }.

Definition getUDPNetAddr (zone_name : Z -> option bytes) (sa : sockaddr) : UDPAddr :=
  match sa with
  | SockaddrInet4 addr port => MkUDPAddr addr port []
  | SockaddrInet6 addr port zone => MkUDPAddr addr port (default [] (zone_name zone))
  | SockaddrOther => MkUDPAddr [] 0 []
  end.

(** The family of a socket, and the addresses the kernel reports on it. *)
Definition of_family (v6 : bool) (sa : sockaddr) : Prop :=
  match sa with
  | SockaddrInet4 addr port => v6 = false /\ length addr = 4%nat /\ 0 <= port < 2 ^ 16
  | SockaddrInet6 addr port zone => v6 = true /\ length addr = 16%nat /\ 0 <= port < 2 ^ 16 /\ 0 <= zone < 2 ^ 32
  | SockaddrOther => False
  end.

Lemma key_inet4 addr port : length addr = 4%nat ->
  getUDPNetAddrKey (SockaddrInet4 addr port) = addr ++ replicate 12 x00 ++ le_put 2 port ++ replicate 4 x00.
Proof.
  intros H. do 4 (destruct addr as [|? addr]; [done|]). destruct addr; [|done]. unfold getUDPNetAddrKey, copy_into.
  cbn [le_put length replicate app take drop udpAddrKeySize Nat.add]. done.
Qed.

Lemma key_inet6 addr port zone : length addr = 16%nat ->
  getUDPNetAddrKey (SockaddrInet6 addr port zone) = addr ++ le_put 2 port ++ le_put 4 zone.
Proof.
  intros H. do 16 (destruct addr as [|? addr]; [done|]). destruct addr; [|done]. unfold getUDPNetAddrKey, copy_into.
  cbn [le_put length replicate app take drop udpAddrKeySize Nat.add]. done.
Qed.

Lemma le_put_inj n x y : 0 <= x < 256 ^ Z.of_nat n -> 0 <= y < 256 ^ Z.of_nat n -> le_put n x = le_put n y -> x = y.
Proof. intros Hx Hy E. apply (f_equal le_get) in E. rewrite !le_get_put, !Z.mod_small in E; done. Qed.

(** Within a family, a key stands for one address. *)
Lemma key_inj v6 sa sa' : of_family v6 sa -> of_family v6 sa' -> getUDPNetAddrKey sa = getUDPNetAddrKey sa' -> sa = sa'.
Proof.
  destruct sa as [a p|a p z|], sa' as [a' p'|a' p' z'|]; cbn [of_family]; try (intros; by destruct_and?; try congruence).
  - intros (_ & Ha & Hp) (_ & Ha' & Hp'). rewrite !key_inet4 by done. intros E.
    apply app_inj_1 in E as [-> E]; [|congruence]. apply app_inj_1 in E as [_ E]; [|done].
    apply app_inj_1 in E as [E _]; [|by rewrite !length_le_put]. apply le_put_inj in E; [by subst|done..].
  - intros (_ & Ha & Hp & Hz) (_ & Ha' & Hp' & Hz'). rewrite !key_inet6 by done. intros E.
    apply app_inj_1 in E as [-> E]; [|congruence]. apply app_inj_1 in E as [E1 E2]; [|by rewrite !length_le_put].
    apply le_put_inj in E1; [|done..]. apply le_put_inj in E2; [by subst|done..].
Qed.

(** ** Sessions *)

(** A session: open, closed but still in the map, out of the map. *)
Inductive child_st := COpen | CClosing | CClosed.

#[export] Instance child_st_eq_dec : EqDecision child_st.
Proof. solve_decision. Defined.

Record child := MkChild { ch_sa : sockaddr; ch_st : child_st }.

(** A server connection: its map from keys to sessions, the sessions ever made,
    whether it is closed and has dropped its map; the sessions [onOpen] and
    [onClose] were called for, and the datagrams handed to sessions. *)
Record udp := MkUdp {
  u_conns : gmap bytes nat;
  u_children : list child;
  u_closed : bool;
  u_dropped : bool;
  u_opened : list nat;
  u_closes : list nat;
  u_data : list (sockaddr * bytes * nat)
}.

Definition u_init : udp := MkUdp ∅ [] false false [] [] [].

(** [getConn]: the session of an address, and whether it existed. *)
Definition getConn (rsa : sockaddr) (s : udp) : nat * bool * udp :=
  let rAddrKey := getUDPNetAddrKey rsa in
  match u_conns s !! rAddrKey with
  | Some c => (c, true, s)
  | None =>
      let c := length (u_children s) in
      (c, false, MkUdp (<[rAddrKey := c]> (u_conns s)) (u_children s ++ [MkChild rsa COpen]) (u_closed s) (u_dropped s)
                   (u_opened s) (u_closes s) (u_data s))
  end.

(** [readUDP] of a server into a buffer of [size] bytes, when a datagram was
    received: [recvfrom] drops what does not fit.  Its session is looked up or
    made; the data handler is called with the session and the bytes read, if there
    are any. *)
Definition readUDP (rsa : sockaddr) (d : bytes) (size : nat) (s : udp) : udp :=
  let '(c, ok, s) := getConn rsa s in
  let b := take size d in
  MkUdp (u_conns s) (u_children s) (u_closed s) (u_dropped s) (if ok then u_opened s else u_opened s ++ [c]) (u_closes s)
    (if bool_decide (b = []) then u_data s else u_data s ++ [(rsa, b, c)]).

Definition set_child (c : nat) (st : child_st) (s : udp) : list child :=
  alter (fun ch => MkChild (ch_sa ch) st) c (u_children s).

(** [closeWithError] of a session up to [deleteConn]; a second call does
    nothing. *)
Definition close_flag (c : nat) (s : udp) : option udp :=
  ch ← u_children s !! c;
  Some (match ch_st ch with
        | COpen => MkUdp (u_conns s) (set_child c CClosing s) (u_closed s) (u_dropped s) (u_opened s) (u_closes s ++ [c]) (u_data s)
        | _ => s
        end).

(** [udpConn.Close] of a session, behind [closeWithError]; deleting from a nil
    map does nothing. *)
Definition close_child (c : nat) (s : udp) : option udp :=
  ch ← u_children s !! c;
  match ch_st ch with
  | CClosing =>
      Some (MkUdp (if u_dropped s then u_conns s else delete (getUDPNetAddrKey (ch_sa ch)) (u_conns s)) (set_child c CClosed s)
              (u_closed s) (u_dropped s) (u_opened s) (u_closes s) (u_data s))
  | _ => None
  end.

(** [Close] of the server: the flag, the sessions of the map (each with the two
    steps above), then the map. *)
Definition close_server (s : udp) : udp :=
  MkUdp (u_conns s) (u_children s) true (u_dropped s) (u_opened s) (u_closes s) (u_data s).

Definition visited (s : udp) : bool :=
  forallb (fun kc : bytes * nat => match u_children s !! kc.2 with Some ch => negb (bool_decide (ch_st ch = COpen)) | None => false end)
    (map_to_list (u_conns s)).

Definition drop_conns (s : udp) : udp :=
  MkUdp ∅ (u_children s) (u_closed s) true (u_opened s) (u_closes s) (u_data s).

Inductive ulabel := Recv (rsa : sockaddr) (d : bytes) (size : nat) | CloseFlag (c : nat) | CloseChild (c : nat) | CloseServer | DropConns.

Definition uexec (x : ulabel) (s : udp) : option udp :=
  match x with
  | Recv rsa d size => if u_closed s then None else Some (readUDP rsa d size s)
  | CloseFlag c => close_flag c s
  | CloseChild c => close_child c s
  | CloseServer => if u_closed s then None else Some (close_server s)
  | DropConns => if u_closed s && negb (u_dropped s) && visited s then Some (drop_conns s) else None
  end.

Fixpoint urun (xs : list ulabel) (s : udp) : option udp :=
  match xs with
  | [] => Some s
  | x :: xs => s ← uexec x s; urun xs s
  end.

(** The datagrams of a run with something in them, in the order of arrival: as
    read and as sent. *)
Definition read_of (x : ulabel) : list (sockaddr * bytes) :=
  match x with Recv rsa d size => if bool_decide (take size d = []) then [] else [(rsa, take size d)] | _ => [] end.
Definition sent_of (x : ulabel) : list (sockaddr * bytes) :=
  match x with Recv rsa d _ => if bool_decide (d = []) then [] else [(rsa, d)] | _ => [] end.
Definition arrivals (xs : list ulabel) : list (sockaddr * bytes) := xs ≫= read_of.

(** The buffer has room for the datagram. *)
Definition fits (x : ulabel) : bool := match x with Recv _ d size => (length d <=? size)%nat | _ => true end.

Lemma arrivals_whole xs : forallb fits xs = true -> arrivals xs = xs ≫= sent_of.
Proof.
  unfold arrivals. induction xs as [|x xs IH]; [done|]. cbn [forallb mbind list_bind]. intros [Hx Hxs]%andb_true_iff.
  rewrite IH by done. f_equal. destruct x as [rsa d size|c|c| |]; try done. cbn in *. apply Nat.leb_le in Hx. by rewrite !take_ge by done.
Qed.

(** ** Invariant *)

Section family.
Context (v6 : bool).

Record u_inv (s : udp) : Prop := {
  ui_family c ch : u_children s !! c = Some ch -> of_family v6 (ch_sa ch);
  (** the map holds the sessions that are not out of it *)
  ui_map k c : u_conns s !! k = Some c <->
    u_dropped s = false /\ exists ch, u_children s !! c = Some ch /\ getUDPNetAddrKey (ch_sa ch) = k /\ ch_st ch <> CClosed;
  ui_opened : u_opened s = seq 0 (length (u_children s));
  ui_closes : NoDup (u_closes s);
  ui_closed c : c ∈ u_closes s <-> exists ch, u_children s !! c = Some ch /\ ch_st ch <> COpen;
  ui_data rsa d c : (rsa, d, c) ∈ u_data s -> exists ch, u_children s !! c = Some ch /\ ch_sa ch = rsa;
  ui_dropped : u_dropped s = true -> u_closed s = true /\ forall c ch, u_children s !! c = Some ch -> ch_st ch <> COpen
}.

Lemma u_init_inv : u_inv u_init.
Proof.
  split; cbn; try done.
  - intros k c. rewrite lookup_empty. split; [done|]. by intros (_ & ch & ? & _).
  - apply NoDup_nil_2.
  - intros c. split; [by intros ?%elem_of_nil|]. by intros (ch & ? & _).
  - by intros rsa d c ?%elem_of_nil.
Qed.

Lemma lookup_snoc {X} (l : list X) x i y : (l ++ [x]) !! i = Some y <-> l !! i = Some y \/ i = length l /\ y = x.
Proof.
  rewrite lookup_app_Some. split.
  - intros [?|[Hl H]]; [by left|]. right. destruct (i - length l)%nat eqn:E; cbn in H; [|done].
    split; [lia|congruence].
  - intros [?|[-> ->]]; [by left|]. right. split; [lia|]. by rewrite Nat.sub_diag.
Qed.

Lemma recv_inv rsa d size s : of_family v6 rsa -> u_closed s = false -> u_inv s -> u_inv (readUDP rsa d size s).
Proof.
  intros Hf Hc [If Im Io In Ic Id Ip]. assert (u_dropped s = false) as Hd.
  { destruct (u_dropped s) eqn:E; [|done]. destruct (Ip eq_refl). congruence. }
  unfold readUDP, getConn. destruct (u_conns s !! getUDPNetAddrKey rsa) as [c|] eqn:E.
  - split; cbn; try done. intros rsa' d' c'. case_bool_decide as Hb; [by apply Id|]. intros [H|H]%elem_of_app; [by eapply Id|].
    apply list_elem_of_singleton in H as [= -> -> ->]. apply Im in E as (_ & ch & Hch & Hk & _). exists ch. split; [done|].
    apply (key_inj v6); [by apply (If c)|done|done].
  - split; cbn.
    + intros c ch [H|[-> ->]]%lookup_snoc; [by apply (If c)|done].
    + intros k c. rewrite Hd. setoid_rewrite lookup_snoc. destruct (decide (k = getUDPNetAddrKey rsa)) as [->|Hk].
      * rewrite lookup_insert_eq. split.
        -- intros [= <-]. split; [done|]. eexists. split; [by right|done].
        -- intros (_ & ch & [H|[-> ->]] & Hk & Hs); [|done].
           assert (u_conns s !! getUDPNetAddrKey rsa = Some c) by (apply Im; split; [done|by exists ch]). congruence.
      * rewrite lookup_insert_ne by done. rewrite Im. split.
        -- intros (_ & ch & H & Hk' & Hs). split; [done|]. exists ch. auto.
        -- intros (_ & ch & [H|[-> ->]] & Hk' & Hs); [split; [done|by exists ch]|]. by destruct Hk.
    + rewrite Io, length_app. cbn. by rewrite seq_app.
    + done.
    + intros c. rewrite Ic. setoid_rewrite lookup_snoc. split.
      * intros (ch & H & Hs). exists ch. auto.
      * intros (ch & [H|[-> ->]] & Hs); [by exists ch|done].
    + intros rsa' d' c' Hin. assert ((rsa', d', c') ∈ u_data s ++ [(rsa, take size d, length (u_children s))]) as Hin'.
      { revert Hin. case_bool_decide; [|done]. rewrite elem_of_app. by left. }
      apply elem_of_app in Hin' as [H|H]; setoid_rewrite lookup_snoc.
      * destruct (Id _ _ _ H) as (ch & Hl & Hs). exists ch. auto.
      * apply list_elem_of_singleton in H as [= -> -> ->]. eexists. split; [by right|done].
    + intros H. congruence.
Qed.

Lemma set_child_lookup c st s i ch :
  set_child c st s !! i = Some ch <->
  if decide (i = c) then exists ch0, u_children s !! c = Some ch0 /\ ch = MkChild (ch_sa ch0) st else u_children s !! i = Some ch.
Proof.
  unfold set_child. destruct (decide (i = c)) as [->|Hi].
  - rewrite list_lookup_alter_eq. destruct (u_children s !! c) as [ch0|]; cbn; split; try done.
    + intros [= <-]. by exists ch0.
    + by intros (? & [= ->] & ->).
    + by intros (? & ? & _).
  - by rewrite list_lookup_alter_ne.
Qed.

Lemma close_flag_inv c s s' : u_inv s -> close_flag c s = Some s' -> u_inv s'.
Proof.
  intros HI. unfold close_flag. destruct (u_children s !! c) as [ch|] eqn:Ec; cbn; [|done]. intros [= <-].
  destruct (ch_st ch) eqn:Es; try done. destruct HI as [If Im Io In Ic Id Ip]. split; cbn; try setoid_rewrite set_child_lookup.
  - intros i ch'. destruct (decide (i = c)) as [->|]; [|by apply If]. intros (ch0 & Hl & ->). cbn. by apply (If c).
  - intros k i. rewrite Im. destruct (decide (i = c)) as [->|]; [|done]. rewrite Ec. split; intros (Hd & x & Hx & Hk & Hs).
    + injection Hx as <-. split; [done|]. eexists. split; [by exists ch|done].
    + destruct Hx as (ch0 & [= <-] & ->). split; [done|]. exists ch. split; [done|]. split; [done|congruence].
  - unfold set_child. by rewrite length_alter.
  - apply NoDup_app. split; [done|]. split; [|apply NoDup_singleton]. intros i Hi ->%list_elem_of_singleton.
    apply Ic in Hi as (x & Hx & Hs). congruence.
  - intros i. rewrite elem_of_app, list_elem_of_singleton, Ic. destruct (decide (i = c)) as [->|Hi].
    + split; [intros _|by right]. eexists. split; [by exists ch|done].
    + split; [intros [H|H]; done|]. intros H. by left.
  - intros rsa d i Hi. destruct (Id _ _ _ Hi) as (x & Hx & Hs). destruct (decide (i = c)) as [->|]; [|by exists x].
    eexists. split; [by exists ch|]. cbn. congruence.
  - intros Hd. destruct (Ip Hd) as [Hc Ho]. split; [done|]. intros i x. destruct (decide (i = c)) as [->|]; [|by apply Ho].
    by intros (ch0 & _ & ->).
Qed.

Lemma close_child_inv c s s' : u_inv s -> close_child c s = Some s' -> u_inv s'.
Proof.
  intros [If Im Io In Ic Id Ip]. unfold close_child. destruct (u_children s !! c) as [ch|] eqn:Ec; cbn; [|done].
  destruct (ch_st ch) eqn:Es; try done. intros [= <-]. split; cbn; try setoid_rewrite set_child_lookup.
  - intros i ch'. destruct (decide (i = c)) as [->|]; [|by apply If]. intros (ch0 & Hl & ->). cbn. by apply (If c).
  - intros k i. destruct (u_dropped s) eqn:Hd.
    { rewrite Im. split; [by intros (? & _)|by intros (? & _)]. }
    rewrite lookup_delete_Some, Im. rewrite Ec in *. destruct (decide (i = c)) as [->|Hi].
    + split; [|by intros (_ & x & (ch0 & _ & ->) & _ & ?)]. intros (Hk & _ & x & Hx & Hk' & _). rewrite Ec in Hx. injection Hx as <-. done.
    + split; [by intros (_ & H)|]. intros (_ & x & Hx & Hk & Hs). split; [|split; [done|by exists x]]. intros Heq.
      assert (u_conns s !! k = Some i) as H1 by (apply Im; split; [done|by exists x]).
      assert (u_conns s !! k = Some c) as H2 by (apply Im; split; [done|exists ch; split_and!; try done; congruence]). congruence.
  - unfold set_child. by rewrite length_alter.
  - done.
  - intros i. rewrite Ic. destruct (decide (i = c)) as [->|]; [|done]. rewrite Ec. split.
    + intros _. eexists. split; [by exists ch|done].
    + intros _. exists ch. split; [done|congruence].
  - intros rsa d i Hi. destruct (Id _ _ _ Hi) as (x & Hx & Hs). destruct (decide (i = c)) as [->|]; [|by exists x].
    eexists. split; [by exists ch|]. cbn. congruence.
  - intros Hd. destruct (Ip Hd) as [Hc Ho]. split; [done|]. intros i x. destruct (decide (i = c)) as [->|]; [|by apply Ho].
    by intros (ch0 & _ & ->).
Qed.

Lemma drop_inv s : u_inv s -> u_closed s = true -> u_dropped s = false -> visited s = true -> u_inv (drop_conns s).
Proof.
  intros [If Im Io In Ic Id Ip] Hc Hd Hv. split; cbn; try done.
  - intros k c. rewrite lookup_empty. by split; [|intros (? & _)].
  - intros _. split; [done|]. intros c ch Hl Ho.
    assert (u_conns s !! getUDPNetAddrKey (ch_sa ch) = Some c) as Hm by (apply Im; split; [done|exists ch; split_and!; try done; congruence]).
    unfold visited in Hv. rewrite forallb_forall in Hv. specialize (Hv (getUDPNetAddrKey (ch_sa ch), c)).
    rewrite <- list_elem_of_In in Hv. specialize (Hv (proj2 (elem_of_map_to_list _ _ _) Hm)). cbn in Hv.
    rewrite Hl, Ho in Hv. by rewrite bool_decide_eq_true_2 in Hv.
Qed.

Definition from_family (x : ulabel) : Prop := match x with Recv rsa _ _ => of_family v6 rsa | _ => True end.

Lemma uexec_inv x s s' : u_inv s -> from_family x -> uexec x s = Some s' -> u_inv s'.
Proof.
  intros HI Hx. destruct x as [rsa d size|c|c| |]; cbn [uexec].
  - destruct (u_closed s) eqn:E; [done|]. intros [= <-]. by apply recv_inv.
  - by apply close_flag_inv.
  - by apply close_child_inv.
  - destruct (u_closed s) eqn:E; [done|]. intros [= <-]. destruct HI as [If Im Io In Ic Id Ip]. split; cbn; try done.
    intros H. destruct (Ip H). congruence.
  - destruct (u_closed s) eqn:E1, (u_dropped s) eqn:E2, (visited s) eqn:E3; try done. intros [= <-]. by apply drop_inv.
Qed.

Lemma urun_inv xs : forall s s', u_inv s -> Forall from_family xs -> urun xs s = Some s' ->
  u_inv s' /\ map fst (u_data s') = map fst (u_data s) ++ arrivals xs.
Proof.
  induction xs as [|x xs IH]; intros s s' HI Hx E; cbn [urun] in E.
  - injection E as <-. by rewrite app_nil_r.
  - apply Forall_cons in Hx as [Hx Hxs]. destruct (uexec x s) as [s1|] eqn:E1; [|done]. cbn [mbind option_bind] in E.
    destruct (IH s1 s') as [H1 H2]; [by eapply uexec_inv|done|done|]. split; [done|]. rewrite H2.
    assert (map fst (u_data s1) = map fst (u_data s) ++ read_of x) as ->.
    { destruct x as [rsa d size|c|c| |]; cbn [uexec] in E1; cbn [read_of]; rewrite ?app_nil_r.
      - destruct (u_closed s); [done|]. injection E1 as <-. unfold readUDP, getConn.
        destruct (u_conns s !! _); cbn; (case_bool_decide; [by rewrite app_nil_r|by rewrite map_app]).
      - unfold close_flag in E1. destruct (u_children s !! c) as [ch|]; [|done]. cbn in E1. injection E1 as <-. by destruct (ch_st ch).
      - unfold close_child in E1. destruct (u_children s !! c) as [ch|]; [|done]. cbn in E1. destruct (ch_st ch); try done. by injection E1 as <-.
      - destruct (u_closed s); [done|]. by injection E1 as <-.
      - destruct (_ && _); [|done]. by injection E1 as <-. }
    by rewrite <- app_assoc.
Qed.
End family.


Definition sender (n : Z) : sockaddr := SockaddrInet4 [x0a; x00; x00; x01] n.

Lemma sender_ok n : 0 <= n < 65536 -> of_family false (sender n).
Proof. intros H. split_and!; [done|done|apply H|apply H]. Qed.

(** Two senders; the session of the first is closed and opened again, then the
    server closes. *)
Definition udp_trace : list ulabel :=
  [Recv (sender 1) [x61] 4; Recv (sender 2) [x62] 4; Recv (sender 1) [x63] 4; CloseFlag 0; CloseChild 0; Recv (sender 1) [x64] 4;
   CloseServer; CloseFlag 2; CloseFlag 1; DropConns; CloseChild 1].

Lemma udp_run : match urun udp_trace u_init with
                | Some s => map snd (u_data s) = [0; 1; 0; 2]%nat /\ u_opened s = [0; 1; 2]%nat /\ u_closes s = [0; 2; 1]%nat
                | None => False
                end.
Proof. vm_compute. done. Qed.


(** ** Where the code falls short *)

(** A session that was closed stays in the map until [udpConn.Close]: a datagram
    that arrives in between is handed to the closed session. *)
Lemma closed_session_gets_data :
  match urun [Recv (sender 1) [x61] 4; CloseFlag 0; Recv (sender 1) [x62] 4] u_init with
  | Some s => u_data s = [(sender 1, [x61], 0%nat); (sender 1, [x62], 0%nat)] /\ u_closes s = [0%nat]
  | None => False
  end.
Proof. vm_compute. done. Qed.

(** A datagram longer than the buffer of its read is cut, an empty one opens a
    session and is not handed on.  The buffer of [AsyncRead] is as long as the
    datagram read before. *)
Lemma long_datagram_cut :
  match urun [Recv (sender 1) [x61] 2; Recv (sender 1) [x62; x63] 1; Recv (sender 2) [] 1] u_init with
  | Some s => u_data s = [(sender 1, [x61], 0%nat); (sender 1, [x62], 0%nat)] /\ u_opened s = [0; 1]%nat
  | None => False
  end.
Proof. vm_compute. done. Qed.

(** An IPv4 address and an IPv6 address can have one key. *)
Lemma families_share_keys :
  getUDPNetAddrKey (SockaddrInet4 [x20; x01; x0d; xb8] 53) =
  getUDPNetAddrKey (SockaddrInet6 ([x20; x01; x0d; xb8] ++ replicate 12 x00) 53 0).
Proof. reflexivity. Qed.
