(* ===== verification/ClientPool.v ===== *)
(** * The connections of an HTTP client (src/nbhttp/client.go)

    [Client] keeps, per host, the connections it made and a channel of the free
    ones.  A call of [Do] is a goroutine that passes through [Client.getConn] and
    [hostConns.getConn], takes or makes a connection, and gives it back when the
    connection calls the handler.  Each step of such a goroutine between two
    accesses to shared state is a step of the model, and the steps of all of them,
    of the network and of [Close] interleave in any order. *)

From Stdlib Require Import ZArith Lia.
From Stdlib Require Import Strings.Byte Strings.String.
From stdpp Require Import base numbers list list_numbers gmap.
From S2P Require Import Prelude GoLib Client.
Import ClientConn.

Open Scope Z_scope.

(** Where a call of [Do] is: before [Client.getConn]; past its test of [closed],
    before it looks the host up; before the test of [closed]
    and the three stages of [hostConns.getConn], the second of which counts up,
    then makes a connection or counts down; with a connection, before [Reset] and
    before its [Do]; the request is with the connection; the handler was called. *)
Inductive pc :=
| AtClient | AtEntry | AtHost | AtFree | AtCount | AtMake | AtUncount | AtWait
| HasConn (c : nat) | AtDo (c : nat) | Sent (c : nat) | Done.

#[global] Instance pc_eq_dec : EqDecision pc.
Proof. solve_decision. Defined.

(** [ca_calls]: what the handler was called with. *)
Record caller := MkCaller { ca_host : bytes; ca_pc : pc; ca_calls : list outcome }.

Record hostConns := MkHost { hc_conns : list nat; connNum : Z; maxConnNum : Z; chConnss : list nat }.

(** [cl_conns]: every connection made, with its host; [cl_todo]: the hosts and the
    connections [CloseWithError] has yet to close, and its error. *)
Record client := MkClient {
  cl_closed : bool;
  connsOfHosts : gmap bytes hostConns;
  cl_conns : list (bytes * ClientConn.t);
  cl_callers : list caller;
  cl_todo : list bytes * list nat * option client_err
}.

Section pool.
Context (MaxConnsPerHost Timeout IdleConnTimeout : Z).

Definition newHostConns : hostConns := MkHost [] 0 (if 0 <? MaxConnsPerHost then MaxConnsPerHost else 1024) [].

Definition new_client : client := MkClient false ∅ [] [] ([], [], None).

Definition set_caller (i : nat) (a : caller) (s : client) : client :=
  MkClient (cl_closed s) (connsOfHosts s) (cl_conns s) (<[i := a]> (cl_callers s)) (cl_todo s).
Definition set_host (h : bytes) (hc : hostConns) (s : client) : client :=
  MkClient (cl_closed s) (<[h := hc]> (connsOfHosts s)) (cl_conns s) (cl_callers s) (cl_todo s).
Definition set_conn (c : nat) (x : bytes * ClientConn.t) (s : client) : client :=
  MkClient (cl_closed s) (connsOfHosts s) (<[c := x]> (cl_conns s)) (cl_callers s) (cl_todo s).
Definition set_todo (t : list bytes * list nat * option client_err) (s : client) : client :=
  MkClient (cl_closed s) (connsOfHosts s) (cl_conns s) (cl_callers s) t.

Definition at_pc (p : pc) (a : caller) : caller := MkCaller (ca_host a) p (ca_calls a).

(** The handler of a call. *)
Definition answer (o : outcome) (a : caller) : caller := MkCaller (ca_host a) Done (ca_calls a ++ [o]).

(** A step is taken, or not possible now, or a panic or a send on a full channel
    with the mutex of a connection held; or a map is written while another
    goroutine iterates over it, which the runtime may end the program for. *)
Inductive res := Next (s : client) | Disabled | Bad | Fatal.

Definition with_free (l : list nat) (hc : hostConns) : hostConns := MkHost (hc_conns hc) (connNum hc) (maxConnNum hc) l.
Definition with_num (n : Z) (hc : hostConns) : hostConns := MkHost (hc_conns hc) n (maxConnNum hc) (chConnss hc).

(** [hcs.chConnss <- hc], on a channel with room for [maxConnNum]. *)
Definition releaseConn (c : nat) (hc : hostConns) : option hostConns :=
  if len (chConnss hc) <? maxConnNum hc then Some (with_free (chConnss hc ++ [c]) hc) else None.

(** The handlers a connection calls: each gives the connection back, then calls
    the handler of the user. *)
Fixpoint deliver (c : nat) (calls : list (nat * outcome)) (s : client) : res :=
  match calls with
  | [] => Next s
  | (i, o) :: calls =>
      match cl_callers s !! i with
      | Some a =>
          match connsOfHosts s !! ca_host a with
          | Some hc =>
              match releaseConn c hc with
              | Some hc => deliver c calls (set_caller i (answer o a) (set_host (ca_host a) hc s))
              | None => Bad
              end
          | None => Bad
          end
      | None => Bad
      end
  end.

(** An operation of a connection, with the handlers it calls. *)
Definition on_conn (c : nat) (f : ClientConn.t -> option ClientConn.t) (s : client) : res :=
  match cl_conns s !! c with
  | Some (h, x) =>
      match f x with
      | Some x' => deliver c (drop (length (cc_calls x)) (cc_calls x')) (set_conn c (h, x') s)
      | None => Bad
      end
  | None => Disabled
  end.

(** Which case of a [select] is taken, or the rest of the way. *)
Inductive choice := CTake | CTimeout | CNext (now : Z) (net : network) (k : nat).

(** [Client.getConn] up to the call of [hostConns.getConn]: the test, and the host's
    entry.  [connsMux] is held, but [CloseWithError] holds another mutex. *)
Definition client_getConn (i : nat) (a : caller) (s : client) : client :=
  set_caller i (if cl_closed s then answer (GotError ErrClientClosed) a else at_pc AtEntry a) s.

(** [CloseWithError] is iterating over the hosts. *)
Definition ranging (s : client) : bool := negb (bool_decide ((cl_todo s).1 = ([], []))).

Definition client_entry (i : nat) (a : caller) (s : client) : res :=
  match connsOfHosts s !! ca_host a with
  | Some _ => Next (set_caller i (at_pc AtHost a) s)
  | None => if ranging s then Fatal else Next (set_caller i (at_pc AtHost a) (set_host (ca_host a) newHostConns s))
  end.

(** Receiving from the channel of free connections. *)
Definition take_free (i : nat) (a : caller) (hc : hostConns) (s : client) : res :=
  match chConnss hc with
  | c :: rest => Next (set_caller i (at_pc (HasConn c) a) (set_host (ca_host a) (with_free rest hc) s))
  | [] => Disabled
  end.

(** [hostConns.getConn]. *)
Definition host_getConn (i : nat) (a : caller) (hc : hostConns) (ch : choice) (s : client) : res :=
  match ca_pc a, ch with
  | AtHost, CNext _ _ _ =>
      Next (set_caller i (if cl_closed s then answer (GotError ErrClientClosed) a else at_pc AtFree a) s)
  | AtFree, CTake | AtWait, CTake => take_free i a hc s
  | AtFree, CTimeout | AtWait, CTimeout => Next (set_caller i (answer (GotError ErrClientTimeout) a) s)
  | AtFree, CNext _ _ _ =>
      match chConnss hc with [] => Next (set_caller i (at_pc AtCount a) s) | _ :: _ => Disabled end
  | AtCount, CNext _ _ _ =>
      let n := connNum hc + 1 in
      Next (set_caller i (at_pc (if n <=? maxConnNum hc then AtMake else AtUncount) a) (set_host (ca_host a) (with_num n hc) s))
  | AtMake, CNext _ _ _ =>
      let c := length (cl_conns s) in
      let hc := MkHost (c :: hc_conns hc) (connNum hc) (maxConnNum hc) (chConnss hc) in
      Next (MkClient (cl_closed s) (<[ca_host a := hc]> (connsOfHosts s)) (cl_conns s ++ [(ca_host a, ClientConn.new)])
              (<[i := at_pc (HasConn c) a]> (cl_callers s)) (cl_todo s))
  | AtUncount, CNext _ _ _ =>
      Next (set_caller i (at_pc AtWait a) (set_host (ca_host a) (with_num (connNum hc - 1) hc) s))
  | _, _ => Disabled
  end.

(** A step of the call [i] of [Client.Do]. *)
Definition go (i : nat) (ch : choice) (s : client) : res :=
  match cl_callers s !! i with
  | None => Disabled
  | Some a =>
      match ca_pc a, ch with
      | AtClient, CNext _ _ _ => Next (client_getConn i a s)
      | AtEntry, CNext _ _ _ => client_entry i a s
      | HasConn c, CNext _ _ _ =>
          on_conn c (fun x => Some (Reset x)) (set_caller i (at_pc (AtDo c) a) s)
      | AtDo c, CNext now net k => on_conn c (ClientConn.Do Timeout false now net k i) (set_caller i (at_pc (Sent c) a) s)
      | AtHost, _ | AtFree, _ | AtCount, _ | AtMake, _ | AtUncount, _ | AtWait, _ =>
          match connsOfHosts s !! ca_host a with Some hc => host_getConn i a hc ch s | None => Bad end
      | _, _ => Disabled
      end
  end.

(** [CloseWithError] marks the client and starts with the hosts. *)
Definition CloseWithError (order : list bytes) (e : option client_err) (s : client) : client :=
  if cl_closed s then s
  else MkClient true (connsOfHosts s) (cl_conns s) (cl_callers s) (order, [], e).

(** A host and a connection of [hostConns.closeWithError]. *)
Definition closeHost (s : client) : res :=
  match cl_todo s with
  | (h :: hs, [], e) =>
      match connsOfHosts s !! h with Some hc => Next (set_todo (hs, hc_conns hc, e) s) | None => Bad end
  | (hs, c :: cs, e) => on_conn c (fun x => Some (ClientConn.CloseWithError false e x)) (set_todo (hs, cs, e) s)
  | ([], [], _) => Disabled
  end.

(** New calls of [Do], their steps, responses, connections that end, [Close], in
    any order of the hosts, and its steps. *)
Inductive label :=
| LDo (host : bytes)
| LGo (i : nat) (ch : choice)
| LResponse (c : nat) (now r : Z)
| LDrop (c : nat) (e : option client_err)
| LClose (order : list bytes) (e : option client_err)
| LCloseStep.

Definition exec (l : label) (s : client) : res :=
  match l with
  | LDo h => Next (MkClient (cl_closed s) (connsOfHosts s) (cl_conns s) (cl_callers s ++ [MkCaller h AtClient []]) (cl_todo s))
  | LGo i ch => go i ch s
  | LResponse c now r => on_conn c (onResponse Timeout IdleConnTimeout false now (GotResponse r)) s
  | LDrop c e => on_conn c (fun x => Some (ClientConn.CloseWithError false e x)) s
  | LClose order e =>
      if bool_decide (order ≡ₚ elements (dom (connsOfHosts s))) then Next (CloseWithError order e s) else Disabled
  | LCloseStep => closeHost s
  end.

Fixpoint run (ls : list label) (s : client) : res :=
  match ls with
  | [] => Next s
  | l :: ls => match exec l s with Next s => run ls s | Disabled => run ls s | Bad => Bad | Fatal => Fatal end
  end.

(** No host is entered while [CloseWithError] iterates over them. *)
Definition no_entry (l : label) (s : client) : bool :=
  match l with
  | LGo i (CNext _ _ _) =>
      match cl_callers s !! i with
      | Some (MkCaller h AtEntry _) => bool_decide (is_Some (connsOfHosts s !! h)) || negb (ranging s)
      | _ => true
      end
  | _ => true
  end.
Fixpoint entered_apart (ls : list label) (s : client) : bool :=
  match ls with
  | [] => true
  | l :: ls => no_entry l s && match exec l s with Next s => entered_apart ls s | _ => entered_apart ls s end
  end.

(** ** The invariant *)

(** The connection a call has. *)
Definition holds (p : pc) : option nat := match p with HasConn c | AtDo c | Sent c => Some c | _ => None end.

(** A call counted in [connNum] without a connection yet; about to make one. *)
Definition counted (p : pc) : Z := match p with AtMake | AtUncount => 1 | _ => 0 end.
Definition making (p : pc) : Z := match p with AtMake => 1 | _ => 0 end.

Definition total (f : pc -> Z) (h : bytes) (l : list caller) : Z :=
  foldr (fun a n => (if decide (ca_host a = h) then f (ca_pc a) else 0) + n) 0 l.
Definition holders (h : bytes) (l : list caller) : list nat :=
  omap (fun a => if decide (ca_host a = h) then holds (ca_pc a) else None) l.

Definition sent_at (l : list caller) (c i : nat) : Prop := exists a, l !! i = Some a /\ ca_pc a = Sent c.

Record host_ok (cs : list (bytes * ClientConn.t)) (l : list caller) (h : bytes) (hc : hostConns) : Prop := {
  ho_max : 0 < maxConnNum hc;
  ho_num : connNum hc = len (hc_conns hc) + total counted h l;
  ho_limit : len (hc_conns hc) + total making h l <= maxConnNum hc;
  ho_nodup : NoDup (hc_conns hc);
  ho_home : forall c, c ∈ hc_conns hc -> fst <$> cs !! c = Some h;
  ho_split : hc_conns hc ≡ₚ chConnss hc ++ holders h l
}.

Definition past_client (p : pc) : Prop := p <> AtClient /\ p <> AtEntry /\ p <> Done.

(** [pend c]: the calls whose handlers the connection [c] is about to call. *)
Record inv (pend : nat -> list nat) (s : client) : Prop := {
  iv_host : forall h hc, connsOfHosts s !! h = Some hc -> host_ok (cl_conns s) (cl_callers s) h hc;
  iv_known : forall i a, cl_callers s !! i = Some a -> past_client (ca_pc a) -> is_Some (connsOfHosts s !! ca_host a);
  iv_calls : forall i a, cl_callers s !! i = Some a -> length (ca_calls a) = (match ca_pc a with Done => 1 | _ => 0 end)%nat;
  iv_conn : forall c h x, cl_conns s !! c = Some (h, x) -> ClientConn.ok x /\ (length (pend c ++ map h_id (cc_handlers x)) <= 1)%nat /\
    forall i, i ∈ pend c ++ map h_id (cc_handlers x) <-> sent_at (cl_callers s) c i;
  iv_todo : forall h, h ∈ (cl_todo s).1.1 -> is_Some (connsOfHosts s !! h)
}.

Definition none : nat -> list nat := fun _ => [].

(** ** Lists of calls *)

Lemma total_perm f h l l' : l ≡ₚ l' -> total f h l = total f h l'.
Proof. intros H. induction H; cbn; unfold total in *; try lia. Qed.

Lemma total_bounds h l : 0 <= total making h l <= total counted h l.
Proof. induction l as [|b l IH]; [done|]. unfold total in *. cbn. destruct (decide _); [|lia]. destruct (ca_pc b); cbn; lia. Qed.

Lemma update_perm (l : list caller) i a a' : l !! i = Some a ->
  exists rest, l ≡ₚ a :: rest /\ <[i := a']> l ≡ₚ a' :: rest.
Proof.
  intros H. exists (take i l ++ drop (S i) l). pose proof (lookup_lt_Some _ _ _ H). split.
  - rewrite <- (take_drop_middle l i a H) at 1. symmetry. apply Permutation_middle.
  - rewrite insert_take_drop by done. symmetry. apply Permutation_middle.
Qed.

Lemma host_ok_perm cs l l' h hc : l ≡ₚ l' -> host_ok cs l h hc -> host_ok cs l' h hc.
Proof.
  intros Hp [H1 H2 H3 H4 H5 H6]. split; try done;
    [by rewrite <- (total_perm counted h l l' Hp)|by rewrite <- (total_perm making h l l' Hp)|].
  unfold holders in *. by rewrite <- Hp.
Qed.

(** Changing one call, seen from a host. *)
Lemma host_ok_update cs cs' l i a a' h hc hc' : l !! i = Some a ->
  (forall rest, host_ok cs (a :: rest) h hc -> host_ok cs' (a' :: rest) h hc') ->
  host_ok cs l h hc -> host_ok cs' (<[i := a']> l) h hc'.
Proof.
  intros Hi Hstep Hok. destruct (update_perm l i a a' Hi) as (rest & H1 & H2).
  apply (host_ok_perm _ _ _ _ _ (symmetry H2)), Hstep, (host_ok_perm _ _ _ _ _ H1), Hok.
Qed.

Lemma host_ok_other cs cs' l i a a' h hc : l !! i = Some a -> ca_host a' = ca_host a -> ca_host a <> h ->
  (forall c x, fst <$> cs !! c = Some x -> fst <$> cs' !! c = Some x) ->
  host_ok cs l h hc -> host_ok cs' (<[i := a']> l) h hc.
Proof.
  intros Hi Hh Hne Hcs. apply host_ok_update with (a := a); [done|]. intros rest [H1 H2 H3 H4 H5 H6].
  unfold total, holders in *. cbn in *. rewrite decide_False in H2, H3 by done. rewrite decide_False in H6 by done.
  split; unfold total, holders; cbn; try (rewrite decide_False by congruence); auto.
Qed.

Lemma sent_update l i a a' c j : l !! i = Some a -> sent_at (<[i := a']> l) c j <-> (if decide (j = i) then ca_pc a' = Sent c else sent_at l c j).
Proof.
  intros Hi. unfold sent_at. destruct (decide (j = i)) as [->|Hn].
  - rewrite list_lookup_insert_eq by (by eapply lookup_lt_Some). split; [intros (b & [= <-] & ?); done|]. intros; by exists a'.
  - rewrite list_lookup_insert_ne by done. done.
Qed.

Lemma sent_same l i a a' c j : l !! i = Some a -> (forall c, ca_pc a <> Sent c) -> (forall c, ca_pc a' <> Sent c) ->
  sent_at (<[i := a']> l) c j <-> sent_at l c j.
Proof.
  intros Hi H1 H2. rewrite sent_update by done. destruct (decide (j = i)) as [->|]; [|done].
  split; [by intros ?%H2|]. intros (b & Hb & ?). rewrite Hi in Hb. injection Hb as <-. by destruct (H1 c).
Qed.

Lemma holders_in l i a h c : l !! i = Some a -> ca_host a = h -> holds (ca_pc a) = Some c -> c ∈ holders h l.
Proof.
  intros Hi Hh Hc. apply list_elem_of_omap. exists a. split; [by eapply list_elem_of_lookup_2|]. by rewrite decide_True.
Qed.

Lemma holder_made pend s i a c : inv pend s -> cl_callers s !! i = Some a -> holds (ca_pc a) = Some c ->
  exists hc, connsOfHosts s !! ca_host a = Some hc /\ c ∈ hc_conns hc /\ exists x, cl_conns s !! c = Some (ca_host a, x).
Proof.
  intros Hs Hi Hc. destruct (iv_known _ _ Hs i a Hi) as [hc Hhc]; [by destruct (ca_pc a)|]. exists hc. split; [done|].
  pose proof (iv_host _ _ Hs _ _ Hhc) as Hok. assert (c ∈ hc_conns hc) as Hin.
  { rewrite (ho_split _ _ _ _ Hok). apply elem_of_app. right. by eapply holders_in. }
  split; [done|]. pose proof (ho_home _ _ _ _ Hok c Hin) as Hx. destruct (cl_conns s !! c) as [[h x]|]; [|done].
  injection Hx as ->. by exists x.
Qed.

(** A connection is with one call. *)
Lemma holder_unique pend s i j a b c : inv pend s -> cl_callers s !! i = Some a -> cl_callers s !! j = Some b ->
  holds (ca_pc a) = Some c -> holds (ca_pc b) = Some c -> i = j.
Proof.
  intros Hs Hi Hj Ha Hb. destruct (holder_made _ s i a c Hs Hi Ha) as (hc & Hhc & _ & x & Hx).
  destruct (holder_made _ s j b c Hs Hj Hb) as (hc' & _ & _ & x' & Hx'). rewrite Hx in Hx'. injection Hx' as Hh _.
  destruct (decide (i = j)) as [|Hn]; [done|]. exfalso.
  destruct (update_perm (cl_callers s) i a a Hi) as (rest & H1 & _).
  assert (b ∈ rest) as Hr.
  { assert (b ∈ delete i (cl_callers s)) as Hd.
    { apply list_elem_of_lookup. destruct (decide (j < i)%nat); [exists j; by rewrite list_lookup_delete_lt|].
      exists (pred j). rewrite list_lookup_delete_ge by lia. by rewrite Nat.succ_pred_pos by lia. }
    rewrite (delete_Permutation _ _ _ Hi) in H1. apply Permutation_cons_inv in H1. by rewrite <- H1. }
  pose proof (iv_host _ _ Hs _ _ Hhc) as Hok. apply (host_ok_perm _ _ _ _ _ H1) in Hok. destruct Hok as [_ _ _ Hnd _ Hsp].
  rewrite Hsp in Hnd. apply NoDup_app in Hnd as (_ & _ & Hnd). unfold holders in Hnd. cbn in Hnd. rewrite decide_True, Ha in Hnd by done.
  apply NoDup_cons in Hnd as [Hnd _]. apply Hnd, list_elem_of_omap. exists b. split; [done|]. by rewrite decide_True.
Qed.

(** ** Steps of one call *)

Lemma inv_step s i a a' cl hs' cs' :
  inv none s -> cl_callers s !! i = Some a -> ca_host a' = ca_host a ->
  (forall c, ca_pc a <> Sent c) -> (forall c, ca_pc a' <> Sent c) ->
  length (ca_calls a') = (match ca_pc a' with Done => 1 | _ => 0 end)%nat ->
  (past_client (ca_pc a') -> is_Some (hs' !! ca_host a)) ->
  (forall h, h <> ca_host a -> hs' !! h = connsOfHosts s !! h) ->
  (is_Some (connsOfHosts s !! ca_host a) -> is_Some (hs' !! ca_host a)) ->
  (forall hc', hs' !! ca_host a = Some hc' -> host_ok cs' (<[i := a']> (cl_callers s)) (ca_host a) hc') ->
  (forall c x, fst <$> cl_conns s !! c = Some x -> fst <$> cs' !! c = Some x) ->
  (forall c h x, cs' !! c = Some (h, x) -> cl_conns s !! c = Some (h, x) \/ cl_conns s !! c = None /\ x = ClientConn.new) ->
  inv none (MkClient cl hs' cs' (<[i := a']> (cl_callers s)) (cl_todo s)).
Proof.
  intros Hs Hi Hh Hna Hna' Hcalls Hp Hother Hkeep Hhost Hcs1 Hcs2. pose proof Hs as [I1 I2 I3 I4 I5].
  assert (forall h, is_Some (connsOfHosts s !! h) -> is_Some (hs' !! h)) as Hk.
  { intros h. destruct (decide (h = ca_host a)) as [->|Hn]; [done|by rewrite Hother]. }
  assert (i < length (cl_callers s))%nat as Hlt by (by eapply lookup_lt_Some).
  split; cbn.
  - intros h hc Hhc. destruct (decide (h = ca_host a)) as [->|Hn]; [by apply Hhost|]. rewrite Hother in Hhc by done.
    eapply host_ok_other; [done|done|done|exact Hcs1|by apply I1].
  - intros j b Hj Hb. destruct (decide (i = j)) as [<-|Hn].
    + rewrite list_lookup_insert_eq in Hj by done. injection Hj as <-. rewrite Hh. by apply Hp.
    + rewrite list_lookup_insert_ne in Hj by done. eauto.
  - intros j b Hj. destruct (decide (i = j)) as [<-|Hn].
    + rewrite list_lookup_insert_eq in Hj by done. by injection Hj as <-.
    + rewrite list_lookup_insert_ne in Hj by done. eauto.
  - intros c h x Hx. destruct (Hcs2 c h x Hx) as [Hx'|[Hx' ->]].
    + destruct (I4 c h x Hx') as (Ho & Hl & Hi'). split; [done|]. split; [done|]. intros j. by rewrite (sent_same _ i a a').
    + split; [by split|]. split; [cbn; lia|]. intros j. rewrite (sent_same _ i a a') by done. cbn.
      split; [by intros ?%elem_of_nil|]. intros (b & Hb & Hbp). destruct (holder_made _ s j b c Hs Hb) as (_ & _ & _ & y & Hy); [by rewrite Hbp|].
      by rewrite Hx' in Hy.
  - intros h Hin. auto.
Qed.

(** A step that leaves the connections alone and changes at most its own host. *)
Lemma inv_own s i a a' hc hc' :
  inv none s -> cl_callers s !! i = Some a -> ca_host a' = ca_host a ->
  (forall c, ca_pc a <> Sent c) -> (forall c, ca_pc a' <> Sent c) ->
  length (ca_calls a') = (match ca_pc a' with Done => 1 | _ => 0 end)%nat ->
  connsOfHosts s !! ca_host a = Some hc ->
  (forall rest, host_ok (cl_conns s) (a :: rest) (ca_host a) hc -> host_ok (cl_conns s) (a' :: rest) (ca_host a) hc') ->
  inv none (set_caller i a' (set_host (ca_host a) hc' s)).
Proof.
  intros Hs Hi Hh Hna Hna' Hcalls Hhc Hstep. unfold set_caller, set_host. cbn.
  apply (inv_step s i a a'); try done.
  - intros _. by rewrite lookup_insert_eq.
  - intros h Hn. by rewrite lookup_insert_ne.
  - intros _. by rewrite lookup_insert_eq.
  - intros hc''. rewrite lookup_insert_eq. intros [= <-]. eapply host_ok_update; [done|exact Hstep|]. by apply (iv_host _ _ Hs).
  - auto.
Qed.

Lemma set_host_same s h hc : connsOfHosts s !! h = Some hc -> set_host h hc s = s.
Proof. intros H. unfold set_host. rewrite insert_id by done. by destruct s. Qed.

(** A step between places that neither count nor hold anything. *)
Lemma inv_idle s i a a' cl :
  inv none s -> cl_callers s !! i = Some a -> ca_host a' = ca_host a ->
  counted (ca_pc a) = 0 -> counted (ca_pc a') = 0 -> holds (ca_pc a) = None -> holds (ca_pc a') = None ->
  length (ca_calls a') = (match ca_pc a' with Done => 1 | _ => 0 end)%nat ->
  (past_client (ca_pc a') -> is_Some (connsOfHosts s !! ca_host a)) ->
  inv none (MkClient cl (connsOfHosts s) (cl_conns s) (<[i := a']> (cl_callers s)) (cl_todo s)).
Proof.
  intros Hs Hi Hh C1 C2 H1 H2 Hcalls Hp.
  assert (forall p c, holds p = None -> p <> Sent c) as Hns by (intros p c Hx ->; done).
  apply (inv_step s i a a'); auto. intros hc Hhc. eapply host_ok_update; [done| |by apply (iv_host _ _ Hs)].
  intros rest [Q1 Q2 Q3 Q4 Q5 Q6]. unfold total, holders in *. cbn in *. rewrite decide_True in Q2, Q3 by done. rewrite decide_True in Q6 by done.
  assert (forall p, counted p = 0 -> making p = 0) as Hm by (intros []; done).
  rewrite C1 in Q2. rewrite (Hm _ C1) in Q3. rewrite H1 in Q6.
  split; unfold total, holders; cbn; try (rewrite decide_True by done); auto; [by rewrite C2|by rewrite (Hm _ C2)|by rewrite H2].
Qed.

(** ** Operations of a connection *)

Lemma fail_calls e x : exists new, cc_calls (closeWithErrorWithoutLock false e x) = cc_calls x ++ new.
Proof. unfold closeWithErrorWithoutLock. destruct (cc_conn x) as [[k b]|]; by eexists. Qed.

Lemma send_calls net x : exists new, cc_calls (sendRequest false net x) = cc_calls x ++ new.
Proof. unfold sendRequest. destruct (n_write net); [apply fail_calls|]. exists []. by rewrite app_nil_r. Qed.

Lemma dial_calls now net k x : exists new, cc_calls (dial_and_send Timeout false now net k x) = cc_calls x ++ new.
Proof.
  unfold dial_and_send. destruct (_ && _); [apply fail_calls|]. destruct (first_error _); [apply fail_calls|].
  destruct (n_scheme net).
  - destruct (n_NBConn net); [exact (fail_calls _ (opened _ _ _))|exact (send_calls _ (install _ _ (opened _ _ _)))].
  - destruct (first_error _); [exact (fail_calls _ (opened _ _ _))|].
    destruct (n_AddConn net); [exact (fail_calls _ (install _ _ (opened _ _ _)))|exact (send_calls _ (install _ _ (opened _ _ _)))].
  - exact (fail_calls _ (opened _ _ _)).
Qed.

(** What was called stays called. *)
Lemma step_calls o x x' : ClientConn.step Timeout IdleConnTimeout false o x = Some x' -> exists new, cc_calls x' = cc_calls x ++ new.
Proof.
  destruct o as [now net k id|now r|e|]; cbn [ClientConn.step].
  - unfold ClientConn.Do. destruct (cc_closed x); [intros [= <-]; by eexists|].
    set (x1 := set_handlers _ x). change (cc_calls x) with (cc_calls x1). destruct (cc_conn x1) as [kb|] eqn:Ek.
    + destruct (_ && _); cbn [mbind option_bind].
      * unfold SetReadDeadline. rewrite Ek. cbn [mbind option_bind]. intros [= <-]. exact (send_calls net (Mk _ _ _ _ _ _ _ _ _)).
      * intros [= <-]. apply send_calls.
    + intros [= <-]. apply dial_calls.
  - unfold onResponse, SetReadDeadline. destruct (cc_closed x); [intros [= <-]; exists []; by rewrite app_nil_r|].
    destruct (cc_handlers x) as [|h rest]; [intros [= <-]; exists []; by rewrite app_nil_r|].
    destruct rest as [|next rest].
    + cbn. destruct (0 <? IdleConnTimeout), (cc_conn x); intros [= <-]; by eexists.
    + destruct (0 <? Timeout).
      * intros [= <-]. destruct (_ <? _); [|by eexists].
        destruct (fail_calls (Some ErrClientTimeout) (set_handlers (next :: rest) (call h (GotResponse r) x))) as [new ->]. cbn.
        rewrite <- app_assoc. by eexists.
      * cbn. destruct (cc_conn x); intros [= <-]; by eexists.
  - intros [= <-]. unfold ClientConn.CloseWithError. destruct (cc_closed x); [exists []; by rewrite app_nil_r|]. exact (fail_calls e (Mk _ _ _ _ _ _ _ _ _)).
  - intros [= <-]. unfold Reset. destruct (cc_closed x); exists []; by rewrite app_nil_r.
Qed.

Lemma step_effect o x : ClientConn.ok x -> exists x' new, ClientConn.step Timeout IdleConnTimeout false o x = Some x' /\ ClientConn.ok x' /\
  cc_calls x' = cc_calls x ++ new /\ new.*1 ++ map h_id (cc_handlers x') = map h_id (cc_handlers x) ++ submitted [o].
Proof.
  intros Hx. destruct (conn_step_ok Timeout IdleConnTimeout false o x Hx) as (x' & E & Hx' & Hs).
  destruct (step_calls o x x' E) as [new Hn]. exists x', new. split; [done|]. split; [done|]. split; [done|].
  unfold served in Hs. rewrite Hn, fmap_app, <- !app_assoc in Hs. by apply app_inv_head in Hs.
Qed.

(** ** Giving a connection back *)

Definition pend_at (c : nat) (l : list nat) : nat -> list nat := fun c' => if decide (c' = c) then l else [].

Lemma inv_pend_none c s : inv (pend_at c []) s -> inv none s.
Proof.
  intros [I1 I2 I3 I4 I5]. split; try done. intros c' h x Hx. destruct (I4 c' h x Hx) as (Ho & Hl & Hi). unfold pend_at, none in *.
  destruct (decide (c' = c)); done.
Qed.

Lemma deliver_ok c h x calls s : cl_conns s !! c = Some (h, x) -> inv (pend_at c calls.*1) s ->
  exists s', deliver c calls s = Next s' /\ inv none s' /\
    forall i o a, calls = [(i, o)] -> cl_callers s !! i = Some a -> cl_callers s' !! i = Some (answer o a).
Proof.
  intros Hx Hs. pose proof Hs as [I1 I2 I3 I4 I5]. destruct (I4 c h x Hx) as (Ho & Hl & Hi). unfold pend_at in Hl, Hi.
  rewrite decide_True in Hl by done. rewrite decide_True in Hi by done.
  destruct calls as [|[i o] [|[j p] calls]]; [|clear I1|cbn in Hl; lia].
  { exists s. split; [done|]. split; [by eapply inv_pend_none|done]. }
  assert (sent_at (cl_callers s) c i) as (a & Ha & Hp) by (apply Hi; cbn; set_solver).
  destruct (holder_made _ s i a c Hs Ha ltac:(by rewrite Hp)) as (hc & Hhc & Hin & y & Hy). cbn [deliver]. rewrite Ha, Hhc.
  pose proof (iv_host _ _ Hs _ _ Hhc) as Hok.
  assert (len (chConnss hc) < maxConnNum hc) as Hroom.
  { destruct Hok as [H1 H2 H3 H4 H5 H6]. pose proof (holders_in _ i a (ca_host a) c Ha eq_refl ltac:(by rewrite Hp)) as Hh.
    apply Permutation_length in H6. rewrite length_app in H6. destruct (holders (ca_host a) (cl_callers s)); [by apply elem_of_nil in Hh|].
    pose proof (total_bounds (ca_host a) (cl_callers s)).
    unfold len in *. cbn in H6. lia. }
  unfold releaseConn. rewrite (proj2 (Z.ltb_lt _ _) Hroom). eexists. split; [reflexivity|].
  assert (i < length (cl_callers s))%nat as Hlt by (by eapply lookup_lt_Some).
  split; [|intros i' o' a' [= <- <-] Ha'; cbn; rewrite Ha in Ha'; injection Ha' as <-; by rewrite list_lookup_insert_eq].
  unfold set_caller, set_host. cbn. split; cbn.
  - intros h' hc' Hhc'. destruct (decide (h' = ca_host a)) as [->|Hn].
    + rewrite lookup_insert_eq in Hhc'. injection Hhc' as <-. eapply host_ok_update; [done| |exact Hok].
      intros rest [H1 H2 H3 H4 H5 H6]. unfold total, holders in *. cbn in *. rewrite decide_True in H2, H3 by done. rewrite decide_True in H6 by done. rewrite Hp in H2, H3, H6. cbn in *.
      split; unfold total, holders; cbn; try (rewrite decide_True by done); cbn; auto.
      by rewrite H6, <- app_assoc.
    + rewrite lookup_insert_ne in Hhc' by done. eapply host_ok_other; [done|done|done|done|]. by apply (iv_host _ _ Hs).
  - intros j b Hj Hb. destruct (decide (ca_host b = ca_host a)) as [->|Hn]; [by rewrite lookup_insert_eq|]. rewrite lookup_insert_ne by done.
    destruct (decide (i = j)) as [<-|Hn']; [rewrite list_lookup_insert_eq in Hj by done; by injection Hj as <-|].
    rewrite list_lookup_insert_ne in Hj by done. eauto.
  - intros j b Hj. destruct (decide (i = j)) as [<-|Hn].
    + rewrite list_lookup_insert_eq in Hj by done. injection Hj as <-. cbn. rewrite length_app, (I3 i a Ha), Hp. done.
    + rewrite list_lookup_insert_ne in Hj by done. eauto.
  - intros c' h' x' Hx'. destruct (I4 c' h' x' Hx') as (Ho' & Hl' & Hi'). split; [done|]. unfold pend_at, none in *. cbn.
    destruct (decide (c' = c)) as [->|Hn].
    + rewrite Hx in Hx'. injection Hx' as <- <-. cbn in Hl'. split; [lia|]. intros j. rewrite sent_update by done.
      assert (cc_handlers x = []) as Hnil by (destruct (cc_handlers x); [done|cbn in Hl'; lia]). rewrite Hnil in *. cbn in *.
      split; [by intros ?%elem_of_nil|]. destruct (decide (j = i)) as [->|Hj]; [done|]. intros ?%Hi'. set_solver.
    + split; [done|]. intros j. rewrite sent_update, Hi' by done. destruct (decide (j = i)) as [->|Hj]; [|done].
      unfold sent_at. rewrite Ha. split; [intros (b & [= <-] & Hb); rewrite Hp in Hb; congruence|done].
  - intros h' Hin'. destruct (decide (h' = ca_host a)) as [->|Hn]; [by rewrite lookup_insert_eq|]. rewrite lookup_insert_ne by done. auto.
Qed.

(** An operation of a connection; [submitted [o]] is the call that [Do] adds. *)
Lemma on_conn_ok c o h x s : cl_conns s !! c = Some (h, x) -> inv (pend_at c (submitted [o])) s ->
  exists s' x' new, on_conn c (ClientConn.step Timeout IdleConnTimeout false o) s = Next s' /\ inv none s' /\
    ClientConn.step Timeout IdleConnTimeout false o x = Some x' /\ cc_calls x' = cc_calls x ++ new /\
    forall i r a, new = [(i, r)] -> cl_callers s !! i = Some a -> cl_callers s' !! i = Some (answer r a).
Proof.
  intros Hx Hs. pose proof Hs as [I1 I2 I3 I4 I5]. destruct (I4 c h x Hx) as (Ho & Hl & Hi). unfold pend_at in Hl, Hi.
  rewrite decide_True in Hl by done. rewrite decide_True in Hi by done.
  destruct (step_effect o x Ho) as (x' & new & E & Hx' & Hc & Hn). unfold on_conn. rewrite Hx, E, Hc, drop_app_length.
  assert (c < length (cl_conns s))%nat as Hlt by (by eapply lookup_lt_Some).
  destruct (deliver_ok c h x' new (set_conn c (h, x') s)) as (s' & Ed & Hs' & Ha).
  { cbn. by apply list_lookup_insert_eq. }
  { unfold set_conn. split; cbn; try done.
    - intros h' hc Hhc. destruct (I1 h' hc Hhc) as [H1 H2 H3 H4 H5 H6]. split; try done. intros c' Hc'. specialize (H5 c' Hc').
      destruct (decide (c = c')) as [<-|Hne]; [rewrite list_lookup_insert_eq by done; by rewrite Hx in H5|by rewrite list_lookup_insert_ne].
    - intros c' h' y Hy. unfold pend_at in *. destruct (decide (c' = c)) as [->|Hne].
      + rewrite list_lookup_insert_eq in Hy by done. injection Hy as <- <-. split; [done|]. rewrite Hn. rewrite length_app in Hl |- *.
        split; [lia|]. intros j. rewrite <- Hi. set_solver.
      + rewrite list_lookup_insert_ne in Hy by done. destruct (I4 c' h' y Hy) as (? & ? & ?). rewrite decide_False in * by done. done. }
  exists s', x', new. done.
Qed.

Lemma inv_none_pend c s : inv none s -> inv (pend_at c []) s.
Proof.
  intros [I1 I2 I3 I4 I5]. split; try done. intros c' h x Hx. destruct (I4 c' h x Hx) as (Ho & Hl & Hi). unfold pend_at, none in *.
  destruct (decide (c' = c)); done.
Qed.

(** ** Every step *)

Definition fine (r : res) : Prop := r = Disabled \/ exists s', r = Next s' /\ inv none s'.

Lemma next_fine s : inv none s -> fine (Next s).
Proof. intros H. right. by exists s. Qed.

(** A connection operation outside of [Do]. *)
Lemma on_conn_fine c o s : submitted [o] = [] -> inv none s -> fine (on_conn c (ClientConn.step Timeout IdleConnTimeout false o) s).
Proof.
  intros Ho Hs. destruct (cl_conns s !! c) as [[h x]|] eqn:Hx; [|left; unfold on_conn; by rewrite Hx].
  destruct (on_conn_ok c o h x s Hx) as (s' & _ & _ & -> & Hs' & _); [rewrite Ho; by apply inv_none_pend|]. by apply next_fine.
Qed.

Ltac host_step :=
  intros rest [H1 H2 H3 H4 H5 H6]; unfold total, holders in *; cbn in *;
  rewrite decide_True in H2, H3 by done; rewrite decide_True in H6 by done; cbn in *;
  split; unfold total, holders; cbn; try (rewrite decide_True by done); cbn; auto; try lia.

Lemma host_getConn_fine i a hc ch s : inv none s -> cl_callers s !! i = Some a -> connsOfHosts s !! ca_host a = Some hc ->
  fine (host_getConn i a hc ch s).
Proof.
  intros Hs Hi Hhc. pose proof (iv_calls _ _ Hs i a Hi) as Hc. pose proof (iv_host _ _ Hs _ _ Hhc) as Hok.
  destruct a as [h p cs]. cbn in *.
  assert (forall a', ca_host a' = h -> counted p = 0 -> counted (ca_pc a') = 0 -> holds p = None -> holds (ca_pc a') = None ->
    length (ca_calls a') = (match ca_pc a' with Done => 1 | _ => 0 end)%nat -> inv none (set_caller i a' s)) as Hidle.
  { intros a' ? ? ? ? ? ?. unfold set_caller. eapply inv_idle; try done. }
  assert (forall q, match q with AtFree | AtWait => True | _ => False end -> p = q -> fine (take_free i (MkCaller h p cs) hc s)) as Htake.
  { intros q Hq ->. unfold take_free. destruct (chConnss hc) as [|c free] eqn:Ef; [by left|]. apply next_fine.
    apply (inv_own s i (MkCaller h q cs) _ hc); try done; try (by destruct q). cbn. destruct q; try done; host_step; rewrite H6, Ef; cbn; apply Permutation_middle. }
  assert (forall q, match q with AtFree | AtWait => True | _ => False end -> p = q ->
    fine (Next (set_caller i (answer (GotError ErrClientTimeout) (MkCaller h p cs)) s))) as Hanswer.
  { intros q Hq ->. apply next_fine, Hidle; try done; try (by destruct q). cbn. rewrite length_app. by destruct q; rewrite Hc. }
  unfold host_getConn. cbn [ca_pc]. destruct p; try (by left).
  - destruct ch; try by left. apply next_fine. destruct (cl_closed s); apply Hidle; try done. cbn. by rewrite length_app, Hc.
  - destruct ch; [by eapply (Htake AtFree)|by eapply (Hanswer AtFree)|]. destruct (chConnss hc); [|by left]. apply next_fine. by apply Hidle.
  - destruct ch; try by left. apply next_fine. apply (inv_own s i (MkCaller h AtCount cs) _ hc); try done; try (by destruct (_ <=? _)). cbn.
    intros rest [H1 H2 H3 H4 H5 H6]. pose proof (total_bounds h rest) as Hm.
    unfold total, holders in *. cbn in *. rewrite decide_True in H2, H3 by done. rewrite decide_True in H6 by done. cbn in *.
    destruct (Z.leb_spec (connNum hc + 1) (maxConnNum hc)); split; unfold total, holders; cbn; try (rewrite decide_True by done); cbn; auto; lia.
  - destruct ch; try by left. apply next_fine. apply (inv_step s i (MkCaller h AtMake cs)); try done; cbn.
    + intros _. by rewrite lookup_insert_eq.
    + intros h' Hn. by rewrite lookup_insert_ne.
    + intros _. by rewrite lookup_insert_eq.
    + intros hc'. rewrite lookup_insert_eq. intros [= <-]. eapply host_ok_update; [done| |exact Hok]. host_step.
      * unfold len in *. cbn. lia.
      * unfold len in *. cbn. lia.
      * apply NoDup_cons. split; [|done]. intros Hin. apply H5 in Hin. by rewrite lookup_ge_None_2 in Hin by lia.
      * intros c [->|Hin]%elem_of_cons; [by rewrite lookup_app_r, Nat.sub_diag by lia|]. specialize (H5 c Hin).
        destruct (cl_conns s !! c) eqn:E; [|done]. by rewrite (lookup_app_l_Some _ _ _ _ E).
      * rewrite H6. apply Permutation_middle.
    + intros c x. destruct (cl_conns s !! c) eqn:E; [|done]. by rewrite (lookup_app_l_Some _ _ _ _ E).
    + intros c h' x Hx. apply lookup_app_Some in Hx as [Hx|[Hge Hx]]; [by left|]. apply list_lookup_singleton_Some in Hx as [H0 Hx].
      injection Hx as <- <-. right. split; [|done]. apply lookup_ge_None_2. lia.
  - destruct ch; try by left. apply next_fine. apply (inv_own s i (MkCaller h AtUncount cs) _ hc); try done. cbn. host_step.
  - destruct ch; [by eapply (Htake AtWait)|by eapply (Hanswer AtWait)|by left].
Qed.

(** A connection nobody else has is idle. *)
Lemma held_idle s i a c h x : inv none s -> cl_callers s !! i = Some a -> ca_pc a = AtDo c -> cl_conns s !! c = Some (h, x) ->
  cc_handlers x = [] /\ forall j, ~ sent_at (cl_callers s) c j.
Proof.
  intros Hs Hi Hp Hx. assert (forall j, ~ sent_at (cl_callers s) c j) as Hn.
  { intros j (b & Hb & Hbp). assert (i = j) as <- by (eapply (holder_unique none s i j a b c); eauto; [by rewrite Hp|by rewrite Hbp]).
    rewrite Hi in Hb. injection Hb as <-. congruence. }
  split; [|done]. destruct (iv_conn _ _ Hs c h x Hx) as (_ & _ & Hj). destruct (cc_handlers x) as [|y l]; [done|].
  destruct (Hn (h_id y)). apply Hj. cbn. set_solver.
Qed.

Lemma inv_sending s i a c : inv none s -> cl_callers s !! i = Some a -> ca_pc a = AtDo c ->
  inv (pend_at c [i]) (set_caller i (at_pc (Sent c) a) s).
Proof.
  intros Hs Hi Hp. pose proof Hs as [I1 I2 I3 I4 I5]. unfold set_caller. destruct (holder_made _ s i a c Hs Hi ltac:(by rewrite Hp)) as (hc & Hhc & _ & x & Hx).
  destruct (held_idle s i a c _ x Hs Hi Hp Hx) as [Hnil Hns]. assert (i < length (cl_callers s))%nat as Hlt by (by eapply lookup_lt_Some).
  split; cbn; try done.
  - intros h hc' Hhc'. destruct (decide (ca_host a = h)) as [<-|Hn]; [|by eapply host_ok_other; eauto].
    eapply host_ok_update; [done| |by apply I1]. destruct a as [h p cs]. cbn in *. subst p. host_step.
  - intros j b Hj Hb. destruct (decide (i = j)) as [<-|Hn]; [rewrite list_lookup_insert_eq in Hj by done; injection Hj as <-; by exists hc|].
    rewrite list_lookup_insert_ne in Hj by done. eauto.
  - intros j b Hj. destruct (decide (i = j)) as [<-|Hn]; [rewrite list_lookup_insert_eq in Hj by done; injection Hj as <-; cbn; by rewrite (I3 i a Hi), Hp|].
    rewrite list_lookup_insert_ne in Hj by done. eauto.
  - intros c' h' y Hy. destruct (I4 c' h' y Hy) as (Ho & Hl & Hj). split; [done|]. unfold pend_at, none in *. cbn in *. destruct (decide (c' = c)) as [->|Hn].
    + rewrite Hx in Hy. injection Hy as <- <-. rewrite Hnil. cbn. split; [lia|]. intros j. rewrite sent_update by done. cbn.
      destruct (decide (j = i)) as [->|Hne]; [set_solver|]. split; [set_solver|]. by intros ?%Hns.
    + split; [done|]. intros j. rewrite sent_update by done. cbn. rewrite Hj. destruct (decide (j = i)) as [->|Hne]; [|done].
      split; [|congruence]. intros (b & Hb & Hbp). rewrite Hi in Hb. injection Hb as <-. congruence.
Qed.

Lemma inv_reset s i a c : inv none s -> cl_callers s !! i = Some a -> ca_pc a = HasConn c -> inv none (set_caller i (at_pc (AtDo c) a) s).
Proof.
  intros Hs Hi Hp. destruct (holder_made _ s i a c Hs Hi ltac:(by rewrite Hp)) as (hc & Hhc & _ & _).
  rewrite <- (set_host_same s (ca_host a) hc Hhc). pose proof (iv_calls _ _ Hs i a Hi) as Hc. rewrite Hp in Hc. destruct a as [h p cs]. cbn in *. subst p.
  apply (inv_own s i (MkCaller h (HasConn c) cs) _ hc); try done. cbn. host_step.
Qed.

Lemma client_getConn_inv s i a : inv none s -> cl_callers s !! i = Some a -> ca_pc a = AtClient -> inv none (client_getConn i a s).
Proof.
  intros Hs Hi Hp. pose proof (iv_calls _ _ Hs i a Hi) as Hc. rewrite Hp in Hc. unfold client_getConn, set_caller.
  eapply inv_idle; try done; try (by rewrite Hp); destruct (cl_closed s); cbn; try done; try (by intros (? & ? & ?)).
  by rewrite length_app, Hc.
Qed.

(** A host nobody knows has no calls. *)
Lemma unknown_host_ok s h : inv none s -> connsOfHosts s !! h = None -> host_ok (cl_conns s) (cl_callers s) h newHostConns.
Proof.
  intros Hs Hno.
  assert (forall b, b ∈ cl_callers s -> ca_host b = h -> ca_pc b = AtClient \/ ca_pc b = AtEntry \/ ca_pc b = Done) as Hb.
  { intros b (j & Hj)%list_elem_of_lookup Hbh. destruct (decide (ca_pc b = AtClient)); [by left|]. right.
    destruct (decide (ca_pc b = AtEntry)); [by left|]. right. destruct (decide (ca_pc b = Done)); [done|].
    destruct (iv_known _ _ Hs j b Hj ltac:(by split)) as [hc Hhc]. congruence. }
  assert (total counted h (cl_callers s) = 0 /\ total making h (cl_callers s) = 0 /\ holders h (cl_callers s) = []) as (H1 & H2 & H3).
  { clear -Hb. induction (cl_callers s) as [|b l IH]; [done|]. destruct IH as (H1 & H2 & H3); [set_solver|]. unfold total, holders in *. cbn.
    destruct (decide (ca_host b = h)) as [Hbh|]; [|done]. destruct (Hb b) as [-> | [-> | ->]]; [set_solver|done| | |]; done. }
  split; cbn; rewrite ?H1, ?H2, ?H3; try done;
    [by destruct (Z.ltb_spec 0 MaxConnsPerHost)|by destruct (Z.ltb_spec 0 MaxConnsPerHost); unfold len; cbn; lia|constructor|set_solver].
Qed.

Lemma client_entry_inv s i a : inv none s -> cl_callers s !! i = Some a -> ca_pc a = AtEntry ->
  connsOfHosts s !! ca_host a <> None \/ ranging s = false -> exists s', client_entry i a s = Next s' /\ inv none s'.
Proof.
  intros Hs Hi Hp Hr. pose proof (iv_calls _ _ Hs i a Hi) as Hc. rewrite Hp in Hc.
  assert (exists hs, client_entry i a s = Next (MkClient (cl_closed s) hs (cl_conns s) (<[i := at_pc AtHost a]> (cl_callers s)) (cl_todo s)) /\
    (forall h, h <> ca_host a -> hs !! h = connsOfHosts s !! h) /\
    exists hc, hs !! ca_host a = Some hc /\ host_ok (cl_conns s) (cl_callers s) (ca_host a) hc) as (hs & E & Hother & hc & Hhc & Hok).
  { unfold client_entry. destruct (connsOfHosts s !! ca_host a) as [hc|] eqn:E.
    - exists (connsOfHosts s). split; [done|]. split; [done|]. exists hc. split; [done|]. by apply (iv_host _ _ Hs).
    - assert (ranging s = false) as -> by (by destruct Hr). eexists. split; [reflexivity|]. cbn [connsOfHosts set_host].
      split; [intros h Hn; by rewrite lookup_insert_ne|]. exists newHostConns. split; [apply lookup_insert_eq|]. by apply unknown_host_ok. }
  eexists. split; [exact E|]. clear E. apply (inv_step s i a); try done; try (intros _; by rewrite Hhc).
  - by rewrite Hp.
  - intros hc0. rewrite Hhc. intros [= <-]. eapply host_ok_update; [done| |exact Hok]. destruct a as [h p cs]. cbn in *. subst p. host_step.
  - auto.
Qed.

Lemma go_fine i ch s : inv none s -> no_entry (LGo i ch) s = true -> fine (go i ch s).
Proof.
  intros Hs Hne. unfold go. destruct (cl_callers s !! i) as [a|] eqn:Hi; [|by left].
  assert (past_client (ca_pc a) -> fine (match connsOfHosts s !! ca_host a with Some hc => host_getConn i a hc ch s | None => Bad end)) as Hhost.
  { intros Hp. destruct (iv_known _ _ Hs i a Hi Hp) as [hc Hhc]. rewrite Hhc. by apply host_getConn_fine. }
  destruct (ca_pc a) as [| | | | | | | |c|c|c|] eqn:Hp; try (by left); try (by apply Hhost).
  - destruct ch; try by left. apply next_fine. by apply client_getConn_inv.
  - destruct ch as [| |now net k]; try by left. destruct (client_entry_inv s i a Hs Hi Hp) as (s' & E & Hs'); [|right; by exists s'].
    cbn in Hne. rewrite Hi in Hne. destruct a as [h p cs]. cbn in *. subst p. apply orb_true_iff in Hne as [Hk|Hk]; [left|right; by apply negb_true_iff].
    apply bool_decide_eq_true in Hk as [x Hk]. by rewrite Hk.
  - destruct ch; try by left. apply (on_conn_fine c OReset); [done|]. by apply inv_reset.
  - destruct ch as [| |now net k]; try by left. destruct (holder_made _ s i a c Hs Hi ltac:(by rewrite Hp)) as (hc & _ & _ & x & Hx).
    destruct (on_conn_ok c (ODo now net k i) (ca_host a) x (set_caller i (at_pc (Sent c) a) s) Hx) as (s' & _ & _ & E & Hs' & _).
    { by apply inv_sending. }
    right. exists s'. split; [exact E|done].
Qed.

Lemma inv_new_caller s h : inv none s ->
  inv none (MkClient (cl_closed s) (connsOfHosts s) (cl_conns s) (cl_callers s ++ [MkCaller h AtClient []]) (cl_todo s)).
Proof.
  intros [I1 I2 I3 I4 I5]. assert (forall j b, (cl_callers s ++ [MkCaller h AtClient []]) !! j = Some b ->
    cl_callers s !! j = Some b \/ b = MkCaller h AtClient []) as Hl.
  { intros j b [Hj|[_ Hj]]%lookup_app_Some; [by left|]. apply list_lookup_singleton_Some in Hj as [_ <-]. by right. }
  split; cbn; try done.
  - intros h' hc Hhc. apply (host_ok_perm _ (MkCaller h AtClient [] :: cl_callers s)); [apply Permutation_cons_append|].
    destruct (I1 h' hc Hhc) as [H1 H2 H3 H4 H5 H6]. unfold total, holders in *.
    split; unfold total, holders; cbn; try done; try (destruct (decide (h = h')); done).
  - intros j b [Hj| ->]%Hl; [by apply (I2 j)|by intros []].
  - intros j b [Hj| ->]%Hl; [by apply (I3 j)|done].
  - intros c h' x Hx. destruct (I4 c h' x Hx) as (Ho & Hlen & Hi). split; [done|]. split; [done|]. intros j. rewrite Hi. unfold sent_at. split.
    + intros (b & Hb & Hp). exists b. split; [by apply lookup_app_l_Some|done].
    + intros (b & [Hb| ->]%Hl & Hp); [by exists b|done].
Qed.

Lemma inv_todo s t cl : inv none s -> (forall h, h ∈ t.1.1 -> is_Some (connsOfHosts s !! h)) ->
  inv none (MkClient cl (connsOfHosts s) (cl_conns s) (cl_callers s) t).
Proof. intros [I1 I2 I3 I4 I5] Ht. by split. Qed.

Lemma exec_fine l s : inv none s -> no_entry l s = true -> fine (exec l s).
Proof.
  intros Hs Hne. destruct l as [h|i ch|c now r|c e|order e|]; cbn [exec].
  - by apply next_fine, inv_new_caller.
  - by apply go_fine.
  - by apply (on_conn_fine c (OResponse now r)).
  - by apply (on_conn_fine c (OClose e)).
  - case_bool_decide as Hord; [|by left]. apply next_fine. unfold CloseWithError. destruct (cl_closed s); [done|].
    apply inv_todo; [done|]. intros h. cbn. rewrite Hord, elem_of_elements. apply elem_of_dom.
  - unfold closeHost. pose proof (iv_todo _ _ Hs) as Ht. destruct (cl_todo s) as [[hs cs] e]. cbn in Ht.
    destruct cs as [|c cs]; [|destruct hs; (apply (on_conn_fine c (OClose e)); [done|]; apply inv_todo; auto)].
    destruct hs as [|h hs]; [by left|]. destruct (Ht h ltac:(set_solver)) as [hc Hhc]. rewrite Hhc. apply next_fine, inv_todo; [done|].
    cbn. set_solver.
Qed.

Lemma run_inv ls : forall s, inv none s -> entered_apart ls s = true -> exists s', run ls s = Next s' /\ inv none s'.
Proof.
  induction ls as [|l ls IH]; intros s Hs; cbn [run entered_apart]; [by exists s|]. intros [Hn Hr]%andb_true_iff.
  destruct (exec_fine l s Hs Hn) as [E|(s' & E & Hs')]; rewrite E in *; auto.
Qed.

Lemma new_client_inv : inv none new_client.
Proof. split; cbn; try done. intros h Hh. by apply elem_of_nil in Hh. Qed.

(** A response goes to the call that waits for it. *)
Lemma response_progress s i a c now r : inv none s -> cl_callers s !! i = Some a -> ca_pc a = Sent c ->
  exists s', exec (LResponse c now r) s = Next s' /\ cl_callers s' !! i = Some (answer (GotResponse r) a).
Proof.
  intros Hs Hi Hp. destruct (holder_made _ s i a c Hs Hi ltac:(by rewrite Hp)) as (hc & _ & _ & x & Hx).
  destruct (on_conn_ok c (OResponse now r) _ x s Hx ltac:(by apply inv_none_pend)) as (s' & x' & new & E & Hs' & Ex & Hc & Ha).
  exists s'. split; [done|]. apply (Ha i); [|done].
  destruct (iv_conn _ _ Hs c _ x Hx) as (Ho & Hl & Hj). cbn in Hl, Hj.
  assert (i ∈ map h_id (cc_handlers x)) as Hin by (apply Hj; by exists a).
  destruct (cc_handlers x) as [|y [|z l]] eqn:Eh; [by apply elem_of_nil in Hin| |cbn in Hl; lia].
  cbn in Hin. apply list_elem_of_singleton in Hin as ->. destruct Ho as [Hcl Hk _]. cbn in Ex. unfold onResponse in Ex.
  destruct (cc_closed x); [destruct (Hcl eq_refl); congruence|]. rewrite Eh in Ex. destruct (Hk ltac:(by rewrite Eh)) as [kb Ek].
  unfold SetReadDeadline in Ex. cbn in Ex. rewrite Ek in Ex.
  destruct (0 <? IdleConnTimeout); injection Ex as <-; cbn in Hc; by apply app_inv_head in Hc as <-.
Qed.

Lemma deliver_enabled c calls : forall s, deliver c calls s <> Disabled.
Proof.
  induction calls as [|[j o] l IH]; intros s; [done|]. cbn. destruct (cl_callers s !! j); [|done].
  destruct (connsOfHosts s !! _) as [hc|]; [|done]. by destruct (releaseConn c hc).
Qed.

Lemma on_conn_enabled c f s : cl_conns s !! c <> None -> on_conn c f s <> Disabled.
Proof.
  intros Hc. unfold on_conn. destruct (cl_conns s !! c) as [[h x]|]; [|done]. destruct (f x); [apply deliver_enabled|done].
Qed.

(** Any other call that has not ended can go on. *)
Lemma go_progress s i a : inv none s -> cl_callers s !! i = Some a -> ca_pc a <> Done -> (forall c, ca_pc a <> Sent c) ->
  (ca_pc a = AtEntry -> is_Some (connsOfHosts s !! ca_host a) \/ ranging s = false) ->
  exists ch s', exec (LGo i ch) s = Next s'.
Proof.
  intros Hs Hi Hn Hns Hent.
  assert (forall ch, no_entry (LGo i ch) s = true) as Hne.
  { intros ch. cbn. rewrite Hi. destruct ch, a as [h [] cs]; try done. cbn in *.
    destruct (Hent eq_refl) as [Hk| ->]; [by rewrite bool_decide_eq_true_2|apply orb_true_r]. }
  assert (forall ch, go i ch s <> Disabled -> exists ch s', exec (LGo i ch) s = Next s') as Hgo.
  { intros ch Hd. exists ch. destruct (exec_fine (LGo i ch) s Hs (Hne ch)) as [?|(s' & ? & _)]; [done|by exists s']. }
  assert (forall c, holds (ca_pc a) = Some c -> cl_conns s !! c <> None) as Hconn.
  { intros c Hc. destruct (holder_made _ s i a c Hs Hi Hc) as (_ & _ & _ & x & ->). done. }
  destruct (decide (ca_pc a = AtClient)) as [Hp|Hp]; [apply (Hgo (CNext 0 good_net 0)); unfold go; by rewrite Hi, Hp|].
  destruct (decide (ca_pc a = AtEntry)) as [Hp'|Hp'].
  { apply (Hgo (CNext 0 good_net 0)). unfold go, client_entry. rewrite Hi, Hp'. by repeat case_match. }
  destruct (iv_known _ _ Hs i a Hi ltac:(by split)) as [hc Hhc].
  destruct (decide (ca_pc a = AtFree \/ ca_pc a = AtWait)) as [Hq|Hq].
  { apply (Hgo CTimeout). unfold go. rewrite Hi, Hhc. unfold host_getConn. by destruct Hq as [-> | ->]. }
  apply (Hgo (CNext 0 good_net 0)). unfold go. rewrite Hi, Hhc. unfold host_getConn. destruct (ca_pc a) as [| | | | | | | |c|c|c|]; try done.
  - intros _. apply Hq. by left.
  - intros _. apply Hq. by right.
  - apply on_conn_enabled. cbn. by apply Hconn.
  - apply on_conn_enabled. cbn. by apply Hconn.
  - by destruct (Hns c).
Qed.

(** C22: the connections of a client: whatever calls of [Do] are made and however
    their steps, responses, failing connections and [Close] interleave, provided
    no call enters a new host while [Close] iterates over the hosts, nothing
    panics and no call blocks on giving its connection back; a host never has
    more connections than its limit, and each of them is free exactly once or
    with exactly one call; a connection carries at most one request, that of the
    call that has it; the handler of a call is called exactly once, when the call
    ends.  A call waiting for a response gets the next one of its connection, and
    any other that has not ended has a step to take, unless it is about to enter
    a new host while [Close] iterates: that step is a write to a map under
    iteration ([entry_races_with_close]). *)
Theorem calls_exclusive (ls : list label) :
  entered_apart ls new_client = true ->
  exists s, run ls new_client = Next s /\
    (forall h hc, connsOfHosts s !! h = Some hc ->
       len (hc_conns hc) <= maxConnNum hc /\ NoDup (chConnss hc ++ holders h (cl_callers s)) /\
       hc_conns hc ≡ₚ chConnss hc ++ holders h (cl_callers s)) /\
    (forall c h x, cl_conns s !! c = Some (h, x) ->
       (length (cc_handlers x) <= 1)%nat /\ forall i, i ∈ map h_id (cc_handlers x) <-> sent_at (cl_callers s) c i) /\
    (forall i j a b c, cl_callers s !! i = Some a -> cl_callers s !! j = Some b ->
       holds (ca_pc a) = Some c -> holds (ca_pc b) = Some c -> i = j) /\
    (forall i a, cl_callers s !! i = Some a ->
       (ca_pc a = Done /\ exists o, ca_calls a = [o]) \/
       (ca_calls a = [] /\ (exists c, ca_pc a = Sent c /\ forall now r, exists s',
          exec (LResponse c now r) s = Next s' /\ cl_callers s' !! i = Some (answer (GotResponse r) a))) \/
       (ca_calls a = [] /\ exists ch s', exec (LGo i ch) s = Next s') \/
       (ca_calls a = [] /\ ca_pc a = AtEntry /\ ranging s = true /\ connsOfHosts s !! ca_host a = None)).
Proof.
  intros Hap. destruct (run_inv ls new_client new_client_inv Hap) as (s & E & Hs). exists s. split; [done|]. split; [|split; [|split]].
  - intros h hc Hhc. destruct (iv_host _ _ Hs h hc Hhc) as [H1 H2 H3 H4 H5 H6]. pose proof (total_bounds h (cl_callers s)).
    split; [lia|]. split; [by rewrite <- H6|done].
  - intros c h x Hx. destruct (iv_conn _ _ Hs c h x Hx) as (_ & Hl & Hi). cbn in Hl. rewrite length_map in Hl. by split.
  - intros i j a b c. by apply holder_unique with (pend := none).
  - intros i a Hi. pose proof (iv_calls _ _ Hs i a Hi) as Hc. destruct (decide (ca_pc a = Done)) as [Hd|Hd].
    + left. split; [done|]. rewrite Hd in Hc. destruct (ca_calls a) as [|o [|]]; try done. by exists o.
    + assert (ca_calls a = []) as Hn by (destruct (ca_pc a); try done; by apply nil_length_inv). right.
      assert ((exists c, ca_pc a = Sent c) \/ forall c, ca_pc a <> Sent c) as [[c Hp]|Hp] by (destruct (ca_pc a); eauto; by right).
      * left. split; [done|]. exists c. split; [done|]. intros now r. by apply response_progress.
      * right. destruct (decide (ca_pc a = AtEntry /\ ranging s = true /\ connsOfHosts s !! ca_host a = None)) as [?|Hr]; [by right|]. left.
        split; [done|]. apply (go_progress s i a); try done. intros He. destruct (connsOfHosts s !! ca_host a); [left; by eexists|].
        right. apply not_true_is_false. tauto.
Qed.

End pool.

(** ** Two runs *)

Definition next : choice := CNext 0 good_net 7.
Definition to_host (i : nat) : list label := [LGo i next; LGo i next; LGo i next; LGo i next; LGo i next; LGo i next].
Definition host_a : bytes := str "a:80".

(** One connection at most: the second call waits for the first. *)
Definition two_calls : list label :=
  [LDo host_a; LDo host_a] ++ to_host 0 ++ [LGo 0 next; LGo 0 next] ++ to_host 1.

Example second_waits : exists s, run 1 5 0 two_calls new_client = Next s /\
  map ca_pc (cl_callers s) = [Sent 0; AtWait] /\
  exists s', run 1 5 0 [LResponse 0 3 200; LGo 1 CTake; LGo 1 next; LGo 1 next; LResponse 0 4 404] s = Next s' /\
  map ca_calls (cl_callers s') = [[GotResponse 200]; [GotResponse 404]].
Proof.
  eexists. split; [vm_compute; reflexivity|]. split; [reflexivity|]. eexists. split; vm_compute; reflexivity.
Qed.

(** The run of both, with [Close] and a new host behind it. *)
Lemma calls_exclusive_witness :
  let ls := two_calls ++ [LResponse 0 3 200; LGo 1 CTake; LGo 1 next; LClose [host_a] None; LDo (str "b:80"); LCloseStep; LCloseStep; LGo 2 next] in
  exists s, run 1 5 0 ls new_client = Next s /\ map ca_pc (cl_callers s) = [Done; AtDo 0; Done] /\
    (forall i j a b c, cl_callers s !! i = Some a -> cl_callers s !! j = Some b ->
       holds (ca_pc a) = Some c -> holds (ca_pc b) = Some c -> i = j).
Proof.
  intros ls. destruct (calls_exclusive 1 5 0 ls ltac:(vm_compute; reflexivity)) as (s & E & _ & _ & H & _).
  exists s. split; [exact E|]. split; [|exact H]. vm_compute in E. injection E as <-. reflexivity.
Defined.

(** A call that passed the test of [closed] enters its host while [Close], which
    holds another mutex, iterates over the hosts. *)
Lemma entry_races_with_close :
  run 1 5 0 (two_calls ++ [LDo (str "b:80"); LGo 2 next; LClose [host_a] None; LGo 2 next]) new_client = Fatal.
Proof. reflexivity. Qed.

(** [Close] answers the call that has the connection, which gives it to the one
    that waits: its request is sent over a connection dialed after [Close], which
    nothing closes any more. *)
Lemma request_after_close : exists s,
  run 1 5 0 (two_calls ++ [LClose [host_a] None; LCloseStep; LCloseStep; LGo 1 CTake; LGo 1 next; LGo 1 next;
    LClose [host_a] None; LCloseStep]) new_client = Next s /\
  cl_closed s = true /\ map ca_pc (cl_callers s) = [Done; Sent 0] /\
  exists x, cl_conns s = [(host_a, x)] /\ cc_opened x = [7; 7]%nat /\ cc_shut x = [7]%nat /\ cc_conn x = Some (7%nat, false).
Proof. eexists. split; [vm_compute; reflexivity|]. split; [done|]. split; [reflexivity|]. eexists. split; [reflexivity|]. by split. Qed.
