(* ===== verification/Socks5.v ===== *)
(** * The SOCKS5 proxy dialer (src/nbhttp/client.go)

    [proxySocks5.connect]: greeting, authentication, request and reply, against
    any peer, a function from its state and the bytes written to it to the bytes
    it sends back.  The functions of package net it uses ([SplitHostPort],
    [ParseIP], [To4]) are translated too. *)

From Stdlib Require Import ZArith Lia.
From Stdlib Require Import Strings.Byte Strings.String.
From stdpp Require Import base numbers list list_numbers.
From S2P Require Import Prelude GoLib.

Open Scope Z_scope.

(** ** Package net *)

(** Index of the last occurrence of a byte. *)
Fixpoint last_index (c : byte) (s : bytes) : option nat :=
  match s with
  | [] => None
  | x :: s => match last_index c s with Some i => Some (S i) | None => if x =b c then Some O else None end
  end.

Fixpoint index_byte (c : byte) (s : bytes) : option nat :=
  match s with
  | [] => None
  | x :: s => if x =b c then Some O else S <$> index_byte c s
  end.

Definition SplitHostPort (hostport : bytes) : option (bytes * bytes) :=
  match last_index ":" hostport with
  | None => None
  | Some i =>
      '(host, j, k) ← (if (match hostport with x :: _ => x =b "[" | [] => false end) then
                         end_ ← index_byte "]" hostport;
                         if bool_decide (end_ + 1 = i)%nat then Some (take (end_ - 1) (drop 1 hostport), 1%nat, (end_ + 1)%nat) else None
                       else
                         let host := take i hostport in
                         if contains_byte ":" host then None else Some (host, 0%nat, 0%nat));
      if contains_byte "[" (drop j hostport) then None
      else if contains_byte "]" (drop k hostport) then None
      else Some (host, drop (i + 1) hostport)
  end.

(** One field of a dotted address: no leading zero, at most 255. *)
Definition ipv4_field (s : bytes) : option byte :=
  if bool_decide (s = []) then None
  else if (1 <? len s) && (match s with x :: _ => x =b "0" | [] => false end) then None
  else if forallb (in_range "0" "9") s && (len s <=? 3) then
    v ← parse_digits 10 0 s;
    if v <=? 255 then Some (z2b v) else None
  else None.

Definition parse_ipv4 (s : bytes) : option bytes :=
  match split_byte "." s with
  | [a; b; c; d] => a ← ipv4_field a; b ← ipv4_field b; c ← ipv4_field c; d ← ipv4_field d; Some [a; b; c; d]
  | _ => None
  end.

(** The leading hexadecimal digits, their value and the rest. *)
Fixpoint hex_digits (s : bytes) : bytes * bytes :=
  match s with
  | c :: t => match hex_val c with Some _ => let '(d, r) := hex_digits t in (c :: d, r) | None => ([], s) end
  | [] => ([], [])
  end.

Definition starts (c : byte) (s : bytes) : bool := match s with x :: _ => x =b c | [] => false end.

(** The loop of [parseIPv6]: the bytes so far, the place of the ellipsis. *)
Fixpoint ipv6_loop (fuel : nat) (ip : bytes) (ellipsis : option nat) (s : bytes) : option (bytes * option nat * bytes) :=
  match fuel with
  | O => Some (ip, ellipsis, s)
  | S fuel =>
      let '(d, r) := hex_digits s in
      if bool_decide (d = []) || (4 <? len d) then None
      else if starts "." r then
        if bool_decide (ellipsis = None) && negb (length ip =? 12)%nat then None
        else if (16 <? length ip + 4)%nat then None
        else v4 ← parse_ipv4 s; Some (ip ++ v4, ellipsis, [])
      else
        acc ← parse_digits 16 0 d;
        let ip := ip ++ [z2b (acc / 256); z2b acc] in
        if bool_decide (r = []) then Some (ip, ellipsis, [])
        else if negb (starts ":" r) || (len r =? 1) then None
        else
          let r := drop 1 r in
          if starts ":" r then
            let r := drop 1 r in
            if bool_decide (ellipsis <> None) then None
            else if bool_decide (r = []) then Some (ip, Some (length ip), [])
            else ipv6_loop fuel ip (Some (length ip)) r
          else ipv6_loop fuel ip ellipsis r
  end.

Definition parse_ipv6 (s : bytes) : option bytes :=
  if contains_byte "%" s then None
  else
    let '(ellipsis, s) := if HasPrefix s (str "::") then (Some 0%nat, drop 2 s) else (None, s) in
    if bool_decide (ellipsis = Some 0%nat) && bool_decide (s = []) then Some (replicate 16 x00)
    else
      '(ip, ellipsis, s) ← ipv6_loop 8 [] ellipsis s;
      if negb (bool_decide (s = [])) then None
      else if (length ip <? 16)%nat then
        e ← ellipsis;
        Some (take e ip ++ replicate (16 - length ip) x00 ++ drop e ip)
      else if bool_decide (ellipsis = None) && (length ip =? 16)%nat then Some ip else None.

(** The first of [.], [:], [%] decides. *)
Fixpoint ip_kind (s : bytes) : option bool :=
  match s with
  | [] => None
  | c :: s => if c =b "." then Some false else if c =b ":" then Some true else if c =b "%" then None else ip_kind s
  end.

Definition v4_prefix : bytes := replicate 10 x00 ++ [xff; xff].

(** [net.ParseIP]: 16 bytes; an address with a zone is refused. *)
Definition ParseIP (s : bytes) : option bytes :=
  match ip_kind s with
  | Some false => v4 ← parse_ipv4 s; Some (v4_prefix ++ v4)
  | Some true => parse_ipv6 s
  | None => None
  end.

Definition To4 (ip : bytes) : option bytes := if bool_decide (take 12 ip = v4_prefix) then Some (drop 12 ip) else None.

Example parse_ips :
  ParseIP (str "10.0.0.255") = Some (v4_prefix ++ [x0a; x00; x00; xff]) /\ ParseIP (str "10.0.0.256") = None /\
  ParseIP (str "::1") = Some (replicate 15 x00 ++ [x01]) /\
  ParseIP (str "2001:db8::ff00:42:8329") = Some [x20; x01; x0d; xb8; x00; x00; x00; x00; x00; x00; xff; x00; x00; x42; x83; x29] /\
  ParseIP (str "::ffff:1.2.3.4") = Some (v4_prefix ++ [x01; x02; x03; x04]) /\ ParseIP (str "example.org") = None /\
  ParseIP (str "1::2::3") = None /\ ParseIP (str "fe80::1%eth0") = None /\ ParseIP (str "::") = Some (replicate 16 x00) /\
  ParseIP (str "1:2:3:4:5:6:7::") = Some [x00; x01; x00; x02; x00; x03; x00; x04; x00; x05; x00; x06; x00; x07; x00; x00] /\
  ParseIP (str "1:2:3:4:5:6:7:8:9") = None /\ ParseIP (str "01.2.3.4") = None /\
  SplitHostPort (str "h:80") = Some (str "h", str "80") /\ SplitHostPort (str "[::1]:80") = Some (str "::1", str "80") /\
  SplitHostPort (str "::1:80") = None /\ SplitHostPort (str "h") = None.
Proof. repeat split; vm_compute; reflexivity. Qed.

(** ** Connection and buffer *)

Inductive socks_err :=
| ErrTarget | ErrPort | ErrPortRange
| ErrWriteGreeting | ErrReadGreeting | ErrVersion (v : byte) | ErrNeedsAuth
| ErrWriteAuth | ErrReadAuth | ErrRejected
| ErrHostTooLong | ErrWriteConnect | ErrReadConnect | ErrFailed (what : bytes)
| ErrReadDomain | ErrAddrType (t : byte) | ErrReadAddr | ErrReadPort
| ErrNetwork | ErrForward (n : Z).

Section dialer.
(** The peer: what it sends when it received some bytes; which writes fail. *)
Context {S : Type} (peer : S -> bytes -> S * bytes) (write_fails : nat -> bool).

(** What waits to be read, the peer, and what was written. *)
Record conn := MkConn { cn_in : bytes; cn_peer : S; cn_out : list bytes }.

Inductive result (A : Type) := Ok (a : A) (c : conn) | Err (e : socks_err) (c : conn) | Panic.
#[global] Arguments Ok {A}.
#[global] Arguments Err {A}.
#[global] Arguments Panic {A}.

Definition bind {A B} (m : result A) (f : A -> conn -> result B) : result B :=
  match m with Ok a c => f a c | Err e c => Err e c | Panic => Panic end.

Definition socks_write (e : socks_err) (b : bytes) (c : conn) : result unit :=
  if write_fails (length (cn_out c)) then Err e c
  else let '(p, r) := peer (cn_peer c) b in Ok tt (MkConn (cn_in c ++ r) p (cn_out c ++ [b])).

(** [io.ReadFull] of [n] bytes. *)
Definition read_full (e : socks_err) (n : nat) (c : conn) : result bytes :=
  if (n <=? length (cn_in c))%nat then Ok (take n (cn_in c)) (MkConn (drop n (cn_in c)) (cn_peer c) (cn_out c))
  else Err e (MkConn [] (cn_peer c) (cn_out c)).

(** A slice [buf[:n]] of a buffer with that capacity. *)
Definition upto (cap n : nat) (k : result unit) : result unit := if (n <=? cap)%nat then k else Panic.

(** ** [connect] *)

Record proxy := MkProxy { px_user : bytes; px_password : bytes; px_network : bytes; px_addr : bytes }.

Definition proxySocks5Version : byte := x05.
Definition proxySocks5AuthNone : byte := x00.
Definition proxySocks5AuthPassword : byte := x02.
Definition proxySocks5Connect : byte := x01.
Definition proxySocks5IP4 : byte := x01.
Definition proxySocks5Domain : byte := x03.
Definition proxySocks5IP6 : byte := x04.

Definition proxySocks5Errors : list bytes :=
  [ []; str "general failure"; str "connection forbidden"; str "network unreachable"; str "host unreachable";
    str "connection refused"; str "TTL expired"; str "command not supported"; str "address type not supported" ].

Definition greeting (s : proxy) : bytes :=
  proxySocks5Version ::
  (if (0 <? len (px_user s)) && (len (px_user s) <? 256) && (len (px_password s) <? 256)
   then [x02; proxySocks5AuthNone; proxySocks5AuthPassword] else [x01; proxySocks5AuthNone]).

(** See RFC 1929. *)
Definition auth_request (s : proxy) : bytes :=
  [x01; z2b (len (px_user s))] ++ px_user s ++ [z2b (len (px_password s))] ++ px_password s.

(** [None]: the host name is too long. *)
Definition connect_request (host : bytes) (port : Z) : option bytes :=
  dst ← match ParseIP host with
        | Some ip => Some (match To4 ip with Some ip4 => proxySocks5IP4 :: ip4 | None => proxySocks5IP6 :: ip end)
        | None => if 255 <? len host then None else Some (proxySocks5Domain :: z2b (len host) :: host)
        end;
  Some ([proxySocks5Version; proxySocks5Connect; x00] ++ dst ++ [z2b (Z.shiftr port 8); z2b port]).

Definition failure (code : byte) : bytes := default (str "unknown error") (proxySocks5Errors !! Z.to_nat (b2z code)).

(** The rest of the reply, behind its first four bytes: the address and the
    port; [cap] is the capacity of the buffer. *)
Definition read_bound (cap : nat) (atyp : byte) (c : conn) : result unit :=
  let discard (cap n : nat) (c : conn) :=
    let cap := if (cap <? n)%nat then n else cap in
    bind (read_full ErrReadAddr n c) (fun _ c =>
    upto cap 2 (bind (read_full ErrReadPort 2 c) (fun _ c => Ok tt c))) in
  if atyp =b proxySocks5IP4 then discard cap 4%nat c
  else if atyp =b proxySocks5IP6 then discard cap 16%nat c
  else if atyp =b proxySocks5Domain then
    upto cap 1 (bind (read_full ErrReadDomain 1 c) (fun b c =>
      match b with n :: _ => discard cap (Z.to_nat (b2z n)) c | [] => Panic end))
  else Err (ErrAddrType atyp) c.

(** The request and the reply. *)
Definition request (cap : nat) (host : bytes) (port : Z) (c : conn) : result unit :=
  match connect_request host port with
  | None => Err ErrHostTooLong c
  | Some msg =>
      let cap := Nat.max cap (length msg) in
      bind (socks_write ErrWriteConnect msg c) (fun _ c =>
      upto cap 4 (bind (read_full ErrReadConnect 4 c) (fun b c =>
        match b with
        | [_; rep; _; atyp] =>
            let f := failure rep in
            if 0 <? len f then Err (ErrFailed f) c else read_bound cap atyp c
        | _ => Panic
        end)))
  end.

(** The authentication, when the peer asks for it. *)
Definition authenticate (s : proxy) (cap : nat) (c : conn) : result nat :=
  let msg := auth_request s in
  let cap := Nat.max cap (length msg) in
  bind (socks_write ErrWriteAuth msg c) (fun _ c =>
  if (cap <? 2)%nat then Panic
  else
    bind (read_full ErrReadAuth 2 c) (fun b c =>
      match b with
      | [_; st] => if st =b x00 then Ok cap c else Err ErrRejected c
      | _ => Panic
      end)).

Definition connect (s : proxy) (target : bytes) (c : conn) : result unit :=
  match SplitHostPort target with
  | None => Err ErrTarget c
  | Some (host, portStr) =>
      match Atoi portStr with
      | None => Err ErrPort c
      | Some port =>
          if (port <? 1) || (0xffff <? port) then Err ErrPortRange c
          else
            let msg := greeting s in
            let cap := Nat.max (6 + length host) (length msg) in
            bind (socks_write ErrWriteGreeting msg c) (fun _ c =>
            upto cap 2 (bind (read_full ErrReadGreeting 2 c) (fun b c =>
              match b with
              | [v; m] =>
                  if negb (v =b x05) then Err (ErrVersion v) c
                  else if m =b xff then Err ErrNeedsAuth c
                  else if m =b proxySocks5AuthPassword then bind (authenticate s cap c) (fun cap c => request cap host port c)
                  else request cap host port c
              | _ => Panic
              end)))
      end
  end.

(** [Dial]: the connection handed out, or the error and whether the connection to
    the proxy was closed. *)
Definition Dial (s : proxy) (network target : bytes) (forward : Z + conn) : option (conn + socks_err * bool) :=
  if bool_decide (network ∈ [str "tcp"; str "tcp6"; str "tcp4"]) then
    match forward with
    | inl n => Some (inr (ErrForward n, false))
    | inr c =>
        match connect s target c with
        | Ok _ c => Some (inl c)
        | Err e _ => Some (inr (e, true))
        | Panic => None
        end
    end
  else Some (inr (ErrNetwork, false)).
End dialer.

(** ** Which proxy a URL names *)

Record purl := MkPurl { pu_Scheme : bytes; pu_Host : bytes; pu_User : option (bytes * option bytes) }.

(** [httpProxyDialer] keeps its URL. *)
Inductive dialer := SocksDialer (s : proxy) | HttpDialer (u : purl).

Abbreviation scheme_table := (list (bytes * (purl -> dialer))).

Definition proxyRegisterDialerType (scheme : bytes) (f : purl -> dialer) (t : scheme_table) : scheme_table := (scheme, f) :: t.

(** The [init] of the package. *)
Definition proxySchemes : scheme_table := proxyRegisterDialerType (str "http") HttpDialer [].

Definition proxySOCKS5 (network addr : bytes) (auth : option (bytes * bytes)) : proxy :=
  match auth with
  | Some (u, p) => MkProxy u p network addr
  | None => MkProxy [] [] network addr
  end.

Definition find_scheme (scheme : bytes) (t : scheme_table) : option (purl -> dialer) :=
  snd <$> List.find (fun kf => bool_decide (kf.1 = scheme)) t.

(** [None]: an unknown scheme. *)
Definition proxyFromURL (u : purl) (t : scheme_table) : option dialer :=
  let auth := (fun up => (up.1, default [] up.2)) <$> pu_User u in
  if bool_decide (pu_Scheme u = str "socks5") then Some (SocksDialer (proxySOCKS5 (str "tcp") (pu_Host u) auth))
  else match find_scheme (pu_Scheme u) t with Some f => Some (f u) | None => None end.

(** [strings.LastIndex], with -1 for none. *)
Definition LastIndex (s : bytes) (c : byte) : Z := match last_index c s with Some i => Z.of_nat i | None => -1 end.

Definition hostPortNoPort (u : purl) : bytes * bytes :=
  let i := LastIndex (pu_Host u) ":" in
  if LastIndex (pu_Host u) "]" <? i then (pu_Host u, take (Z.to_nat i) (pu_Host u))
  else if bool_decide (pu_Scheme u = str "wss") || bool_decide (pu_Scheme u = str "https") then (pu_Host u ++ str ":443", pu_Host u)
  else (pu_Host u ++ str ":80", pu_Host u).

Example proxies_named :
  proxyFromURL (MkPurl (str "socks5") (str "p:1080") (Some (str "u", None))) proxySchemes
    = Some (SocksDialer (MkProxy (str "u") [] (str "tcp") (str "p:1080"))) /\
  proxyFromURL (MkPurl (str "http") (str "p") None) proxySchemes = Some (HttpDialer (MkPurl (str "http") (str "p") None)) /\
  proxyFromURL (MkPurl (str "https") (str "p") None) proxySchemes = None /\
  hostPortNoPort (MkPurl (str "https") (str "[::1]") None) = (str "[::1]:443", str "[::1]") /\
  hostPortNoPort (MkPurl (str "http") (str "p:8080") None) = (str "p:8080", str "p").
Proof. repeat split; vm_compute; reflexivity. Qed.

(** ** A server of RFC 1928 and RFC 1929 *)

Inductive target := TIP (ip : bytes) | TName (h : bytes).
Inductive phase := PGreet | PAuth | PRequest | PDone.

(** The credentials it asks for, if any, its answer to a request with the address
    it bound, the bytes of the target that follow the answer, and the request it
    saw. *)
Record server := MkServer {
  sv_phase : phase;
  sv_auth : option (bytes * bytes);
  sv_rep : byte;
  sv_bound : bytes;
  sv_early : bytes;
  sv_seen : option (target * Z)
}.

Definition goto (p : phase) (seen : option (target * Z)) (s : server) : server :=
  MkServer p (sv_auth s) (sv_rep s) (sv_bound s) (sv_early s) seen.

(** An address behind its type, and what follows it. *)
Definition decode_addr (m : bytes) : option (target * bytes) :=
  match m with
  | t :: m =>
      if t =b x01 then Some (TIP (take 4 m), drop 4 m)
      else if t =b x04 then Some (TIP (take 16 m), drop 16 m)
      else if t =b x03 then match m with n :: m => Some (TName (take (Z.to_nat (b2z n)) m), drop (Z.to_nat (b2z n)) m) | [] => None end
      else None
  | [] => None
  end.

Definition rfc_step (s : server) (m : bytes) : server * bytes :=
  match sv_phase s with
  | PGreet =>
      match m with
      | v :: n :: ms =>
          if (v =b x05) && (len ms =? b2z n) then
            match sv_auth s with
            | None => if bool_decide (x00 ∈ ms) then (goto PRequest None s, [x05; x00]) else (goto PDone None s, [x05; xff])
            | Some _ => if bool_decide (x02 ∈ ms) then (goto PAuth None s, [x05; x02]) else (goto PDone None s, [x05; xff])
            end
          else (goto PDone None s, [])
      | _ => (goto PDone None s, [])
      end
  | PAuth =>
      match m with
      | v :: ul :: r =>
          let u := take (Z.to_nat (b2z ul)) r in
          match drop (Z.to_nat (b2z ul)) r with
          | pl :: p =>
              if (v =b x01) && (len p =? b2z pl) && bool_decide (sv_auth s = Some (u, p)) then (goto PRequest None s, [x01; x00])
              else (goto PDone None s, [x01; x01])
          | [] => (goto PDone None s, [x01; x01])
          end
      | _ => (goto PDone None s, [x01; x01])
      end
  | PRequest =>
      match m with
      | v :: cmd :: _ :: r =>
          match decode_addr r with
          | Some (t, port) =>
              if (v =b x05) && (cmd =b x01) && (len port =? 2) then
                (goto PDone (Some (t, be_get port)) s,
                 [x05; sv_rep s; x00] ++ sv_bound s ++ (if sv_rep s =b x00 then sv_early s else []))
              else (goto PDone None s, [])
          | None => (goto PDone None s, [])
          end
      | _ => (goto PDone None s, [])
      end
  | PDone => (s, [])
  end.

(** A bound address with its port, as on the wire. *)
Inductive bound_ok : bytes -> Prop :=
| Bound_ip4 ip port : length ip = 4%nat -> length port = 2%nat -> bound_ok (x01 :: ip ++ port)
| Bound_ip6 ip port : length ip = 16%nat -> length port = 2%nat -> bound_ok (x04 :: ip ++ port)
| Bound_name h port : len h <= 255 -> length port = 2%nat -> bound_ok (x03 :: z2b (len h) :: h ++ port).

(** ** Lengths *)

Lemma parse_ipv4_length s ip : parse_ipv4 s = Some ip -> length ip = 4%nat.
Proof.
  unfold parse_ipv4. destruct (split_byte "." s) as [|a [|b [|c [|d [|]]]]]; try done. intros H.
  destruct (ipv4_field a), (ipv4_field b), (ipv4_field c), (ipv4_field d); try done. by injection H as <-.
Qed.

Lemma ParseIP_length s ip : ParseIP s = Some ip -> length ip = 16%nat.
Proof.
  unfold ParseIP. destruct (ip_kind s) as [[|]|]; [|destruct (parse_ipv4 s) as [v4|] eqn:E|done]; cbn [mbind option_bind]; 
    [|intros H; apply (inj Some) in H as <-; by rewrite length_app, (parse_ipv4_length s v4 E)|done].
  unfold parse_ipv6. destruct (contains_byte _ s); [done|]. destruct (if HasPrefix s _ then _ else _) as [e s1].
  destruct (_ && _); [by intros H; apply (inj Some) in H as <-|]. destruct (ipv6_loop 8 [] e s1) as [[[ip' e'] s']|]; [|done]. cbn [mbind option_bind].
  destruct (negb _); [done|]. destruct (Nat.ltb_spec (length ip') 16) as [Hl|Hl].
  - destruct e' as [e'|]; [|done]. cbn [mbind option_bind]. intros [= <-]. pose proof (length_app (take e' ip') (drop e' ip')) as H.
    rewrite take_drop in H. rewrite !length_app, length_replicate. lia.
  - destruct (_ && _) eqn:E; [|done]. intros [= <-]. apply andb_true_iff in E as [_ E]. by apply Nat.eqb_eq.
Qed.

Lemma To4_length ip ip4 : length ip = 16%nat -> To4 ip = Some ip4 -> length ip4 = 4%nat.
Proof. unfold To4. case_bool_decide; [|done]. intros Hl [= <-]. rewrite length_drop. lia. Qed.

Section safe.
Context {S : Type} (peer : S -> bytes -> S * bytes) (write_fails : nat -> bool).

Lemma read_full_cases e n (c : conn (S := S)) :
  (exists b c', read_full e n c = Ok b c' /\ length b = n) \/ exists c', read_full e n c = Err e c'.
Proof.
  unfold read_full. destruct (Nat.leb_spec n (length (cn_in c))); [left|right; by eexists].
  eexists _, _. split; [done|]. rewrite length_take. lia.
Qed.

Lemma write_cases e b (c : conn (S := S)) :
  (exists c', socks_write peer write_fails e b c = Ok tt c') \/ exists c', socks_write peer write_fails e b c = Err e c'.
Proof. unfold socks_write. destruct (write_fails _); [right; by eexists|]. destruct (peer _ _). left. by eexists. Qed.

Ltac step :=
  match goal with
  | |- context [read_full ?e ?n ?c] =>
      let b := fresh "b" in let c' := fresh "c" in let Hb := fresh "Hb" in let E := fresh "E" in
      destruct (read_full_cases e n c) as [(b & c' & E & Hb)|(c' & E)]; rewrite E; cbn [bind]; [clear E|done]
  | |- context [socks_write peer write_fails ?e ?b ?c] =>
      let c' := fresh "c" in let E := fresh "E" in
      destruct (write_cases e b c) as [(c' & E)|(c' & E)]; rewrite E; cbn [bind]; [clear E|done]
  | |- context [upto ?cap ?n _] => unfold upto at 1; destruct (Nat.leb_spec n cap); [|lia]
  end.

Lemma read_bound_safe cap t (c : conn (S := S)) : (6 <= cap)%nat -> read_bound cap t c <> Panic.
Proof.
  intros Hc. unfold read_bound.
  assert (forall n, (6 <= if (cap <? n)%nat then n else cap)%nat) as Hk by (intros n; destruct (Nat.ltb_spec cap n); lia).
  destruct (t =b _); [step; pose proof (Hk 4%nat); repeat step; done|].
  destruct (t =b _); [step; pose proof (Hk 16%nat); repeat step; done|]. destruct (t =b _); [|done]. step. step.
  destruct b as [|n b]; [done|]. step. pose proof (Hk (Z.to_nat (b2z n))). by repeat step.
Qed.

Lemma request_safe cap host port (c : conn (S := S)) : (6 <= cap)%nat -> request peer write_fails cap host port c <> Panic.
Proof.
  intros Hc. unfold request. destruct (connect_request host port) as [msg|]; [|done]. step. step. step.
  destruct b as [|? [|? [|? [|? [|]]]]]; try done. destruct (0 <? _); [done|]. apply read_bound_safe. lia.
Qed.

Lemma authenticate_safe s cap (c : conn (S := S)) : (6 <= cap)%nat ->
  match authenticate peer write_fails s cap c with Ok cap' _ => (6 <= cap')%nat | Err _ _ => True | Panic => False end.
Proof.
  intros Hc. unfold authenticate. destruct (write_cases ErrWriteAuth (auth_request s) c) as [(c' & E)|(c' & E)]; rewrite E; cbn [bind]; [|done].
  destruct (Nat.ltb_spec (Nat.max cap (length (auth_request s))) 2); [lia|].
  destruct (read_full_cases ErrReadAuth 2 c') as [(b & c2 & E2 & Hb)|(c2 & E2)]; rewrite E2; cbn [bind]; [|done].
  destruct b as [|? [|st [|]]]; try done. destruct (st =b x00); [lia|done].
Qed.

(** No slice is out of range, whatever the peer sends. *)
Lemma connect_safe s t (c : conn (S := S)) : connect peer write_fails s t c <> Panic.
Proof.
  unfold connect. destruct (SplitHostPort t) as [[host portStr]|]; [|done]. destruct (Atoi portStr) as [port|]; [|done].
  destruct (_ || _); [done|]. set (cap := Nat.max (6 + length host) (length (greeting s))). assert (6 <= cap)%nat as Hc by lia.
  clearbody cap. step. step. step. destruct b as [|v [|m [|]]]; try done. destruct (negb _); [done|]. destruct (m =b xff); [done|].
  destruct (m =b _); [|by apply request_safe]. pose proof (authenticate_safe s cap c1 Hc) as Ha.
  destruct (authenticate _ _ s cap c1); cbn [bind]; [by apply request_safe|done|done].
Qed.
End safe.

(** ** Against the server *)

Section rfc.
Context (s : proxy) (host : bytes) (port : Z).
Context (Hport : 1 <= port <= 0xffff) (Hhost : ParseIP host = None -> len host <= 255).

Abbreviation never := (fun _ : nat => false).

Definition requested : target := match ParseIP host with Some ip => TIP (default ip (To4 ip)) | None => TName host end.

Lemma be_port : be_get [z2b (Z.shiftr port 8); z2b port] = port.
Proof.
  unfold be_get. cbn [rev app le_get]. rewrite !b2z_z2b, Z.shiftr_div_pow2 by lia. change (2 ^ 8) with 256.
  rewrite (Z.mod_small (port / 256)) by (split; [apply Z.div_pos; lia|apply Z.div_lt_upper_bound; lia]).
  pose proof (Z.div_mod port 256). lia.
Qed.

(** The request is what the server reads it as. *)
Lemma request_decoded : exists dst, connect_request host port = Some (x05 :: x01 :: x00 :: dst ++ [z2b (Z.shiftr port 8); z2b port]) /\
  decode_addr (dst ++ [z2b (Z.shiftr port 8); z2b port]) = Some (requested, [z2b (Z.shiftr port 8); z2b port]).
Proof.
  unfold connect_request, requested. destruct (ParseIP host) as [ip|] eqn:E.
  - pose proof (ParseIP_length _ _ E) as Hl. destruct (To4 ip) as [ip4|] eqn:E4; cbn [mbind option_bind default].
    + eexists. split; [reflexivity|]. pose proof (To4_length _ _ Hl E4). unfold decode_addr. cbn [app]. rewrite beqb_refl.
      by rewrite take_app_length', drop_app_length'.
    + eexists. split; [reflexivity|]. unfold decode_addr. cbn [app]. change (proxySocks5IP6 =b x01) with false. cbn [negb]. rewrite beqb_refl.
      by rewrite take_app_length', drop_app_length'.
  - specialize (Hhost eq_refl). destruct (Z.ltb_spec 255 (len host)); [lia|]. cbn [mbind option_bind]. eexists. split; [reflexivity|].
    unfold decode_addr. cbn [app]. change (proxySocks5Domain =b x01) with false. change (proxySocks5Domain =b x04) with false.
    rewrite beqb_refl. pose proof (len_nonneg host). rewrite b2z_z2b, Z.mod_small by lia.
    unfold len. rewrite Nat2Z.id. by rewrite take_app_length', drop_app_length'.
Qed.

Lemma read_full_app {S} e n (a b : bytes) (p : S) o : length a = n -> read_full e n (MkConn (a ++ b) p o) = Ok a (MkConn b p o).
Proof.
  intros <-. unfold read_full. cbn [cn_in cn_peer cn_out]. rewrite length_app. destruct (Nat.leb_spec (length a) (length a + length b)); [|lia].
  by rewrite take_app_length, drop_app_length.
Qed.

Lemma read_bound_rfc {S} cap t rest early (p : S) o : (6 <= cap)%nat -> bound_ok (t :: rest) ->
  read_bound cap t (MkConn (rest ++ early) p o) = Ok tt (MkConn early p o).
Proof.
  intros Hc H.
  assert (forall n, (2 <= if (cap <? n)%nat then n else cap)%nat) as Hk by (intros n; destruct (Nat.ltb_spec cap n); lia).
  assert (forall n (k : result (S := S) unit), upto (if (cap <? n)%nat then n else cap) 2 k = k) as Hu.
  { intros n k. unfold upto. specialize (Hk n). destruct (Nat.leb_spec 2 (if (cap <? n)%nat then n else cap)); [done|lia]. }
  inversion H as [ip po H1 H2 H3|ip po H1 H2 H3|h po H1 H2 H3]; subst t rest; unfold read_bound.
  - rewrite beqb_refl, <- app_assoc. rewrite (read_full_app _ 4) by done. cbn [bind]. rewrite (Hu 4%nat). by rewrite (read_full_app _ 2).
  - change (x04 =b proxySocks5IP4) with false. rewrite beqb_refl, <- app_assoc. cbn [negb].
    rewrite (read_full_app _ 16) by done. cbn [bind]. rewrite (Hu 16%nat). by rewrite (read_full_app _ 2).
  - change (x03 =b proxySocks5IP4) with false. change (x03 =b proxySocks5IP6) with false. rewrite beqb_refl. cbn [app].
    assert (forall k : result (S := S) unit, upto cap 1 k = k) as -> by (intros k; unfold upto; destruct (Nat.leb_spec 1 cap); [done|lia]).
    change (z2b (len h) :: (h ++ po) ++ early) with ([z2b (len h)] ++ (h ++ po) ++ early). rewrite (read_full_app _ 1) by done. cbn [bind].
    pose proof (len_nonneg h). rewrite b2z_z2b, Z.mod_small by lia. rewrite <- app_assoc.
    rewrite (read_full_app _ (Z.to_nat (len h))) by (unfold len; lia). cbn [bind]. rewrite (Hu (Z.to_nat (len h))). by rewrite (read_full_app _ 2).
Qed.

Lemma failure_code rep : (0 <? len (failure rep)) = negb (rep =b x00).
Proof. by destruct rep. Qed.

(** A server that waits for the request. *)
Lemma request_rfc cap auth rep bound early out : (6 <= cap)%nat -> bound_ok bound ->
  exists c, sv_seen (cn_peer c) = Some (requested, port) /\
    request rfc_step never cap host port (MkConn [] (MkServer PRequest auth rep bound early None) out) =
      (if rep =b x00 then Ok tt c else Err (ErrFailed (failure rep)) c) /\
    (rep = x00 -> cn_in c = early).
Proof.
  intros Hc Hb. destruct request_decoded as (dst & Er & Ed). unfold request. rewrite Er.
  set (msg := x05 :: _). set (cap' := Nat.max cap (length msg)). assert (6 <= cap')%nat as Hc' by lia. clearbody cap'.
  unfold socks_write. cbn [cn_out cn_peer cn_in app]. unfold rfc_step at 1. cbn [sv_phase msg]. rewrite Ed.
  change ((x05 =b x05) && (x01 =b x01) && (len [z2b (Z.shiftr port 8); z2b port] =? 2)) with true. rewrite be_port.
  cbn [goto sv_auth sv_rep sv_bound sv_early app bind]. unfold upto at 1. destruct (Nat.leb_spec 4 cap'); [|lia].
  assert (exists t rest, bound = t :: rest) as (t & rest & ->) by (destruct Hb; by eexists _, _).
  cbn [app]. change (x05 :: rep :: x00 :: t :: ?l) with ([x05; rep; x00; t] ++ l).
  rewrite (read_full_app _ 4) by done. cbn [bind]. rewrite failure_code. destruct (rep =b x00) eqn:E; cbn [negb].
  - rewrite read_bound_rfc by done. eexists. split; [|by split]. done.
  - eexists. split; [|split; [reflexivity|]]; [done|]. intros ->. done.
Qed.

(** The greeting and the authentication, up to the request. *)
Lemma greeting_rfc auth rep bound early k cap :
  auth = None \/ auth = Some (px_user s, px_password s) /\ 0 < len (px_user s) < 256 /\ len (px_password s) < 256 ->
  (6 <= cap)%nat ->
  (forall cap out, (6 <= cap)%nat -> exists c, sv_seen (cn_peer c) = Some (requested, port) /\
     request rfc_step never cap host port (MkConn [] (MkServer PRequest auth rep bound early None) out) = k c /\ (rep = x00 -> cn_in c = early)) ->
  exists c, sv_seen (cn_peer c) = Some (requested, port) /\
    bind (socks_write rfc_step never ErrWriteGreeting (greeting s) (MkConn [] (MkServer PGreet auth rep bound early None) [])) (fun _ c =>
    upto cap 2 (bind (read_full ErrReadGreeting 2 c) (fun b c =>
      match b with
      | [v; m] =>
          if negb (v =b x05) then Err (ErrVersion v) c
          else if m =b xff then Err ErrNeedsAuth c
          else if m =b proxySocks5AuthPassword then bind (authenticate rfc_step never s cap c) (fun cap c => request rfc_step never cap host port c)
          else request rfc_step never cap host port c
      | _ => Panic
      end))) = k c /\ (rep = x00 -> cn_in c = early).
Proof.
  intros Ha Hc Hr. assert (forall k : result (S := server) unit, upto cap 2 k = k) as Hu.
  { intros k'. unfold upto. destruct (Nat.leb_spec 2 cap); [done|lia]. }
  unfold socks_write at 1. cbn [cn_out cn_peer cn_in app]. destruct Ha as [->|(-> & Hul & Hpl)].
  - assert (rfc_step (MkServer PGreet None rep bound early None) (greeting s) = (MkServer PRequest None rep bound early None, [x05; x00])) as ->.
    { unfold greeting. by destruct (_ && _). }
    cbn [bind]. rewrite Hu. unfold read_full at 1. cbn. by apply Hr.
  - assert (rfc_step (MkServer PGreet (Some (px_user s, px_password s)) rep bound early None) (greeting s) =
      (MkServer PAuth (Some (px_user s, px_password s)) rep bound early None, [x05; x02])) as ->.
    { unfold greeting. destruct (Z.ltb_spec 0 (len (px_user s))), (Z.ltb_spec (len (px_user s)) 256), (Z.ltb_spec (len (px_password s)) 256); try lia. done. }
    cbn [bind]. rewrite Hu. unfold read_full at 1. cbn [length cn_in cn_peer cn_out Nat.leb take drop bind].
    change (negb (x05 =b x05)) with false. change (x02 =b xff) with false. change (x02 =b proxySocks5AuthPassword) with true. cbv iota.
    unfold authenticate. set (cap' := Nat.max cap (length (auth_request s))). assert (6 <= cap')%nat as Hc' by lia. clearbody cap'.
    unfold socks_write at 1. cbn [cn_out cn_peer cn_in app].
    assert (rfc_step (MkServer PAuth (Some (px_user s, px_password s)) rep bound early None) (auth_request s) =
      (MkServer PRequest (Some (px_user s, px_password s)) rep bound early None, [x01; x00])) as ->.
    { unfold rfc_step, auth_request. cbn [sv_phase app]. pose proof (len_nonneg (px_password s)).
      rewrite b2z_z2b, Z.mod_small by lia. assert (Z.to_nat (len (px_user s)) = length (px_user s)) as -> by (unfold len; lia).
      rewrite take_app_length, drop_app_length. rewrite b2z_z2b, Z.mod_small by lia. rewrite Z.eqb_refl, beqb_refl. cbn [sv_auth andb].
      by rewrite bool_decide_eq_true_2. }
    cbn [bind]. destruct (Nat.ltb_spec cap' 2); [lia|]. unfold read_full at 1. cbn. by apply Hr.
Qed.
End rfc.

(** C24: whatever a proxy sends, [connect] never slices out of range.  With a proxy
    that follows RFC 1928 and RFC 1929 and asks for no authentication or for the
    credentials it was given, the proxy reads the target that was asked for
    (address, IPv6 address or name, and port) out of what was sent; [connect]
    succeeds exactly when it reports success and leaves the connection right
    behind the reply, so that the first bytes of the target are not lost;
    otherwise the error names the reason the proxy gave, and [Dial] closes the
    connection. *)
Theorem socks5_connects (s : proxy) (addr host portStr : bytes) (port : Z) (auth : option (bytes * bytes)) (rep : byte) (bound early : bytes) :
  SplitHostPort addr = Some (host, portStr) -> Atoi portStr = Some port -> 1 <= port <= 0xffff ->
  (ParseIP host = None -> len host <= 255) ->
  (auth = None \/ auth = Some (px_user s, px_password s) /\ 0 < len (px_user s) < 256 /\ len (px_password s) < 256) ->
  bound_ok bound ->
  (forall S (peer : S -> bytes -> S * bytes) write_fails c, connect peer write_fails s addr c <> Panic) /\
  let c0 := MkConn [] (MkServer PGreet auth rep bound early None) [] in
  exists c, sv_seen (cn_peer c) = Some (requested host, port) /\
    connect rfc_step (fun _ => false) s addr c0 = (if rep =b x00 then Ok tt c else Err (ErrFailed (failure rep)) c) /\
    (rep = x00 -> cn_in c = early) /\
    Dial rfc_step (fun _ => false) s (str "tcp") addr (inr c0) =
      Some (if rep =b x00 then inl c else inr (ErrFailed (failure rep), true)).
Proof.
  intros Hs Hp Hr Hh Ha Hb. split; [intros; apply connect_safe|]. intros c0.
  destruct (greeting_rfc s host port auth rep bound early (fun c => if rep =b x00 then Ok tt c else Err (ErrFailed (failure rep)) c)
    (Nat.max (6 + length host) (length (greeting s))) Ha) as (c & Hc & E & Hi); [lia|intros; by apply request_rfc|].
  assert (connect rfc_step (fun _ => false) s addr c0 = (if rep =b x00 then Ok tt c else Err (ErrFailed (failure rep)) c)) as Hcon.
  { unfold connect. rewrite Hs, Hp. destruct (Z.ltb_spec port 1), (Z.ltb_spec 0xffff port); try lia. exact E. }
  exists c. split_and!; try done. unfold Dial. rewrite bool_decide_eq_true_2 by apply list_elem_of_here. rewrite Hcon. by destruct (rep =b x00).
Qed.

Definition sample_proxy : proxy := MkProxy (str "u") (str "pw") (str "tcp") (str "proxy:1080").

Lemma socks5_connects_witness :
  let c0 := MkConn [] (MkServer PGreet (Some (str "u", str "pw")) x00 (x01 :: [x00; x00; x00; x00] ++ [x00; x00]) (str "220 hi") None) [] in
  exists c, connect rfc_step (fun _ => false) sample_proxy (str "[2001:db8::1]:25") c0 = Ok tt c /\ cn_in c = str "220 hi" /\
    sv_seen (cn_peer c) = Some (requested (str "2001:db8::1"), 25).
Proof.
  intros c0. destruct (socks5_connects sample_proxy (str "[2001:db8::1]:25") (str "2001:db8::1") (str "25") 25
    (Some (str "u", str "pw")) x00 (x01 :: [x00; x00; x00; x00] ++ [x00; x00]) (str "220 hi")) as [_ (c & H1 & H2 & H3 & _)].
  - reflexivity.
  - reflexivity.
  - lia.
  - intros H. vm_compute in H. discriminate H.
  - right. split; [reflexivity|]. split; vm_compute; [split|]; reflexivity.
  - apply Bound_ip4; reflexivity.
  - exists c. split; [exact H2|]. split; [by apply H3|exact H1].
Defined.

(** A peer that picks a method the client never offered (1, GSSAPI) and then takes
    whatever comes as a request. *)
Definition odd_step (n : nat) (m : bytes) : nat * bytes :=
  match n with
  | O => (1%nat, [x05; x01])
  | S _ => (2%nat, [x05; x00; x00; x01; x00; x00; x00; x00; x00; x00])
  end.

(** The choice is not checked: the request goes out as if no authentication had
    been agreed on. *)
Lemma unoffered_method_accepted : exists c,
  connect odd_step (fun _ => false) (MkProxy [] [] (str "tcp") (str "p:1")) (str "h:80") (MkConn [] 0%nat []) = Ok tt c /\ length (cn_out c) = 2%nat.
Proof. eexists. split; [vm_compute; reflexivity|done]. Qed.
