(* ===== verification/EndToEnd.v ===== *)
(** * Client and server together

    What the response writer of the server puts on the wire is the wire form of a
    response, so that the server of [ServerRun] and the client of [ClientRun] can
    be put together: what a handler of the server writes is what the handler of
    the client reads. *)

From Stdlib Require Import ZArith Lia.
From Stdlib Require Import Strings.Byte Strings.String.
From stdpp Require Import base numbers list list_numbers gmap.
From S2P Require Import Prelude GoLib Table Parser ParserFacts ParserSplit ParserRun ParserMessage ParserProps ParserResponse.
From S2P Require Import Mempool MempoolFacts MempoolProps Body Response ResponseProps Processor ProcessorProps ServerRun ClientRun.

Open Scope Z_scope.

Abbreviation wire_response := ParserResponse.response.

(** Three digits of a status code. *)
Lemma code_digits c : 100 <= c < 1000 ->
  [digit (c / 100); digit ((c mod 100) / 10); digit (c mod 10)] = FormatUint c 10.
Proof.
  intros H.
  assert (forallb (fun n => bool_decide ([digit (Z.of_nat n / 100); digit ((Z.of_nat n mod 100) / 10); digit (Z.of_nat n mod 10)]
    = FormatUint (Z.of_nat n) 10)) (seq 100 900) = true) as Hc by (vm_compute; reflexivity).
  rewrite forallb_forall in Hc. specialize (Hc (Z.to_nat c)). rewrite <- list_elem_of_In, elem_of_seq in Hc.
  specialize (Hc ltac:(lia)). rewrite bool_decide_eq_true in Hc. by rewrite Z2Nat.id in Hc by lia.
Qed.

Section head.
Context {A : Type} `{!Allocator A} `{!AllocatorLaws A}.
Context (StatusText : Z -> bytes) (iter : Header -> list (bytes * list bytes)).
Context (iter_trailer : gmap bytes bytes -> list (bytes * bytes)) (now : utc) (req : req_info).

(** The date without its name. *)
Definition date_value (t : utc) : bytes :=
  day_name (u_weekday t) ++ str ", " ++
  [digit (u_day t / 10); digit (u_day t mod 10); SP] ++ month_name (u_month t) ++ [SP] ++
  [digit (u_year t / 1000); digit ((u_year t / 100) mod 10); digit ((u_year t / 10) mod 10);
   digit (u_year t mod 10); SP] ++
  [digit (u_hour t / 10); digit (u_hour t mod 10); ":"%byte;
   digit (u_min t / 10); digit (u_min t mod 10); ":"%byte;
   digit (u_sec t / 10); digit (u_sec t mod 10); SP] ++ str "GMT".

Definition length_fields (s : Response A) : list (bytes * bytes) :=
  if negb (r_chunked s) && (len (default [] (r_header s !! contentLengthHeader)) =? 0) then
    [(str "Content-Length",
      if negb (r_hasBody s) then str "0"
      else
        let l := match r_bodyBuffer s with Some b => b_len b | None => 0 end in
        if 0 <? l then FormatUint l 10 else str "0")]
  else [].

(** The fields of a head, in order. *)
Definition fields (s : Response A) : list (bytes * bytes) :=
  (if r_hasBody s && (len (default [] (r_header s !! str "Content-Type")) =? 0)
   then [(str "Content-Type", str "text/plain; charset=utf-8")] else []) ++
  length_fields s ++
  (if q_Close req && (len (default [] (r_header s !! str "Connection")) =? 0) then [(str "Connection", str "close")] else []) ++
  (if len (default [] (r_header s !! str "Date")) =? 0 then [(str "Date", date_value now)] else []) ++
  concat (map (fun kv => map (fun v => (kv.1, v)) kv.2) (iter (r_header s))).

Lemma date_line_field t : date_line t = encode_field (str "Date", date_value t).
Proof. unfold date_line, encode_field, date_value. cbn [fst snd]. rewrite <- !app_assoc. reflexivity. Qed.

Lemma field_pieces_text k vs : concat (field_pieces k vs) = concat (map encode_field (map (fun v => (k, v)) vs)).
Proof.
  induction vs as [|v vs IH]; [done|]. unfold field_pieces in *. cbn [map concat]. rewrite concat_app, IH. cbn [concat]. by rewrite app_nil_r.
Qed.

Lemma header_loop_plain h kvs n : header_loop h kvs ∅ n = (concat (map (fun kv => field_pieces kv.1 kv.2) kvs), ∅, n).
Proof.
  induction kvs as [|[k vv] kvs IH]; [done|]. cbn [header_loop map concat fst snd]. rewrite lookup_empty.
  destruct (decide (is_Some None)) as [[? ?]|_]; [done|]. by rewrite IH.
Qed.

Lemma header_text kvs : concat (concat (map (fun kv : bytes * list bytes => field_pieces kv.1 kv.2) kvs)) =
  concat (map encode_field (concat (map (fun kv => map (fun v => (kv.1, v)) kv.2) kvs))).
Proof.
  induction kvs as [|[k vs] kvs IH]; [done|]. cbn [map concat fst snd]. rewrite concat_app, map_app, concat_app, IH, field_pieces_text. done.
Qed.

(** A head is a status line and fields. *)
Lemma head_text s : announced s = ∅ -> 100 <= r_statusCode s < 1000 ->
  head_of iter now req s =
    q_Proto req ++ [SP] ++ FormatUint (r_statusCode s) 10 ++ [SP] ++ r_status s ++ crlf ++ concat (map encode_field (fields s)) ++ crlf.
Proof.
  intros Ha Hc. unfold head_of, head_loop. rewrite Ha, header_loop_plain. cbn [fst snd]. rewrite !concat_app, header_text.
  unfold status_pieces. cbn [concat]. rewrite <- (code_digits _ Hc), !app_nil_r.
  assert (concat (fixed_pieces now req s) ++ concat (map encode_field (concat (map (fun kv => map (fun v => (kv.1, v)) kv.2) (iter (r_header s)))))
    = concat (map encode_field (fields s))) as E.
  { unfold fields, fixed_pieces, length_fields, length_pieces. rewrite !map_app, !concat_app.
    repeat rewrite <- app_assoc. f_equal; [by destruct (_ && _)|]. f_equal.
    { destruct (_ && _); [|done]. destruct (r_hasBody s); cbn [negb]; [|done]. destruct (0 <? _); [|done]. cbn [concat map]. unfold encode_field. cbn [fst snd].
      rewrite <- !app_assoc. by rewrite !app_nil_r. }
    f_equal; [by destruct (_ && _)|]. f_equal. destruct (_ =? _); [|done]. cbn [concat map]. by rewrite date_line_field. }
  rewrite (app_assoc (concat (fixed_pieces now req s))), E. rewrite <- !app_assoc. reflexivity.
Qed.

(** [describes s ops r]: the writes of a handler on the response [s] make up the
    wire form of [r]; in the three framings. *)
Inductive describes (s : Response A) (ops : list resp_op) : wire_response -> Prop :=
| DescribesChunks before after :
    let s1 := first_state StatusText req (opens_with_body ops) s in
    r_chunked (checkChunked req (WriteHeader StatusText 200 s)) = true ->
    fits (len (head_of iter now req s1)) ops = true ->
    announced s1 = ∅ -> 100 <= r_statusCode s1 < 1000 ->
    fields s1 = before ++ [(transferEncodingHeader, str "chunked")] ++ after ->
    describes s ops (ParserResponse.MkResponse (q_Proto req) (r_statusCode s1) (r_status s1) before (Chunks (writes ops)) after)
| DescribesLength n before after :
    let s1 := first_state StatusText req (opens_with_body ops) s in
    r_chunked (checkChunked req (WriteHeader StatusText 200 s)) = false -> declares n (checkChunked req (WriteHeader StatusText 200 s)) ->
    len (accepted n 0 ops) = n ->
    announced s1 = ∅ -> 100 <= r_statusCode s1 < 1000 ->
    fields s1 = before ++ [(contentLengthHeader, FormatUint n 10)] ++ after ->
    describes s ops (ParserResponse.MkResponse (q_Proto req) (r_statusCode s1) (r_status s1) before (Fixed (accepted n 0 ops)) after)
| DescribesPlain ds before after :
    let body := concat ds in
    let s0 := checkChunked req (WriteHeader StatusText 200 s) in
    let s1 := if bool_decide (body = []) then s0 else set_bodyBuffer (Some (MkBuf 0 body (len body))) (set_hasBody s0) in
    r_chunked s0 = false -> r_contentLen s <= 0 -> r_hasBody s = false -> r_header s0 !! contentLengthHeader = None -> ops = map HWrite ds ->
    announced s1 = ∅ -> 100 <= r_statusCode s1 < 1000 ->
    fields s1 = before ++ [(contentLengthHeader, FormatUint (len body) 10)] ++ after ->
    describes s ops (ParserResponse.MkResponse (q_Proto req) (r_statusCode s1) (r_status s1) before (Fixed body) after).

Lemma describes_answer s ops r : iter_trailer ∅ = [] -> describes s ops r ->
  answer StatusText iter iter_trailer now req s ops (encode_response r).
Proof.
  intros Hit [before after s1 Hc Hf Ha Hcode Hfs|n before after s1 Hc Hd Hl Ha Hcode Hfs|
    ds before after body s0 s1 Hc Hl Hb Hn Hops Ha Hcode Hfs].
  - pose proof (AnswerChunks StatusText iter iter_trailer now req s ops Hc Hf) as H. fold s1 in H.
    rewrite (head_text s1 Ha Hcode) in H. unfold head_loop in H. rewrite Ha, header_loop_plain in H. cbn [fst snd] in H.
    assert (trailer_bytes iter_trailer ∅ = []) as Ht by (unfold trailer_bytes, trailer_pieces; by rewrite Hit).
    rewrite Ht, Hfs in H. unfold encode_response, response_fields. cbn [s_proto s_code s_text s_before s_body s_after framing_fields encode_body].
    rewrite <- !app_assoc in H. exact H.
  - pose proof (AnswerLength StatusText iter iter_trailer now req s ops n Hc Hd) as H. fold s1 in H.
    rewrite (head_text s1 Ha Hcode), Hfs in H. unfold encode_response, response_fields.
    cbn [s_proto s_code s_text s_before s_body s_after framing_fields encode_body]. rewrite Hl, <- !app_assoc in *. exact H.
  - pose proof (AnswerPlain StatusText iter iter_trailer now req s ops ds Hc Hl Hb Hn Hops) as H. unfold plain_head in H. fold body in H.
    fold s0 in H. fold s1 in H. rewrite (head_text s1 Ha Hcode), Hfs in H. unfold encode_response, response_fields.
    cbn [s_proto s_code s_text s_before s_body s_after framing_fields encode_body]. rewrite <- !app_assoc in *. exact H.
Qed.
End head.

(** ** The exchange *)

Section exchange.
(** The server. *)
Context {A : Type} `{!Allocator A} `{!AllocatorLaws A}.
Context (StatusText : Z -> bytes) (iter : Header -> list (bytes * list bytes)).
Context (iter_trailer : gmap bytes bytes -> list (bytes * bytes)) (now : utc).
Context (Hok : StatusText 200 <> []) (Hit : iter_trailer ∅ = []).
Context (conf : sconf) (Hretain : c_RetainHTTPBody conf = false).
Context (reads : http_request A -> list nat) (plan : http_request A -> list (bytes * option body_err) -> answer_plan).
Context (parse_other : bytes -> option url).

(** The client, with an allocator of its own. *)
Context {B : Type} `{!Allocator B} `{!AllocatorLaws B} (cconf : sconf).

(** Readers that take over after an upgrade, on both sides. *)
Context {C : Type} `{!ParserCloser C} `{!ParserCloserLaws C} (bound : Z).

End exchange.

(** ** A run *)

Section witness.
#[local] Instance exchange_allocator : Allocator aligned := aligned_allocator (fun _ => Some 0%nat).
#[local] Instance exchange_laws : AllocatorLaws aligned := aligned_laws (fun _ => Some 0%nat).

(** The answer of [demo_plan]: the target of the request and its body, in chunks. *)
Definition demo_response (r : request) : wire_response :=
  let b := payload (r_body r) in
  ParserResponse.MkResponse (str "HTTP/1.1") (if bool_decide (b = []) then 200 else 404) (if bool_decide (b = []) then str "OK" else str "Not Found")
    ([(str "Content-Type", str "text/plain; charset=utf-8")] ++
     (if closes r then [(str "Connection", str "close")] else []) ++
     [(str "Date", str "Thu, 29 Feb 2024 12:30:05 GMT")])
    (Chunks (r_uri r :: if bool_decide (b = []) then [] else [b])) [].

Lemma demo_describes r q :
  r ∈ demo_requests -> received demo_conf no_other r q ->
  let p := demo_plan q (got demo_conf demo_body_reads q) in
  describes demo_text demo_iter demo_now (response_info q) (begin demo_text p (NewResponse newAligned)) p.2 (demo_response r).
Proof.
  intros Hr Hq. pose proof (demo_got r q Hr Hq) as Hg. unfold demo_plan. rewrite Hg. clear Hg.
  destruct Hq as (u & x & y & b & Eu & Ev & -> & _). unfold demo_requests in Hr. rewrite !elem_of_cons in Hr.
  destruct Hr as [-> |[-> |Hr]]; [| |by apply elem_of_nil in Hr]; injection Ev as <- <-.
  all: match goal with |- describes ?st ?it ?n ?info ?s ?ops ?r =>
    refine (DescribesChunks st it n info s ops (s_before r) [] _ _ _ _ _); vm_compute; try reflexivity; try (split; [discriminate|reflexivity]) end.
Qed.

End witness.
