(* ===== verification/ResponseFile.v ===== *)
(** * A response copied from a reader (src/nbhttp/response.go)

    [ReadFrom], which [io.Copy] and the file server of net/http use: the head, then
    the file with [Sendfile] where the connection has it, or the reader's pieces
    one by one. *)

From Stdlib Require Import ZArith Lia.
From Stdlib Require Import Strings.Byte Strings.String.
From stdpp Require Import base numbers list list_numbers gmap.
From S2P Require Import Prelude GoLib Table Parser Mempool MempoolFacts MempoolProps Response ResponseProps.

Open Scope Z_scope.

(** What is read from: the count of an [io.LimitedReader] around it, whether the
    inner reader is a file, and what its reads give. *)
Record source := MkSource { so_limit : option Z; so_isFile : bool; so_reads : list bytes }.

(** The reads through an [io.LimitedReader]. *)
Fixpoint limited (n : Z) (rs : list bytes) : list bytes :=
  match rs with
  | [] => []
  | r :: rs => if n <=? 0 then [] else if len r <=? n then r :: limited (n - len r) rs else [take (Z.to_nat n) r]
  end.

Definition reads (src : source) : list bytes :=
  match so_limit src with Some n => limited n (so_reads src) | None => so_reads src end.

(** The bytes to be sent. *)
Definition content (src : source) : bytes :=
  match so_limit src with Some n => take (Z.to_nat n) (concat (so_reads src)) | None => concat (so_reads src) end.

Section readfrom.
Context {A : Type} `{!Allocator A}.
Context (iter : Header -> list (bytes * list bytes)) (now : utc) (conn_fail : list bytes -> bytes -> option (Z * Z)).
Context (req : req_info) (DisableSendfile hasSendfile : bool).

(** [io.Copy] to the connection. *)
Fixpoint copy (rs : list bytes) (written : Z) (s : Response A) : Z * option resp_err * Response A :=
  match rs with
  | [] => (written, None, s)
  | r :: rs =>
      if len r =? 0 then copy rs written s
      else
        let '(n, err, s) := conn_Write conn_fail r s in
        match err with
        | Some e => (written + n, Some e, s)
        | None => copy rs (written + n) s
        end
  end.

(** [Sendfile] with a count of 0 sends what is left of the file. *)
Definition sendfile (src : source) (remain : Z) (s : Response A) : Z * option resp_err * Response A :=
  let file := concat (so_reads src) in
  conn_Write conn_fail (if 0 <? remain then take (Z.to_nat remain) file else file) s.

(** The body, behind the head. *)
Definition send_source (src : source) (s : Response A) : Z * option resp_err * Response A :=
  let remain := default 0 (so_limit src) in
  if negb DisableSendfile then
    if bool_decide (is_Some (so_limit src)) && (remain <=? 0) then (0, None, s)
    else if so_isFile src && hasSendfile then sendfile src remain s
    else copy (reads src) 0 s
  else copy (reads src) 0 s.

(** The dereference of [res.buffer] panics once the head was sent. *)
Definition ReadFrom (src : source) (s : Response A) : option (Z * option resp_err * Response A) :=
  let s := set_hasBody s in
  s ← eoncodeHead iter now req s;
  p ← r_buffer s;
  let '(_, err, s) := conn_Write conn_fail (data p) s in
  s ← pool_free p s;
  let s := set_buffer None s in
  match err with
  | Some e => Some (0, Some e, s)
  | None => Some (send_source src s)
  end.
End readfrom.

(** ** Theorems *)

Lemma limited_concat rs : forall n, concat (limited n rs) = take (Z.to_nat n) (concat rs).
Proof.
  induction rs as [|r rs IH]; intros n; cbn [limited concat]; [by rewrite take_nil|].
  destruct (Z.leb_spec n 0) as [Hn|Hn]; [by replace (Z.to_nat n) with O by lia|].
  rewrite take_app. destruct (Z.leb_spec (len r) n) as [Hl|Hl]; unfold len in *.
  - cbn [concat]. rewrite IH, (take_ge r) by lia. f_equal. f_equal. lia.
  - cbn [concat]. replace (Z.to_nat n - length r)%nat with O by lia. by rewrite take_0.
Qed.

Lemma reads_content src : concat (reads src) = content src.
Proof. unfold reads, content. destruct (so_limit src); [apply limited_concat|done]. Qed.

Section sent.
Context {A : Type} `{!Allocator A} `{!AllocatorLaws A}.
Context (StatusText : Z -> bytes) (iter : Header -> list (bytes * list bytes)).
Context (iter_trailer : gmap bytes bytes -> list (bytes * bytes)) (now : utc) (req : req_info).

Lemma set_wire_same (s : Response A) : set_wire (r_wire s) s = s.
Proof. by destruct s. Qed.

Lemma copy_up rs : forall w (s : Response A), exists ps,
  copy conn_up rs w s = (w + len (concat rs), None, set_wire (r_wire s ++ ps) s) /\ concat ps = concat rs.
Proof.
  induction rs as [|r rs IH]; intros w s; cbn [copy concat].
  - exists []. rewrite app_nil_r. split; [|done]. unfold len. cbn. by rewrite Z.add_0_r, set_wire_same.
  - destruct (Z.eqb_spec (len r) 0) as [Hz|Hz].
    + apply ResponseProps.len_zero in Hz as ->. cbn [app]. apply IH.
    + rewrite conn_up_write. destruct (IH (w + len r) (set_wire (r_wire s ++ [r]) s)) as (ps & -> & Hps).
      exists (r :: ps). cbn [concat]. rewrite Hps. split; [|done]. unfold len. rewrite length_app, Nat2Z.inj_add, Z.add_assoc.
      cbn. by rewrite <- app_assoc.
Qed.

Lemma send_source_up dis has src (s : Response A) : exists ps,
  send_source conn_up dis has src s = (len (content src), None, set_wire (r_wire s ++ ps) s) /\ concat ps = content src.
Proof.
  assert (exists ps, copy conn_up (reads src) 0 s = (len (content src), None, set_wire (r_wire s ++ ps) s) /\ concat ps = content src) as Hcopy.
  { destruct (copy_up (reads src) 0 s) as (ps & -> & Hps). rewrite reads_content in *. by exists ps. }
  unfold send_source. destruct dis; [exact Hcopy|]. cbn [negb]. destruct (so_limit src) as [n|] eqn:El; cbn [default].
  - rewrite bool_decide_eq_true_2 by (by eexists). cbn [andb]. unfold id. destruct (Z.leb_spec n 0) as [Hn|Hn].
    + exists []. unfold content. rewrite El. replace (Z.to_nat n) with O by lia. by rewrite take_0, app_nil_r, set_wire_same.
    + destruct (so_isFile src && has); [|exact Hcopy]. unfold sendfile. rewrite (proj2 (Z.ltb_lt 0 n) Hn), conn_up_write.
      exists [content src]. unfold content. rewrite El. cbn [concat]. by rewrite app_nil_r.
  - rewrite bool_decide_eq_false_2 by (by intros []). cbn [andb]. destruct (so_isFile src && has); [|exact Hcopy].
    unfold sendfile. cbn [Z.ltb Z.compare]. rewrite conn_up_write. exists [content src]. unfold content. rewrite El. cbn [concat]. by rewrite app_nil_r.
Qed.

(** The response of a handler that set a status and the length of the body, over a
    connection that takes everything: the head and the bytes asked for, by
    [Sendfile] or piece by piece, and nothing from the end of the handler; the
    buffer of the head goes back. *)
Lemma file_sent (dis has : bool) (src : source) (s : Response A) (live : gset nat) :
  unsent s live -> r_statusCode s <> 0 -> r_chunked s = false -> r_chunked (checkChunked req s) = false ->
  exists s1 s2, ReadFrom iter now conn_up req dis has src s = Some (len (content src), None, s1) /\
    finish StatusText iter iter_trailer now conn_up req s1 = Some (None, s2) /\
    concat (r_wire s2) = head_of iter now req (set_hasBody s) ++ content src /\ alloc_inv (r_alloc s2) live.
Proof.
  intros [U1 U2 U3 U4 U5 U6 U7] Hst Hch Hck. unfold ReadFrom.
  destruct (encode_ok iter now req (set_hasBody s) live U1 U7) as (p & a & -> & Hp & Dp). cbn [mbind option_bind].
  change (r_buffer (encoded iter (set_hasBody s) p a)) with (Some p). cbn [mbind option_bind].
  rewrite conn_up_write, Dp.
  destruct (pool_free_ok p (set_wire (r_wire (encoded iter (set_hasBody s) p a) ++ [head_of iter now req (set_hasBody s)])
    (encoded iter (set_hasBody s) p a)) live Hp) as (a' & -> & Ha'). cbn [mbind option_bind].
  set (s0 := set_buffer None _).
  assert (r_wire s0 = [head_of iter now req (set_hasBody s)]) as W0 by (cbn; by rewrite U5).
  destruct (send_source_up dis has src s0) as (ps & E & Hps).
  rewrite E. set (s1 := set_wire _ s0). 
  assert (r_statusCode s1 = r_statusCode s) as S1 by done. assert (r_hijacked s1 = r_hijacked s) as S2 by done.
  assert (r_chunked (checkChunked req s1) = false) as Hc1.
  { unfold checkChunked in *. change (r_chunkChecked s1) with (r_chunkChecked s). change (r_header s1) with (r_header s). rewrite S1.
    destruct (r_chunkChecked s); [exact Hch|]. destruct (existsb _ _); [done|]. 
    change (r_chunked (set_chunks ?c ?k s1)) with c. change (r_chunked (set_chunks ?c ?k s)) with c in Hck.
    change (r_chunked s1) with (r_chunked s).
    destruct (q_atLeast11 req && _ && _ && _ || _ || r_chunked s); [by cbn in Hck|done]. }
  exists s1. unfold finish. rewrite S2, U2. unfold WriteHeader. rewrite S2, U2, S1, (proj2 (Z.eqb_neq _ _) Hst). cbn [negb andb].
  pose proof (checkChunked_rest req s1) as [R1 R2 R3 R4 R5 R6 R7 R8 R9 R10].
  rewrite encode_done by (by rewrite R2). cbn [mbind option_bind]. unfold Response.flush. rewrite Hc1.
  unfold flush_plain. rewrite R4. cbn [r_buffer s1 s0 set_wire set_buffer mbind option_bind]. rewrite R5.
  change (r_bodyBuffer s1) with (r_bodyBuffer s). rewrite U4. eexists. split; [done|]. split; [done|].
  rewrite R6, R10. split; [|exact Ha']. change (r_wire s1) with (r_wire s0 ++ ps). rewrite W0. cbn [app concat]. by rewrite Hps.
Qed.
End sent.

(** ** A run, and what goes wrong without a status *)

Section witness.
#[local] Instance file_allocator : Allocator aligned := aligned_allocator (fun _ => Some 0%nat).

Definition demo_file : source := MkSource None true [str "hello "; str "file"].

Definition copied (h : Header) (status : Z) : option (bytes * bytes) :=
  '(_, s) ← '(_, _, s) ← ReadFrom demo_iter demo_now conn_up req11 false true demo_file
            (let s := demo_response h in if status =? 0 then s else WriteHeader demo_text status s);
       finish demo_text demo_iter demo_iter_trailer demo_now conn_up req11 s;
  Some (take 15 (concat (r_wire s)), drop (length (concat (r_wire s)) - 15) (concat (r_wire s))).

Example file_served :
  copied {[contentLengthHeader := [str "10"]]} 200 = Some (str "HTTP/1.1 200 OK", str "0" ++ [CR; LF; CR; LF] ++ str "hello file").
Proof. vm_compute. reflexivity. Qed.

(** A handler that only copies a file to its response: the status line has no
    status, the head declares a body of 0 bytes, and the end of a chunked body
    follows the file. *)
Lemma bare_copy_broken : copied ∅ 0 = Some (str "HTTP/1.1 000 " ++ [CR; LF], str "hello file0" ++ [CR; LF; CR; LF]).
Proof. vm_compute. reflexivity. Qed.

(** Copying a second time panics: the buffer of the head is gone. *)
Lemma second_copy_panics : exists n e s, ReadFrom demo_iter demo_now conn_up req11 false true demo_file (demo_response ∅) = Some (n, e, s) /\
  ReadFrom demo_iter demo_now conn_up req11 false true demo_file s = None.
Proof. eexists _, _, _. split; [vm_compute; reflexivity|]. vm_compute. reflexivity. Qed.
End witness.
