(* ===== verification/StdConn.v ===== *)
(** * The portable connection and poller (src/conn_std.go, src/poller_std.go)

    Where there is no event queue, a connection wraps a connection of package net
    and a goroutine of its own reads it.  A connection is a number; the state has
    every connection made, the table [connsStd] of the engine and the calls of its
    handlers.  What the network gives is an argument of the operations.  [None] is
    a panic. *)

From Stdlib Require Import ZArith Lia.
From Stdlib Require Import Strings.Byte Strings.String.
From stdpp Require Import base numbers list list_numbers gmap.
From S2P Require Import Prelude Mempool NbConn.

Open Scope Z_scope.

Module Std.

Inductive std_err := EOF | ErrReadTimeout | ErrInvalidUDP | ErrShortWrite | ErrNet (e : Z).

(** [cn_added]: [c.p] is set.  [cn_parent]: the server of a session, and the
    address of the peer; [cn_conns]: the sessions of a server, [None] for the nil
    map.  [cn_reading]: the goroutine of [readConn] runs. *)
Record conn := Mk {
  cn_typ : conn_type;
  cn_hash : Z;
  cn_added : bool;
  cn_closed : bool;
  cn_closeErr : option std_err;
  cn_rTimer : option Z;
  cn_cache : option bytes;
  cn_parent : option (nat * bytes);
  cn_conns : option (gmap bytes nat);
  cn_reading : bool
}.

(** Calls of the handlers. *)
Inductive call :=
| OnOpen (c : nat) | OnUDPListen (c : nat) | OnData (c : nat) (b : bytes) | OnRead (c : nat)
| OnWrittenSize (c : nat) (b : bytes) (n : Z) | OnClose (c : nat) (err : option std_err).

(** [w_shut]: the sockets closed, by the connection that owns them. *)
Record world := MkWorld { w_conns : list conn; connsStd : gset nat; w_calls : list call; w_shut : list nat }.

Definition empty_world : world := MkWorld [] ∅ [] [].

Definition set_conn (c : nat) (x : conn) (w : world) : world := MkWorld (<[c := x]> (w_conns w)) (connsStd w) (w_calls w) (w_shut w).
Definition set_std (t : gset nat) (w : world) : world := MkWorld (w_conns w) t (w_calls w) (w_shut w).
Definition add_call (k : call) (w : world) : world := MkWorld (w_conns w) (connsStd w) (w_calls w ++ [k]) (w_shut w).
Definition shut (c : nat) (w : world) : world := MkWorld (w_conns w) (connsStd w) (w_calls w) (w_shut w ++ [c]).

Definition set_closed (x : conn) : conn :=
  Mk (cn_typ x) (cn_hash x) (cn_added x) true (cn_closeErr x) None (cn_cache x) (cn_parent x) (cn_conns x) (cn_reading x).
Definition set_added (x : conn) : conn :=
  Mk (cn_typ x) (cn_hash x) true (cn_closed x) (cn_closeErr x) (cn_rTimer x) (cn_cache x) (cn_parent x) (cn_conns x) (cn_reading x).
Definition set_timer (t : option Z) (x : conn) : conn :=
  Mk (cn_typ x) (cn_hash x) (cn_added x) (cn_closed x) (cn_closeErr x) t (cn_cache x) (cn_parent x) (cn_conns x) (cn_reading x).
Definition set_cache (b : option bytes) (x : conn) : conn :=
  Mk (cn_typ x) (cn_hash x) (cn_added x) (cn_closed x) (cn_closeErr x) (cn_rTimer x) b (cn_parent x) (cn_conns x) (cn_reading x).
Definition set_conns (m : option (gmap bytes nat)) (x : conn) : conn :=
  Mk (cn_typ x) (cn_hash x) (cn_added x) (cn_closed x) (cn_closeErr x) (cn_rTimer x) (cn_cache x) (cn_parent x) m (cn_reading x).
Definition set_reading (b : bool) (x : conn) : conn :=
  Mk (cn_typ x) (cn_hash x) (cn_added x) (cn_closed x) (cn_closeErr x) (cn_rTimer x) (cn_cache x) (cn_parent x) (cn_conns x) b.

(** [if c.closeErr == nil { c.closeErr = err }] *)
Definition note_err (e : option std_err) (x : conn) : conn :=
  match cn_closeErr x with
  | None => Mk (cn_typ x) (cn_hash x) (cn_added x) (cn_closed x) e (cn_rTimer x) (cn_cache x) (cn_parent x) (cn_conns x) (cn_reading x)
  | Some _ => x
  end.

(** ** Making a connection *)

(** [c.hash = 31*c.hash + int(ch)] over an address, in 64 bits, then its absolute
    value, which the least integer does not have. *)
Definition wrap64 (z : Z) : Z := (z + 2 ^ 63) mod 2 ^ 64 - 2 ^ 63.
Definition hash_of (addr : bytes) : Z :=
  let h := foldl (fun h ch => wrap64 (31 * h + b2z ch)) 0 addr in
  if h <? 0 then wrap64 (- h) else h.

(** What is wrapped: a connection of package net, by its addresses; a UDP one has a
    remote address when it was dialed. *)
Inductive netconn := NetStream (local : bytes) | NetUDP (local : bytes) (remote : option bytes).

Definition newConn (nc : netconn) : conn :=
  let base t h m := Mk t h false false None None None None m false in
  match nc with
  | NetUDP local None => base ConnTypeUDPServer (hash_of local) (Some ∅)
  | NetUDP local (Some r) => base ConnTypeUDPClientFromDial (hash_of (local ++ r)) None
  | NetStream local => base ConnTypeTCP (hash_of local) None
  end.

(** [NBConn] of a connection that is not one of the engine's yet. *)
Definition NBConn (nc : netconn) (w : world) : nat * world :=
  (length (w_conns w), MkWorld (w_conns w ++ [newConn nc]) (connsStd w) (w_calls w) (w_shut w)).

Section engine.
(** The handlers set, and the timeout of UDP sessions. *)
Context (hasOnRead hasOnWrittenSize : bool) (UDPReadTimeout : Z).

(** ** Poller *)

Definition addConn (c : nat) (w : world) : option world :=
  x ← w_conns w !! c;
  let w := set_std ({[c]} ∪ connsStd w) (set_conn c (set_added x) w) in
  let w := add_call (if bool_decide (cn_typ x = ConnTypeUDPServer) then OnUDPListen c else OnOpen c) w in
  Some (if bool_decide (cn_typ x = ConnTypeUDPClientFromRead) then w else set_conn c (set_reading true (set_added x)) w).

Definition addDialer (c : nat) (w : world) : option world :=
  x ← w_conns w !! c;
  Some (set_std ({[c]} ∪ connsStd w) (set_conn c (set_reading true (set_added x)) w)).

Definition deleteConn (c : nat) (w : world) : option world :=
  x ← w_conns w !! c;
  let w := set_std (connsStd w ∖ {[c]}) w in
  Some (if bool_decide (cn_typ x = ConnTypeUDPServer) then w else add_call (OnClose c (cn_closeErr x)) w).

(** ** Closing *)

(** A session: it leaves the map of its server. *)
Definition close_session (c : nat) (w : world) : option world :=
  x ← w_conns w !! c;
  if cn_closed x then Some w
  else
    let w := set_conn c (set_closed x) w in
    w ← match cn_parent x with
        | Some (s, addr) => y ← w_conns w !! s; Some (set_conn s (set_conns (delete addr <$> cn_conns y) y) w)
        | None => None
        end;
    if cn_added x then deleteConn c w else None.

Fixpoint close_sessions (cs : list nat) (w : world) : option world :=
  match cs with
  | [] => Some w
  | c :: cs => w ← close_session c w; close_sessions cs w
  end.

(** [udpConn.Close] of a socket: its sessions are closed with it. *)
Definition close_udp (c : nat) (x : conn) (w : world) : option world :=
  w ← close_sessions ((map_to_list (default ∅ (cn_conns x))).*2) (shut c w);
  y ← w_conns w !! c;
  Some (set_conn c (set_conns None y) w).

Definition Close (c : nat) (w : world) : option world :=
  x ← w_conns w !! c;
  if cn_closed x then Some w
  else
    match cn_typ x with
    | ConnTypeUDPClientFromRead => close_session c w
    | t =>
        let w := set_conn c (set_closed x) w in
        w ← match t with
            | ConnTypeTCP => Some (shut c w)
            | ConnTypeUDPServer | ConnTypeUDPClientFromDial => close_udp c x w
            | _ => Some w
            end;
        if cn_added x then deleteConn c w else None
    end.

Definition CloseWithError (e : std_err) (c : nat) (w : world) : option world :=
  x ← w_conns w !! c;
  Close c (set_conn c (note_err (Some e) x) w).

(** ** Reading *)

(** A read of the socket: the bytes, the address of a datagram, the error. *)
Record input := MkInput { in_data : bytes; in_addr : bytes; in_err : option std_err }.

(** [Read]: from the cache where there is one, [io.EOF] when it is empty, else from
    the socket. *)
Definition Read (n : nat) (i : input) (c : nat) (w : world) : option (bytes * option std_err * world) :=
  x ← w_conns w !! c;
  match cn_closeErr x with
  | Some e => Some ([], Some e, w)
  | None =>
      let '(b, err, x) :=
        match cn_cache x with
        | Some d => if bool_decide (d = []) then ([], if (n =? 0)%nat then None else Some EOF, set_cache (Some []) x)
                    else (take n d, None, set_cache (Some (drop n d)) x)
        | None => (in_data i, in_err i, x)
        end in
      Some (b, err, set_conn c (note_err err x) w)
  end.

(** What was read goes to the handler of [c]. *)
Definition hand_over (b : bytes) (c : nat) (w : world) : option world :=
  x ← w_conns w !! c;
  if hasOnRead then
    let w := if 0 <? len b then set_conn c (set_cache (Some (default [] (cn_cache x) ++ b)) x) w else w in
    Some (add_call (OnRead c) w)
  else Some (if 0 <? len b then add_call (OnData c b) w else w).

Definition readTCP (i : input) (c : nat) (w : world) : option (option std_err * world) :=
  x ← w_conns w !! c;
  w ← hand_over (in_data i) c (set_conn c (note_err (in_err i) x) w);
  Some (if hasOnRead then None else in_err i, w).

(** The session of an address, made when there is none; [local] is the address of
    the server.  The nil map takes no entry. *)
Definition getConn (local addr : bytes) (s : nat) (w : world) : option (nat * bool * world) :=
  y ← w_conns w !! s;
  match cn_conns y ≫= lookup addr with
  | Some c => Some (c, true, w)
  | None =>
      let c := length (w_conns w) in
      let x := Mk ConnTypeUDPClientFromRead (hash_of (local ++ addr)) true false None None None (Some (s, addr)) None false in
      m ← cn_conns y;
      Some (c, false, set_conn s (set_conns (Some (<[addr := c]> m)) y)
                        (MkWorld (w_conns w ++ [x]) (connsStd w) (w_calls w) (w_shut w)))
  end.

Definition SetReadDeadline (t : Z) (c : nat) (w : world) : option world :=
  x ← w_conns w !! c;
  Some (if bool_decide (cn_typ x = ConnTypeTCP) then w else set_conn c (set_timer (Some t) x) w).

Definition readUDP (local : bytes) (now : Z) (i : input) (c : nat) (w : world) : option (option std_err * world) :=
  x ← w_conns w !! c;
  let w := set_conn c (note_err (in_err i) x) w in
  match in_err i with
  | Some e => Some (Some e, w)
  | None =>
      '(dst, w) ←
        (if bool_decide (cn_typ x = ConnTypeUDPServer) then
           '(uc, ok, w) ← getConn local (in_addr i) c w;
           w ← (if 0 <? UDPReadTimeout then SetReadDeadline (now + UDPReadTimeout) uc w else Some w);
           w ← (if (ok : bool) then Some w else addConn uc w);
           Some (uc, w)
         else Some (c, w));
      w ← hand_over (in_data i) dst w;
      Some (None, w)
  end.

Definition read (local : bytes) (now : Z) (i : input) (c : nat) (w : world) : option (option std_err * world) :=
  x ← w_conns w !! c;
  match cn_typ x with
  | ConnTypeTCP => readTCP i c w
  | ConnTypeUDPServer | ConnTypeUDPClientFromDial => readUDP local now i c w
  | ConnTypeUDPClientFromRead => Some (Some ErrInvalidUDP, w)
  | ConnTypeUnix => Some (None, w)
  end.

(** One round of the loop of [readConn], which ends with the first error. *)
Definition readConn (local : bytes) (now : Z) (i : input) (c : nat) (w : world) : option world :=
  '(err, w) ← read local now i c w;
  match err with
  | Some _ => w ← Close c w; x ← w_conns w !! c; Some (set_conn c (set_reading false x) w)
  | None => Some w
  end.

(** ** Writing *)

(** [writeTCP], [writeUDPClientFromDial] and [writeUDPClientFromRead], which differ
    in the call of package net only: what it returns is [(n, err)]. *)
Definition write_net (n : Z) (err : option std_err) (c : nat) (w : world) : option (Z * option std_err * world) :=
  match err with
  | Some e => w ← CloseWithError e c w; Some (n, err, w)
  | None => Some (n, None, w)
  end.

Definition Write (b : bytes) (n : Z) (err : option std_err) (c : nat) (w : world) : option (Z * option std_err * world) :=
  x ← w_conns w !! c;
  '(n, err, w) ← match cn_typ x with
                 | ConnTypeUDPServer | ConnTypeUnix => Some (0, None, w)
                 | _ => write_net n err c w
                 end;
  if cn_added x then
    Some (n, err, if hasOnWrittenSize && (0 <? n) then add_call (OnWrittenSize c (take (Z.to_nat n) b) n) w else w)
  else None.

(** What [net.Buffers.WriteTo] leaves in the slice it was given. *)
Fixpoint consume (n : Z) (bs : list bytes) : list bytes :=
  match bs with
  | [] => []
  | b :: bs => if n <? len b then drop (Z.to_nat n) b :: bs else [] :: consume (n - len b) bs
  end.

(** The loop that reports, over what is left of its argument. *)
Fixpoint report_all (bs : list bytes) (total : Z) (c : nat) (w : world) : option world :=
  if 0 <? total then
    match bs with
    | [] => None
    | b :: bs =>
        if total <=? len b then Some (add_call (OnWrittenSize c (take (Z.to_nat total) b) total) w)
        else report_all bs (total - len b) c (add_call (OnWrittenSize c b (len b)) w)
    end
  else Some w.

(** Over a UDP connection each buffer is written on its own. *)
Fixpoint writev_udp (bs : list (bytes * Z * option std_err)) (total : Z) (c : nat) (w : world)
    : option (Z * option std_err * world) :=
  match bs with
  | [] => Some (total, None, w)
  | (b, n, err) :: bs =>
      '(n, err, w) ← Write b n err c w;
      let total := if 0 <? n then total + n else total in
      let w := if hasOnWrittenSize && (0 <? n) then add_call (OnWrittenSize c (take (Z.to_nat n) b) n) w else w in
      match err with
      | Some e => w ← CloseWithError e c w; Some (total, err, w)
      | None => writev_udp bs total c w
      end
  end.

(** [bs]: the buffers, with what writing each on its own returns; [n] and [err]:
    what writing them together returns. *)
Definition Writev (bs : list (bytes * Z * option std_err)) (n : Z) (err : option std_err) (c : nat) (w : world)
    : option (Z * option std_err * world) :=
  x ← w_conns w !! c;
  if bool_decide (cn_typ x = ConnTypeTCP) then
    w ← match err with Some e => CloseWithError e c w | None => Some w end;
    if cn_added x then
      w ← (if hasOnWrittenSize && (0 <? n) then report_all (consume n (map (fun bne => bne.1.1) bs)) n c w else Some w);
      Some (n, err, w)
    else None
  else writev_udp bs 0 c w.

(** ** The engine's goroutines *)

(** Connections accepted and dialed, and added at once, the rounds of their
    readers, writes, [Close] and timers, in any order. *)
Inductive label :=
| LAccept (nc : netconn)
| LDial (nc : netconn)
| LRead (c : nat) (local : bytes) (now : Z) (i : input)
| LWrite (c : nat) (b : bytes) (n : Z) (err : option std_err)
| LWritev (c : nat) (bs : list (bytes * Z * option std_err)) (n : Z) (err : option std_err)
| LClose (c : nat)
| LTimer (c : nat).

(** [None] is a panic; a step that cannot be taken changes nothing. *)
Definition exec (l : label) (w : world) : option world :=
  match l with
  | LAccept nc => let '(c, w) := NBConn nc w in addConn c w
  | LDial nc => let '(c, w) := NBConn nc w in addDialer c w
  | LRead c local now i =>
      match w_conns w !! c with
      | Some x => if cn_reading x then readConn local now i c w else Some w
      | None => Some w
      end
  | LWrite c b n err =>
      match w_conns w !! c with Some _ => '(_, _, w) ← Write b n err c w; Some w | None => Some w end
  | LWritev c bs n err =>
      match w_conns w !! c with Some _ => '(_, _, w) ← Writev bs n err c w; Some w | None => Some w end
  | LClose c => match w_conns w !! c with Some _ => Close c w | None => Some w end
  | LTimer c =>
      match w_conns w !! c with
      | Some x => if bool_decide (is_Some (cn_rTimer x)) then CloseWithError ErrReadTimeout c w else Some w
      | None => Some w
      end
  end.

Fixpoint run (ls : list label) (w : world) : option world :=
  match ls with
  | [] => Some w
  | l :: ls => w ← exec l w; run ls w
  end.

(** The steps that do not panic: a read is not a datagram of a server that was
    closed since it arrived, and [Writev] over TCP, when it has written something,
    does not report to a handler of [OnWrittenSize]. *)
Definition readable (i : input) (x : conn) : bool :=
  cn_reading x && negb (bool_decide (cn_typ x = ConnTypeUDPServer) && cn_closed x && bool_decide (in_err i = None)).
Definition reports (n : Z) (x : conn) : bool := bool_decide (cn_typ x = ConnTypeTCP) && hasOnWrittenSize && (0 <? n).

Definition safe (l : label) (w : world) : bool :=
  match l with
  | LRead c _ _ i => match w_conns w !! c with Some x => negb (cn_reading x) || readable i x | None => true end
  | LWritev c _ n _ => match w_conns w !! c with Some x => negb (reports n x) | None => true end
  | _ => true
  end.
Fixpoint all_safe (ls : list label) (w : world) : bool :=
  match ls with
  | [] => true
  | l :: ls => safe l w && match exec l w with Some w => all_safe ls w | None => true end
  end.

(** ** The invariant *)

Definition closes_of (c : nat) (ks : list call) : list (option std_err) :=
  omap (fun k => match k with OnClose c' e => if decide (c' = c) then Some e else None | _ => None end) ks.

Definition is_server (x : conn) : bool := bool_decide (cn_typ x = ConnTypeUDPServer).

(** [ex]: a server in the middle of its close. *)
Record inv (ex : option nat) (w : world) : Prop := {
  iv_added : forall c x, w_conns w !! c = Some x -> cn_added x = true;
  iv_typ : forall c x, w_conns w !! c = Some x -> cn_typ x <> ConnTypeUnix;
  iv_table : forall c, c ∈ connsStd w <-> exists x, w_conns w !! c = Some x /\ (cn_closed x = false \/ ex = Some c);
  iv_closes : forall c x, w_conns w !! c = Some x ->
    length (closes_of c (w_calls w)) = if cn_closed x && negb (is_server x) && bool_decide (ex <> Some c) then 1%nat else 0%nat;
  iv_new : forall c, w_conns w !! c = None -> closes_of c (w_calls w) = [];
  iv_map : forall s y m addr c, w_conns w !! s = Some y -> cn_conns y = Some m -> m !! addr = Some c ->
    exists x, w_conns w !! c = Some x /\ cn_typ x = ConnTypeUDPClientFromRead /\ cn_parent x = Some (s, addr) /\ cn_closed x = false;
  iv_session : forall c x, w_conns w !! c = Some x -> cn_typ x = ConnTypeUDPClientFromRead ->
    cn_reading x = false /\
    exists s addr y, cn_parent x = Some (s, addr) /\ w_conns w !! s = Some y /\ cn_typ y = ConnTypeUDPServer /\
      (cn_closed x = false -> exists m, cn_conns y = Some m /\ m !! addr = Some c);
  iv_server : forall s y, w_conns w !! s = Some y -> cn_typ y = ConnTypeUDPServer -> ex <> Some s ->
    (cn_closed y = false <-> is_Some (cn_conns y));
  iv_other : forall c x, w_conns w !! c = Some x -> cn_typ x <> ConnTypeUDPServer -> cn_conns x = None
}.

(** What a change of one connection must keep. *)
Definition alike (x x' : conn) : Prop :=
  cn_typ x' = cn_typ x /\ cn_added x' = cn_added x /\ cn_closed x' = cn_closed x /\ cn_parent x' = cn_parent x /\
  cn_conns x' = cn_conns x /\ (cn_reading x' = true -> cn_typ x <> ConnTypeUDPClientFromRead).

Lemma closes_app c ks ks' : closes_of c (ks ++ ks') = closes_of c ks ++ closes_of c ks'.
Proof. apply omap_app. Qed.

Lemma inv_empty : inv None empty_world.
Proof. split; cbn; try done. intros c. split; [set_solver|]. by intros (x & ? & _). Qed.

(** Changes that the invariant does not see. *)
Lemma inv_alike ex w c x x' ks : inv ex w -> w_conns w !! c = Some x -> alike x x' -> (forall c, closes_of c ks = []) ->
  inv ex (MkWorld (<[c := x']> (w_conns w)) (connsStd w) (w_calls w ++ ks) (w_shut w)).
Proof.
  intros [I1 I2 I3 I4 I5 I6 I7 I8 I9] Hc (A1 & A2 & A3 & A4 & A5 & A6) Hks.
  assert (c < length (w_conns w))%nat as Hlt by (by eapply lookup_lt_Some).
  assert (forall c' y, <[c := x']> (w_conns w) !! c' = Some y -> exists y0, w_conns w !! c' = Some y0 /\ cn_typ y = cn_typ y0 /\ cn_added y = cn_added y0 /\
    cn_closed y = cn_closed y0 /\ cn_parent y = cn_parent y0 /\ cn_conns y = cn_conns y0) as Hback.
  { intros c' y Hy. destruct (decide (c = c')) as [<-|Hn]; [exists x|exists y].
    - rewrite list_lookup_insert_eq in Hy by done. injection Hy as <-. done.
    - rewrite list_lookup_insert_ne in Hy by done. done. }
  assert (forall c' y0, w_conns w !! c' = Some y0 -> exists y, <[c := x']> (w_conns w) !! c' = Some y /\ cn_typ y = cn_typ y0 /\
    cn_closed y = cn_closed y0 /\ cn_parent y = cn_parent y0 /\ cn_conns y = cn_conns y0) as Hforth.
  { intros c' y0 Hy. destruct (decide (c = c')) as [<-|Hn]; [exists x'|exists y0].
    - rewrite list_lookup_insert_eq by done. rewrite Hc in Hy. injection Hy as <-. done.
    - by rewrite list_lookup_insert_ne. }
  split; cbn [w_conns connsStd w_calls].
  - intros c' y (y0 & Hy & ? & -> & _)%Hback. eauto.
  - intros c' y (y0 & Hy & -> & _)%Hback. eauto.
  - intros c'. rewrite I3. split.
    + intros (y & (y' & Hy' & _ & E & _)%Hforth & Hcl). exists y'. by rewrite E.
    + intros (y & (y' & Hy' & _ & _ & E & _)%Hback & Hcl). exists y'. by rewrite <- E.
  - intros c' y (y0 & Hy & Ht & _ & E & _)%Hback. rewrite closes_app, Hks, app_nil_r, E. unfold is_server. rewrite Ht. by apply I4.
  - intros c' Hn. rewrite closes_app, Hks, app_nil_r. apply I5. destruct (w_conns w !! c') eqn:E; [|done].
    apply Hforth in E as (y & Hy & _). congruence.
  - intros s y m addr c' (y0 & Hy & _ & _ & _ & _ & Em)%Hback Hm Hl. rewrite Em in Hm.
    destruct (I6 s y0 m addr c' Hy Hm Hl) as (z & (z' & Hz & E1 & E2 & E3 & _)%Hforth & Q). exists z'. by rewrite E1, E2, E3.
  - intros c' y Hy Ht. destruct (Hback _ _ Hy) as (y0 & Hy0 & Et & _ & Ecl & Ep & _). rewrite Et in Ht. destruct (I7 c' y0 Hy0 Ht) as (Hr & s & addr & z & Hp & Hz & Hzt & Hm).
    split.
    + destruct (decide (c = c')) as [<-|Hn]; [rewrite list_lookup_insert_eq in Hy by done|rewrite list_lookup_insert_ne in Hy by done; congruence].
      injection Hy as <-. destruct (cn_reading x') eqn:Er; [|done]. by destruct (A6 eq_refl); rewrite Hc in Hy0; injection Hy0 as <-.
    + destruct (Hforth _ _ Hz) as (z' & Hz' & Et' & _ & _ & Em'). exists s, addr, z'. rewrite Ep, Et', Ecl, Em'. done.
  - intros s y (y0 & Hy & -> & _ & -> & _ & ->)%Hback. eauto.
  - intros c' y (y0 & Hy & -> & _ & _ & _ & ->)%Hback. eauto.
Qed.

(** *** Closing *)

(** The connections [cs] are closed, nothing else is. *)
Definition later (cs : list nat) (w w' : world) : Prop :=
  length (w_conns w') = length (w_conns w) /\
  forall c x, w_conns w !! c = Some x -> exists x', w_conns w' !! c = Some x' /\ cn_typ x' = cn_typ x /\ cn_parent x' = cn_parent x /\
    cn_closed x' = cn_closed x || bool_decide (c ∈ cs) /\ (is_Some (cn_conns x') <-> is_Some (cn_conns x)).

Lemma later_nil w : later [] w w.
Proof. split; [done|]. intros c x Hx. exists x. rewrite bool_decide_eq_false_2 by set_solver. by rewrite orb_false_r. Qed.

Lemma later_trans cs cs' w w1 w2 : later cs w w1 -> later cs' w1 w2 -> later (cs ++ cs') w w2.
Proof.
  intros [L1 H1] [L2 H2]. split; [by rewrite L2|]. intros c x Hx. destruct (H1 c x Hx) as (x1 & Hx1 & T1 & P1 & C1 & M1). destruct (H2 c x1 Hx1) as (x2 & Hx2 & T2 & P2 & C2 & M2).
  exists x2. rewrite T2, P2, C2, C1, M2, <- orb_assoc. repeat split; try done; try apply M1. f_equal.
  rewrite <- bool_decide_or. apply bool_decide_ext. set_solver.
Qed.

Lemma close_session_ok ex w c x : inv ex w -> w_conns w !! c = Some x -> cn_typ x = ConnTypeUDPClientFromRead -> ex <> Some c ->
  exists w', close_session c w = Some w' /\ inv ex w' /\ later [c] w w'.
Proof.
  intros Hw Hx Ht Hex. pose proof Hw as [I1 I2 I3 I4 I5 I6 I7 I8 I9]. unfold close_session. rewrite Hx. cbn [mbind option_bind].
  destruct (cn_closed x) eqn:Hcl.
  { exists w. split; [done|]. split; [done|]. split; [done|]. intros c' y Hy. exists y. split; [done|]. split; [done|]. split; [done|]. split; [|done].
    destruct (decide (c' = c)) as [->|Hn]; [rewrite Hx in Hy; injection Hy as <-; by rewrite Hcl|]. rewrite bool_decide_eq_false_2 by set_solver. by rewrite orb_false_r. }
  destruct (I7 c x Hx Ht) as (Hrd & s & addr & y & Hp & Hy & Hyt & Hm). destruct (Hm Hcl) as (m & Hym & Hma). rewrite Hp.
  assert (s <> c) as Hsc by (intros ->; rewrite Hx in Hy; injection Hy as <-; congruence).
  assert (c < length (w_conns w))%nat as Hlc by (by eapply lookup_lt_Some). assert (s < length (w_conns w))%nat as Hls by (by eapply lookup_lt_Some).
  cbn [set_conn w_conns]. rewrite list_lookup_insert_ne, Hy by done. cbn [mbind option_bind]. rewrite (I1 c x Hx), Hym.
  unfold deleteConn. cbn [set_conn w_conns]. rewrite list_lookup_insert_ne, list_lookup_insert_eq by done. cbn [mbind option_bind fmap option_fmap option_map].
  rewrite bool_decide_eq_false_2 by (cbn; rewrite Ht; done). eexists. split; [reflexivity|].
  set (y' := set_conns (Some (delete addr m)) y). set (x' := set_closed x). set (cs := <[s:=y']> (<[c:=x']> (w_conns w))).
  assert (cs !! c = Some x') as Lc by (unfold cs; by rewrite list_lookup_insert_ne, list_lookup_insert_eq).
  assert (cs !! s = Some y') as Ls by (unfold cs; by rewrite list_lookup_insert_eq by (by rewrite length_insert)).
  assert (forall k, k <> c -> k <> s -> cs !! k = w_conns w !! k) as Lo by (intros k ? ?; unfold cs; by rewrite !list_lookup_insert_ne).
  assert (forall k z, cs !! k = Some z -> k = c /\ z = x' \/ k = s /\ z = y' \/ k <> c /\ k <> s /\ w_conns w !! k = Some z) as Lcase.
  { intros k z Hk. destruct (decide (k = c)) as [->|H1]; [left; split; congruence|]. destruct (decide (k = s)) as [->|H2]; [right; left; split; congruence|].
    right; right. by rewrite <- Lo. }
  split.
  - split; cbn [w_conns connsStd w_calls set_std add_call set_conn].
    + intros k z [[-> ->]|[[-> ->]|(_ & _ & Hk)]]%Lcase; [exact (I1 c x Hx)|exact (I1 s y Hy)|by eapply I1].
    + intros k z [[-> ->]|[[-> ->]|(_ & _ & Hk)]]%Lcase; [exact (I2 c x Hx)|exact (I2 s y Hy)|by eapply I2].
    + intros k. rewrite elem_of_difference, I3. split.
      * intros [(z & Hz & Hzc) Hne]. assert (k <> c) by set_solver. destruct (decide (k = s)) as [->|]; [|exists z; by rewrite Lo].
        exists y'. rewrite Hy in Hz. by injection Hz as <-.
      * intros (z & [[-> ->]|[[-> ->]|(H1 & H2 & Hk)]]%Lcase & Hzc); [by destruct Hzc| |].
        { split; [by exists y|set_solver]. }
        { split; [by exists z|set_solver]. }
    + intros k z Hk. rewrite closes_app, length_app. cbn.
      destruct (Lcase k z Hk) as [[-> ->]|[[-> ->]|(H1 & H2 & Hk')]].
      * rewrite (I4 c x Hx), Hcl. rewrite decide_True by done. unfold is_server. cbn. rewrite Ht. rewrite (bool_decide_eq_false_2 (_ = ConnTypeUDPServer)) by done.
        by rewrite (bool_decide_eq_true_2 (ex <> Some c)) by done.
      * rewrite decide_False by done. cbn. rewrite Nat.add_0_r. by apply (I4 s y).
      * rewrite decide_False by done. cbn. rewrite Nat.add_0_r. by apply (I4 k z).
    + intros k Hk. change (cs !! k = None) in Hk. rewrite closes_app. cbn. rewrite decide_False by (intros ->; congruence). rewrite app_nil_r. apply I5.
      destruct (decide (k = c)) as [->|]; [congruence|]. destruct (decide (k = s)) as [->|]; [congruence|]. by rewrite <- Lo.
    + intros k z m' a c' Hk Hm' Ha.
      assert (exists m0, (exists z0, w_conns w !! k = Some z0 /\ cn_conns z0 = Some m0) /\ m0 !! a = Some c' /\ c' <> c) as (m0 & (z0 & Hz0 & Hm0) & Ha0 & Hcc).
      { destruct (Lcase k z Hk) as [[-> ->]|[[-> ->]|(H1 & H2 & Hk')]].
        - exfalso. cbn in Hm'. rewrite (I9 c x Hx) in Hm' by congruence. done.
        - cbn in Hm'. injection Hm' as <-. apply lookup_delete_Some in Ha as [Hne Ha]. exists m. split; [by exists y|]. split; [done|]. intros ->.
          destruct (I6 s y m a c Hy Hym Ha) as (z & Hz & _ & Hzp & _). rewrite Hx in Hz. injection Hz as <-. congruence.
        - exists m'. split; [by exists z|]. split; [done|]. intros ->. destruct (I6 k z m' a c Hk' Hm' Ha) as (z' & Hz' & _ & Hzp & _).
          rewrite Hx in Hz'. injection Hz' as <-. congruence. }
      destruct (I6 k z0 m0 a c' Hz0 Hm0 Ha0) as (u & Hu & Hut & Hup & Huc).
      destruct (decide (c' = s)) as [->|]; [rewrite Hy in Hu; injection Hu as <-; congruence|]. exists u. by rewrite Lo.
    + intros k z Hk Hzt. destruct (Lcase k z Hk) as [[-> ->]|[[-> ->]|(H1 & H2 & Hk')]].
      * split; [done|]. exists s, addr, y'. split; [done|]. split; [done|]. split; [done|]. by cbn.
      * cbn in Hzt. congruence.
      * destruct (I7 k z Hk' Hzt) as (Hr & s' & a' & y0 & Q1 & Q2 & Q3 & Q4). split; [done|].
        destruct (decide (s' = s)) as [->|Hss].
        { rewrite Hy in Q2. injection Q2 as <-. exists s, a', y'. split; [done|]. split; [done|]. split; [done|]. intros Ho.
          destruct (Q4 Ho) as (m1 & Hm1 & Ha1). rewrite Hym in Hm1. injection Hm1 as <-. exists (delete addr m). split; [done|].
          rewrite lookup_delete_ne; [done|]. intros ->. rewrite Hma in Ha1. by injection Ha1 as ->. }
        exists s', a', y0. split; [done|]. split; [|by split]. rewrite Lo; [done| |done]. intros ->. rewrite Hx in Q2. injection Q2 as <-. congruence.
    + intros k z Hk Hzt Hke. destruct (Lcase k z Hk) as [[-> ->]|[[-> ->]|(H1 & H2 & Hk')]]; [cbn in Hzt; congruence| |by apply (I8 k)].
      pose proof (I8 s y Hy Hyt Hke) as Hs. rewrite Hym in Hs. cbn. rewrite Hs. split; intros _; by eexists.
    + intros k z Hk Hzt. destruct (Lcase k z Hk) as [[-> ->]|[[-> ->]|(H1 & H2 & Hk')]]; [by apply (I9 c x)|by destruct Hzt|by apply (I9 k)].
  - split; [cbn; by rewrite !length_insert|]. intros k z Hz. destruct (decide (k = c)) as [->|H1].
    + exists x'. rewrite Hx in Hz. injection Hz as <-. split; [done|]. rewrite bool_decide_eq_true_2 by set_solver. by rewrite orb_true_r.
    + rewrite bool_decide_eq_false_2 by set_solver. rewrite orb_false_r. destruct (decide (k = s)) as [->|H2].
      * exists y'. rewrite Hy in Hz. injection Hz as <-. split; [done|]. split; [done|]. split; [done|]. split; [done|]. cbn. rewrite Hym. split; intros _; by eexists.
      * exists z. split; [cbn; by rewrite Lo|done].
Qed.

Lemma close_sessions_ok ex cs : forall w, inv ex w ->
  Forall (fun c => exists x, w_conns w !! c = Some x /\ cn_typ x = ConnTypeUDPClientFromRead /\ ex <> Some c) cs ->
  exists w', close_sessions cs w = Some w' /\ inv ex w' /\ later cs w w'.
Proof.
  induction cs as [|c cs IH]; intros w Hw Hall; cbn [close_sessions].
  { exists w. split; [done|]. split; [done|apply later_nil]. }
  apply Forall_cons in Hall as [(x & Hx & Ht & Hex) Hall].
  destruct (close_session_ok ex w c x Hw Hx Ht Hex) as (w1 & -> & Hw1 & Hl1). cbn [mbind option_bind].
  destruct (IH w1 Hw1) as (w2 & -> & Hw2 & Hl2).
  { eapply Forall_impl; [exact Hall|]. intros c' (y & Hy & Hyt & Hye). destruct (proj2 Hl1 c' y Hy) as (y' & Hy' & Ty & _). exists y'. by rewrite Ty. }
  exists w2. split; [done|]. split; [done|]. exact (later_trans [c] cs w w1 w2 Hl1 Hl2).
Qed.

(** A connection that is no session starts to close. *)
Lemma inv_begin_close w c x : inv None w -> w_conns w !! c = Some x -> cn_closed x = false -> cn_typ x <> ConnTypeUDPClientFromRead ->
  inv (Some c) (shut c (set_conn c (set_closed x) w)).
Proof.
  intros [I1 I2 I3 I4 I5 I6 I7 I8 I9] Hx Hcl Ht. assert (c < length (w_conns w))%nat as Hlc by (by eapply lookup_lt_Some).
  assert (forall k z, <[c := set_closed x]> (w_conns w) !! k = Some z -> k = c /\ z = set_closed x \/ k <> c /\ w_conns w !! k = Some z) as Lc.
  { intros k z Hk. destruct (decide (k = c)) as [->|Hn]; [rewrite list_lookup_insert_eq in Hk by done; left; split; congruence|].
    rewrite list_lookup_insert_ne in Hk by done. by right. }
  split; cbn [w_conns connsStd w_calls shut set_conn].
  - intros k z [[-> ->]|[_ Hk]]%Lc; [exact (I1 c x Hx)|by eapply I1].
  - intros k z [[-> ->]|[_ Hk]]%Lc; [exact (I2 c x Hx)|by eapply I2].
  - intros k. rewrite I3. split.
    + intros (z & Hz & [Hzc|]); [|done]. destruct (decide (k = c)) as [->|Hn]; [exists (set_closed x); rewrite list_lookup_insert_eq by done; auto|].
      exists z. rewrite list_lookup_insert_ne by done. auto.
    + intros (z & [[-> ->]|[Hn Hk]]%Lc & [Hzc|Hzc]); [done|exists x; auto|exists z; auto|congruence].
  - intros k z Hk. destruct (Lc k z Hk) as [[-> ->]|[Hn Hk']].
    + rewrite (I4 c x Hx), Hcl. cbn. rewrite bool_decide_eq_false_2 by (intros H; by apply H). by rewrite andb_false_r.
    + rewrite (I4 k z Hk'). rewrite !bool_decide_eq_true_2 by congruence. done.
  - intros k Hk. apply I5. destruct (decide (k = c)) as [->|]; [by rewrite list_lookup_insert_eq in Hk|]. by rewrite list_lookup_insert_ne in Hk.
  - intros k z m a c' Hk Hm Ha. assert (exists z0, w_conns w !! k = Some z0 /\ cn_conns z0 = Some m) as (z0 & Hz0 & Hm0).
    { destruct (Lc k z Hk) as [[-> ->]|[Hn Hk']]; [by exists x|by exists z]. }
    destruct (I6 k z0 m a c' Hz0 Hm0 Ha) as (u & Hu & Hut & Q). exists u. rewrite list_lookup_insert_ne; [done|]. intros <-. congruence.
  - intros k z Hk Hzt. destruct (Lc k z Hk) as [[-> ->]|[Hn Hk']]; [by destruct Ht|]. destruct (I7 k z Hk' Hzt) as (Hr & s & a & y & Q1 & Q2 & Q3 & Q4).
    split; [done|]. destruct (decide (s = c)) as [->|Hs].
    + exists c, a, (set_closed x). rewrite Hx in Q2. injection Q2 as <-. by rewrite list_lookup_insert_eq.
    + exists s, a, y. by rewrite list_lookup_insert_ne.
  - intros k z [[-> ->]|[Hn Hk]]%Lc Hzt Hke; [by destruct Hke|by apply (I8 k)].
  - intros k z [[-> ->]|[Hn Hk]]%Lc Hzt; [exact (I9 c x Hx Hzt)|by eapply I9].
Qed.

(** Its end: the sessions are closed. *)
Lemma inv_end_close w c y : inv (Some c) w -> w_conns w !! c = Some y -> cn_closed y = true -> cn_typ y <> ConnTypeUDPClientFromRead ->
  (forall k z a, w_conns w !! k = Some z -> cn_typ z = ConnTypeUDPClientFromRead -> cn_parent z = Some (c, a) -> cn_closed z = true) ->
  exists w', deleteConn c (set_conn c (set_conns None y) w) = Some w' /\ inv None w' /\ w_conns w' = <[c := set_conns None y]> (w_conns w).
Proof.
  intros [I1 I2 I3 I4 I5 I6 I7 I8 I9] Hy Hcl Ht Hs. assert (c < length (w_conns w))%nat as Hlc by (by eapply lookup_lt_Some).
  unfold deleteConn. cbn [set_conn w_conns]. rewrite list_lookup_insert_eq by done. cbn [mbind option_bind].
  set (y' := set_conns None y). eexists. split; [reflexivity|]. split; [|by case_bool_decide].
  assert (forall k z, <[c := y']> (w_conns w) !! k = Some z -> k = c /\ z = y' \/ k <> c /\ w_conns w !! k = Some z) as Lc.
  { intros k z Hk. destruct (decide (k = c)) as [->|Hn]; [rewrite list_lookup_insert_eq in Hk by done; left; split; congruence|].
    rewrite list_lookup_insert_ne in Hk by done. by right. }
  set (ks := if bool_decide (cn_typ y' = ConnTypeUDPServer) then [] else [OnClose c (cn_closeErr y')]).
  assert ((if bool_decide (cn_typ y' = ConnTypeUDPServer) then set_std (connsStd w ∖ {[c]}) (set_conn c y' w)
    else add_call (OnClose c (cn_closeErr y')) (set_std (connsStd w ∖ {[c]}) (set_conn c y' w))) =
    MkWorld (<[c := y']> (w_conns w)) (connsStd w ∖ {[c]}) (w_calls w ++ ks) (w_shut w)) as Ew.
  { unfold ks. case_bool_decide; [by rewrite app_nil_r|done]. }
  change (connsStd (set_conn c y' w)) with (connsStd w). rewrite Ew. clear Ew.
  split; cbn [w_conns connsStd w_calls].
  - intros k z [[-> ->]|[_ Hk]]%Lc; [exact (I1 c y Hy)|by eapply I1].
  - intros k z [[-> ->]|[_ Hk]]%Lc; [exact (I2 c y Hy)|by eapply I2].
  - intros k. rewrite elem_of_difference, I3. split.
    + intros [(z & Hz & [Hzc|Hzc]) Hne]; [|injection Hzc as ->; set_solver]. exists z. rewrite list_lookup_insert_ne by set_solver. auto.
    + intros (z & [[-> ->]|[Hn Hk]]%Lc & [Hzc|Hzc]); [cbn in Hzc; congruence|done| |done]. split; [exists z; auto|set_solver].
  - intros k z Hk. rewrite closes_app, length_app, (bool_decide_eq_true_2 (None <> _)) by done. rewrite andb_true_r.
    destruct (Lc k z Hk) as [[-> ->]|[Hn Hk']].
    + rewrite (I4 c y Hy). rewrite (bool_decide_eq_false_2 (Some c <> Some c)) by (intros H; by apply H). rewrite andb_false_r.
      change (cn_closed y') with (cn_closed y). rewrite Hcl. unfold ks, is_server. destruct (bool_decide (cn_typ y' = _)); [done|]. cbn. by rewrite decide_True.
    + rewrite (I4 k z Hk'), (bool_decide_eq_true_2 (Some c <> Some k)) by congruence. rewrite andb_true_r.
      unfold ks. destruct (bool_decide (cn_typ y' = _)); cbn; [by rewrite Nat.add_0_r|]. rewrite decide_False by congruence. cbn. by rewrite Nat.add_0_r.
  - intros k Hk. assert (k <> c) as Hn by (intros ->; by rewrite list_lookup_insert_eq in Hk). rewrite list_lookup_insert_ne in Hk by done.
    rewrite closes_app, (I5 k Hk). unfold ks. destruct (bool_decide (cn_typ y' = _)); [done|]. cbn. by rewrite decide_False by congruence.
  - intros k z m a c' [[-> ->]|[Hn Hk]]%Lc Hm Ha; [done|]. destruct (I6 k z m a c' Hk Hm Ha) as (u & Hu & Hut & Q). exists u.
    rewrite list_lookup_insert_ne; [done|]. intros <-. congruence.
  - intros k z [[-> ->]|[Hn Hk]]%Lc Hzt; [by destruct Ht|]. destruct (I7 k z Hk Hzt) as (Hr & s & a & x & Q1 & Q2 & Q3 & Q4).
    split; [done|]. destruct (decide (s = c)) as [->|Hsc].
    + exists c, a, y'. rewrite Hy in Q2. injection Q2 as <-. rewrite list_lookup_insert_eq by done. split; [done|]. split; [done|]. split; [done|].
      intros Ho. rewrite (Hs k z a Hk Hzt Q1) in Ho. done.
    + exists s, a, x. by rewrite list_lookup_insert_ne.
  - intros k z [[-> ->]|[Hn Hk]]%Lc Hzt _; [|apply (I8 k); congruence]. cbn. rewrite Hcl. split; [done|by intros []].
  - intros k z [[-> ->]|[Hn Hk]]%Lc Hzt; [done|by eapply I9].
Qed.

Definition closed_at (c : nat) (x : conn) (w : world) : Prop :=
  exists x', w_conns w !! c = Some x' /\ cn_closed x' = true /\ cn_typ x' = cn_typ x.

Lemma close_udp_ok w c x : inv None w -> w_conns w !! c = Some x -> cn_closed x = false -> cn_typ x <> ConnTypeUDPClientFromRead ->
  exists w', (w ← close_udp c x (set_conn c (set_closed x) w); deleteConn c w) = Some w' /\ inv None w' /\ closed_at c x w'.
Proof.
  intros Hw Hx Hcl Ht. pose proof (inv_begin_close w c x Hw Hx Hcl Ht) as H1. set (w1 := shut c (set_conn c (set_closed x) w)) in *.
  assert (c < length (w_conns w))%nat as Hlc by (by eapply lookup_lt_Some).
  assert (w_conns w1 !! c = Some (set_closed x)) as Hc1 by (cbn; by rewrite list_lookup_insert_eq).
  unfold close_udp. fold w1. set (cs := (map_to_list (default ∅ (cn_conns x))).*2).
  assert (forall k, k ∈ cs <-> exists m a, cn_conns x = Some m /\ m !! a = Some k) as Hcs.
  { intros k. unfold cs. destruct (cn_conns x) as [m|]; cbn [default].
    - split; [intros ([a k'] & -> & Hin%elem_of_map_to_list)%list_elem_of_fmap; by exists m, a|].
      intros (m' & a & [= <-] & Ha). apply list_elem_of_fmap. exists (a, k). split; [done|]. by apply elem_of_map_to_list.
    - rewrite map_to_list_empty. split; [by intros ?%elem_of_nil|]. by intros (? & ? & ? & _). }
  destruct (close_sessions_ok (Some c) cs w1 H1) as (w2 & -> & H2 & Hl2 & Hf).
  { apply Forall_forall. intros k (m & a & Hm & Ha)%Hcs. destruct (iv_map _ _ H1 c (set_closed x) m a k Hc1 Hm Ha) as (z & Hz & Hzt & _).
    exists z. split; [done|]. split; [done|]. intros [= <-]. rewrite Hc1 in Hz. injection Hz as <-. by cbn in Hzt. }
  cbn [mbind option_bind]. destruct (Hf c _ Hc1) as (y & Hy & Ty & _ & Cy & _). cbn in Ty, Cy. rewrite Hy. cbn [mbind option_bind].
  destruct (inv_end_close w2 c y H2 Hy Cy ltac:(by rewrite Ty)) as (w' & E & Hw' & Ec).
  - intros k z a Hk Hzt Hzp. destruct (w_conns w1 !! k) as [z0|] eqn:E0.
    + destruct (Hf k z0 E0) as (z' & Hz' & T' & P' & C' & _). rewrite Hk in Hz'. injection Hz' as <-. rewrite C'.
      destruct (cn_closed z0) eqn:C0; [done|]. cbn. apply bool_decide_eq_true_2, Hcs.
      destruct (iv_session _ _ H1 k z0 E0 ltac:(congruence)) as (_ & s & a' & y0 & Q1 & Q2 & _ & Q4). destruct (Q4 C0) as (m & Hm & Ha).
      assert (s = c /\ a' = a) as [-> ->] by (split; congruence). rewrite Hc1 in Q2. injection Q2 as <-. by exists m, a.
    + apply lookup_ge_None in E0. apply lookup_lt_Some in Hk. lia.
  - exists w'. split; [exact E|]. split; [done|]. exists (set_conns None y). rewrite Ec, list_lookup_insert_eq by (by eapply lookup_lt_Some). done.
Qed.

Lemma std_Close_ok w c x : inv None w -> w_conns w !! c = Some x -> exists w', Close c w = Some w' /\ inv None w' /\ closed_at c x w'.
Proof.
  intros Hw Hx. unfold Close. rewrite Hx. cbn [mbind option_bind]. destruct (cn_closed x) eqn:Hcl; [exists w; split; [done|]; split; [done|by exists x]|].
  pose proof (iv_added _ _ Hw c x Hx) as Ha. pose proof (iv_typ _ _ Hw c x Hx) as Hu. rewrite Ha.
  pose proof (close_udp_ok w c x Hw Hx Hcl) as Hudp. destruct (cn_typ x) eqn:Ht; try done.
  - pose proof (inv_begin_close w c x Hw Hx Hcl ltac:(by rewrite Ht)) as H1. cbn [mbind option_bind].
    assert (c < length (w_conns w))%nat as Hlc by (by eapply lookup_lt_Some). set (w1 := shut c _) in *.
    assert (w_conns w1 !! c = Some (set_closed x)) as Hc1 by (cbn; by rewrite list_lookup_insert_eq).
    destruct (inv_end_close w1 c (set_closed x) H1 Hc1) as (w' & E & Hw' & Ec); [done|cbn; congruence| |].
    + intros k z a Hk Hzt Hzp. destruct (iv_session _ _ H1 k z Hk Hzt) as (_ & s & a' & y & Q1 & Q2 & Q3 & _).
      rewrite Hzp in Q1. injection Q1 as -> ->. rewrite Hc1 in Q2. injection Q2 as <-. cbn in Q3. congruence.
    + assert (set_conns None (set_closed x) = set_closed x) as Es.
      { pose proof (iv_other _ _ Hw c x Hx ltac:(by rewrite Ht)) as Hn. destruct x. cbn in *. by subst. }
      rewrite Es in E, Ec. assert (set_conn c (set_closed x) w1 = w1) as Ew.
      { unfold set_conn at 1. by rewrite (list_insert_id _ _ _ Hc1). }
      rewrite Ew in E. exists w'. split; [exact E|]. split; [done|]. exists (set_closed x). rewrite Ec, list_lookup_insert_eq by (by eapply lookup_lt_Some).
      by repeat split.
  - destruct Hudp as (w' & E & Hw' & Hc); [done|]. destruct (close_udp _ _ _); [|done]. exists w'. split; [exact E|]. split; [done|]. exact Hc.
  - destruct (close_session_ok None w c x Hw Hx Ht ltac:(done)) as (w' & E & Hw' & _ & Hf). exists w'. split; [done|]. split; [done|].
    destruct (Hf c x Hx) as (x' & Hx' & T' & _ & C' & _). exists x'. rewrite T', C', bool_decide_eq_true_2 by set_solver. by rewrite orb_true_r.
  - destruct Hudp as (w' & E & Hw' & Hc); [done|]. destruct (close_udp _ _ _); [|done]. exists w'. split; [exact E|]. split; [done|]. exact Hc.
Qed.

(** *** New connections *)

Lemma inv_append w x ks : inv None w -> cn_added x = true -> cn_typ x <> ConnTypeUnix -> cn_closed x = false ->
  cn_typ x <> ConnTypeUDPClientFromRead -> cn_conns x = (if is_server x then Some ∅ else None) -> (forall c, closes_of c ks = []) ->
  inv None (MkWorld (w_conns w ++ [x]) ({[length (w_conns w)]} ∪ connsStd w) (w_calls w ++ ks) (w_shut w)).
Proof.
  intros [I1 I2 I3 I4 I5 I6 I7 I8 I9] Ha Hu Hcl Ht Hm Hks. set (n := length (w_conns w)).
  assert (forall k z, (w_conns w ++ [x]) !! k = Some z -> k = n /\ z = x \/ w_conns w !! k = Some z) as Lc.
  { intros k z [Hk|[Hge Hk]]%lookup_app_Some; [by right|]. left. apply list_lookup_singleton_Some in Hk as [Hk <-]. split; [unfold n; lia|done]. }
  assert (forall k z, w_conns w !! k = Some z -> (w_conns w ++ [x]) !! k = Some z) as Lk by (intros; by apply lookup_app_l_Some).
  assert (w_conns w !! n = None) as Hn by (by apply lookup_ge_None_2).
  assert ((w_conns w ++ [x]) !! n = Some x) as Ln by (unfold n; by rewrite lookup_app_r, Nat.sub_diag by done).
  split; cbn [w_conns connsStd w_calls].
  - intros k z [[-> ->]|Hk]%Lc; [done|by eapply I1].
  - intros k z [[-> ->]|Hk]%Lc; [done|by eapply I2].
  - intros k. rewrite elem_of_union, elem_of_singleton, I3. split.
    + intros [->|(z & Hz & Hzc)]; [exists x; auto|exists z; auto].
    + intros (z & [[-> ->]|Hk]%Lc & Hzc); [by left|right; by exists z].
  - intros k z Hk. rewrite closes_app, Hks, app_nil_r. destruct (Lc k z Hk) as [[-> ->]|Hk']; [by rewrite (I5 n Hn), Hcl|by apply I4].
  - intros k Hk. rewrite closes_app, Hks, app_nil_r. apply I5. destruct (w_conns w !! k) eqn:E; [|done]. rewrite (Lk _ _ E) in Hk. done.
  - intros k z m a c [[-> ->]|Hk]%Lc Hzm Ha'; [rewrite Hm in Hzm; destruct (is_server x); [injection Hzm as <-; by rewrite lookup_empty in Ha'|done]|].
    destruct (I6 k z m a c Hk Hzm Ha') as (u & Hu' & Q). exists u. split; [by apply Lk|done].
  - intros k z [[-> ->]|Hk]%Lc Hzt; [done|]. destruct (I7 k z Hk Hzt) as (Hr & s & a & y & Q1 & Q2 & Q). split; [done|]. exists s, a, y. split; [done|]. split; [by apply Lk|done].
  - intros k z [[-> ->]|Hk]%Lc Hzt Hke; [|by apply (I8 k)]. rewrite Hm. unfold is_server. rewrite Hzt, Hcl. cbn. split; [by intros _; eexists|done].
  - intros k z [[-> ->]|Hk]%Lc Hzt; [|by eapply I9]. rewrite Hm. unfold is_server. by rewrite bool_decide_eq_false_2.
Qed.

(** A new session of a server. *)
Lemma inv_session_new w s y m addr h : inv None w -> w_conns w !! s = Some y -> cn_typ y = ConnTypeUDPServer -> cn_conns y = Some m ->
  m !! addr = None ->
  let c := length (w_conns w) in
  let x := Mk ConnTypeUDPClientFromRead h true false None None None (Some (s, addr)) None false in
  inv None (MkWorld (<[s := set_conns (Some (<[addr := c]> m)) y]> (w_conns w ++ [x])) ({[c]} ∪ connsStd w) (w_calls w) (w_shut w)).
Proof.
  intros [I1 I2 I3 I4 I5 I6 I7 I8 I9] Hy Hyt Hym Hma n x. set (y' := set_conns (Some (<[addr := n]> m)) y).
  assert (s < n)%nat as Hls by (by eapply lookup_lt_Some). set (cs := <[s := y']> (w_conns w ++ [x])).
  assert (cs !! s = Some y') as Ls by (unfold cs; rewrite list_lookup_insert_eq; [done|]; rewrite length_app; lia).
  assert (cs !! n = Some x) as Ln by (unfold cs; rewrite list_lookup_insert_ne, lookup_app_r, Nat.sub_diag by lia; done).
  assert (forall k z, k <> s -> w_conns w !! k = Some z -> cs !! k = Some z) as Lk by (intros; unfold cs; rewrite list_lookup_insert_ne by done; by apply lookup_app_l_Some).
  assert (forall k z, cs !! k = Some z -> k = n /\ z = x \/ k = s /\ z = y' \/ k <> s /\ k <> n /\ w_conns w !! k = Some z) as Lc.
  { intros k z Hk. destruct (decide (k = s)) as [->|Hs]; [right; left; split; congruence|]. destruct (decide (k = n)) as [->|Hn]; [left; split; congruence|].
    right; right. split; [done|]. split; [done|]. unfold cs in Hk. rewrite list_lookup_insert_ne in Hk by done. apply lookup_app_Some in Hk as [Hk|[Hge Hk]]; [done|].
    apply list_lookup_singleton_Some in Hk as [Hk _]. exfalso. apply Hn. unfold n. lia. }
  assert (w_conns w !! n = None) as Hn by (by apply lookup_ge_None_2).
  split; cbn [w_conns connsStd w_calls].
  - intros k z [[-> ->]|[[-> ->]|(_ & _ & Hk)]]%Lc; [done|exact (I1 s y Hy)|by eapply I1].
  - intros k z [[-> ->]|[[-> ->]|(_ & _ & Hk)]]%Lc; [done|exact (I2 s y Hy)|by eapply I2].
  - intros k. rewrite elem_of_union, elem_of_singleton, I3. split.
    + intros [->|(z & Hz & Hzc)]; [exists x; auto|]. destruct (decide (k = s)) as [->|Hks]; [exists y'; rewrite Hy in Hz; by injection Hz as <-|exists z; auto].
    + intros (z & [[-> ->]|[[-> ->]|(_ & _ & Hk)]]%Lc & Hzc); [by left|right; by exists y|right; by exists z].
  - intros k z Hk. destruct (Lc k z Hk) as [[-> ->]|[[-> ->]|(_ & _ & Hk')]]; [by rewrite (I5 n Hn)|exact (I4 s y Hy)|by apply I4].
  - intros k Hk. apply I5. destruct (w_conns w !! k) eqn:E; [|done]. destruct (decide (k = s)) as [->|Hks]; [change (cs !! s = None) in Hk; congruence|].
    change (cs !! k = None) in Hk. rewrite (Lk _ _ Hks E) in Hk. done.
  - intros k z m' a c' [[-> ->]|[[-> ->]|(Hks & Hkn & Hk)]]%Lc Hm' Ha; [done| |].
    + cbn in Hm'. injection Hm' as <-. apply lookup_insert_Some in Ha as [[<- <-]|[Hne Ha]]; [by exists x|].
      destruct (I6 s y m a c' Hy Hym Ha) as (u & Hu & Hut & Q). exists u. split; [|done]. apply Lk; [|done]. intros ->. congruence.
    + destruct (I6 k z m' a c' Hk Hm' Ha) as (u & Hu & Hut & Q). exists u. split; [|done]. apply Lk; [|done]. intros ->. congruence.
  - intros k z Hk Hzt. destruct (Lc k z Hk) as [[-> ->]|[[-> ->]|(Hks & Hkn & Hk')]]; [|cbn in Hzt; congruence|].
    + split; [done|]. exists s, addr, y'. split; [done|]. split; [done|]. split; [done|]. intros _. exists (<[addr:=n]> m). split; [done|]. apply lookup_insert_eq.
    + destruct (I7 k z Hk' Hzt) as (Hr & s' & a & y0 & Q1 & Q2 & Q3 & Q4). split; [done|]. destruct (decide (s' = s)) as [->|Hs].
      * rewrite Hy in Q2. injection Q2 as <-. exists s, a, y'. split; [done|]. split; [done|]. split; [done|]. intros Ho. destruct (Q4 Ho) as (m1 & Hm1 & Ha).
        rewrite Hym in Hm1. injection Hm1 as <-. exists (<[addr:=n]> m). split; [done|]. rewrite lookup_insert_ne; [done|]. intros ->. congruence.
      * exists s', a, y0. split; [done|]. split; [by apply Lk|by split].
  - intros k z Hk Hzt Hke. destruct (Lc k z Hk) as [[-> ->]|[[-> ->]|(_ & _ & Hk')]]; [done| |by apply (I8 k)].
    pose proof (I8 s y Hy Hyt Hke) as Hs. rewrite Hym in Hs. cbn. rewrite Hs. split; intros _; by eexists.
  - intros k z Hk Hzt. destruct (Lc k z Hk) as [[-> ->]|[[-> ->]|(_ & _ & Hk')]]; [done|by destruct Hzt|by eapply I9].
Qed.

(** *** Reading *)

(** The handler's call for what was read. *)
Definition given (b : bytes) (d : nat) : list call :=
  if hasOnRead then [OnRead d] else if 0 <? len b then [OnData d b] else [].

(** Where a read of [c] goes: the connection itself, or the session of the peer. *)
Definition target (c : nat) (x : conn) (addr : bytes) (d : nat) (w : world) : Prop :=
  if is_server x then exists y m, w_conns w !! c = Some y /\ cn_conns y = Some m /\ m !! addr = Some d else d = c.

Lemma inv_alike_quiet ex w c x x' : inv ex w -> w_conns w !! c = Some x -> alike x x' -> inv ex (set_conn c x' w).
Proof. intros Hw Hx Ha. pose proof (inv_alike ex w c x x' [] Hw Hx Ha ltac:(done)) as H. by rewrite app_nil_r in H. Qed.

Lemma reading_alike w c x : inv None w -> w_conns w !! c = Some x -> cn_reading x = true -> cn_typ x <> ConnTypeUDPClientFromRead.
Proof. intros Hw Hx Hr Ht. destruct (iv_session _ _ Hw c x Hx Ht) as [Hf _]. congruence. Qed.

Lemma note_alike w c x e : inv None w -> w_conns w !! c = Some x -> alike x (note_err e x).
Proof. intros Hw Hx. unfold note_err. destruct (cn_closeErr x); repeat split; exact (reading_alike w c x Hw Hx). Qed.

Lemma cache_alike w c x b : inv None w -> w_conns w !! c = Some x -> alike x (set_cache b x).
Proof. intros Hw Hx. repeat split. exact (reading_alike w c x Hw Hx). Qed.

Lemma hand_over_ok w c x b : inv None w -> w_conns w !! c = Some x ->
  exists w', hand_over b c w = Some w' /\ inv None w' /\ w_calls w' = w_calls w ++ given b c /\
    forall k z, w_conns w !! k = Some z -> exists z', w_conns w' !! k = Some z' /\ cn_typ z' = cn_typ z /\ cn_conns z' = cn_conns z.
Proof.
  intros Hw Hx. unfold hand_over, given. rewrite Hx. cbn [mbind option_bind].
  assert (c < length (w_conns w))%nat as Hlc by (by eapply lookup_lt_Some).
  assert (forall ks, (forall c, closes_of c ks = []) -> inv None (MkWorld (w_conns w) (connsStd w) (w_calls w ++ ks) (w_shut w))) as Hq.
  { intros ks Hks. pose proof (inv_alike None w c x x ks Hw Hx ltac:(repeat split; by eapply reading_alike) Hks) as H. by rewrite list_insert_id in H. }
  destruct hasOnRead; destruct (0 <? len b); eexists; (split; [reflexivity|]).
  - split; [apply (inv_alike None w c x _ [OnRead c] Hw Hx (cache_alike w c x _ Hw Hx)); done|]. split; [done|]. intros k z Hz. cbn.
    destruct (decide (c = k)) as [<-|Hn]; [rewrite list_lookup_insert_eq by done; rewrite Hx in Hz; injection Hz as <-; by eexists|].
    exists z. by rewrite list_lookup_insert_ne.
  - split; [by apply Hq|]. split; [done|]. intros k z Hz. by exists z.
  - split; [by apply Hq|]. split; [done|]. intros k z Hz. by exists z.
  - split; [done|]. split; [by rewrite app_nil_r|]. intros k z Hz. by exists z.
Qed.

(** The session for a datagram: found, or made, opened and counted. *)
Lemma session_ok w s y local addr now : inv None w -> w_conns w !! s = Some y -> cn_typ y = ConnTypeUDPServer -> cn_closed y = false ->
  exists d w', (
    '(uc, ok, w) ← getConn local addr s w;
    w ← (if 0 <? UDPReadTimeout then SetReadDeadline (now + UDPReadTimeout) uc w else Some w);
    w ← (if (ok : bool) then Some w else addConn uc w);
    Some (uc, w)) = Some (d, w') /\ inv None w' /\ (exists z, w_conns w' !! d = Some z) /\
    (exists y' m, w_conns w' !! s = Some y' /\ cn_typ y' = ConnTypeUDPServer /\ cn_conns y' = Some m /\ m !! addr = Some d) /\
    (w_calls w' = w_calls w \/ w_calls w' = w_calls w ++ [OnOpen d]).
Proof.
  intros Hw Hy Hyt Hyc. destruct (proj1 (iv_server _ _ Hw s y Hy Hyt ltac:(done)) Hyc) as [m Hm]. unfold getConn. rewrite Hy. cbn [mbind option_bind]. rewrite Hm. cbn [mbind option_bind].
  destruct (m !! addr) as [d|] eqn:Ed; cbn [mbind option_bind].
  - destruct (iv_map _ _ Hw s y m addr d Hy Hm Ed) as (z & Hz & Hzt & Hzp & Hzc). exists d.
    assert (s <> d) as Hsd by (intros ->; rewrite Hy in Hz; injection Hz as ->; congruence).
    destruct (0 <? UDPReadTimeout); cbn [mbind option_bind].
    + unfold SetReadDeadline. rewrite Hz. cbn [mbind option_bind]. rewrite bool_decide_eq_false_2 by congruence. eexists. split; [reflexivity|].
      assert (d < length (w_conns w))%nat as Hld by (by eapply lookup_lt_Some).
      split; [apply (inv_alike_quiet None w d z); [done|done|]; repeat split; exact (reading_alike w d z Hw Hz)|]. split; [eexists; cbn; by rewrite list_lookup_insert_eq|].
      split; [|by left]. exists y, m. cbn. by rewrite list_lookup_insert_ne.
    + exists w. split; [done|]. split; [done|]. split; [by exists z|]. split; [by exists y, m|by left].
  - set (d := length (w_conns w)). set (x := Mk _ _ _ _ _ _ _ (Some (s, addr)) _ _).
    pose proof (inv_session_new w s y m addr (hash_of (local ++ addr)) Hw Hy Hyt Hm Ed) as Hn. cbv zeta in Hn. fold d in Hn. fold x in Hn.
    set (cs := <[s := set_conns (Some (<[addr := d]> m)) y]> (w_conns w ++ [x])) in *.
    assert (s < d)%nat as Hls by (by eapply lookup_lt_Some).
    assert (cs !! d = Some x) as Ld by (unfold cs; rewrite list_lookup_insert_ne, lookup_app_r, Nat.sub_diag by lia; done).
    assert (cs !! s = Some (set_conns (Some (<[addr := d]> m)) y)) as Ls by (unfold cs; rewrite list_lookup_insert_eq; [done|]; rewrite length_app; cbn; lia).
    assert (d < length cs)%nat as Hld by (by eapply lookup_lt_Some).
    assert (forall x', alike x x' -> inv None (MkWorld (<[d := x']> cs) ({[d]} ∪ connsStd w) (w_calls w ++ [OnOpen d]) (w_shut w))) as Hfin.
    { intros x' Hx'. apply (inv_alike None (MkWorld cs ({[d]} ∪ connsStd w) (w_calls w) (w_shut w)) d x x' [OnOpen d] Hn); [exact Ld|done|done]. }
    exists d. unfold set_conn. cbn [w_conns connsStd w_calls w_shut]. fold cs.
    destruct (0 <? UDPReadTimeout); cbn [mbind option_bind].
    + unfold SetReadDeadline. cbn [w_conns]. rewrite Ld. cbn [mbind option_bind]. unfold x at 1. cbn [cn_typ]. rewrite bool_decide_eq_false_2 by done.
      cbn [mbind option_bind]. unfold addConn. cbn [set_conn w_conns]. rewrite list_lookup_insert_eq by done. cbn [mbind option_bind].
      rewrite (bool_decide_eq_false_2 (_ = ConnTypeUDPServer)) by done. rewrite (bool_decide_eq_true_2 (_ = ConnTypeUDPClientFromRead)) by done.
      eexists. split; [reflexivity|]. unfold add_call, set_std, set_conn. cbn [w_conns connsStd w_calls w_shut]. rewrite list_insert_insert_eq.
      split; [by apply Hfin|]. split; [eexists; by rewrite list_lookup_insert_eq|]. split; [|by right].
      eexists _, _. rewrite list_lookup_insert_ne by lia. split; [exact Ls|]. split; [done|]. split; [done|]. apply lookup_insert_eq.
    + unfold addConn. cbn [w_conns]. rewrite Ld. cbn [mbind option_bind].
      rewrite (bool_decide_eq_false_2 (_ = ConnTypeUDPServer)) by done. rewrite (bool_decide_eq_true_2 (_ = ConnTypeUDPClientFromRead)) by done.
      eexists. split; [reflexivity|]. unfold add_call, set_std, set_conn. cbn [w_conns connsStd w_calls w_shut].
      split; [by apply Hfin|]. split; [eexists; by rewrite list_lookup_insert_eq|]. split; [|by right].
      eexists _, _. rewrite list_lookup_insert_ne by lia. split; [exact Ls|]. split; [done|]. split; [done|]. apply lookup_insert_eq.
Qed.

(** A read that gave no error: its bytes go to their connection, once, behind the
    opening of a new session. *)
Definition delivered (c : nat) (x : conn) (i : input) (w w' : world) : Prop :=
  exists d pre, target c x (in_addr i) d w' /\ w_calls w' = w_calls w ++ pre ++ given (in_data i) d /\ (pre = [] \/ pre = [OnOpen d]).

Lemma read_ok w c x local now i : inv None w -> w_conns w !! c = Some x -> readable i x = true ->
  exists err w', read local now i c w = Some (err, w') /\ inv None w' /\ is_Some (w_conns w' !! c) /\
    (in_err i = None -> err = None /\ delivered c x i w w').
Proof.
  intros Hw Hx Hr. unfold readable in Hr. apply andb_true_iff in Hr as [Hrd Hopen].
  pose proof (reading_alike w c x Hw Hx Hrd) as Hns. pose proof (iv_typ _ _ Hw c x Hx) as Hu. unfold read. rewrite Hx. cbn [mbind option_bind].
  assert (c < length (w_conns w))%nat as Hlc by (by eapply lookup_lt_Some).
  set (w1 := set_conn c (note_err (in_err i) x) w).
  assert (inv None w1) as H1 by (eapply inv_alike_quiet; [done|done|by eapply note_alike]).
  assert (w_conns w1 !! c = Some (note_err (in_err i) x)) as Hc1 by (cbn; by rewrite list_lookup_insert_eq).
  assert (cn_typ (note_err (in_err i) x) = cn_typ x) as Ht1 by (unfold note_err; by destruct (cn_closeErr x)).
  assert (forall d pre w2, w_calls w2 = w_calls w ++ pre -> (pre = [] \/ pre = [OnOpen d]) -> inv None w2 -> (exists z, w_conns w2 !! d = Some z) ->
    is_Some (w_conns w2 !! c) -> target c x (in_addr i) d w2 ->
    exists w', hand_over (in_data i) d w2 = Some w' /\ inv None w' /\ is_Some (w_conns w' !! c) /\ delivered c x i w w') as Hgo.
  { intros d pre w2 Hcalls Hpre H2 [z Hz] [u Hu'] Htg. destruct (hand_over_ok w2 d z (in_data i) H2 Hz) as (w' & E & Hw' & Hc' & Hk).
    exists w'. split; [done|]. split; [done|]. split; [destruct (Hk c u Hu') as (? & ? & _); by eexists|]. exists d, pre. split; [|split; [|done]].
    - unfold target in *. destruct (is_server x); [|done]. destruct Htg as (y & m & Hy & Hm & Ha). destruct (Hk c y Hy) as (y' & Hy' & _ & Em).
      exists y', m. by rewrite Em.
    - by rewrite Hc', Hcalls, app_assoc. }
  assert (cn_typ x <> ConnTypeUDPServer -> is_server x = false) as Hsv by (intros ?; unfold is_server; by rewrite bool_decide_eq_false_2).
  destruct (cn_typ x) eqn:Ht; try done.
  - unfold readTCP. rewrite Hx. cbn [mbind option_bind]. fold w1.
    destruct (Hgo c [] w1) as (w' & -> & Hw' & Hc' & Hd); [by rewrite app_nil_r|by left|done|by eexists|by eexists|unfold target; by rewrite Hsv by congruence|].
    cbn [mbind option_bind]. eexists _, _. split; [done|]. split; [done|]. split; [done|]. intros He. rewrite He. by destruct hasOnRead.
  - unfold readUDP. rewrite Hx. cbn [mbind option_bind]. fold w1. destruct (in_err i) as [e|] eqn:Ei; [eexists _, _; split; [done|]; split; [done|]; split; [by eexists|done]|].
    rewrite Ht. rewrite bool_decide_eq_true_2 in Hopen by done. rewrite bool_decide_eq_true_2 in Hopen by done. rewrite andb_true_r in Hopen. cbn in Hopen.
    apply negb_true_iff in Hopen. rewrite (bool_decide_eq_true_2 (ConnTypeUDPServer = _)) by done.
    destruct (session_ok w1 c _ local (in_addr i) now H1 Hc1 ltac:(congruence)) as (d & w2 & -> & H2 & Hd & (y & m & Hy & Hyt & Hm & Ha) & Hcalls).
    { unfold note_err. by destruct (cn_closeErr x). }
    cbn [mbind option_bind].
    assert (exists pre, w_calls w2 = w_calls w ++ pre /\ (pre = [] \/ pre = [OnOpen d])) as (pre & Hpre & Hcase).
    { destruct Hcalls as [Hq|Hq]; [exists []|exists [OnOpen d]]; rewrite Hq; split; auto. by rewrite app_nil_r. }
    destruct (Hgo d pre w2 Hpre Hcase H2 Hd ltac:(by exists y)) as (w' & -> & Hw' & Hc' & Hd').
    { unfold target, is_server. rewrite Ht, bool_decide_eq_true_2 by done. by exists y, m. }
    cbn [mbind option_bind]. eexists _, _. split; [done|]. split; [done|]. split; [done|]. done.
  - unfold readUDP. rewrite Hx. cbn [mbind option_bind]. fold w1. destruct (in_err i) as [e|] eqn:Ei; [eexists _, _; split; [done|]; split; [done|]; split; [by eexists|done]|].
    rewrite Ht. rewrite (bool_decide_eq_false_2 (_ = ConnTypeUDPServer)) by done. cbn [mbind option_bind].
    destruct (Hgo c [] w1) as (w' & -> & Hw' & Hc' & Hd); [by rewrite app_nil_r|by left|done|by eexists|by eexists|unfold target; by rewrite Hsv by congruence|].
    cbn [mbind option_bind]. eexists _, _. split; [done|]. split; [done|]. split; [done|]. done.
Qed.

Lemma readConn_ok w c x local now i : inv None w -> w_conns w !! c = Some x -> readable i x = true ->
  exists w', readConn local now i c w = Some w' /\ inv None w' /\ (in_err i = None -> delivered c x i w w').
Proof.
  intros Hw Hx Hr. unfold readConn. destruct (read_ok w c x local now i Hw Hx Hr) as (err & w1 & -> & H1 & [y Hy] & Hd). cbn [mbind option_bind].
  destruct err as [e|].
  - destruct (std_Close_ok w1 c y H1 Hy) as (w2 & -> & H2 & z & Hz & _). cbn [mbind option_bind]. rewrite Hz. cbn [mbind option_bind].
    eexists. split; [done|]. split; [|by intros He; destruct (Hd He)].
    apply (inv_alike_quiet None w2 c z); [done|done|]. by repeat split.
  - exists w1. split; [done|]. split; [done|]. intros He. by apply Hd.
Qed.

Lemma CloseWithError_ok w c x e : inv None w -> w_conns w !! c = Some x -> exists w', CloseWithError e c w = Some w' /\ inv None w' /\ is_Some (w_conns w' !! c).
Proof.
  intros Hw Hx. unfold CloseWithError. rewrite Hx. cbn [mbind option_bind]. assert (c < length (w_conns w))%nat as Hlc by (by eapply lookup_lt_Some).
  destruct (std_Close_ok (set_conn c (note_err (Some e) x) w) c (note_err (Some e) x)) as (w' & -> & Hw' & z & Hz & _).
  - eapply inv_alike_quiet; [done|done|by eapply note_alike].
  - cbn. by rewrite list_lookup_insert_eq.
  - exists w'. split; [done|]. split; [done|]. by exists z.
Qed.

Lemma inv_calls w ks : inv None w -> (forall c, closes_of c ks = []) -> inv None (MkWorld (w_conns w) (connsStd w) (w_calls w ++ ks) (w_shut w)).
Proof.
  intros [I1 I2 I3 I4 I5 I6 I7 I8 I9] Hks. split; cbn [w_conns connsStd w_calls]; try done.
  - intros c x Hx. rewrite closes_app, Hks, app_nil_r. by apply I4.
  - intros c Hc. rewrite closes_app, Hks, app_nil_r. by apply I5.
Qed.

Lemma std_Write_ok w c x b n err : inv None w -> w_conns w !! c = Some x ->
  exists r e w', Write b n err c w = Some (r, e, w') /\ inv None w' /\ is_Some (w_conns w' !! c).
Proof.
  intros Hw Hx. unfold Write. rewrite Hx. cbn [mbind option_bind]. rewrite (iv_added _ _ Hw c x Hx).
  assert (exists r e w1, match cn_typ x with ConnTypeUDPServer | ConnTypeUnix => Some (0, None, w) | _ => write_net n err c w end = Some (r, e, w1) /\
    inv None w1 /\ is_Some (w_conns w1 !! c)) as (r & e & w1 & -> & H1 & Hc).
  { assert (exists r e w1, write_net n err c w = Some (r, e, w1) /\ inv None w1 /\ is_Some (w_conns w1 !! c)) as Hn.
    { unfold write_net. destruct err as [e|]; [|by eexists _, _, _; split; [done|]; split; [|by exists x]].
      destruct (CloseWithError_ok w c x e Hw Hx) as (w1 & -> & H1). by eexists _, _, _. }
    destruct (cn_typ x); try exact Hn; by eexists _, _, _; split; [done|]; split; [|by exists x]. }
  cbn [mbind option_bind]. eexists _, _, _. split; [done|]. destruct (_ && _); [|done]. split; [|done]. by apply inv_calls.
Qed.

Lemma writev_udp_ok bs : forall total w c x, inv None w -> w_conns w !! c = Some x ->
  exists r e w', writev_udp bs total c w = Some (r, e, w') /\ inv None w'.
Proof.
  induction bs as [|[[b n] err] bs IH]; intros total w c x Hw Hx; cbn [writev_udp]; [by eexists _, _, _|].
  destruct (std_Write_ok w c x b n err Hw Hx) as (r & e & w1 & -> & H1 & [y Hy]). cbn [mbind option_bind].
  set (w2 := if _ : bool then _ else w1).
  assert (inv None w2 /\ w_conns w2 !! c = Some y) as [H2 Hy2] by (unfold w2; destruct (_ && _); [split; [by apply inv_calls|done]|done]).
  destruct e as [e|]; [|by eapply IH]. destruct (CloseWithError_ok w2 c y e H2 Hy2) as (w3 & -> & H3 & _). cbn [mbind option_bind]. by eexists _, _, _.
Qed.

Lemma std_Writev_ok w c x bs n err : inv None w -> w_conns w !! c = Some x -> reports n x = false ->
  exists r e w', Writev bs n err c w = Some (r, e, w') /\ inv None w'.
Proof.
  intros Hw Hx Hr. unfold Writev. rewrite Hx. cbn [mbind option_bind]. unfold reports in Hr.
  destruct (bool_decide (cn_typ x = ConnTypeTCP)); [|by eapply writev_udp_ok]. cbn [andb] in Hr. rewrite (iv_added _ _ Hw c x Hx), Hr.
  destruct err as [e|]; [|by eexists _, _, _]. destruct (CloseWithError_ok w c x e Hw Hx) as (w1 & -> & H1 & _). by eexists _, _, _.
Qed.

(** *** Every step *)

Lemma exec_ok l w : inv None w -> safe l w = true -> exists w', exec l w = Some w' /\ inv None w'.
Proof.
  intros Hw Hsafe. destruct l as [nc|nc|c local now i|c b n err|c bs n err|c|c]; cbn [exec NBConn safe] in *.
  - unfold addConn. cbn [w_conns]. rewrite lookup_app_r, Nat.sub_diag by done. cbn [lookup list_lookup mbind option_bind].
    rewrite (bool_decide_eq_false_2 (_ = ConnTypeUDPClientFromRead)) by (by destruct nc as [l|l [r|]]). eexists. split; [done|].
    unfold set_conn, set_std, add_call. cbn [w_conns connsStd w_calls w_shut]. rewrite list_insert_insert_eq.
    rewrite (insert_app_r_alt _ [_]), Nat.sub_diag by done. cbn [insert list_insert].
    apply inv_append; [done|done|by destruct nc as [l|l [r|]]|by destruct nc as [l|l [r|]]|by destruct nc as [l|l [r|]]|by destruct nc as [l|l [r|]]|by case_bool_decide].
  - unfold addDialer. cbn [w_conns]. rewrite lookup_app_r, Nat.sub_diag by done. cbn [lookup list_lookup mbind option_bind]. eexists. split; [done|].
    unfold set_conn, set_std. cbn [w_conns connsStd w_calls w_shut]. rewrite (insert_app_r_alt _ [_]), Nat.sub_diag by done. cbn [insert list_insert].
    rewrite <- (app_nil_r (w_calls w)).
    apply inv_append; [done|done|by destruct nc as [l|l [r|]]|by destruct nc as [l|l [r|]]|by destruct nc as [l|l [r|]]|by destruct nc as [l|l [r|]]|done].
  - destruct (w_conns w !! c) as [x|] eqn:Hx; [|by exists w]. destruct (cn_reading x); [|by exists w].
    destruct (readConn_ok w c x local now i Hw Hx Hsafe) as (w' & ? & ? & _). by exists w'.
  - destruct (w_conns w !! c) as [x|] eqn:Hx; [|by exists w]. destruct (std_Write_ok w c x b n err Hw Hx) as (r & e & w' & -> & H & _). by exists w'.
  - destruct (w_conns w !! c) as [x|] eqn:Hx; [|by exists w]. apply negb_true_iff in Hsafe.
    destruct (std_Writev_ok w c x bs n err Hw Hx Hsafe) as (r & e & w' & -> & H). by exists w'.
  - destruct (w_conns w !! c) as [x|] eqn:Hx; [|by exists w]. destruct (std_Close_ok w c x Hw Hx) as (w' & ? & ? & _). by exists w'.
  - destruct (w_conns w !! c) as [x|] eqn:Hx; [|by exists w]. case_bool_decide; [|by exists w].
    destruct (CloseWithError_ok w c x ErrReadTimeout Hw Hx) as (w' & ? & ? & _). by exists w'.
Qed.

Lemma run_ok ls : forall w, inv None w -> all_safe ls w = true -> exists w', run ls w = Some w' /\ inv None w'.
Proof.
  induction ls as [|l ls IH]; intros w Hw Hs; cbn [run all_safe] in *; [by exists w|]. apply andb_true_iff in Hs as [Hl Hs].
  destruct (exec_ok l w Hw Hl) as (w1 & E & H1). rewrite E in *. cbn [mbind option_bind]. auto.
Qed.

End engine.

(** ** A run *)

Definition dgram (b addr : string) : input := MkInput (str b) (str addr) None.

Example std_run : exists w,
  run false true 0 [LAccept (NetStream (str "l")); LAccept (NetUDP (str "u") None); LRead 1 (str "u") 0 (dgram "a" "p1"); LRead 1 (str "u") 0 (dgram "b" "p2");
    LRead 1 (str "u") 0 (dgram "c" "p1"); LRead 0 [] 0 (MkInput (str "x") [] None); LWrite 3 (str "y") 1 None; LRead 0 [] 0 (MkInput [] [] (Some EOF));
    LClose 1; LClose 1; LClose 0] empty_world = Some w /\
  w_calls w = [OnOpen 0; OnUDPListen 1; OnOpen 2; OnData 2 (str "a"); OnOpen 3; OnData 3 (str "b"); OnData 2 (str "c"); OnData 0 (str "x");
    OnWrittenSize 3 (str "y") 1; OnClose 0 (Some EOF); OnClose 3 None; OnClose 2 None] /\ connsStd w = ∅.
Proof. eexists. split; [vm_compute; reflexivity|]. split; vm_compute; reflexivity. Qed.

(** A session, and [Writev] over it and over a stream, with nobody to report to. *)
Definition std_trace : list label :=
  [LAccept (NetStream (str "l")); LAccept (NetUDP (str "u") None); LRead 1 (str "u") 0 (dgram "a" "p1"); LWritev 2 [(str "x", 1, None); (str "y", 1, None)] 0 None;
   LWritev 0 [(str "z", 0, None)] 1 None; LClose 1].


(** ** Where the code falls short *)

(** Closing a connection that was made but not added panics: [c.p] is nil. *)
Lemma close_before_add_panics : let '(c, w) := NBConn (NetStream (str "l")) empty_world in Close c w = None.
Proof. vm_compute. reflexivity. Qed.

(** [Writev] reports from buffers that [net.Buffers.WriteTo] has emptied, and runs
    off their end. *)
Lemma writev_report_panics : exists w, run false true 0 [LAccept (NetStream (str "l"))] empty_world = Some w /\
  Writev true [(str "ab", 2, None); (str "c", 1, None)] 3 None 0 w = None.
Proof. eexists. split; vm_compute; reflexivity. Qed.

(** Over UDP, [Writev] reports every buffer twice. *)
Lemma writev_udp_reports_twice : exists w r e w', run false true 0 [LAccept (NetUDP (str "l") (Some (str "r")))] empty_world = Some w /\
  Writev true [(str "ab", 2, None)] 0 None 0 w = Some (r, e, w') /\
  w_calls w' = w_calls w ++ [OnWrittenSize 0 (str "ab") 2; OnWrittenSize 0 (str "ab") 2].
Proof. eexists _, _, _, _. split; [vm_compute; reflexivity|]. split; vm_compute; reflexivity. Qed.

(** With a handler of [OnRead], the error of a read is swallowed: the reader goes on
    and the connection is not closed. *)
Lemma onread_error_swallowed : exists w x, run true false 0 [LAccept (NetStream (str "l")); LRead 0 [] 0 (MkInput [] [] (Some EOF))] empty_world = Some w /\
  w_conns w !! 0%nat = Some x /\ cn_reading x = true /\ cn_closed x = false.
Proof. eexists _, _. split; [vm_compute; reflexivity|]. split; [reflexivity|]. by split. Qed.

(** Reading until the cache is empty, as a handler of [OnRead] does, marks the
    connection as ended: what arrives later cannot be read. *)
Lemma drained_cache_ends_reading : exists w b1 e1 w1 b2 e2 w2 w3 b3 e3 w4,
  run true false 0 [LAccept (NetStream (str "l")); LRead 0 [] 0 (MkInput (str "hi") [] None)] empty_world = Some w /\
  Read 8 (MkInput [] [] None) 0 w = Some (b1, e1, w1) /\ b1 = str "hi" /\ e1 = None /\
  Read 8 (MkInput [] [] None) 0 w1 = Some (b2, e2, w2) /\ e2 = Some EOF /\
  run true false 0 [LRead 0 [] 0 (MkInput (str "more") [] None)] w2 = Some w3 /\
  Read 8 (MkInput [] [] None) 0 w3 = Some (b3, e3, w4) /\ b3 = [] /\ e3 = Some EOF.
Proof.
  do 11 eexists. split; [vm_compute; reflexivity|]. split; [vm_compute; reflexivity|]. split; [reflexivity|]. split; [reflexivity|].
  split; [vm_compute; reflexivity|]. split; [reflexivity|]. split; [vm_compute; reflexivity|]. split; [vm_compute; reflexivity|]. by split.
Qed.

(** A datagram of a new peer that was read before the server was closed, and is
    handled after, is entered into the nil map. *)
Lemma late_datagram_panics : exists w, run false false 0 [LAccept (NetUDP (str "u") None); LClose 0] empty_world = Some w /\
  readConn false 0 (str "u") 0 (dgram "a" "p1") 0 w = None.
Proof. eexists. split; vm_compute; reflexivity. Qed.
End Std.
