(* ===== verification/Kqueue.v ===== *)
(** * The kqueue poller (src/poller_kqueue.go)

    Two parts.  First the queue of changes: any goroutine appends the filters it
    wants added or deleted and triggers the poller, whose loop takes the changes
    and hands them to the kernel with its next wait.  Then what the loop does with
    one event of a connection. *)

From Stdlib Require Import ZArith Lia.
From Stdlib Require Import Strings.Byte Strings.String.
From stdpp Require Import base numbers list list_numbers gmap.
From S2P Require Import Prelude Mempool MempoolFacts MempoolProps NbConn NbConnFacts NbConnStream NbConnKernel NbRead NbReadProps.

Open Scope Z_scope.

(** ** The queue of changes *)

Inductive filter := EVFILT_READ | EVFILT_WRITE.
Inductive flag := EV_ADD | EV_DELETE.

#[global] Instance filter_eq_dec : EqDecision filter.
Proof. solve_decision. Defined.
#[global] Instance filter_countable : Countable filter.
Proof.
  refine (inj_countable' (fun f => match f with EVFILT_READ => true | EVFILT_WRITE => false end)
    (fun b => if b : bool then EVFILT_READ else EVFILT_WRITE) _). by intros [].
Defined.

Record kevent := MkKevent { Ident : Z; Flags : flag; Filter : filter }.

(** The filters a kqueue has. *)
Definition filters := gset (Z * filter).

(** [kevent(2)] fails a change of a descriptor that is not open (EBADF) and the
    removal of a filter that is not there (ENOENT). *)
Definition fails (open : gset Z) (k : filters) (ch : kevent) : bool :=
  bool_decide (Ident ch ∉ open) || (match Flags ch with EV_DELETE => bool_decide ((Ident ch, Filter ch) ∉ k) | EV_ADD => false end).
Definition apply_change (k : filters) (ch : kevent) : filters :=
  match Flags ch with
  | EV_ADD => {[(Ident ch, Filter ch)]} ∪ k
  | EV_DELETE => k ∖ {[(Ident ch, Filter ch)]}
  end.

(** The changes of one call, in order; [mem] says for which of them there is no
    memory.  A change that fails is reported as an event while there is [room]
    for one, and the next is tried; with no room left the call returns the error
    and the rest is not tried.  The result: the filters, the changes reported, the
    changes without effect on an open descriptor or not tried, and whether the
    call gave up. *)
Fixpoint register (open : gset Z) (room : nat) (mem : list bool) (k : filters) (chs : list kevent) : filters * list kevent * list kevent * bool :=
  match chs with
  | [] => (k, [], [], false)
  | ch :: rest =>
      let refused := match Flags ch, mem with EV_ADD, false :: _ => true | _, _ => false end in
      if fails open k ch || refused then
        match room with
        | O => (k, [], ch :: rest, true)
        | S room =>
            let '(k', errs, lost, gave_up) := register open room (tail mem) k rest in
            (k', ch :: errs, (if fails open k ch then lost else ch :: lost), gave_up)
        end
      else register open room (tail mem) (apply_change k ch) rest
  end.

(** The changes of the operations of the poller. *)
Definition addRead (fd : Z) : list kevent := [MkKevent fd EV_ADD EVFILT_READ].
Definition resetRead (fd : Z) : list kevent := [MkKevent fd EV_DELETE EVFILT_WRITE].
Definition modWrite (fd : Z) : list kevent := [MkKevent fd EV_ADD EVFILT_WRITE].
Definition addReadWrite (fd : Z) : list kevent := [MkKevent fd EV_ADD EVFILT_READ; MkKevent fd EV_ADD EVFILT_WRITE].

Inductive operation := AddRead (fd : Z) | ResetRead (fd : Z) | ModWrite (fd : Z) | AddReadWrite (fd : Z).
Definition changes (o : operation) : list kevent :=
  match o with
  | AddRead fd => addRead fd
  | ResetRead fd => resetRead fd
  | ModWrite fd => modWrite fd
  | AddReadWrite fd => addReadWrite fd
  end.

(** Where [readWriteLoop] is: at the test of [shutdown]; about to take the list;
    about to call [Kevent] with the changes; waiting in it; with events to handle;
    out of the loop. *)
Inductive loop_pc := AtCheck | AtTake | AtKevent (chs : list kevent) | Waiting | Handling (evs : list (Z * filter)) | Stopped.

(** As history of an open descriptor: the changes for its number that were still
    on their way when it was opened, and those asked for since. *)
Record descriptor := MkDescriptor { d_left : list kevent; d_own : list kevent }.

(** [p_open]: the open descriptors; [p_user]: the user event is pending;
    [p_callers]: goroutines between appending (or setting [shutdown]) and
    [trigger]; [p_lost]: as history, changes the kernel did not take. *)
Record poller := MkPoller {
  eventList : list kevent;
  shutdown : bool;
  p_open : gmap Z descriptor;
  p_kernel : filters;
  p_user : bool;
  p_callers : nat;
  p_loop : loop_pc;
  p_lost : list kevent
}.

Definition newPoller : poller := MkPoller [] false ∅ ∅ false 0 AtCheck [].

Definition set_loop (l : loop_pc) (p : poller) : poller :=
  MkPoller (eventList p) (shutdown p) (p_open p) (p_kernel p) (p_user p) (p_callers p) l (p_lost p).

(** Changes on their way to the kernel. *)
Definition underway (p : poller) : list kevent :=
  match p_loop p with AtKevent chs => chs | _ => [] end ++ eventList p.

Definition about (fd : Z) (chs : list kevent) : list kevent := base.filter (fun ch => Ident ch = fd) chs.
Definition record (chs : list kevent) (o : gmap Z descriptor) : gmap Z descriptor :=
  map_imap (fun fd d => Some (MkDescriptor (d_left d) (d_own d ++ about fd chs))) o.

(** Steps: descriptors are opened and closed, which removes their filters; the two
    halves of an operation and of [stop]; and the loop.  [Kevent] returns the
    changes that failed, or waits and returns some events of filters that are
    set, the user event among them or not; or it fails for good and the loop ends.
    The event buffer has 1024 places. *)
Inductive label :=
| LOpen (fd : Z)
| LClose (fd : Z)
| LAppend (o : operation)
| LShutdown
| LTrigger
| LLoop (mem : list bool) (evs : list (Z * filter)) (user : bool)
| LFatal.

Definition exec (l : label) (p : poller) : option poller :=
  match l with
  | LOpen fd =>
      match p_open p !! fd with
      | None => Some (MkPoller (eventList p) (shutdown p) (<[fd := MkDescriptor (about fd (underway p)) []]> (p_open p)) (p_kernel p)
                        (p_user p) (p_callers p) (p_loop p) (p_lost p))
      | Some _ => None
      end
  | LClose fd =>
      Some (MkPoller (eventList p) (shutdown p) (delete fd (p_open p)) (base.filter (fun x => x.1 <> fd) (p_kernel p))
              (p_user p) (p_callers p) (p_loop p) (p_lost p))
  | LAppend o =>
      Some (MkPoller (eventList p ++ changes o) (shutdown p) (record (changes o) (p_open p)) (p_kernel p)
              (p_user p) (S (p_callers p)) (p_loop p) (p_lost p))
  | LShutdown =>
      Some (MkPoller (eventList p) true (p_open p) (p_kernel p) (p_user p) (S (p_callers p)) (p_loop p) (p_lost p))
  | LTrigger =>
      match p_callers p with
      | S n => Some (MkPoller (eventList p) (shutdown p) (p_open p) (p_kernel p) true n (p_loop p) (p_lost p))
      | O => None
      end
  | LLoop mem evs user =>
      match p_loop p with
      | AtCheck => Some (set_loop (if shutdown p then Stopped else AtTake) p)
      | AtTake =>
          Some (MkPoller [] (shutdown p) (p_open p) (p_kernel p) (p_user p) (p_callers p) (AtKevent (eventList p)) (p_lost p))
      | AtKevent chs =>
          let '(k, errs, lost, gave_up) := register (dom (p_open p)) 1024 mem (p_kernel p) chs in
          let next := if gave_up : bool then AtCheck else match errs with [] => Waiting | _ => Handling (map (fun ch => (Ident ch, Filter ch)) errs) end in
          Some (MkPoller (eventList p) (shutdown p) (p_open p) k (p_user p) (p_callers p) next (p_lost p ++ lost))
      | Waiting =>
          if ((negb (bool_decide (evs = [])) || user) && (implb user (p_user p)) && bool_decide (Forall (fun e => e ∈ p_kernel p) evs)) then
            Some (MkPoller (eventList p) (shutdown p) (p_open p) (p_kernel p) (p_user p && negb user) (p_callers p) (Handling evs) (p_lost p))
          else None
      | Handling _ => Some (set_loop AtCheck p)
      | Stopped => None
      end
  | LFatal =>
      match p_loop p with
      | AtKevent chs => Some (MkPoller (eventList p) (shutdown p) (p_open p) (p_kernel p) (p_user p) (p_callers p) Stopped (p_lost p ++ chs))
      | Waiting => Some (set_loop Stopped p)
      | _ => None
      end
  end.

(** A step that cannot be taken is skipped. *)
Fixpoint run (ls : list label) (p : poller) : poller :=
  match ls with
  | [] => p
  | l :: ls => run ls (default p (exec l p))
  end.

(** The last change for a filter decides whether it is wanted. *)
Definition decide_one (fd : Z) (f : filter) (b : bool) (ch : kevent) : bool :=
  if bool_decide (Ident ch = fd /\ Filter ch = f) then match Flags ch with EV_ADD => true | EV_DELETE => false end else b.
Definition wanted (fd : Z) (f : filter) (b : bool) (chs : list kevent) : bool := foldl (decide_one fd f) b chs.

(** Calls with memory for their filters, that do not give up and do not fail. *)
Definition reliable (l : label) (p : poller) : bool :=
  match l with
  | LLoop mem _ _ =>
      match p_loop p with
      | AtKevent chs => forallb id mem && negb (register (dom (p_open p)) 1024 mem (p_kernel p) chs).2
      | _ => true
      end
  | LFatal => false
  | _ => true
  end.
Fixpoint all_reliable (ls : list label) (p : poller) : bool :=
  match ls with
  | [] => true
  | l :: ls => reliable l p && all_reliable ls (default p (exec l p))
  end.

(** ** The invariant *)

Lemma wanted_app fd f b x y : wanted fd f b (x ++ y) = wanted fd f (wanted fd f b x) y.
Proof. apply foldl_app. Qed.

Lemma wanted_about fd f chs : forall b, wanted fd f b (about fd chs) = wanted fd f b chs.
Proof.
  induction chs as [|ch chs IH]; intros b; [done|]. unfold about. rewrite filter_cons. destruct (decide (Ident ch = fd)) as [E|E]; cbn.
  - apply IH.
  - unfold decide_one at 2. rewrite bool_decide_eq_false_2 by tauto. apply IH.
Qed.

Lemma wanted_mono fd f chs : forall b, wanted fd f false chs = true -> wanted fd f b chs = true.
Proof.
  induction chs as [|ch chs IH]; intros b; [done|]. cbn. unfold decide_one. case_bool_decide; [done|]. apply IH.
Qed.

(** The kernel's filters of an open descriptor after the changes of a call, when
    none for the descriptor was lost. *)
Lemma register_wanted open fd f : fd ∈ open -> forall chs room mem k k' errs lost gave_up,
  register open room mem k chs = (k', errs, lost, gave_up) -> about fd lost = [] ->
  bool_decide ((fd, f) ∈ k') = wanted fd f (bool_decide ((fd, f) ∈ k)) chs.
Proof.
  intros Hfd. induction chs as [|ch chs IH]; intros room mem k k' errs lost gave_up; cbn [register].
  { by intros [= <- _ _ _]. }
  change (wanted fd f ?b (ch :: chs)) with (wanted fd f (decide_one fd f b ch) chs). unfold decide_one.
  assert (forall x : list kevent, about fd (ch :: x) = [] -> Ident ch <> fd /\ about fd x = []) as Hcons.
  { intros x. unfold about. rewrite filter_cons. by case_decide. }
  destruct (fails open k ch) eqn:Ef; cbn [orb].
  - assert ((if bool_decide (Ident ch = fd /\ Filter ch = f) then match Flags ch with EV_ADD => true | EV_DELETE => false end
      else bool_decide ((fd, f) ∈ k)) = bool_decide ((fd, f) ∈ k)) as ->.
    { case_bool_decide as Hc; [|done]. destruct Hc as [<- <-]. unfold fails in Ef. rewrite bool_decide_eq_false_2 in Ef by (intros H; by apply H).
      destruct (Flags ch); [done|]. apply bool_decide_eq_true in Ef. by rewrite bool_decide_eq_false_2. }
    destruct room as [|room].
    + intros [= <- _ <- _] [_ Hl]%Hcons. rewrite <- (wanted_about fd f chs). by rewrite Hl.
    + destruct (register open room (tail mem) k chs) as [[[k1 e1] l1] g1] eqn:Er. intros [= <- _ <- _] Hl. by eapply IH.
  - set (refused := match Flags ch, mem with EV_ADD, false :: _ => true | _, _ => false end). destruct refused eqn:Hr.
    + assert (forall lost', about fd (ch :: lost') = [] -> bool_decide (Ident ch = fd /\ Filter ch = f) = false) as Hn.
      { intros l' [Hn _]%Hcons. apply bool_decide_eq_false_2. tauto. }
      destruct room as [|room].
      * intros [= <- _ <- _] Hl. rewrite (Hn _ Hl). apply Hcons in Hl as [_ Hl]. rewrite <- (wanted_about fd f chs). by rewrite Hl.
      * destruct (register open room (tail mem) k chs) as [[[k1 e1] l1] g1] eqn:Er. intros [= <- _ <- _] Hl. rewrite (Hn _ Hl).
        apply Hcons in Hl as [_ Hl]. by eapply IH.
    + intros E Hl. rewrite (IH _ _ _ _ _ _ _ E Hl). f_equal. unfold apply_change.
      destruct (decide (Ident ch = fd /\ Filter ch = f)) as [Hc|Hc].
      * rewrite (bool_decide_eq_true_2 (_ /\ _)) by done. destruct Hc as [<- <-].
        destruct (Flags ch); [apply bool_decide_eq_true_2; set_solver|apply bool_decide_eq_false_2; set_solver].
      * rewrite (bool_decide_eq_false_2 (_ /\ _)) by done. apply bool_decide_ext.
        assert ((fd, f) <> (Ident ch, Filter ch)) by (intros [= H1 H2]; apply Hc; done). destruct (Flags ch); set_solver.
Qed.

(** Filters are only added to open descriptors. *)
Lemma register_open open chs : forall room mem k k' errs lost gave_up,
  register open room mem k chs = (k', errs, lost, gave_up) -> (forall x, x ∈ k -> x.1 ∈ open) -> forall x, x ∈ k' -> x.1 ∈ open.
Proof.
  induction chs as [|ch chs IH]; intros room mem k k' errs lost gave_up; cbn [register].
  { by intros [= <- _ _ _]. }
  destruct (_ || _) eqn:Ef.
  - destruct room as [|room]; [by intros [= <- _ _ _]|].
    destruct (register open room (tail mem) k chs) as [[[k1 e1] l1] g1] eqn:Er. intros [= <- _ _ _]. by eapply IH.
  - intros E Hk. eapply IH; [exact E|]. apply orb_false_iff in Ef as [Ef _]. apply orb_false_iff in Ef as [Ef _].
    apply bool_decide_eq_false, dec_stable in Ef. unfold apply_change. intros x. destruct (Flags ch); [|set_solver].
    intros [->%elem_of_singleton|H]%elem_of_union; [done|by apply Hk].
Qed.

(** A call with memory that does not give up loses nothing. *)
Lemma register_lost open chs : forall room mem k k' errs lost,
  forallb id mem = true -> register open room mem k chs = (k', errs, lost, false) -> lost = [].
Proof.
  induction chs as [|ch chs IH]; intros room mem k k' errs lost Hm; cbn [register].
  { by intros [= _ _ <-]. }
  assert (forallb id (tail mem) = true) as Ht by (destruct mem as [|[] mem]; done).
  assert (match Flags ch, mem with EV_ADD, false :: _ => true | _, _ => false end = false) as -> by (destruct (Flags ch), mem as [|[] mem]; done).
  rewrite orb_false_r. destruct (fails open k ch) eqn:Ef; [|by apply IH]. destruct room as [|room]; [done|].
  destruct (register open room (tail mem) k chs) as [[[k1 e1] l1] g1] eqn:Er. intros [= _ _ <- ->]. by eapply IH.
Qed.

(** The loop will look at the list, or at [shutdown], without being woken. *)
Definition looks_at_list (l : loop_pc) : bool := match l with AtKevent _ | Waiting => false | _ => true end.
Definition looks_at_shutdown (l : loop_pc) : bool := match l with AtCheck | Handling _ | Stopped => true | _ => false end.

Record inv (p : poller) : Prop := {
  kv_order : forall fd d f, p_open p !! fd = Some d -> about fd (p_lost p) = [] ->
    wanted fd f (bool_decide ((fd, f) ∈ p_kernel p)) (underway p) = wanted fd f false (d_left d ++ d_own d);
  kv_open : forall x, x ∈ p_kernel p -> x.1 ∈ dom (p_open p);
  kv_list : eventList p <> [] -> looks_at_list (p_loop p) = true \/ p_user p = true \/ (0 < p_callers p)%nat;
  kv_stop : shutdown p = true -> looks_at_shutdown (p_loop p) = true \/ p_user p = true \/ (0 < p_callers p)%nat
}.

Lemma about_app fd x y : about fd (x ++ y) = about fd x ++ about fd y.
Proof. apply filter_app. Qed.

Lemma open_inv fd p p' : inv p -> exec (LOpen fd) p = Some p' -> inv p'.
Proof.
  intros [I1 I2 I3 I4] E. cbn [exec] in E. destruct (p_open p !! fd) as [d|] eqn:Eo; [done|]. apply (inj Some) in E as <-.
  split; cbn [p_open p_kernel p_lost eventList p_loop shutdown]; try done.
  - intros fd' d f Hd Hl. apply lookup_insert_Some in Hd as [[-> <-]|[Hn Hd]]; [|by apply I1]. cbn [d_left d_own].
    rewrite app_nil_r, wanted_about. rewrite bool_decide_eq_false_2; [done|]. intros Hk%I2. apply elem_of_dom in Hk as [? Hk]. cbn in Hk. congruence.
  - intros x Hx%I2. rewrite dom_insert. set_solver.
Qed.

Lemma descriptor_close_inv fd p p' : inv p -> exec (LClose fd) p = Some p' -> inv p'.
Proof.
  intros [I1 I2 I3 I4] E. cbn [exec] in E. apply (inj Some) in E as <-.
  split; cbn [p_open p_kernel p_lost eventList p_loop shutdown]; try done.
  - intros fd' d f Hd Hl. apply lookup_delete_Some in Hd as [Hn Hd].
    rewrite (bool_decide_ext _ ((fd', f) ∈ p_kernel p)); [by apply I1|]. rewrite elem_of_filter. cbn. naive_solver.
  - intros x [Hx Hk%I2]%elem_of_filter. rewrite dom_delete. set_solver.
Qed.

Lemma append_inv o p p' : inv p -> exec (LAppend o) p = Some p' -> inv p'.
Proof.
  intros [I1 I2 I3 I4] E. cbn [exec] in E. apply (inj Some) in E as <-.
  split; cbn [p_open p_kernel p_lost eventList p_loop shutdown p_user p_callers]; [| |intros _; right; right; lia|intros _; right; right; lia].
  - intros fd d f Hd Hl. unfold record in Hd. rewrite map_lookup_imap in Hd. destruct (p_open p !! fd) as [d0|] eqn:Eo; [|done].
    injection Hd as <-. cbn [d_left d_own]. rewrite app_assoc, wanted_app, <- (I1 fd d0 f Eo Hl), wanted_about.
    unfold underway. cbn [p_loop eventList]. by rewrite app_assoc, !wanted_app.
  - intros x Hx%I2. apply elem_of_dom in Hx as [d Hd]. apply elem_of_dom. unfold record. rewrite map_lookup_imap, Hd. by eexists.
Qed.

Lemma kevent_inv chs mem evs user p p' : inv p -> p_loop p = AtKevent chs -> exec (LLoop mem evs user) p = Some p' -> inv p'.
Proof.
  intros [I1 I2 I3 I4] El E. cbn [exec] in E. rewrite El in *.
  destruct (register _ _ _ _ _) as [[[k errs] lost] gave_up] eqn:Er. apply (inj Some) in E as <-.
  set (next := if gave_up then AtCheck else _). assert (next = AtCheck \/ next = Waiting \/ exists es, next = Handling es) as Hnext.
  { unfold next. destruct gave_up; [by left|]. destruct errs; [auto|]. right; right. by eexists. }
  split; cbn [p_open p_kernel p_lost eventList p_loop shutdown p_user p_callers].
  - intros fd d f Hd Hl. rewrite about_app in Hl. apply app_eq_nil in Hl as [Hl Hl'].
    rewrite <- (I1 fd d f Hd Hl). unfold underway at 2. rewrite El, wanted_app.
    assert (fd ∈ dom (p_open p)) as Hin by (apply elem_of_dom; by eexists).
    rewrite <- (register_wanted _ fd f Hin _ _ _ _ _ _ _ _ Er Hl').
    unfold underway. cbn [p_loop eventList]. by destruct Hnext as [-> | [-> | [es ->]]].
  - by apply (register_open _ _ _ _ _ _ _ _ _ Er).
  - intros H. destruct (I3 H) as [Hk|Hk]; [done|by right].
  - intros H. destruct (I4 H) as [Hk|Hk]; [done|by right].
Qed.

Lemma change_exec_inv l p p' : inv p -> exec l p = Some p' -> inv p'.
Proof.
  intros I E. destruct l as [fd|fd|o| | |mem evs user|].
  - by eapply open_inv.
  - by eapply descriptor_close_inv.
  - by eapply append_inv.
  - destruct I as [I1 I2 I3 I4]. cbn [exec] in E. apply (inj Some) in E as <-. split; try done; intros _; right; right; cbn; lia.
  - destruct I as [I1 I2 I3 I4]. cbn [exec] in E. destruct (p_callers p) as [|n]; [done|]. apply (inj Some) in E as <-. split; try done; auto.
  - destruct (p_loop p) as [| |chs| |es|] eqn:El; [| |by eapply kevent_inv| | |]; destruct I as [I1 I2 I3 I4]; cbn [exec] in E; rewrite El in *;
      unfold underway in I1; rewrite El in I1.
    + apply (inj Some) in E as <-. destruct (shutdown p) eqn:Es; split; cbn [p_open p_kernel p_lost eventList p_loop shutdown p_user p_callers set_loop]; try done; auto.
      by rewrite Es.
    + apply (inj Some) in E as <-. split; cbn [p_open p_kernel p_lost eventList p_loop shutdown p_user p_callers]; try done; auto.
      intros fd d f Hd Hl. unfold underway. cbn [p_loop eventList]. rewrite app_nil_r. by apply I1.
    + destruct (_ && _); [|done]. apply (inj Some) in E as <-. split; cbn; auto.
    + apply (inj Some) in E as <-. split; cbn; auto.
    + done.
  - destruct I as [I1 I2 I3 I4]. cbn [exec] in E. destruct (p_loop p) as [| |chs| |es|] eqn:El; try done; apply (inj Some) in E as <-;
      unfold underway in I1; rewrite El in I1; split; cbn [p_open p_kernel p_lost eventList p_loop shutdown p_user p_callers set_loop]; auto.
    intros fd d f Hd Hl. rewrite about_app in Hl. apply app_eq_nil in Hl as [Hl Hl'].
    rewrite <- (I1 fd d f Hd Hl). unfold underway. cbn [p_loop eventList app]. rewrite wanted_app. f_equal.
    by rewrite <- (wanted_about fd f chs), Hl'.
Qed.

Lemma change_run_inv ls : forall p, inv p -> inv (run ls p).
Proof.
  induction ls as [|l ls IH]; intros p Hp; cbn [run]; [done|].
  destruct (exec l p) as [p'|] eqn:E; cbn [default]; [apply IH; by eapply change_exec_inv|by apply IH].
Qed.

Lemma exec_lost l p p' : reliable l p = true -> exec l p = Some p' -> p_lost p' = p_lost p.
Proof.
  intros Hr E. destruct l as [fd|fd|o| | |mem evs user|]; cbn [exec reliable] in *; [| | | | |destruct (p_loop p) as [| |chs| |es|]|done];
    try (repeat case_match; try done; by apply (inj Some) in E as <-).
  destruct (register _ _ _ _ _) as [[[k errs] lost] gave_up] eqn:Er. cbn [snd] in Hr. apply andb_true_iff in Hr as [Hm ->%negb_true_iff].
  apply (inj Some) in E as <-. cbn [p_lost]. by rewrite (register_lost _ _ _ _ _ _ _ _ Hm Er), app_nil_r.
Qed.

Lemma run_lost ls : forall p, all_reliable ls p = true -> p_lost (run ls p) = p_lost p.
Proof.
  induction ls as [|l ls IH]; intros p H; [done|]. cbn [run all_reliable] in *. apply andb_true_iff in H as [Hr H].
  rewrite (IH _ H). destruct (exec l p) as [p'|] eqn:E; [|done]. by apply (exec_lost l).
Qed.

(** C30: the changes of a kqueue, however operations, [stop], the loop and the
    opening and closing of descriptors interleave: (1) closed descriptors have no
    filters; (2) for every open descriptor of which the kernel lost no change, its
    filters, with the changes still on their way applied in order, are what the
    last change asked for, among those asked for since it was opened and those for
    its number that were on their way then; (3) the kernel loses changes only in a
    call that fails for good, for which there is no memory, or in which more than
    1024 changes fail; (4) no wake-up is lost: when the loop waits and nobody is
    about to trigger it, a change not yet with the kernel or a shutdown it has not
    seen means that the user event is pending, so that the wait returns; (5) when
    it waits with nothing pending, an open descriptor of which no change was lost
    has every filter asked for and not withdrawn since it was opened, and exactly
    these if no change for its number was on its way when it was opened.  Neither
    condition can be dropped: [refused_filter_lost], [former_filter_stays]. *)
Theorem no_lost_change (ls : list label) :
  let p := run ls newPoller in
  (forall x, x ∈ p_kernel p -> is_Some (p_open p !! x.1)) /\
  (forall fd d f, p_open p !! fd = Some d -> about fd (p_lost p) = [] ->
     wanted fd f (bool_decide ((fd, f) ∈ p_kernel p)) (underway p) = wanted fd f false (d_left d ++ d_own d)) /\
  (all_reliable ls newPoller = true -> p_lost p = []) /\
  (p_loop p = Waiting -> p_callers p = 0%nat -> eventList p <> [] \/ shutdown p = true ->
     exists p', exec (LLoop [] [] true) p = Some p' /\ p_loop p' = Handling []) /\
  (p_loop p = Waiting -> p_callers p = 0%nat -> p_user p = false ->
     shutdown p = false /\
     forall fd d f, p_open p !! fd = Some d -> about fd (p_lost p) = [] ->
       (wanted fd f false (d_own d) = true -> (fd, f) ∈ p_kernel p) /\
       (d_left d = [] -> (fd, f) ∈ p_kernel p -> wanted fd f false (d_own d) = true)).
Proof.
  intros p. assert (inv p) as [I1 I2 I3 I4] by (apply change_run_inv; split; try done; intros x Hx; by apply not_elem_of_empty in Hx).
  split; [intros x Hx; by apply elem_of_dom, I2|]. split; [exact I1|]. split; [apply run_lost|]. split.
  - intros Hw Hc Hor. assert (p_user p = true) as Hu.
    { destruct Hor as [H|H]; [destruct (I3 H) as [Hl|[Hu|Hl]]|destruct (I4 H) as [Hl|[Hu|Hl]]]; try done; try lia; by rewrite Hw in Hl. }
    eexists. cbn [exec]. rewrite Hw, Hu. rewrite (bool_decide_eq_true_2 (Forall _ [])) by constructor. rewrite orb_true_r. cbn. done.
  - intros Hw Hc Hu. assert (eventList p = []) as Hl.
    { destruct (eventList p) eqn:E; [done|]. destruct (I3 ltac:(done)) as [H|[H|H]]; [by rewrite Hw in H|congruence|lia]. }
    split; [destruct (shutdown p); [|done]; destruct (I4 eq_refl) as [H|[H|H]]; [by rewrite Hw in H|congruence|lia]|].
    intros fd d f Hd Hno. pose proof (I1 fd d f Hd Hno) as Hk. unfold underway in Hk. rewrite Hw, Hl, (wanted_app _ _ _ (d_left d)) in Hk.
    change (wanted fd f ?b ([] ++ [])) with b in Hk. split.
    + intros Ho. apply (wanted_mono _ _ _ (wanted fd f false (d_left d))) in Ho. rewrite Ho in Hk. by apply bool_decide_eq_true in Hk.
    + intros Hd0 Hin. rewrite Hd0 in Hk. change (wanted fd f false []) with false in Hk. rewrite <- Hk. by apply bool_decide_eq_true.
Qed.

(** ** Changes in action *)

(** A whole turn of the loop, from its test to the wait, and the turn that a
    wake-up starts. *)
Definition turn : list label := [LLoop [] [] false; LLoop [] [] false; LLoop [] [] false].
Definition woken : list label := LTrigger :: LLoop [] [] true :: LLoop [] [] false :: turn.

(** A descriptor is read, written, closed and used again. *)
Definition reused : list label :=
  turn ++ [LOpen 5; LAppend (AddRead 5)] ++ woken ++ [LAppend (ModWrite 5)] ++ woken ++ [LClose 5; LOpen 5; LAppend (AddRead 5)] ++ woken.

Lemma no_lost_change_witness :
  let p := run reused newPoller in
  p_kernel (run (take 18 reused) newPoller) = {[(5, EVFILT_READ); (5, EVFILT_WRITE)]} /\
  (5, EVFILT_READ) ∈ p_kernel p /\ (5, EVFILT_WRITE) ∉ p_kernel p.
Proof.
  destruct (no_lost_change reused) as (_ & _ & _ & _ & H).
  destruct (H eq_refl eq_refl eq_refl) as [_ H']. split; [vm_compute; reflexivity|].
  destruct (H' 5 (MkDescriptor [] [MkKevent 5 EV_ADD EVFILT_READ]) EVFILT_READ eq_refl eq_refl) as [Hr _].
  destruct (H' 5 (MkDescriptor [] [MkKevent 5 EV_ADD EVFILT_READ]) EVFILT_WRITE eq_refl eq_refl) as [_ Hw].
  split; [apply Hr; reflexivity|]. intros Hin. discriminate (Hw eq_refl Hin).
Defined.

(** No memory for a filter: the failure comes back as an event of the connection,
    and the filter is never asked for again. *)
Lemma refused_filter_lost :
  let p := run (turn ++ [LOpen 5; LAppend (AddRead 5); LTrigger; LLoop [] [] true; LLoop [] [] false;
    LLoop [] [] false; LLoop [] [] false; LLoop [false] [] false; LLoop [] [] false] ++ turn) newPoller in
  p_loop p = Waiting /\ p_lost p = [MkKevent 5 EV_ADD EVFILT_READ] /\ p_kernel p = ∅.
Proof. vm_compute. split_and!; reflexivity. Qed.

(** A connection asks for its write filter and is closed; the next connection
    with its number gets the filter. *)
Lemma former_filter_stays :
  let p := run (turn ++ [LOpen 5; LAppend (ModWrite 5); LClose 5; LOpen 5] ++ woken) newPoller in
  p_open p !! 5 = Some (MkDescriptor [MkKevent 5 EV_ADD EVFILT_WRITE] []) /\ p_kernel p = {[(5, EVFILT_WRITE)]}.
Proof. vm_compute. split; reflexivity. Qed.

(** A change for a closed descriptor fails, comes back as an event, and the loop
    goes on. *)
Lemma closed_change_fails :
  let p := run (turn ++ [LOpen 5; LAppend (AddRead 5); LClose 5; LTrigger; LLoop [] [] true; LLoop [] [] false; LLoop [] [] false; LLoop [] [] false;
    LLoop [] [] false]) newPoller in
  p_loop p = Handling [(5, EVFILT_READ)] /\ p_kernel p = ∅ /\ p_lost p = [].
Proof. vm_compute. split_and!; reflexivity. Qed.

(** ** One event *)

Section events.
Context {K A : Type} `{!Kernel K} `{!Allocator A}.
Context (rc : rconf).
Abbreviation nbconn := (nbconn K A).
Context (onData : bytes -> nbconn -> res nbconn) (onRead : nbconn -> res nbconn).

(** [flush] and [resetRead] of the connection, over this poller. *)
Context (flush : nbconn -> res nbconn) (c_resetRead : nbconn -> nbconn).

(** The read loop; [true]: the handling of the event ends with it. *)
Fixpoint kread_loop (fuel : nat) (s : nbconn) : res (nbconn * bool) :=
  match fuel with
  | O => OutOfFuel
  | S fuel =>
      let bufLen := ReadBufferSize rc in
      let '(n, b, err, s) := ReadAndGetConn bufLen s in
      s ← (if 0 <? n then deliver onData (take (Z.to_nat n) b) s else Ret s);
      match err with
      | Some (ErrSys EINTR) => kread_loop fuel s
      | Some (ErrSys EAGAIN) => Ret (s, true)
      | Some e => '(_, s) ← closeWithError (Some e) s; Ret (s, false)
      | None =>
          if n =? 0 then '(_, s) ← closeWithError (Some ErrEOF) s; Ret (s, false)
          else if (n <? bufLen) && negb (isDatagram (c_typ s)) then Ret (s, false)
          else kread_loop fuel s
      end
  end.

(** [readWrite]; [eof]: the flag [EV_EOF]; [onConnected]: the handler of a dialed
    connection, with which the result is [None] afterwards. *)
Definition readWrite (fuel : nat) (onConnected : option (nbconn -> res nbconn)) (ev : kevent) (eof : bool) (s : nbconn) : res nbconn :=
  match Flags ev with
  | EV_DELETE => Ret s
  | EV_ADD =>
      if inTable s then
        match Filter ev with
        | EVFILT_READ =>
            '(s, stop) ← (if hasOnRead rc then s ← onRead s; Ret (s, false) else kread_loop fuel s);
            if (stop : bool) then Ret s
            else if (eof : bool) then
              match onConnected with
              | None => flush s
              | Some h => s ← h s; Ret (c_resetRead s)
              end
            else Ret s
        | EVFILT_WRITE =>
            match onConnected with
            | None => flush s
            | Some h => h (c_resetRead s)
            end
        end
      else Ret s
  end.
End events.

Section reading.
Context {K A : Type} `{!Kernel K} `{!KernelView K} `{!KernelLaws K} `{!ReceiveView K} `{!ReceiveLaws K}.
Context `{!Allocator A} `{!AllocatorLaws A}.
Context (g : engine) (rc : rconf) (others : gset nat).
Abbreviation nbconn := (nbconn K A).
Abbreviation inbox s := (waiting (kern s) (c_fd s)).
Context (onData : bytes -> nbconn -> res nbconn) (onRead : nbconn -> res nbconn) (flush : nbconn -> res nbconn) (c_resetRead : nbconn -> nbconn).
Context (handler : handler_ok g others onData) (bufsize : 0 < ReadBufferSize rc).

(** What reading on after [b] comes to: everything that was there is delivered, and
    the connection is as it was or was closed at the end of the stream; or a
    system call failed. *)
Definition all_read (s s' : nbconn) : Prop :=
  (data_of (calls s') = data_of (calls s) ++ inbox s /\
     (settled g others s' /\ inbox s' = [] \/ c_closed s' = true /\ closeErr s' = Some ErrEOF)) \/
  (failed s' /\ exists d, data_of (calls s') = data_of (calls s) ++ d /\ d `prefix_of` inbox s).

Lemma eof_closes s : settled g others s -> hasPoller s = true ->
  exists x s', closeWithError (Some ErrEOF) s = Ret (x, s') /\ data_of (calls s') = data_of (calls s) /\ c_closed s' = true /\ closeErr s' = Some ErrEOF.
Proof.
  intros Hs Hp. destruct (closeWithError_ok g others (Some ErrEOF) s Hs) as (x & s' & E & (Hc & _ & He & _) & _).
  exists x, s'. split; [done|]. unfold closeWithError in E. rewrite (ok_open _ _ (proj1 Hs)) in E.
  apply close_calls in E as (-> & _); [|done|apply Hs]. by rewrite data_of_close.
Qed.

Lemma kread_ok fuel : forall s, settled g others s -> hasPoller s = true ->
  len (inbox s) + Z.of_nat (patience (kern s)) < Z.of_nat fuel ->
  exists s' stop, kread_loop rc onData fuel s = Ret (s', stop) /\ all_read s s'.
Proof.
  induction fuel as [|fuel IH]; intros s Hs Hp Hfuel; [pose proof (len_nonneg (inbox s)); lia|]. cbn [kread_loop].
  destruct (read_once g rc others onData s handler bufsize Hs Hp) as (n & b & e & s1 & s2 & -> & -> & Hs2 & Hp2 & Ht2 & Hd2 & Hi2 & Hpa & He).
  cbn [mbind res_bind]. assert (len (inbox s) = len b + len (inbox s2)) as Hl by (rewrite Hi2 at 1; apply len_app).
  assert (inbox s2 = [] -> all_read s s2) as Hstop.
  { intros Hz. left. split; [by rewrite Hd2, Hi2, Hz, app_nil_r|]. by left. }
  assert (0 < len b \/ (patience (kern s2) < patience (kern s))%nat ->
    exists s' stop, kread_loop rc onData fuel s2 = Ret (s', stop) /\ all_read s s') as Hgo.
  { intros Hprog. pose proof (len_nonneg b). destruct (IH s2 Hs2 Hp2 ltac:(lia)) as (s' & stop & -> & Hr). exists s', stop. split; [done|].
    destruct Hr as [[Hd Hc]|[Hf (d & Hd & Hpre)]]; [left|right].
    - split; [|done]. by rewrite Hd, Hd2, Hi2, app_assoc.
    - split; [done|]. exists (b ++ d). rewrite Hd, Hd2, Hi2, app_assoc. split; [done|]. by apply prefix_app. }
  destruct e as [[]|]; try done.
  - destruct e as [| | |x]; try done.
    + apply Hgo. right. apply He.
    + exists s2, true. split; [done|]. by apply Hstop.
    + destruct (fatal_closes g others (EOther x) s2 Hs2 Hp2) as (y & s' & -> & Hd' & Hf). cbn [mbind res_bind]. exists s', false. split; [done|]. right. split; [done|].
      exists b. split; [by rewrite Hd', Hd2|]. rewrite Hi2. by apply prefix_app_r.
  - destruct He as [-> Hz]. destruct (Z.eqb_spec (len b) 0) as [Hb|Hb].
    + destruct (eof_closes s2 Hs2 Hp2) as (y & s' & -> & Hd' & Hc & He). cbn [mbind res_bind]. exists s', false. split; [done|]. left.
      split; [by rewrite Hd', Hd2, Hi2, Hz, app_nil_r by lia|by right].
    + rewrite Ht2. assert (isDatagram (c_typ s) = false) as -> by (destruct Hs as [[_ _ _ _ Hst _] _]; by destruct (c_typ s)).
      rewrite andb_true_r. pose proof (len_nonneg b). destruct (Z.ltb_spec (len b) (ReadBufferSize rc)); [exists s2, false; split; [done|]; by apply Hstop, Hz|].
      apply Hgo. left. lia.
Qed.

(** A reading event delivers everything the socket had, in order; the connection
    stays in order with nothing left to read, or it was closed at the end of the
    stream, or by the error of a system call behind a front part. *)
Lemma kqueue_reads fuel fd s : settled g others s -> inTable s = true -> hasPoller s = true -> hasOnRead rc = false ->
  len (inbox s) + Z.of_nat (patience (kern s)) < Z.of_nat fuel ->
  exists s', readWrite rc onData onRead flush c_resetRead fuel None (MkKevent fd EV_ADD EVFILT_READ) false s = Ret s' /\ all_read s s'.
Proof.
  intros Hs Hin Hp Hr Hf. unfold readWrite. cbn [Flags Filter]. rewrite Hin, Hr. destruct (kread_ok fuel s Hs Hp Hf) as (s' & stop & -> & Hall).
  cbn [mbind res_bind]. exists s'. split; [by destruct stop|done].
Qed.
End reading.

(** A read. *)
Section witness.
#[local] Instance kq_allocator : Allocator aligned := aligned_allocator (fun _ => Some 0%nat).

Example kqueue_read_run : exists s',
  readWrite small_reads quiet_handler Ret Ret (fun s => s) 20 None (MkKevent 3 EV_ADD EVFILT_READ) false (read_conn lt_engine) = Ret s' /\
  data_of (calls s') = str "one two three end" /\ c_closed s' = false.
Proof. eexists. split; [vm_compute; reflexivity|]. split; vm_compute; reflexivity. Qed.
End witness.
