(* ===== verification/TraceDebug.v ===== *)
(** * The tracing allocator (src/mempool/trace_debugger.go)

    [TraceDebugger] is an allocator around another one: it remembers the buffers
    that are out, by their address, and prints a report when a buffer is used that
    is not.  The address of a buffer is its identity; the stack traces printed with
    a report are not modelled. *)

From Stdlib Require Import ZArith Lia.
From stdpp Require Import base numbers list list_numbers gmap.
From S2P Require Import Prelude Mempool MempoolFacts MempoolProps.

Open Scope Z_scope.

Inductive report :=
| MallocedTwice (id : nat) | AppendNotMalloced (id : nat) | AppendMallocedTwice (id : nat) | FreeEmpty | FreeNotMalloced (id : nat).

Record TraceDebugger (A : Type) := MkTrace { td_allocator : A; pAlloced : gset nat; td_reports : list report }.
Arguments MkTrace {A}.
Arguments td_allocator {A}.
Arguments pAlloced {A}.
Arguments td_reports {A}.

Definition NewTraceDebuger {A} (a : A) : TraceDebugger A := MkTrace a ∅ [].

Section trace.
Context {A : Type} `{!Allocator A}.

(** The address of the first byte: taking it panics without capacity. *)
Definition bytesPointer (p : pbuf) : option nat := if 0 <? cap p then Some (b_id p) else None.

Definition trace_Malloc (size : Z) (t : TraceDebugger A) : option (pbuf * TraceDebugger A) :=
  '(p, a) ← Malloc size (td_allocator t);
  ptr ← bytesPointer p;
  let rs := if decide (ptr ∈ pAlloced t) then [MallocedTwice ptr] else [] in
  Some (p, MkTrace a ({[ptr]} ∪ pAlloced t) (td_reports t ++ rs)).

(** Not tracked. *)
Definition trace_Realloc (p : pbuf) (size : Z) (t : TraceDebugger A) : option (pbuf * TraceDebugger A) :=
  '(p, a) ← Realloc p size (td_allocator t);
  Some (p, MkTrace a (pAlloced t) (td_reports t)).

(** [Append] and [AppendString]. *)
Definition trace_Append (p : pbuf) (more : bytes) (t : TraceDebugger A) : option (pbuf * TraceDebugger A) :=
  pold ← bytesPointer p;
  let rs := if decide (pold ∈ pAlloced t) then [] else [AppendNotMalloced pold] in
  '(q, a) ← Append p more (td_allocator t);
  pnew ← bytesPointer q;
  if decide (pnew = pold) then Some (q, MkTrace a (pAlloced t) (td_reports t ++ rs))
  else
    let rs := rs ++ (if decide (pnew ∈ pAlloced t) then [AppendMallocedTwice pnew] else []) in
    Some (q, MkTrace a ({[pnew]} ∪ pAlloced t ∖ {[pold]}) (td_reports t ++ rs)).

Definition trace_Free (p : pbuf) (t : TraceDebugger A) : option (TraceDebugger A) :=
  if cap p =? 0 then Some (MkTrace (td_allocator t) (pAlloced t) (td_reports t ++ [FreeEmpty]))
  else
    ptr ← bytesPointer p;
    let rs := if decide (ptr ∈ pAlloced t) then [] else [FreeNotMalloced ptr] in
    a ← Free p (td_allocator t);
    Some (MkTrace a (pAlloced t ∖ {[ptr]}) (td_reports t ++ rs)).

#[export] Instance trace_allocator : Allocator (TraceDebugger A) := {
  Malloc := trace_Malloc;
  Realloc := trace_Realloc;
  Append := trace_Append;
  Free := trace_Free
}.
End trace.

(** ** Exact reports *)

Section exact.
Context {A : Type} `{!Allocator A} `{!AllocatorLaws A}.

(** The debugger knows the buffers that are out, and has nothing to report. *)
Definition tracing (t : TraceDebugger A) (live : gset nat) : Prop :=
  alloc_inv (td_allocator t) live /\ pAlloced t = live /\ td_reports t = [].

Lemma pointer_of p : 0 < cap p -> bytesPointer p = Some (b_id p).
Proof. intros H. unfold bytesPointer. by rewrite (proj2 (Z.ltb_lt _ _) H). Qed.

Lemma cap_data p d : genuine p -> data p = d -> 0 < len d -> 0 < cap p.
Proof.
  intros Hg Hd Hl. apply genuine_ok in Hg as [H1 H2]. subst d. unfold data, len, cap in *. rewrite length_take in Hl. lia.
Qed.

(** A client that asks for something, uses only what it has and gives it back gets
    the buffers the inner allocator would give it, and no report; using a buffer
    that is not out is reported, whatever the inner allocator does with it. *)
Lemma trace_exact (t : TraceDebugger A) (live : gset nat) : tracing t live ->
  (forall n, 0 < n -> exists p t', Malloc n t = Some (p, t') /\ b_len p = n /\ genuine p /\ (b_id p ∉ live) /\ tracing t' ({[b_id p]} ∪ live)) /\
  (forall p more, genuine p -> b_id p ∈ live -> 0 < cap p -> 0 < len (data p ++ more) ->
     exists q t', Append p more t = Some (q, t') /\ data q = data p ++ more /\ genuine q /\ tracing t' ({[b_id q]} ∪ live ∖ {[b_id p]})) /\
  (forall p, genuine p -> b_id p ∈ live -> 0 < cap p -> exists t', Free p t = Some t' /\ tracing t' (live ∖ {[b_id p]})) /\
  (forall p a, b_id p ∉ live -> 0 < cap p -> Free p (td_allocator t) = Some a ->
     exists t', Free p t = Some t' /\ td_reports t' = [FreeNotMalloced (b_id p)]) /\
  (forall p more q a, b_id p ∉ live -> 0 < cap p -> Append p more (td_allocator t) = Some (q, a) -> 0 < cap q ->
     exists q' t', Append p more t = Some (q', t') /\ AppendNotMalloced (b_id p) ∈ td_reports t').
Proof.
  intros (Hi & Hp & Hr). split; [|split; [|split; [|split]]].
  - intros n Hn. destruct (malloc_law (td_allocator t) live n Hi ltac:(lia)) as (p & a & E & Hl & Hg & Hnew & Hi').
    assert (0 < cap p) as Hc by (apply genuine_ok in Hg as [? ?]; lia).
    exists p. cbn. unfold trace_Malloc. rewrite E. cbn [mbind option_bind]. rewrite (pointer_of p Hc). cbn [mbind option_bind].
    rewrite decide_False by (by rewrite Hp). rewrite app_nil_r. eexists. split; [done|]. split; [done|]. split; [done|]. split; [done|]. split; [done|]. cbn. by rewrite Hp.
  - intros p more Hg Hlive Hc Hne. destruct (append_law (td_allocator t) live p more Hi Hg Hlive) as (q & a & E & Hd & Hq & Hnew & Hi').
    pose proof (cap_data q _ Hq Hd Hne) as Hcq. exists q. cbn. unfold trace_Append. rewrite (pointer_of p Hc). cbn [mbind option_bind]. rewrite E. cbn [mbind option_bind].
    rewrite (pointer_of q Hcq). cbn [mbind option_bind]. rewrite (decide_True (P := b_id p ∈ pAlloced t)) by (by rewrite Hp).
    destruct (decide (b_id q = b_id p)) as [Eq|Hn].
    + eexists. split; [done|]. split; [done|]. split; [done|]. split; [done|]. cbn. rewrite Hr, Hp. split; [|done]. rewrite Eq. by rewrite <- union_difference_singleton_L.
    + rewrite (decide_False (P := b_id q ∈ pAlloced t)) by (rewrite Hp; set_solver). eexists. split; [done|]. split; [done|]. split; [done|]. split; [done|]. cbn. by rewrite Hr, Hp.
  - intros p Hg Hlive Hc. destruct (free_law (td_allocator t) live p Hi Hg Hlive) as (a & E & Hi'). cbn. unfold trace_Free.
    rewrite (proj2 (Z.eqb_neq _ _)) by lia. rewrite (pointer_of p Hc). cbn [mbind option_bind]. rewrite E. cbn [mbind option_bind].
    rewrite decide_True by (by rewrite Hp). eexists. split; [done|]. split; [done|]. cbn. by rewrite Hp, Hr.
  - intros p a Hn Hc E. cbn. unfold trace_Free. rewrite (proj2 (Z.eqb_neq _ _)) by lia. rewrite (pointer_of p Hc). cbn [mbind option_bind]. rewrite E. cbn [mbind option_bind].
    rewrite decide_False by (by rewrite Hp). eexists. split; [done|]. cbn. by rewrite Hr.
  - intros p more q a Hn Hc E Hcq. cbn. unfold trace_Append. rewrite (pointer_of p Hc). cbn [mbind option_bind]. rewrite E. cbn [mbind option_bind].
    rewrite (pointer_of q Hcq). cbn [mbind option_bind]. rewrite (decide_False (P := b_id p ∈ pAlloced t)) by (by rewrite Hp).
    destruct (decide (b_id q = b_id p)); eexists _, _; (split; [done|]); cbn; rewrite Hr; set_solver.
Qed.
End exact.

(** A buffer moved by [Realloc] is not known afterwards: giving it back is
    reported. *)
Section witness.
#[local] Instance trace_aligned : Allocator aligned := aligned_allocator (fun _ => None).

Lemma realloc_not_tracked : exists p t1 q t2 t3, Malloc 8 (NewTraceDebuger newAligned) = Some (p, t1) /\
  Realloc p 4096 t1 = Some (q, t2) /\ Free q t2 = Some t3 /\ td_reports t3 = [FreeNotMalloced (b_id q)].
Proof. eexists _, _, _, _, _. repeat (split; [vm_compute; reflexivity|]). vm_compute. reflexivity. Qed.

#[local] Instance trace_std : Allocator stdAllocator := std_allocator (fun _ n => n).

(** The empty buffer that the standard allocator gives has no address: the debugger
    panics. *)
Lemma empty_malloc_panics : trace_Malloc 0 (NewTraceDebuger (MkStd 0 newDebugger)) = None.
Proof. vm_compute. reflexivity. Qed.
End witness.
