(* ===== verification/ProtocolStack.v ===== *)
(** * The protocol stack (src/protocol_stack.go)

    Layers that each turn a connection and bytes into others.  The stack is a slice:
    [Add] and [Delete] change its array in place, and [Parse] ranges over the slice
    it started with while a layer may add or delete layers; so the arrays are kept
    in a store, and a slice is an array and a length.  A layer is a number. *)

From Stdlib Require Import ZArith Lia.
From Stdlib Require Import Strings.Byte Strings.String.
From stdpp Require Import base numbers list list_numbers.
From S2P Require Import Prelude.

(** The arrays by number, with [None] for nil and for unused room; the slice
    [ps.stack]. *)
Record store := MkStore { st_arrays : list (list (option nat)); st_arr : nat; st_len : nat }.

Definition array (k : nat) (s : store) : list (option nat) := default [] (st_arrays s !! k).
Definition set_array (k : nat) (a : list (option nat)) (s : store) : store := MkStore (<[k := a]> (st_arrays s)) (st_arr s) (st_len s).

(** The elements of [ps.stack]. *)
Definition stack (s : store) : list (option nat) := take (st_len s) (array (st_arr s) s).

Definition new_stack : store := MkStore [[]] 0 0.

(** [append] of one layer: in place, or into a larger array. *)
Definition Add (p : nat) (s : store) : store :=
  let a := array (st_arr s) s in
  if (st_len s <? length a)%nat then MkStore (<[st_arr s := <[st_len s := Some p]> a]> (st_arrays s)) (st_arr s) (S (st_len s))
  else MkStore (st_arrays s ++ [take (st_len s) a ++ [Some p] ++ replicate (st_len s) None]) (length (st_arrays s)) (S (st_len s)).

(** The last place of a layer, looking down from [i]. *)
Fixpoint find_last (p i : nat) (a : list (option nat)) : option nat :=
  match i with
  | O => None
  | S i => if decide (a !! i = Some (Some p)) then Some i else find_last p i a
  end.

(** What follows is moved down by one; the last place keeps what it had. *)
Definition Delete (p : nat) (s : store) : store :=
  let a := array (st_arr s) s in
  match find_last p (st_len s) a with
  | None => s
  | Some i =>
      let a := <[i := None]> a in
      let n := st_len s in
      if (n - 1 <? i + 1)%nat then MkStore (<[st_arr s := a]> (st_arrays s)) (st_arr s) i
      else MkStore (<[st_arr s := take i a ++ drop (i + 1) (take n a) ++ drop (n - 1) a]> (st_arrays s)) (st_arr s) (n - 1)
  end.

(** A connection, bytes and an error. *)
Section parse.
Context {C : Type}.

(** A layer: what it makes of a connection and bytes, and of the stack. *)
Context (layer : nat -> C -> bytes -> store -> C * bytes * option Z * store).

(** The range of [Parse] over [n] places of the array it started with. *)
Fixpoint parse_loop (k i n : nat) (c : C) (b : bytes) (ran : list nat) (s : store) : C * bytes * option Z * store * list nat :=
  match n with
  | O => (c, b, None, s, ran)
  | S n =>
      match array k s !! i with
      | Some (Some p) =>
          let '(c, b, err, s) := layer p c b s in
          match err with
          | Some e => (c, b, Some e, s, ran ++ [p])
          | None => parse_loop k (S i) n c b (ran ++ [p]) s
          end
      | _ => parse_loop k (S i) n c b ran s
      end
  end.

(** The last component: the layers that were run. *)
Definition Parse (c : C) (b : bytes) (s : store) : C * bytes * option Z * store * list nat :=
  parse_loop (st_arr s) 0 (st_len s) c b [] s.

(** [Write] is not supported. *)
Definition Write (b : bytes) : Z * bool := ((-1)%Z, false).

(** Every layer in turn, up to the first error. *)
Fixpoint in_turn (ps : list nat) (c : C) (b : bytes) (s : store) : C * bytes * option Z :=
  match ps with
  | [] => (c, b, None)
  | p :: ps =>
      match layer p c b s with
      | (c, b, Some e, _) => (c, b, Some e)
      | (c, b, None, _) => in_turn ps c b s
      end
  end.

Lemma parse_loop_turn k s l : (forall p c b, (layer p c b s).2 = s) -> forall i c b ran, take (length l) (drop i (array k s)) = l ->
  (parse_loop k i (length l) c b ran s).1 = (in_turn (omap (fun x => x) l) c b s, s).
Proof.
  intros Hq. induction l as [|x l IH]; intros i c b ran Ht; [done|]. cbn [length parse_loop omap list_omap].
  assert (array k s !! i = Some x) as Hx.
  { rewrite <- (Nat.add_0_r i), <- lookup_drop. destruct (drop i (array k s)); [done|]. cbn in Ht. by injection Ht as ->. }
  assert (take (length l) (drop (S i) (array k s)) = l) as Hl.
  { rewrite <- Nat.add_1_r, <- drop_drop. destruct (drop i (array k s)) as [|y d]; [done|]. cbn in Ht |- *. by injection Ht. }
  rewrite Hx. destruct x as [p|]; [|by apply IH]. cbn [in_turn]. pose proof (Hq p c b) as Hs. destruct (layer p c b s) as [[[c' b'] err] s']. cbn in Hs. subst s'.
  destruct err; [done|]. by apply IH.
Qed.
End parse.

(** ** Adding and deleting *)

Definition wf (s : store) : Prop := (st_arr s < length (st_arrays s) /\ st_len s <= length (array (st_arr s) s))%nat.

Lemma array_set k a s : (k < length (st_arrays s))%nat -> default [] (<[k := a]> (st_arrays s) !! k) = a.
Proof. intros H. by rewrite list_lookup_insert_eq. Qed.

(** [Add] puts a layer on top. *)
Lemma Add_stack p s : wf s -> wf (Add p s) /\ stack (Add p s) = stack s ++ [Some p].
Proof.
  intros [Hk Hn]. unfold Add, wf, stack, array in *. set (a := default [] (st_arrays s !! st_arr s)) in *. destruct (Nat.ltb_spec (st_len s) (length a)) as [Hl|Hl]; cbn.
  - rewrite length_insert, array_set, length_insert by done. split; [lia|]. rewrite (take_S_r _ _ (Some p)) by (by apply list_lookup_insert_eq).
    by rewrite take_insert_ge.
  - rewrite length_app, lookup_app_r, Nat.sub_diag by done. cbn [lookup list_lookup default length]. unfold id. rewrite !length_app, length_take. cbn [length]. split; [lia|].
    rewrite take_app_ge by (rewrite length_take; lia). f_equal. rewrite length_take. replace (S (st_len s) - _)%nat with 1%nat by lia. done.
Qed.

Lemma find_last_lt p n a i : find_last p n a = Some i -> (i < n)%nat /\ a !! i = Some (Some p) /\ forall j, (i < j < n)%nat -> a !! j <> Some (Some p).
Proof.
  induction n as [|n IH]; cbn [find_last]; [done|]. destruct (decide (a !! n = Some (Some p))) as [H|H].
  - intros [= <-]. split; [lia|]. split; [done|]. lia.
  - intros (H1 & H2 & H3)%IH. split; [lia|]. split; [done|]. intros j Hj. destruct (decide (j = n)) as [->|]; [done|]. apply H3. lia.
Qed.

(** [Delete] takes the last occurrence of a layer out. *)
Lemma Delete_stack p s i : wf s -> find_last p (st_len s) (array (st_arr s) s) = Some i ->
  wf (Delete p s) /\ stack (Delete p s) = take i (stack s) ++ drop (S i) (stack s).
Proof.
  intros [Hk Hn] Hf. destruct (find_last_lt _ _ _ _ Hf) as (Hi & Ha & _). unfold Delete. rewrite Hf. unfold wf, stack, array in *.
  set (a := default [] (st_arrays s !! st_arr s)) in *. set (n := st_len s) in *. destruct (Nat.ltb_spec (n - 1) (i + 1)) as [Hl|Hl]; cbn [st_arr st_len st_arrays].
  - rewrite length_insert, array_set, length_insert by done. split; [lia|]. rewrite take_insert_ge by lia.
    rewrite take_take, Nat.min_l, (drop_ge (take n a)) by (rewrite ?length_take; lia). by rewrite app_nil_r.
  - rewrite length_insert, array_set by done. rewrite !length_app, !length_drop, !length_take, length_insert. split; [lia|].
    rewrite take_insert_ge, take_insert_lt, (drop_insert_lt _ (i + 1)) by lia.
    assert (length (take i a ++ drop (i + 1) (take n a)) = n - 1)%nat as Hlen by (rewrite length_app, length_drop, !length_take; lia).
    rewrite app_assoc, take_app_length' by done. rewrite take_take, Nat.min_l by lia. by rewrite Nat.add_1_r.
Qed.

(** As long as no layer changes the stack, [Parse] runs the layers in the order they
    were added, up to the first error. *)
Lemma parse_in_turn {C} (layer : nat -> C -> bytes -> store -> C * bytes * option Z * store) c b s :
  wf s -> (forall p c b, (layer p c b s).2 = s) ->
  (Parse layer c b s).1 = (in_turn layer (omap (fun x => x) (stack s)) c b s, s).
Proof.
  intros [Hk Hn] Hq. unfold Parse. assert (length (stack s) = st_len s) as <- by (unfold stack; rewrite length_take; lia).
  apply parse_loop_turn; [done|]. rewrite drop_0. unfold stack. rewrite length_take. by rewrite Nat.min_l by lia.
Qed.

(** Deleting what was just added leaves the stack as it was. *)
Lemma add_delete p s : wf s -> stack (Delete p (Add p s)) = stack s.
Proof.
  intros Hs. destruct (Add_stack p s Hs) as [Hw Hst]. set (t := Add p s) in *.
  assert (st_len t = S (st_len s)) as Hn by (unfold t, Add; by destruct (_ <? _)%nat).
  assert (length (stack s) = st_len s) as Hl by (unfold stack; rewrite length_take; destruct Hs; lia).
  assert (array (st_arr t) t !! st_len s = Some (Some p)) as Ha.
  { rewrite <- (lookup_take_lt _ (st_len t)) by lia. fold (stack t). rewrite Hst, lookup_app_r, Hl, Nat.sub_diag by lia. done. }
  assert (find_last p (st_len t) (array (st_arr t) t) = Some (st_len s)) as Hf by (rewrite Hn; cbn; by rewrite decide_True).
  destruct (Delete_stack p t _ Hw Hf) as [_ ->]. rewrite Hst, take_app_length', drop_ge by (rewrite ?length_app; cbn; lia). by rewrite app_nil_r.
Qed.

(** ** A layer that removes itself *)

(** A handshake layer that takes itself off the stack when it is done. *)
Definition leaving (p : nat) (c : nat) (b : bytes) (s : store) : nat * bytes * option Z * store :=
  (c, b, None, if (p =? 0)%nat then Delete 0 s else s).

(** The layer behind it is skipped, and the last one runs twice. *)
Lemma self_delete_skips : (Parse leaving 0%nat [] (Add 2 (Add 1 (Add 0 new_stack)))).2 = [0; 2; 2]%nat.
Proof. vm_compute. reflexivity. Qed.
