(* ===== verification/Dial.v ===== *)
(** * Dialing (src/engine_unix.go, src/net_unix.go)

    [DialAsyncTimeout] makes a non-blocking socket, starts to connect it and adds it
    to a poller; the handler of the caller is called when the socket becomes
    writable.  The answers of the system calls and of package net's resolver are
    arguments. *)

From Stdlib Require Import ZArith Lia.
From Stdlib Require Import Strings.Byte Strings.String.
From stdpp Require Import base numbers list list_numbers gmap.
From S2P Require Import Prelude GoLib Mempool MempoolFacts MempoolProps NbConn NbConnFacts NbConnKernel NbRead NbReadProps.

Open Scope Z_scope.

Inductive domain := AF_INET | AF_INET6 | AF_UNIX.
Inductive socktype := SOCK_STREAM | SOCK_DGRAM | SOCK_SEQPACKET.
Inductive sockaddr := SockaddrInet4 (addr : bytes) (port : Z) | SockaddrInet6 (addr : bytes) (port zone : Z) | SockaddrUnix (name : bytes).
Inductive dial_err := ErrResolve | ErrInterface | ErrUnknownNetwork | ErrSocket (e : Z) | ErrTooManyFiles | ErrEpoll (e : Z) | ErrRawConn | ErrDup (e : Z).

Inductive outcome (T : Type) := Good (x : T) | Failed (e : dial_err) | Panics.
Arguments Good {T}.
Arguments Failed {T}.
Arguments Panics {T}.

Section dial.
(** The addresses the resolver finds, and the network interfaces: index and name. *)
Context (resolve : bytes -> bytes -> option (bytes * Z * bytes)) (ifaces : list (Z * bytes)).

(** [net.InterfaceByName], which refuses the empty name, and
    [net.InterfaceByIndex], which refuses an index that is not positive. *)
Definition InterfaceByName (name : bytes) : option Z :=
  if bool_decide (name = []) then None else fst <$> List.find (fun i => bool_decide (i.2 = name)) ifaces.
Definition InterfaceByIndex (index : Z) : option bytes :=
  if index <=? 0 then None else snd <$> List.find (fun i => i.1 =? index) ifaces.

(** [copy] into the 16 bytes of the address. *)
Definition fill16 (ip : bytes) : bytes := take 16 (ip ++ replicate 16 x00).

Definition socketResult (isIPv4 : bool) (network addr : bytes) (st : socktype) (ct : conn_type)
    : outcome (domain * socktype * sockaddr * conn_type) :=
  match resolve network addr with
  | None => Failed ErrResolve
  | Some (ip, port, zone) =>
      if isIPv4 then
        match ip with
        | a :: b :: c :: d :: _ => Good (AF_INET, st, SockaddrInet4 [a; b; c; d] port, ct)
        | _ => Panics
        end
      else
        match InterfaceByName zone with
        | None => Failed ErrInterface
        | Some index => Good (AF_INET6, st, SockaddrInet6 (fill16 ip) port index, ct)
        end
  end.

Definition is_tcp (n : bytes) : bool := bool_decide (n ∈ [str "tcp"; str "tcp4"; str "tcp6"]).
Definition is_udp (n : bytes) : bool := bool_decide (n ∈ [str "udp"; str "udp4"; str "udp6"]).

Definition parseDomainAndType (network addr : bytes) : outcome (domain * socktype * sockaddr * conn_type) :=
  let isIPv4 := bool_decide (length (split_byte ":" addr) = 2)%nat in
  if is_tcp network then socketResult isIPv4 network addr SOCK_STREAM ConnTypeTCP
  else if is_udp network then socketResult isIPv4 network addr SOCK_DGRAM ConnTypeUDPClientFromDial
  else if bool_decide (network = str "unix") then Good (AF_UNIX, SOCK_STREAM, SockaddrUnix addr, ConnTypeUnix)
  else if bool_decide (network = str "unixgram") then Good (AF_UNIX, SOCK_DGRAM, SockaddrUnix addr, ConnTypeUnix)
  else if bool_decide (network = str "unixpacket") then Good (AF_UNIX, SOCK_SEQPACKET, SockaddrUnix addr, ConnTypeUnix)
  else Failed ErrUnknownNetwork.

(** The answers of the system: the descriptor or the error of [Socket]; the errors
    of [SetNonblock], [Connect] (with [None] in [Some] for [EINPROGRESS]) and of
    the registration; the address of [Getsockname]. *)
Record system := MkSystem {
  sy_socket : Z + Z;
  sy_nonblock : option Z;
  sy_connect : option (option Z);
  sy_name : option sockaddr;
  sy_register : option Z
}.

(** What the dial leaves behind.  [d_open]: the socket is open; [d_added]: the
    connection is in the table of the engine; [d_waits]: its handler waits for the
    first writing event; [d_async]: its handler was handed to [Async]; [d_timer]:
    the deadline of the dial; [d_wg]: what was added to the wait group; [d_closes]:
    calls of the close handler. *)
Record dialed := MkDialed {
  d_open : bool; d_added : bool; d_waits : bool; d_async : bool; d_timer : option Z; d_wg : Z; d_closes : nat
}.

Definition nothing : dialed := MkDialed false false false false None 0 0.

(** The end of [DialAsyncTimeout]: [addDialer] of the poller closes the connection
    when it fails; the close handler, which counts the wait group down, is called
    for a connection that had got its poller. *)
Definition register (MaxOpenFiles fd : Z) (sys : system) (inprogress : bool) (deadline : option Z) : option dial_err * dialed :=
  if MaxOpenFiles <=? fd then (Some ErrTooManyFiles, nothing)
  else
    match sy_register sys with
    | Some e => (Some (ErrEpoll e), MkDialed false false false false None (1 - 1 - 1) 1)
    | None => (None, MkDialed true true inprogress (negb inprogress) (if inprogress then deadline else None) 1 0)
    end.

(** [timeout] is positive for [deadline] to be given. *)
Definition DialAsyncTimeout (MaxOpenFiles : Z) (sys : system) (network addr : bytes) (deadline : option Z) : outcome (option dial_err * dialed) :=
  match parseDomainAndType network addr with
  | Panics => Panics
  | Failed e => Good (Some e, nothing)
  | Good (dom, typ, dialaddr, ct) =>
      match sy_socket sys with
      | inr e => Good (Some (ErrSocket e), nothing)
      | inl fd =>
          match sy_nonblock sys with
          | Some e => Good (Some (ErrSocket e), nothing)
          | None =>
              match sy_connect sys with
              | Some (Some e) => Good (Some (ErrSocket e), nothing)
              | c =>
                  let inprogress := bool_decide (c = Some None) in
                  match sy_name sys with
                  | Some (SockaddrInet6 _ _ zone) =>
                      match InterfaceByIndex zone with
                      | None => Good (Some ErrInterface, nothing)
                      | Some _ => Good (register MaxOpenFiles fd sys inprogress deadline)
                      end
                  | _ => Good (register MaxOpenFiles fd sys inprogress deadline)
                  end
              end
          end
      end
  end.

(** A dial comes to one of three things: an error without a trace (no socket left
    open, the wait group as before, the handler never called); an error of the
    registration, which also closed the socket; or a connection that is open and
    counted once, whose handler is called exactly once: at once, or at the first
    writing event, for which alone a timeout is set. *)
Definition dial_spec (r : option dial_err * dialed) : Prop :=
  let d := r.2 in
  match r.1 with
  | None => d_open d = true /\ d_added d = true /\ d_wg d = 1 /\ d_closes d = 0%nat /\ d_waits d = negb (d_async d) /\
      (is_Some (d_timer d) -> d_waits d = true)
  | Some (ErrEpoll _) => d_open d = false /\ d_added d = false /\ d_waits d = false /\ d_async d = false
  | Some _ => d = nothing
  end.

Lemma register_spec MaxOpenFiles fd sys ip deadline : dial_spec (register MaxOpenFiles fd sys ip deadline).
Proof.
  unfold register. destruct (MaxOpenFiles <=? fd); [done|]. destruct (sy_register sys); [done|].
  cbn. destruct ip; repeat split; try done; by intros [].
Qed.

Lemma dial_outcome MaxOpenFiles sys network addr deadline : parseDomainAndType network addr <> Panics ->
  exists r, DialAsyncTimeout MaxOpenFiles sys network addr deadline = Good r /\ dial_spec r.
Proof.
  intros Hp. unfold DialAsyncTimeout. pose proof (register_spec MaxOpenFiles) as Hr.
  assert (forall e, match e with ErrEpoll _ => False | _ => True end -> dial_spec (Some e, nothing)) as Hno by (by intros []).
  destruct (parseDomainAndType network addr) as [[[[dom typ] da] ct]|e|] eqn:Ep; [| |done].
  - destruct (sy_socket sys) as [fd|e]; [|eexists; split; [done|by apply Hno]]. destruct (sy_nonblock sys); [eexists; split; [done|by apply Hno]|].
    destruct (sy_connect sys) as [[e|]|]; [eexists; split; [done|by apply Hno]| |];
      (destruct (sy_name sys) as [[| |]|]; [by eexists| |by eexists|by eexists]; destruct (InterfaceByIndex zone); [by eexists|]; eexists; split; [done|by apply Hno]).
  - exists (Some e, nothing). split; [done|]. apply Hno. unfold parseDomainAndType, socketResult in Ep.
    repeat match type of Ep with
    | (if ?b then _ else _) = _ => destruct b
    | match ?b with Some _ => _ | None => _ end = _ => destruct b as [[[ip port] zone]|]
    | match ?b with Some _ => _ | None => _ end = _ => destruct b
    | match ?ip with [] => _ | _ :: _ => _ end = _ => destruct ip as [|? [|? [|? [|? ?]]]]
    end; try discriminate; by injection Ep as <-.
Qed.
End dial.

(** ** Where the code falls short *)

Definition host4 (network addr : bytes) : option (bytes * Z * bytes) := Some (replicate 10 x00 ++ [xff; xff; x0a; x00; x00; x05], 80, []).
Definition host6 (network addr : bytes) : option (bytes * Z * bytes) := Some ([x20; x01] ++ replicate 13 x00 ++ [x01], 80, []).
Definition anyhost (network addr : bytes) : option (bytes * Z * bytes) := Some ([], 80, []).

(** An IPv4 address in the 16-byte form of [net.IP]: the first four bytes are
    dialed, all zero. *)
Lemma wrong_address_dialed : parseDomainAndType host4 [] (str "tcp") (str "10.0.0.5:80") =
  Good (AF_INET, SOCK_STREAM, SockaddrInet4 [x00; x00; x00; x00] 80, ConnTypeTCP).
Proof. vm_compute. reflexivity. Qed.

(** An IPv6 address without a zone, that is every global one, cannot be dialed. *)
Lemma ipv6_refused ifaces : parseDomainAndType host6 ifaces (str "tcp") (str "[2001::1]:80") = Failed ErrInterface.
Proof. vm_compute. reflexivity. Qed.

(** An address without a host panics. *)
Lemma empty_host_panics ifaces : parseDomainAndType anyhost ifaces (str "tcp") (str ":80") = Panics.
Proof. vm_compute. reflexivity. Qed.

Section refused.
#[local] Instance dial_allocator : Allocator aligned := aligned_allocator (fun _ => Some 0%nat).

(** A connection that is refused: epoll reports it as writable, with an error and
    a hang-up.  The handler of the caller is called as if the connection were
    there ([OnWrittenSize] stands for its call here); the close handler follows. *)
Lemma refused_reported_connected : exists s',
  handle_event lt_engine small_reads quiet_handler Ret Ret 20 (Some (fun s => Ret (add_call (OnWrittenSize None 0) s)))
    (Z.lor EPOLLOUT (Z.lor EPOLLERR EPOLLHUP)) (read_conn lt_engine) = Ret s' /\
  c_closed s' = true /\ (fun c => match c with OnWrittenSize _ _ => true | _ => false end) <$> calls s' !! 1%nat = Some true.
Proof. eexists. split; [vm_compute; reflexivity|]. split; vm_compute; reflexivity. Qed.
End refused.
