(* ===== verification/WsSession.v ===== *)
(** * A WebSocket connection at work

    [src/nbhttp/websocket/conn.go] (handleMessage, handleDataFrame, OnMessage,
    OnDataFrame, Close, CloseAndClean, Keepalive) with the default handlers of
    [src/nbhttp/websocket/upgrader.go] (NewUpgrader): what the reader, the
    connection's executor, writing goroutines and closing do to one connection,
    as interleaved steps.  A step is one critical section of [Parse], one job of
    the executor, one [WriteMessage] or one [CloseAndClean]; that the executor
    runs accepted jobs one at a time in their order is what [JobList] proves of it.
    Payloads have identities, so that "freed once" can be said. *)

From Stdlib Require Import ZArith Lia.
From Stdlib Require Import Strings.Byte Strings.String.
From stdpp Require Import base numbers list list_numbers.
From S2P Require Import Prelude GoLib Mempool MempoolProps WsMask WsConn WsFacts WsRound WsProps.

Open Scope Z_scope.

(** ** Settings *)

(** How a connection runs its handlers: in the reading goroutine
    ([isBlockingMod]), through the job list of its connection, or through
    [SyncExecutor]. *)
Inductive exec_mode := Blocking | Queued | Synchronous.

(** [h_ping], [h_pong], [h_close]: a handler of the user is set ([SetPingHandler]
    and the like). *)
Record session_conf := MkSessionConf {
  s_cfg : ws_config;
  s_mode : exec_mode;
  releasePayload : bool;
  h_ping : bool;
  h_pong : bool;
  h_close : bool
}.

(** [SetCloseHandler], [SetPingHandler], [SetPongHandler]: nil changes nothing. *)
Definition SetPingHandler (h : bool) (s : session_conf) : session_conf :=
  if h then MkSessionConf (s_cfg s) (s_mode s) (releasePayload s) true (h_pong s) (h_close s) else s.
Definition SetPongHandler (h : bool) (s : session_conf) : session_conf :=
  if h then MkSessionConf (s_cfg s) (s_mode s) (releasePayload s) (h_ping s) true (h_close s) else s.
Definition SetCloseHandler (h : bool) (s : session_conf) : session_conf :=
  if h then MkSessionConf (s_cfg s) (s_mode s) (releasePayload s) (h_ping s) (h_pong s) true else s.

(** ** State *)

(** What a handler gets: a buffer of the allocator, or the pointer to an empty
    slice that [safeBufferPointer] makes up for nil. *)
Inductive payload := Pooled (id : nat) (b : bytes) | MadeUp.
Definition safeBufferPointer (p : option (nat * bytes)) : payload :=
  match p with Some (id, b) => Pooled id b | None => MadeUp end.
Definition content (p : payload) : bytes := match p with Pooled _ b => b | MadeUp => [] end.
Definition ids (p : payload) : list nat := match p with Pooled id _ => [id] | MadeUp => [] end.

Inductive job :=
| JMessage (opcode : Z) (p : payload)
| JDataFrame (opcode : Z) (fin : bool) (p : payload).
Definition job_ids (j : job) : list nat := match j with JMessage _ p | JDataFrame _ _ p => ids p end.

(** Calls of the user's handlers. *)
Inductive user_call :=
| UMessage (opcode : Z) (b : bytes)
| UDataFrame (opcode : Z) (fin : bool) (b : bytes)
| UPing (b : bytes)
| UPong (b : bytes)
| UClosing (code : Z) (reason : bytes)
| UOnClose (err : option ws_err).

(** The reader: between two reads, inside [Parse], or back from it with an error. *)
Inductive reader_pc := Between | Parsing | Failed (e : ws_err).

(** [w_down]: the underlying connection is closed: it writes nothing and its
    [Execute] refuses; [w_delayed]: a close is due after
    [BlockingModAsyncCloseDelay].  As history: the payloads allocated and freed,
    the jobs submitted and started, the messages written, the bytes on the wire. *)
Record world := MkWorld {
  w_conn : conn;
  w_reader : reader_pc;
  w_jobs : list job;
  w_down : bool;
  w_delayed : bool;
  w_next : nat;
  w_freed : list payload;
  w_submitted : list job;
  w_user : list user_call;
  w_sent : list (list Z * Z * bytes);
  w_wire : list bytes
}.

Definition start (c : conn) : world := MkWorld c Between [] false false 0 [] [] [] [] [].

Definition with_conn c w := MkWorld c (w_reader w) (w_jobs w) (w_down w) (w_delayed w) (w_next w) (w_freed w) (w_submitted w) (w_user w) (w_sent w) (w_wire w).
Definition with_reader r w := MkWorld (w_conn w) r (w_jobs w) (w_down w) (w_delayed w) (w_next w) (w_freed w) (w_submitted w) (w_user w) (w_sent w) (w_wire w).
Definition with_jobs js w := MkWorld (w_conn w) (w_reader w) js (w_down w) (w_delayed w) (w_next w) (w_freed w) (w_submitted w) (w_user w) (w_sent w) (w_wire w).
Definition shut_down w := MkWorld (w_conn w) (w_reader w) (w_jobs w) true (w_delayed w) (w_next w) (w_freed w) (w_submitted w) (w_user w) (w_sent w) (w_wire w).
Definition with_delayed b w := MkWorld (w_conn w) (w_reader w) (w_jobs w) (w_down w) b (w_next w) (w_freed w) (w_submitted w) (w_user w) (w_sent w) (w_wire w).
Definition add_user u w := MkWorld (w_conn w) (w_reader w) (w_jobs w) (w_down w) (w_delayed w) (w_next w) (w_freed w) (w_submitted w) (w_user w ++ [u]) (w_sent w) (w_wire w).
Definition add_sent m out w := MkWorld (w_conn w) (w_reader w) (w_jobs w) (w_down w) (w_delayed w) (w_next w) (w_freed w) (w_submitted w) (w_user w) (w_sent w ++ m) (w_wire w ++ out).
Definition free_payload p w := MkWorld (w_conn w) (w_reader w) (w_jobs w) (w_down w) (w_delayed w) (w_next w) (w_freed w ++ [p]) (w_submitted w) (w_user w) (w_sent w) (w_wire w).
Definition submit j w := MkWorld (w_conn w) (w_reader w) (w_jobs w) (w_down w) (w_delayed w) (w_next w) (w_freed w) (w_submitted w ++ [j]) (w_user w) (w_sent w) (w_wire w).
Definition next_id w := MkWorld (w_conn w) (w_reader w) (w_jobs w) (w_down w) (w_delayed w) (S (w_next w)) (w_freed w) (w_submitted w) (w_user w) (w_sent w) (w_wire w).

Section session.
Context (sc : session_conf) (cap_malloc : Z -> Z) (cap_append : Z -> Z -> Z).
Context (decompressReader : bytes -> reader) (CheckUtf8 : bytes -> bool) (deflate : bytes -> option bytes).

(** ** Writing and closing *)

(** [WriteMessage] over the underlying connection, which takes all or, closed,
    nothing. *)
Definition write_message (keys : list Z) (mt : Z) (data : bytes) (w : world) : option ws_err * world :=
  let conn_write (_ : bytes) := if w_down w then Some ErrConnWrite else None in
  match WriteMessage (s_cfg sc) conn_write deflate (w_conn w) keys mt data with
  | Some (c, out, err) =>
      let w := with_conn c w in
      match err with
      | None => (None, add_sent [(keys, mt, data)] out w)
      | Some e => (Some e, if w_down w then w else add_sent [] out w)
      end
  | None => (Some ErrParsePanic, w)
  end.

(** [Close] *)
Definition Close (w : world) : world :=
  match sendQueue (w_conn w) with
  | Some _ => with_delayed true w
  | None => shut_down w
  end.

(** [CloseWithError] *)
Definition CloseWithError (e : ws_err) (w : world) : world := Close (with_conn (SetCloseError e (w_conn w)) w).

(** [Keepalive]: the function of its timer sends a ping; the timer is set again
    when that worked. *)
Definition keepalive_tick (keys : list Z) (w : world) : bool * world :=
  let '(err, w) := write_message keys PingMessage [] w in
  (match err with None => true | Some _ => false end, w).

(** ** Handlers *)

(** The handlers [NewUpgrader] sets. *)
Definition default_ping (keys : list Z) (data : bytes) (w : world) : world :=
  let '(err, w) := write_message keys PongMessage data w in
  match err with None => w | Some _ => Close w end.

Definition default_close (keys : list Z) (code : Z) (reason : bytes) (w : world) : world :=
  if code =? 1005 then (write_message keys CloseMessage [] w).2
  else (write_message keys CloseMessage (be_put 2 code ++ reason) w).2.

(** The wrappers of [OnMessage] and [OnDataFrame] call the user's handler only
    while the connection is open. *)
Definition call_open (u : user_call) (w : world) : world := if closed (w_conn w) then w else add_user u w.

Definition perform (keys : list Z) (e : effect) (w : world) : world :=
  match e with
  | EMessage op b => call_open (UMessage op b) w
  | EPing s => if h_ping sc then add_user (UPing s) w else default_ping keys s w
  | EPong s => if h_pong sc then add_user (UPong s) w else w
  | EClosed code reason => if h_close sc then add_user (UClosing code reason) w else default_close keys code reason w
  | EWriteMessage op b => (write_message keys op b w).2
  | ECloseConn => Close w
  | ESetReadDeadline => w
  end.

Definition release (p : payload) (w : world) : world := if releasePayload sc then free_payload p w else w.

(** A job: the handler, then the deferred release. *)
Definition run_job (keys : list Z) (j : job) (w : world) : world :=
  match j with
  | JMessage op p =>
      let '(c, effs) := handleWsMessage (s_cfg sc) CheckUtf8 (w_conn w) op (content p) in
      release p (foldl (fun w e => perform keys e w) (with_conn c w) effs)
  | JDataFrame op fin p => release p (call_open (UDataFrame op fin (content p)) w)
  end.

Definition job_payload (j : job) : payload := match j with JMessage _ p | JDataFrame _ _ p => p end.

(** [handleMessage], [handleDataFrame], [handleProtocolMessage]: run in place, or
    hand the job to the executor, which refuses once the connection is closed. *)
Definition handle (keys : list Z) (j : job) (w : world) : world :=
  let w := submit j w in
  match s_mode sc with
  | Blocking | Synchronous => run_job keys j w
  | Queued => if w_down w then release (job_payload j) w else with_jobs (w_jobs w ++ [j]) w
  end.

(** The calls of an iteration of [Parse]: each payload is a new buffer. *)
Definition handle_call (keys : list Z) (k : call) (w : world) : world :=
  match k with
  | CMessage op b => handle keys (JMessage op (Pooled (w_next w) b)) (next_id w)
  | CDataFrame op fin b => handle keys (JDataFrame op fin (Pooled (w_next w) b)) (next_id w)
  | CProtocol op (Some b) => handle keys (JMessage op (Pooled (w_next w) b)) (next_id w)
  | CProtocol op None => handle keys (JMessage op (safeBufferPointer None)) w
  | CWriteClose code reason => (write_message keys CloseMessage (be_put 2 code ++ reason) w).2
  end.

(** [CloseAndClean] *)
Definition CloseAndClean (err : option ws_err) (w : world) : world :=
  let '(c, report) := ws_CloseAndClean (w_conn w) err in
  let w := with_conn c w in
  match report with
  | None => w
  | Some e => add_user (UOnClose e) (shut_down w)
  end.

(** ** Steps *)

Inductive label :=
| LRecv (data : bytes)
| LFrame (keys : list Z)
| LRun (keys : list Z)
| LWrite (keys : list Z) (mt : Z) (data : bytes)
| LDown
| LDelayed
| LClean (err : option ws_err).

Definition exec (l : label) (w : world) : option world :=
  match l with
  | LRecv data =>
      match w_reader w, data with
      | Between, [] => Some w
      | Between, _ =>
          let c := w_conn w in
          if closed c then Some (with_reader (Failed ErrWsClosed) w)
          else if (0 <? readLimit (s_cfg sc)) && match bytesCached c with
                                                | None => false
                                                | Some b => readLimit (s_cfg sc) <? len b + len data
                                                end
          then Some (with_reader (Failed ErrWsTooLong) w)
          else Some (with_reader Parsing (with_conn (set_bytesCached (Some (default [] (bytesCached c) ++ data)) c) w))
      | _, _ => None
      end
  | LFrame keys =>
      match w_reader w with
      | Parsing =>
          match parse_step (s_cfg sc) cap_malloc cap_append decompressReader (w_conn w) with
          | SWait => Some (with_reader Between w)
          | SErr c e => Some (foldl (fun w k => handle_call keys k w) (with_reader (Failed e) (with_conn c w)) (error_calls e))
          | SPanic c => Some (with_reader (Failed ErrParsePanic) (with_conn (set_bytesCached None c) w))
          | SNext c calls => Some (foldl (fun w k => handle_call keys k w) (with_conn c w) calls)
          | SStuck => None
          end
      | _ => None
      end
  | LRun keys =>
      match w_jobs w with
      | j :: js => Some (run_job keys j (with_jobs js w))
      | [] => None
      end
  | LWrite keys mt data => Some (write_message keys mt data w).2
  | LDown => Some (shut_down w)
  | LDelayed => if w_delayed w then Some (shut_down (with_delayed false w)) else None
  | LClean err => Some (CloseAndClean err w)
  end.

(** A step that cannot be taken is skipped. *)
Fixpoint run (ls : list label) (w : world) : world :=
  match ls with
  | [] => w
  | l :: ls => run ls (default w (exec l w))
  end.

(** ** What the handlers should see *)

Definition is_data_call (u : user_call) : bool := match u with UMessage _ _ | UDataFrame _ _ _ => true | _ => false end.
Definition data_calls (us : list user_call) : list user_call := filter (fun u => is_data_call u = true) us.

(** The calls a submitted job stands for: text only when it is UTF-8. *)
Definition expected (j : job) : list user_call :=
  match j with
  | JMessage op p =>
      if (op =? BinaryMessage) || ((op =? TextMessage) && CheckUtf8 (content p)) then [UMessage op (content p)] else []
  | JDataFrame op fin p => [UDataFrame op fin (content p)]
  end.

(** Payloads accounted for: freed, or held by a job. *)
Definition accounted (w : world) : list nat := (w_freed w ≫= ids) ++ (w_jobs w ≫= job_ids).

(** Nothing can be delivered any more. *)
Definition is_open (w : world) : bool := negb (w_down w) && negb (closed (w_conn w)).

Record inv (w : world) : Prop := {
  wi_own : if releasePayload sc then accounted w ≡ₚ seq 0 (w_next w) else w_freed w = [];
  wi_sub : data_calls (w_user w) ++ (w_jobs w ≫= expected) `sublist_of` w_submitted w ≫= expected;
  wi_all : is_open w = true -> data_calls (w_user w) ++ (w_jobs w ≫= expected) = w_submitted w ≫= expected;
  wi_mode : s_mode sc <> Queued -> w_jobs w = []
}.

(** What writing, closing and the like leave alone. *)
Definition quiet (w w' : world) : Prop :=
  w_jobs w' = w_jobs w /\ w_next w' = w_next w /\ w_freed w' = w_freed w /\ w_submitted w' = w_submitted w /\
  (closed (w_conn w) = true -> closed (w_conn w') = true) /\ (w_down w = true -> w_down w' = true).
Definition calls_kept (w w' : world) : Prop := data_calls (w_user w') = data_calls (w_user w).

#[local] Instance quiet_preorder : PreOrder quiet.
Proof. split; [by intros w|]. intros a b c (?&?&?&?&?&?) (?&?&?&?&?&?). unfold quiet. split_and!; try congruence; auto. Qed.

Lemma send_frame_closed cw c b c' out e : send_frame cw c b = (c', out, e) -> closed c' = closed c.
Proof. unfold send_frame. repeat case_match; by intros [= <- _ _]. Qed.

Lemma write_frames_closed f cw : forall c keys mt so sz data c' out e,
  write_frames (s_cfg sc) cw f c keys mt so sz data = Some (c', out, e) -> closed c' = closed c.
Proof.
  induction f as [|f IH]; intros c keys mt so sz data c' out e; cbn [write_frames]; [done|].
  destruct data as [|x d]; [by intros [= <- _ _]|].
  destruct (slice _ 0 _) as [ch|]; [|done]. destruct (slice_from _ _) as [rest|]; [|done].
  destruct (send_frame _ _ _) as [[c1 o1] e1] eqn:Es. apply send_frame_closed in Es.
  destruct e1 as [e1|]; [by intros [= <- _ _]|].
  destruct (write_frames _ _ f _ _ _ _ _ _) as [[[c2 o2] e2]|] eqn:Ew; [|done]. intros [= <- _ _]. apply IH in Ew. congruence.
Qed.

Lemma write_quiet keys mt data w : quiet w (write_message keys mt data w).2 /\ calls_kept w (write_message keys mt data w).2.
Proof.
  unfold write_message. destruct (WriteMessage _ _ _ _ _ _ _) as [[[c out] e]|] eqn:E; [|by repeat split].
  assert (closed c = closed (w_conn w)) as Hc.
  { revert E. unfold WriteMessage. destruct (closed (w_conn w)) eqn:Ec; [by intros [= <- _ _]|]. destruct (_ && _); [by intros [= <- _ _]|].
    destruct (if enableWriteCompression _ && _ then _ else _) as [comp d]. destruct d as [|x d].
    - destruct (send_frame _ _ _) as [[c1 o1] e1] eqn:Es. intros [= <- _ _]. apply send_frame_closed in Es. congruence.
    - intros H%write_frames_closed. congruence. }
  destruct e as [e|]; [|by repeat split; cbn; rewrite ?Hc].
  cbn. destruct (w_down w) eqn:Ed; repeat split; cbn; rewrite ?Hc, ?Ed; done.
Qed.

Lemma Close_quiet w : quiet w (Close w) /\ calls_kept w (Close w).
Proof. unfold Close. case_match; by repeat split. Qed.

Lemma add_user_quiet u w : is_data_call u = false -> quiet w (add_user u w) /\ calls_kept w (add_user u w).
Proof.
  intros Hu. split; [by repeat split|]. unfold calls_kept, data_calls. cbn. rewrite filter_app.
  rewrite (filter_cons_False _ u) by congruence. by rewrite app_nil_r.
Qed.

(** An effect other than a call of the message handler. *)
Definition plain_effect (e : effect) : Prop := match e with EMessage _ _ => False | _ => True end.

Lemma perform_quiet keys e w : plain_effect e -> quiet w (perform keys e w) /\ calls_kept w (perform keys e w).
Proof.
  intros He. destruct e as [op b|s|s|code reason|op b| |]; cbn [perform]; try done.
  - destruct (h_ping sc); [by apply add_user_quiet|]. unfold default_ping.
    pose proof (write_quiet keys PongMessage s w) as [H1 H2]. destruct (write_message keys PongMessage s w) as [[e|] w1]; cbn [snd] in *; [|done].
    destruct (Close_quiet w1) as [H3 H4]. split; [by etrans|]. unfold calls_kept in *. congruence.
  - destruct (h_pong sc); [by apply add_user_quiet|done].
  - destruct (h_close sc); [by apply add_user_quiet|]. unfold default_close. case_match; apply write_quiet.
  - apply write_quiet.
  - apply Close_quiet.
Qed.

Lemma performs_quiet keys es : forall w, Forall plain_effect es ->
  quiet w (foldl (fun w e => perform keys e w) w es) /\ calls_kept w (foldl (fun w e => perform keys e w) w es).
Proof.
  induction es as [|e es IH]; intros w H; [done|]. apply Forall_cons in H as [He Hes]. cbn [foldl].
  destruct (perform_quiet keys e w He) as [H1 H2]. destruct (IH (perform keys e w) Hes) as [H3 H4].
  exact (conj (transitivity H1 H3) (eq_trans H4 H2)).
Qed.

(** The effects of a message: at most one call of the handler, the expected one,
    and it comes first. *)
Lemma effects_of c op data :
  exists es, Forall plain_effect es /\ closed (handleWsMessage (s_cfg sc) CheckUtf8 c op data).1 = closed c /\
    (handleWsMessage (s_cfg sc) CheckUtf8 c op data).2 =
      (if (op =? BinaryMessage) || ((op =? TextMessage) && CheckUtf8 data) then [EMessage op data] else []) ++ es.
Proof.
  assert (forall c e, closed (SetCloseError e c) = closed c) as Hs by (intros c' e; unfold SetCloseError; by case_match).
  unfold handleWsMessage. destruct (Z.eqb_spec op BinaryMessage) as [->|Hb].
  { eexists. split; [|done]. case_match; repeat constructor. }
  destruct (Z.eqb_spec op TextMessage) as [->|Ht]; cbn [orb andb].
  - destruct (CheckUtf8 data); cbn [negb fst snd]; (eexists; split; [|by rewrite ?Hs]); case_match; repeat constructor.
  - repeat case_match; cbn [fst snd]; (eexists; split; [|by rewrite ?Hs]); repeat case_match; repeat constructor.
Qed.

(** A job: its payload is released if that is asked for, and the user sees the
    expected calls when the connection is open, none when it is closed. *)
Lemma run_job_spec keys j w :
  let w' := run_job keys j w in
  w_jobs w' = w_jobs w /\ w_next w' = w_next w /\ w_submitted w' = w_submitted w /\
  w_freed w' = w_freed w ++ (if releasePayload sc then [job_payload j] else []) /\
  (closed (w_conn w) = true -> closed (w_conn w') = true) /\ (w_down w = true -> w_down w' = true) /\
  data_calls (w_user w') = data_calls (w_user w) ++ (if closed (w_conn w) then [] else expected j).
Proof.
  assert (forall u w, is_data_call u = true -> data_calls (w_user (call_open u w)) = data_calls (w_user w) ++ (if closed (w_conn w) then [] else [u])) as Hopen.
  { intros u w0 Hu. unfold call_open, data_calls. destruct (closed (w_conn w0)); [by rewrite app_nil_r|]. cbn. rewrite filter_app. by rewrite (filter_cons_True _ u). }
  assert (forall u w, quiet w (call_open u w)) as Hq by (intros u w0; unfold call_open; case_match; by repeat split).
  assert (forall p w w1, quiet w w1 -> w_jobs (release p w1) = w_jobs w /\ w_next (release p w1) = w_next w /\ w_submitted (release p w1) = w_submitted w /\
    w_freed (release p w1) = w_freed w ++ (if releasePayload sc then [p] else []) /\
    (closed (w_conn w) = true -> closed (w_conn (release p w1)) = true) /\ (w_down w = true -> w_down (release p w1) = true) /\ w_user (release p w1) = w_user w1) as Hrel.
  { intros p w0 w1 (H1&H2&H3&H4&H5&H6). unfold release. destruct (releasePayload sc); cbn; rewrite ?app_nil_r; rewrite ?H3; done. }
  destruct j as [op p|op fin p]; cbn [run_job job_payload expected].
  - destruct (effects_of (w_conn w) op (content p)) as (es & Hes & Hcl & He).
    destruct (handleWsMessage _ _ _ _ _) as [c effs]. cbn [fst snd] in *. subst effs. rewrite foldl_app.
    set (w1 := foldl _ (with_conn c w) _). assert (quiet w w1 /\ data_calls (w_user w1) = data_calls (w_user w) ++
      (if closed (w_conn w) then [] else if (op =? BinaryMessage) || ((op =? TextMessage) && CheckUtf8 (content p)) then [UMessage op (content p)] else [])) as [Hw1 Hu1].
    { assert (quiet w (with_conn c w)) as H0 by (repeat split; cbn; congruence). unfold w1.
      destruct ((op =? BinaryMessage) || _); cbn [foldl perform]; [|split; [done|]; destruct (closed (w_conn w)); by rewrite app_nil_r].
      split; [by etrans|]. rewrite Hopen by done. cbn. by rewrite Hcl. }
    destruct (performs_quiet keys es w1 Hes) as [Hq2 Hk2].
    destruct (Hrel p w (foldl (fun w e => perform keys e w) w1 es)) as (?&?&?&?&?&?&Hu); [by etrans|].
    split_and!; try done. rewrite Hu, Hk2. exact Hu1.
  - destruct (Hrel p w (call_open (UDataFrame op fin (content p)) w)) as (?&?&?&?&?&?&Hu); [apply Hq|].
    split_and!; try done. rewrite Hu. by apply Hopen.
Qed.

(** ** The invariant is kept *)

Lemma inv_quiet w w' : inv w -> quiet w w' -> calls_kept w w' -> inv w'.
Proof.
  intros [I1 I2 I3 I4] (Hj & Hn & Hf & Hs & Hc & Hd) Hk. unfold calls_kept in Hk.
  split; unfold accounted; rewrite ?Hj, ?Hn, ?Hf, ?Hs, ?Hk; try done.
  intros Ho. apply I3. revert Ho. unfold is_open. destruct (w_down w); [by rewrite Hd|]. destruct (closed (w_conn w)); [by rewrite Hc, andb_false_r|done].
Qed.

Lemma is_open_true w : is_open w = true -> w_down w = false /\ closed (w_conn w) = false.
Proof. unfold is_open. by destruct (w_down w), (closed (w_conn w)). Qed.

(** A job whose payload was held by nobody else. *)
Definition inv_with (j : job) (w : world) : Prop :=
  (if releasePayload sc then accounted w ++ job_ids j ≡ₚ seq 0 (w_next w) else w_freed w = []) /\
  (s_mode sc <> Queued -> w_jobs w = []).

Lemma release_ids j : (if releasePayload sc then [job_payload j] else []) ≫= ids = if releasePayload sc then job_ids j else [].
Proof. destruct (releasePayload sc), j; cbn; by rewrite ?app_nil_r. Qed.

(** A job run next: before the other jobs. *)
Lemma run_job_inv keys j w :
  inv_with j w ->
  data_calls (w_user w) ++ expected j ++ (w_jobs w ≫= expected) `sublist_of` w_submitted w ≫= expected ->
  (is_open w = true -> data_calls (w_user w) ++ expected j ++ (w_jobs w ≫= expected) = w_submitted w ≫= expected) ->
  inv (run_job keys j w).
Proof.
  intros [I1 I4] I2 I3. destruct (run_job_spec keys j w) as (Hj & Hn & Hs & Hf & Hc & Hd & Hu).
  split; unfold accounted; rewrite ?Hj, ?Hn, ?Hs, ?Hf, ?Hu; try done.
  - rewrite bind_app, release_ids. destruct (releasePayload sc); [|by rewrite I1].
    rewrite <- I1. unfold accounted. solve_Permutation.
  - rewrite <- app_assoc. etrans; [|exact I2]. destruct (closed (w_conn w)); [|done]. cbn.
    apply sublist_app; [done|]. by apply sublist_inserts_l.
  - intros [H1 H2]%is_open_true. destruct (w_down w) eqn:E1; [by rewrite Hd in H1|]. destruct (closed (w_conn w)) eqn:E2; [by rewrite Hc in H2|].
    rewrite <- app_assoc. apply I3. unfold is_open. by rewrite E1, E2.
Qed.

Lemma handle_inv keys j w :
  inv_with j w ->
  data_calls (w_user w) ++ (w_jobs w ≫= expected) `sublist_of` w_submitted w ≫= expected ->
  (is_open w = true -> data_calls (w_user w) ++ (w_jobs w ≫= expected) = w_submitted w ≫= expected) ->
  inv (handle keys j w).
Proof.
  intros [I1 I4] I2 I3. unfold handle. destruct (s_mode sc) eqn:Em.
  1,3: apply run_job_inv; [split; [exact I1|by rewrite Em]|..]; cbn; rewrite ?bind_app, I4 in * by done; cbn; rewrite ?app_nil_r in *;
    [by apply sublist_app|intros H; rewrite <- I3; done].
  destruct (w_down (submit j w)) eqn:Ed.
  - unfold release. destruct (releasePayload sc) eqn:Er; split; cbn; rewrite ?Er, ?bind_app; try done.
    + etrans; [|exact I1]. unfold accounted. cbn. rewrite ?bind_app. destruct j; cbn; rewrite ?app_nil_r; solve_Permutation.
    + by apply sublist_inserts_r.
    + intros [H _]%is_open_true. cbn in *. congruence.
    + by apply sublist_inserts_r.
    + intros [H _]%is_open_true. cbn in *. congruence.
  - split; cbn; rewrite ?bind_app; try done.
    + destruct (releasePayload sc); [|done]. etrans; [|exact I1]. unfold accounted. cbn. rewrite ?bind_app. cbn. rewrite app_nil_r. solve_Permutation.
    + cbn. rewrite !app_nil_r, app_assoc. by apply sublist_app.
    + intros H. rewrite app_assoc, <- I3; done.
Qed.

Lemma inv_next j w : inv w -> job_ids j = [w_next w] -> inv_with j (next_id w).
Proof.
  intros [I1 _ _ I4] Hj. split; [|done]. destruct (releasePayload sc); [|done].
  rewrite Hj. cbn [w_next next_id]. rewrite seq_S. cbn. unfold accounted in *. cbn. by rewrite I1.
Qed.

Lemma handle_call_inv keys k w : inv w -> inv (handle_call keys k w).
Proof.
  intros I. destruct k as [op b|op fin b|op [b|]|code reason]; cbn [handle_call].
  1,2,3: apply handle_inv; [by apply inv_next|apply I|apply I].
  - apply handle_inv; [|apply I|apply I]. destruct I as [I1 _ _ I4]. split; [|done]. destruct (releasePayload sc); [|done]. cbn. by rewrite app_nil_r.
  - destruct (write_quiet keys CloseMessage (be_put 2 code ++ reason) w). by eapply inv_quiet.
Qed.

Lemma handle_calls_inv keys ks : forall w, inv w -> inv (foldl (fun w k => handle_call keys k w) w ks).
Proof. induction ks as [|k ks IH]; intros w I; [done|]. apply IH. by apply handle_call_inv. Qed.

(** What [Parse] leaves alone: whether the connection is closed, and how it writes. *)
Definition writer_part (c : conn) := (closed c, isClient c, sendQueue c, enableWriteCompression c).

Lemma data_frame_part c op body fin r1 :
  match data_frame (s_cfg sc) cap_malloc cap_append decompressReader c op body fin r1 with
  | DOk c' _ | DErr c' _ | DPanic c' => writer_part c' = writer_part c
  | DStuck => True
  end.
Proof.
  unfold data_frame. cbv zeta. set (c1 := if msgType c =? 0 then _ else c).
  assert (writer_part c1 = writer_part c) as H1 by (unfold c1; by case_match). destruct (hasMessageHandler _); [|done].
  set (c2 := match body with [] => c1 | _ => _ end). assert (writer_part c2 = writer_part c) as H2 by (unfold c2; by destruct body).
  clearbody c2. destruct fin; [|done]. destruct (compress _); [|done]. destruct (message c2) as [m|]; [|done].
  by destruct (readAll _ _ _ _ _) as [[?|?]|].
Qed.

Lemma parse_step_part c :
  match parse_step (s_cfg sc) cap_malloc cap_append decompressReader c with
  | SErr c' _ | SNext c' _ | SPanic c' => writer_part c' = writer_part c
  | _ => True
  end.
Proof.
  unfold parse_step. destruct (closed c) eqn:Ec; [done|].
  destruct (nextFrame _ c) as [| |total op body fin res1 cache|]; try done. cbv zeta.
  destruct (_ || _); [|destruct (is_control op); [|done]; by destruct (_ || _)].
  pose proof (data_frame_part c op body fin res1) as H.
  destruct (data_frame _ _ _ _ _ _ _ _ _) as [c1 m|c1 e1|c1|]; try done. by destruct (_ || _).
Qed.

Lemma parse_step_closed c :
  match parse_step (s_cfg sc) cap_malloc cap_append decompressReader c with
  | SErr c' _ | SNext c' _ | SPanic c' => closed c' = closed c
  | _ => True
  end.
Proof. pose proof (parse_step_part c) as H. destruct (parse_step _ _ _ _ c); try done; by injection H as ->. Qed.

Lemma with_conn_inv c w : closed c = closed (w_conn w) -> inv w -> inv (with_conn c w).
Proof. intros Hc I. eapply inv_quiet; [exact I| |done]. repeat split; cbn; congruence. Qed.
Lemma with_reader_inv r w : inv w -> inv (with_reader r w).
Proof. intros I. eapply inv_quiet; [exact I| |done]. by repeat split. Qed.

Lemma clean_quiet err w : quiet w (CloseAndClean err w) /\ calls_kept w (CloseAndClean err w).
Proof.
  unfold CloseAndClean, ws_CloseAndClean. destruct (closed (w_conn w)) eqn:Ec; [repeat split; cbn; congruence|].
  match goal with |- context [with_conn ?c w] => set (c' := c) end.
  assert (closed c' = true) as Hc' by (unfold c'; cbn; repeat case_match; done).
  destruct (add_user_quiet (UOnClose (closeErr c')) (shut_down (with_conn c' w)) eq_refl) as [H1 H2].
  split; [|done]. etrans; [|exact H1]. repeat split; cbn; congruence.
Qed.

Lemma exec_session l w w' : inv w -> exec l w = Some w' -> inv w'.
Proof.
  intros I E. destruct l as [data|keys|keys|keys mt data| | |err]; cbn [exec] in E.
  - destruct (w_reader w); try done. destruct data as [|x d]; [by injection E as <-|].
    destruct (closed _); [injection E as <-; by apply with_reader_inv|].
    destruct (_ && _); injection E as <-; apply with_reader_inv; [done|by apply with_conn_inv].
  - destruct (w_reader w); try done. pose proof (parse_step_closed (w_conn w)) as Hc.
    destruct (parse_step _ _ _ _ _) as [|c e|c ks|c|]; try done; apply (inj Some) in E as <-.
    + by apply with_reader_inv.
    + apply handle_calls_inv, with_reader_inv. by apply with_conn_inv.
    + apply handle_calls_inv. by apply with_conn_inv.
    + apply with_reader_inv. by apply with_conn_inv.
  - destruct (w_jobs w) as [|j js] eqn:Ej; [done|]. apply (inj Some) in E as <-. destruct I as [I1 I2 I3 I4].
    rewrite Ej in *. apply run_job_inv; [split|exact I2|exact I3].
    + destruct (releasePayload sc); [|done]. etrans; [|exact I1]. unfold accounted. cbn. rewrite Ej. cbn. solve_Permutation.
    + intros H. by specialize (I4 H).
  - apply (inj Some) in E as <-. destruct (write_quiet keys mt data w). by eapply inv_quiet.
  - injection E as <-. eapply inv_quiet; [exact I| |done]. by repeat split.
  - destruct (w_delayed w); [|done]. injection E as <-. eapply inv_quiet; [exact I| |done]. by repeat split.
  - apply (inj Some) in E as <-. destruct (clean_quiet err w). by eapply inv_quiet.
Qed.

Lemma run_session ls : forall w, inv w -> inv (run ls w).
Proof.
  induction ls as [|l ls IH]; intros w I; [done|]. cbn [run]. apply IH.
  destruct (exec l w) as [w'|] eqn:E; [|done]. by eapply exec_session.
Qed.

(** ** Nothing is delivered to a closed connection *)

(** Steps from a closed connection: it stays closed and the data handlers are
    not called. *)
Definition sealed (w w' : world) : Prop := closed (w_conn w') = true /\ calls_kept w w'.

Lemma run_job_sealed keys j w : closed (w_conn w) = true -> sealed w (run_job keys j w).
Proof.
  intros Hc. destruct (run_job_spec keys j w) as (_&_&_&_&H&_&Hu). split; [by apply H|]. unfold calls_kept. by rewrite Hu, Hc, app_nil_r.
Qed.

Lemma handle_sealed keys j w : closed (w_conn w) = true -> sealed w (handle keys j w).
Proof.
  intros Hc. unfold handle. destruct (s_mode sc); try by apply (run_job_sealed keys j (submit j w)).
  unfold release. destruct (w_down _), (releasePayload sc); by split.
Qed.

Lemma quiet_sealed w w' : closed (w_conn w) = true -> quiet w w' -> calls_kept w w' -> sealed w w'.
Proof. intros Hc (_&_&_&_&H&_) Hk. split; [by apply H|done]. Qed.

Lemma handle_call_sealed keys k w : closed (w_conn w) = true -> sealed w (handle_call keys k w).
Proof.
  intros Hc. destruct k as [op b|op fin b|op [b|]|code reason]; cbn [handle_call]; try by apply handle_sealed.
  1-3: by apply (handle_sealed keys _ (next_id w)).
  destruct (write_quiet keys CloseMessage (be_put 2 code ++ reason) w). by apply quiet_sealed.
Qed.

Lemma handle_calls_sealed keys ks : forall w, closed (w_conn w) = true -> sealed w (foldl (fun w k => handle_call keys k w) w ks).
Proof.
  induction ks as [|k ks IH]; intros w Hc; [by split|]. cbn [foldl]. destruct (handle_call_sealed keys k w Hc) as [H1 H2].
  destruct (IH _ H1) as [H3 H4]. exact (conj H3 (eq_trans H4 H2)).
Qed.

Lemma exec_sealed l w w' : closed (w_conn w) = true -> exec l w = Some w' -> sealed w w'.
Proof.
  intros Hc E. destruct l as [data|keys|keys|keys mt data| | |err]; cbn [exec] in E.
  - destruct (w_reader w); try done. destruct data as [|x d]; [by injection E as <-|]. rewrite Hc in E. injection E as <-. by split.
  - destruct (w_reader w); try done. pose proof (parse_step_closed (w_conn w)) as Hp.
    destruct (parse_step _ _ _ _ _) as [|c e|c ks|c|]; try done; apply (inj Some) in E as <-.
    + by split.
    + apply (handle_calls_sealed keys _ (with_reader (Failed e) (with_conn c w))). cbn. congruence.
    + apply (handle_calls_sealed keys _ (with_conn c w)). cbn. congruence.
    + split; [cbn; congruence|done].
  - destruct (w_jobs w) as [|j js]; [done|]. apply (inj Some) in E as <-. by apply (run_job_sealed keys j (with_jobs js w)).
  - apply (inj Some) in E as <-. destruct (write_quiet keys mt data w). by apply quiet_sealed.
  - injection E as <-. by split.
  - destruct (w_delayed w); [|done]. injection E as <-. by split.
  - apply (inj Some) in E as <-. destruct (clean_quiet err w). by apply quiet_sealed.
Qed.

Lemma run_sealed ls : forall w, closed (w_conn w) = true -> sealed w (run ls w).
Proof.
  induction ls as [|l ls IH]; intros w Hc; [by split|]. cbn [run]. destruct (exec l w) as [w'|] eqn:E; cbn [default]; [|by apply IH].
  destruct (exec_sealed l w w' Hc E) as [H1 H2]. destruct (IH _ H1) as [H3 H4]. exact (conj H3 (eq_trans H4 H2)).
Qed.

(** ** The wire *)

(** Connections that write alike: the same side, no queue, no compression. *)
Definition writes_like (c0 c : conn) : Prop :=
  isClient c = isClient c0 /\ sendQueue c = None /\ enableWriteCompression c = false.

Lemma write_frames_like f c0 : forall c keys mt so data,
  writes_like c0 c -> sendQueue c0 = None ->
  match write_frames (s_cfg sc) (fun _ => None) f c keys mt so false data with
  | Some (c', out, e) => c' = c /\ e = None /\ write_frames (s_cfg sc) (fun _ => None) f c0 keys mt so false data = Some (c0, out, e)
  | None => True
  end.
Proof.
  induction f as [|f IH]; intros c keys mt so data Hl H0; cbn [write_frames]; [done|].
  destruct data as [|x d]; [done|]. destruct (slice _ 0 _) as [ch|]; [|done]. destruct (slice_from _ _) as [rest|]; [|done].
  destruct Hl as (Hc & Hq & He). rewrite !send_frame_direct by done.
  specialize (IH c (tail keys) mt false rest ltac:(done) H0).
  destruct (write_frames _ _ f c _ _ _ _ _) as [[[c2 o2] e2]|]; [|done]. destruct IH as (-> & -> & IH). rewrite IH. by rewrite Hc.
Qed.

Lemma WriteMessage_like c0 c keys mt data c' out e :
  writes_like c0 c -> plain_writer c0 -> WriteMessage (s_cfg sc) (fun _ => None) deflate c keys mt data = Some (c', out, e) -> closed c = false ->
  c' = c /\ (e <> None -> out = []) /\ WriteMessage (s_cfg sc) (fun _ => None) deflate c0 keys mt data = Some (c0, out, e).
Proof.
  intros Hl (P1 & P2 & P3) E Hcl. unfold WriteMessage in *. rewrite Hcl in E. rewrite P1, P3. pose proof Hl as (Hc & Hq & He). rewrite He in E. cbn [andb] in *.
  destruct (is_control mt && _); [by simplify_eq|]. destruct data as [|x d].
  - rewrite send_frame_direct in E by done. rewrite send_frame_direct by done. rewrite Hc in E. by simplify_eq.
  - pose proof (write_frames_like (S (length (x :: d))) c0 c keys mt true (x :: d) Hl P2) as H. rewrite E in H. by destruct H as (-> & -> & H).
Qed.

(** With the transport closed, nothing is written. *)
Lemma write_frames_down f c keys mt so sz x d c' out e :
  sendQueue c = None -> write_frames (s_cfg sc) (fun _ => Some ErrConnWrite) f c keys mt so sz (x :: d) = Some (c', out, e) -> c' = c /\ e = Some ErrConnWrite.
Proof.
  intros Hq. destruct f as [|f]; cbn [write_frames]; [done|]. destruct (slice _ 0 _); [|done]. destruct (slice_from _ _); [|done].
  unfold send_frame. rewrite Hq. by intros [= -> <- <-].
Qed.

Lemma WriteMessage_down c keys mt data c' out e :
  sendQueue c = None -> WriteMessage (s_cfg sc) (fun _ => Some ErrConnWrite) deflate c keys mt data = Some (c', out, e) -> c' = c /\ e <> None.
Proof.
  intros Hq. unfold WriteMessage. destruct (closed c); [by intros [= <- _ <-]|]. destruct (_ && _); [by intros [= <- _ <-]|].
  destruct (if enableWriteCompression c && _ then _ else _) as [comp d]. destruct d as [|x d].
  - unfold send_frame. rewrite Hq. by intros [= <- _ <-].
  - intros H%write_frames_down; [|done]. destruct H as [-> ->]. done.
Qed.

(** The bytes on the wire are the messages written, in order. *)
Definition on_wire (c0 : conn) (w : world) : Prop :=
  writes_like c0 (w_conn w) /\ write_all (s_cfg sc) deflate c0 (w_sent w) = Some (concat (w_wire w)).

Lemma write_all_snoc c0 ms : forall stream keys mt data out,
  write_all (s_cfg sc) deflate c0 ms = Some stream -> plain_writer c0 ->
  WriteMessage (s_cfg sc) (fun _ => None) deflate c0 keys mt data = Some (c0, out, None) ->
  write_all (s_cfg sc) deflate c0 (ms ++ [(keys, mt, data)]) = Some (stream ++ concat out).
Proof.
  induction ms as [|[[k m] d] ms IH]; intros stream keys mt data out Hs Hp Hw.
  - cbn in *. rewrite Hw. injection Hs as <-. by rewrite app_nil_r.
  - cbn [write_all app] in *. destruct (WriteMessage _ _ _ c0 k m d) as [[[c1 o1] [e1|]]|] eqn:E; try done.
    assert (c1 = c0) as ->.
    { pose proof Hp as (P1 & P2 & P3). exact (proj1 (WriteMessage_like c0 c0 k m d c1 o1 None (conj eq_refl (conj P2 P3)) Hp E P1)). }
    destruct (write_all _ _ c0 ms) as [rest|] eqn:Er; [|done]. injection Hs as <-.
    rewrite (IH rest keys mt data out) by done. by rewrite app_assoc.
Qed.

Section wire.
Context (c0 : conn) (Hp : plain_writer c0).

Lemma write_wire keys mt data w : on_wire c0 w -> on_wire c0 (write_message keys mt data w).2.
Proof.
  intros [Hl Hs]. unfold write_message. destruct (w_down w) eqn:Ed.
  - destruct (WriteMessage _ _ _ _ _ _ _) as [[[c out] e]|] eqn:E; [|done].
    apply WriteMessage_down in E as [-> He]; [|apply Hl]. destruct e as [e|]; [|done]. cbn. rewrite Ed. by split.
  - destruct (closed (w_conn w)) eqn:Ec.
    { unfold WriteMessage. rewrite Ec. cbn. rewrite Ed. split; [done|]. cbn. by rewrite !app_nil_r. }
    destruct (WriteMessage _ _ _ _ _ _ _) as [[[c out] e]|] eqn:E; [|done].
    apply (WriteMessage_like c0) in E as (-> & He & E); try done. destruct e as [e|]; cbn [snd].
    + rewrite He by done. cbn. rewrite Ed. split; [done|]. cbn. by rewrite !app_nil_r.
    + split; [done|]. cbn [w_sent add_sent w_wire with_conn]. rewrite concat_app. by apply write_all_snoc.
Qed.

Lemma same_wire w w' :
  w_sent w' = w_sent w -> w_wire w' = w_wire w ->
  isClient (w_conn w') = isClient (w_conn w) -> sendQueue (w_conn w') = sendQueue (w_conn w) ->
  enableWriteCompression (w_conn w') = enableWriteCompression (w_conn w) -> on_wire c0 w -> on_wire c0 w'.
Proof. unfold on_wire, writes_like. intros -> -> -> -> ->. done. Qed.

Lemma Close_wire w : on_wire c0 w -> on_wire c0 (Close w).
Proof. unfold Close. by case_match. Qed.

Lemma perform_wire keys e w : on_wire c0 w -> on_wire c0 (perform keys e w).
Proof.
  intros H. destruct e as [op b|s|s|code reason|op b| |]; cbn [perform].
  - unfold call_open. by case_match.
  - case_match; [done|]. unfold default_ping. pose proof (write_wire keys PongMessage s w H) as H1.
    destruct (write_message _ _ _ _) as [[e|] w1]; [by apply Close_wire|done].
  - by case_match.
  - case_match; [done|]. unfold default_close. case_match; by apply write_wire.
  - by apply write_wire.
  - by apply Close_wire.
  - done.
Qed.

Lemma performs_wire keys es : forall w, on_wire c0 w -> on_wire c0 (foldl (fun w e => perform keys e w) w es).
Proof. induction es as [|e es IH]; intros w H; [done|]. apply IH. by apply perform_wire. Qed.

Lemma release_wire p w : on_wire c0 w -> on_wire c0 (release p w).
Proof. unfold release. by case_match. Qed.

Lemma handleWsMessage_part c op data : writer_part (handleWsMessage (s_cfg sc) CheckUtf8 c op data).1 = writer_part c.
Proof.
  assert (forall c e, writer_part (SetCloseError e c) = writer_part c) as Hs by (intros c' e; unfold SetCloseError; by case_match).
  unfold handleWsMessage. repeat case_match; cbn [fst]; by rewrite ?Hs.
Qed.

Lemma with_conn_wire c w : writer_part c = writer_part (w_conn w) -> on_wire c0 w -> on_wire c0 (with_conn c w).
Proof. intros E. injection E as _ E1 E2 E3. by apply same_wire. Qed.

Lemma run_job_wire keys j w : on_wire c0 w -> on_wire c0 (run_job keys j w).
Proof.
  intros H. destruct j as [op p|op fin p]; cbn [run_job].
  - pose proof (handleWsMessage_part (w_conn w) op (content p)) as Hc. destruct (handleWsMessage _ _ _ _ _) as [c effs].
    apply release_wire, performs_wire. by apply with_conn_wire.
  - apply release_wire. unfold call_open. by case_match.
Qed.

Lemma handle_wire keys j w : on_wire c0 w -> on_wire c0 (handle keys j w).
Proof. intros H. unfold handle. destruct (s_mode sc); try by apply run_job_wire. case_match; [by apply release_wire|done]. Qed.

Lemma handle_calls_wire keys ks : forall w, on_wire c0 w -> on_wire c0 (foldl (fun w k => handle_call keys k w) w ks).
Proof.
  induction ks as [|k ks IH]; intros w H; [done|]. apply IH. destruct k as [op b|op fin b|op [b|]|code reason]; cbn [handle_call];
    try (by apply handle_wire). by apply write_wire.
Qed.

Lemma exec_wire l w w' : on_wire c0 w -> exec l w = Some w' -> on_wire c0 w'.
Proof.
  intros H E. destruct l as [data|keys|keys|keys mt data| | |err]; cbn [exec] in E.
  - destruct (w_reader w); try done. destruct data; [by injection E as <-|]. destruct (closed _); [by injection E as <-|].
    destruct (_ && _); injection E as <-; done.
  - destruct (w_reader w); try done. pose proof (parse_step_part (w_conn w)) as Hc.
    destruct (parse_step _ _ _ _ _) as [|c e|c ks|c|]; try done; apply (inj Some) in E as <-; [done|..].
    + apply handle_calls_wire. by apply (with_conn_wire c w).
    + apply handle_calls_wire. by apply (with_conn_wire c w).
    + by apply (with_conn_wire (set_bytesCached None c) w).
  - destruct (w_jobs w); [done|]. apply (inj Some) in E as <-. by apply run_job_wire.
  - apply (inj Some) in E as <-. by apply write_wire.
  - by injection E as <-.
  - destruct (w_delayed w); [|done]. by injection E as <-.
  - apply (inj Some) in E as <-. unfold CloseAndClean, ws_CloseAndClean. destruct (closed (w_conn w)); [done|].
    destruct H as [(H1 & H2 & H3) H4]. split; [|done]. unfold writes_like. cbn. by repeat (case_match; cbn in *; try done).
Qed.

Lemma run_wire ls : forall w, on_wire c0 w -> on_wire c0 (run ls w).
Proof.
  induction ls as [|l ls IH]; intros w H; [done|]. cbn [run]. apply IH.
  destruct (exec l w) as [w'|] eqn:E; [|done]. by eapply exec_wire.
Qed.
End wire.
End session.

(** ** The peer *)

Section peer.
Context (pcfg : ws_config) (cap_malloc : Z -> Z) (cap_append : Z -> Z -> Z) (decompressReader : bytes -> reader).
Context (Hmh : hasMessageHandler pcfg = true) (Hdfh : hasDataFrameHandler pcfg = false).
Context (wcfg : ws_config) (deflate : bytes -> option bytes) (Hframe : 125 <= MaxWebsocketFramePayloadSize wcfg).

(** Messages the peer takes, and what it makes of them. *)
Definition deliverable (m : list Z * Z * bytes) : bool :=
  let '(_, mt, data) := m in
  message_ok pcfg m || (is_control mt && ((MessageLengthLimit pcfg <=? 0) || (len data <=? MessageLengthLimit pcfg))).

Definition call_of (m : list Z * Z * bytes) : call :=
  let '(_, mt, data) := m in
  if is_control mt then CProtocol mt (match data with [] => None | _ => Some data end) else CMessage mt data.

(** A control message is one frame. *)
Lemma control_written w keys mt data w' out :
  plain_writer w -> is_control mt = true -> WriteMessage wcfg (fun _ => None) deflate w keys mt data = Some (w', out, None) ->
  w' = w /\ len data <= 125 /\ concat out = frame_bytes (isClient w) (hd 0 keys) mt true true data false.
Proof.
  intros (P1 & P2 & P3) Hc. unfold WriteMessage. rewrite P1, P3, Hc. cbn [andb].
  destruct (Z.ltb_spec maxControlFramePayloadSize (len data)) as [|Hle]; [done|]. unfold maxControlFramePayloadSize in Hle.
  destruct data as [|x d].
  - rewrite send_frame_direct by done. intros [= <- <-]. cbn [concat]. by rewrite app_nil_r.
  - cbn [length write_frames]. rewrite (proj2 (Z.ltb_ge (MaxWebsocketFramePayloadSize wcfg) (len (x :: d)))) by lia.
    pose proof (len_nonneg (x :: d)). rewrite slice_eq, slice_from_eq, send_frame_direct by (done || lia).
    rewrite drop_0, Z.sub_0_r, Z.eqb_refl. rewrite take_ge, drop_ge by (unfold len; lia).
    destruct (length d); cbn [write_frames]; intros [= <- <-]; cbn [concat]; by rewrite app_nil_r.
Qed.

Lemma mixed_read w ms c : forall stream,
  plain_writer w -> closed c = false -> bytesCached c = None -> forallb deliverable ms = true ->
  write_all wcfg deflate w ms = Some stream -> ws_ok pcfg (at_rest c) (len stream) ->
  ws_Parse pcfg cap_malloc cap_append decompressReader (at_rest c) stream = WRet (at_rest c) (map call_of ms) None.
Proof.
  intros stream Hw Hcl Hc. revert stream. induction ms as [|[[keys mt] data] ms IH]; intros stream Hok Hs Hroom.
  { cbn in Hs. by injection Hs as <-. }
  cbn [forallb] in Hok. apply andb_true_iff in Hok as [Hm Hms]. cbn [write_all] in Hs.
  destruct (WriteMessage _ _ _ w keys mt data) as [[[w1 out] [e|]]|] eqn:Ew; try done.
  assert (w1 = w /\ (ws_ok pcfg (at_rest c) (len (concat out)) ->
    ws_Parse pcfg cap_malloc cap_append decompressReader (at_rest c) (concat out) = WRet (at_rest c) [call_of (keys, mt, data)] None)) as [-> Hread].
  { cbn [deliverable call_of] in *. apply orb_true_iff in Hm as [Hm|Hm].
    - cbn [message_ok] in Hm. apply andb_true_iff in Hm as [[H1 H2]%andb_true_iff H3].
      assert (mt = TextMessage \/ mt = BinaryMessage) as Hmt by (apply orb_true_iff in H1 as [H1|H1]; bool_hyp; auto).
      assert (is_control mt = false) as -> by (by destruct Hmt as [-> | ->]).
      destruct (message_read pcfg cap_malloc cap_append decompressReader Hmh Hdfh wcfg deflate w keys mt data c) as (out' & Ho & Hr); try done.
      + by apply negb_true_iff, bool_decide_eq_false in H2.
      + lia.
      + apply orb_true_iff in H3 as [H3|H3]; bool_hyp; auto.
      + rewrite Ew in Ho. injection Ho as -> ->. done.
    - apply andb_true_iff in Hm as [H1 H2]. rewrite H1. destruct (control_written w keys mt data w1 out Hw H1 Ew) as (-> & Hlen & ->).
      split; [done|]. intros Hr. apply ws_Parse_control; try done.
      change (len (held (at_rest c))) with 0. unfold isMessageTooLarge. destruct (Z.leb_spec (MessageLengthLimit pcfg) 0); [done|].
      cbn in H2. bool_hyp. apply Z.ltb_ge. lia. }
  destruct (write_all _ _ w ms) as [rest|] eqn:Er; [|done]. injection Hs as <-. rewrite len_app in Hroom.
  pose proof (len_nonneg rest). pose proof (len_nonneg (concat out)). cbn [map]. change (?a :: ?l) with ([a] ++ l).
  eapply ws_Parse_seq; [exact Hroom|apply Hread|apply IH; try done]; (eapply ws_ok_mono; [exact Hroom|lia]).
Qed.
End peer.

(** ** The property *)


(** ** Concrete runs *)

Definition echo_conf : session_conf := MkSessionConf sample_cfg Queued true false false false.
Definition all_utf8 (_ : bytes) : bool := true.
Definition session_step := run echo_conf exact_malloc exact_append stored_reader all_utf8 Some.
Definition from_client : bytes :=
  frame_bytes true 7 PingMessage true true (str "hi") false ++ frame_bytes true 8 TextMessage true true (str "text") false.

(** A ping and a text: the pong goes out, the text reaches the handler, both
    payloads are freed. *)
Lemma ws_session_run :
  let w := session_step [LRecv from_client; LFrame []; LRun []; LFrame []; LFrame []; LRun []] (start sample_server) in
  w_sent w = [([], PongMessage, str "hi")] /\ w_user w = [UMessage TextMessage (str "text")] /\
  w_freed w = [Pooled 0 (str "hi"); Pooled 1 (str "text")] /\ w_jobs w = [] /\ w_reader w = Between.
Proof. vm_compute. split_and!; reflexivity. Qed.

(** A server that answers a ping and writes a text, and a client that reads the
    two in pieces of one byte and the rest. *)
Definition wide_conf : session_conf := MkSessionConf (MkWsConfig 65536 1000 125 true false true) Queued true false false false.
Definition chat : list label := [LRecv from_client; LFrame []; LRun []; LFrame []; LFrame []; LRun []; LWrite [] TextMessage (str "answer")].


(** A ping without payload: the pointer made up for it is freed into the
    allocator.  The aligned allocator takes its capacity, 0, for a multiple of
    the smallest size, and the next small allocation panics. *)
Lemma empty_ping_poisons :
  let w := session_step [LRecv (frame_bytes true 7 PingMessage true true [] false); LFrame []; LRun []] (start sample_server) in
  w_freed w = [MadeUp] /\
  exists a, aligned_Free (make 0 0) newAligned = Some a /\ aligned_Malloc pick_first 10 a = None.
Proof. split; [vm_compute; reflexivity|]. eexists. split; vm_compute; reflexivity. Qed.

(** A frame size below 125 cuts control messages, which the peer refuses. *)
Lemma control_fragmented :
  let cfg := MkWsConfig 0 0 4 true false false in
  exists out, WriteMessage cfg (fun _ => None) Some sample_server [] PingMessage (str "123456") = Some (sample_server, out, None) /\
    exists c, ws_Parse sample_cfg exact_malloc exact_append stored_reader sample_client (concat out) =
      WRet c [] (Some (ErrControlMessageFragmented PingMessage)).
Proof. eexists. split; [vm_compute; reflexivity|]. eexists. vm_compute. reflexivity. Qed.
