(* ===== verification/EpollLoop.v ===== *)
(** * The loops of the pollers (src/poller_epoll.go, poller_kqueue.go)

    [acceptorLoop], as a function of what the listener and the system answer, and
    [readWriteLoop], which takes a batch of events from the kernel and handles
    them one by one, while other goroutines accept and close connections.  What
    handling an event does to its connection is in [NbRead]; here it matters which
    connection that is: an event carries a descriptor, and descriptors are used
    again. *)

From Stdlib Require Import ZArith Lia.
From stdpp Require Import base numbers list list_numbers gmap.
From S2P Require Import Prelude NbConn NbRead.

Open Scope Z_scope.

(** ** Accepting *)

(** What one round of the accept loop meets: whether [shutdown] is set at the
    loop test and after [Accept]; what [Accept] returned; whether [NBConn] and
    [addConn] succeed.  [a_fd] is the descriptor, which is also the hash. *)
Inductive accepted := AConn (fd : Z) (nbconn_ok add_ok : bool) | ATimeout | AError (e : Z).

Inductive accept_act :=
| ActCloseConn (fd : Z)
| ActAddConn (poller fd : Z)
| ActSleep
| ActLogExit (e : Z)
| ActOnAcceptError (e : Z).

Section acceptor.
Context (npollers : Z) (hasOnAcceptError : bool).

(** One round; [true]: [shutdown] is seen by the error branch. *)
Definition accept_round (down : bool) (r : accepted) : list accept_act :=
  match r with
  | AConn fd nbconn_ok add_ok =>
      if nbconn_ok then [ActAddConn (Z.rem fd npollers) fd] else [ActCloseConn fd]
  | ATimeout => [ActSleep]
  | AError e =>
      (if down then [] else [ActLogExit e]) ++ (if hasOnAcceptError then [ActOnAcceptError e] else [])
  end.

(** The loop over its rounds: [shutdown] at the test, and at the error branch.  The
    kqueue poller has the same loop. *)
Fixpoint acceptorLoop (rounds : list (bool * bool * accepted)) : list accept_act :=
  match rounds with
  | [] => []
  | (stop, down, r) :: rounds =>
      if stop then [] else accept_round down r ++ acceptorLoop rounds
  end.
End acceptor.

(** ** Events *)

(** How far [addConn] is with a connection: not begun; [onOpen] is running (for a
    dialed connection nothing runs here); the table entry is made and the
    descriptor not yet registered; returned without and with an error. *)
Inductive phase := Fresh | Opening | Entered | Added | Failed.
(** How far [closeWithError] is: not called; [closed] is set; [deleteConn] was
    called; the descriptor is closed. *)
Inductive closing := Open | Flagged | Deleted | Gone.
#[global] Instance phase_eq_dec : EqDecision phase.
Proof. solve_decision. Defined.
#[global] Instance closing_eq_dec : EqDecision closing.
Proof. solve_decision. Defined.

(** [k_reg]: epoll has the socket. *)
Record sock := MkSock { k_fd : nat; k_phase : phase; k_close : closing; k_reg : bool }.

(** An event of a batch: the connection the kernel raised it for, its
    descriptor, its bits. *)
Record event := MkEvent { ev_owner : nat; ev_fd : nat; ev_bits : Z }.

(** [p_log]: the connections events were given to, with the event and with
    whether the descriptor of the connection was closed already. *)
Record poller := MkPoller {
  p_socks : list sock;
  connsUnix : gmap nat nat;
  p_batch : list event;
  p_shutdown : bool;
  p_exited : bool;
  p_log : list (nat * event * bool)
}.

Definition new_poller : poller := MkPoller [] ∅ [] false false [].

Definition set_phase (x : phase) (k : sock) : sock := MkSock (k_fd k) x (k_close k) (k_reg k).
Definition set_close (x : closing) (k : sock) : sock := MkSock (k_fd k) (k_phase k) x (k_reg k).
Definition set_reg (k : sock) : sock := MkSock (k_fd k) (k_phase k) (k_close k) true.
Definition flag (k : sock) : sock := if bool_decide (k_close k = Open) then set_close Flagged k else k.

Definition update (id : nat) (f : sock -> sock) (p : poller) : poller :=
  MkPoller (alter f id (p_socks p)) (connsUnix p) (p_batch p) (p_shutdown p) (p_exited p) (p_log p).
Definition set_table (t : gmap nat nat) (p : poller) : poller :=
  MkPoller (p_socks p) t (p_batch p) (p_shutdown p) (p_exited p) (p_log p).
Definition set_batch (b : list event) (p : poller) : poller :=
  MkPoller (p_socks p) (connsUnix p) b (p_shutdown p) (p_exited p) (p_log p).
Definition exited (p : poller) : poller :=
  MkPoller (p_socks p) (connsUnix p) (p_batch p) (p_shutdown p) true (p_log p).
Definition log_to (id : nat) (e : event) (gone : bool) (p : poller) : poller :=
  MkPoller (p_socks p) (connsUnix p) (p_batch p) (p_shutdown p) (p_exited p) (p_log p ++ [(id, e, gone)]).

Definition live (k : sock) : bool := negb (bool_decide (k_close k = Gone)).

(** The goroutine that adds a connection takes the three steps of [addConn]; any
    goroutine closes, by setting [closed], deleting and closing the descriptor.
    The epoll poller registers with [LRegister]; the kqueue poller, whose [addConn]
    is the same up to there, with [LQueue] and, later and by its loop, [LKevent].
    Steps of different goroutines come in any order. *)
Inductive label :=
| LAccept (fd : nat)
| LBegin (id : nat)
| LEnter (id : nat)
| LRegister (ctl_ok : bool) (id : nat)
| LQueue (id : nat)
| LKevent (fd : nat)
| LClose (id : nat)
| LDelete (id : nat)
| LRelease (id : nat)
| LStop
| LWait (evs : list (nat * Z))
| LWaitError
| LHandle.

Section events.
Context (MaxOpenFiles : nat).

(** [closeWithError], its first part: only the first call goes on. *)
Definition closeWithError (id : nat) (p : poller) : poller := update id flag p.

(** [deleteConn], which [closeWithErrorWithoutLock] calls for a connection that
    was given a poller. *)
Definition deleteConn (id : nat) (p : poller) : option poller :=
  k ← p_socks p !! id;
  if bool_decide (k_close k = Flagged)
  then Some (update id (set_close Deleted)
         (set_table (if bool_decide (connsUnix p !! k_fd k = Some id) then delete (k_fd k) (connsUnix p) else connsUnix p) p))
  else None.

(** [addConn] and [addDialer] up to the call of [onOpen]: a descriptor past the
    table is closed.  Whether the connection is closed already is not asked. *)
Definition addConn_begin (id : nat) (p : poller) : option poller :=
  k ← p_socks p !! id;
  if bool_decide (k_phase k = Fresh)
  then Some (if (MaxOpenFiles <=? k_fd k)%nat then closeWithError id (update id (set_phase Failed) p)
             else update id (set_phase Opening) p)
  else None.

(** [p.g.connsUnix[fd] = c], when [onOpen] has returned. *)
Definition addConn_enter (id : nat) (p : poller) : option poller :=
  k ← p_socks p !! id;
  if bool_decide (k_phase k = Opening)
  then Some (update id (set_phase Entered) (set_table (<[k_fd k := id]> (connsUnix p)) p))
  else None.

(** The socket that has a descriptor now. *)
Definition holder (fd : nat) (p : poller) : option (nat * sock) :=
  list_find (fun k => k_fd k = fd /\ live k = true) (p_socks p).

(** [addRead], by descriptor: it registers whichever socket has the descriptor by
    then; it fails when none has it, when that socket is registered already, or
    for want of memory.  On failure the entry of the descriptor is cleared,
    whoever has it, and the connection closed. *)
Definition addConn_register (ctl_ok : bool) (id : nat) (p : poller) : option poller :=
  k ← p_socks p !! id;
  let fail := closeWithError id (update id (set_phase Failed) (set_table (delete (k_fd k) (connsUnix p)) p)) in
  if bool_decide (k_phase k = Entered)
  then Some match holder (k_fd k) p with
            | Some (j, k') =>
                if ctl_ok && negb (k_reg k') then update j set_reg (update id (set_phase Added) p) else fail
            | None => fail
            end
  else None.

(** [addRead] of the kqueue poller only queues the change and does not fail; the
    loop hands it to the kernel, which looks the descriptor up then. *)
Definition kqueue_register (id : nat) (p : poller) : option poller :=
  k ← p_socks p !! id;
  if bool_decide (k_phase k = Entered) then Some (update id (set_phase Added) p) else None.
Definition kqueue_change (fd : nat) (p : poller) : option poller :=
  '(j, _) ← holder fd p; Some (update j set_reg p).

(** [getConn] and the handling of one event: it goes to the connection the table
    has for the descriptor; with an error bit that connection is closed. *)
Definition handle (e : event) (p : poller) : poller :=
  match connsUnix p !! ev_fd e with
  | None => p
  | Some id =>
      let p := log_to id e (match p_socks p !! id with Some k => negb (live k) | None => true end) p in
      if Z.land (ev_bits e) epollEventsError =? 0 then p else closeWithError id p
  end.

(** A descriptor the kernel may give out. *)
Definition unused (fd : nat) (p : poller) : bool := forallb (fun k => negb (bool_decide (k_fd k = fd)) || negb (live k)) (p_socks p).

(** Events are raised for registered sockets, until they are closed. *)
Definition raise (p : poller) (ev : nat * Z) : option event :=
  k ← p_socks p !! ev.1;
  if k_reg k && live k then Some (MkEvent ev.1 (k_fd k) ev.2) else None.

Definition exec (l : label) (p : poller) : option poller :=
  match l with
  | LAccept fd =>
      if unused fd p
      then Some (MkPoller (p_socks p ++ [MkSock fd Fresh Open false]) (connsUnix p) (p_batch p) (p_shutdown p) (p_exited p) (p_log p))
      else None
  | LBegin id => addConn_begin id p
  | LEnter id => addConn_enter id p
  | LRegister ctl_ok id => addConn_register ctl_ok id p
  | LQueue id => kqueue_register id p
  | LKevent fd => kqueue_change fd p
  | LClose id => Some (closeWithError id p)
  | LDelete id => deleteConn id p
  | LRelease id =>
      k ← p_socks p !! id;
      if bool_decide (k_close k = Deleted) then Some (update id (set_close Gone) p) else None
  | LStop => Some (MkPoller (p_socks p) (connsUnix p) (p_batch p) true (p_exited p) (p_log p))
  | LWait evs =>
      if p_exited p then None
      else
        match p_batch p with
        | [] => if p_shutdown p then Some (exited p)
                else batch ← mapM (raise p) evs; Some (set_batch batch p)
        | _ => None
        end
  | LWaitError => match p_batch p with [] => Some (exited p) | _ => None end
  | LHandle =>
      match p_batch p with
      | [] => None
      | e :: es => Some (handle e (set_batch es p))
      end
  end.

Fixpoint run (ls : list label) (p : poller) : poller :=
  match ls with
  | [] => p
  | l :: ls => run ls (default p (exec l p))
  end.

(** No descriptor is given out while an event for it waits in the batch. *)
Definition no_reuse (l : label) (p : poller) : bool :=
  match l with LAccept fd => forallb (fun e => negb (bool_decide (ev_fd e = fd))) (p_batch p) | _ => true end.

(** No connection is closed, by the user in [onOpen], by another goroutine or by
    the handling of an event, while it is being added. *)
Definition settled (id : nat) (p : poller) : bool :=
  match p_socks p !! id with
  | Some k => bool_decide (k_phase k = Added) || bool_decide (k_phase k = Failed)
  | None => true
  end.
Definition calm (l : label) (p : poller) : bool :=
  match l with
  | LClose id => settled id p
  | LHandle =>
      match p_batch p with
      | e :: _ =>
          match connsUnix p !! ev_fd e with
          | Some id => (Z.land (ev_bits e) epollEventsError =? 0) || settled id p
          | None => true
          end
      | [] => true
      end
  | _ => true
  end.

(** A condition on every step of a run. *)
Fixpoint all_along (c : label -> poller -> bool) (ls : list label) (p : poller) : bool :=
  match ls with
  | [] => true
  | l :: ls => c l p && all_along c ls (default p (exec l p))
  end.

(** ** How sockets change *)

Definition entered (k : sock) : bool := negb (bool_decide (k_phase k = Fresh)) && negb (bool_decide (k_phase k = Opening)).
Definition adding (k : sock) : bool := negb (bool_decide (k_phase k = Added)) && negb (bool_decide (k_phase k = Failed)).
(** In the table, as it should be. *)
Definition tabled (k : sock) : bool :=
  (bool_decide (k_phase k = Entered) || bool_decide (k_phase k = Added)) &&
  (bool_decide (k_close k = Open) || bool_decide (k_close k = Flagged)).

(** A socket keeps its descriptor, does not come back to life, and stays entered. *)
Definition later (k k' : sock) : Prop :=
  k_fd k' = k_fd k /\ (live k' = true -> live k = true) /\ (entered k = true -> entered k' = true).
Definition evolves (p p' : poller) : Prop :=
  forall i k, p_socks p !! i = Some k -> exists k', p_socks p' !! i = Some k' /\ later k k'.

Lemma later_refl k : later k k.
Proof. done. Qed.
Lemma sock_later_trans a b c : later a b -> later b c -> later a c.
Proof. unfold later. intros (-> & ? & ?) (-> & ? & ?). tauto. Qed.
Lemma later_flag k : later k (flag k).
Proof. unfold flag. case_bool_decide as H; [|apply later_refl]. unfold later, live. cbn. by rewrite H. Qed.

Lemma update_lookup id f p i :
  p_socks (update id f p) !! i = if decide (i = id) then f <$> p_socks p !! i else p_socks p !! i.
Proof.
  unfold update. cbn [p_socks]. destruct (decide (i = id)) as [->|Hn]; [apply list_lookup_alter_eq|by apply list_lookup_alter_ne].
Qed.

Lemma evolves_refl p : evolves p p.
Proof. intros i k H. by exists k. Qed.
Lemma evolves_trans p q r : evolves p q -> evolves q r -> evolves p r.
Proof.
  intros H1 H2 i k H. destruct (H1 i k H) as (k' & H' & L1). destruct (H2 i k' H') as (k'' & H'' & L2).
  exists k''. split; [done|]. by eapply sock_later_trans.
Qed.
Lemma evolves_update id f p : (forall k, p_socks p !! id = Some k -> later k (f k)) -> evolves p (update id f p).
Proof.
  intros Hf i k H. rewrite update_lookup. destruct (decide (i = id)) as [->|_]; [|by exists k].
  rewrite H. exists (f k). split; [done|]. by apply Hf.
Qed.
Lemma evolves_close id p : evolves p (closeWithError id p).
Proof. apply evolves_update. intros k _. apply later_flag. Qed.

(** Descriptor, batch and log of what [closeWithError] and [addConn] leave. *)
Definition same_frame (p p' : poller) : Prop :=
  length (p_socks p') = length (p_socks p) /\ p_batch p' = p_batch p /\ p_log p' = p_log p.
Lemma same_update id f p : same_frame p (update id f p).
Proof. unfold same_frame, update. cbn. by rewrite length_alter. Qed.
Lemma same_trans p q r : same_frame p q -> same_frame q r -> same_frame p r.
Proof. intros (H1 & H2 & H3) (H4 & H5 & H6). unfold same_frame. split_and!; congruence. Qed.

Definition quietly (p p' : poller) : Prop := evolves p p' /\ same_frame p p'.
Lemma quietly_trans p q r : quietly p q -> quietly q r -> quietly p r.
Proof. intros [H1 H2] [H3 H4]. split; [by eapply evolves_trans|by eapply same_trans]. Qed.
Lemma quietly_update id f p : (forall k, p_socks p !! id = Some k -> later k (f k)) -> quietly p (update id f p).
Proof. intros H. split; [by apply evolves_update|apply same_update]. Qed.
Lemma quietly_table t p q : quietly (set_table t p) q -> quietly p q.
Proof. done. Qed.
Lemma quietly_close id p : quietly p (closeWithError id p).
Proof. split; [apply evolves_close|apply same_update]. Qed.

Lemma begin_quiet id p p' : addConn_begin id p = Some p' -> quietly p p'.
Proof.
  unfold addConn_begin. destruct (p_socks p !! id) as [k|] eqn:Ek; [|done]. cbn [mbind option_bind].
  case_bool_decide as Hp; [|done]. intros H. apply (inj Some) in H as <-.
  assert (forall x, x = Failed \/ x = Opening -> quietly p (update id (set_phase x) p)) as Hx.
  { intros x _. apply quietly_update. intros k' H'. assert (k' = k) as -> by congruence. unfold later, entered. cbn. by rewrite Hp. }
  case_match; [|by apply Hx; right]. eapply quietly_trans; [apply (Hx Failed); by left|apply quietly_close].
Qed.

Lemma enter_quiet id p p' : addConn_enter id p = Some p' -> quietly p p'.
Proof.
  unfold addConn_enter. destruct (p_socks p !! id) as [k|] eqn:Ek; [|done]. cbn [mbind option_bind].
  case_bool_decide as Hp; [|done]. intros H. apply (inj Some) in H as <-. eapply quietly_table, quietly_update.
  intros k' H'. done.
Qed.

Lemma register_quiet ok id p p' : addConn_register ok id p = Some p' -> quietly p p'.
Proof.
  unfold addConn_register. destruct (p_socks p !! id) as [k|] eqn:Ek; [|done]. cbn [mbind option_bind].
  case_bool_decide as Hp; [|done]. intros H. apply (inj Some) in H as <-.
  assert (quietly p (closeWithError id (update id (set_phase Failed) (set_table (delete (k_fd k) (connsUnix p)) p)))) as Hf.
  { eapply quietly_trans; [|apply quietly_close]. by eapply quietly_table, quietly_update. }
  destruct (holder _ p) as [[j k']|]; [|done]. case_match; [|done].
  eapply quietly_trans; by apply quietly_update.
Qed.

Lemma queue_quiet id p p' : kqueue_register id p = Some p' -> quietly p p'.
Proof.
  unfold kqueue_register. destruct (p_socks p !! id) as [k|] eqn:Ek; [|done]. cbn [mbind option_bind].
  case_bool_decide as Hp; [|done]. intros H. apply (inj Some) in H as <-. by apply quietly_update.
Qed.

Lemma change_quiet fd p p' : kqueue_change fd p = Some p' -> quietly p p'.
Proof.
  unfold kqueue_change. destruct (holder fd p) as [[j k]|]; [|done]. cbn [mbind option_bind].
  intros H. apply (inj Some) in H as <-. by apply quietly_update.
Qed.

Lemma delete_quiet id p p' : deleteConn id p = Some p' -> quietly p p'.
Proof.
  unfold deleteConn. destruct (p_socks p !! id) as [k|] eqn:Ek; [|done]. cbn [mbind option_bind].
  case_bool_decide as Hp; [|done]. intros H. apply (inj Some) in H as <-. eapply quietly_table, quietly_update.
  cbn [p_socks set_table]. intros k' H'. assert (k' = k) as -> by congruence. unfold later, live. cbn. by rewrite Hp.
Qed.

Lemma raise_owner p evs batch : mapM (raise p) evs = Some batch ->
  forall e, e ∈ batch -> exists k, p_socks p !! ev_owner e = Some k /\ k_fd k = ev_fd e /\ live k = true.
Proof.
  intros H e He. apply mapM_Some in H. apply list_elem_of_lookup in He as [i He].
  destruct (Forall2_lookup_r _ _ _ _ _ H He) as ([id b] & _ & Hr). unfold raise in Hr. cbn in Hr.
  destruct (p_socks p !! id) as [k|] eqn:Ek; [|done]. cbn in Hr. destruct (k_reg k); [|done].
  destruct (live k) eqn:El; [|done]. injection Hr as <-. by exists k.
Qed.

(** What a step does to sockets, batch and log. *)
Definition effect (l : label) (p p' : poller) : Prop :=
  evolves p p' /\
  ((exists fd, l = LAccept fd /\ unused fd p = true /\ p_socks p' = p_socks p ++ [MkSock fd Fresh Open false] /\ p_batch p' = p_batch p) \/
   length (p_socks p') = length (p_socks p) /\
     (p_batch p' ⊆ p_batch p \/ forall e, e ∈ p_batch p' -> exists k, p_socks p !! ev_owner e = Some k /\ k_fd k = ev_fd e /\ live k = true)) /\
  (p_log p' = p_log p \/
   exists e id, e ∈ p_batch p /\ connsUnix p !! ev_fd e = Some id /\
     p_log p' = p_log p ++ [(id, e, match p_socks p !! id with Some k => negb (live k) | None => true end)]).

Lemma effect_quiet l p p' : quietly p p' -> effect l p p'.
Proof.
  intros [He (Hs & Hb & Hl)]. split; [done|]. split; [|by left]. right. split; [done|]. left. by rewrite Hb.
Qed.

Lemma handle_effect e es p : p_batch p = e :: es -> effect LHandle p (handle e (set_batch es p)).
Proof.
  intros Eb. unfold handle. cbn [connsUnix set_batch p_socks]. unfold effect. rewrite Eb.
  assert (es ⊆ e :: es) as Hsub by (intros x; by constructor).
  destruct (connsUnix p !! ev_fd e) as [id|] eqn:Et.
  2: { split; [exact (evolves_refl p)|]. split; [right; split; [done|by left]|by left]. }
  set (q := log_to _ _ _ _).
  assert (quietly q (if Z.land (ev_bits e) epollEventsError =? 0 then q else closeWithError id q)) as [H1 (H2 & H3 & H4)].
  { case_match; [split; [apply evolves_refl|done]|apply quietly_close]. }
  split; [exact H1|]. rewrite H3, H4. split; [right; split; [done|by left]|].
  right. exists e, id. split; [by constructor|done].
Qed.

Lemma exec_effect l p p' : exec l p = Some p' -> effect l p p'.
Proof.
  intros E. destruct l as [fd|id|id|ok id|id|fd|id|id|id| |evs| |]; cbn [exec] in E.
  - destruct (unused fd p) eqn:Eu; [|done]. apply (inj Some) in E as <-. split; [|split; [left; by exists fd|by left]].
    intros i k H. exists k. split; [by apply lookup_app_l_Some|apply later_refl].
  - by eapply effect_quiet, begin_quiet.
  - by eapply effect_quiet, enter_quiet.
  - by eapply effect_quiet, register_quiet.
  - by eapply effect_quiet, queue_quiet.
  - by eapply effect_quiet, change_quiet.
  - apply (inj Some) in E as <-. apply effect_quiet, quietly_close.
  - by eapply effect_quiet, delete_quiet.
  - destruct (p_socks p !! id) as [k|] eqn:Ek; [|done]. cbn [mbind option_bind] in E. case_bool_decide as Hd; [|done].
    apply (inj Some) in E as <-. by apply effect_quiet, quietly_update.
  - apply (inj Some) in E as <-. by apply effect_quiet; split; [exact (evolves_refl p)|].
  - destruct (p_exited p); [done|]. destruct (p_batch p) eqn:Eb; [|done]. destruct (p_shutdown p).
    { apply (inj Some) in E as <-. by apply effect_quiet; split; [exact (evolves_refl p)|]. }
    destruct (mapM (raise p) evs) as [batch|] eqn:Em; [|done]. apply (inj Some) in E as <-.
    split; [exact (evolves_refl p)|]. split; [|by left]. right. split; [done|]. right. by apply (raise_owner p evs).
  - destruct (p_batch p) eqn:Eb; [|done]. apply (inj Some) in E as <-. by apply effect_quiet; split; [exact (evolves_refl p)|].
  - destruct (p_batch p) as [|e es] eqn:Eb; [done|]. apply (inj Some) in E as <-. by apply handle_effect.
Qed.

(** ** The invariant *)

Record inv (p : poller) : Prop := {
  pi_table : forall fd id, connsUnix p !! fd = Some id -> exists k, p_socks p !! id = Some k /\ k_fd k = fd /\ entered k = true;
  pi_one : forall i j k k', p_socks p !! i = Some k -> p_socks p !! j = Some k' -> k_fd k = k_fd k' ->
             live k = true -> live k' = true -> i = j;
  pi_batch : forall e, e ∈ p_batch p -> exists k, p_socks p !! ev_owner e = Some k /\ k_fd k = ev_fd e;
  pi_log : forall id e g, (id, e, g) ∈ p_log p -> exists k, p_socks p !! id = Some k /\ k_fd k = ev_fd e
}.

Lemma unused_spec fd p i k : unused fd p = true -> p_socks p !! i = Some k -> k_fd k = fd -> live k = false.
Proof.
  unfold unused. rewrite forallb_forall. intros H Hk Hf. apply list_elem_of_lookup_2, list_elem_of_In, H in Hk.
  rewrite bool_decide_eq_true_2 in Hk by done. by apply negb_true_iff in Hk.
Qed.

Lemma accepted_lookup l fd i k : (l ++ [MkSock fd Fresh Open false]) !! i = Some k ->
  l !! i = Some k \/ (i = length l /\ k = MkSock fd Fresh Open false).
Proof. intros [H|[Hi H]]%lookup_app_Some; [by left|right]. apply list_lookup_singleton_Some in H as [H1 <-]. split; [lia|done]. Qed.

(** The socket as it was before. *)
Lemma evolves_back p p' i k' : evolves p p' -> length (p_socks p') = length (p_socks p) -> p_socks p' !! i = Some k' ->
  exists k, p_socks p !! i = Some k /\ later k k'.
Proof.
  intros He Hl H. pose proof (lookup_lt_Some _ _ _ H) as Hi. rewrite Hl in Hi. apply lookup_lt_is_Some_2 in Hi as [k Hk].
  exists k. split; [done|]. destruct (He i k Hk) as (k0 & H0 & L). assert (k0 = k') as -> by congruence. done.
Qed.

(** The table gains an entry only by [addConn_enter]. *)
Lemma table_step l p p' fd id : exec l p = Some p' -> connsUnix p' !! fd = Some id ->
  connsUnix p !! fd = Some id \/ exists k, p_socks p' !! id = Some k /\ k_fd k = fd /\ entered k = true.
Proof.
  intros E. destruct l as [fd'|i|i|ok i|i|fd'|i|i|i| |evs| |]; cbn [exec] in E;
    unfold addConn_begin, addConn_enter, addConn_register, kqueue_register, kqueue_change, deleteConn, mbind, option_bind in E;
    repeat (case_match; try done); apply (inj Some) in E as <-; cbn [connsUnix set_table update closeWithError exited set_batch]; try (by left);
    rewrite ?lookup_delete_Some; try tauto.
  - rewrite lookup_insert_Some. intros [[<- <-]|[_ H']]; [right|by left]. rewrite update_lookup, decide_True by done.
    match goal with Hk : p_socks p !! i = Some ?k |- _ => cbn [p_socks set_table]; rewrite Hk end. by eexists.
  - intros Ht. left. revert Ht. unfold handle. cbn [connsUnix set_batch]. destruct (connsUnix p !! ev_fd _); [|done]. by case_match.
Qed.

Lemma exec_keeps l p p' : inv p -> exec l p = Some p' -> inv p'.
Proof.
  intros [I1 I2 I3 I4] E. destruct (exec_effect l p p' E) as (He & Hs & Hl).
  assert (forall i fd, (exists k, p_socks p !! i = Some k /\ k_fd k = fd) -> exists k, p_socks p' !! i = Some k /\ k_fd k = fd) as Hfd.
  { intros i fd (k & Hk & <-). destruct (He i k Hk) as (k' & H' & Hf & _). by exists k'. }
  split.
  - intros fd id H. destruct (table_step l p p' fd id E H) as [H'|H']; [|done].
    destruct (I1 fd id H') as (k & Hk & <- & Hen). destruct (He id k Hk) as (k' & Hk' & Hf & _ & Hen'). exists k'. tauto.
  - intros i j k k' Hi Hj Hf L1 L2. destruct Hs as [(fd & _ & Hu & Hs & _)|[Hs _]].
    + rewrite Hs in Hi, Hj. apply accepted_lookup in Hi as [Hi|[-> ->]]; apply accepted_lookup in Hj as [Hj|[-> ->]]; [by eapply I2| | |done].
      * rewrite (unused_spec fd p i k) in L1; done.
      * rewrite (unused_spec fd p j k') in L2; done.
    + destruct (evolves_back p p' i k He Hs Hi) as (a & Ha & Fa & La & _), (evolves_back p p' j k' He Hs Hj) as (b & Hb & Fb & Lb & _).
      eapply (I2 i j a b); try tauto; congruence.
  - intros e Hin. destruct Hs as [(fd & _ & _ & _ & Hb)|[_ [Hb|Hb]]].
    + apply Hfd, I3. by rewrite <- Hb.
    + by apply Hfd, I3, Hb.
    + destruct (Hb e Hin) as (k & Hk & Hf & _). apply Hfd. by exists k.
  - intros id e g Hin. apply Hfd. destruct Hl as [Hl|(e' & id' & _ & Ht & Hl)]; rewrite Hl in Hin; [by eapply I4|].
    apply elem_of_app in Hin as [Hin|Hin]; [by eapply I4|]. apply list_elem_of_singleton in Hin as [= -> -> _].
    destruct (I1 _ _ Ht) as (k & Hk & Hf & _). by exists k.
Qed.

(** ** Whom an event reaches *)

(** Every waiting event's descriptor is its owner's, or nobody's. *)
Definition fresh_batch (p : poller) : Prop :=
  forall e i k, e ∈ p_batch p -> p_socks p !! i = Some k -> k_fd k = ev_fd e -> live k = true -> i = ev_owner e.
Definition to_owner (p : poller) : Prop := forall id e, (id, e, false) ∈ p_log p -> id = ev_owner e.

Lemma exec_fresh l p p' : inv p -> fresh_batch p -> no_reuse l p = true -> exec l p = Some p' -> fresh_batch p'.
Proof.
  intros I F Hr E. destruct (exec_effect l p p' E) as (He & [(fd & -> & _ & Hs & Hb)|[Hs Hb]] & _); intros e i k Hin Hi Hf Hl.
  - rewrite Hb in Hin. rewrite Hs in Hi. apply accepted_lookup in Hi as [Hi|[_ ->]]; [by eapply F|].
    cbn in Hr, Hf. rewrite forallb_forall in Hr. apply list_elem_of_In, Hr in Hin. by rewrite bool_decide_eq_true_2 in Hin.
  - destruct (evolves_back p p' i k He Hs Hi) as (k0 & H0 & F0 & L0 & _).
    destruct Hb as [Hb|Hb]; [eapply F; [by apply Hb|exact H0|congruence|tauto]|].
    destruct (Hb e Hin) as (ko & Ho & Fo & Lo). destruct I as [_ I2 _ _]. eapply (I2 i (ev_owner e)); [exact H0|exact Ho|congruence|tauto|done].
Qed.

Lemma exec_owner l p p' : fresh_batch p -> to_owner p -> inv p -> exec l p = Some p' -> to_owner p'.
Proof.
  intros F L I E id e Hin. destruct (exec_effect l p p' E) as (_ & _ & Hl).
  destruct Hl as [Hl|(e' & id' & Hb & Ht & Hl)]; rewrite Hl in Hin; [by apply L|].
  apply elem_of_app in Hin as [Hin|Hin]; [by apply L|]. apply list_elem_of_singleton in Hin as [= -> -> Hg].
  destruct I as [I1 _ _ _]. destruct (I1 _ _ Ht) as (k & Hk & Hf & _). rewrite Hk in Hg. symmetry in Hg. apply negb_false_iff in Hg.
  by eapply F.
Qed.

(** ** The table when no connection is closed while it is being added *)

Record exact (p : poller) : Prop := {
  ex_table : forall fd id, connsUnix p !! fd = Some id <-> exists k, p_socks p !! id = Some k /\ k_fd k = fd /\ tabled k = true;
  ex_open : forall id k, p_socks p !! id = Some k -> adding k = true -> k_close k = Open
}.

Lemma tabled_live k : tabled k = true -> live k = true.
Proof. unfold tabled, live. destruct (k_close k); cbn; rewrite ?andb_false_r; done. Qed.

Lemma adding_close x k : adding (set_close x k) = adding k.
Proof. done. Qed.

Lemma exact_update id f p :
  (forall k, p_socks p !! id = Some k -> k_fd (f k) = k_fd k /\ tabled (f k) = tabled k /\ (adding (f k) = true -> k_close (f k) = Open)) ->
  exact p -> exact (update id f p).
Proof.
  intros Hf [E1 E2]. split.
  - intros fd i. cbn [connsUnix update]. rewrite E1, update_lookup. destruct (decide (i = id)) as [->|_]; [|done].
    destruct (p_socks p !! id) as [k|] eqn:Ek; [|done]. destruct (Hf k eq_refl) as (F1 & F2 & _). cbn.
    split; (intros (k' & [= <-] & H); eexists; split; [done|]); rewrite F1, F2 in *; done.
  - intros i k. rewrite update_lookup. destruct (decide (i = id)) as [->|_]; [|by apply E2].
    destruct (p_socks p !! id) as [k0|] eqn:Ek; [|done]. intros [= <-]. by apply Hf.
Qed.

Lemma exact_delete id fd k f p :
  inv p -> exact p -> p_socks p !! id = Some k -> k_fd k = fd -> tabled k = true -> k_fd (f k) = fd -> tabled (f k) = false ->
  (adding (f k) = true -> k_close (f k) = Open) -> exact (update id f (set_table (delete fd (connsUnix p)) p)).
Proof.
  intros I [E1 E2] Hk Hfd Ht Hf Hn Ho. split.
  - intros fd' i. rewrite update_lookup. cbn [connsUnix update set_table p_socks]. rewrite lookup_delete_Some, E1.
    destruct (decide (i = id)) as [->|Hi].
    + rewrite Hk. cbn. split; [intros (Hd & k' & [= <-] & H & _); congruence|intros (k' & [= <-] & _ & H); congruence].
    + split; [tauto|]. intros (k' & Hk' & H' & Ht'). split; [|by exists k']. intros ->. apply Hi.
      destruct I as [_ I2 _ _]. apply (I2 i id k' k); auto using tabled_live. congruence.
  - intros i k'. rewrite update_lookup. cbn [p_socks set_table]. destruct (decide (i = id)) as [->|_]; [|by apply E2].
    rewrite Hk. by intros [= <-].
Qed.

Lemma exact_insert id k f p :
  inv p -> exact p -> p_socks p !! id = Some k -> live k = true -> tabled k = false -> k_fd (f k) = k_fd k -> tabled (f k) = true ->
  k_close (f k) = Open -> exact (update id f (set_table (<[k_fd k := id]> (connsUnix p)) p)).
Proof.
  intros I [E1 E2] Hk Hl Ht Hf Hn Ho. split.
  - intros fd' i. rewrite update_lookup. cbn [connsUnix update set_table p_socks]. rewrite lookup_insert_Some, E1.
    destruct (decide (i = id)) as [->|Hi].
    + rewrite Hk. cbn. split; [intros [[<- _]|(_ & k' & [= <-] & _ & H)]; [by eexists|congruence]|].
      intros (k' & [= <-] & <- & _). by left.
    + split; [intros [[_ ?]|[_ H]]; [done|exact H]|]. intros (k' & Hk' & H' & Ht'). right. split; [|by exists k']. intros <-. apply Hi.
      destruct I as [_ I2 _ _]. apply (I2 i id k' k); auto using tabled_live.
  - intros i k'. rewrite update_lookup. cbn [p_socks set_table]. destruct (decide (i = id)) as [->|_]; [|by apply E2].
    rewrite Hk. by intros [= <-].
Qed.

Lemma exact_close id p : settled id p = true -> exact p -> exact (closeWithError id p).
Proof.
  intros Hs Hx. apply exact_update; [|done]. intros k Hk. unfold settled in Hs. rewrite Hk in Hs.
  assert (adding k = false) as Ha by (unfold adding; by destruct (k_phase k)).
  assert (forall x, adding (set_close x k) = false) as Hx' by done.
  unfold flag. destruct (bool_decide (k_close k = Open)) eqn:Hc; [|rewrite Ha; done].
  apply bool_decide_eq_true in Hc. rewrite Hx'. split; [done|]. split; [|done].
  unfold tabled. cbn. rewrite Hc. by rewrite !andb_true_r.
Qed.

Lemma exec_exact_add l p p' : inv p -> exact p -> exec l p = Some p' ->
  match l with LBegin _ | LEnter _ | LRegister _ _ | LQueue _ => exact p' | _ => True end.
Proof.
  intros I X E. destruct l as [fd|id|id|ok id|id|fd|id|id|id| |evs| |]; try done; cbn [exec] in E;
    unfold addConn_begin, addConn_enter, addConn_register, kqueue_register in E;
    (destruct (p_socks p !! id) as [k|] eqn:Ek; [|done]); cbn [mbind option_bind] in E; case_bool_decide as Hp; try done; apply (inj Some) in E as <-.
  - assert (tabled k = false) as Ht by (unfold tabled; by rewrite Hp). pose proof (ex_open p X id k Ek) as Ho.
    assert (forall x, x = Failed \/ x = Opening -> exact (update id (set_phase x) p)) as Hx.
    { intros x Hx. apply exact_update; [|done]. intros k' H'. assert (k' = k) as -> by congruence. rewrite Ht. unfold adding in *. rewrite Hp in Ho.
      split; [done|]. split; [by destruct Hx as [-> | ->]|]. intros _. by apply Ho. }
    case_match; [|by apply Hx; right]. apply exact_close; [|by apply Hx; left]. unfold settled. rewrite update_lookup, decide_True, Ek by done. done.
  - assert (k_close k = Open) as Ho by (apply (ex_open p X id k Ek); unfold adding; by rewrite Hp).
    apply exact_insert; try done; unfold live, tabled; cbn; by rewrite ?Hp, ?Ho.
  - assert (k_close k = Open) as Ho by (apply (ex_open p X id k Ek); unfold adding; by rewrite Hp).
    assert (exact (closeWithError id (update id (set_phase Failed) (set_table (delete (k_fd k) (connsUnix p)) p)))) as Hf.
    { apply exact_close; [unfold settled; rewrite update_lookup, decide_True by done; cbn [p_socks set_table]; by rewrite Ek|].
      apply (exact_delete id (k_fd k) k); try done. unfold tabled. by rewrite Hp, Ho. }
    destruct (holder _ p) as [[j k']|]; [|done]. case_match; [|done].
    apply exact_update.
    { intros kj Hj. split; [done|]. split; [done|]. rewrite update_lookup in Hj. destruct (decide (j = id)) as [->|_]; [|exact (ex_open p X j kj Hj)].
      rewrite Ek in Hj. by injection Hj as <-. }
    apply exact_update; [|done]. intros k0 H0. assert (k0 = k) as -> by congruence. unfold tabled. cbn. by rewrite Hp.
  - apply exact_update; [|done]. intros k0 H0. assert (k0 = k) as -> by congruence. unfold tabled. cbn. by rewrite Hp.
Qed.

Lemma exec_exact l p p' : inv p -> exact p -> calm l p = true -> exec l p = Some p' -> exact p'.
Proof.
  intros I X Hc E. pose proof (exec_exact_add l p p' I X E) as Hadd.
  destruct l as [fd|id|id|ok id|id|fd|id|id|id| |evs| |]; cbn [exec calm] in *; try exact Hadd; clear Hadd.
  - destruct (unused fd p) eqn:Eu; [|done]. apply (inj Some) in E as <-. destruct X as [E1 E2]. split; cbn [connsUnix p_socks].
    + intros fd' i. rewrite E1. split; [intros (k & Hk & H); exists k; split; [by apply lookup_app_l_Some|done]|].
      intros (k & [Hk|[_ ->]]%accepted_lookup & H & Ht); [by exists k|done].
    + intros i k [Hk|[_ ->]]%accepted_lookup; [by apply (E2 i)|done].
  - unfold kqueue_change in E. destruct (holder fd p) as [[j k]|]; [|done]. cbn [mbind option_bind] in E. apply (inj Some) in E as <-.
    apply exact_update; [|done]. intros kj Hj. split; [done|]. split; [done|]. exact (ex_open p X j kj Hj).
  - apply (inj Some) in E as <-. by apply exact_close.
  - unfold deleteConn in E. destruct (p_socks p !! id) as [k|] eqn:Ek; [|done]. cbn [mbind option_bind] in E.
    case_bool_decide as Hf; [|done]. apply (inj Some) in E as <-.
    assert (adding k = false) as Ha by (destruct (adding k) eqn:Ea; [|done]; apply (ex_open p X id k Ek) in Ea; congruence).
    assert (tabled (set_close Deleted k) = false) as Hd by (unfold tabled; cbn; apply andb_false_r).
    case_bool_decide as Ht.
    + apply (ex_table p X) in Ht as (k' & Hk' & _ & Ht). assert (k' = k) as -> by congruence.
      apply (exact_delete id (k_fd k) k); try done. by rewrite adding_close, Ha.
    + apply exact_update; [|by destruct X]. intros k' H'. cbn [p_socks set_table] in H'. assert (k' = k) as -> by congruence.
      split; [done|]. rewrite Hd. split; [|by rewrite adding_close, Ha].
      destruct (tabled k) eqn:Ek'; [|done]. destruct Ht. apply (ex_table p X). by exists k.
  - destruct (p_socks p !! id) as [k|] eqn:Ek; [|done]. cbn [mbind option_bind] in E. case_bool_decide as Hf; [|done].
    apply (inj Some) in E as <-. apply exact_update; [|done]. intros k' H'. assert (k' = k) as -> by congruence.
    split; [done|]. split; [unfold tabled; cbn; by rewrite Hf, !andb_false_r|].
    intros Ha. apply (ex_open p X id k Ek) in Ha. congruence.
  - apply (inj Some) in E as <-. by destruct X.
  - destruct (p_exited p); [done|]. destruct (p_batch p); [|done]. destruct (p_shutdown p); [apply (inj Some) in E as <-; by destruct X|].
    destruct (mapM (raise p) evs); [|done]. apply (inj Some) in E as <-. by destruct X.
  - destruct (p_batch p); [|done]. apply (inj Some) in E as <-. by destruct X.
  - destruct (p_batch p) as [|e es]; [done|]. apply (inj Some) in E as <-. unfold handle. cbn [connsUnix set_batch].
    assert (forall q, p_socks q = p_socks p -> connsUnix q = connsUnix p -> exact q) as Hq.
    { intros q Hs Ht. destruct X. split; by rewrite Hs, ?Ht. }
    destruct (connsUnix p !! ev_fd e) as [id|]; [|by apply Hq]. case_match; [by apply Hq|]. apply orb_true_iff in Hc as [Hc|Hc]; [done|].
    apply exact_close; [done|by apply Hq].
Qed.

(** With an exact table no event reaches a closed descriptor's connection. *)
Definition none_gone (p : poller) : Prop := forall id e g, (id, e, g) ∈ p_log p -> g = false.
Lemma exec_none_gone l p p' : exact p -> none_gone p -> exec l p = Some p' -> none_gone p'.
Proof.
  intros X N E id e g Hin. destruct (exec_effect l p p' E) as (_ & _ & [Hl|(e' & id' & _ & Ht & Hl)]); rewrite Hl in Hin; [by eapply N|].
  apply elem_of_app in Hin as [Hin|Hin]; [by eapply N|]. apply list_elem_of_singleton in Hin as [= -> -> ->].
  apply (ex_table p X) in Ht as (k & Hk & _ & Ht). rewrite Hk. by rewrite (tabled_live k Ht).
Qed.

Lemma loop_run_inv ls : forall p, inv p -> inv (run ls p).
Proof.
  induction ls as [|l ls IH]; intros p I; [done|]. cbn [run]. destruct (exec l p) as [p'|] eqn:E; cbn [default]; [|by apply IH].
  apply IH. by eapply exec_keeps.
Qed.

Lemma run_owner ls : forall p, inv p -> fresh_batch p -> to_owner p -> all_along no_reuse ls p = true -> to_owner (run ls p).
Proof.
  induction ls as [|l ls IH]; intros p I F O H; [done|]. cbn [run all_along] in *. apply andb_true_iff in H as [Hr Hn].
  destruct (exec l p) as [p'|] eqn:E; cbn [default] in *; [|by apply IH].
  apply IH; [by eapply exec_keeps|by apply (exec_fresh l p p')|by apply (exec_owner l p p')|done].
Qed.

Lemma run_exact ls : forall p, inv p -> exact p -> none_gone p -> all_along calm ls p = true -> exact (run ls p) /\ none_gone (run ls p).
Proof.
  induction ls as [|l ls IH]; intros p I X N H; [done|]. cbn [run all_along] in *. apply andb_true_iff in H as [Hc Hn].
  destruct (exec l p) as [p'|] eqn:E; cbn [default] in *; [|by apply IH].
  apply IH; [by eapply exec_keeps|by apply (exec_exact l p p')|by apply (exec_none_gone l p p')|done].
Qed.

(** C15: the table and the events of the epoll and kqueue pollers, however the steps of
    accepting, adding, closing and handling a batch interleave.  Always: an entry
    of the table is a connection with that descriptor number, and an event is
    handled for such a connection.  If no descriptor is given out again while an
    event for it waits in the batch, an event handled for a connection whose
    descriptor is not closed yet is that connection's own.  If no connection is
    closed while it is being added, the table has exactly the connections that
    were entered and not closed, each under its descriptor, and no event reaches
    a connection whose descriptor is closed; so under both conditions every event
    reaches the connection the kernel raised it for.  Without them this fails:
    [close_in_onOpen_stays], [late_entry_takes_over], [stale_event_closes_new]. *)
Theorem events_to_owner (ls : list label) :
  let p := run ls new_poller in
  (forall fd id, connsUnix p !! fd = Some id -> exists k, p_socks p !! id = Some k /\ k_fd k = fd /\ entered k = true) /\
  (forall id e g, (id, e, g) ∈ p_log p -> exists k, p_socks p !! id = Some k /\ k_fd k = ev_fd e) /\
  (all_along no_reuse ls new_poller = true -> forall id e, (id, e, false) ∈ p_log p -> id = ev_owner e) /\
  (all_along calm ls new_poller = true ->
     (forall fd id, connsUnix p !! fd = Some id <-> exists k, p_socks p !! id = Some k /\ k_fd k = fd /\ tabled k = true) /\
     (forall id e g, (id, e, g) ∈ p_log p -> g = false) /\
     (all_along no_reuse ls new_poller = true -> forall id e g, (id, e, g) ∈ p_log p -> id = ev_owner e)).
Proof.
  intros p.
  assert (forall e : event, e ∉ p_batch new_poller) as Hb by (intros e; apply not_elem_of_nil).
  assert (forall x, x ∉ p_log new_poller) as Hl by (intros x; apply not_elem_of_nil).
  assert (inv new_poller) as I.
  { split; try done; [intros e H; by apply Hb in H|intros id e g H; by apply Hl in H]. }
  assert (all_along no_reuse ls new_poller = true -> to_owner p) as Ho.
  { apply run_owner; [done|intros e i k H; by apply Hb in H|intros id e H; by apply Hl in H]. }
  destruct (loop_run_inv ls new_poller I) as [I1 _ _ I4]. split; [done|]. split; [exact I4|]. split; [exact Ho|]. intros Hc.
  destruct (run_exact ls new_poller I) as [X N]; [split; [|done]|by intros ? ? ? H; apply Hl in H|done|].
  { intros fd id. cbn. rewrite lookup_empty. split; [done|]. by intros (k & H & _). }
  split; [apply X|]. split; [exact N|]. intros Hr id e g Hin. apply (Ho Hr). by rewrite (N id e g Hin) in Hin.
Qed.
End events.

(** Accepting and adding, and closing, with nothing in between. *)
Definition add (fd id : nat) : list label := [LAccept fd; LBegin id; LEnter id; LRegister true id].
Definition close (id : nat) : list label := [LClose id; LDelete id; LRelease id].

(** A descriptor used by two connections one after the other, with an event for
    each, and a third connection in between. *)
Definition orderly_run : list label :=
  (add 7 0 ++ add 5 1 ++ [LWait [(0, EPOLLIN); (1, EPOLLIN)]; LHandle; LHandle] ++ close 0 ++ add 7 2 ++ [LWait [(2, EPOLLHUP)]; LHandle])%nat.

Lemma events_to_owner_witness :
  let p := run 100 orderly_run new_poller in
  p_log p = [(0, MkEvent 0 7 EPOLLIN, false); (1, MkEvent 1 5 EPOLLIN, false); (2, MkEvent 2 7 EPOLLHUP, false)]%nat /\
  (forall fd id, connsUnix p !! fd = Some id <-> exists k, p_socks p !! id = Some k /\ k_fd k = fd /\ tabled k = true) /\
  (forall id e g, (id, e, g) ∈ p_log p -> id = ev_owner e).
Proof.
  split; [vm_compute; reflexivity|].
  destruct (events_to_owner 100 orderly_run) as (_ & _ & _ & H).
  destruct (H ltac:(vm_compute; reflexivity)) as (H1 & _ & H2).
  split; [exact H1|]. apply H2. vm_compute. reflexivity.
Defined.

(** ** What the conditions are for *)

(** Two connections; while the event of the first is handled, the second, whose
    hang-up waits in the same batch, is closed by another goroutine and its
    descriptor accepted again: the hang-up closes the new connection. *)
Definition stale_run : list label :=
  (add 5 0 ++ add 7 1 ++ [LWait [(0, EPOLLIN); (1, EPOLLHUP)]; LHandle] ++ close 1 ++ add 7 2 ++ [LHandle])%nat.

Lemma stale_event_closes_new :
  let p := run 100 stale_run new_poller in
  all_along 100 calm stale_run new_poller = true /\
  p_log p = [(0, MkEvent 0 5 EPOLLIN, false); (2, MkEvent 1 7 EPOLLHUP, false)]%nat /\
  p_socks p !! 2%nat = Some (MkSock 7 Added Flagged true).
Proof. vm_compute. split_and!; reflexivity. Qed.

(** [Close] in the handler of [OnOpen]: the connection is entered after its
    descriptor was closed; registering fails and clears the entry. *)
Lemma close_in_onOpen_stays :
  let p := run 100 ([LAccept 7; LBegin 0] ++ close 0 ++ [LEnter 0])%nat new_poller in
  connsUnix p !! 7%nat = Some 0%nat /\ p_socks p !! 0%nat = Some (MkSock 7 Entered Gone false) /\
  connsUnix (run 100 [LRegister true 0%nat] p) !! 7%nat = None.
Proof. vm_compute. split_and!; reflexivity. Qed.

(** The same, with the descriptor accepted again meanwhile: the closed connection
    is entered over the new one and registers its socket, so that what the new
    connection receives goes to the closed one, and the new connection's own
    registration fails. *)
Lemma late_entry_takes_over :
  let ls := ([LAccept 7; LBegin 0] ++ close 0 ++ [LAccept 7; LBegin 1; LEnter 1; LEnter 0; LRegister true 0; LWait [(1, EPOLLIN)]; LHandle])%nat in
  let p := run 100 ls new_poller in
  p_log p = [(0, MkEvent 1 7 EPOLLIN, true)]%nat /\ p_socks p !! 1%nat = Some (MkSock 7 Entered Open true) /\
  p_socks (run 100 [LRegister true 1%nat] p) !! 1%nat = Some (MkSock 7 Failed Flagged true).
Proof. vm_compute. split_and!; reflexivity. Qed.

(** ** Accepting *)

Definition stops_at (rounds : list (bool * bool * accepted)) : list (bool * accepted) :=
  (fix go rs := match rs with [] => [] | (stop, down, r) :: rs => if stop : bool then [] else (down, r) :: go rs end) rounds.

(** Every connection accepted before the stop is handed to the poller of its
    descriptor or closed, once and in order; every error that is not a timeout is
    reported. *)
Definition handed (a : accept_act) : list Z := match a with ActAddConn _ fd | ActCloseConn fd => [fd] | _ => [] end.
Definition reported (a : accept_act) : list Z := match a with ActOnAcceptError e => [e] | _ => [] end.

Lemma accept_all n h (rounds : list (bool * bool * accepted)) :
  let acts := acceptorLoop n h rounds in
  acts ≫= handed = stops_at rounds ≫= (fun r => match r.2 with AConn fd _ _ => [fd] | _ => [] end) /\
  (h = true -> acts ≫= reported = stops_at rounds ≫= (fun r => match r.2 with AError e => [e] | _ => [] end)) /\
  (forall p fd, ActAddConn p fd ∈ acts -> p = Z.rem fd n).
Proof.
  induction rounds as [|[[[] down] r] rounds (IH1 & IH2 & IH3)]; cbn [acceptorLoop stops_at] in *.
  - split; [done|]. split; [done|]. intros p fd H. by apply elem_of_nil in H.
  - split; [done|]. split; [done|]. intros p fd H. by apply elem_of_nil in H.
  - cbn zeta. rewrite !bind_app. cbn [mbind list_bind]. split; [|split].
    + f_equal; [|exact IH1]. destruct r as [fd [] add| |e]; cbn; try done. by destruct down, h.
    + intros Hh. f_equal; [|by apply IH2]. rewrite Hh. destruct r as [fd [] add| |e]; cbn; try done. by destruct down.
    + intros p fd [H|H]%elem_of_app; [|by apply IH3]. destruct r as [fd' [] add| |e]; cbn in H.
      * by apply list_elem_of_singleton in H as [= -> ->].
      * by apply list_elem_of_singleton in H.
      * by apply list_elem_of_singleton in H.
      * destruct down, h; cbn in H; repeat (apply elem_of_cons in H as [H|H]; [done|]); by apply elem_of_nil in H.
Qed.

(** An error of the listener that stays (descriptors used up) is logged with
    "exit..." and met again in the next round. *)
Lemma accept_error_spins :
  acceptorLoop 1 true [(false, false, AError 24); (false, false, AError 24)] =
  [ActLogExit 24; ActOnAcceptError 24; ActLogExit 24; ActOnAcceptError 24].
Proof. reflexivity. Qed.
