(* ===== verification/IoPool.v ===== *)
(** * One-shot reading with pooled buffers (src/conn_unix.go, AsyncRead;
    src/taskpool/iotaskpool.go)

    With EPOLLONESHOT an event disables the descriptor until it is registered
    again: the poller hands a reading task to the IO task pool and the task
    registers the descriptor when it is done.  The pool gives each task a buffer
    of a [sync.Pool], and takes it back as the task left it.  One stream
    connection, its tasks, the peer, a close, and the registrations the writing
    side makes, as interleaved steps. *)

From Stdlib Require Import ZArith Lia.
From Stdlib Require Import Strings.Byte Strings.String.
From stdpp Require Import base numbers list list_numbers.
From S2P Require Import Prelude.

Open Scope Z_scope.

(** A running task: before read [i] with a buffer of length [l]; about to call
    the data handler; behind the loop. *)
Inductive task_pc := TLoop (i l : Z) | THold (d : bytes) (i l : Z) | TReset (l : Z).
Definition held (t : task_pc) : bytes := match t with THold d _ _ => d | _ => [] end.
Definition buf_len (t : task_pc) : Z := match t with TLoop _ l | THold _ _ l | TReset l => l end.

(** [o_armed]: the descriptor is registered for its next event; [o_queued]: tasks
    handed to the pool and not started; [o_pool]: the lengths of the pooled
    buffers.  History: what arrived and what the data handler got. *)
Record ostate := MkO {
  o_kernel : bytes;
  o_armed : bool;
  o_queued : nat;
  o_tasks : list task_pc;
  o_closed : bool;
  o_pool : list Z;
  o_arrived : bytes;
  o_out : bytes
}.

(** [addConn] registers the descriptor. *)
Definition o_init : ostate := MkO [] true 0 [] false [] [] [].

Inductive label :=
| LArrive (d : bytes)
| LEvent
| LStart (pick : nat)
| LRead (t : nat) (n : Z)
| LData (t : nat)
| LAgain (t : nat)
| LIntr (t : nat)
| LFail (t : nat)
| LRounds (t : nat)
| LReset (t : nat)
| LClose
| LRearm.

Section oneshot.
Context (MaxReads bufSize : Z).

Definition set_tasks (ts : list task_pc) (s : ostate) : ostate :=
  MkO (o_kernel s) (o_armed s) (o_queued s) ts (o_closed s) (o_pool s) (o_arrived s) (o_out s).
Definition set_pool (p : list Z) (s : ostate) : ostate :=
  MkO (o_kernel s) (o_armed s) (o_queued s) (o_tasks s) (o_closed s) p (o_arrived s) (o_out s).
Definition set_armed (b : bool) (s : ostate) : ostate :=
  MkO (o_kernel s) b (o_queued s) (o_tasks s) (o_closed s) (o_pool s) (o_arrived s) (o_out s).
Definition set_oclosed (s : ostate) : ostate :=
  MkO (o_kernel s) (o_armed s) (o_queued s) (o_tasks s) true (o_pool s) (o_arrived s) (o_out s).

(** [IOTaskPool.Go] when its task runs: [pool.Get], which may also make a new
    buffer (an index outside of the pool). *)
Definition io_get (pick : nat) (s : ostate) : Z * ostate :=
  match o_pool s !! pick with
  | Some l => (l, set_pool (delete pick (o_pool s)) s)
  | None => (bufSize, s)
  end.

(** ... and [pool.Put] when the function is back. *)
Definition io_put (t : nat) (l : Z) (s : ostate) : ostate :=
  set_pool (l :: o_pool s) (set_tasks (delete t (o_tasks s)) s).

(** [ResetPollerEvent] *)
Definition ResetPollerEvent (s : ostate) : ostate := if o_closed s then s else set_armed true s.

Definition exec (x : label) (s : ostate) : option ostate :=
  match x with
  | LArrive d => Some (MkO (o_kernel s ++ d) (o_armed s) (o_queued s) (o_tasks s) (o_closed s) (o_pool s) (o_arrived s ++ d) (o_out s))
  | LEvent =>
      if o_armed s && negb (o_closed s)
      then Some (MkO (o_kernel s) false (S (o_queued s)) (o_tasks s) (o_closed s) (o_pool s) (o_arrived s) (o_out s))
      else None
  | LStart pick =>
      match o_queued s with
      | O => None
      | S n =>
          let '(l, s) := io_get pick s in
          Some (MkO (o_kernel s) (o_armed s) n (o_tasks s ++ [TLoop 0 l]) (o_closed s) (o_pool s) (o_arrived s) (o_out s))
      end
  | LRead t n =>
      match o_tasks s !! t with
      | Some (TLoop i l) =>
          if (i <? MaxReads) && negb (o_closed s) && (0 <? n) && (n <=? l) && (n <=? len (o_kernel s)) then
            Some (MkO (drop (Z.to_nat n) (o_kernel s)) (o_armed s) (o_queued s)
                    (<[t := THold (take (Z.to_nat n) (o_kernel s)) i n]> (o_tasks s)) (o_closed s) (o_pool s) (o_arrived s) (o_out s))
          else None
      | _ => None
      end
  | LData t =>
      match o_tasks s !! t with
      | Some (THold d i l) =>
          Some (MkO (o_kernel s) (o_armed s) (o_queued s)
                  (<[t := if len d <? l then TReset l else TLoop (i + 1) l]> (o_tasks s)) (o_closed s) (o_pool s) (o_arrived s) (o_out s ++ d))
      | _ => None
      end
  | LAgain t =>
      (** EAGAIN, or the end of the stream, which is no error *)
      match o_tasks s !! t with
      | Some (TLoop i l) => if bool_decide (o_kernel s = []) && (i <? MaxReads) && negb (o_closed s) then Some (set_tasks (<[t := TReset l]> (o_tasks s)) s) else None
      | _ => None
      end
  | LIntr t =>
      match o_tasks s !! t with
      | Some (TLoop i l) => if (i <? MaxReads) && negb (o_closed s) then Some (set_tasks (<[t := TLoop (i + 1) l]> (o_tasks s)) s) else None
      | _ => None
      end
  | LFail t =>
      (** another error, [net.ErrClosed] of a closed connection among them *)
      match o_tasks s !! t with
      | Some (TLoop i l) => if i <? MaxReads then Some (set_oclosed (io_put t l s)) else None
      | _ => None
      end
  | LRounds t =>
      match o_tasks s !! t with
      | Some (TLoop i l) => if i <? MaxReads then None else Some (set_tasks (<[t := TReset l]> (o_tasks s)) s)
      | _ => None
      end
  | LReset t =>
      match o_tasks s !! t with
      | Some (TReset l) => Some (io_put t l (ResetPollerEvent s))
      | _ => None
      end
  | LClose => Some (set_oclosed s)
  | LRearm =>
      (** [modWrite] after a short write, [resetRead] after a flush *)
      if o_closed s then None else Some (set_armed true s)
  end.

Fixpoint run (xs : list label) (s : ostate) : ostate :=
  match xs with
  | [] => s
  | x :: xs => run xs (default s (exec x s))
  end.

Definition is_rearm (x : label) : bool := match x with LRearm => true | _ => false end.

Definition busy (s : ostate) : nat := (o_queued s + length (o_tasks s))%nat.
Definition good_len (l : Z) : Prop := 0 < l <= bufSize.

Record inv (s : ostate) : Prop := {
  oi_one : (busy s + (if o_armed s then 1 else 0) <= 1)%nat;
  oi_data : o_out s ++ concat (map held (o_tasks s)) ++ o_kernel s = o_arrived s;
  oi_live : o_closed s = false -> o_armed s = true \/ (0 < busy s)%nat;
  oi_pool : Forall good_len (o_pool s);
  oi_bufs : Forall (fun t => good_len (buf_len t)) (o_tasks s)
}.

Context (Hbuf : 0 < bufSize).

Lemma single_task s t pc : inv s -> o_tasks s !! t = Some pc ->
  o_tasks s = [pc] /\ t = 0%nat /\ o_armed s = false /\ o_queued s = 0%nat /\ good_len (buf_len pc).
Proof.
  intros [I1 _ _ _ I5] H. unfold busy in I1. destruct (o_tasks s) as [|p [|q ts]] eqn:E; [done| |cbn in I1; lia].
  destruct t as [|t]; [|done]. injection H as ->. cbn in I1. apply Forall_cons in I5 as [? _].
  destruct (o_armed s); [lia|]. split_and!; try done. lia.
Qed.

Lemma exec_oneshot x s s' : inv s -> is_rearm x = false -> exec x s = Some s' -> inv s'.
Proof.
  intros I Hx E. destruct x as [d| |pick|t n|t|t|t|t|t|t| |]; cbn [exec] in E; try done.
  - injection E as <-. destruct I as [I1 I2 I3 I4 I5]. split; cbn; try done. by rewrite !app_assoc, <- (app_assoc (o_out s)), I2.
  - destruct (o_armed s) eqn:Ea; [|done]. destruct (o_closed s) eqn:Ec; [done|]. injection E as <-.
    destruct I as [I1 I2 I3 I4 I5]. split; unfold busy in *; cbn; try done; rewrite Ea in I1; [lia|intros _; right; lia].
  - destruct (o_queued s) as [|n] eqn:Eq; [done|]. destruct I as [I1 I2 I3 I4 I5]. unfold busy in I1, I3. rewrite Eq in I1, I3.
    assert (o_tasks s = [] /\ o_armed s = false) as [Et Ea] by (destruct (o_tasks s), (o_armed s); cbn in I1; split; lia || done).
    rewrite Et in *. unfold io_get in E. destruct (o_pool s !! pick) as [l|] eqn:El; injection E as <-; (split; unfold busy; cbn; rewrite ?Et, ?Ea; cbn; try done; [cbn in I1; lia|intros _; right; lia|..]).
    + by apply Forall_delete.
    + constructor; [|done]. by eapply (Forall_lookup_1 good_len).
    + constructor; [|done]. cbn. unfold good_len. lia.
  - destruct (o_tasks s !! t) as [[i l|d i l|l]|] eqn:Et; try done. destruct (single_task s t _ I Et) as (Hts & -> & Ha & Hq & Hg).
    destruct (_ && _) eqn:Eg; [|done]. injection E as <-. destruct I as [I1 I2 I3 I4 I5]. repeat (apply andb_true_iff in Eg as [Eg ?]).
    split; unfold busy in *; cbn; rewrite ?Hts, ?Ha, ?Hq in *; cbn in *; try done.
    + by rewrite app_nil_r, take_drop.
    + constructor; [|done]. cbn. unfold good_len in *. lia.
  - destruct (o_tasks s !! t) as [[i l|d i l|l]|] eqn:Et; try done. destruct (single_task s t _ I Et) as (Hts & -> & Ha & Hq & Hg).
    injection E as <-. destruct I as [I1 I2 I3 I4 I5]. split; unfold busy in *; cbn; rewrite ?Hts, ?Ha, ?Hq in *; cbn in *; try done.
    + rewrite app_nil_r in I2. rewrite <- I2, <- app_assoc. by case_match.
    + constructor; [|done]. by case_match.
  - destruct (o_tasks s !! t) as [[i l|d i l|l]|] eqn:Et; try done. destruct (single_task s t _ I Et) as (Hts & -> & Ha & Hq & Hg).
    destruct (_ && _); [|done]. injection E as <-. destruct I as [I1 I2 I3 I4 I5].
    split; unfold busy in *; cbn; rewrite ?Hts, ?Ha, ?Hq in *; cbn in *; try done. by constructor.
  - destruct (o_tasks s !! t) as [[i l|d i l|l]|] eqn:Et; try done. destruct (single_task s t _ I Et) as (Hts & -> & Ha & Hq & Hg).
    destruct (_ && _); [|done]. injection E as <-. destruct I as [I1 I2 I3 I4 I5].
    split; unfold busy in *; cbn; rewrite ?Hts, ?Ha, ?Hq in *; cbn in *; try done. by constructor.
  - destruct (o_tasks s !! t) as [[i l|d i l|l]|] eqn:Et; try done. destruct (single_task s t _ I Et) as (Hts & -> & Ha & Hq & Hg).
    destruct (_ <? _); [|done]. injection E as <-. destruct I as [I1 I2 I3 I4 I5].
    split; unfold busy in *; cbn; rewrite ?Hts, ?Ha, ?Hq in *; cbn in *; try done; try lia. by constructor.
  - destruct (o_tasks s !! t) as [[i l|d i l|l]|] eqn:Et; try done. destruct (single_task s t _ I Et) as (Hts & -> & Ha & Hq & Hg).
    destruct (_ <? _); [done|]. injection E as <-. destruct I as [I1 I2 I3 I4 I5].
    split; unfold busy in *; cbn; rewrite ?Hts, ?Ha, ?Hq in *; cbn in *; try done. by constructor.
  - destruct (o_tasks s !! t) as [[i l|d i l|l]|] eqn:Et; try done. destruct (single_task s t _ I Et) as (Hts & -> & Ha & Hq & Hg).
    injection E as <-. destruct I as [I1 I2 I3 I4 I5]. unfold ResetPollerEvent.
    destruct (o_closed s) eqn:Ec; split; unfold busy in *; cbn; rewrite ?Hts, ?Ha, ?Hq, ?Ec in *; cbn in *; try done; try lia; try (by constructor); by left.
  - injection E as <-. destruct I as [I1 I2 I3 I4 I5]. by split.
Qed.

Lemma run_oneshot xs : forall s, inv s -> forallb (fun x => negb (is_rearm x)) xs = true -> inv (run xs s).
Proof.
  induction xs as [|x xs IH]; intros s I H; [done|]. cbn [forallb run] in *. apply andb_true_iff in H as [Hx H].
  apply IH; [|done]. destruct (exec x s) as [s'|] eqn:E; [|done]. eapply exec_oneshot; [exact I| |exact E]. by apply negb_true_iff in Hx.
Qed.

(** C16: one-shot reading of a connection on which the writing side registers no
    event meanwhile: at most one task reads it at a time, the data handler gets
    what arrived, in order, up to what the task has in hand and what the kernel
    still has; an open connection always has an event coming or a task under way,
    so nothing stays unread; and no pooled buffer is ever empty. *)
Theorem oneshot_reads (xs : list label) :
  forallb (fun x => negb (is_rearm x)) xs = true ->
  let s := run xs o_init in
  (busy s <= 1)%nat /\ o_out s ++ concat (map held (o_tasks s)) ++ o_kernel s = o_arrived s /\
  (o_closed s = false -> o_armed s = true \/ (0 < busy s)%nat) /\ Forall good_len (o_pool s).
Proof.
  intros H s. destruct (run_oneshot xs o_init) as [I1 I2 I3 I4 I5]; [split; cbn; try done; try lia; by left|done|].
  unfold s. split; [destruct (o_armed _) in I1; lia|]. by split_and!.
Qed.
End oneshot.

(** ** Runs *)

Definition one_read : list label := [LArrive (str "hello"); LEvent; LStart 0; LRead 0 4; LArrive (str "!"); LData 0; LRead 0 2; LData 0; LAgain 0; LReset 0].

Lemma oneshot_reads_witness :
  o_out (run 3 4 one_read o_init) = str "hello!" /\ (busy (run 3 4 one_read o_init) <= 1)%nat.
Proof.
  split; [vm_compute; reflexivity|].
  exact (proj1 (oneshot_reads 3 4 eq_refl one_read eq_refl)).
Defined.

(** A registration by the writing side, while a task reads, lets the next event
    start a second task; the two deliver out of order. *)
Lemma oneshot_two_readers :
  let s := run 3 4 [LArrive (str "ab"); LEvent; LStart 0; LRead 0 1; LRearm; LEvent; LStart 0; LRead 1 1; LData 1; LData 0] o_init in
  o_arrived s = str "ab" /\ o_out s = str "ba".
Proof. vm_compute. done. Qed.

(** Buffers come back to the pool cut to their last read: after one read of one
    byte, the next task reads byte by byte and, with its rounds limited, leaves
    data behind for the next event. *)
Lemma pooled_buffer_shrinks :
  let s := run 3 4096 [LArrive (str "x"); LEvent; LStart 0; LRead 0 1; LData 0; LAgain 0; LReset 0] o_init in
  o_pool s = [1] /\
  run 3 4096 [LArrive (str "yz"); LEvent; LStart 0; LRead 0 2] s = run 3 4096 [LArrive (str "yz"); LEvent; LStart 0] s.
Proof. vm_compute. done. Qed.
