(* ===== verification/WsDial.v ===== *)
(** * Dialing a WebSocket (src/nbhttp/websocket/dialer.go)

    [DialContext]: the checks before anything is sent, the handler that takes the
    answer of the HTTP client and makes the connection a WebSocket, and the wait
    of the caller for the handler or for its context.  The HTTP client calls the
    handler once ([Client]); URLs, random keys and the addresses are those of the
    packages of Go and arguments here.  The request and the checks of the answer
    are in [Handshake]. *)

From Stdlib Require Import ZArith Lia.
From Stdlib Require Import Strings.Byte Strings.String.
From stdpp Require Import base numbers list list_numbers gmap.
From S2P Require Import Prelude GoLib Handshake.

Open Scope Z_scope.

(** ** Before the request *)

Inductive dial_err :=
| ErrNoOptions
| ErrKey
| ErrURL
| ErrMalformedURL
| ErrHandshake (e : hs_err)
| ErrInternal
| ErrHttp (e : Z)
| ErrClientTimeout.

(** What [url.Parse] says of the URL. *)
Record url := MkUrl { u_Scheme : bytes; u_Host : bytes; u_User : bool }.

(** [Options], or [Upgrader] when it is nil. *)
Definition choose_options {O : Type} (Options Upgrader : option O) : option O :=
  match Options with Some o => Some o | None => Upgrader end.

(** The checks, and the request with the scheme for the HTTP client. *)
Definition dial_prepare (opts : option dialer) (key : option bytes) (u : option url)
    (fields : list (bytes * list bytes)) : dial_err + (bytes * bytes * ws_request) :=
  match opts with
  | None => inl ErrNoOptions
  | Some d =>
      match key with
      | None => inl ErrKey
      | Some challengeKey =>
          match u with
          | None => inl ErrURL
          | Some u =>
              let scheme := if bool_decide (u_Scheme u = str "ws") then Some (str "http")
                            else if bool_decide (u_Scheme u = str "wss") then Some (str "https") else None in
              match scheme with
              | None => inl ErrMalformedURL
              | Some scheme =>
                  if u_User u then inl ErrMalformedURL
                  else
                    match dial_request d challengeKey (u_Host u) fields with
                    | inl e => inl (ErrHandshake e)
                    | inr r => inr (scheme, challengeKey, r)
                    end
              end
          end
      end
  end.

(** ** The handler *)

(** The connection of the answer: an [nbio.Conn]; an [nbhttp.Conn] over TLS over
    an [nbio.Conn] or over something else; an [nbhttp.Conn] over something else;
    another type. *)
Inductive conn_kind := KNbio | KTlsNbio | KTlsOther | KHttpOther | KOther.

(** What the HTTP client hands over: an error, or a connection (with its kind and
    whether its session is the parser) and the response. *)
Inductive answer :=
| AnsErr (e : Z)
| AnsResponse (k : conn_kind) (session_is_parser : bool) (StatusCode : Z) (h : Header).

(** The new connection: subprotocol and whether the peer compresses. *)
Definition ws_made := (bytes * bool)%type.

Definition underlying (k : conn_kind) : dial_err + unit :=
  match k with
  | KNbio | KTlsNbio => inr tt
  | KTlsOther => inl ErrInternal
  | KHttpOther | KOther => inl (ErrHandshake ErrBadHandshake)
  end.

Definition dial_handler (challengeKey : bytes) (a : answer) : dial_err + ws_made :=
  match a with
  | AnsErr e => inl (ErrHttp e)
  | AnsResponse k parser_ok status h =>
      match underlying k with
      | inl e => inl e
      | inr _ =>
          if parser_ok then
            match dial_check challengeKey status h with
            | inl e => inl (ErrHandshake e)
            | inr made => inr made
            end
          else inl ErrInternal
      end
  end.

(** ** The wait *)

(** The handler: not called; about to notify its result; done.  The caller:
    waiting in its select; about to close, with the error it got; back. *)
Inductive handler_pc := HNone | HNotify (e : option dial_err) | HDone.
Inductive caller_pc := CWait | CClose (e : dial_err) | CReturned (ws : option ws_made) (e : option dial_err).

(** [d_session]: parser and session were switched to the WebSocket connection;
    [d_closed]: the connection was closed by the dialer; [d_opens]: calls of the
    open handler; [d_calls]: calls of the asynchronous handler. *)
Record dial_state := MkDial {
  d_ctx : bool;
  d_errCh : option (option dial_err);
  d_handler : handler_pc;
  d_caller : caller_pc;
  d_ws : option ws_made;
  d_session : bool;
  d_closed : bool;
  d_opens : nat;
  d_calls : list (option ws_made * option dial_err)
}.

Definition dial_init (async : bool) : dial_state :=
  MkDial false None HNone (if async then CReturned None None else CWait) None false false 0 [].

Inductive label :=
| LAnswer (a : answer)
| LCtx
| LNotify (send : bool)
| LWait (take : bool)
| LCloseConn (a : answer).

Section dial.
Context (async : bool) (challengeKey : bytes) (hasOpenHandler : bool).

Definition set_handler pc s := MkDial (d_ctx s) (d_errCh s) pc (d_caller s) (d_ws s) (d_session s) (d_closed s) (d_opens s) (d_calls s).
Definition set_caller pc s := MkDial (d_ctx s) (d_errCh s) (d_handler s) pc (d_ws s) (d_session s) (d_closed s) (d_opens s) (d_calls s).
Definition set_dclosed s := MkDial (d_ctx s) (d_errCh s) (d_handler s) (d_caller s) (d_ws s) (d_session s) true (d_opens s) (d_calls s).

(** The handler up to [notifyResult]. *)
Definition on_answer (a : answer) (s : dial_state) : dial_state :=
  match dial_handler challengeKey a with
  | inl e => set_handler (HNotify (Some e)) s
  | inr made =>
      MkDial (d_ctx s) (d_errCh s) (HNotify None) (d_caller s) (Some made) true (d_closed s)
        (if hasOpenHandler then S (d_opens s) else d_opens s) (d_calls s)
  end.

(** [notifyResult]: the channel has room for one error; with the context done
    too, the select takes either branch. *)
Definition notify (send : bool) (e : option dial_err) (s : dial_state) : option dial_state :=
  if async then
    Some (MkDial (d_ctx s) (d_errCh s) HDone (d_caller s) (d_ws s) (d_session s) (d_closed s) (d_opens s) (d_calls s ++ [(d_ws s, e)]))
  else if send then
    match d_errCh s with
    | Some _ => None
    | None => Some (MkDial (d_ctx s) (Some e) HDone (d_caller s) (d_ws s) (d_session s) (d_closed s) (d_opens s) (d_calls s))
    end
  else if d_ctx s then Some (set_dclosed (set_handler HDone s)) else None.

(** The select of the caller, and what follows it. *)
Definition wait (take : bool) (s : dial_state) : option dial_state :=
  if take then
    match d_errCh s with
    | Some e =>
        let s := MkDial (d_ctx s) None (d_handler s) (d_caller s) (d_ws s) (d_session s) (d_closed s) (d_opens s) (d_calls s) in
        Some (set_caller (match e with Some e => CClose e | None => CReturned (d_ws s) None end) s)
    | None => None
    end
  else if d_ctx s then Some (set_caller (CClose ErrClientTimeout) s) else None.

(** [cliConn.CloseWithError]: it closes the connection and, when the handler was
    not called, calls it with the error. *)
Definition close_client (e : dial_err) (s : dial_state) : dial_state :=
  let s := match d_handler s with HNone => set_handler (HNotify (Some (ErrHttp 0))) s | _ => s end in
  set_caller (CReturned (d_ws s) (Some e)) (set_dclosed s).

Definition exec (l : label) (s : dial_state) : option dial_state :=
  match l with
  | LAnswer a => match d_handler s with HNone => Some (on_answer a s) | _ => None end
  | LCtx => Some (MkDial true (d_errCh s) (d_handler s) (d_caller s) (d_ws s) (d_session s) (d_closed s) (d_opens s) (d_calls s))
  | LNotify send => match d_handler s with HNotify e => notify send e s | _ => None end
  | LWait take => match d_caller s with CWait => wait take s | _ => None end
  | LCloseConn _ => match d_caller s with CClose e => Some (close_client e s) | _ => None end
  end.

Fixpoint run (ls : list label) (s : dial_state) : dial_state :=
  match ls with
  | [] => s
  | l :: ls => run ls (default s (exec l s))
  end.

(** ** What dialing gives *)

Definition made_by (ls : list label) (made : ws_made) : Prop :=
  exists a, LAnswer a ∈ ls /\ dial_handler challengeKey a = inr made.

Record inv (ls : list label) (s : dial_state) : Prop := {
  di_ws : forall made, d_ws s = Some made -> made_by ls made /\ d_session s = true /\ d_opens s = (if hasOpenHandler then 1 else 0)%nat;
  di_none : d_ws s = None -> d_session s = false /\ d_opens s = 0%nat;
  di_new : d_handler s = HNone -> d_ws s = None /\ d_errCh s = None;
  di_notify : forall e, d_handler s = HNotify e -> (e = None <-> is_Some (d_ws s)) /\ d_errCh s = None;
  di_ch : forall e, d_errCh s = Some e -> (e = None <-> is_Some (d_ws s)) /\ (d_caller s = CWait -> d_closed s = false);
  di_wait : async = false -> d_caller s = CWait -> d_closed s = true -> d_handler s = HDone;
  di_ret : async = false -> forall w, d_caller s = CReturned w None -> w = d_ws s /\ is_Some w /\ d_closed s = false /\ d_handler s = HDone;
  di_err : forall w e, d_caller s = CReturned w (Some e) -> d_closed s = true;
  di_calls : if async then length (d_calls s) = (match d_handler s with HDone => 1 | _ => 0 end)%nat /\ d_caller s = CReturned None None /\
               (forall w e, (w, e) ∈ d_calls s -> w = d_ws s /\ (e = None <-> is_Some w))
             else d_calls s = []
}.

Lemma made_more ls l made : made_by ls made -> made_by (ls ++ [l]) made.
Proof. intros (a & H & E). exists a. split; [apply elem_of_app; by left|done]. Qed.

Lemma inv_more ls l s : inv ls s -> inv (ls ++ [l]) s.
Proof. intros []. split; try done. intros made H. destruct (di_ws0 made H) as (H1 & ?). split; [by apply made_more|done]. Qed.

Lemma exec_inv_dial ls l s s' : inv ls s -> exec l s = Some s' -> inv (ls ++ [l]) s'.
Proof.
  intros I E. destruct l as [a| |send|take|a]; cbn [exec] in E.
  - destruct s as [ctx ch h cl w se cd op cs]. cbn in E. destruct h; try done. apply (inj Some) in E as <-.
    destruct I as [I1 I2 I3 I4 I5 I6 I7 I8 I9]; cbn in *.
    destruct (I3 eq_refl) as [-> ->]. destruct (I2 eq_refl) as [-> ->].
    unfold on_answer. destruct (dial_handler challengeKey a) as [e|made] eqn:Ed; split; cbn; try done.
    + intros e0 [= <-]. split; [split; [done|by intros [? ?]]|done].
    + intros Ha H1 H2. by specialize (I6 Ha H1 H2).
    + intros Ha w H. by destruct (I7 Ha w H) as (_ & _ & _ & ?).
    + intros m [= <-]. split; [exists a; split; [apply elem_of_app; right; constructor|done]|]. by destruct hasOpenHandler.
    + intros e0 [= <-]. split; [by split|done].
    + intros Ha H1 H2. by specialize (I6 Ha H1 H2).
    + intros Ha w H. by destruct (I7 Ha w H) as (_ & _ & _ & ?).
    + destruct async; [|done]. destruct I9 as (H1 & H2 & H3). destruct cs; [|done]. split_and!; try done. intros w e' H. by apply elem_of_nil in H.
  - injection E as <-. apply inv_more. by destruct I.
  - apply inv_more. destruct s as [ctx ch h cl w se cd op cs]. cbn in E. destruct h as [|e|]; try done.
    destruct I as [I1 I2 I3 I4 I5 I6 I7 I8 I9]; cbn in *. destruct (I4 e eq_refl) as [He ->]. unfold notify in E. destruct async eqn:Ea.
    + injection E as <-. destruct I9 as (H1 & H2 & H3). destruct cs; [|done]. split; cbn; rewrite ?Ea; try done.
      split; [done|]. split; [done|]. intros w' e' H. by apply list_elem_of_singleton in H as [= -> ->].
    + assert (forall w', cl <> CReturned w' None) as Hr by (intros w' ->; by destruct (I7 eq_refl w' eq_refl) as (_ & _ & _ & ?)).
      assert (cl = CWait -> cd = false) as Hd by (intros ->; destruct cd; [by specialize (I6 eq_refl eq_refl eq_refl)|done]).
      destruct send; cbn in E; [|destruct ctx; [|done]]; injection E as <-; split; cbn; rewrite ?Ea; try done.
      * intros e' [= <-]. by split.
      * intros _ w' H. by apply Hr in H.
      * intros _ w' H. by apply Hr in H.
  - apply inv_more. destruct s as [ctx ch h cl w se cd op cs]. cbn in E. destruct cl; try done.
    destruct I as [I1 I2 I3 I4 I5 I6 I7 I8 I9]; cbn in *. assert (async = false) as Ha by (destruct async; [by destruct I9 as (_ & H & _)|done]). rewrite Ha in *.
    unfold wait in E. destruct take; cbn in E.
    + destruct ch as [e|]; [|done]. injection E as <-. destruct (I5 e eq_refl) as [He Hcl]. specialize (Hcl eq_refl) as ->.
      assert (h = HDone) as -> by (destruct h as [|e'|]; [by destruct (I3 eq_refl)|by destruct (I4 e' eq_refl)|done]).
      destruct e as [e|]; split; cbn; rewrite ?Ha; try done. intros _ w' [= <-]. split; [done|]. split; [by apply He|done].
    + destruct ctx; [|done]. injection E as <-. split; cbn; rewrite ?Ha; try done. intros e H. by destruct (I5 e H).
  - apply inv_more. destruct s as [ctx ch h cl w se cd op cs]. cbn in E. destruct cl as [|e|]; try done. apply (inj Some) in E as <-.
    destruct I as [I1 I2 I3 I4 I5 I6 I7 I8 I9]; cbn in *.
    assert (async = false) as Ha by (destruct async; [by destruct I9 as (_ & H & _)|done]). rewrite Ha in *.
    unfold close_client. destruct h as [|e'|]; cbn; split; cbn; rewrite ?Ha; try done.
    + intros e' [= <-]. destruct (I3 eq_refl) as [-> ->]. split; [|done]. split; [done|]. by intros [? ?].
    + intros e' H. by destruct (I5 e' H).
    + intros e0 H. by destruct (I5 e0 H).
    + intros e0 H. by destruct (I5 e0 H).
Qed.

Lemma run_dial ls : forall pre s, inv pre s -> inv (pre ++ ls) (run ls s).
Proof.
  induction ls as [|l ls IH]; intros pre s I; cbn [run]; [by rewrite app_nil_r|].
  replace (pre ++ l :: ls) with ((pre ++ [l]) ++ ls) by (by rewrite <- app_assoc). apply IH.
  destruct (exec l s) as [s'|] eqn:E; cbn [default]; [by apply (exec_inv_dial pre l s)|by apply inv_more].
Qed.

(** What dialing gives, however the answer, the context and the caller
    interleave: a connection is returned, or handed to the asynchronous handler,
    without error exactly when an answer passed every check, its session is then
    the WebSocket connection, whose open handler was called once, and the dialer
    has not closed it; the caller that gets an error has closed the connection;
    the asynchronous handler is called at most once; and a called handler never
    blocks. *)
Lemma dial_result (ls : list label) :
  let s := run ls (dial_init async) in
  (forall w, async = false -> d_caller s = CReturned w None ->
     exists made, w = Some made /\ made_by ls made /\ d_session s = true /\ d_opens s = (if hasOpenHandler then 1 else 0)%nat /\ d_closed s = false) /\
  (forall w e, d_caller s = CReturned w (Some e) -> d_closed s = true) /\
  (async = true -> (length (d_calls s) <= 1)%nat /\ forall w e, (w, e) ∈ d_calls s -> (e = None <-> is_Some w)) /\
  (forall e, d_handler s = HNotify e -> is_Some (exec (LNotify true) s)).
Proof.
  intros s. assert (inv ls s) as I.
  { apply (run_dial ls [] (dial_init async)). split; cbn; destruct async; try done. split_and!; try done. intros w e H. by apply elem_of_nil in H. }
  destruct I as [I1 I2 I3 I4 I5 I6 I7 I8 I9]. split_and!.
  - clearbody s. intros w Ha Hc. destruct (I7 Ha w Hc) as (-> & [made Hw] & Hcl & _). exists made. destruct (I1 made Hw) as (? & ? & ?). done.
  - exact I8.
  - clearbody s. intros Ha. rewrite Ha in I9. destruct I9 as (H1 & _ & H3). split; [rewrite H1; case_match; lia|]. intros w e H. by destruct (H3 w e H).
  - intros e He. destruct (I4 e He) as [_ Hc]. clearbody s. cbn [exec]. rewrite He. unfold notify. destruct async; [by eexists|]. rewrite Hc. by eexists.
Qed.
End dial.

(** ** Runs *)

Definition good_headers : Header :=
  {[str "Upgrade" := [str "websocket"]; str "Connection" := [str "Upgrade"];
    str "Sec-Websocket-Accept" := [str "s3pPLMBiTxaQ9kYGzzhZRbK+xOo="]]}.
Definition sample_key : bytes := str "dGhlIHNhbXBsZSBub25jZQ==".

Lemma dial_run :
  d_caller (run false sample_key true [LAnswer (AnsResponse KNbio true 101 good_headers); LNotify true; LWait true] (dial_init false)) =
  CReturned (Some ([], false)) None.
Proof. vm_compute. reflexivity. Qed.

(** The context ends while the handler has done its work: the caller gets the
    connection and an error with it, although it is closed. *)
Lemma dial_timeout_with_conn :
  d_caller (run false sample_key false [LAnswer (AnsResponse KNbio true 101 good_headers); LCtx; LWait false; LCloseConn (AnsErr 0)] (dial_init false)) =
  CReturned (Some ([], false)) (Some ErrClientTimeout).
Proof. vm_compute. reflexivity. Qed.

(** With an asynchronous handler, a connection whose answer is refused stays
    open. *)
Lemma async_refused_stays_open :
  let s := run true sample_key false [LAnswer (AnsResponse KNbio true 403 good_headers); LNotify true] (dial_init true) in
  d_calls s = [(None, Some (ErrHandshake ErrBadHandshake))] /\ d_closed s = false /\ d_handler s = HDone.
Proof. vm_compute. done. Qed.
