(* ===== verification/HttpProxy.v ===== *)
(** * Dialing through an HTTP proxy (src/nbhttp/client.go, httpProxyDialer)

    [Dial] connects to the proxy, sends CONNECT and hands the connection on when
    the answer is 200.  The connection of the caller's dial function, the errors
    of writing and the bytes of the answer are arguments; of [http.ReadResponse]
    the status line is written out and the verdict on the rest of the head is an
    argument. *)

From Stdlib Require Import ZArith Lia.
From Stdlib Require Import Strings.Byte Strings.String.
From stdpp Require Import base numbers list list_numbers gmap.
From S2P Require Import Prelude GoLib GoCrypto Socks5 Handshake.

Open Scope Z_scope.

(** [strings.Cut(s, " ")] *)
Definition cut_space (s : bytes) : bytes * bytes * bool :=
  match index_byte x20 s with
  | Some i => (take i s, drop (S i) s, true)
  | None => (s, [], false)
  end.

Fixpoint trim_left_spaces (s : bytes) : bytes :=
  match s with x :: r => if x =b x20 then trim_left_spaces r else s | [] => [] end.

Definition is_digit (x : byte) : bool := (48 <=? b2z x) && (b2z x <=? 57).

(** [http.ParseHTTPVersion]: HTTP/d.d *)
Definition http_version_ok (p : bytes) : bool :=
  match p with
  | [h; t1; t2; q; sl; a; dot; b] =>
      bool_decide ([h; t1; t2; q; sl] = str "HTTP/") && is_digit a && (dot =b x2e) && is_digit b
  | _ => false
  end.

(** The status line: [Status], with the code in front, and [StatusCode]. *)
Definition status_line (line : bytes) : option (bytes * Z) :=
  let '(proto, status, ok) := cut_space line in
  if negb ok then None
  else
    let Status := trim_left_spaces status in
    let '(code, _, _) := cut_space Status in
    if (len code =? 3) && forallb is_digit code && http_version_ok proto
    then Some (Status, fold_left (fun n x => 10 * n + (b2z x - 48)) code 0)
    else None.

(** What the proxy answers: nothing, or a first line and whether the header
    behind it can be read. *)
Record reply := MkReply { rp_line : option bytes; rp_header_ok : bool }.

Definition read_response (r : reply) : option (bytes * Z) :=
  match rp_line r with
  | None => None
  | Some l => match status_line l with Some s => if rp_header_ok r then Some s else None | None => None end
  end.

(** The header of the request: credentials only with a password. *)
Definition connectHeader (u : purl) : Header :=
  match pu_User u with
  | Some (user, Some password) => {[str "Proxy-Authorization" := [str "Basic " ++ base64 (user ++ str ":" ++ password)]]}
  | _ => ∅
  end.

Record connect_req := MkConnectReq { cr_Host : bytes; cr_Header : Header }.

Inductive proxy_err := EForward (e : Z) | EWrite (e : Z) | EResponse | EStatus (text : bytes).

(** The outcome: the address dialled and, when that worked, the request sent, and
    then the connection, or an error and whether the connection was closed; or a
    panic. *)
Inductive dialed :=
| DOk (proxy : bytes) (req : connect_req)
| DErr (proxy : bytes) (req : option connect_req) (e : proxy_err) (closed : bool)
| DPanic.

(** [f[1]] of [strings.SplitN(Status, " ", 2)] *)
Definition status_text (Status : bytes) : option bytes :=
  let '(_, text, ok) := cut_space Status in if ok : bool then Some text else None.

Definition http_Dial (u : purl) (addr : bytes) (forward : option Z) (wr : option Z) (r : reply) : dialed :=
  let hostPort := (hostPortNoPort u).1 in
  match forward with
  | Some e => DErr hostPort None (EForward e) false
  | None =>
      let req := MkConnectReq addr (connectHeader u) in
      match wr with
      | Some e => DErr hostPort (Some req) (EWrite e) true
      | None =>
          match read_response r with
          | None => DErr hostPort (Some req) EResponse true
          | Some (Status, code) =>
              if code =? 200 then DOk hostPort req
              else
                match status_text Status with
                | Some t => DErr hostPort (Some req) (EStatus t) true
                | None => DPanic
                end
          end
      end
  end.

(** The connection is handed on exactly when the proxy answered 200, after a
    CONNECT for the target at the proxy's address; every other outcome closes a
    connection that was made, or panics: that happens exactly when the proxy
    refuses with a status line without text. *)
Lemma http_dial_outcome u addr forward wr r :
  match http_Dial u addr forward wr r with
  | DOk p req => p = (hostPortNoPort u).1 /\ cr_Host req = addr /\ cr_Header req = connectHeader u /\
      exists s, forward = None /\ wr = None /\ read_response r = Some (s, 200)
  | DErr p _ e closed => p = (hostPortNoPort u).1 /\ closed = bool_decide (forward = None) /\ ~ (exists s, forward = None /\ wr = None /\ read_response r = Some (s, 200))
  | DPanic => exists s code, read_response r = Some (s, code) /\ code <> 200 /\ status_text s = None
  end.
Proof.
  unfold http_Dial. destruct forward as [e|]; cbn; [split_and!; try done; by intros (s & ? & _)|].
  destruct wr as [e|]; [split_and!; try done; by intros (s & _ & ? & _)|].
  destruct (read_response r) as [[s code]|] eqn:E; [|split_and!; try done; by intros (s & _ & _ & ?)].
  destruct (Z.eqb_spec code 200) as [->|Hn]; [split_and!; try done; by exists s|].
  destruct (status_text s) eqn:Et; [|by exists s, code].
  split_and!; try done. intros (s' & _ & _ & [= _ ->]). done.
Qed.

(** ** Runs *)

Definition plain_proxy : purl := MkPurl (str "http") (str "proxy:3128") (Some (str "u", Some (str "pw"))).

Lemma http_dial_run :
  http_Dial plain_proxy (str "site:443") None None (MkReply (Some (str "HTTP/1.1 200 Connection established")) true) =
  DOk (str "proxy:3128") (MkConnectReq (str "site:443") {[str "Proxy-Authorization" := [str "Basic dTpwdw=="]]}).
Proof. vm_compute. reflexivity. Qed.

Lemma http_dial_refused :
  http_Dial plain_proxy (str "site:443") None None (MkReply (Some (str "HTTP/1.1 407 Proxy Authentication Required")) true) =
  DErr (str "proxy:3128") (Some (MkConnectReq (str "site:443") {[str "Proxy-Authorization" := [str "Basic dTpwdw=="]]}))
    (EStatus (str "Proxy Authentication Required")) true.
Proof. vm_compute. reflexivity. Qed.

(** A refusal without a reason phrase, which HTTP allows, panics. *)
Lemma bare_refusal_panics :
  http_Dial plain_proxy (str "site:443") None None (MkReply (Some (str "HTTP/1.1 403")) true) = DPanic.
Proof. vm_compute. reflexivity. Qed.
