(* ===== verification/SockConv.v ===== *)
(** * Sockets of the Unix build (src/net_unix.go, src/conn_unix.go)

    [dupStdConn], which turns a connection of package net into one of a poller by
    duplicating its descriptor, and the socket options, which are set on a
    descriptor.  The kernel is a table from descriptors to open files with the
    options of each file. *)

From Stdlib Require Import ZArith Lia.
From Stdlib Require Import Strings.Byte Strings.String.
From stdpp Require Import base numbers list list_numbers gmap.
From S2P Require Import Prelude.

Open Scope Z_scope.

(** ** The kernel *)

Inductive sockopt := TCP_NODELAY | SO_RCVBUF | SO_SNDBUF | SO_KEEPALIVE | TCP_KEEPINTVL | TCP_KEEPIDLE | SO_LINGER_ONOFF | SO_LINGER_SECS.
#[global] Instance sockopt_eq_dec : EqDecision sockopt.
Proof. solve_decision. Defined.
#[global] Instance sockopt_countable : Countable sockopt.
Proof.
  refine (inj_countable'
    (fun o => match o with TCP_NODELAY => 0 | SO_RCVBUF => 1 | SO_SNDBUF => 2 | SO_KEEPALIVE => 3 | TCP_KEEPINTVL => 4 | TCP_KEEPIDLE => 5
       | SO_LINGER_ONOFF => 6 | SO_LINGER_SECS => 7 end%nat)
    (fun n => match n with 0 => TCP_NODELAY | 1 => SO_RCVBUF | 2 => SO_SNDBUF | 3 => SO_KEEPALIVE | 4 => TCP_KEEPINTVL | 5 => TCP_KEEPIDLE
       | 6 => SO_LINGER_ONOFF | _ => SO_LINGER_SECS end%nat) _).
  by intros [].
Defined.

(** [k_fds]: descriptors; [k_opts]: the options of the open files. *)
Record kernel := MkKernel { k_fds : gmap nat nat; k_opts : gmap (nat * sockopt) Z }.

Definition close_fd (fd : nat) (k : kernel) : kernel := MkKernel (delete fd (k_fds k)) (k_opts k).

(** [dup]: an unused descriptor for the same file, or an error. *)
Definition dup (fd new : nat) (k : kernel) : option kernel :=
  match k_fds k !! fd, k_fds k !! new with
  | Some file, None => Some (MkKernel (<[new := file]> (k_fds k)) (k_opts k))
  | _, _ => None
  end.

(** [setsockopt]: [false] is EBADF. *)
Definition setsockopt (fd : nat) (o : sockopt) (v : Z) (k : kernel) : bool * kernel :=
  match k_fds k !! fd with
  | Some file => (true, MkKernel (k_fds k) (<[(file, o) := v]> (k_opts k)))
  | None => (false, k)
  end.

(** ** Converting a connection *)

(** Of package net; [NetOther] is another type, also one that embeds a
    [net.TCPConn].  [has_raw]: it has [SyscallConn]. *)
Inductive net_type := NetTCP | NetUnix | NetUDP | NetOther.
Record std_conn := MkStdConn { sc_fd : nat; sc_type : net_type; sc_raw : bool; sc_laddr : bytes; sc_raddr : option bytes }.

(** [ConnType]; 0 is none of the types. *)
Definition ConnTypeTCP : Z := 1.
Definition ConnTypeUDPServer : Z := 2.
Definition ConnTypeUDPClientFromRead : Z := 3.
Definition ConnTypeUDPClientFromDial : Z := 4.
Definition ConnTypeUnix : Z := 5.

Record nb_conn := MkNbConn { nb_fd : nat; nb_laddr : bytes; nb_raddr : option bytes; nb_typ : Z; nb_sessions : bool }.

Inductive dup_err := ErrRawUnsupported | ErrControl | ErrDup.

Definition conn_type (c : std_conn) : Z * bool :=
  match sc_type c with
  | NetTCP => (ConnTypeTCP, false)
  | NetUnix => (ConnTypeUnix, false)
  | NetUDP => match sc_raddr c with None => (ConnTypeUDPServer, true) | Some _ => (ConnTypeUDPClientFromDial, false) end
  | NetOther => (0, false)
  end.

(** [ctrl]: the error of [Control], which a closed connection reports; [new]: the
    descriptor the kernel picks. *)
Definition dupStdConn (ctrl : bool) (new : nat) (c : std_conn) (k : kernel) : (dup_err + nb_conn) * kernel :=
  if negb (sc_raw c) then (inl ErrRawUnsupported, k)
  else if ctrl then (inl ErrControl, k)
  else
    match dup (sc_fd c) new k with
    | None => (inl ErrDup, k)
    | Some k =>
        let k := close_fd (sc_fd c) k in
        let '(typ, sessions) := conn_type c in
        (inr (MkNbConn new (sc_laddr c) (sc_raddr c) typ sessions), k)
    end.

(** The end of [closeWithErrorWithoutLock]: which descriptor is closed. *)
Definition close_socket (c : nb_conn) (k : kernel) : kernel :=
  if (nb_typ c =? ConnTypeTCP) || (nb_typ c =? ConnTypeUnix) || (nb_typ c =? ConnTypeUDPServer) || (nb_typ c =? ConnTypeUDPClientFromDial)
  then close_fd (nb_fd c) k else k.

(** [init]: the limit of the process bounds the table of connections. *)
Definition init_MaxOpenFiles (MaxOpenFiles : Z) (rlimit : option Z) : Z :=
  match rlimit with
  | Some max => if (0 <? max) && (max <? MaxOpenFiles) then max else MaxOpenFiles
  | None => MaxOpenFiles
  end.

(** ** Options *)

Definition SetNoDelay (nodelay : bool) (c : nb_conn) (k : kernel) : bool * kernel :=
  if nodelay then setsockopt (nb_fd c) TCP_NODELAY 1 k else setsockopt (nb_fd c) TCP_NODELAY 0 k.
Definition SetReadBuffer (n : Z) (c : nb_conn) (k : kernel) : bool * kernel := setsockopt (nb_fd c) SO_RCVBUF n k.
Definition SetWriteBuffer (n : Z) (c : nb_conn) (k : kernel) : bool * kernel := setsockopt (nb_fd c) SO_SNDBUF n k.
Definition SetKeepAlive (keepalive : bool) (c : nb_conn) (k : kernel) : bool * kernel :=
  if keepalive then setsockopt (nb_fd c) SO_KEEPALIVE 1 k else setsockopt (nb_fd c) SO_KEEPALIVE 0 k.

(** [int(d.Seconds())] of the period plus all but a nanosecond of a second;
    exact below 2^23 seconds, where the float keeps the nanoseconds. *)
Definition keepalive_secs (d : Z) : Z := Z.quot (d + (10 ^ 9 - 1)) (10 ^ 9).

Definition SetKeepAlivePeriod (linux : bool) (d : Z) (c : nb_conn) (k : kernel) : option bool * kernel :=
  if linux then
    let '(ok, k) := setsockopt (nb_fd c) TCP_KEEPINTVL (keepalive_secs d) k in
    if ok then let '(ok, k) := setsockopt (nb_fd c) TCP_KEEPIDLE (keepalive_secs d) k in (Some ok, k) else (Some false, k)
  else (None, k).

Definition SetLinger (onoff linger : Z) (c : nb_conn) (k : kernel) : bool * kernel :=
  let '(ok, k) := setsockopt (nb_fd c) SO_LINGER_ONOFF onoff k in
  if ok then setsockopt (nb_fd c) SO_LINGER_SECS linger k else (ok, k).

(** [SyscallConn]: the raw connection knows [Control] only. *)
Definition raw_control (c : nb_conn) : nat := nb_fd c.

(** ** What a conversion keeps *)

(** How many descriptors an open file has. *)
Definition refs (file : nat) (k : kernel) : nat := size (filter (fun kv => kv.2 = file) (k_fds k)).

Lemma refs_insert fd file f k :
  k_fds k !! fd = None -> refs f (MkKernel (<[fd := file]> (k_fds k)) (k_opts k)) = (if decide (file = f) then S (refs f k) else refs f k).
Proof.
  intros H. unfold refs. cbn. destruct (decide (file = f)) as [->|Hn].
  - rewrite map_filter_insert_True by done. rewrite map_size_insert_None; [done|]. apply map_lookup_filter_None_2. by left.
  - rewrite map_filter_insert_False by done. f_equal. f_equal. by apply delete_id.
Qed.

Lemma refs_close fd file f k :
  k_fds k !! fd = Some file -> refs f k = (if decide (file = f) then S (refs f (close_fd fd k)) else refs f (close_fd fd k)).
Proof.
  intros H. rewrite <- (refs_insert fd file f (close_fd fd k)) by (cbn; by apply lookup_delete_eq). unfold refs. cbn. by rewrite insert_delete_id.
Qed.

(** A conversion moves the open file to the new descriptor: the old one is
    closed, the file, its options and the number of its descriptors are the same,
    and no other descriptor is touched; a conversion that fails changes nothing,
    so that the caller still has its connection. *)
Lemma dup_moves ctrl new c k :
  match dupStdConn ctrl new c k with
  | (inr n, k') => exists file, k_fds k !! sc_fd c = Some file /\ k_fds k' !! nb_fd n = Some file /\ k_fds k' !! sc_fd c = None /\
      k_opts k' = k_opts k /\ (forall f, refs f k' = refs f k) /\ nb_laddr n = sc_laddr c /\ nb_raddr n = sc_raddr c /\
      (forall fd, fd <> nb_fd n -> fd <> sc_fd c -> k_fds k' !! fd = k_fds k !! fd)
  | (inl _, k') => k' = k
  end.
Proof.
  unfold dupStdConn. destruct (sc_raw c); cbn; [|done]. destruct ctrl; [done|]. unfold dup.
  destruct (k_fds k !! sc_fd c) as [file|] eqn:Ef; [|done]. destruct (k_fds k !! new) eqn:En; [done|].
  destruct (conn_type c) as [typ se]. exists file. assert (new <> sc_fd c) as Hne by congruence. cbn.
  split_and!; try done.
  - rewrite lookup_delete_ne by done. by rewrite lookup_insert_eq.
  - apply lookup_delete_eq.
  - intros f. pose proof (refs_close (sc_fd c) file f (MkKernel (<[new := file]> (k_fds k)) (k_opts k))) as H1.
    specialize (H1 ltac:(cbn; by rewrite lookup_insert_ne)). rewrite (refs_insert new file f k En) in H1.
    destruct (decide (file = f)); [|done]. injection H1 as H1. by rewrite H1.
  - intros fd H1 H2. by rewrite lookup_delete_ne, lookup_insert_ne.
Qed.

(** The period is the number of whole seconds that covers it. *)
Lemma keepalive_rounds_up d : 0 <= d -> 10 ^ 9 * (keepalive_secs d - 1) < d <= 10 ^ 9 * keepalive_secs d.
Proof.
  intros H. unfold keepalive_secs. rewrite Z.quot_div_nonneg by lia.
  pose proof (Z.div_mod (d + (10 ^ 9 - 1)) (10 ^ 9) ltac:(lia)). pose proof (Z.mod_pos_bound (d + (10 ^ 9 - 1)) (10 ^ 9) ltac:(lia)). lia.
Qed.

(** ** Where the code falls short *)

Definition one_conn : std_conn := MkStdConn 3 NetOther true (str "l") (Some (str "r")).

(** A type of its own around a connection of package net is taken, but has no
    type afterwards: closing it closes nothing. *)
Lemma wrapped_conn_leaks :
  exists n k', dupStdConn false 4 one_conn (MkKernel {[3%nat := 7%nat]} ∅) = (inr n, k') /\ nb_typ n = 0 /\
    k_fds (close_socket n k') !! 4%nat = Some 7%nat.
Proof. eexists _, _. split; [vm_compute; reflexivity|]. vm_compute. done. Qed.

(** An option set on a closed connection reaches whoever has the descriptor now. *)
Lemma option_reaches_stranger :
  let c := MkNbConn 4 [] None ConnTypeTCP false in
  let k := close_socket c (MkKernel {[4%nat := 7%nat]} ∅) in
  let k := MkKernel (<[4%nat := 8%nat]> (k_fds k)) (k_opts k) in
  k_opts (SetLinger 1 0 c k).2 = {[(8%nat, SO_LINGER_ONOFF) := 1; (8%nat, SO_LINGER_SECS) := 0]}.
Proof. vm_compute. reflexivity. Qed.
