(* ===== verification/StdEngine.v ===== *)
(** * The engine of the portable build (src/engine_std.go, src/poller_std.go,
    src/sendfile_std.go, src/conn_std.go)

    [NewEngine], [Start], the loop of a listener, [stop] of a poller, dialing,
    [Sendfile] and the socket options of the Windows build, each as a function of
    what package net answers.  Connections are in [StdConn]; the loops of [Start]
    are those of [EngineStart], since the two builds share them. *)

From Stdlib Require Import ZArith Lia.
From Stdlib Require Import Strings.Byte Strings.String.
From stdpp Require Import base numbers list list_numbers gmap.
From S2P Require Import Prelude GoLib EngineConfig EngineStart EpollLoop.

Open Scope Z_scope.

(** ** Configuration *)

Section config.
Context {F : Type} (net_Listen net_ListenUDP DefaultMemPool : F) (NumCPU : Z).

(** [NewEngine]: one poller per processor, no default for the reads per event. *)
Definition std_NewEngine (conf : Nbio.Config F) : Nbio.Config F :=
  Nbio.MkConfig F
    (if bool_decide (Nbio.Name conf = []) then str "NB" else Nbio.Name conf)
    (Nbio.Network conf) (Nbio.Addrs conf)
    (or_default (Nbio.NPoller conf) NumCPU)
    (or_default (Nbio.ReadBufferSize conf) Nbio.DefaultReadBufferSize)
    (or_default (Nbio.MaxWriteBufferSize conf) Nbio.DefaultMaxWriteBufferSize)
    (Nbio.MaxConnReadTimesPerEventLoop conf)
    (Nbio.LockListener conf) (Nbio.LockPoller conf) (Nbio.EpollMod conf) (Nbio.EPOLLONESHOT conf) (Nbio.UDPReadTimeout conf)
    (Some (default net_Listen (Nbio.Listen conf))) (Some (default net_ListenUDP (Nbio.ListenUDP conf)))
    (Nbio.AsyncReadInPoller conf) (Nbio.IOExecute conf)
    (Some (default DefaultMemPool (Nbio.BodyAllocator conf))).
End config.

(** ** Starting *)

(** The networks of [Start]: Unix sockets are not among them. *)
Definition std_network (n : bytes) : net :=
  if bool_decide (n ∈ [str "tcp"; str "tcp4"; str "tcp6"]) then NetStream
  else if bool_decide (n ∈ [str "udp"; str "udp4"; str "udp6"]) then NetUDP
  else NetOther.

(** [Start]: a poller has nothing to create that could fail, and adding a socket
    does not fail; it is wrapped, not duplicated. *)
Definition std_Start (listen_ok udp_ok : nat -> bool) (network : bytes) (addrs NPoller : nat) : started * bool :=
  Start listen_ok udp_ok (fun _ => true) (fun i s => (EngineStart.add i s, true)) (std_network network) addrs NPoller.

(** ** A poller *)

(** [chStop] is closed by [stop]; closing it again panics. *)
Record std_poller := MkStdPoller { sp_listener : bool; sp_shutdown : bool; sp_closed_listener : bool; sp_chStop : bool }.

Definition std_newPoller (isListener : bool) : std_poller := MkStdPoller isListener false false false.

Definition std_stop (p : std_poller) : option std_poller :=
  if sp_chStop p then None
  else Some (MkStdPoller (sp_listener p) true (sp_listener p || sp_closed_listener p) true).

(** One round of the loop of [start]: [accept], or its error.  [AConn]'s answers
    are always positive here. *)
Definition std_round (npollers : Z) (hasOnAcceptError down : bool) (r : accepted) : list accept_act :=
  match r with
  | AConn hash _ _ => [ActAddConn (Z.rem hash npollers) hash]
  | ATimeout => [ActSleep]
  | AError e => (if down then [] else [ActLogExit e]) ++ (if hasOnAcceptError then [ActOnAcceptError e] else [])
  end.

(** [start]: the rounds of a listener until [shutdown]; then the wait for
    [chStop].  The second component: whether it has returned. *)
Fixpoint std_start (npollers : Z) (h : bool) (p : std_poller) (rounds : list (bool * bool * accepted)) : list accept_act * bool :=
  match rounds with
  | [] => ([], false)
  | (stop, down, r) :: rounds =>
      if negb (sp_listener p) || stop then ([], sp_chStop p)
      else
        let '(acts, done) := std_start npollers h p rounds in
        (std_round npollers h down r ++ acts, done)
  end.

(** ** Dialing *)

Inductive dial_step := DialOk | DialErr (e : Z).

(** [DialAsyncTimeout]: whether the handler gets a connection, its error, and what
    is counted in [wgConn]; [dial] is [net.DialTimeout], or [net.Dial] without a
    timeout. *)
Definition std_DialAsyncTimeout (dial : option Z -> dial_step) (nbconn : option Z) (timeout : Z) : bool * option Z * Z :=
  match dial (if 0 <? timeout then Some timeout else None) with
  | DialErr e => (false, Some e, 0)
  | DialOk =>
      match nbconn with
      | Some e => (false, Some e, 0)
      | None => (true, None, 1)
      end
  end.

(** [DialAsync] *)
Definition std_DialAsync (dial : option Z -> dial_step) (nbconn : option Z) := std_DialAsyncTimeout dial nbconn 0.

(** ** Sending a file *)

(** A read of the file, which gives at most what fits the buffer, and the write
    that follows it: bytes and error of each. *)
Inductive read_end := ReadMore | ReadEOF | ReadErr (e : Z).
Record file_step := MkFileStep { fs_read : Z; fs_end : read_end; fs_wrote : Z; fs_werr : option Z }.

Inductive send_err := SendStat (e : Z) | SendRead (e : Z) | SendWrite (e : Z) | ErrShortWrite.

(** What [Sendfile] does with buffers and reports: buffers allocated, freed, the
    sizes reported to [onWrittenSize]. *)
Record sent := MkSent { st_written : Z; st_mallocs : nat; st_frees : nat; st_reports : list Z }.

(** [Write] of the connection reports what it wrote. *)
Definition reported_size (handler : bool) (n : Z) : list Z := if handler && (0 <? n) then [n] else [].

Fixpoint sendfile_loop (handler : bool) (steps : list file_step) (remain : Z) (s : sent) : option (sent * option send_err) :=
  if remain <=? 0 then Some (s, None)
  else
    match steps with
    | [] => None
    | MkFileStep avail e nw we :: steps =>
        let bufLen := Z.min (1024 * 32) remain in
        let nr := Z.min avail bufLen in
        let s := MkSent (st_written s) (S (st_mallocs s)) (st_frees s) (st_reports s) in
        let after remain s :=
          match e with
          | ReadMore => sendfile_loop handler steps remain s
          | ReadEOF => Some (s, None)
          | ReadErr e => Some (s, Some (SendRead e))
          end in
        if 0 <? nr then
          let got := if nw <? 0 then 0 else nw in
          let s := MkSent (st_written s + got) (st_mallocs s) (S (st_frees s)) (st_reports s ++ reported_size handler nw) in
          match we with
          | Some e => Some (s, Some (SendWrite e))
          | None => if nr =? got then after (remain - got) s else Some (s, Some ErrShortWrite)
          end
        else after remain s
    end.

(** [Sendfile]; [size]: of the file, or the error of [Stat]. *)
Definition std_Sendfile (handler has_file : bool) (remain : Z) (size : Z + Z) (steps : list file_step) : option (sent * option send_err) :=
  let none := MkSent 0 0 0 [] in
  if negb has_file then Some (none, None)
  else
    match (if remain <=? 0 then size else inl remain) with
    | inr e => Some (none, Some (SendStat e))
    | inl remain =>
        match sendfile_loop handler steps remain none with
        | None => None
        | Some (s, e) => Some (MkSent (st_written s) (st_mallocs s) (st_frees s) (st_reports s ++ reported_size handler (st_written s)), e)
        end
    end.

(** ** Socket options *)

Inductive std_opt := OptNoDelay (b : bool) | OptReadBuffer (n : Z) | OptWriteBuffer (n : Z) | OptKeepAlive (b : bool) | OptKeepAlivePeriod (d : Z) | OptLinger (sec : Z).

(** The call of package net for an option of a TCP connection ([is_tcp]: the type
    of the connection and of what is below it). *)
Definition set_option (is_tcp : bool) (o : std_opt) : option std_opt := if is_tcp then Some o else None.
Definition std_SetNoDelay (is_tcp b : bool) := set_option is_tcp (OptNoDelay b).
Definition std_SetReadBuffer (is_tcp : bool) (n : Z) := set_option is_tcp (OptReadBuffer n).
Definition std_SetWriteBuffer (is_tcp : bool) (n : Z) := set_option is_tcp (OptWriteBuffer n).
Definition std_SetKeepAlive (is_tcp b : bool) := set_option is_tcp (OptKeepAlive b).
Definition std_SetKeepAlivePeriod (is_tcp : bool) (d : Z) := set_option is_tcp (OptKeepAlivePeriod d).
Definition std_SetLinger (is_tcp : bool) (onoff linger : Z) := set_option is_tcp (OptLinger linger).

(** What closing does with a linger setting: on Unix the pair given to the
    kernel, in package net the seconds alone (negative: the default). *)
Inductive on_close := Background | Discard | Wait (secs : Z).
Definition unix_linger (onoff linger : Z) : on_close := if onoff =? 0 then Background else if linger =? 0 then Discard else Wait linger.
Definition net_linger (sec : Z) : on_close := if sec <? 0 then Background else if sec =? 0 then Discard else Wait sec.

(** ** What the engine does *)

(** The settings the pollers rely on. *)
Lemma std_engine_configured {F} (l u m : F) (NumCPU : Z) (conf : Nbio.Config F) :
  1 <= NumCPU ->
  let c := std_NewEngine l u m NumCPU conf in
  Nbio.Name c <> [] /\ 1 <= Nbio.NPoller c /\ 1 <= Nbio.ReadBufferSize c /\ 0 <= Nbio.MaxWriteBufferSize c /\
  is_Some (Nbio.Listen c) /\ is_Some (Nbio.ListenUDP c) /\ is_Some (Nbio.BodyAllocator c).
Proof.
  intros H c. unfold c, std_NewEngine, or_default, Nbio.DefaultReadBufferSize, Nbio.DefaultMaxWriteBufferSize. cbn.
  split; [by case_bool_decide|].
  repeat match goal with |- context [?x <=? 0] => destruct (Z.leb_spec x 0) end; split_and!; try lia; by eexists.
Qed.

(** [Start] on this build: everything is made and started, or a listener or
    socket could not be opened and those opened before it are closed. *)
Lemma std_start_result listen_ok udp_ok network addrs NPoller :
  let '(s, ok) := std_Start listen_ok udp_ok network addrs NPoller in
  let nl := match std_network network with NetStream => addrs | _ => 0 end%nat in
  let nu := match std_network network with NetUDP => addrs | _ => 0 end%nat in
  (ok = true -> s_made s = listeners nl ++ udps nu ++ pollers NPoller /\ s_running s = pollers NPoller ++ listeners nl /\ s_stopped s = [] /\ s_added s = seq 0 nu) /\
  (ok = false -> s_running s = [] /\ s_stopped s = s_made s).
Proof.
  unfold std_Start. destruct (Start_outcome listen_ok udp_ok (fun _ => true) (fun i s => (EngineStart.add i s, true)) (std_network network) addrs NPoller)
    as [_|k Hk Hf|k Hk Hf|k Hk Hf]; try done. unfold add_udps.
  destruct (each_cases (fun _ => true) EngineStart.add (fun _ s => s) (fun i s => (EngineStart.add i s, true))
    (fun _ s => stop (udps (of_udps (std_network network) addrs)) (stop (pollers NPoller) (stop (listeners (of_listeners (std_network network) addrs)) s)))
    (of_udps (std_network network) addrs) (fun _ _ => eq_refl) 0%nat (ready (std_network network) addrs NPoller)) as [[-> _]|(k & _ & Hf & _)]; [|done].
  by rewrite add_fold.
Qed.

(** The loop of a listener hands every connection accepted before the stop to the
    poller of its hash and reports every error that is not a timeout; it returns
    only with [stop]. *)
Lemma std_start_hands n h p rounds :
  let '(acts, done) := std_start n h p rounds in
  (sp_listener p = true -> acts ≫= handed = stops_at rounds ≫= (fun r => match r.2 with AConn fd _ _ => [fd] | _ => [] end)) /\
  (sp_listener p = true -> h = true -> acts ≫= reported = stops_at rounds ≫= (fun r => match r.2 with AError e => [e] | _ => [] end)) /\
  (done = true -> sp_chStop p = true).
Proof.
  induction rounds as [|[[st down] r] rounds IH]; cbn [std_start stops_at]; [done|].
  destruct (sp_listener p) eqn:El; cbn [negb orb]; [|done]. destruct st; [done|].
  destruct (std_start n h p rounds) as [acts done]. destruct IH as (IH1 & IH2 & IH3). rewrite !bind_app. split_and!; [| |done].
  - intros H. cbn [mbind list_bind]. f_equal; [|by apply IH1]. destruct r; cbn; try done. by destruct down, h.
  - intros H Hh. cbn [mbind list_bind]. f_equal; [|by apply IH2]. rewrite Hh. destruct r; cbn; try done. by destruct down.
Qed.

(** [Stop] after a [Start] that failed stops the listeners again and panics. *)
Lemma stop_twice_panics_std b : (p ← std_stop (std_newPoller b); std_stop p) = None.
Proof. done. Qed.

(** A read of a file gives at least a byte, or an end. *)
Definition honest (s : file_step) : Prop := 0 <= fs_read s /\ (fs_end s = ReadMore -> 0 < fs_read s).
Definition balance (s : sent) : Z := Z.of_nat (st_mallocs s) - Z.of_nat (st_frees s).

(** Sending without an error, of a file that does not end early, sends all that
    was asked for and gives every buffer back. *)
Lemma sendfile_loop_done h steps : forall remain s s',
  Forall honest steps -> Forall (fun x => fs_end x <> ReadEOF) steps -> 0 <= remain ->
  sendfile_loop h steps remain s = Some (s', None) -> st_written s' = st_written s + remain /\ balance s' = balance s.
Proof.
  induction steps as [|[avail re nw we] steps IH]; intros remain s s' Hh He Hr; cbn [sendfile_loop].
  { destruct (Z.leb_spec remain 0) as [H|H]; [|done]. intros [= <-]. split; [lia|done]. }
  apply Forall_cons in Hh as [[Ha Hm] Hh]. apply Forall_cons in He as [Hn He]. cbn in Hm, Ha, Hn.
  destruct (Z.leb_spec remain 0) as [H|H]. { intros [= <-]. split; [lia|done]. }
  cbv zeta. set (nr := Z.min avail (Z.min (1024 * 32) remain)). destruct re as [| |e]; [|done|].
  - specialize (Hm eq_refl). destruct (Z.ltb_spec 0 nr) as [Hp|Hp]; [|unfold nr in Hp; lia].
    destruct we; [done|]. destruct (Z.eqb_spec nr (if nw <? 0 then 0 else nw)) as [Eg|]; [|done]. rewrite <- Eg.
    intros E. apply IH in E as [H1 H2]; [|done|done|unfold nr; lia]. cbn in H1, H2. unfold balance in *. cbn in *. split; lia.
  - destruct (0 <? nr); [|done]. destruct we; [done|]. by destruct (_ =? _).
Qed.

Lemma sendfile_all h remain size steps s :
  Forall honest steps -> Forall (fun x => fs_end x <> ReadEOF) steps -> 0 < remain ->
  std_Sendfile h true remain size steps = Some (s, None) -> st_written s = remain /\ st_mallocs s = st_frees s.
Proof.
  intros Hh He Hr. unfold std_Sendfile. cbn [negb]. rewrite (proj2 (Z.leb_gt remain 0)) by lia.
  destruct (sendfile_loop h steps remain _) as [[s1 e]|] eqn:E; [|done]. intros [= <- ->].
  apply sendfile_loop_done in E as [H1 H2]; [|done|done|lia]. unfold balance in H2. cbn in *. lia.
Qed.

(** ** Where the code falls short *)

(** The parts are reported by [Write] and the whole again at the end. *)
Lemma sendfile_reports_twice :
  std_Sendfile true true 5 (inl 5) [MkFileStep 5 ReadMore 5 None] = Some (MkSent 5 1 1 [5; 5], None).
Proof. reflexivity. Qed.

(** A file that ends before what was asked for: the buffer of the last read is
    not freed. *)
Lemma sendfile_leaks_buffer :
  exists s, std_Sendfile false true 8 (inl 8) [MkFileStep 5 ReadMore 5 None; MkFileStep 0 ReadEOF 0 None] = Some (s, None) /\
    st_mallocs s = 2%nat /\ st_frees s = 1%nat.
Proof. eexists. split; [reflexivity|done]. Qed.

(** Turning lingering off means the default on Unix, and here that what is unsent
    is thrown away. *)
Lemma linger_off_discards :
  unix_linger 0 0 = Background /\ std_SetLinger true 0 0 = Some (OptLinger 0) /\ net_linger 0 = Discard.
Proof. done. Qed.
