(* ===== verification/Shutdown.v ===== *)
(** * Shutting down (src/nbhttp/engine.go, src/engine.go)

    [Shutdown] of the HTTP engine: the listeners are stopped, then every
    connection is closed, again and again, until the tables are empty or the
    context ends; then the engine of the pollers is shut down, which runs its
    [Stop] in a goroutine and waits for it or for the context.  Close handlers,
    accepting goroutines that are late, the ticker and the context are steps of
    their own. *)

From Stdlib Require Import ZArith Lia.
From stdpp Require Import base numbers list gmap.
From S2P Require Import Prelude.

(** Before [closeAllConns]; in the select; in [Shutdown] of the pollers' engine;
    back, with the error of the context or without error. *)
Inductive shut_pc := PLoop | PSelect | PEngine | PReturned (ok : bool).

(** [h_conns], [h_dialers]: the tables; [h_closed]: connections [Close] was called
    on; [h_stop]: [Stop] has returned; [h_empty]: the tables were empty at the
    tick that ended the loop. *)
Record shut_state := MkShut {
  h_conns : gset nat;
  h_dialers : gset nat;
  h_closed : gset nat;
  h_ctx : bool;
  h_pc : shut_pc;
  h_started : bool;
  h_stop : bool;
  h_empty : bool
}.

Definition h_init (conns dialers : gset nat) : shut_state := MkShut conns dialers ∅ false PLoop false false false.

Inductive label :=
| LClosed (c : nat)
| LNew (dialer : bool) (c : nat)
| LCtx
| LCloseAll
| LTick
| LDone
| LStopped
| LEngine.

Definition set_pc (pc : shut_pc) (s : shut_state) : shut_state :=
  MkShut (h_conns s) (h_dialers s) (h_closed s) (h_ctx s) pc (h_started s) (h_stop s) (h_empty s).

(** [closeAllConns] *)
Definition closeAllConns (s : shut_state) : shut_state :=
  MkShut (h_conns s) (h_dialers s) (h_closed s ∪ h_conns s ∪ h_dialers s) (h_ctx s) (h_pc s) (h_started s) (h_stop s) (h_empty s).

(** [Shutdown] of the pollers' engine starts the goroutine of [Stop]. *)
Definition engine_shutdown (s : shut_state) : shut_state :=
  MkShut (h_conns s) (h_dialers s) (h_closed s) (h_ctx s) PEngine true (h_stop s) true.

Definition exec (l : label) (s : shut_state) : option shut_state :=
  match l with
  | LClosed c =>
      (** the close handler of a connection that was closed, by [Shutdown] or anybody *)
      Some (MkShut (h_conns s ∖ {[c]}) (h_dialers s ∖ {[c]}) (h_closed s) (h_ctx s) (h_pc s) (h_started s) (h_stop s) (h_empty s))
  | LNew d c =>
      Some (MkShut (if d then h_conns s else {[c]} ∪ h_conns s) (if d then {[c]} ∪ h_dialers s else h_dialers s)
              (h_closed s) (h_ctx s) (h_pc s) (h_started s) (h_stop s) (h_empty s))
  | LCtx => Some (MkShut (h_conns s) (h_dialers s) (h_closed s) true (h_pc s) (h_started s) (h_stop s) (h_empty s))
  | LCloseAll => match h_pc s with PLoop => Some (set_pc PSelect (closeAllConns s)) | _ => None end
  | LTick =>
      match h_pc s with
      | PSelect => Some (if bool_decide (size (h_conns s) + size (h_dialers s) = 0)%nat then engine_shutdown s else set_pc PLoop s)
      | _ => None
      end
  | LDone =>
      (** the context ends the loop; [closeAllConns] is deferred *)
      match h_pc s with PSelect => if h_ctx s then Some (set_pc (PReturned false) (closeAllConns s)) else None | _ => None end
  | LStopped =>
      if h_started s then Some (MkShut (h_conns s) (h_dialers s) (h_closed s) (h_ctx s) (h_pc s) (h_started s) true (h_empty s)) else None
  | LEngine =>
      match h_pc s with
      | PEngine =>
          if h_stop s then Some (set_pc (PReturned true) (closeAllConns s))
          else if h_ctx s then Some (set_pc (PReturned false) (closeAllConns s)) else None
      | _ => None
      end
  end.

Fixpoint run (ls : list label) (s : shut_state) : shut_state :=
  match ls with
  | [] => s
  | l :: ls => run ls (default s (exec l s))
  end.

(** Connections that came after the loop last closed all. *)
Fixpoint late (ls : list label) (s : shut_state) (acc : gset nat) : gset nat :=
  match ls with
  | [] => acc
  | l :: ls =>
      let acc := match l, exec l s with
                 | LNew _ c, _ => {[c]} ∪ acc
                 | (LCloseAll | LDone | LEngine), Some _ => ∅
                 | _, _ => acc
                 end in
      late ls (default s (exec l s)) acc
  end.

Record inv (s : shut_state) (acc : gset nat) : Prop := {
  hi_closed : h_pc s <> PLoop -> h_conns s ∪ h_dialers s ⊆ h_closed s ∪ acc;
  hi_engine : h_pc s = PEngine -> h_empty s = true;
  hi_ok : h_pc s = PReturned true -> h_stop s = true /\ h_empty s = true;
  hi_err : h_pc s = PReturned false -> h_ctx s = true
}.

Lemma exec_shut l s s' acc :
  inv s acc -> exec l s = Some s' ->
  inv s' (match l with LNew _ c => {[c]} ∪ acc | LCloseAll | LDone | LEngine => ∅ | _ => acc end).
Proof.
  intros [I1 I2 I3 I4] E. destruct l as [c|d c| | | | | |]; cbn [exec] in E.
  - injection E as <-. split; cbn; try done. intros H. specialize (I1 H). set_solver.
  - injection E as <-. split; cbn; try done. intros H. specialize (I1 H). destruct d; set_solver.
  - injection E as <-. split; cbn; try done.
  - destruct (h_pc s) eqn:Ep; try done. injection E as <-. split; cbn; try done. intros _. clear. set_solver.
  - destruct (h_pc s) eqn:Ep; try done. injection E as <-. specialize (I1 ltac:(done)).
    case_bool_decide; by split.
  - destruct (h_pc s) eqn:Ep; try done. destruct (h_ctx s) eqn:Ec; [|done]. injection E as <-. split; cbn; try done. intros _. clear. set_solver.
  - destruct (h_started s); [|done]. injection E as <-. split; cbn; try done. intros H. by destruct (I3 H).
  - destruct (h_pc s) eqn:Ep; try done. destruct (h_stop s) eqn:Es.
    + injection E as <-. split; cbn; try done; [intros _; clear; set_solver|]. intros _. by rewrite (I2 eq_refl).
    + destruct (h_ctx s) eqn:Ec; [|done]. injection E as <-. split; cbn; try done. intros _. clear. set_solver.
Qed.

Lemma run_shut ls : forall s acc, inv s acc -> inv (run ls s) (late ls s acc).
Proof.
  induction ls as [|l ls IH]; intros s acc I; [done|]. cbn [run late]. destruct (exec l s) as [s'|] eqn:E; cbn [default].
  - pose proof (exec_shut l s s' acc I E) as I'. destruct l; rewrite ?E; exact (IH _ _ I').
  - destruct l; rewrite ?E; try (by apply IH).
Qed.

(** [Shutdown] returns without error only when the tables were empty and [Stop]
    of the engine has returned; with an error only when the context is done; and
    whenever it has returned, every connection in the tables has been closed,
    except those that were added after its last look. *)
Lemma shutdown_result (conns dialers : gset nat) (ls : list label) :
  let s := run ls (h_init conns dialers) in
  (h_pc s = PReturned true -> h_stop s = true /\ h_empty s = true) /\
  (h_pc s = PReturned false -> h_ctx s = true) /\
  (forall ok, h_pc s = PReturned ok -> h_conns s ∪ h_dialers s ⊆ h_closed s ∪ late ls (h_init conns dialers) ∅).
Proof.
  intros s. destruct (run_shut ls (h_init conns dialers) ∅) as [I1 _ I3 I4]; [by split|].
  split_and!; try done. intros ok H. apply I1. unfold s in H. by rewrite H.
Qed.

(** When all close handlers have run before a tick and nobody comes, that tick
    ends the loop. *)
Lemma shutdown_ends s : h_pc s = PSelect -> h_conns s = ∅ -> h_dialers s = ∅ ->
  exists s', exec LTick s = Some s' /\ h_pc s' = PEngine /\ h_started s' = true.
Proof. intros Hp Hc Hd. cbn [exec]. rewrite Hp, Hc, Hd. eexists. split; [reflexivity|]. rewrite size_empty. by case_bool_decide. Qed.

Lemma shutdown_run :
  h_pc (run [LCloseAll; LTick; LClosed 1; LCloseAll; LClosed 2; LTick; LStopped; LEngine] (h_init {[1%nat]} {[2%nat]})) = PReturned true.
Proof. vm_compute. reflexivity. Qed.
