(* ===== verification/TlsExt.v ===== *)
(** * TLS for the engine's handlers (src/extension/tls/tls.go)

    [WrapOpen], [WrapClose] and [WrapData] put a TLS connection, kept as the
    session of an engine connection, between the engine and the user's handlers.
    The TLS library is a parameter: what it has decrypted is a queue of plaintext,
    which [Append] may extend and [Read] takes from. *)

From Stdlib Require Import ZArith Lia.
From Stdlib Require Import Strings.Byte Strings.String.
From stdpp Require Import base numbers list list_numbers.
From S2P Require Import Prelude.

Open Scope Z_scope.

(** The library: a new connection, [Append] of received bytes, [Read] into a
    buffer of a given size, and, for its contract, the plaintext it holds and the
    error that follows it, if the stream is over or broken. *)
Class TlsLib (T : Type) := {
  NewConn : bool -> T;
  Append : bytes -> T -> T;
  Read : Z -> T -> bytes * option Z * T;
  plain : T -> bytes;
  broken : T -> option Z
}.

(** [Read] gives the front of the plaintext, something when there is some, and
    reports the error only with or behind the last of it. *)
Class TlsLaws (T : Type) `{!TlsLib T} := {
  read_front : forall n t, 0 < n -> let '(b, err, t') := Read n t in
    plain t = b ++ plain t' /\ len b <= n /\ broken t' = broken t /\
    (b = [] -> plain t = [] /\ err = broken t) /\
    (forall e, err = Some e -> plain t' = [] /\ broken t = Some e)
}.

(** A session: none, a TLS connection, or something else. *)
Inductive session (T : Type) := NoSession | TlsSession (t : T) | OtherSession.
Arguments NoSession {T}. Arguments TlsSession {T}. Arguments OtherSession {T}.

Section wrap.
Context {T : Type} `{!TlsLib T}.

(** [WrapOpen]: the session afterwards and what the user's handler gets; [None]
    is the panic of the type assertion. *)
Definition WrapOpen (isClient : bool) (s : session T) : option (session T * option T) :=
  match s with
  | OtherSession => None
  | TlsSession t => Some (s, Some t)
  | NoSession => if isClient then Some (s, None) else Some (TlsSession (NewConn false), Some (NewConn false))
  end.

(** [WrapClose]: whether the handler is called, and with which connection. *)
Definition WrapClose (has_handler : bool) (s : session T) : option T :=
  if has_handler then match s with TlsSession t => Some t | _ => None end else None.

(** The loop of [WrapData]: the plaintext handed on, the connection, whether it
    was closed; [None] when the fuel ran out. *)
Fixpoint data_loop (fuel : nat) (bufLen : Z) (has_handler : bool) (t : T) : option (list bytes * T * bool) :=
  match fuel with
  | O => None
  | S fuel =>
      let '(b, err, t) := Read bufLen t in
      let out := if has_handler && (0 <? len b) then [b] else [] in
      match err with
      | Some _ => Some (out, t, true)
      | None =>
          if len b =? 0 then Some (out, t, false)
          else
            match data_loop fuel bufLen has_handler t with
            | Some (out', t, closed) => Some (out ++ out', t, closed)
            | None => None
            end
      end
  end.

(** [WrapData]; [bufLen]: of the buffer, 2048 without a function of the user. *)
Definition WrapData (fuel : nat) (bufLen : Z) (has_handler : bool) (s : session T) (data : bytes)
    : option (list bytes * session T * bool) :=
  match s with
  | TlsSession t =>
      match data_loop fuel bufLen has_handler (Append data t) with
      | Some (out, t, closed) => Some (out, TlsSession t, closed)
      | None => None
      end
  | _ => Some ([], s, false)
  end.

Context `{!TlsLaws T}.

Lemma data_loop_all fuel : forall bufLen t, 0 < bufLen -> (length (plain t) < fuel)%nat ->
  exists out t', data_loop fuel bufLen true t = Some (out, t', bool_decide (is_Some (broken t))) /\
    concat out = plain t /\ plain t' = [] /\ broken t' = broken t /\ Forall (fun b => 0 < len b <= bufLen) out.
Proof.
  induction fuel as [|fuel IH]; intros bufLen t Hn Hf; [lia|]. cbn [data_loop].
  pose proof (read_front bufLen t Hn) as Hr. destruct (Read bufLen t) as [[b err] t1]. destruct Hr as (H1 & H2 & H3 & H4 & H5).
  cbn [andb]. destruct err as [e|].
  - destruct (H5 e eq_refl) as [H6 H7]. rewrite H6, app_nil_r in H1. rewrite H7, bool_decide_eq_true_2 by done.
    destruct b as [|x b]; cbn.
    + eexists [], t1. rewrite H1, H3, H7. done.
    + eexists [x :: b], t1. rewrite H1, H3, H7. cbn. rewrite app_nil_r. split_and!; try done. constructor; [|done]. split; [apply len_pos|]; done.
  - destruct b as [|x b]; cbn [len].
    + destruct (H4 eq_refl) as [H6 H7]. change (len []) with 0. cbn. rewrite H6 in H1 |- *. cbn in H1.
      rewrite <- H7, bool_decide_eq_false_2 by (by intros [? ?]). eexists [], t1. rewrite H3, <- H7. done.
    + assert (0 < len (x :: b)) as Hp by (by apply len_pos). rewrite (proj2 (Z.ltb_lt _ _) Hp), (proj2 (Z.eqb_neq _ _)) by lia.
      destruct (IH bufLen t1 Hn) as (out & t' & -> & E1 & E2 & E3 & E4).
      { apply (f_equal length) in H1. rewrite length_app in H1. cbn in H1. lia. }
      exists ((x :: b) :: out), t'. rewrite H3 in E3 |- *. cbn. split; [done|]. rewrite E1, H1. split_and!; try done. by constructor.
Qed.

(** Received bytes: everything the library could decrypt reaches the handler, in
    order and in pieces that fit the buffer, also when the stream ends with it,
    and the connection is closed exactly when the library reports an end or an
    error. *)
Lemma tls_delivers bufLen t data : 0 < bufLen ->
  exists fuel out t', WrapData fuel bufLen true (TlsSession t) data = Some (out, TlsSession t', bool_decide (is_Some (broken (Append data t)))) /\
    concat out = plain (Append data t) /\ plain t' = [] /\ Forall (fun b => 0 < len b <= bufLen) out.
Proof.
  intros Hn. exists (S (length (plain (Append data t)))). cbn [WrapData].
  destruct (data_loop_all (S (length (plain (Append data t)))) bufLen (Append data t) Hn) as (out & t' & E & H1 & H2 & _ & H4); [lia|].
  rewrite E. eauto 10.
Qed.

(** The session a server connection is opened with is the one data and close
    handlers find. *)
Lemma open_then_close s t : WrapOpen false NoSession = Some (s, Some t) -> WrapClose true s = Some t.
Proof. by intros [= <- <-]. Qed.
End wrap.

(** ** A library without encryption *)

Record null_tls := MkNull { nt_in : bytes; nt_err : option Z }.

#[global] Instance null_lib : TlsLib null_tls := {|
  NewConn _ := MkNull [] None;
  Append b t := MkNull (nt_in t ++ b) (nt_err t);
  Read n t :=
    let rest := drop (Z.to_nat n) (nt_in t) in
    (take (Z.to_nat n) (nt_in t), if bool_decide (rest = []) then nt_err t else None, MkNull rest (nt_err t));
  plain := nt_in;
  broken := nt_err
|}.

#[global] Instance null_laws : TlsLaws null_tls.
Proof.
  split. intros n [b e] Hn. cbn. split; [by rewrite take_drop|]. split; [rewrite len_take; lia|]. split; [done|]. split.
  - intros H. assert (b = []) as ->.
    { destruct b as [|x b]; [done|]. destruct (Z.to_nat n) eqn:En; [lia|done]. }
    split; [done|]. rewrite drop_nil. by rewrite bool_decide_eq_true_2.
  - intros e'. case_bool_decide; [|done]. intros ->. done.
Qed.

Lemma tls_delivers_run :
  WrapData 9 3 true (TlsSession (MkNull [] (Some 7))) (str "hello") =
  Some ([str "hel"; str "lo"], TlsSession (MkNull [] (Some 7)), true).
Proof. vm_compute. reflexivity. Qed.
