(* ===== verification/WsOptions.v ===== *)
(** * Options, pools and sessions of WebSocket connections
    (src/nbhttp/websocket/upgrader.go, compression.go, conn.go)

    What [NewUpgrader] and its setters store and [newConn] takes over; the pools
    of inflating readers and deflating writers; the value [SetSession] stores and
    those that wait for it. *)

From Stdlib Require Import ZArith Lia.
From Stdlib Require Import Strings.Byte Strings.String.
From stdpp Require Import base numbers list list_numbers.
From S2P Require Import Prelude EngineConfig.

Open Scope Z_scope.

(** ** Options *)

Definition minCompressionLevel : Z := -2.
Definition maxCompressionLevel : Z := 9.
Definition defaultCompressionLevel : Z := 1.
Definition flateReaderTail : bytes := [x00; x00; xff; xff; x01; x00; x00; xff; xff].
Definition flateWriterPools_len : Z := maxCompressionLevel - minCompressionLevel + 1.

Definition isValidCompressionLevel (level : Z) : bool := (minCompressionLevel <=? level) && (level <=? maxCompressionLevel).

Definition DefaultBlockingReadBufferSize : Z := 1024 * 4.
Definition DefaultBlockingModAsyncWrite : bool := true.
Definition DefaultBlockingModHandleRead : bool := true.
Definition DefaultBlockingModTransferConnToPoller : bool := false.
Definition DefaultBlockingModSendQueueInitSize : Z := 4.
Definition DefaultBlockingModSendQueueMaxSize : Z := 0.
Definition DefaultMessageLengthLimit : Z := 1024 * 1024 * 4.
Definition DefaultBlockingModAsyncCloseDelay : Z := 10 ^ 9 / 10.

(** The fields [NewUpgrader] and the setters touch; handlers by whether they are
    the user's. *)
Record options := MkOptions {
  KeepaliveTime : Z;
  MessageLengthLimit : Z;
  BlockingModAsyncCloseDelay : Z;
  enableCompression : bool;
  compressionLevel : Z;
  BlockingModReadBufferSize : Z;
  BlockingModAsyncWrite : bool;
  BlockingModHandleRead : bool;
  BlockingModTrasferConnToPoller : bool;
  BlockingModSendQueueInitSize : Z;
  BlockingModSendQueueMaxSize : Z;
  o_message : bool;
  o_dataFrame : bool
}.

Definition NewUpgrader : options :=
  MkOptions Http.DefaultKeepaliveTime DefaultMessageLengthLimit DefaultBlockingModAsyncCloseDelay false defaultCompressionLevel
    DefaultBlockingReadBufferSize DefaultBlockingModAsyncWrite DefaultBlockingModHandleRead DefaultBlockingModTransferConnToPoller
    DefaultBlockingModSendQueueInitSize DefaultBlockingModSendQueueMaxSize false false.

Definition NewOptions : options := NewUpgrader.

Inductive setter :=
| SetEnableCompression (b : bool)
| SetLevel (level : Z)
| SetOnMessage
| SetOnDataFrame.

Definition with_level (l : Z) (o : options) : options :=
  MkOptions (KeepaliveTime o) (MessageLengthLimit o) (BlockingModAsyncCloseDelay o) (enableCompression o) l (BlockingModReadBufferSize o)
    (BlockingModAsyncWrite o) (BlockingModHandleRead o) (BlockingModTrasferConnToPoller o) (BlockingModSendQueueInitSize o)
    (BlockingModSendQueueMaxSize o) (o_message o) (o_dataFrame o).

(** [EnableCompression] *)
Definition EnableCompression (b : bool) (o : options) : options :=
  MkOptions (KeepaliveTime o) (MessageLengthLimit o) (BlockingModAsyncCloseDelay o) b (compressionLevel o) (BlockingModReadBufferSize o)
    (BlockingModAsyncWrite o) (BlockingModHandleRead o) (BlockingModTrasferConnToPoller o) (BlockingModSendQueueInitSize o)
    (BlockingModSendQueueMaxSize o) (o_message o) (o_dataFrame o).

(** [SetCompressionLevel]; [false] is its error. *)
Definition SetCompressionLevel (level : Z) (o : options) : bool * options :=
  if negb (isValidCompressionLevel level) then (false, o) else (true, with_level level o).

(** [OnMessage] and [OnDataFrame] install a function, whatever they are given. *)
Definition OnMessage (o : options) : options :=
  MkOptions (KeepaliveTime o) (MessageLengthLimit o) (BlockingModAsyncCloseDelay o) (enableCompression o) (compressionLevel o)
    (BlockingModReadBufferSize o) (BlockingModAsyncWrite o) (BlockingModHandleRead o) (BlockingModTrasferConnToPoller o)
    (BlockingModSendQueueInitSize o) (BlockingModSendQueueMaxSize o) true (o_dataFrame o).
Definition OnDataFrame (o : options) : options :=
  MkOptions (KeepaliveTime o) (MessageLengthLimit o) (BlockingModAsyncCloseDelay o) (enableCompression o) (compressionLevel o)
    (BlockingModReadBufferSize o) (BlockingModAsyncWrite o) (BlockingModHandleRead o) (BlockingModTrasferConnToPoller o)
    (BlockingModSendQueueInitSize o) (BlockingModSendQueueMaxSize o) (o_message o) true.

Definition set (s : setter) (o : options) : options :=
  match s with
  | SetEnableCompression b => EnableCompression b o
  | SetLevel l => (SetCompressionLevel l o).2
  | SetOnMessage => OnMessage o
  | SetOnDataFrame => OnDataFrame o
  end.

(** The index [compressWriter] takes into [flateWriterPools]; [None] is its panic. *)
Definition compressWriter_pool (level : Z) : option Z :=
  let i := level - minCompressionLevel in
  if (0 <=? i) && (i <? flateWriterPools_len) then Some i else None.

(** However an upgrader is configured, writing a compressed message finds its
    pool, and different levels have different pools. *)
Lemma level_has_pool (ss : list setter) :
  let o := foldl (fun o s => set s o) NewUpgrader ss in
  exists i, compressWriter_pool (compressionLevel o) = Some i /\ compressionLevel o = i + minCompressionLevel.
Proof.
  assert (isValidCompressionLevel (compressionLevel (foldl (fun o s => set s o) NewUpgrader ss)) = true) as H.
  { assert (forall o, isValidCompressionLevel (compressionLevel o) = true ->
      isValidCompressionLevel (compressionLevel (foldl (fun o s => set s o) o ss)) = true) as Hf; [|by apply Hf].
    induction ss as [|s ss IH]; intros o Ho; [done|]. apply IH. destruct s as [b|l| |]; cbn; try done.
    unfold SetCompressionLevel. destruct (isValidCompressionLevel l) eqn:El; done. }
  cbn zeta. set (l := compressionLevel _) in *. unfold isValidCompressionLevel, compressWriter_pool, flateWriterPools_len, minCompressionLevel, maxCompressionLevel in *.
  apply andb_true_iff in H as [H1 H2]. apply Z.leb_le in H1, H2. exists (l - -2).
  rewrite (proj2 (Z.leb_le 0 _)) by lia. rewrite (proj2 (Z.ltb_lt _ _)) by lia. split; [done|lia].
Qed.

(** ** The pool of inflating readers *)

(** [r_pool]: readers in the pool; [r_wraps]: the reader of each wrapper handed
    out, nil once it was closed. *)
Record readers := MkReaders { r_pool : list nat; r_wraps : list (option nat); r_next : nat }.
Definition no_readers : readers := MkReaders [] [] 0.

(** [decompressReader]: a pooled reader ([pick]), or a new one. *)
Definition decompressReader (pick : nat) (s : readers) : readers :=
  match r_pool s !! pick with
  | Some r => MkReaders (delete pick (r_pool s)) (r_wraps s ++ [Some r]) (r_next s)
  | None => MkReaders (r_pool s) (r_wraps s ++ [Some (r_next s)]) (S (r_next s))
  end.

(** [Close] of a wrapper; [false] is [io.ErrClosedPipe]. *)
Definition fr_Close (w : nat) (s : readers) : bool * readers :=
  match r_wraps s !! w with
  | Some (Some r) => (true, MkReaders (r :: r_pool s) (<[w := None]> (r_wraps s)) (r_next s))
  | _ => (false, s)
  end.

(** [Read] of a wrapper; [eof]: what the reader below returns.  The result: the
    reader the bytes come from, if there is one. *)
Definition fr_Read (eof : bool) (w : nat) (s : readers) : option nat * readers :=
  match r_wraps s !! w with
  | Some (Some r) => (Some r, if eof then (fr_Close w s).2 else s)
  | _ => (None, s)
  end.

Inductive reader_op := OOpen (pick : nat) | ORead (eof : bool) (w : nat) | OClose (w : nat).
Definition reader_step (o : reader_op) (s : readers) : readers :=
  match o with
  | OOpen pick => decompressReader pick s
  | ORead eof w => (fr_Read eof w s).2
  | OClose w => (fr_Close w s).2
  end.

Definition in_use (s : readers) : list nat := omap id (r_wraps s).

Record readers_ok (s : readers) : Prop := {
  ro_nodup : NoDup (r_pool s ++ in_use s);
  ro_new : forall r, r ∈ r_pool s ++ in_use s -> (r < r_next s)%nat
}.

Lemma omap_close w r (l : list (option nat)) : l !! w = Some (Some r) -> omap id l ≡ₚ r :: omap id (<[w := None]> l).
Proof.
  revert w. induction l as [|x l IH]; intros [|w] H; cbn in *; [done|done| |].
  - by injection H as ->.
  - destruct x as [y|]; cbn; rewrite (IH w H); [apply perm_swap|done].
Qed.

Lemma fr_close_ok w s : readers_ok s -> readers_ok (fr_Close w s).2.
Proof.
  intros [I1 I2]. unfold fr_Close. destruct (r_wraps s !! w) as [[r|]|] eqn:E; try done. cbn.
  assert ((r :: r_pool s) ++ omap id (<[w := None]> (r_wraps s)) ≡ₚ r_pool s ++ in_use s) as Hp.
  { unfold in_use. rewrite (omap_close w r (r_wraps s) E). cbn. by rewrite Permutation_middle. }
  split; unfold in_use; cbn [r_pool r_wraps r_next]; [by rewrite Hp|]. intros x Hx. apply I2. by rewrite <- Hp.
Qed.

Lemma reader_step_ok o s : readers_ok s -> readers_ok (reader_step o s).
Proof.
  intros I. destruct o as [pick|eof w|w]; cbn [reader_step].
  - destruct I as [I1 I2]. unfold decompressReader. destruct (r_pool s !! pick) as [r|] eqn:E; cbn.
    + assert (delete pick (r_pool s) ++ omap id (r_wraps s ++ [Some r]) ≡ₚ r_pool s ++ in_use s) as Hp.
      { rewrite omap_app. cbn. rewrite (delete_Permutation (r_pool s) pick r E) at 2. unfold in_use. solve_Permutation. }
      split; unfold in_use; cbn [r_pool r_wraps r_next]; [by rewrite Hp|]. intros x Hx. apply I2. by rewrite <- Hp.
    + assert (r_pool s ++ omap id (r_wraps s ++ [Some (r_next s)]) ≡ₚ r_next s :: r_pool s ++ in_use s) as Hp.
      { rewrite omap_app. cbn. unfold in_use. solve_Permutation. }
      split; unfold in_use; cbn [r_pool r_wraps r_next].
      * rewrite Hp. constructor; [|done]. intros Hx%I2. lia.
      * intros x Hx. rewrite Hp in Hx. apply elem_of_cons in Hx as [->|Hx]; [lia|]. apply I2 in Hx. lia.
  - unfold fr_Read. destruct (r_wraps s !! w) as [[r|]|] eqn:E; try done. destruct eof; [by apply fr_close_ok|done].
  - by apply fr_close_ok.
Qed.

(** Whatever is opened, read and closed, twice too: no reader is in the pool
    twice, in the pool while in use, or used by two messages. *)
Lemma readers_exclusive (os : list reader_op) : NoDup (r_pool (foldl (fun s o => reader_step o s) no_readers os) ++ in_use (foldl (fun s o => reader_step o s) no_readers os)).
Proof.
  assert (forall s, readers_ok s -> readers_ok (foldl (fun s o => reader_step o s) s os)) as H.
  { induction os as [|o os IH]; intros s Hs; [done|]. apply IH. by apply reader_step_ok. }
  destruct (H no_readers) as [H1 _]; [|done]. split; cbn; [constructor|]. intros r Hr. by apply elem_of_nil in Hr.
Qed.

(** ** Sessions *)

Section sessions.
Context {V : Type}.

(** The channel of [chSessionInited]: none (not made, or set to nil) or open; a
    caller of [SessionWithLock] waits on the channel it read. *)
Record session := MkSess { se_value : option V; se_ch : bool; se_waiting : list nat; se_released : bool; se_results : list (nat * option V) }.

Inductive session_op := SSet (v : V) | SClean | SAsk (id : nat) | SWake (id : nat).

(** [SetSession] *)
Definition SetSession (v : V) (s : session) : session := MkSess (Some v) false (se_waiting s) (se_ch s || se_released s) (se_results s).

(** [CloseAndClean], as far as the channel is concerned. *)
Definition clean_session (s : session) : session := MkSess (se_value s) false (se_waiting s) (se_ch s || se_released s) (se_results s).

(** [Session] and [SessionWithLock]: return at once without a channel, else wait. *)
Definition Session (id : nat) (s : session) : session :=
  if se_ch s then MkSess (se_value s) true (id :: se_waiting s) (se_released s) (se_results s)
  else MkSess (se_value s) false (se_waiting s) (se_released s) (se_results s ++ [(id, se_value s)]).

(** The receive from the closed channel. *)
Definition wake (id : nat) (s : session) : session :=
  if bool_decide (id ∈ se_waiting s) && se_released s
  then MkSess (se_value s) (se_ch s) (filter (fun x => x <> id) (se_waiting s)) true (se_results s ++ [(id, se_value s)])
  else s.

Definition session_step (o : session_op) (s : session) : session :=
  match o with SSet v => SetSession v s | SClean => clean_session s | SAsk id => Session id s | SWake id => wake id s end.

(** A connection whose reader was started before the handshake handler is done. *)
Definition started_session : session := MkSess None true [] false [].

Definition sess_ok (s : session) : Prop :=
  se_ch s = negb (se_released s) /\ (se_released s = false -> se_value s = None /\ se_results s = []).

Lemma session_ok_step o s : sess_ok s -> sess_ok (session_step o s).
Proof.
  intros [H1 H2]. destruct o as [v| |id|id]; cbn [session_step].
  - unfold SetSession, sess_ok. cbn. rewrite H1. by destruct (se_released s).
  - unfold clean_session, sess_ok. cbn. rewrite H1. by destruct (se_released s).
  - unfold Session. destruct (se_ch s) eqn:E; unfold sess_ok; cbn; [by split|]. split; [done|]. intros Hr. by rewrite Hr in H1.
  - unfold wake. destruct (_ && _) eqn:E; [|done]. apply andb_true_iff in E as [_ E]. unfold sess_ok. cbn. rewrite H1, E. done.
Qed.

(** Nobody gets an answer before the session was set or the connection cleaned
    up, and from then on everybody does: [wake] lets each of those that wait go. *)
Lemma session_waits (os : list session_op) :
  let s := foldl (fun s o => session_step o s) started_session os in
  (se_results s <> [] -> se_released s = true) /\
  (se_released s = true -> forall id, id ∈ se_waiting s -> (id, se_value s) ∈ se_results (wake id s) /\ id ∉ se_waiting (wake id s)).
Proof.
  assert (forall s, sess_ok s -> sess_ok (foldl (fun s o => session_step o s) s os)) as H.
  { induction os as [|o os IH]; intros s Hs; [done|]. apply IH. by apply session_ok_step. }
  intros s. destruct (H started_session) as [H1 H2]; [by split|]. fold s in H1, H2. split.
  - intros Hr. destruct (se_released s) eqn:E; [done|]. by destruct (H2 eq_refl).
  - intros Hr id Hid. unfold wake. rewrite bool_decide_eq_true_2, Hr by done. cbn. split; [apply elem_of_app; right; constructor|].
    intros Hf. apply list_elem_of_filter in Hf. tauto.
Qed.
End sessions.
