(* ===== verification/PollerStop.v ===== *)
(** * The descriptors of a poller and its end (src/poller_epoll.go, poller_kqueue.go)

    [newPoller] against any answers of the system, and how [stop] ends the loop
    of a poller: [stop] sets a flag and wakes the loop through a descriptor, the
    loop leaves and closes the descriptors of the poller, and meanwhile other
    goroutines open and close descriptors, whose numbers are used again. *)

From Stdlib Require Import ZArith Lia.
From stdpp Require Import base numbers list gmap.
From S2P Require Import Prelude.

Open Scope nat_scope.

Inductive flavour := Epoll | Kqueue.

(** What a descriptor refers to: the epoll or kqueue instance of the poller, its
    eventfd, or something else, which may be a kqueue of somebody else. *)
Inductive object := OPoll | OEvent | OStranger (kqueue : bool) (id : nat).
#[global] Instance object_eq_dec : EqDecision object.
Proof. solve_decision. Defined.

Abbreviation fdtab := (gmap nat object).

(** ** Creating a poller *)

(** [create] and [event] are the descriptors the system gives, if it does;
    [ctl_ok]: the registration of the wake-up succeeds.  Result: [epfd] and
    [evtfd]. *)
Definition epoll_newPoller (create event : option nat) (ctl_ok : bool) (t : fdtab) : option (nat * nat) * fdtab :=
  match create with
  | None => (None, t)
  | Some fd =>
      let t := <[fd := OPoll]> t in
      match event with
      | None => (None, delete fd t)
      | Some r0 =>
          let t := <[r0 := OEvent]> t in
          if ctl_ok then (Some (fd, r0), t) else (None, delete r0 (delete fd t))
      end
  end.

(** With kqueue the wake-up is a user event with the identifier 0, which is also
    the value of [evtfd], which is never set. *)
Definition kqueue_newPoller (create : option nat) (ctl_ok : bool) (t : fdtab) : option (nat * nat) * fdtab :=
  match create with
  | None => (None, t)
  | Some fd =>
      let t := <[fd := OPoll]> t in
      if ctl_ok then (Some (fd, 0), t) else (None, delete fd t)
  end.

(** ** The end *)

(** The loop: at its test; in the wait; at the two deferred [Close]s; over. *)
Inductive loop_pc := AtTest | InWait | Closing1 | Closing2 | Ended.
Inductive stop_pc := NotStopped | Flagged | StopDone.

(** [wake]: the eventfd is readable, or the user event pending; [stray]: whom the
    eight bytes, or the trigger, of [stop] reached by mistake. *)
Record state := MkState {
  fds : fdtab;
  shutdown : bool;
  wake : bool;
  loop : loop_pc;
  stopper : stop_pc;
  stray : list nat
}.

Definition with_loop (l : loop_pc) (s : state) : state := MkState (fds s) (shutdown s) (wake s) l (stopper s) (stray s).
Definition with_fds (t : fdtab) (s : state) : state := MkState t (shutdown s) (wake s) (loop s) (stopper s) (stray s).
Definition with_wake (b : bool) (s : state) : state := MkState (fds s) (shutdown s) b (loop s) (stopper s) (stray s).

(** Steps: one of the loop, where the wait returns events of connections and the
    wake-up or not; the wait fails; the two halves of [stop]; another goroutine
    opens or closes a descriptor. *)
Inductive label :=
| LLoop (others woken : bool)
| LWaitError
| LFlag
| LSignal
| LOpen (fd : nat) (kqueue : bool) (id : nat)
| LCloseOther (fd : nat).

Section poller.
Context (fl : flavour) (pollfd evtfd : nat).

(** The write to the eventfd, or the trigger of the kqueue, which a descriptor
    that is not a kqueue refuses. *)
Definition signal (s : state) : state :=
  match fl with
  | Epoll =>
      match fds s !! evtfd with
      | Some OEvent => with_wake true s
      | Some (OStranger _ id) => MkState (fds s) (shutdown s) (wake s) (loop s) (stopper s) (stray s ++ [id])
      | _ => s
      end
  | Kqueue =>
      match fds s !! pollfd with
      | Some OPoll => with_wake true s
      | Some (OStranger true id) => MkState (fds s) (shutdown s) (wake s) (loop s) (stopper s) (stray s ++ [id])
      | _ => s
      end
  end.

(** [readWriteLoop] and the deferred function of [start].  The eventfd is never
    read and stays readable; the user event is cleared when it is returned. *)
Definition loop_step (others woken : bool) (s : state) : option state :=
  match loop s with
  | AtTest => Some (with_loop (if shutdown s then Closing1 else InWait) s)
  | InWait =>
      if (others || woken) && implb woken (wake s) then
        Some (with_loop AtTest (match fl with Epoll => s | Kqueue => with_wake (wake s && negb woken) s end))
      else None
  | Closing1 => Some (with_loop (match fl with Epoll => Closing2 | Kqueue => Ended end) (with_fds (delete pollfd (fds s)) s))
  | Closing2 => Some (with_loop Ended (with_fds (delete evtfd (fds s)) s))
  | Ended => None
  end.

Definition exec (l : label) (s : state) : option state :=
  match l with
  | LLoop others woken => loop_step others woken s
  | LWaitError => match loop s with InWait => Some (with_loop Closing1 s) | _ => None end
  | LFlag =>
      match stopper s with
      | NotStopped => Some (MkState (fds s) true (wake s) (loop s) Flagged (stray s))
      | _ => None
      end
  | LSignal =>
      match stopper s with
      | Flagged => let s := signal s in Some (MkState (fds s) (shutdown s) (wake s) (loop s) StopDone (stray s))
      | _ => None
      end
  | LOpen fd kq id => match fds s !! fd with None => Some (with_fds (<[fd := OStranger kq id]> (fds s)) s) | _ => None end
  | LCloseOther fd => match fds s !! fd with Some (OStranger _ _) => Some (with_fds (delete fd (fds s)) s) | _ => None end
  end.

(** A step that cannot be taken is skipped. *)
Fixpoint run (ls : list label) (s : state) : state :=
  match ls with
  | [] => s
  | l :: ls => run ls (default s (exec l s))
  end.

(** ** What the poller owns *)

Definition own (o : object) : bool := match o with OStranger _ _ => false | _ => true end.

(** The descriptors of the poller that are still to be closed. *)
Definition owned (l : loop_pc) : list (nat * object) :=
  match l, fl with
  | Ended, _ => []
  | Closing2, _ => [(evtfd, OEvent)]
  | _, Epoll => [(pollfd, OPoll); (evtfd, OEvent)]
  | _, Kqueue => [(pollfd, OPoll)]
  end.

Record inv (s : state) : Prop := {
  is_fds : forall n o, own o = true -> fds s !! n = Some o <-> (n, o) ∈ owned (loop s);
  is_flag : shutdown s = true <-> stopper s <> NotStopped;
  is_wake : stopper s = StopDone -> loop s = InWait -> wake s = true;
  is_second : loop s = Closing2 -> fl = Epoll
}.

End poller.

Lemma own_change (t : fdtab) n n' o o' : own o = true -> own o' = false -> t !! n' = None \/ (exists o'', t !! n' = Some o'' /\ own o'' = false) ->
  (<[n' := o']> t !! n = Some o <-> t !! n = Some o) /\ (delete n' t !! n = Some o <-> t !! n = Some o).
Proof.
  intros Ho Ho' Hn. assert (t !! n' <> Some o) as Hne by (intros E; rewrite E in Hn; destruct Hn as [|(? & [= <-] & ?)]; congruence).
  split.
  - rewrite lookup_insert_Some. split; [|intros H; right; split; [congruence|done]]. intros [[-> ->]|[]]; congruence.
  - rewrite lookup_delete_Some. split; [by intros []|]. intros H. split; [congruence|done].
Qed.

(** One of two different descriptors is closed. *)
Lemma own_closed (t : fdtab) n m o m' (l : list (nat * object)) :
  (forall n o, own o = true -> t !! n = Some o <-> (n, o) ∈ (m, m') :: l) -> (forall o, (m, o) ∉ l) ->
  own o = true -> delete m t !! n = Some o <-> (n, o) ∈ l.
Proof.
  intros H Hm Ho. rewrite lookup_delete_Some, (H n o Ho), elem_of_cons. split; [|intros Hl; split; [|by right]].
  - intros [Hne [[= -> _]|Hl]]; done.
  - intros ->. by apply (Hm o).
Qed.

Lemma exec_stop fl pollfd evtfd l s s' : (fl = Epoll -> pollfd <> evtfd) ->
  inv fl pollfd evtfd s -> exec fl pollfd evtfd l s = Some s' -> inv fl pollfd evtfd s'.
Proof.
  intros Hne [I1 I2 I3 I4] E. destruct l as [others woken| | | |fd kq id|fd]; cbn [exec] in E.
  - unfold loop_step in E. destruct (loop s) eqn:El.
    + injection E as <-. assert (stopper s = StopDone -> shutdown s = true) as Hd by (intros Hs; apply I2; congruence).
      split; cbn [fds shutdown wake loop stopper stray with_loop]; try done.
      * intros n o Ho. rewrite (I1 n o Ho). by destruct (shutdown s).
      * intros Hs. by rewrite Hd.
      * by destruct (shutdown s).
    + destruct (_ && _); [|done]. injection E as <-. destruct fl; (split; cbn; [exact I1|done..]).
    + injection E as <-. destruct fl eqn:Ef; split; cbn; try done; intros n o Ho.
      * eapply own_closed; [exact I1|intros o'; rewrite list_elem_of_singleton; intros [= ? _]; by apply Hne|done].
      * eapply own_closed; [exact I1|intros o'; apply not_elem_of_nil|done].
    + injection E as <-. assert (fl = Epoll) as -> by (by apply I4). split; cbn; try done; intros n o Ho.
      eapply own_closed; [exact I1|intros o'; apply not_elem_of_nil|done].
    + done.
  - destruct (loop s) eqn:El; try done. injection E as <-. by split.
  - destruct (stopper s) eqn:Es; try done. injection E as <-. by split.
  - destruct (stopper s) eqn:Es; try done. apply (inj Some) in E as <-.
    assert (shutdown s = true) as Hd by (apply I2; congruence). unfold signal. destruct fl eqn:Ef.
    + destruct (fds s !! evtfd) as [[]|] eqn:Ee; split; cbn; try done; intros _ Hl; exfalso;
        assert (fds s !! evtfd = Some OEvent) by (apply I1; [done|rewrite Hl; by do 2 constructor]); congruence.
    + assert (loop s = InWait -> fds s !! pollfd = Some OPoll) as Hp by (intros Hl; apply I1; [done|rewrite Hl; by constructor]).
      destruct (fds s !! pollfd) as [[| |[] id]|] eqn:Ee; split; cbn; try done; intros _ Hl; by specialize (Hp Hl).
  - destruct (fds s !! fd) eqn:Ef; [done|]. injection E as <-. split; cbn; try done. intros n o Ho.
    rewrite <- (I1 n o Ho). apply own_change; by eauto.
  - destruct (fds s !! fd) as [[]|] eqn:Ef; try done. injection E as <-. split; cbn; try done. intros n o Ho.
    rewrite <- (I1 n o Ho). eapply (own_change (fds s) n fd o (OStranger kqueue id)); by eauto.
Qed.

Lemma run_stop fl pollfd evtfd ls : (fl = Epoll -> pollfd <> evtfd) ->
  forall s, inv fl pollfd evtfd s -> inv fl pollfd evtfd (run fl pollfd evtfd ls s).
Proof.
  intros Hne. induction ls as [|l ls IH]; intros s I; [done|]. cbn [run]. apply IH.
  destruct (exec fl pollfd evtfd l s) as [s'|] eqn:E; [|done]. by eapply exec_stop.
Qed.

(** Once [stop] has returned, four steps of the loop are its last. *)
Lemma loop_leaves fl pollfd evtfd s : inv fl pollfd evtfd s -> stopper s = StopDone ->
  loop (run fl pollfd evtfd (replicate 4 (LLoop false true)) s) = Ended.
Proof.
  intros [_ I2 I3 _] Hs. assert (shutdown s = true) as Hd by (apply I2; congruence). specialize (I3 Hs).
  destruct s as [t d w l st r]. cbn in *. subst. destruct l, fl; cbn; rewrite ?I3 by done; reflexivity.
Qed.

(** What a poller number that was closed may refer to, and whom the trigger of
    [stop] may reach: a kqueue opened under that number. *)
Definition kqueue_opened (pollfd : nat) (L : list label) (s : state) : Prop :=
  (forall id, fds s !! pollfd = Some (OStranger true id) -> LOpen pollfd true id ∈ L) /\
  (forall id, id ∈ stray s -> LOpen pollfd true id ∈ L).

Lemma exec_kqueue pollfd evtfd L l s s' :
  kqueue_opened pollfd L s -> exec Kqueue pollfd evtfd l s = Some s' -> kqueue_opened pollfd (L ++ [l]) s'.
Proof.
  intros [H1 H2] E.
  enough ((forall id, fds s' !! pollfd = Some (OStranger true id) -> fds s !! pollfd = Some (OStranger true id) \/ l = LOpen pollfd true id) /\
          (forall id, id ∈ stray s' -> id ∈ stray s \/ fds s !! pollfd = Some (OStranger true id))) as [K1 K2].
  { split; intros id H; rewrite elem_of_app, list_elem_of_singleton; [destruct (K1 id H) as [?| ->]|destruct (K2 id H) as [?|?]]; auto. }
  destruct l as [others woken| | | |fd kq id'|fd]; cbn [exec] in E.
  - unfold loop_step in E. repeat case_match; try done; apply (inj Some) in E as <-; (split; [|auto]); intros id; cbn; auto;
      intros [_ Hd]%lookup_delete_Some; auto.
  - repeat case_match; try done; apply (inj Some) in E as <-. auto.
  - repeat case_match; try done; apply (inj Some) in E as <-. auto.
  - destruct (stopper s); try done. apply (inj Some) in E as <-. unfold signal.
    destruct (fds s !! pollfd) as [[| |[] id0]|] eqn:Ep; cbn [fds stray with_wake]; rewrite ?Ep; split; intros id; auto.
    rewrite elem_of_app, list_elem_of_singleton. intros [?| ->]; auto.
  - destruct (fds s !! fd) eqn:Ef; [done|]. apply (inj Some) in E as <-. split; [|auto]. intros id. cbn [fds with_fds].
    intros [[-> [= -> ->]]|[_ H]]%lookup_insert_Some; auto.
  - destruct (fds s !! fd) as [[| |k0 id0]|] eqn:Ef; try done. apply (inj Some) in E as <-. split; [|auto]. intros id. cbn [fds with_fds].
    intros [_ H]%lookup_delete_Some; auto.
Qed.

Lemma run_kqueue pollfd evtfd ls : forall L s, kqueue_opened pollfd L s ->
  kqueue_opened pollfd (L ++ ls) (run Kqueue pollfd evtfd ls s).
Proof.
  induction ls as [|l ls IH]; intros L s H; [by rewrite app_nil_r|]. cbn [run].
  replace (L ++ l :: ls) with ((L ++ [l]) ++ ls) by (by rewrite <- app_assoc). apply IH.
  destruct (exec Kqueue pollfd evtfd l s) as [s'|] eqn:E; [by eapply exec_kqueue|].
  destruct H as [H1 H2]. split; intros id Hi; rewrite elem_of_app; auto.
Qed.

(** [newPoller] of either system. *)
Definition newPoller (fl : flavour) (create event : option nat) (ctl_ok : bool) : fdtab -> option (nat * nat) * fdtab :=
  match fl with Epoll => epoll_newPoller create event ctl_ok | Kqueue => kqueue_newPoller create ctl_ok end.

(** The system gives numbers that are not in use, the second after the first. *)
Definition unused_numbers (create event : option nat) (t : fdtab) : Prop :=
  match create with
  | None => True
  | Some fd => t !! fd = None /\ match event with None => True | Some r0 => t !! r0 = None /\ r0 <> fd end
  end.

Definition started (t : fdtab) : state := MkState t false false AtTest NotStopped [].

Lemma newPoller_cases fl create event ctl_ok t :
  unused_numbers create event t -> (forall n o, t !! n = Some o -> own o = false) ->
  match newPoller fl create event ctl_ok t with
  | (None, t') => t' = t
  | (Some (pollfd, evtfd), t') => (fl = Epoll -> pollfd <> evtfd) /\ inv fl pollfd evtfd (started t')
  end.
Proof.
  intros Hu Ht. destruct create as [fd|]; [|by destruct fl]. destruct Hu as [Hf He].
  assert (forall m o, own o = true -> t !! m = Some o -> False) as Ht' by (intros m o Ho H; apply Ht in H; congruence).
  destruct fl; cbn; [destruct event as [r0|]; [|by apply delete_insert_id]; destruct He as [Hr Hne]|]; (destruct ctl_ok; cbn).
  - split; [done|]. split; cbn; try done. intros n o Ho. rewrite !lookup_insert_Some, !elem_of_cons, elem_of_nil.
    split; [intros [[-> ->]|[_ [[-> ->]|[_ H]]]]; [by right; left|by left|by apply Ht' in H]|].
    intros [[= -> ->]|[[= -> ->]|[]]]; [right; split; [done|by left]|by left].
  - rewrite delete_insert_ne by done. rewrite (delete_insert_id t fd) by done. by apply delete_insert_id.
  - split; [done|]. split; cbn; try done. intros n o Ho. rewrite lookup_insert_Some, list_elem_of_singleton.
    split; [intros [[-> ->]|[_ H]]; [done|by apply Ht' in H]|]. intros [= -> ->]. by left.
  - by apply delete_insert_id.
Qed.

(** C18: a poller from its creation to its end.  When [newPoller] fails, no descriptor
    is left.  When it succeeds, then, however the loop, [stop] and the goroutines
    that open and close descriptors interleave: once [stop] has returned, the loop
    ends within four of its steps, whatever the connections do; when it has ended,
    both descriptors are closed; before, nothing else has closed them; and with
    kqueue [stop] reaches nothing but the poller, or another kqueue that was opened
    under the poller's number, and nothing at all but the poller if there is no
    such kqueue. *)
Theorem poller_stops fl create event ctl_ok (t : fdtab) :
  unused_numbers create event t -> (forall n o, t !! n = Some o -> own o = false) ->
  match newPoller fl create event ctl_ok t with
  | (None, t') => t' = t
  | (Some (pollfd, evtfd), t') =>
      forall ls, let s := run fl pollfd evtfd ls (started t') in
        (stopper s = StopDone -> loop (run fl pollfd evtfd (replicate 4 (LLoop false true)) s) = Ended) /\
        (forall n o, own o = true -> fds s !! n = Some o <-> (n, o) ∈ owned fl pollfd evtfd (loop s)) /\
        (fl = Kqueue -> (forall id, id ∈ stray s -> LOpen pollfd true id ∈ ls) /\
           ((forall id, LOpen pollfd true id ∉ ls) -> stray s = []))
  end.
Proof.
  intros Hu Ht. pose proof (newPoller_cases fl create event ctl_ok t Hu Ht) as H.
  destruct (newPoller fl create event ctl_ok t) as [[[pollfd evtfd]|] t']; [|done]. destruct H as [Hne I]. intros ls s.
  assert (inv fl pollfd evtfd s) as I' by (by apply run_stop).
  split; [by apply loop_leaves|]. split; [apply I'|]. intros ->.
  assert (forall id, id ∈ stray s -> LOpen pollfd true id ∈ ls) as Hs.
  { apply (run_kqueue pollfd evtfd ls [] (started t')). destruct I as [I1 _ _ _].
    assert (fds (started t') !! pollfd = Some OPoll) as Hp by (apply I1; [done|by constructor]).
    split; intros id; [by rewrite Hp|]. by intros ?%elem_of_nil. }
  split; [done|]. intros Hno. destruct (stray s) as [|id l]; [done|]. destruct (Hno id). apply Hs. by constructor.
Qed.

(** An engine with one connection, descriptor 4; the connection wakes the loop
    between the two halves of [stop]. *)
Definition one_stranger : fdtab := {[4 := OStranger false 0]}.

Lemma poller_stops_witness :
  newPoller Epoll (Some 5) (Some 6) true one_stranger = (Some (5, 6), <[6 := OEvent]> (<[5 := OPoll]> one_stranger)) /\
  (forall ls, stopper (run Epoll 5 6 ls (started (<[6 := OEvent]> (<[5 := OPoll]> one_stranger)))) = StopDone ->
     loop (run Epoll 5 6 (replicate 4 (LLoop false true)) (run Epoll 5 6 ls (started (<[6 := OEvent]> (<[5 := OPoll]> one_stranger))))) = Ended).
Proof.
  split; [reflexivity|]. intros ls. apply (poller_stops Epoll (Some 5) (Some 6) true one_stranger); [by vm_compute|].
  intros n o H. unfold one_stranger in H. apply lookup_singleton_Some in H as [_ <-]. reflexivity.
Defined.

(** [stop] sets the flag, the loop, woken by a connection, sees it and closes the
    descriptors, a new connection gets the number of the eventfd: the eight bytes
    of [stop] are written to that connection. *)
Lemma stop_writes_to_stranger :
  stray (run Epoll 5 6 [LLoop false false; LFlag; LLoop true false; LLoop false false; LLoop false false; LLoop false false; LOpen 6 false 9; LSignal]
    (started (<[6 := OEvent]> (<[5 := OPoll]> one_stranger)))) = [9].
Proof. reflexivity. Qed.

(** With kqueue the trigger can reach the poller of another engine. *)
Lemma stop_triggers_other_kqueue :
  let s := run Kqueue 5 0 [LLoop false false; LFlag; LLoop true false; LLoop false false; LLoop false false; LOpen 5 true 9; LSignal]
    (started (<[5 := OPoll]> one_stranger)) in
  loop s = Ended /\ stray s = [9].
Proof. split; reflexivity. Qed.
