(* ===== verification/WritevBsd.v ===== *)
(** * Vectored writing without a system call for it (src/writev_bsd.go)

    On the BSDs [writev] copies the buffers into one buffer of the allocator and
    writes that.  It gives what the Linux version of [NbConn] gives and leaves the
    allocator as it found it. *)

From Stdlib Require Import ZArith Lia.
From Stdlib Require Import Strings.Byte Strings.String.
From stdpp Require Import base numbers list list_numbers gmap.
From S2P Require Import Prelude Mempool MempoolFacts MempoolProps Response ResponseProps NbConn NbConnKernel.

Open Scope Z_scope.

Section writev.
Context {A : Type} `{!Allocator A} {K : Type} `{!Kernel K}.

(** [None]: a panic. *)
Definition writev_bsd (fd : Z) (iovs : list bytes) (a : A) (k : K) : option (Z * errno * K * A) :=
  let size := foldl (fun size v => size + len v) 0 iovs in
  '(pbuf, a) ← Malloc size a;
  pbuf ← reslice pbuf 0;
  '(pbuf, a) ← append_all iovs pbuf a;
  let '(n, e, k) := sys_write fd (data pbuf) k in
  a ← Free pbuf a;
  Some (n, e, k, a).

Lemma total_len (iovs : list bytes) : forall z, foldl (fun size v => size + len v) z iovs = z + len (concat iovs).
Proof.
  induction iovs as [|v iovs IH]; intros z; cbn [foldl concat]; [change (len []) with 0; lia|]. rewrite IH, len_app. lia.
Qed.

(** One write of all the buffers, and every buffer given back. *)
Lemma writev_bsd_writes `{!AllocatorLaws A} fd iovs a live k :
  alloc_inv a live ->
  let '(n, e, k') := sys_write fd (concat iovs) k in
  exists a', writev_bsd fd iovs a k = Some (n, e, k', a') /\ alloc_inv a' live.
Proof.
  intros Ha. unfold writev_bsd. rewrite total_len.
  destruct (malloc_zero a live (0 + len (concat iovs)) Ha ltac:(pose proof (len_nonneg (concat iovs)); lia)) as (p & a1 & q & -> & E & Hq & Dq).
  cbn [mbind option_bind]. rewrite E. cbn [mbind option_bind].
  destruct (append_all_ok iovs q a1 live Hq) as (p2 & a2 & -> & H2 & D2). cbn [mbind option_bind]. rewrite D2, Dq. cbn [app].
  destruct (sys_write fd (concat iovs) k) as [[n e] k']. destruct (free_one a2 live p2 H2) as (a3 & -> & H3). by exists a3.
Qed.

Lemma concat_nonempty (bs : list bytes) : concat (filter (fun b => 0 < len b) bs) = concat bs.
Proof.
  induction bs as [|b bs IH]; [done|]. rewrite filter_cons. case_decide as H; cbn [concat]; rewrite IH; [done|].
  destruct b as [|x b]; [done|]. exfalso. apply H. rewrite len_cons. pose proof (len_nonneg b). lia.
Qed.
End writev.

(** With a kernel whose vectored write is the write of the buffers one after the
    other, and with something to write, the two versions of [writev] agree. *)
Lemma writev_versions_agree {A K : Type} `{!Allocator A, !AllocatorLaws A, !Kernel K} (bs : list bytes) (a : A) live (s : @nbconn K A) :
  (forall fd bs (k : K), sys_writev fd bs k = sys_write fd (concat bs) k) -> concat bs <> [] -> alloc_inv a live ->
  let '(n, e, s') := writev_syscall bs s in
  exists a', writev_bsd (c_fd s) bs a (kern s) = Some (n, e, kern s', a') /\ alloc_inv a' live.
Proof.
  intros Hk Hne Ha. unfold writev_syscall. pose proof (concat_nonempty bs) as Hc.
  destruct (filter (fun b => 0 < len b) bs) as [|b l] eqn:E; [by rewrite <- Hc in Hne|]. rewrite Hk, Hc.
  pose proof (writev_bsd_writes (c_fd s) bs a live (kern s) Ha) as H. by destruct (sys_write (c_fd s) (concat bs) (kern s)) as [[n e] k].
Qed.

(** The kernel of [NbConnKernel] is such a kernel. *)
Lemma offer_agrees fd bs (k : script) : sys_writev fd bs k = sys_write fd (concat bs) k.
Proof. reflexivity. Qed.
