(* ===== verification/Handlers.v ===== *)
(** * The handlers of an engine (src/engine.go)

    The setters of handlers with their wrappers, [initHandlers], the calls the
    pollers make through them, and the buffer of a poller between [borrow] and
    [payback].  A handler is a number; what it does is not modelled, except that
    a handler of data may cut the buffer it is given. *)

From Stdlib Require Import ZArith Lia.
From stdpp Require Import base numbers list.
From S2P Require Import Prelude.

Open Scope Z_scope.

(** ** The setters *)

(** [None] is nil. *)
Abbreviation handler := (option nat).

(** [wgConn] is the counter of the wait group; [g_jobs] the functions given to
    [Async] that have not run, each with its handler and connection; [g_calls] the
    calls of user handlers. *)
Inductive call :=
| COpen (h c : nat)
| CClose (h c : nat)
| CUdpListen (h c : nat)
| CRead (h c : nat)
| CData (h c : nat)
| CStop (h : nat)
| CAcceptError (h : nat).

Record engine := MkEngine {
  onOpen : handler;
  onClose : handler;
  onUDPListen : handler;
  onRead : handler;
  onDataPtr : handler;
  onWrittenSize : handler;
  onReadBufferAlloc : handler;
  onReadBufferFree : handler;
  onStop : handler;
  onAcceptError : handler;
  wgConn : Z;
  g_jobs : list (nat * nat);
  g_calls : list call
}.

Inductive setter :=
| OnOpen (h : handler) | OnClose (h : handler) | OnUDPListen (h : handler) | OnRead (h : handler)
| OnData (h : handler) | OnDataPtr (h : handler) | OnWrittenSize (h : handler)
| OnReadBufferAlloc (h : handler) | OnReadBufferFree (h : handler) | OnStop (h : handler) | OnAcceptError (h : handler).

(** A setter; [None]: it panics on nil. *)
Definition set (x : setter) (g : engine) : option engine :=
  let 'MkEngine op cl ud rd da wr al fr st ae wg js cs := g in
  match x with
  | OnOpen h => _ ← h; Some (MkEngine h cl ud rd da wr al fr st ae wg js cs)
  | OnClose h => _ ← h; Some (MkEngine op h ud rd da wr al fr st ae wg js cs)
  | OnUDPListen h => _ ← h; Some (MkEngine op cl h rd da wr al fr st ae wg js cs)
  | OnRead h => Some (MkEngine op cl ud h da wr al fr st ae wg js cs)
  | OnData h | OnDataPtr h => _ ← h; Some (MkEngine op cl ud rd h wr al fr st ae wg js cs)
  | OnWrittenSize h => _ ← h; Some (MkEngine op cl ud rd da h al fr st ae wg js cs)
  | OnReadBufferAlloc h => _ ← h; Some (MkEngine op cl ud rd da wr h fr st ae wg js cs)
  | OnReadBufferFree h => _ ← h; Some (MkEngine op cl ud rd da wr al h st ae wg js cs)
  | OnStop h => _ ← h; Some (MkEngine op cl ud rd da wr al fr h ae wg js cs)
  | OnAcceptError h => Some (MkEngine op cl ud rd da wr al fr st h wg js cs)
  end.

Fixpoint set_all (xs : list setter) (g : engine) : option engine :=
  match xs with [] => Some g | x :: xs => g ← set x g; set_all xs g end.

Definition zero_engine : engine := MkEngine None None None None None None None None None None 0 [] [].

(** [initHandlers]; the handler 0 does nothing, and as the one for buffers it is
    [PollerBufferPtr]. *)
Definition initHandlers (g : engine) : option engine :=
  let g := MkEngine (onOpen g) (onClose g) (onUDPListen g) (onRead g) (onDataPtr g) (onWrittenSize g) (onReadBufferAlloc g)
             (onReadBufferFree g) (onStop g) (onAcceptError g) (wgConn g + 1) (g_jobs g) (g_calls g) in
  set_all [OnOpen (Some 0%nat); OnClose (Some 0%nat); OnData (Some 0%nat); OnReadBufferAlloc (Some 0%nat);
           OnReadBufferFree (Some 0%nat); OnUDPListen (Some 0%nat); OnStop (Some 0%nat)] g.

(** ** The calls *)

Definition note (c : call) (g : engine) : engine :=
  MkEngine (onOpen g) (onClose g) (onUDPListen g) (onRead g) (onDataPtr g) (onWrittenSize g) (onReadBufferAlloc g)
    (onReadBufferFree g) (onStop g) (onAcceptError g) (wgConn g) (g_jobs g) (g_calls g ++ [c]).
Definition count (n : Z) (js : list (nat * nat)) (g : engine) : engine :=
  MkEngine (onOpen g) (onClose g) (onUDPListen g) (onRead g) (onDataPtr g) (onWrittenSize g) (onReadBufferAlloc g)
    (onReadBufferFree g) (onStop g) (onAcceptError g) (wgConn g + n) js (g_calls g).

Inductive event :=
| EOpen (c : nat)
| EClose (c : nat)
| EUdpListen (c : nat)
| EReadable (c : nat)
| EJob
| EAcceptError
| ESet (x : setter).

(** What the pollers do; [None]: a nil function is called, or [set] panics.  The
    handler of [OnClose] is called by a function given to [Async], which takes its
    connection off [wgConn] also when the handler panics. *)
Definition step (e : event) (g : engine) : option engine :=
  match e with
  | EOpen c => h ← onOpen g; Some (note (COpen h c) (count 1 (g_jobs g) g))
  | EClose c => h ← onClose g; Some (count 0 (g_jobs g ++ [(h, c)]) g)
  | EUdpListen c => h ← onUDPListen g; Some (note (CUdpListen h c) g)
  | EReadable c =>
      match onRead g with
      | Some h => Some (note (CRead h c) g)
      | None => h ← onDataPtr g; _ ← onReadBufferAlloc g; _ ← onReadBufferFree g; Some (note (CData h c) g)
      end
  | EJob => match g_jobs g with [] => Some g | (h, c) :: js => Some (note (CClose h c) (count (-1) js g)) end
  | EAcceptError => Some (match onAcceptError g with Some h => note (CAcceptError h) g | None => g end)
  | ESet x => set x g
  end.

Fixpoint run (es : list event) (g : engine) : option engine :=
  match es with [] => Some g | e :: es => g ← step e g; run es g end.

(** ** Theorems *)

Definition ready (g : engine) : Prop :=
  is_Some (onOpen g) /\ is_Some (onClose g) /\ is_Some (onUDPListen g) /\ is_Some (onDataPtr g) /\
  is_Some (onReadBufferAlloc g) /\ is_Some (onReadBufferFree g) /\ is_Some (onStop g).

(** Setters of handlers that are not nil. *)
Definition proper (e : event) : bool :=
  match e with
  | ESet (OnRead _ | OnAcceptError _) => true
  | ESet (OnOpen h | OnClose h | OnUDPListen h | OnData h | OnDataPtr h | OnWrittenSize h | OnReadBufferAlloc h | OnReadBufferFree h | OnStop h) =>
      bool_decide (h <> None)
  | _ => true
  end.

(** The connections opened, given to a close handler, and whose close is due. *)
Definition opens (cs : list call) : list nat := omap (fun c => match c with COpen _ c => Some c | _ => None end) cs.
Definition closes (cs : list call) : list nat := omap (fun c => match c with CClose _ c => Some c | _ => None end) cs.
Definition opened (es : list event) : list nat := omap (fun e => match e with EOpen c => Some c | _ => None end) es.
Definition closed (es : list event) : list nat := omap (fun e => match e with EClose c => Some c | _ => None end) es.

Record accounts (n : Z) (os cs : list nat) (g : engine) : Prop := {
  ac_ready : ready g;
  ac_opens : opens (g_calls g) = os;
  ac_closes : closes (g_calls g) ++ (snd <$> g_jobs g) = cs;
  ac_count : wgConn g = n + Z.of_nat (length os) - Z.of_nat (length (closes (g_calls g)))
}.

Lemma set_fields x g g' : set x g = Some g' ->
  (ready g -> ready g') /\ wgConn g' = wgConn g /\ g_jobs g' = g_jobs g /\ g_calls g' = g_calls g.
Proof.
  unfold ready. destruct g, x as [h|h|h|h|h|h|h|h|h|h|h]; cbn; try destruct h; intros [= <-]; cbn; (split; [|done]); intros (?&?&?&?&?&?&?);
    repeat split; first [done|by eexists].
Qed.

Lemma set_proper x g : proper (ESet x) = true -> is_Some (set x g).
Proof. destruct g, x as [h|h|h|h|h|h|h|h|h|h|h]; cbn; try destruct h; try done; by eexists. Qed.

Lemma step_accounts n os cs e g : accounts n os cs g -> proper e = true ->
  exists g', step e g = Some g' /\ accounts n (os ++ opened [e]) (cs ++ closed [e]) g'.
Proof.
  intros [Hr Ho Hc Hn] Hp. destruct Hr as ([h1 E1] & [h2 E2] & [h3 E3] & [h4 E4] & [h5 E5] & [h6 E6] & [h7 E7]) eqn:Hr'. clear Hr'.
  destruct e as [c|c|c|c| | |x]; cbn [step]; unfold opened, closed; cbn [omap list_omap]; simpl omap; rewrite ?app_nil_r.
  - rewrite E1. eexists. split; [done|]. split; cbn; [done| | |]; unfold opens, closes; rewrite !omap_app; cbn; rewrite ?app_nil_r; [by rewrite <- Ho|done|].
    fold (closes (g_calls g)). rewrite length_app. cbn. lia.
  - rewrite E2. eexists. split; [done|]. split; cbn; [done|done| |fold (closes (g_calls g)); lia]. fold (closes (g_calls g)). rewrite fmap_app, app_assoc, Hc. done.
  - rewrite E3. eexists. split; [done|]. split; cbn; [done| | |]; unfold opens, closes; rewrite !omap_app; cbn; rewrite ?app_nil_r; done.
  - destruct (onRead g) as [h|] eqn:Er; [|rewrite E4, E5, E6]; (eexists; split; [done|]; split; cbn; [done| | |];
      unfold opens, closes; rewrite !omap_app; cbn; rewrite ?app_nil_r; done).
  - destruct (g_jobs g) as [|[h c] js] eqn:Ej; [exists g; split; [done|]; split; rewrite ?Ej; done|].
    eexists. split; [done|]. split; cbn; [done| | |]; unfold opens, closes; rewrite !omap_app; cbn; rewrite ?app_nil_r; [done| |].
    + rewrite <- app_assoc. exact Hc.
    + fold (closes (g_calls g)). rewrite length_app. cbn. lia.
  - destruct (onAcceptError g); [|by eexists]. eexists. split; [done|]. split; cbn; [done| | |];
      unfold opens, closes; rewrite !omap_app; cbn; rewrite ?app_nil_r; done.
  - destruct (set_proper x g Hp) as [g' E]. rewrite E. exists g'. split; [done|].
    destruct (set_fields x g g' E) as (H1 & H2 & H3 & H4). split; [apply H1; repeat split; by eexists|by rewrite H4|by rewrite H3, H4|by rewrite H2, H4].
Qed.

Lemma run_accounts es : forall n os cs g, accounts n os cs g -> forallb proper es = true ->
  exists g', run es g = Some g' /\ accounts n (os ++ opened es) (cs ++ closed es) g'.
Proof.
  induction es as [|e es IH]; intros n os cs g Ha Hp; cbn [run]; [exists g; by rewrite !app_nil_r|].
  apply andb_true_iff in Hp as [Hp Hps]. destruct (step_accounts n os cs e g Ha Hp) as (g1 & -> & H1). cbn [mbind option_bind].
  destruct (IH _ _ _ _ H1 Hps) as (g2 & -> & H2). exists g2. split; [done|].
  assert (opened (e :: es) = opened [e] ++ opened es) as -> by (unfold opened; by rewrite <- omap_app).
  assert (closed (e :: es) = closed [e] ++ closed es) as -> by (unfold closed; by rewrite <- omap_app).
  by rewrite !app_assoc.
Qed.

(** After [initHandlers], however handlers are set and connections opened, read
    and closed, no nil handler is called; every opened connection is given to the
    handler of [OnOpen] once, in order; every closed one to that of [OnClose] once,
    in order, or a function for it waits; and [wgConn], which [Stop] waits for, is
    one more than the opened connections whose close handler has not been called. *)
Lemma handlers_called (es : list event) :
  forallb proper es = true ->
  exists g0 g, initHandlers zero_engine = Some g0 /\ run es g0 = Some g /\
    opens (g_calls g) = opened es /\ closes (g_calls g) ++ (snd <$> g_jobs g) = closed es /\
    wgConn g = 1 + Z.of_nat (length (opened es)) - Z.of_nat (length (closes (g_calls g))).
Proof.
  intros Hp. eexists. destruct (run_accounts es 1 [] [] (default zero_engine (initHandlers zero_engine))) as (g & E & [_ H1 H2 H3]); [|done|].
  - split; [|done..]. repeat split; by eexists.
  - exists g. split; [reflexivity|]. by split.
Qed.

(** ** The buffer of a poller *)

(** [ReadBuffer]: its capacity and its present length, which all that is given the
    pointer to it share. *)
Record read_buffer := MkReadBuffer { rb_cap : Z; rb_len : Z }.

(** [PollerBufferPtr], which [borrow] calls by default: the pointer. *)
Definition borrow (b : read_buffer) : Z := rb_len b.
Definition payback (b : read_buffer) : read_buffer := MkReadBuffer (rb_cap b) (rb_cap b).
Definition cut (n : Z) (b : read_buffer) : option read_buffer :=
  if (0 <=? n) && (n <=? rb_cap b) then Some (MkReadBuffer (rb_cap b) n) else None.

(** Reads with what each returned and how the handler cut the buffer; result: the
    space each read was offered. *)
Fixpoint reads (rs : list (Z * Z)) (b : read_buffer) : option (list Z * read_buffer) :=
  match rs with
  | [] => Some ([], b)
  | (n, h) :: rs =>
      let bufLen := borrow b in
      b ← (if 0 <? n then b ← cut n b; cut h b else Some b);
      '(ls, b) ← reads rs (payback b);
      Some (bufLen :: ls, b)
  end.

(** Every read is offered the whole buffer, whatever was read before. *)
Lemma reads_offered rs cap : Forall (fun r => r.1 <= cap /\ 0 <= r.2 <= cap) rs ->
  reads rs (MkReadBuffer cap cap) = Some (replicate (length rs) cap, MkReadBuffer cap cap).
Proof.
  induction 1 as [|[n h] rs [Hn Hh] _ IH]; [done|]. cbn in Hn, Hh. cbn [reads borrow rb_len length replicate].
  destruct (0 <? n) eqn:E.
  - apply Z.ltb_lt in E. unfold cut. cbn [rb_cap]. rewrite (proj2 (Z.leb_le 0 n)), (proj2 (Z.leb_le n cap)) by lia.
    cbn. rewrite (proj2 (Z.leb_le 0 h)), (proj2 (Z.leb_le h cap)) by lia. cbn. change (payback _) with (MkReadBuffer cap cap). by rewrite IH.
  - cbn. change (payback _) with (MkReadBuffer cap cap). by rewrite IH.
Qed.
