(* ===== verification/WsDeflate.v ===== *)
(** * Compressing a message (src/nbhttp/websocket/compression.go, conn.go)

    [WriteMessage] compresses through a chain of writers: a flate writer from the
    pool of its level, the [truncWriter] of [WsCompress] that holds the tail back,
    and a [writeBuffer], a buffer of the engine's allocator.  Package
    compress/flate is a class, with the part of its documentation the chain relies
    on as laws.  The chain as a whole is the function [deflate] that [WsConn] takes
    as an argument. *)

From Stdlib Require Import ZArith Lia.
From Stdlib Require Import Strings.Byte Strings.String.
From stdpp Require Import base numbers list list_numbers gmap.
From S2P Require Import Prelude GoLib WsCompress WsOptions.
From S2P Require Import Mempool MempoolFacts MempoolProps NbConnFacts Response ResponseProps.

Open Scope Z_scope.

(** What [Flush] ends its output with. *)
Definition flate_tail : bytes := [x00; x00; xff; xff].

(** ** Package compress/flate *)

(** [Write] and [Flush] give what they write to the writer below, piece by piece;
    [Write] also whether it succeeded. *)
Class Flate (F : Type) := {
  flate_NewWriter : Z -> F;
  flate_Reset : F -> F;
  flate_Write : bytes -> F -> list bytes * bool * F;
  flate_Flush : F -> list bytes * F
}.

(** A writer that was reset is as good as a new one of its level; with a writer
    below that does not fail, the output of one [Write] and [Flush] ends with the
    tail, and is more than the tail. *)
Class FlateLaws (F : Type) `{!Flate F} := {
  deflated : Z -> bytes -> bytes;
  of_level : Z -> F -> Prop;
  deflated_some l d : deflated l d <> [];
  flate_law l d f : isValidCompressionLevel l = true ->
    f = flate_NewWriter l \/ (exists f', of_level l f' /\ f = flate_Reset f') ->
    exists cs f1 cs' f2, flate_Write d f = (cs, true, f1) /\ flate_Flush f1 = (cs', f2) /\
      concat (cs ++ cs') = deflated l d ++ flate_tail /\ of_level l f2
}.

(** ** The chain *)

(** The writes a [Write] of the [truncWriter] passes on. *)
Definition tw_down (w : truncWriter) (p : bytes) : list bytes :=
  let '(arr, n, p) := tw_fill w p in
  if (tw_n w <? 4)%nat && (length p =? 0)%nat then []
  else let m := Nat.min (length p) 4 in [take m arr; take (length p - m) p].

Section chain.
Context {A : Type} `{!Allocator A} {F : Type} `{!Flate F}.

(** [writeBuffer.Write] *)
Definition wb_Write (p : bytes) (w : option pbuf) (a : A) : option (option pbuf * A) :=
  match w with
  | None => '(q, a) ← Malloc (len p) a; Some (Some (Mempool.copy_at q 0 p), a)
  | Some q => '(q, a) ← Append q p a; Some (Some q, a)
  end.

(** [writeBuffer.Close] *)
Definition wb_Close (w : option pbuf) (a : A) : option A :=
  match w with Some q => Free q a | None => Some a end.

Fixpoint wb_writes (ps : list bytes) (w : option pbuf) (a : A) : option (option pbuf * A) :=
  match ps with
  | [] => Some (w, a)
  | p :: ps => '(w, a) ← wb_Write p w a; wb_writes ps w a
  end.

(** The pieces a flate writer writes, through the [truncWriter]. *)
Fixpoint pipe (cs : list bytes) (t : truncWriter) (w : option pbuf) (a : A) : option (truncWriter * option pbuf * A) :=
  match cs with
  | [] => Some (t, w, a)
  | c :: cs => '(w, a) ← wb_writes (tw_down t c) w a; pipe cs (tw_Write t c).1 w a
  end.

(** [flateWriterPools]; [pick] is the writer [Get] returns, if the pool has one
    with that number. *)
Definition pools := Z -> list F.

(** [compressWriter]: [None] is an index out of range. *)
Definition compressWriter (level : Z) (pick : nat) (ps : pools) : option (F * pools) :=
  i ← compressWriter_pool level;
  match ps i !! pick with
  | Some fw => Some (flate_Reset fw, fun j => if decide (j = i) then delete pick (ps i) else ps j)
  | None => Some (flate_NewWriter level, ps)
  end.

(** The branch of [WriteMessage] that compresses: whether it did, and the buffer.
    A writer that failed is not put back. *)
Definition compress (level : Z) (pick : nat) (d : bytes) (ps : pools) (a : A) : option (bool * option pbuf * pools * A) :=
  '(fw, ps) ← compressWriter level pick ps;
  let '(cs, ok, fw) := flate_Write d fw in
  '(t, w, a) ← pipe cs new_truncWriter None a;
  if ok : bool then
    let '(cs, fw) := flate_Flush fw in
    '(t, w, a) ← pipe cs t w a;
    i ← compressWriter_pool level;
    Some (true, w, (fun j => if decide (j = i) then fw :: ps i else ps j), a)
  else Some (false, w, ps, a).

(** What the frames are made of: the buffer, or the data. *)
Definition message_data (d : bytes) (w : option pbuf) : bytes := match w with Some q => Mempool.data q | None => d end.
End chain.

(** ** What the chain does *)

Lemma tw_down_out w p : tw_out (tw_Write w p).1 = tw_out w ++ concat (tw_down w p).
Proof.
  unfold tw_Write, tw_down. destruct (tw_fill w p) as [[arr n] q]. destruct (_ && _); cbn; [by rewrite app_nil_r|].
  by rewrite app_nil_r, app_assoc.
Qed.

Section laws.
Context {A : Type} `{!Allocator A} `{!AllocatorLaws A}.

(** The buffer holds [bs]; there is none while nothing was written. *)
Definition wb_ok (a : A) (live : gset nat) (w : option pbuf) (bs : bytes) : Prop :=
  match w with
  | None => bs = [] /\ alloc_inv a live
  | Some q => holds a live q /\ Mempool.data q = bs
  end.

Lemma wb_Write_ok a live w bs p : wb_ok a live w bs ->
  exists w' a', wb_Write p w a = Some (w', a') /\ wb_ok a' live w' (bs ++ p).
Proof.
  destruct w as [q|]; cbn [wb_ok wb_Write].
  - intros [Hh Hd]. destruct (append_one a live q p Hh) as (q' & a' & -> & Hh' & Hd'). exists (Some q'), a'. split; [done|].
    split; [done|]. by rewrite Hd', Hd.
  - intros [-> Ha]. destruct (malloc_law a live (len p) Ha (len_nonneg p)) as (q & a' & -> & Hl & Hg & Hn & Ha').
    exists (Some (Mempool.copy_at q 0 p)), a'. split; [done|]. split; [split; [by apply genuine_copy_at|done]|by apply copy_fill].
Qed.

Lemma wb_writes_ok ps : forall a live w bs, wb_ok a live w bs ->
  exists w' a', wb_writes ps w a = Some (w', a') /\ wb_ok a' live w' (bs ++ concat ps).
Proof.
  induction ps as [|p ps IH]; intros a live w bs H; cbn [wb_writes concat]; [exists w, a; by rewrite app_nil_r|].
  destruct (wb_Write_ok a live w bs p H) as (w1 & a1 & -> & H1). cbn [mbind option_bind]. rewrite app_assoc. by apply IH.
Qed.

Lemma pipe_ok cs : forall t a live w, wb_ok a live w (tw_out t) ->
  exists w' a', pipe cs t w a = Some (write_each t cs, w', a') /\ wb_ok a' live w' (tw_out (write_each t cs)).
Proof.
  induction cs as [|c cs IH]; intros t a live w H; cbn [pipe]; [by exists w, a|].
  destruct (wb_writes_ok (tw_down t c) a live w _ H) as (w1 & a1 & -> & H1). cbn [mbind option_bind].
  rewrite <- tw_down_out in H1. exact (IH _ _ _ _ H1).
Qed.

(** The [truncWriter] splits off the tail. *)
Lemma tail_held cs z : z <> [] -> concat cs = z ++ flate_tail -> tw_out (write_each new_truncWriter cs) = z.
Proof.
  intros Hz Hc. destruct (trunc_writer_holds_four cs) as [He Hl]. rewrite Hc in He, Hl.
  rewrite length_app in Hl. change (length flate_tail) with 4%nat in Hl.
  apply app_inj_2 in He as [He _]; [done|]. change (length flate_tail) with 4%nat. lia.
Qed.

Context {F : Type} `{!Flate F} `{!FlateLaws F}.

Definition pools_ok (ps : pools (F := F)) : Prop := forall i f, f ∈ ps i -> of_level (i + minCompressionLevel) f.

Lemma compressWriter_ok level pick ps i : compressWriter_pool level = Some i -> pools_ok ps ->
  exists fw ps', compressWriter level pick ps = Some (fw, ps') /\ pools_ok ps' /\
    (fw = flate_NewWriter level \/ exists f, of_level level f /\ fw = flate_Reset f).
Proof.
  intros Hi Hp. unfold compressWriter. rewrite Hi. cbn [mbind option_bind].
  assert (level = i + minCompressionLevel) as El by (unfold compressWriter_pool in Hi; destruct (_ && _); [injection Hi as <-; lia|done]).
  destruct (ps i !! pick) as [fw|] eqn:Ef; [|exists (flate_NewWriter level), ps; split; [done|]; split; [done|by left]].
  eexists _, _. split; [done|]. split; [|right; exists fw; split; [|done]; rewrite El; by eapply Hp, list_elem_of_lookup_2].
  intros j f. case_decide as Ej; [|by apply Hp]. subst j. intros Hf. apply Hp.
  eapply elem_of_submseteq; [exact Hf|apply submseteq_delete].
Qed.

(** The message that goes out is the deflated data without the tail, whichever
    writer the pool gives; the writer goes back to the pool of its level; and once
    the buffer is closed the allocator has everything back. *)
Lemma compress_message level pick d ps (a : A) live :
  isValidCompressionLevel level = true -> pools_ok ps -> alloc_inv a live ->
  exists w ps' a1 a2, compress level pick d ps a = Some (true, w, ps', a1) /\
    message_data d w = deflated level d /\ wb_Close w a1 = Some a2 /\ alloc_inv a2 live /\ pools_ok ps'.
Proof.
  intros Hl Hp Ha. assert (exists i, compressWriter_pool level = Some i /\ level = i + minCompressionLevel) as (i & Hi & El).
  { unfold isValidCompressionLevel in Hl. apply andb_true_iff in Hl as [H1 H2]. apply Z.leb_le in H1, H2.
    exists (level - minCompressionLevel). unfold compressWriter_pool, flateWriterPools_len.
    rewrite (proj2 (Z.leb_le _ _)), (proj2 (Z.ltb_lt _ _)) by lia. split; [done|lia]. }
  destruct (compressWriter_ok level pick ps i Hi Hp) as (fw & ps1 & E & Hp1 & Hfw). unfold compress. rewrite E. cbn [mbind option_bind].
  destruct (flate_law level d fw Hl Hfw) as (cs & f1 & cs' & f2 & -> & -> & Hc & Hf2).
  destruct (pipe_ok cs new_truncWriter a live None) as (w1 & a1 & -> & H1); [done|]. cbn [mbind option_bind].
  destruct (pipe_ok cs' _ a1 live w1 H1) as (w2 & a2 & -> & H2). cbn [mbind option_bind]. rewrite Hi. cbn [mbind option_bind].
  assert (write_each (write_each new_truncWriter cs) cs' = write_each new_truncWriter (cs ++ cs')) as Hw by (unfold write_each; by rewrite foldl_app).
  rewrite Hw, (tail_held (cs ++ cs') _ (deflated_some level d) Hc) in H2.
  destruct w2 as [q|]; [|by destruct H2 as [H2 _]; apply deflated_some in H2]. destruct H2 as [Hh Hd].
  destruct (free_one a2 live q Hh) as (a3 & Ef & Ha3).
  eexists _, _, _, a3. split; [done|]. split; [done|]. split; [done|]. split; [done|].
  intros j f. case_decide as Ej; [|by apply Hp1]. subst j. intros [->|Hf]%elem_of_cons; [by rewrite <- El|by apply Hp1].
Qed.
End laws.

(** ** A flate writer *)

(** One that stores: each [Write] passes the data on, [Flush] writes an empty
    stored block. *)
#[global] Instance stored_flate : Flate nat := {|
  flate_NewWriter l := Z.to_nat (l + 2);
  flate_Reset f := f;
  flate_Write d f := ([d], true, f);
  flate_Flush f := ([[x00]; [x00; x00]; [xff; xff]], f)
|}.

#[global] Instance stored_laws : FlateLaws nat.
Proof.
  refine {| deflated := fun _ d => d ++ [x00]; of_level := fun l f => f = Z.to_nat (l + 2) |}.
  - intros l d. by destruct d.
  - intros l d f _ Hf. assert (f = Z.to_nat (l + 2)) as -> by (destruct Hf as [->|(f' & -> & ->)]; done).
    eexists _, _, _, _. split; [done|]. split; [done|]. split; [|done]. cbn. by rewrite <- app_assoc.
Defined.

#[local] Instance deflate_allocator : Allocator aligned := aligned_allocator (fun _ => Some 0%nat).

(** Two messages one after the other, the second with the recycled writer. *)
Lemma compress_run :
  (let a := newAligned in
   '(ok1, w1, ps, a) ← compress (A := aligned) 1 0 (str "hello") (fun _ => []) a;
   a ← wb_Close w1 a;
   '(ok2, w2, ps, a) ← compress 1 0 (str "again") ps a;
   Some (ok1, message_data [] w1, ok2, message_data [] w2, ps 3)) =
  Some (true, str "hello" ++ [x00], true, str "again" ++ [x00], [3%nat]).
Proof. vm_compute. reflexivity. Qed.
